(* ===== verification/_CoqProject ===== *)
-Q . S2P
Prelude.v
Pmm.v
CString.v
Printk.v
Security.v
Heap.v
Vmm.v
Sched.v
SchedRun.v
Sync.v
Timer.v
Process.v
Crfs.v
CrfsMap.v
CrfsFiles.v
CrfsNames.v
Vfs.v
Syscall.v
Net.v
Tcp.v
Dns.v
Gfx.v
Gui.v
