(* ===== verification/Prelude.v ===== *)
(** * CrimsonOS: the core of the kernel

    A model of the kernel's core, its file system, its network stack, its drawing
    functions and its compositor, and the theorems that say what they do.  Definitions are translated function by function from the C
    sources under [src/] and are executable; every theorem about the program has a
    number C<n> in its comment.

    ** Parts

    - [Prelude]: record update ([r <| f := v |>]), fixed-width integers ([u8] ..
      [s64]), arrays ([l.[i]], [l.[i <- x]]), searches, bits, C linked lists
      ([chain]), ring buffers ([newest], [ring_list]), and the hint databases.
    - [Pmm] (mm.c, first part): the page bitmap; [PageAlloc] is the interface of a
      page allocator.
    - [CString] (string.c, stdlib.c): memory, string and number routines over a byte
      memory.
    - [Printk] (printk.c): the formatter, over the log ring buffer and over the
      buffer of [vsnprintf]; [dmesg] and the hexadecimal dump.
    - [Security] (security.c, [pkg_hash_sha256] of pkg.c): access control between
      domains, path rules of sandboxes, the states of verified boot, address
      randomisation, control-flow checks, canaries, and the audit log, which writes
      its messages with [Printk].
    - [Heap] (mm.c, second part): [kmalloc] and its relatives over block headers;
      grows by [pmm_alloc_n].
    - [Vmm] (mm.c, third part, and vmm_stub.c): four-level page tables over any
      [PageAlloc].
    - [Sched], [SchedRun] (sched.c): run queues and wait queues as linked lists
      through the process control blocks; [Sched] holds the calls and what each
      does, [SchedRun] removal, reachability and the order of execution.  Going to
      sleep is two steps, since the locks are released in between.
    - [Sync] (sync.c, the interrupt mask of gic.c): spinlocks at the grain of their
      atomic steps; read-write lock, mutex, semaphore and barrier over [Sched].
    - [Timer] (timer.c): uptime, busy waits, software timers.
    - [Process] (process.c): the process table over [Sched] and the interface
      [KernelMemory], whose instance [kmem_memory] is made of [Heap], [Pmm] and
      [Vmm].
    - [Crfs] (crfs.c): CrimsonFS over the interface [BlockDevice]; [CrfsMap] is about
      its block allocator and block map, [CrfsFiles] about reading and writing,
      [CrfsNames] about format, mount and opening by name.
    - [Vfs] (vfs.c, fs.h): the descriptor table over the interface [FileBackend],
      which CrimsonFS implements ([crfs_backend]).
    - [Syscall] (syscall.c): the table of system calls and every handler, over
      [Vfs], [Process], [Sched] and the page allocator inside [Heap]; drivers and
      network are the interface [Devices].  The table and the counters are in the
      memory the handlers write to, at the addresses a [layout] gives them.
    - [Net] (net.c, net.h): every function of the network stack over the interface
      [NetMemory] (byte memory and [kmalloc]), which [Heap] implements; with the
      theorems about checksums, ARP and IPv4 input.  [Tcp] holds those about sockets,
      [Dns] those about the name resolver; both only add theorems.  A packet comes in
      at an address and goes out as a list of bytes in [sent].
    - [Gfx] (gui_graphics.c, display.h): every drawing function; text is read with
      [CString].
    - [Gui] (compositor.c, gui.h): views and touch input, the PIN pad of the lock
      screen, notifications, surfaces (allocated from a [NetMemory]), apps, and the
      drawing of every view as a list of calls of [Gfx].

    A C function keeps its name.  A struct is a [Record] (some fields prefixed), a
    static variable a field of the component's state, a pointer an address ([Z],
    [NULL] = 0) or an index into a store; an operation maps a state to a state and
    its result.  A call made with a component's lock held is one step.

    ** Theorems

    - [Pmm]: the bitmap implements a set of free pages with lowest-first and
      lowest-run allocation; pages are never handed out twice; the two ways to
      break the count.
    - [CString]: the word-wise loops equal byte-wise ones; the string routines; the
      extra byte of [strncpy]; printing and parsing numbers are inverse; the two
      versions of [strtoul].
    - [Printk]: what a format means ([fmt_text]) and that the log and [vsnprintf]
      get exactly that text, the one its newest 16384 characters, the other its
      first [size - 1]; a printed number is read back by [strtoul].
    - [Security]: which accesses between domains are granted; the first rule of a
      sandbox wins; the audit log keeps its newest 4096 entries; the strength of
      the mitigations, and what they do not do.
    - [Heap]: held blocks never overlap, also when the heap grows; blocks tile a
      heap of one region; first fit, growth, release, reallocation; merging across a
      gap and size overflow.
    - [Vmm]: mapping and unmapping implement a partial map of pages; all-or-nothing
      allocation of a range; release of a whole address space; deep copy.
    - [SchedRun]: queues stay well formed and hold each process at most once, every
      call returns, what a tick, a yield and a boost do, turns in round robin, sleeping and
      waking, a wakeup in the middle of going to sleep, removal.
    - [Sync]: exclusion of the spinlock for all interleavings; reader, semaphore and
      barrier counts; what goes wrong in a contended mutex and around [spin_trylock].
    - [Timer]: which callbacks fire and when; slots; time arithmetic and its overflow.
    - [Process]: table, bitmap and PIDs agree; creation succeeds or leaves no
      trace; exit, wait and kill.
    - [CrfsMap], [CrfsFiles], [CrfsNames]: blocks are handed out once; the block map
      is a map; files are byte sequences; a new file system opens nothing by name.
    - [Vfs]: the descriptor table is well typed; seeking, statistics and directory
      calls have no effect.
    - [Syscall]: which numbers are served and counted, while no call writes into the
      tables, and how one can; what the memory calls take and give back; capabilities
      are for the asking.
    - [Net]: checksums verify; the ARP cache is a map, filled by the exchange of a
      request and its reply; what becomes of IPv4 fragments.
    - [Tcp]: in all reachable states sockets are well formed; the table of the state
      machine; the received bytes are a prefix of the peer's stream; sending cuts the
      bytes it was given into segments, and never ends once the ring is full; a segment sent is received as it was; the
      sequence number of the SYN.
    - [Dns]: the query, byte by byte up to its frame, and its answer; parsing answers
      ends; dotted addresses.
    - [Gfx]: nothing is drawn outside the frame and the clip rectangle; rectangles
      and copies equal drawing pixel by pixel; lines and circles consist of the
      nearest pixels; the integer square root.
    - [Gui]: the lock screen is a PIN pad, what opens it, and the PINs that cannot be
      typed; no touch or frame fails or leaves its buffers; the notifications are a
      bounded queue; the power menu opens the lock.

    ** Bounds and fuel

    A loop that is not structural takes fuel.  List walks ([Heap], [Sched],
    [Process]) take more than the number of blocks or processes, and the theorems
    say that calls return with it in every reachable state.  String loops take more
    than the length of the string.  [io_fuel] of [crfs_read] and [crfs_write] counts
    the blocks touched, and the theorems show it is enough; the directory loops move
    on by at least a byte a round, so 4096 rounds cover a block.  [tcp_send] takes one
    more round than there are bytes and [fold_carries] four, both proved enough; the
    walks over a DNS packet take one more than its bytes.  A line takes one round a
    pixel, a circle one a row, the square root at most 33, all proved.  The strings of
    [Gui] are shorter than the 300 rounds its theorems ask for.

    ** Not modelled

    The functions that only print statistics; the text of log messages in the parts
    other than [Printk] and [Security]; TLB maintenance, barriers and register
    access other than as recorded events; code in assembly (boot.S, the context
    switch).  In [Crfs], errors of the block device, which the code ignores, and a
    failing [kmalloc] of the segment bitmap, which it does not check.  Of the other
    parts of the repository: device drivers (display, touch, audio, camera, USB,
    power, radio, modem, GPIO, UART) are register sequences; AES and GHASH are inline
    assembly; the files under [src/kernel/] include headers that are not in the
    repository; shell, kmain and stubs mostly print and call the other parts.

    In [Net], the [transmit] and [poll] functions of a device, locks, and the timer
    that [net_init] starts; a call that waits for another process is split at the
    wait.  A division by zero in [Gfx] has no result, as in C (on AArch64 the quotient
    would be 0).  In [Gui] the clock is an argument, the
    frame buffer is the one the display driver reports, and a launch that stores
    through [NULL] has no result.  The package manager, the shell, the widgets and the
    browser are programs over the kernel, large and apart from it; they are left out. *)
From Stdlib Require Export ZArith Lia.
From stdpp Require Export functions gmap prelude.
#[global] Open Scope Z_scope.

(** [lia] also reasons about [/] and [mod] by constants. *)
#[global] Ltac Zify.zify_post_hook ::= Z.to_euclidean_division_equations.

(** * Record update

    C assigns struct fields in place; [r <| f := v |>] is the record [r] with
    the field [f] replaced.  A record type declares its eta expansion once
    ([Eta]); [build_setter] derives the setter of every projection from it. *)

Class Eta (R : Type) := eta_of : R -> R.
Class Setter {R T : Type} (proj : R -> T) := set_field : T -> R -> R.
Definition upd {R T : Type} (proj : R -> T) {s : Setter proj} (v : T) (r : R) : R :=
  s v r.

Ltac build_setter proj :=
  lazymatch type of proj with
  | ?R -> ?T =>
      let inst := constr:(_ : Eta R) in
      let e := eval hnf in inst in
      let ab := eval pattern proj in e in
      lazymatch ab with
      | ?body _ =>
          let res := eval cbv beta in (fun (v : T) => body (fun _ : R => v)) in
          exact res
      end
  end.

#[export] Hint Extern 1 (@Setter ?R ?T ?proj) => build_setter proj : typeclass_instances.

Declare Scope crimson_scope.
Delimit Scope crimson_scope with crimson.
#[global] Open Scope crimson_scope.

Notation "r <| f := v |>" := (upd f v r)
  (at level 1, f at level 9, v at level 99, left associativity,
   format "r  <| f  :=  v |>") : crimson_scope.

(** [rec_simpl] computes projections of field updates, in the goal or in a
    hypothesis, without unfolding the records. *)
Ltac rec_simpl_step :=
  match goal with
  | |- context [ ?p (@upd ?R ?T ?f ?s ?v ?r) ] =>
      first [ change (p (@upd R T f s v r)) with v
            | change (p (@upd R T f s v r)) with (p r) ]
  | H : context [ ?p (@upd ?R ?T ?f ?s ?v ?r) ] |- _ =>
      first [ change (p (@upd R T f s v r)) with v in H
            | change (p (@upd R T f s v r)) with (p r) in H ]
  end.
Ltac rec_simpl := repeat rec_simpl_step.

(** * Machine integers

    A [w]-bit unsigned quantity is a [Z] in [0, 2^w); the wrap-around of C's
    unsigned arithmetic is written out with [u8] .. [u64], the reinterpretation
    as a two's complement signed value with [s32] and [s64]. *)

Definition u8 (x : Z) : Z := x mod 2 ^ 8.
Definition u16 (x : Z) : Z := x mod 2 ^ 16.
Definition u32 (x : Z) : Z := x mod 2 ^ 32.
Definition u64 (x : Z) : Z := x mod 2 ^ 64.
Definition s8 (x : Z) : Z := (x + 2 ^ 7) mod 2 ^ 8 - 2 ^ 7.
Definition s32 (x : Z) : Z := (x + 2 ^ 31) mod 2 ^ 32 - 2 ^ 31.
Definition s64 (x : Z) : Z := (x + 2 ^ 63) mod 2 ^ 64 - 2 ^ 63.

Lemma u8_range x : 0 <= u8 x < 256.
Proof. apply Z.mod_pos_bound. lia. Qed.
Lemma u16_range x : 0 <= u16 x < 2 ^ 16.
Proof. apply Z.mod_pos_bound. lia. Qed.
Lemma u32_range x : 0 <= u32 x < 2 ^ 32.
Proof. apply Z.mod_pos_bound. lia. Qed.
Lemma u64_range x : 0 <= u64 x < 2 ^ 64.
Proof. apply Z.mod_pos_bound. lia. Qed.

Lemma u8_id x : 0 <= x < 256 -> u8 x = x.
Proof. apply Z.mod_small. Qed.
Lemma u16_id x : 0 <= x < 2 ^ 16 -> u16 x = x.
Proof. apply Z.mod_small. Qed.
Lemma u32_id x : 0 <= x < 2 ^ 32 -> u32 x = x.
Proof. apply Z.mod_small. Qed.
Lemma u64_id x : 0 <= x < 2 ^ 64 -> u64 x = x.
Proof. apply Z.mod_small. Qed.
Lemma s8_id x : - 2 ^ 7 <= x < 2 ^ 7 -> s8 x = x.
Proof. intros. unfold s8. rewrite Z.mod_small; lia. Qed.
Lemma s32_id x : - 2 ^ 31 <= x < 2 ^ 31 -> s32 x = x.
Proof. intros. unfold s32. rewrite Z.mod_small; lia. Qed.
Lemma s64_id x : - 2 ^ 63 <= x < 2 ^ 63 -> s64 x = x.
Proof. intros. unfold s64. rewrite Z.mod_small; lia. Qed.

(** * Arrays: C arrays are lists, indexed by [Z]. *)

Definition aget {A} `{Inhabited A} (l : list A) (i : Z) : A := l !!! Z.to_nat i.
Definition aset {A} (l : list A) (i : Z) (x : A) : list A := <[Z.to_nat i := x]> l.

Notation "l .[ i ]" := (aget l i)
  (at level 1, left associativity, format "l .[ i ]") : crimson_scope.
Notation "l .[ i <- x ]" := (aset l i x)
  (at level 1, left associativity, format "l .[ i  <-  x ]") : crimson_scope.

Definition zlen {A} (l : list A) : Z := Z.of_nat (length l).

Lemma zlen_app {A} (l1 l2 : list A) : zlen (l1 ++ l2) = zlen l1 + zlen l2.
Proof. unfold zlen. rewrite length_app. lia. Qed.
Lemma zlen_cons {A} (x : A) l : zlen (x :: l) = 1 + zlen l.
Proof. unfold zlen. cbn [length]. lia. Qed.
Lemma zlen_nonneg {A} (l : list A) : 0 <= zlen l.
Proof. unfold zlen. lia. Qed.

Section arrays.
Context {A : Type} `{!Inhabited A}.
Implicit Types (l : list A) (i j : Z).

Lemma zlen_aset l i x : zlen (l.[i <- x]) = zlen l.
Proof. unfold zlen, aset. by rewrite length_insert. Qed.

Lemma aget_aset_eq l i x : 0 <= i < zlen l -> l.[i <- x].[i] = x.
Proof.
  unfold zlen, aget, aset. intros.
  apply list_lookup_total_insert_eq. lia.
Qed.

Lemma aget_aset_ne l i j x : 0 <= i -> 0 <= j -> i <> j -> l.[i <- x].[j] = l.[j].
Proof.
  unfold aget, aset. intros.
  apply list_lookup_total_insert_ne. lia.
Qed.

Lemma aget_aset l i j x :
  0 <= i < zlen l -> 0 <= j ->
  l.[i <- x].[j] = if Z.eqb i j then x else l.[j].
Proof.
  intros. destruct (Z.eqb_spec i j) as [->|?].
  - by apply aget_aset_eq.
  - apply aget_aset_ne; lia.
Qed.

Lemma aset_same l i : 0 <= i < zlen l -> l.[i <- l.[i]] = l.
Proof.
  unfold aset, aget, zlen. intros Hi. apply list_insert_id. apply list_lookup_lookup_total_lt. lia.
Qed.

Lemma aget_replicate n i (x : A) : 0 <= i < Z.of_nat n -> (replicate n x).[i] = x.
Proof. intros. unfold aget. apply lookup_total_replicate_2. lia. Qed.

Lemma zlen_replicate n (x : A) : zlen (replicate n x) = Z.of_nat n.
Proof. unfold zlen. by rewrite length_replicate. Qed.

Lemma aget_elem l i : 0 <= i < zlen l -> l.[i] ∈ l.
Proof.
  unfold zlen, aget. intros. apply list_elem_of_lookup_total_2. lia.
Qed.

Lemma Forall_aget (P : A -> Prop) l i : Forall P l -> 0 <= i < zlen l -> P l.[i].
Proof.
  unfold zlen, aget. intros. apply Forall_lookup_total_1; [done|lia].
Qed.

Lemma Forall_aset (P : A -> Prop) l i x : Forall P l -> P x -> Forall P (l.[i <- x]).
Proof. intros. by apply Forall_insert. Qed.
End arrays.

(** * Hints

    [crimson]: ranges of fixed-width values; [lens]: lengths of arrays. *)
Create HintDb crimson discriminated.
#[export] Hint Resolve u8_range u16_range u32_range u64_range zlen_nonneg : crimson.
#[export] Hint Rewrite @zlen_aset @zlen_replicate @zlen_app @zlen_cons : lens.

(** * Searches

    [for (i = a; i < a + n; i++) if (p(i)) return i;] *)

Fixpoint find_from (p : Z -> bool) (n : nat) (i : Z) : option Z :=
  match n with
  | O => None
  | S n' => if p i then Some i else find_from p n' (i + 1)
  end.

Lemma find_from_Some p n i j :
  find_from p n i = Some j ->
  i <= j < i + Z.of_nat n /\ p j = true /\ forall k, i <= k < j -> p k = false.
Proof.
  revert i. induction n as [|n IH]; intros i; simpl; [done|].
  destruct (p i) eqn:E.
  - intros [= <-]. repeat split; try lia; auto.
  - intros (H1 & H2 & H3)%IH. repeat split; try lia; auto.
    intros k Hk. destruct (decide (k = i)) as [->|]; [done|]. apply H3. lia.
Qed.

Lemma find_from_None p n i :
  find_from p n i = None <-> forall k, i <= k < i + Z.of_nat n -> p k = false.
Proof.
  revert i. induction n as [|n IH]; intros i; simpl.
  - split; [intros; lia|done].
  - destruct (p i) eqn:E.
    + split; [done|]. intros H. rewrite H in E; [done|lia].
    + rewrite IH. split; intros H k Hk.
      * destruct (decide (k = i)) as [->|]; [done|]. apply H. lia.
      * apply H. lia.
Qed.

Lemma find_from_first p n i j :
  i <= j < i + Z.of_nat n -> p j = true -> (forall k, i <= k < j -> p k = false) ->
  find_from p n i = Some j.
Proof.
  intros Hj Hp Hlt. destruct (find_from p n i) as [m|] eqn:E.
  - apply find_from_Some in E as (Hm & Hpm & Hmin). f_equal.
    destruct (Z.lt_trichotomy m j) as [?|[?|?]]; [|done|].
    + rewrite Hlt in Hpm; [done|lia].
    + rewrite Hmin in Hp; [done|lia].
  - rewrite find_from_None in E. rewrite E in Hp; [done|lia].
Qed.

Lemma find_from_ext p q n i :
  (forall k, i <= k < i + Z.of_nat n -> p k = q k) -> find_from p n i = find_from q n i.
Proof.
  revert i. induction n as [|n IH]; intros i H; simpl; [done|].
  rewrite H by lia. destruct (q i); [done|]. apply IH. intros. apply H. lia.
Qed.

(** * Bits of words *)

Definition bit_set (w b : Z) : Z := Z.lor w (Z.shiftl 1 b).
(** [w &= ~(1ULL << b)] *)
Definition bit_clear (w b : Z) : Z := Z.land w (Z.lnot (Z.shiftl 1 b)).

Lemma testbit_shiftl_1 b i : 0 <= b -> 0 <= i -> Z.testbit (Z.shiftl 1 b) i = (i =? b).
Proof.
  intros. rewrite Z.shiftl_1_l. destruct (Z.eqb_spec i b) as [->|].
  - by apply Z.pow2_bits_true.
  - apply Z.pow2_bits_false. lia.
Qed.

Lemma testbit_bit_set w b i :
  0 <= b -> 0 <= i -> Z.testbit (bit_set w b) i = (i =? b) || Z.testbit w i.
Proof.
  intros. unfold bit_set. rewrite Z.lor_spec, testbit_shiftl_1 by lia.
  apply orb_comm.
Qed.

Lemma testbit_bit_clear w b i :
  0 <= b -> 0 <= i -> Z.testbit (bit_clear w b) i = negb (i =? b) && Z.testbit w i.
Proof.
  intros. unfold bit_clear. rewrite Z.land_spec, Z.lnot_spec, testbit_shiftl_1 by lia.
  apply andb_comm.
Qed.

(** [__builtin_ctz]: the index of the lowest set bit (undefined in C at 0). *)
Fixpoint pos_ctz (p : positive) : Z :=
  match p with xO p' => 1 + pos_ctz p' | _ => 0 end.
Definition ctz (w : Z) : Z := match w with Zpos p => pos_ctz p | _ => 0 end.

Lemma pos_ctz_spec p :
  0 <= pos_ctz p /\ Z.testbit (Zpos p) (pos_ctz p) = true /\
  forall i, 0 <= i < pos_ctz p -> Z.testbit (Zpos p) i = false.
Proof.
  induction p as [p IH|p IH|]; cbn [pos_ctz].
  - by repeat split; try lia.
  - destruct IH as (H0 & H1 & H2). split; [lia|].
    change (Zpos p~0) with (2 * Zpos p). split.
    + rewrite Z.add_comm.
      replace (pos_ctz p + 1) with (Z.succ (pos_ctz p)) by lia.
      by rewrite Z.double_bits_succ.
    + intros i Hi. destruct (decide (i = 0)) as [->|]; [apply Z.testbit_even_0|].
      replace i with (Z.succ (i - 1)) by lia. rewrite Z.double_bits_succ. apply H2. lia.
  - by repeat split; try lia.
Qed.

Lemma ctz_spec w :
  0 < w ->
  0 <= ctz w /\ Z.testbit w (ctz w) = true /\
  forall i, 0 <= i < ctz w -> Z.testbit w i = false.
Proof. destruct w; try lia. intros _. apply pos_ctz_spec. Qed.

Lemma testbit_high w n i : 0 <= n -> 0 <= w < 2 ^ n -> n <= i -> Z.testbit w i = false.
Proof.
  intros Hn Hw Hi. destruct (decide (w = 0)) as [->|]; [apply Z.bits_0|].
  apply Z.bits_above_log2; [lia|].
  apply Z.log2_lt_pow2; [lia|].
  assert (2 ^ n <= 2 ^ i) by (apply Z.pow_le_mono_r; lia). lia.
Qed.

Lemma word_bound_bits w n :
  0 <= n -> 0 <= w -> (forall i, n <= i -> Z.testbit w i = false) -> w < 2 ^ n.
Proof.
  intros Hn Hw H. destruct (decide (w = 0)) as [->|]; [lia|].
  apply Z.log2_lt_cancel. rewrite Z.log2_pow2 by lia.
  destruct (Z.lt_ge_cases (Z.log2 w) n) as [|Hge]; [done|].
  apply H in Hge. rewrite Z.bit_log2 in Hge; [done|lia].
Qed.

Lemma bit_set_range w b n : 0 <= b < n -> 0 <= w < 2 ^ n -> 0 <= bit_set w b < 2 ^ n.
Proof.
  intros Hb Hw. assert (0 <= bit_set w b).
  { apply Z.lor_nonneg. split; [lia|]. apply Z.shiftl_nonneg. lia. }
  split; [done|]. apply word_bound_bits; [lia|done|].
  intros i Hi. rewrite testbit_bit_set, (testbit_high w n i) by lia.
  by destruct (Z.eqb_spec i b); [lia|].
Qed.

Lemma bit_clear_range w b n : 0 <= b -> 0 <= n -> 0 <= w < 2 ^ n -> 0 <= bit_clear w b < 2 ^ n.
Proof.
  intros Hb Hn Hw. assert (0 <= bit_clear w b).
  { apply Z.land_nonneg. left. lia. }
  split; [done|]. apply word_bound_bits; [lia|done|].
  intros i Hi. rewrite testbit_bit_clear, (testbit_high w n i) by lia.
  by rewrite andb_false_r.
Qed.

Lemma ctz_range w n : 0 <= n -> 0 < w < 2 ^ n -> 0 <= ctz w < n.
Proof.
  intros Hn Hw. destruct (ctz_spec w) as (H0 & H1 & _); [lia|]. split; [done|].
  destruct (Z.lt_ge_cases (ctz w) n) as [|Hge]; [done|].
  rewrite (testbit_high w n) in H1; [done|lia..].
Qed.

Lemma land_lnot_ones x k : 0 <= k -> Z.land x (Z.lnot (2 ^ k - 1)) = x / 2 ^ k * 2 ^ k.
Proof.
  intros Hk. replace (2 ^ k - 1) with (Z.ones k) by (rewrite Z.ones_equiv; lia).
  rewrite <- Z.ldiff_land, Z.ldiff_ones_r by lia.
  by rewrite Z.shiftl_mul_pow2, Z.shiftr_div_pow2 by lia.
Qed.

(** * Counting with one change *)

Section filter_count.
Context {A : Type} `{!EqDecision A}.
Context (P Q : A -> Prop) `{!forall x, Decision (P x), !forall x, Decision (Q x)}.

Lemma filter_agree (l : list A) :
  (forall x, x ∈ l -> (P x <-> Q x)) -> filter P l = filter Q l.
Proof.
  induction l as [|y l IH]; intros Hx; [done|].
  rewrite !filter_cons, IH by set_solver.
  destruct (Hx y) as [HPQ HQP]; [set_solver|].
  destruct (decide (P y)), (decide (Q y)); naive_solver.
Qed.

Lemma filter_all (l : list A) : (forall x, x ∈ l -> P x) -> filter P l = l.
Proof.
  induction l as [|y l IH]; intros Hx; [done|].
  rewrite filter_cons, decide_True, IH by set_solver. done.
Qed.

(** If [P] and [Q] differ only at [k], which [P] holds of, then [P] holds of
    one element more. *)
Lemma length_filter_drop (l : list A) (k : A) :
  NoDup l -> k ∈ l -> P k -> ~ Q k ->
  (forall x, x ∈ l -> x <> k -> (P x <-> Q x)) ->
  length (filter P l) = S (length (filter Q l)).
Proof.
  intros Hnd Hk HP HQ. induction Hnd as [|y l Hy Hnd IH]; intros Hx.
  { by apply not_elem_of_nil in Hk. }
  rewrite !filter_cons. destruct (decide (y = k)) as [->|Hne].
  - rewrite decide_True by done. rewrite decide_False by done. simpl.
    f_equal. f_equal. apply filter_agree.
    intros x Hxl. apply Hx; [set_solver|]. intros ->. done.
  - apply elem_of_cons in Hk as [->|Hk]; [done|].
    assert (length (filter P l) = S (length (filter Q l))) as IH'.
    { apply IH; [done|]. intros; apply Hx; set_solver. }
    destruct (Hx y) as [HPQ HQP]; [set_solver|done|].
    destruct (decide (P y)), (decide (Q y)); simpl; naive_solver lia.
Qed.
End filter_count.

(** * Linked lists

    C threads structs into lists through a pointer field.  [nx] reads that
    field of the struct at an address; [seg nx h l t] says that following it
    from [h] visits exactly the structs [l] and arrives at [t]; a [chain] is a
    segment that ends at [NULL]. *)

Definition NULL : Z := 0.

Fixpoint seg (nx : Z -> Z) (h : Z) (l : list Z) (t : Z) : Prop :=
  match l with
  | [] => h = t
  | x :: l' => h = x /\ x <> NULL /\ seg nx (nx x) l' t
  end.

Definition chain (nx : Z -> Z) (h : Z) (l : list Z) : Prop := seg nx h l NULL.

Section chains.
Implicit Types (nx : Z -> Z) (l : list Z).

Lemma seg_app nx h l1 l2 t :
  seg nx h (l1 ++ l2) t <-> exists m, seg nx h l1 m /\ seg nx m l2 t.
Proof.
  revert h. induction l1 as [|x l1 IH]; intros h; simpl; [naive_solver|].
  rewrite IH. naive_solver.
Qed.

Lemma seg_ext nx nx' h l t :
  (forall x, x ∈ l -> nx x = nx' x) -> seg nx h l t -> seg nx' h l t.
Proof.
  revert h. induction l as [|x l IH]; intros h Hx; simpl; [done|].
  intros (-> & Hnz & Hs). repeat split; auto.
  rewrite <- Hx by set_solver. apply IH; [set_solver|done].
Qed.

Lemma chain_ext nx nx' h l :
  (forall x, x ∈ l -> nx x = nx' x) -> chain nx h l -> chain nx' h l.
Proof. apply seg_ext. Qed.

Lemma seg_nonnull nx h l t x : seg nx h l t -> x ∈ l -> x <> NULL.
Proof.
  revert h. induction l as [|y l IH]; intros h; simpl; [set_solver|].
  intros (-> & ? & ?) [->|?]%elem_of_cons; eauto.
Qed.

Lemma chain_nil nx h : chain nx h [] <-> h = NULL.
Proof. done. Qed.

Lemma chain_cons nx h x l :
  chain nx h (x :: l) <-> h = x /\ x <> NULL /\ chain nx (nx x) l.
Proof. done. Qed.

Lemma chain_null nx l : chain nx NULL l -> l = [].
Proof. destruct l as [|x l]; [done|]. intros (<- & ? & _). done. Qed.

Lemma chain_fun nx h l1 l2 : chain nx h l1 -> chain nx h l2 -> l1 = l2.
Proof.
  revert h l2. induction l1 as [|x l1 IH]; intros h [|y l2].
  - done.
  - intros Hh (<- & ? & _). by rewrite chain_nil in Hh.
  - intros (<- & ? & _) Hh. by rewrite chain_nil in Hh.
  - rewrite !chain_cons. intros (-> & ? & H1) (-> & ? & H2).
    f_equal. eauto.
Qed.

(** A list that ends cannot visit a struct twice. *)
Lemma chain_NoDup nx h l : chain nx h l -> NoDup l.
Proof.
  revert h. induction l as [|x l IH]; intros h; [constructor|].
  rewrite chain_cons. intros (-> & Hx & Hc).
  constructor; [|eauto].
  intros (l1 & l2 & ->)%list_elem_of_split.
  pose proof Hc as (m & _ & Hm)%seg_app.
  destruct Hm as (-> & _ & Hm).
  pose proof (chain_fun _ _ _ _ Hm Hc) as Heq.
  apply (f_equal length) in Heq. rewrite length_app in Heq. simpl in Heq. lia.
Qed.

Lemma chain_unlink nx nx' h l1 x l2 :
  chain nx h (l1 ++ x :: l2) ->
  (forall y, y ∈ l2 -> nx' y = nx y) ->
  (forall y, y ∈ l1 -> nx y <> x -> nx' y = nx y) ->
  (forall y, y ∈ l1 -> nx y = x -> nx' y = nx x) ->
  chain nx' (match l1 with [] => nx x | _ => h end) (l1 ++ l2).
Proof.
  intros Hc Hl2 Hl1 Hl1'. pose proof (chain_NoDup _ _ _ Hc) as Hnd.
  revert h Hc. induction l1 as [|y l1 IH]; intros h.
  - intros (_ & _ & Hc). apply (chain_ext nx); [|done]. intros. by rewrite Hl2.
  - simpl. intros (-> & Hy & Hc). split; [done|]. split; [done|].
    simpl in Hnd. apply NoDup_cons in Hnd as [Hyl Hnd].
    specialize (IH ltac:(set_solver) ltac:(set_solver) Hnd _ Hc).
    destruct l1 as [|z l1].
    + destruct Hc as (Hyx & _ & _). rewrite Hl1'; set_solver.
    + destruct Hc as (Hyz & _ & _). rewrite Hl1; [done|set_solver|].
      rewrite Hyz. intros ->. apply NoDup_app in Hnd as (_ & Hnd & _). set_solver.
Qed.
End chains.

(** Following a list for at most [fuel] structs. *)
Fixpoint walk (nx : Z -> Z) (fuel : nat) (h : Z) : list Z :=
  match fuel with
  | O => []
  | S f => if h =? NULL then [] else h :: walk nx f (nx h)
  end.

Lemma walk_chain nx fuel h l : chain nx h l -> (length l <= fuel)%nat -> walk nx fuel h = l.
Proof.
  revert h fuel. induction l as [|x l IH]; intros h fuel Hc Hf.
  - rewrite chain_nil in Hc. subst. by destruct fuel.
  - destruct fuel as [|fuel]; simpl in Hf; [lia|].
    rewrite chain_cons in Hc. destruct Hc as (-> & Hx & Hc). simpl.
    destruct (Z.eqb_spec x NULL); [done|]. f_equal. apply IH; [done|lia].
Qed.

(** * Ring buffers

    An array of [cap] elements in which index [i] lives at [i mod cap]; the [n]
    elements from [start] on are in use.  [newest] keeps the end of a list. *)

Definition newest {A} (n : nat) (l : list A) : list A := drop (length l - n) l.

Lemma newest_all {A} n (l : list A) : (length l <= n)%nat -> newest n l = l.
Proof. intros Hl. unfold newest. by replace (length l - n)%nat with 0%nat by lia. Qed.

Lemma length_newest {A} n (l : list A) : (length (newest n l) <= n)%nat.
Proof. unfold newest. rewrite length_drop. lia. Qed.

Lemma newest_newest {A} n (l1 l2 : list A) : newest n (newest n l1 ++ l2) = newest n (l1 ++ l2).
Proof.
  unfold newest. rewrite !length_app, length_drop.
  destruct (decide (length l1 <= n)%nat).
  { replace (length l1 - n)%nat with 0%nat by lia. rewrite drop_0. f_equal. lia. }
  replace (length l1 - (length l1 - n) + length l2 - n)%nat with (length l2 - (n - n))%nat by lia.
  replace (length l1 + length l2 - n)%nat with ((length l1 - n) + length l2)%nat by lia.
  rewrite <- drop_drop. rewrite (drop_app_le l1) by lia. f_equal. lia.
Qed.

Section rings.
Context {A : Type} `{!Inhabited A}.
Implicit Types (buf : list A).

Definition ring_list buf (cap start n : Z) : list A := map (fun i => buf.[i mod cap]) (seqZ start n).

Lemma zlen_ring_list buf cap start n : 0 <= n -> zlen (ring_list buf cap start n) = n.
Proof. intros Hn. unfold ring_list, zlen. rewrite length_map, length_seqZ. lia. Qed.

Lemma ring_list_shift buf cap start n k :
  0 < cap -> ring_list buf cap (start + k * cap) n = ring_list buf cap start n.
Proof.
  intros Hc. unfold ring_list. replace (seqZ (start + k * cap) n) with (map (fun i => i + k * cap) (seqZ start n)).
  - rewrite map_map. apply map_ext. intros i. by rewrite Z.mod_add by lia.
  - apply (list_eq_same_length _ _ (Z.to_nat n)); rewrite ?length_map, ?length_seqZ; [done..|].
    intros i x y Hi Hx Hy. rewrite list_lookup_fmap, lookup_seqZ_lt in Hx by lia.
    rewrite lookup_seqZ_lt in Hy by lia. cbn in Hx. injection Hx as <-. injection Hy as <-. lia.
Qed.

Lemma ring_list_pop buf cap start n :
  0 < n -> ring_list buf cap start n = buf.[start mod cap] :: ring_list buf cap (start + 1) (n - 1).
Proof.
  intros Hn. unfold ring_list. rewrite seqZ_cons by lia. cbn [map].
  by replace (Z.succ start) with (start + 1) by lia; replace (Z.pred n) with (n - 1) by lia.
Qed.

Lemma ring_list_set buf cap start n i x :
  0 < cap -> zlen buf = cap -> start + n - cap <= i < start \/ start + n <= i < start + cap ->
  ring_list (buf.[i mod cap <- x]) cap start n = ring_list buf cap start n.
Proof.
  intros Hc Hl Hi. apply map_ext_in. intros j [Hj1 Hj2]%list_elem_of_In%elem_of_seqZ.
  pose proof (Z.mod_pos_bound i cap Hc). pose proof (Z.mod_pos_bound j cap Hc).
  apply aget_aset_ne; [lia..|]. intros E.
  pose proof (Z.div_mod i cap ltac:(lia)). pose proof (Z.div_mod j cap ltac:(lia)).
  assert (Hq : i - j = cap * (i / cap - j / cap)) by lia.
  assert (i / cap - j / cap = 0) as Hz by nia. rewrite Hz in Hq. lia.
Qed.

(** Storing an element behind the last one; a full ring loses its first. *)
Lemma ring_list_push buf cap start n x :
  0 < cap -> zlen buf = cap -> 0 <= n <= cap ->
  ring_list (buf.[(start + n) mod cap <- x]) cap (if n =? cap then start + 1 else start)
    (if n =? cap then n else n + 1) = newest (Z.to_nat cap) (ring_list buf cap start n ++ [x]).
Proof.
  intros Hc Hl Hn. pose proof (zlen_ring_list buf cap start n ltac:(lia)) as Hlen. unfold zlen in Hlen.
  set (start' := if n =? cap then start + 1 else start).
  set (n' := if n =? cap then n else n + 1).
  assert (E : start' + n' = start + n + 1 /\ 0 < n' <= cap).
  { unfold start', n'. destruct (Z.eqb_spec n cap); lia. }
  assert (Hold : ring_list buf cap start' (n' - 1) = if n =? cap then drop 1 (ring_list buf cap start n)
    else ring_list buf cap start n).
  { unfold start', n'. destruct (Z.eqb_spec n cap).
    - by rewrite (ring_list_pop buf cap start n) by lia.
    - by replace (n + 1 - 1) with n by lia. }
  transitivity (ring_list buf cap start' (n' - 1) ++ [x]).
  - rewrite <- (ring_list_set buf cap start' (n' - 1) (start + n) x) by lia.
    unfold ring_list. replace n' with ((n' - 1) + 1) at 1 by lia. rewrite seqZ_app by lia.
    rewrite map_app. f_equal. replace (start' + (n' - 1)) with (start + n) by lia.
    rewrite (seqZ_cons (start + n) 1) by lia. cbn. f_equal. apply aget_aset_eq.
    rewrite Hl. by apply Z.mod_pos_bound.
  - rewrite Hold. unfold newest. rewrite length_app. cbn [length].
    destruct (Z.eqb_spec n cap).
    + rewrite drop_app_le by lia. do 2 f_equal. lia.
    + by replace (length (ring_list buf cap start n) + 1 - Z.to_nat cap)%nat with 0%nat by lia.
Qed.
End rings.
