(* ===== verification/Pmm.v ===== *)
(** Physical memory manager ([src/mm.c], first part): the page bitmap, one bit
    per page (1 = free), and its operations.  Every operation takes
    [pmm_lock] around the part of its body that touches the bitmap, so each is
    one atomic step; [None] in [pmm_alloc_n] is a read past the bitmap.

    The state is refined to the set of free page numbers ([free_set]);
    [PageAlloc] is the interface the heap and the page tables are clients of. *)
From S2P Require Import Prelude.

Definition PAGE_SIZE : Z := 4096.
(** [ALIGN_UP(x, a)], computed in [size_t] *)
Definition ALIGN_UP (x a : Z) : Z := Z.land (u64 (x + a - 1)) (Z.lnot (a - 1)).
Definition IS_ALIGNED (x a : Z) : bool := Z.land x (a - 1) =? 0.
Definition KERNEL_BASE : Z := 0x40080000.

Record pmm := mkPmm {
  page_bitmap : list Z;
  total_pages : Z;
  free_pages : Z;
  phys_base : Z
}.
#[export] Instance eta_pmm : Eta pmm := fun p =>
  mkPmm (page_bitmap p) (total_pages p) (free_pages p) (phys_base p).

(** [page_bitmap[idx / 64] & (1ULL << (idx % 64))] *)
Definition page_free (p : pmm) (idx : Z) : bool :=
  Z.testbit (page_bitmap p).[idx / 64] (idx mod 64).

Definition clear_page (p : pmm) (idx : Z) : pmm :=
  p <| page_bitmap := (page_bitmap p).[idx / 64 <-
         bit_clear (page_bitmap p).[idx / 64] (idx mod 64)] |>.

Definition set_page (p : pmm) (idx : Z) : pmm :=
  p <| page_bitmap := (page_bitmap p).[idx / 64 <-
         bit_set (page_bitmap p).[idx / 64] (idx mod 64)] |>.

Definition pmm_mark_used (p : pmm) (paddr : Z) : pmm :=
  if paddr <? phys_base p then p else
  let page_idx := (paddr - phys_base p) / PAGE_SIZE in
  if total_pages p <=? page_idx then p else
  if page_free p page_idx then
    (clear_page p page_idx) <| free_pages := u64 (free_pages p - 1) |>
  else p.

(** [for (i = 0; i < n; i++) pmm_mark_used(start + i * PAGE_SIZE);] *)
Fixpoint mark_used_range (p : pmm) (start : Z) (n : nat) : pmm :=
  match n with
  | O => p
  | S n' => mark_used_range (pmm_mark_used p start) (u64 (start + PAGE_SIZE)) n'
  end.

(** [kernel_size] is the address of the linker symbol [__kernel_size]. *)
Definition pmm_init (base size kernel_size : Z) : pmm :=
  let pb := ALIGN_UP base PAGE_SIZE in
  let total := size / PAGE_SIZE in
  let bitmap_size := (total + 63) / 64 * 8 in
  let bitmap_pages := ALIGN_UP bitmap_size PAGE_SIZE / PAGE_SIZE in
  let p0 := mkPmm (replicate (Z.to_nat (bitmap_size / 8)) (2 ^ 64 - 1)) total total pb in
  let p1 := mark_used_range p0 pb (Z.to_nat bitmap_pages) in
  if (pb <=? KERNEL_BASE) && (KERNEL_BASE <? u64 (pb + total * PAGE_SIZE)) then
    mark_used_range p1 KERNEL_BASE (Z.to_nat (ALIGN_UP kernel_size PAGE_SIZE / PAGE_SIZE))
  else p1.

Definition bitmap_words (p : pmm) : Z := (total_pages p + 63) / 64.

Definition pmm_alloc (p : pmm) : pmm * Z :=
  if free_pages p =? 0 then (p, 0) else
  match find_from (fun i => negb ((page_bitmap p).[i] =? 0)) (Z.to_nat (bitmap_words p)) 0 with
  | None => (p, 0)
  | Some i =>
      let bit := ctz (page_bitmap p).[i] in
      let page_idx := i * 64 + bit in
      if total_pages p <=? page_idx then (p, 0) else
      (p <| page_bitmap := (page_bitmap p).[i <- bit_clear (page_bitmap p).[i] bit] |>
         <| free_pages := u64 (free_pages p - 1) |>,
       u64 (phys_base p + page_idx * PAGE_SIZE))
  end.

(** The inner loop of [pmm_alloc_n]: are the [n] pages from [idx] free?  [None]
    when it reads beyond the array. *)
Fixpoint run_free (p : pmm) (idx : Z) (n : nat) : option bool :=
  match n with
  | O => Some true
  | S n' =>
      if zlen (page_bitmap p) <=? idx / 64 then None else
      if page_free p idx then run_free p (idx + 1) n' else Some false
  end.

(** The outer loop, [start] running up to [limit = total_pages - n] (in
    [size_t]); it cannot get past the end of the array, which bounds [fuel]. *)
Fixpoint find_run (p : pmm) (n : nat) (limit start : Z) (fuel : nat) : option (option Z) :=
  match fuel with
  | O => Some None
  | S f =>
      if limit <? start then Some None else
      match run_free p start n with
      | None => None
      | Some true => Some (Some start)
      | Some false => find_run p n limit (start + 1) f
      end
  end.

Fixpoint clear_run (p : pmm) (idx : Z) (n : nat) : pmm :=
  match n with
  | O => p
  | S n' => clear_run (clear_page p idx) (idx + 1) n'
  end.

Definition pmm_alloc_n (p : pmm) (n : Z) : option (pmm * Z) :=
  if n =? 0 then Some (p, 0) else
  if n =? 1 then Some (pmm_alloc p) else
  let limit := u64 (total_pages p - n) in
  match find_run p (Z.to_nat n) limit 0 (S (Z.to_nat (Z.min limit (64 * zlen (page_bitmap p))))) with
  | None => None
  | Some None => Some (p, 0)
  | Some (Some start) =>
      Some ((clear_run p start (Z.to_nat n)) <| free_pages := u64 (free_pages p - n) |>,
            u64 (phys_base p + start * PAGE_SIZE))
  end.

Definition pmm_free (p : pmm) (paddr : Z) : pmm :=
  if paddr <? phys_base p then p else
  let page_idx := (paddr - phys_base p) / PAGE_SIZE in
  if total_pages p <=? page_idx then p else
  (set_page p page_idx) <| free_pages := u64 (free_pages p + 1) |>.

Definition pmm_get_free_pages (p : pmm) : Z := free_pages p.

(** * The abstraction: free page numbers *)

Definition free_list (p : pmm) : list Z :=
  filter (fun i => page_free p i = true) (seqZ 0 (total_pages p)).
Definition free_set (p : pmm) : gset Z := list_to_set (free_list p).

Record pmm_wf (p : pmm) : Prop := {
  wf_total : 0 <= total_pages p;
  wf_len : zlen (page_bitmap p) = bitmap_words p;
  wf_words : Forall (fun w => 0 <= w < 2 ^ 64) (page_bitmap p);
  wf_base : 0 <= phys_base p /\ phys_base p mod PAGE_SIZE = 0;
  wf_end : phys_base p + total_pages p * PAGE_SIZE <= 2 ^ 64;
  wf_count : free_pages p = zlen (free_list p)
}.

(** The address of page [idx], and the page number of an address. *)
Definition page_addr (p : pmm) (idx : Z) : Z := phys_base p + idx * PAGE_SIZE.

Section pages.
Implicit Types p : pmm.

Lemma elem_of_free_list p i :
  i ∈ free_list p <-> 0 <= i < total_pages p /\ page_free p i = true.
Proof. unfold free_list. rewrite list_elem_of_filter, elem_of_seqZ. naive_solver lia. Qed.

Lemma elem_of_free_set p i :
  i ∈ free_set p <-> 0 <= i < total_pages p /\ page_free p i = true.
Proof. unfold free_set. by rewrite elem_of_list_to_set, elem_of_free_list. Qed.

Lemma div64_eq_mod64_eq a b : a / 64 = b / 64 -> a mod 64 = b mod 64 -> a = b.
Proof. lia. Qed.

Lemma page_free_update p p' idx k w :
  page_bitmap p' = (page_bitmap p).[idx / 64 <- w] ->
  0 <= idx -> 0 <= k -> idx / 64 < zlen (page_bitmap p) ->
  (forall b, 0 <= b < 64 -> b <> idx mod 64 ->
     Z.testbit w b = Z.testbit (page_bitmap p).[idx / 64] b) ->
  page_free p' k = if k =? idx then Z.testbit w (idx mod 64) else page_free p k.
Proof.
  intros E Hidx Hk Hlen Hb. unfold page_free. rewrite E.
  rewrite aget_aset by lia.
  destruct (Z.eqb_spec (idx / 64) (k / 64)) as [Hw|Hw].
  - destruct (Z.eqb_spec k idx) as [->|Hne]; [done|].
    rewrite Hb, Hw; [done|lia|]. intros ?. apply Hne. by apply div64_eq_mod64_eq.
  - destruct (Z.eqb_spec k idx) as [->|Hne]; [done|done].
Qed.

Lemma page_free_clear p idx k :
  0 <= idx -> 0 <= k -> idx / 64 < zlen (page_bitmap p) ->
  page_free (clear_page p idx) k = negb (k =? idx) && page_free p k.
Proof.
  intros. rewrite (page_free_update p _ idx k
    (bit_clear (page_bitmap p).[idx / 64] (idx mod 64))); try done.
  2: { intros. rewrite testbit_bit_clear by lia. by destruct (Z.eqb_spec b (idx mod 64)). }
  rewrite testbit_bit_clear, Z.eqb_refl by lia. by destruct (k =? idx).
Qed.

Lemma page_free_set p idx k :
  0 <= idx -> 0 <= k -> idx / 64 < zlen (page_bitmap p) ->
  page_free (set_page p idx) k = (k =? idx) || page_free p k.
Proof.
  intros. rewrite (page_free_update p _ idx k
    (bit_set (page_bitmap p).[idx / 64] (idx mod 64))); try done.
  2: { intros. rewrite testbit_bit_set by lia. by destruct (Z.eqb_spec b (idx mod 64)). }
  rewrite testbit_bit_set, Z.eqb_refl by lia. by destruct (k =? idx).
Qed.

Lemma word_in_bitmap p idx : pmm_wf p -> 0 <= idx < total_pages p ->
  idx / 64 < zlen (page_bitmap p).
Proof. intros Hwf Hi. rewrite (wf_len p Hwf). unfold bitmap_words. lia. Qed.

Lemma word_range p i : pmm_wf p -> 0 <= i < zlen (page_bitmap p) ->
  0 <= (page_bitmap p).[i] < 2 ^ 64.
Proof. intros Hwf Hi. by apply (Forall_aget _ _ _ (wf_words p Hwf)). Qed.

(** The number of free pages fits its counter. *)
Lemma free_count_le p : pmm_wf p -> 0 <= free_pages p <= total_pages p.
Proof.
  intros Hwf. rewrite (wf_count p Hwf). unfold zlen, free_list.
  pose proof (length_filter (fun i => page_free p i = true) (seqZ 0 (total_pages p))) as H.
  rewrite length_seqZ in H. pose proof (wf_total p Hwf). lia.
Qed.

Lemma total_lt p : pmm_wf p -> total_pages p <= 2 ^ 52.
Proof. intros [? ? ? [] ? ?]. unfold PAGE_SIZE in *. lia. Qed.

(** Taking one free page. *)
Lemma clear_page_wf p idx :
  pmm_wf p -> idx ∈ free_set p ->
  let p' := (clear_page p idx) <| free_pages := u64 (free_pages p - 1) |> in
  pmm_wf p' /\ free_set p' = free_set p ∖ {[idx]}.
Proof.
  intros Hwf Hidx p'. pose proof Hidx as [Hr Hf]%elem_of_free_set.
  pose proof (word_in_bitmap p idx Hwf Hr) as Hw.
  assert (Hpf : forall k, 0 <= k -> page_free p' k = negb (k =? idx) && page_free p k).
  { intros k Hk. exact (page_free_clear p idx k ltac:(lia) Hk Hw). }
  assert (Hset : free_set p' = free_set p ∖ {[idx]}).
  { apply set_eq. intros k. rewrite elem_of_difference, elem_of_singleton, !elem_of_free_set.
    change (total_pages p') with (total_pages p).
    destruct (decide (0 <= k)); [|naive_solver lia].
    rewrite Hpf by lia. destruct (Z.eqb_spec k idx); naive_solver. }
  split; [|done]. pose proof (free_count_le p Hwf). pose proof (total_lt p Hwf).
  destruct Hwf as [Ht Hl Hws Hb He Hc]. split; try done.
  - change (page_bitmap p') with (page_bitmap (clear_page p idx)).
    unfold clear_page. rec_simpl. by rewrite zlen_aset.
  - change (page_bitmap p') with (page_bitmap (clear_page p idx)).
    unfold clear_page. rec_simpl. apply Forall_aset; [done|].
    apply bit_clear_range; [lia|lia|]. apply (Forall_aget _ _ _ Hws). lia.
  - change (free_pages p') with (u64 (free_pages p - 1)).
    assert (Hlen : length (free_list p) = S (length (free_list p'))).
    { unfold free_list. change (total_pages p') with (total_pages p).
      apply (length_filter_drop _ _ _ idx); rewrite ?elem_of_seqZ.
      - apply NoDup_seqZ.
      - lia.
      - done.
      - rewrite Hpf, Z.eqb_refl by lia. done.
      - intros x Hx%elem_of_seqZ Hne. rewrite Hpf by lia.
        by destruct (Z.eqb_spec x idx). }
    unfold zlen in *. rewrite u64_id; lia.
Qed.

(** Giving back one used page. *)
Lemma set_page_wf p idx :
  pmm_wf p -> 0 <= idx < total_pages p -> page_free p idx = false ->
  let p' := (set_page p idx) <| free_pages := u64 (free_pages p + 1) |> in
  pmm_wf p' /\ free_set p' = {[idx]} ∪ free_set p.
Proof.
  intros Hwf Hr Hf p'. pose proof (word_in_bitmap p idx Hwf Hr) as Hw.
  assert (Hpf : forall k, 0 <= k -> page_free p' k = (k =? idx) || page_free p k).
  { intros k Hk. exact (page_free_set p idx k ltac:(lia) Hk Hw). }
  assert (Hset : free_set p' = {[idx]} ∪ free_set p).
  { apply set_eq. intros k. rewrite elem_of_union, elem_of_singleton, !elem_of_free_set.
    change (total_pages p') with (total_pages p).
    destruct (decide (0 <= k)); [|naive_solver lia].
    rewrite Hpf by lia. destruct (Z.eqb_spec k idx); naive_solver. }
  split; [|done]. pose proof (free_count_le p Hwf). pose proof (total_lt p Hwf).
  destruct Hwf as [Ht Hl Hws Hb He Hc]. split; try done.
  - change (page_bitmap p') with (page_bitmap (set_page p idx)).
    unfold set_page. rec_simpl. by rewrite zlen_aset.
  - change (page_bitmap p') with (page_bitmap (set_page p idx)).
    unfold set_page. rec_simpl. apply Forall_aset; [done|].
    apply bit_set_range; [lia|]. apply (Forall_aget _ _ _ Hws). lia.
  - change (free_pages p') with (u64 (free_pages p + 1)).
    assert (Hlen : length (free_list p') = S (length (free_list p))).
    { unfold free_list. change (total_pages p') with (total_pages p).
      apply (length_filter_drop _ _ _ idx); rewrite ?elem_of_seqZ.
      - apply NoDup_seqZ.
      - lia.
      - rewrite Hpf, Z.eqb_refl by lia. done.
      - by rewrite Hf.
      - intros x Hx%elem_of_seqZ Hne. rewrite Hpf by lia.
        by destruct (Z.eqb_spec x idx). }
    unfold zlen in *. rewrite u64_id; lia.
Qed.
End pages.

(** * Abstract specification *)

(** Allocation takes the lowest free page, and fails only when there is none. *)
Inductive alloc_spec (s : gset Z) : option Z -> gset Z -> Prop :=
| alloc_none : s = ∅ -> alloc_spec s None s
| alloc_page k : k ∈ s -> (forall j, j ∈ s -> k <= j) -> alloc_spec s (Some k) (s ∖ {[k]}).

Definition run_of (k n : Z) : gset Z := list_to_set (seqZ k n).

(** Contiguous allocation takes the lowest run of [n] free pages. *)
Inductive alloc_n_spec (n : Z) (s : gset Z) : option Z -> gset Z -> Prop :=
| alloc_n_none : (forall k, ~ run_of k n ⊆ s) -> alloc_n_spec n s None s
| alloc_n_run k :
    run_of k n ⊆ s -> (forall j, run_of j n ⊆ s -> k <= j) ->
    alloc_n_spec n s (Some k) (s ∖ run_of k n).

Lemma elem_of_run_of k n i : i ∈ run_of k n <-> k <= i < k + n.
Proof. unfold run_of. rewrite elem_of_list_to_set, elem_of_seqZ. lia. Qed.

Section alloc.
Implicit Types p : pmm.

Lemma lowest_free_page p m :
  pmm_wf p -> m ∈ free_set p ->
  exists i,
    find_from (fun i => negb ((page_bitmap p).[i] =? 0)) (Z.to_nat (bitmap_words p)) 0 = Some i /\
    let k := i * 64 + ctz (page_bitmap p).[i] in
    0 <= i < zlen (page_bitmap p) /\ 0 <= ctz (page_bitmap p).[i] < 64 /\
    k ∈ free_set p /\ (forall j, j ∈ free_set p -> k <= j).
Proof.
  intros Hwf [Hm Hfm]%elem_of_free_set.
  pose proof (wf_len p Hwf) as Hl. unfold bitmap_words in *.
  destruct (find_from _ _ _) as [i|] eqn:E; cycle 1.
  { rewrite find_from_None in E. specialize (E (m / 64) ltac:(lia)). simpl in E.
    apply negb_false_iff, Z.eqb_eq in E. unfold page_free in Hfm.
    by rewrite E, Z.bits_0 in Hfm. }
  exists i. split; [done|]. apply find_from_Some in E as (Hi & Hnz & Hz).
  apply negb_true_iff, Z.eqb_neq in Hnz.
  pose proof (word_range p i Hwf ltac:(lia)) as Hw.
  pose proof (ctz_range (page_bitmap p).[i] 64 ltac:(lia) ltac:(lia)) as Hctz.
  destruct (ctz_spec (page_bitmap p).[i]) as (_ & Htrue & Hlow); [lia|].
  set (b := ctz _) in *.
  assert (Hlt : forall j, 0 <= j < i * 64 + b -> page_free p j = false).
  { intros j Hj. unfold page_free. destruct (decide (j / 64 = i)) as [Hji|].
    - rewrite Hji. apply Hlow. lia.
    - specialize (Hz (j / 64) ltac:(lia)). apply negb_false_iff, Z.eqb_eq in Hz.
      by rewrite Hz, Z.bits_0. }
  assert (Hle : forall j, j ∈ free_set p -> i * 64 + b <= j).
  { intros j [Hj Hfj]%elem_of_free_set.
    destruct (Z.lt_ge_cases j (i * 64 + b)); [|done].
    rewrite Hlt in Hfj; [done|lia]. }
  repeat split; try lia; [|done].
  apply elem_of_free_set. split.
  - assert (i * 64 + b <= m) by (apply Hle, elem_of_free_set; done). lia.
  - unfold page_free. replace ((i * 64 + b) / 64) with i by lia.
    by replace ((i * 64 + b) mod 64) with b by lia.
Qed.

Lemma page_addr_u64 p k : pmm_wf p -> 0 <= k < total_pages p ->
  u64 (phys_base p + k * PAGE_SIZE) = page_addr p k.
Proof.
  intros [? ? ? [] ? ?] Hk. unfold page_addr, PAGE_SIZE in *. apply u64_id. lia.
Qed.

Lemma free_list_empty p : pmm_wf p -> free_pages p = 0 <-> free_set p = ∅.
Proof.
  intros Hwf. rewrite (wf_count p Hwf). unfold free_set, zlen. split.
  - intros H. destruct (free_list p); [done|simpl in H; lia].
  - intros H. destruct (free_list p); [done|]. set_solver.
Qed.

Lemma pmm_alloc_cases p :
  pmm_wf p ->
  (free_set p = ∅ /\ pmm_alloc p = (p, 0)) \/
  (exists k, k ∈ free_set p /\ (forall j, j ∈ free_set p -> k <= j) /\
    pmm_alloc p = ((clear_page p k) <| free_pages := u64 (free_pages p - 1) |>, page_addr p k)).
Proof.
  intros Hwf. unfold pmm_alloc.
  destruct (Z.eqb_spec (free_pages p) 0) as [H0|H0].
  { left. split; [by apply free_list_empty|done]. }
  right. destruct (decide (free_set p = ∅)) as [He|(m & Hm)%set_choose_L].
  { apply free_list_empty in He; [done|done]. }
  destruct (lowest_free_page p m Hwf Hm) as (i & -> & Hi & Hc & Hk & Hmin).
  exists (i * 64 + ctz (page_bitmap p).[i]). repeat split; [done|done|].
  pose proof Hk as [Hr _]%elem_of_free_set.
  destruct (Z.leb_spec (total_pages p) (i * 64 + ctz (page_bitmap p).[i])); [lia|].
  rewrite page_addr_u64 by done. unfold clear_page.
  replace ((i * 64 + ctz (page_bitmap p).[i]) / 64) with i by lia.
  by replace ((i * 64 + ctz (page_bitmap p).[i]) mod 64) with (ctz (page_bitmap p).[i]) by lia.
Qed.
End alloc.

(** Fixed by every operation: where the managed region is. *)
Definition same_region (p p' : pmm) : Prop :=
  phys_base p' = phys_base p /\ total_pages p' = total_pages p.

(** [pmm_alloc] implements the abstract allocation of the lowest free page. *)
Lemma pmm_alloc_refine p p' a :
  pmm_wf p -> pmm_alloc p = (p', a) ->
  exists r, alloc_spec (free_set p) r (free_set p') /\
    a = match r with Some k => page_addr p k | None => 0 end /\
    pmm_wf p' /\ same_region p p'.
Proof.
  intros Hwf E.
  destruct (pmm_alloc_cases p Hwf) as [[He Ha]|(k & Hk & Hmin & Ha)];
    rewrite Ha in E; injection E as <- <-.
  - exists None. repeat split; auto using alloc_none; apply Hwf.
  - destruct (clear_page_wf p k Hwf Hk) as [Hwf' Hs].
    exists (Some k). repeat split; [|by apply Hwf'..].
    rewrite Hs. by apply alloc_page.
Qed.

Section alloc_n.
Implicit Types p : pmm.

Lemma run_free_spec p n idx :
  pmm_wf p -> 0 <= idx -> idx + Z.of_nat n <= total_pages p ->
  exists b, run_free p idx n = Some b /\
    (b = true <-> run_of idx (Z.of_nat n) ⊆ free_set p).
Proof.
  intros Hwf. revert idx. induction n as [|n IH]; intros idx H0 Hle; simpl.
  { exists true. split; [done|]. split; [|done]. intros _ i. rewrite elem_of_run_of. lia. }
  pose proof (word_in_bitmap p idx Hwf ltac:(lia)).
  destruct (Z.leb_spec (zlen (page_bitmap p)) (idx / 64)); [lia|].
  destruct (page_free p idx) eqn:Ef.
  - destruct (IH (idx + 1)) as (b & -> & Hb); [lia..|]. exists b. split; [done|].
    rewrite Hb. split; intros Hs i; rewrite elem_of_run_of; intros Hi.
    + destruct (decide (i = idx)) as [->|]; [by apply elem_of_free_set; split; [lia|]|].
      apply Hs, elem_of_run_of. lia.
    + apply Hs, elem_of_run_of. lia.
  - exists false. split; [done|]. split; [done|]. intros Hs.
    assert (idx ∈ free_set p) as [_ ?]%elem_of_free_set; [|congruence].
    apply Hs, elem_of_run_of. lia.
Qed.

Lemma find_run_spec p n limit start fuel :
  pmm_wf p -> 0 <= start -> limit + Z.of_nat n <= total_pages p ->
  limit - start < Z.of_nat fuel ->
  exists r, find_run p n limit start fuel = Some r /\
    match r with
    | None => forall k, start <= k <= limit -> ~ run_of k (Z.of_nat n) ⊆ free_set p
    | Some k => start <= k <= limit /\ run_of k (Z.of_nat n) ⊆ free_set p /\
        forall j, start <= j < k -> ~ run_of j (Z.of_nat n) ⊆ free_set p
    end.
Proof.
  intros Hwf. revert start. induction fuel as [|fuel IH]; intros start H0 Hl Hf; simpl.
  { exists None. split; [done|]. lia. }
  destruct (Z.ltb_spec limit start).
  { exists None. split; [done|]. lia. }
  destruct (run_free_spec p n start Hwf) as (b & -> & Hb); [lia..|].
  destruct b.
  - exists (Some start). split; [done|]. split; [lia|]. split; [by apply Hb|]. lia.
  - destruct (IH (start + 1)) as (r & -> & Hr); [lia..|]. exists r. split; [done|].
    assert (Hstart : ~ run_of start (Z.of_nat n) ⊆ free_set p).
    { intros Hs%Hb. done. }
    destruct r as [k|].
    + destruct Hr as (? & ? & Hj). split; [lia|]. split; [done|].
      intros j ?. destruct (decide (j = start)) as [->|]; [done|]. apply Hj. lia.
    + intros k ?. destruct (decide (k = start)) as [->|]; [done|]. apply Hr. lia.
Qed.

Lemma clear_run_free_pages p v idx n :
  clear_run (p <| free_pages := v |>) idx n = (clear_run p idx n) <| free_pages := v |>.
Proof. revert p idx. induction n as [|n IH]; intros p idx; [done|].
  exact (IH (clear_page p idx) (idx + 1)).
Qed.

Lemma clear_run_wf p idx n :
  pmm_wf p -> run_of idx (Z.of_nat n) ⊆ free_set p ->
  let p' := (clear_run p idx n) <| free_pages := u64 (free_pages p - Z.of_nat n) |> in
  pmm_wf p' /\ free_set p' = free_set p ∖ run_of idx (Z.of_nat n) /\ same_region p p'.
Proof.
  revert p idx. induction n as [|n IH]; intros p idx Hwf Hs p'; subst p'.
  - pose proof (free_count_le p Hwf). pose proof (total_lt p Hwf).
    assert (p <| free_pages := u64 (free_pages p - 0) |> = p) as Hid.
    { rewrite u64_id by lia. rewrite Z.sub_0_r. by destruct p. }
    simpl clear_run. change (Z.of_nat 0) with 0. rewrite Hid. repeat split; try apply Hwf.
    apply set_eq. intros i. rewrite elem_of_difference, elem_of_run_of. naive_solver lia.
  - assert (Hidx : idx ∈ free_set p) by (apply Hs, elem_of_run_of; lia).
    destruct (clear_page_wf p idx Hwf Hidx) as [Hwf1 Hs1].
    set (p1 := (clear_page p idx) <| free_pages := u64 (free_pages p - 1) |>) in *.
    assert (Hsub : run_of (idx + 1) (Z.of_nat n) ⊆ free_set p1).
    { rewrite Hs1. intros i Hi. apply elem_of_run_of in Hi.
      rewrite elem_of_difference, elem_of_singleton. split; [|lia].
      apply Hs, elem_of_run_of. lia. }
    destruct (IH p1 (idx + 1) Hwf1 Hsub) as (Hwf2 & Hs2 & Hreg).
    replace (u64 (free_pages p1 - Z.of_nat n)) with (u64 (free_pages p - Z.of_nat (S n)))
      in Hwf2, Hs2, Hreg.
    2: { change (free_pages p1) with (u64 (free_pages p - 1)). unfold u64. lia. }
    unfold p1 in Hwf2, Hs2, Hreg at 2. rewrite clear_run_free_pages in Hwf2, Hs2, Hreg.
    split; [exact Hwf2|]. split; [|exact Hreg].
    etransitivity; [exact Hs2|]. fold p1. rewrite Hs1.
    apply set_eq. intros i. rewrite !elem_of_difference, elem_of_singleton, !elem_of_run_of.
    naive_solver lia.
Qed.
End alloc_n.

(** [pmm_alloc_n] implements the abstract contiguous allocation, for requests
    of at most the number of managed pages, and never reads past the bitmap. *)
Lemma pmm_alloc_n_refine p n :
  pmm_wf p -> 2 <= n <= total_pages p ->
  exists p' a r, pmm_alloc_n p n = Some (p', a) /\
    alloc_n_spec n (free_set p) r (free_set p') /\
    a = match r with Some k => page_addr p k | None => 0 end /\
    pmm_wf p' /\ same_region p p'.
Proof.
  intros Hwf Hn. unfold pmm_alloc_n.
  destruct (Z.eqb_spec n 0); [lia|]. destruct (Z.eqb_spec n 1); [lia|].
  pose proof (total_lt p Hwf). pose proof (wf_len p Hwf) as Hl. unfold bitmap_words in Hl.
  rewrite u64_id by lia.
  destruct (find_run_spec p (Z.to_nat n) (total_pages p - n) 0
    (S (Z.to_nat (Z.min (total_pages p - n) (64 * zlen (page_bitmap p))))) Hwf)
    as (r & -> & Hr); [lia..|].
  rewrite Z2Nat.id in Hr by lia.
  assert (Hin : forall k, run_of k n ⊆ free_set p -> 0 <= k <= total_pages p - n).
  { intros k Hk.
    assert (k ∈ free_set p) as [? _]%elem_of_free_set by (apply Hk, elem_of_run_of; lia).
    assert (k + n - 1 ∈ free_set p) as [? _]%elem_of_free_set
      by (apply Hk, elem_of_run_of; lia). lia. }
  destruct r as [k|].
  - destruct Hr as (Hk & Hrun & Hmin).
    destruct (clear_run_wf p k (Z.to_nat n) Hwf) as (Hwf' & Hs' & Hreg).
    { by rewrite Z2Nat.id by lia. }
    rewrite Z2Nat.id in Hwf', Hs', Hreg by lia.
    eexists _, _, (Some k). split; [done|]. split; [|split; [|by split]].
    + rewrite Hs'. apply alloc_n_run; [done|]. intros j Hj.
      destruct (Z.lt_ge_cases j k); [|done]. apply Hin in Hj as ?.
      exfalso. eapply Hmin; [|done]. lia.
    + apply page_addr_u64; [done|lia].
  - eexists _, _, None. split; [done|]. repeat split; try apply Hwf.
    apply alloc_n_none. intros k Hk. apply Hin in Hk as ?. by eapply Hr.
Qed.

(** A request for more pages than there are: what it hands out, if anything, leaves
    the managed range. *)
Lemma find_run_ge p n limit start fuel k :
  find_run p n limit start fuel = Some (Some k) -> start <= k.
Proof.
  revert start. induction fuel as [|fuel IH]; intros start; simpl; [done|].
  destruct (_ <? _); [done|]. destruct (run_free p start n) as [[]|]; [by intros [= ->]| |done].
  intros H%IH. lia.
Qed.

Lemma pmm_alloc_n_excess p n p' a :
  pmm_wf p -> total_pages p < n -> pmm_alloc_n p n = Some (p', a) ->
  (p' = p /\ a = 0) \/ exists k, 0 <= k /\ a = u64 (page_addr p k) /\ total_pages p < k + n.
Proof.
  intros Hwf Hn. pose proof (wf_total p Hwf). unfold pmm_alloc_n. destruct (Z.eqb_spec n 0); [lia|].
  destruct (Z.eqb_spec n 1) as [->|].
  { unfold pmm_alloc. pose proof (free_count_le p Hwf). destruct (Z.eqb_spec (free_pages p) 0); [|lia].
    intros [= <- <-]. by left. }
  destruct (find_run _ _ _ _ _) as [[k|]|] eqn:E; [|intros [= <- <-]; by left|done].
  apply find_run_ge in E. intros [= <- <-]. right. exists k. split; [done|]. split; [done|lia].
Qed.

Lemma ALIGN_UP_page x : 0 <= x -> x + 4095 < 2 ^ 64 ->
  ALIGN_UP x PAGE_SIZE = (x + 4095) / 4096 * 4096.
Proof.
  intros. unfold ALIGN_UP, PAGE_SIZE. change (4096 - 1) with (2 ^ 12 - 1).
  rewrite land_lnot_ones, u64_id by lia. f_equal. f_equal. lia.
Qed.

Lemma page_number p k off : 0 <= off < PAGE_SIZE ->
  (page_addr p k + off - phys_base p) / PAGE_SIZE = k.
Proof. unfold page_addr, PAGE_SIZE. lia. Qed.

Lemma page_number0 p k : (page_addr p k - phys_base p) / PAGE_SIZE = k.
Proof. unfold page_addr, PAGE_SIZE. lia. Qed.

Section free_mark.
Implicit Types p : pmm.

Lemma pmm_free_set_page p k off :
  0 <= k < total_pages p -> 0 <= off < PAGE_SIZE ->
  pmm_free p (page_addr p k + off) =
  (set_page p k) <| free_pages := u64 (free_pages p + 1) |>.
Proof.
  intros Hk Hoff. unfold pmm_free. rewrite page_number by done.
  destruct (Z.ltb_spec (page_addr p k + off) (phys_base p)).
  { unfold page_addr, PAGE_SIZE in *. lia. }
  by destruct (Z.leb_spec (total_pages p) k); [lia|].
Qed.

(** An address outside the managed range changes nothing. *)
Lemma pmm_free_outside p a :
  a < phys_base p \/ phys_base p + total_pages p * PAGE_SIZE <= a -> pmm_free p a = p.
Proof.
  intros Ha. unfold pmm_free. destruct (Z.ltb_spec a (phys_base p)); [done|].
  destruct (Z.leb_spec (total_pages p) ((a - phys_base p) / PAGE_SIZE)) as [|Hlt]; [done|].
  exfalso. unfold PAGE_SIZE in *. lia.
Qed.

(** A page freed twice is counted twice. *)
Lemma pmm_double_free p k off :
  pmm_wf p -> k ∈ free_set p -> 0 <= off < PAGE_SIZE ->
  free_pages (pmm_free p (page_addr p k + off)) = free_pages p + 1 /\
  free_set (pmm_free p (page_addr p k + off)) = free_set p.
Proof.
  intros Hwf [Hk Hf]%elem_of_free_set Hoff. rewrite (pmm_free_set_page p k off Hk Hoff).
  pose proof (free_count_le p Hwf). pose proof (total_lt p Hwf). split; [apply u64_id; lia|].
  apply set_eq. intros i. rewrite !elem_of_free_set. set (p' := _ <| free_pages := _ |>).
  change (total_pages p') with (total_pages p). destruct (decide (0 <= i)); [|naive_solver lia].
  change (page_free p' i) with (page_free (set_page p k) i).
  rewrite page_free_set by (lia || by apply word_in_bitmap).
  destruct (Z.eqb_spec i k) as [->|]; [naive_solver|done].
Qed.

Lemma pmm_mark_used_wf p a :
  pmm_wf p ->
  pmm_wf (pmm_mark_used p a) /\ same_region p (pmm_mark_used p a) /\
  free_set (pmm_mark_used p a) =
    if phys_base p <=? a then free_set p ∖ {[(a - phys_base p) / PAGE_SIZE]} else free_set p.
Proof.
  intros Hwf. unfold pmm_mark_used.
  destruct (Z.ltb_spec a (phys_base p)), (Z.leb_spec (phys_base p) a); try lia; [done|].
  set (k := (a - phys_base p) / PAGE_SIZE).
  assert (0 <= k) by (unfold k, PAGE_SIZE; lia).
  destruct (Z.leb_spec (total_pages p) k) as [Hk|Hk]; [|destruct (page_free p k) eqn:Ef].
  - repeat split; try apply Hwf. apply set_eq. intros i.
    rewrite elem_of_difference, elem_of_singleton, elem_of_free_set. naive_solver lia.
  - destruct (clear_page_wf p k Hwf) as [? ?]; [by apply elem_of_free_set|].
    split; [done|]. split; [by split|done].
  - repeat split; try apply Hwf. apply set_eq. intros i.
    rewrite elem_of_difference, elem_of_singleton, elem_of_free_set. naive_solver congruence.
Qed.

(** The pages at [start, start + n * PAGE_SIZE) become used, no other changes. *)
Lemma mark_used_range_wf p start n :
  pmm_wf p -> 0 <= start -> start + Z.of_nat n * PAGE_SIZE <= 2 ^ 64 ->
  let p' := mark_used_range p start n in
  pmm_wf p' /\ same_region p p' /\ free_set p' ⊆ free_set p /\
  forall k, start <= page_addr p k < start + Z.of_nat n * PAGE_SIZE ->
    start mod PAGE_SIZE = 0 -> k ∉ free_set p'.
Proof.
  revert p start. induction n as [|n IH]; intros p start Hwf H0 Hn; cbn [mark_used_range].
  { repeat split; try apply Hwf; [done|]. lia. }
  destruct (pmm_mark_used_wf p start Hwf) as (Hwf1 & Hreg1 & Hs1).
  set (p1 := pmm_mark_used p start) in *.
  assert (Hsub1 : free_set p1 ⊆ free_set p).
  { rewrite Hs1. destruct (_ <=? _); set_solver. }
  destruct n as [|n].
  - repeat split; try apply Hwf1; try apply Hreg1; [done|].
    intros k Hk Hmod. pose proof (wf_base p Hwf) as [? ?]. cbn [mark_used_range]. fold p1.
    unfold page_addr, PAGE_SIZE in *. rewrite Hs1.
    destruct (Z.leb_spec (phys_base p) start) as [|Hlt].
    + replace ((start - phys_base p) / 4096) with k by lia. set_solver.
    + rewrite elem_of_free_set. lia.
  - destruct (IH p1 (u64 (start + PAGE_SIZE)) Hwf1) as (Hwf2 & Hreg2 & Hs2 & Hk2).
    + apply u64_range.
    + rewrite u64_id; unfold PAGE_SIZE in *; lia.
    + assert (Hu : u64 (start + PAGE_SIZE) = start + PAGE_SIZE)
        by (apply u64_id; unfold PAGE_SIZE in *; lia).
      rewrite Hu in *.
      split; [done|]. split; [unfold same_region in *; naive_solver congruence|].
      split; [set_solver|]. intros k Hk Hmod.
      pose proof (wf_base p Hwf) as [? ?].
      destruct (decide (start <= page_addr p k < start + PAGE_SIZE)) as [Hin|Hout].
      * intros Hin2%Hs2. revert Hin2. rewrite Hs1. unfold page_addr, PAGE_SIZE in *.
        destruct (Z.leb_spec (phys_base p) start) as [|Hlt].
        -- replace ((start - phys_base p) / 4096) with k by lia. set_solver.
        -- rewrite elem_of_free_set. lia.
      * apply Hk2.
        -- destruct Hreg1 as [Hb _]. unfold page_addr, PAGE_SIZE in *. rewrite Hb. lia.
        -- unfold PAGE_SIZE in *. lia.
Qed.
End free_mark.

(** * Initialisation *)

Lemma page_free_full n f b i :
  0 <= i < n ->
  page_free (mkPmm (replicate (Z.to_nat ((n + 63) / 64)) (2 ^ 64 - 1)) n f b) i = true.
Proof.
  intros Hi. unfold page_free. cbn [page_bitmap].
  rewrite aget_replicate by lia. change (2 ^ 64 - 1) with (Z.ones 64).
  apply Z.ones_spec_low. lia.
Qed.

Lemma pmm_full_wf n b :
  0 <= n -> 0 <= b -> b mod PAGE_SIZE = 0 -> b + n * PAGE_SIZE <= 2 ^ 64 ->
  pmm_wf (mkPmm (replicate (Z.to_nat ((n + 63) / 64)) (2 ^ 64 - 1)) n n b).
Proof.
  intros Hn Hb Hm He. split; cbn [total_pages page_bitmap phys_base free_pages]; try done.
  - rewrite zlen_replicate. unfold bitmap_words. cbn [total_pages]. lia.
  - apply Forall_replicate. lia.
  - unfold free_list, zlen. cbn [total_pages].
    rewrite filter_all; [rewrite length_seqZ; lia|].
    intros x Hx%elem_of_seqZ. apply page_free_full. lia.
Qed.

Lemma pmm_init_ok base size kernel_size :
  0 <= base -> 0 <= size -> 0 <= kernel_size < 2 ^ 63 -> base + size + PAGE_SIZE <= 2 ^ 64 ->
  let p := pmm_init base size kernel_size in
  pmm_wf p /\ phys_base p = (base + 4095) / 4096 * 4096 /\ total_pages p = size / PAGE_SIZE /\
  (forall k, 0 <= k < (bitmap_words p * 8 + 4095) / 4096 -> k ∉ free_set p) /\
  (forall k, phys_base p <= KERNEL_BASE ->
     KERNEL_BASE <= page_addr p k < KERNEL_BASE + kernel_size -> k ∉ free_set p).
Proof.
  intros Hb Hs Hk He. unfold PAGE_SIZE in He.
  unfold pmm_init. rewrite (ALIGN_UP_page base) by lia.
  set (pb := (base + 4095) / 4096 * 4096). set (n := size / PAGE_SIZE).
  replace ((n + 63) / 64 * 8 / 8) with ((n + 63) / 64) by lia.
  assert (Hn : 0 <= n <= 2 ^ 52 /\ pb + n * 4096 < 2 ^ 64).
  { unfold n, pb, PAGE_SIZE. lia. }
  assert (Hpb : 0 <= pb /\ pb mod 4096 = 0) by (unfold pb; lia).
  rewrite ALIGN_UP_page by lia.
  set (p0 := mkPmm _ _ _ _).
  assert (Hwf0 : pmm_wf p0) by (apply pmm_full_wf; unfold PAGE_SIZE; lia).
  set (m := ((n + 63) / 64 * 8 + 4095) / 4096).
  replace (m * 4096 / PAGE_SIZE) with m by (unfold PAGE_SIZE; lia).
  assert (Hm : 0 <= m <= n) by (unfold m; lia).
  destruct (mark_used_range_wf p0 pb (Z.to_nat m) Hwf0) as (Hwf1 & Hreg1 & Hs1 & Hk1);
    [lia|unfold PAGE_SIZE; lia|].
  set (p1 := mark_used_range p0 pb (Z.to_nat m)) in *.
  assert (Hbm : forall k, 0 <= k < m -> k ∉ free_set p1).
  { intros k Hkm. apply Hk1; unfold page_addr, PAGE_SIZE; cbn [phys_base p0]; lia. }
  destruct Hreg1 as [Hb1 Ht1]. cbn [phys_base total_pages p0] in Hb1, Ht1.
  rewrite ALIGN_UP_page by lia.
  set (kp := (kernel_size + 4095) / 4096).
  replace (kp * 4096 / PAGE_SIZE) with kp by (unfold PAGE_SIZE; lia).
  assert (Hend : forall k, phys_base p1 <= KERNEL_BASE ->
    KERNEL_BASE <= page_addr p1 k -> k ∈ free_set p1 -> KERNEL_BASE < pb + n * PAGE_SIZE).
  { intros k _ Ha [Hkr _]%elem_of_free_set. unfold page_addr, PAGE_SIZE in *. lia. }
  rewrite u64_id by (unfold PAGE_SIZE; lia).
  destruct (Z.leb_spec pb KERNEL_BASE), (Z.ltb_spec KERNEL_BASE (pb + n * PAGE_SIZE)); cbn [andb].
  2-4: (split; [done|]; split; [done|]; split; [done|]; split;
    [intros k Hkm; apply Hbm; unfold bitmap_words in Hkm; rewrite Ht1 in Hkm; exact Hkm|]).
  2-4: (intros k Hkb Hka Hkf; specialize (Hend k Hkb ltac:(lia) Hkf); lia).
  destruct (mark_used_range_wf p1 KERNEL_BASE (Z.to_nat kp) Hwf1) as (Hwf2 & Hreg2 & Hs2 & Hk2).
  { done. } { unfold kp, KERNEL_BASE, PAGE_SIZE. lia. }
  set (p2 := mark_used_range p1 KERNEL_BASE (Z.to_nat kp)) in *.
  destruct Hreg2 as [Hb2 Ht2].
  split; [done|]. split; [congruence|]. split; [congruence|]. split.
  - intros k Hkm Hin%Hs2. revert Hin. apply Hbm. unfold bitmap_words in Hkm.
    rewrite Ht2, Ht1 in Hkm. exact Hkm.
  - intros k _ Hka. apply Hk2; [|done]. unfold page_addr in *. rewrite Hb2 in Hka.
    unfold kp, PAGE_SIZE in *. lia.
Qed.

(** * The page allocator as an interface

    What the kernel heap, the page tables and the process code rely on: the
    addresses an allocator can still hand out, all page aligned, non-null and
    below the 48-bit limit of a table entry. *)

Class PageAlloc (S : Type) := {
  pa_alloc : S -> S * Z;
  pa_free : S -> Z -> S;
  pa_ok : S -> Prop;
  pa_pages : S -> gset Z;
  pa_avail : S -> gset Z;
  pa_pages_addr s a : pa_ok s -> a ∈ pa_pages s -> 0 < a < 2 ^ 48 /\ a mod PAGE_SIZE = 0;
  pa_avail_pages s : pa_ok s -> pa_avail s ⊆ pa_pages s;
  pa_alloc_spec s s' a : pa_ok s -> pa_alloc s = (s', a) ->
    pa_ok s' /\ pa_pages s' = pa_pages s /\
    ((a = 0 /\ pa_avail s = ∅ /\ pa_avail s' = ∅) \/
     (a ∈ pa_avail s /\ pa_avail s' = pa_avail s ∖ {[a]}));
  pa_free_spec s a : pa_ok s -> a ∈ pa_pages s -> a ∉ pa_avail s ->
    pa_ok (pa_free s a) /\ pa_pages (pa_free s a) = pa_pages s /\
    pa_avail (pa_free s a) = {[a]} ∪ pa_avail s
}.

Definition pmm_pages (p : pmm) : gset Z :=
  set_map (page_addr p) (run_of 0 (total_pages p)) ∖ {[0]}.
Definition pmm_avail (p : pmm) : gset Z := set_map (page_addr p) (free_set p).
Definition pmm_ok (p : pmm) : Prop :=
  pmm_wf p /\ phys_base p + total_pages p * PAGE_SIZE <= 2 ^ 48 /\ 0 ∉ pmm_avail p.

Lemma page_addr_inj p : Inj (=) (=) (page_addr p).
Proof. intros a b. unfold page_addr, PAGE_SIZE. lia. Qed.
#[export] Existing Instance page_addr_inj.

Lemma elem_of_pmm_pages p a :
  a ∈ pmm_pages p <-> a <> 0 /\ exists k, a = page_addr p k /\ 0 <= k < total_pages p.
Proof.
  unfold pmm_pages. rewrite elem_of_difference, elem_of_singleton, elem_of_map.
  setoid_rewrite elem_of_run_of. naive_solver.
Qed.

Lemma page_addr_avail p k : page_addr p k ∈ pmm_avail p <-> k ∈ free_set p.
Proof.
  unfold pmm_avail. rewrite elem_of_map. split; [|by eauto].
  by intros (k' & ->%(inj _) & ?).
Qed.

Lemma same_region_addr p p' k : same_region p p' -> page_addr p' k = page_addr p k.
Proof. unfold page_addr. by intros [-> _]. Qed.

Lemma same_region_pages p p' : same_region p p' -> pmm_pages p' = pmm_pages p.
Proof.
  intros Hr. apply set_eq. intros a. rewrite !elem_of_pmm_pages. destruct Hr as [Hb Ht].
  unfold page_addr. by rewrite Hb, Ht.
Qed.

Section instance.
Implicit Types p : pmm.

Lemma pmm_avail_pages p : pmm_ok p -> pmm_avail p ⊆ pmm_pages p.
Proof.
  intros (Hwf & _ & H0) a Ha. apply elem_of_pmm_pages. split; [by intros ->|].
  apply elem_of_map in Ha as (k & -> & [Hk _]%elem_of_free_set). eauto.
Qed.

Lemma pmm_pages_addr p a : pmm_ok p -> a ∈ pmm_pages p -> 0 < a < 2 ^ 48 /\ a mod PAGE_SIZE = 0.
Proof.
  intros (Hwf & He & _) (Hnz & k & -> & Hk)%elem_of_pmm_pages.
  pose proof (wf_base p Hwf). unfold page_addr, PAGE_SIZE in *. lia.
Qed.

Lemma pmm_alloc_avail p p' a :
  pmm_ok p -> pmm_alloc p = (p', a) ->
  pmm_ok p' /\ pmm_pages p' = pmm_pages p /\
  ((a = 0 /\ pmm_avail p = ∅ /\ pmm_avail p' = ∅) \/
   (a ∈ pmm_avail p /\ pmm_avail p' = pmm_avail p ∖ {[a]})).
Proof.
  intros (Hwf & He & H0) Ea.
  destruct (pmm_alloc_refine p p' a Hwf Ea) as (r & Hspec & Ha & Hwf' & Hreg).
  assert (Hav : pmm_avail p' = pmm_avail p ∖ (match r with Some k => {[page_addr p k]} | None => ∅ end)).
  { apply set_eq. intros b. unfold pmm_avail. rewrite elem_of_difference, !elem_of_map.
    setoid_rewrite (same_region_addr p p' _ Hreg).
    inversion Hspec; subst; [set_solver|]. rewrite elem_of_singleton. split.
    - intros (k' & -> & [? Hne]%elem_of_difference). split; [eauto|].
      intros ?%(inj _). set_solver.
    - intros [(k' & -> & ?) Hne]. exists k'. split; [done|]. set_solver. }
  split; [|split; [by apply same_region_pages|]].
  - split; [done|]. destruct Hreg as [-> ->]. split; [done|]. rewrite Hav. set_solver.
  - inversion Hspec; subst.
    + assert (Hemp : pmm_avail p = ∅) by (unfold pmm_avail; set_solver).
      left. split; [done|]. split; [done|]. rewrite Hav, Hemp. set_solver.
    + right. split; [by apply page_addr_avail|done].
Qed.

Lemma pmm_free_avail p a :
  pmm_ok p -> a ∈ pmm_pages p -> a ∉ pmm_avail p ->
  pmm_ok (pmm_free p a) /\ pmm_pages (pmm_free p a) = pmm_pages p /\
  pmm_avail (pmm_free p a) = {[a]} ∪ pmm_avail p.
Proof.
  intros (Hwf & He & H0) (Hnz & k & -> & Hk)%elem_of_pmm_pages Hna.
  assert (Hf : page_free p k = false).
  { destruct (page_free p k) eqn:E; [|done]. exfalso. apply Hna, page_addr_avail.
    by apply elem_of_free_set. }
  pose proof (pmm_free_set_page p k 0 Hk ltac:(unfold PAGE_SIZE; lia)) as Hfr.
  rewrite Z.add_0_r in Hfr. rewrite Hfr.
  destruct (set_page_wf p k Hwf Hk Hf) as [Hwf' Hs].
  set (p' := _ <| free_pages := _ |>) in *.
  assert (Hreg : same_region p p') by done.
  assert (Hav : pmm_avail p' = {[page_addr p k]} ∪ pmm_avail p).
  { apply set_eq. intros b. unfold pmm_avail.
    rewrite elem_of_union, elem_of_singleton, !elem_of_map.
    setoid_rewrite (same_region_addr p p' _ Hreg). rewrite Hs. set_solver. }
  split; [|split; [by apply same_region_pages|done]].
  split; [done|]. split; [done|]. rewrite Hav. set_solver.
Qed.
End instance.

#[export] Instance pmm_page_alloc : PageAlloc pmm := {|
  pa_alloc := pmm_alloc;
  pa_free := pmm_free;
  pa_ok := pmm_ok;
  pa_pages := pmm_pages;
  pa_avail := pmm_avail;
  pa_pages_addr := pmm_pages_addr;
  pa_avail_pages := pmm_avail_pages;
  pa_alloc_spec := pmm_alloc_avail;
  pa_free_spec := pmm_free_avail
|}.

(** * Clients

    A client holds the pages it was given.  The steps are the calls a correct
    client makes: it frees only pages it holds, and a contiguous request asks
    for no more pages than are managed. *)

Record client := mkClient { cl_pmm : pmm; cl_held : gset Z }.

Inductive client_step : client -> client -> Prop :=
| step_alloc p p' h a :
    pmm_alloc p = (p', a) -> a <> 0 ->
    client_step (mkClient p h) (mkClient p' ({[ (a - phys_base p) / PAGE_SIZE ]} ∪ h))
| step_alloc_fail p p' h :
    pmm_alloc p = (p', 0) -> client_step (mkClient p h) (mkClient p' h)
| step_alloc_n p p' h n a :
    2 <= n <= total_pages p -> pmm_alloc_n p n = Some (p', a) -> a <> 0 ->
    client_step (mkClient p h) (mkClient p' (run_of ((a - phys_base p) / PAGE_SIZE) n ∪ h))
| step_alloc_n_fail p p' h n :
    2 <= n <= total_pages p -> pmm_alloc_n p n = Some (p', 0) ->
    client_step (mkClient p h) (mkClient p' h)
| step_free p h k :
    k ∈ h ->
    client_step (mkClient p h) (mkClient (pmm_free p (page_addr p k)) (h ∖ {[k]}))
| step_mark p h a :
    (forall k, k ∈ h -> ~ (page_addr p k <= a < page_addr p k + PAGE_SIZE)) ->
    client_step (mkClient p h) (mkClient (pmm_mark_used p a) h).

(** [F] is the set of pages that were free at the start. *)
Definition client_inv (p0 : pmm) (c : client) : Prop :=
  pmm_wf (cl_pmm c) /\ same_region p0 (cl_pmm c) /\
  cl_held c ## free_set (cl_pmm c) /\ cl_held c ∪ free_set (cl_pmm c) ⊆ free_set p0.

Lemma client_step_inv p0 c c' : client_inv p0 c -> client_step c c' -> client_inv p0 c'.
Proof.
  intros (Hwf & [Hb Ht] & Hd & Hr) Hstep.
  destruct Hstep as [p p' h a Ea Ha|p p' h Ea|p p' h n a Hn Ea Ha|p p' h n Hn Ea|p h k Hk|p h a Ha];
    cbn [cl_pmm cl_held] in *.
  - destruct (pmm_alloc_refine p p' a Hwf Ea) as (r & Hs & Hra & Hwf' & [Hrb Hrt]).
    destruct r as [k|]; [|done]. inversion Hs as [|k' Hk _]; subst.
    rewrite page_number0. split; [done|]. split; [split; cbn; congruence|].
    cbn [cl_pmm cl_held]. split; [set_solver|].
    intros i. destruct (decide (i = k)); set_solver.
  - destruct (pmm_alloc_refine p p' 0 Hwf Ea) as (r & Hs & Hra & Hwf' & [Hrb Hrt]).
    split; [done|]. split; [split; cbn; congruence|]. inversion Hs; set_solver.
  - destruct (pmm_alloc_n_refine p n Hwf Hn) as (p2 & a2 & r & Ea2 & Hs & Hra & Hwf' & [Hrb Hrt]).
    rewrite Ea in Ea2. injection Ea2 as <- <-.
    destruct r as [k|]; [|done]. inversion Hs as [|k' Hk _]; subst.
    rewrite page_number0. split; [done|]. split; [split; cbn; congruence|].
    cbn [cl_pmm cl_held]. split; set_solver.
  - destruct (pmm_alloc_n_refine p n Hwf Hn) as (p2 & a2 & r & Ea2 & Hs & Hra & Hwf' & [Hrb Hrt]).
    rewrite Ea in Ea2. injection Ea2 as <- <-.
    split; [done|]. split; [split; cbn; congruence|]. inversion Hs; set_solver.
  - assert (Hkr : 0 <= k < total_pages p).
    { assert (k ∈ free_set p0) as [? _]%elem_of_free_set by set_solver. lia. }
    assert (Hkf : page_free p k = false).
    { destruct (page_free p k) eqn:E; [|done]. exfalso. apply (Hd k Hk).
      by apply elem_of_free_set. }
    pose proof (pmm_free_set_page p k 0 Hkr ltac:(unfold PAGE_SIZE; lia)) as Hfr.
    rewrite Z.add_0_r in Hfr. rewrite Hfr.
    destruct (set_page_wf p k Hwf Hkr Hkf) as [Hwf' Hs].
    split; [done|]. split; [done|]. cbn [cl_pmm cl_held]. rewrite Hs. split; set_solver.
  - destruct (pmm_mark_used_wf p a Hwf) as (Hwf' & [Hrb Hrt] & Hs).
    split; [done|]. split; [split; cbn; congruence|]. cbn [cl_pmm cl_held]. rewrite Hs.
    destruct (_ <=? _); split; set_solver.
Qed.

Lemma client_steps_inv p0 c c' : client_inv p0 c -> rtc client_step c c' -> client_inv p0 c'.
Proof. intros Hinv. induction 1; eauto using client_step_inv. Qed.

(** The operations one by one. *)
Lemma pmm_alloc_outcome p : pmm_wf p ->
  exists r, alloc_spec (free_set p) r (free_set (pmm_alloc p).1) /\
    (pmm_alloc p).2 = match r with Some k => page_addr p k | None => 0 end /\ pmm_wf (pmm_alloc p).1.
Proof.
  intros Hwf. destruct (pmm_alloc p) as [p1 a1] eqn:Ea.
  destruct (pmm_alloc_refine p p1 a1 Hwf Ea) as (r & Hs & Hr & Hwf1 & _). by exists r.
Qed.

Lemma pmm_alloc_n_outcome p n : pmm_wf p -> 2 <= n <= total_pages p ->
  exists p' a r, pmm_alloc_n p n = Some (p', a) /\ alloc_n_spec n (free_set p) r (free_set p') /\
    a = match r with Some k => page_addr p k | None => 0 end /\ pmm_wf p'.
Proof. intros Hwf Hn. destruct (pmm_alloc_n_refine p n Hwf Hn) as (p' & a & r & ? & ? & ? & ? & _). by exists p', a, r. Qed.

Lemma pmm_free_used p k off :
  pmm_wf p -> 0 <= k < total_pages p -> 0 <= off < PAGE_SIZE -> k ∉ free_set p ->
  pmm_wf (pmm_free p (page_addr p k + off)) /\ free_set (pmm_free p (page_addr p k + off)) = {[k]} ∪ free_set p.
Proof.
  intros Hwf Hk Hoff Hnk. rewrite pmm_free_set_page by done. apply set_page_wf; [done..|].
  destruct (page_free p k) eqn:E; [|done]. exfalso. by apply Hnk, elem_of_free_set.
Qed.

Lemma pmm_alloc_free p : pmm_wf p -> free_set p <> ∅ -> free_set (pmm_free (pmm_alloc p).1 (pmm_alloc p).2) = free_set p.
Proof.
  intros Hwf Hne. destruct (pmm_alloc p) as [p1 a1] eqn:Ea. cbn [fst snd].
  destruct (pmm_alloc_refine p p1 a1 Hwf Ea) as (r & Hs & Hr & Hwf1 & Hreg).
  inversion Hs as [|k Hk Hmin Hkr Hfs]; subst; [done|]. pose proof Hk as [Hkt _]%elem_of_free_set. symmetry in Hfs.
  rewrite <- (same_region_addr p p1 k Hreg), <- (Z.add_0_r (page_addr p1 k)). destruct Hreg as [_ Ht].
  destruct (pmm_free_used p1 k 0) as [_ ->]; [done|lia|unfold PAGE_SIZE; lia|set_solver|].
  rewrite Hfs. apply set_eq. intros i. destruct (decide (i = k)); set_solver.
Qed.

(** * Properties *)


(** C18 Safety: after [pmm_init], whatever correct clients do, no page that is
    held is ever free, so no call hands out a page that is still held, and the
    pages of the bitmap and of the kernel image are never handed out. *)
Theorem pmm_no_double_allocation base size kernel_size (c c' : client) :
  0 <= base -> 0 <= size -> 0 <= kernel_size < 2 ^ 63 -> base + size + PAGE_SIZE <= 2 ^ 64 ->
  rtc client_step (mkClient (pmm_init base size kernel_size) ∅) c -> client_step c c' ->
  pmm_wf (cl_pmm c) /\ cl_held c ## free_set (cl_pmm c) /\
  (forall k, k ∈ cl_held c' -> k ∈ cl_held c \/ k ∈ free_set (cl_pmm c)) /\
  (forall k, k ∈ cl_held c -> 0 <= k < total_pages (cl_pmm c) /\
     ~ k < (bitmap_words (cl_pmm c) * 8 + 4095) / 4096 /\
     (phys_base (cl_pmm c) <= KERNEL_BASE ->
        ~ KERNEL_BASE <= page_addr (cl_pmm c) k < KERNEL_BASE + kernel_size)).
Proof.
  intros Hb Hs Hk He Hsteps Hst. set (p0 := pmm_init base size kernel_size) in *.
  destruct (pmm_init_ok base size kernel_size) as (Hwf0 & _ & _ & Hbm & Hker); [lia..|].
  fold p0 in Hwf0, Hbm, Hker.
  assert (Hinv : client_inv p0 c).
  { eapply client_steps_inv; [|done]. split; [done|]. split; [done|]. split; set_solver. }
  pose proof Hinv as (Hwf & Hreg & Hd & Hr). split; [done|]. split; [done|]. split.
  - intros k Hkc. clear Hinv Hsteps.
    destruct Hst as [p p' h a Ea Ha|p p' h Ea|p p' h n a Hn Ea Ha|p p' h n Hn Ea|p h k' Hk'|p h a Ha];
      cbn [cl_pmm cl_held] in *; try by left.
    + destruct (pmm_alloc_refine p p' a Hwf Ea) as (r & Hsp & -> & _ & _).
      destruct r as [j|]; [|done]. inversion Hsp; subst. rewrite page_number0 in Hkc. set_solver.
    + destruct (pmm_alloc_n_refine p n Hwf Hn) as (p2 & a2 & r & Ea2 & Hsp & Hra & _ & _).
      rewrite Ea in Ea2. injection Ea2 as <- <-. subst a.
      destruct r as [j|]; [|done]. inversion Hsp; subst. rewrite page_number0 in Hkc. set_solver.
    + set_solver.
  - intros k Hkh. assert (Hk0 : k ∈ free_set p0) by set_solver.
    pose proof Hk0 as [Hkr _]%elem_of_free_set. destruct Hreg as [Eb Et].
    unfold bitmap_words, page_addr. rewrite Eb, Et. split; [done|]. split.
    + intros Hlt. exact (Hbm k (conj (proj1 Hkr) Hlt) Hk0).
    + intros Hpb Hka. by apply (Hker k).
Qed.

(** Bug: a contiguous request for more pages than are managed is not refused.
    [total_pages - n] wraps around, the tail bits of the last bitmap word read
    as free, and the call succeeds, hands out a range that leaves the managed
    region and makes [free_pages] wrap below zero.  Also, freeing a page that is
    already free is counted again: the counter then exceeds the free pages. *)
Theorem pmm_bookkeeping_holes :
  (exists p p' a,
     p = pmm_init 4096 (100 * PAGE_SIZE) 0 /\ pmm_wf p /\
     pmm_alloc_n p 110 = Some (p', a) /\ a <> 0 /\
     a + 110 * PAGE_SIZE > phys_base p + total_pages p * PAGE_SIZE /\
     free_pages p = 99 /\ free_pages p' = 2 ^ 64 - 11) /\
  (forall p k, pmm_wf p -> k ∈ free_set p ->
     free_pages (pmm_free p (page_addr p k)) = free_pages p + 1 /\
     free_set (pmm_free p (page_addr p k)) = free_set p /\
     ~ pmm_wf (pmm_free p (page_addr p k))).
Proof.
  split.
  - do 3 eexists. split; [reflexivity|]. split.
    { apply (pmm_init_ok 4096 (100 * PAGE_SIZE) 0); unfold PAGE_SIZE; lia. }
    split; [vm_compute; reflexivity|]. vm_compute. done.
  - intros p k Hwf [Hk Hf]%elem_of_free_set.
    destruct (pmm_double_free p k 0 Hwf (proj2 (elem_of_free_set p k) (conj Hk Hf)) ltac:(unfold PAGE_SIZE; lia)) as [Hfp Hset].
    rewrite Z.add_0_r in Hfp, Hset.
    pose proof (pmm_free_set_page p k 0 Hk ltac:(unfold PAGE_SIZE; lia)) as Hfr.
    rewrite Z.add_0_r in Hfr. rewrite Hfr in Hfp, Hset |- *. set (p' := _ <| free_pages := _ |>) in *.
    split; [done|]. split; [done|]. intros Hwf'. pose proof (wf_count p' Hwf') as Hc.
    rewrite Hfp, (wf_count p Hwf) in Hc.
    enough (E : free_list p' = free_list p).
    { unfold zlen in Hc. rewrite E in Hc. lia. }
    unfold free_list. change (total_pages p') with (total_pages p). apply filter_agree.
    intros i Hi%elem_of_seqZ.
    assert (Hiff : i ∈ free_set p' <-> i ∈ free_set p) by by rewrite Hset.
    rewrite !elem_of_free_set in Hiff. change (total_pages p') with (total_pages p) in Hiff.
    naive_solver lia.
Qed.

(** * Witnesses *)

Definition demo_pmm : pmm := pmm_init 4096 (8 * PAGE_SIZE) 0.

Lemma demo_pmm_wf : pmm_wf demo_pmm.
Proof. apply pmm_init_ok; unfold PAGE_SIZE; lia. Qed.


Lemma pmm_no_double_allocation_witness :
  client_step (mkClient demo_pmm ∅) (mkClient (pmm_alloc demo_pmm).1 ({[1]} ∪ ∅)) /\
  (1 ∈ (∅ : gset Z) \/ 1 ∈ free_set demo_pmm).
Proof.
  assert (Hst : client_step (mkClient demo_pmm ∅) (mkClient (pmm_alloc demo_pmm).1 ({[1]} ∪ ∅))).
  { change 1 with ((8192 - phys_base demo_pmm) / PAGE_SIZE).
    apply step_alloc; [vm_compute; reflexivity|lia]. }
  split; [exact Hst|].
  destruct (pmm_no_double_allocation 4096 (8 * PAGE_SIZE) 0 (mkClient demo_pmm ∅) _
    ltac:(lia) ltac:(unfold PAGE_SIZE; lia) ltac:(lia) ltac:(unfold PAGE_SIZE; lia)
    (rtc_refl _ _) Hst) as (_ & _ & H & _).
  apply H. set_solver.
Defined.
