(* ===== verification/CString.v ===== *)
(** The kernel's C library ([src/string.c], [src/stdlib.c]).

    Memory is a function from addresses to bytes; a pointer is an address and
    every routine maps the memory before the call to the memory after it (or to
    its result).  A loop that runs until it meets a NUL takes fuel and returns
    [None] when the fuel runs out; a counted loop recurses on its count.
    [char] is unsigned, as on AArch64. *)
From S2P Require Import Prelude Pmm.

Notation mem := (Z -> Z).

(** * Word accesses (little endian) *)

Fixpoint store_le (k : nat) (m : mem) (a w : Z) : mem :=
  match k with
  | O => m
  | S k' => store_le k' (<[a := w mod 256]> m) (a + 1) (w / 256)
  end.
Fixpoint load_le (k : nat) (m : mem) (a : Z) : Z :=
  match k with
  | O => 0
  | S k' => m a + 256 * load_le k' m (a + 1)
  end.
Definition store64 (m : mem) (a w : Z) : mem := store_le 8 m a w.
Definition load64 (m : mem) (a : Z) : Z := load_le 8 m a.

(** * Packed structures

    A packed C struct is the little-endian bytes of its fields in order. *)

Fixpoint le_bytes (k : nat) (v : Z) : list Z :=
  match k with
  | O => []
  | S k' => v mod 256 :: le_bytes k' (v / 256)
  end.

Fixpoint pack (ws : list nat) (vs : list Z) : list Z :=
  match ws, vs with
  | w :: ws', v :: vs' => le_bytes w v ++ pack ws' vs'
  | _, _ => []
  end.

Fixpoint unpack (ws : list nat) (m : mem) (a : Z) : list Z :=
  match ws with
  | [] => []
  | w :: ws' => load_le w m a :: unpack ws' m (a + Z.of_nat w)
  end.

(** * Memory operations *)

(** [while (n >= 8) { *(uint64_t* )p = word_val; p += 8; n -= 8; }] *)
Fixpoint memset_words (fuel : nat) (m : mem) (p w n : Z) : mem * Z * Z :=
  match fuel with
  | O => (m, p, n)
  | S f => if 8 <=? n then memset_words f (store64 m p w) (p + 8) w (n - 8) else (m, p, n)
  end.

(** [while (n--) *p++ = val;] *)
Fixpoint memset_bytes (n : nat) (m : mem) (p val : Z) : mem :=
  match n with
  | O => m
  | S n' => memset_bytes n' (<[p := val]> m) (p + 1) val
  end.

Definition memset (m : mem) (s c n : Z) : mem :=
  let val := u8 c in
  if (8 <=? n) && IS_ALIGNED s 8 then
    let w0 := val in
    let w1 := Z.lor w0 (u64 (Z.shiftl w0 8)) in
    let w2 := Z.lor w1 (u64 (Z.shiftl w1 16)) in
    let word_val := Z.lor w2 (u64 (Z.shiftl w2 32)) in
    let '(m', p, n') := memset_words (Z.to_nat n) m s word_val n in
    memset_bytes (Z.to_nat n') m' p val
  else memset_bytes (Z.to_nat n) m s val.

Fixpoint memcpy_words (fuel : nat) (m : mem) (d s n : Z) : mem * Z * Z * Z :=
  match fuel with
  | O => (m, d, s, n)
  | S f =>
      if 8 <=? n then memcpy_words f (store64 m d (load64 m s)) (d + 8) (s + 8) (n - 8)
      else (m, d, s, n)
  end.

(** [while (n--) *d++ = *s++;] *)
Fixpoint copy_fwd (n : nat) (m : mem) (d s : Z) : mem :=
  match n with
  | O => m
  | S n' => copy_fwd n' (<[d := m s]> m) (d + 1) (s + 1)
  end.

(** [while (n--) *--d = *--s;] *)
Fixpoint copy_bwd (n : nat) (m : mem) (d s : Z) : mem :=
  match n with
  | O => m
  | S n' => copy_bwd n' (<[d - 1 := m (s - 1)]> m) (d - 1) (s - 1)
  end.

Definition memcpy (m : mem) (dest src n : Z) : mem :=
  if (8 <=? n) && IS_ALIGNED dest 8 && IS_ALIGNED src 8 then
    let '(m', d, s, n') := memcpy_words (Z.to_nat n) m dest src n in
    copy_fwd (Z.to_nat n') m' d s
  else copy_fwd (Z.to_nat n) m dest src.

Definition memmove (m : mem) (dest src n : Z) : mem :=
  if dest <? src then copy_fwd (Z.to_nat n) m dest src
  else if src <? dest then copy_bwd (Z.to_nat n) m (dest + n) (src + n)
  else m.

Fixpoint memcmp_loop (n : nat) (m : mem) (p1 p2 : Z) : Z :=
  match n with
  | O => 0
  | S n' => if negb (m p1 =? m p2) then m p1 - m p2 else memcmp_loop n' m (p1 + 1) (p2 + 1)
  end.
Definition memcmp (m : mem) (s1 s2 n : Z) : Z := memcmp_loop (Z.to_nat n) m s1 s2.

(** * String operations *)

Fixpoint strlen (fuel : nat) (m : mem) (p : Z) : option Z :=
  match fuel with
  | O => None
  | S f => if m p =? 0 then Some 0 else option_map (Z.add 1) (strlen f m (p + 1))
  end.

(** [while ( ( *d++ = *src++ ) != '\0');] *)
Fixpoint strcpy (fuel : nat) (m : mem) (d s : Z) : option mem :=
  match fuel with
  | O => None
  | S f =>
      let m' := <[d := m s]> m in
      if m s =? 0 then Some m' else strcpy f m' (d + 1) (s + 1)
  end.

(** The two loops of [strncpy]: the first stores a byte and decrements [n] only
    when the byte was not NUL; the second pads [n] more bytes. *)
Fixpoint strncpy (n : nat) (m : mem) (d s : Z) : mem :=
  match n with
  | O => m
  | S n' =>
      let m' := <[d := m s]> m in
      if m s =? 0 then memset_bytes n m' (d + 1) 0 else strncpy n' m' (d + 1) (s + 1)
  end.

Fixpoint strcmp (fuel : nat) (m : mem) (s1 s2 : Z) : option Z :=
  match fuel with
  | O => None
  | S f =>
      if negb (m s1 =? 0) && (m s1 =? m s2) then strcmp f m (s1 + 1) (s2 + 1)
      else Some (m s1 - m s2)
  end.

Fixpoint strncmp (n : nat) (m : mem) (s1 s2 : Z) : Z :=
  match n with
  | O => 0
  | S n' =>
      if negb (m s1 =? 0) && (m s1 =? m s2) then strncmp n' m (s1 + 1) (s2 + 1)
      else m s1 - m s2
  end.

Definition strcat (fuel : nat) (m : mem) (dest src : Z) : option mem :=
  match strlen fuel m dest with
  | None => None
  | Some n => strcpy fuel m (dest + n) src
  end.

Fixpoint strchr (fuel : nat) (m : mem) (s c : Z) : option Z :=
  match fuel with
  | O => None
  | S f =>
      if m s =? 0 then Some (if u8 c =? 0 then s else NULL)
      else if m s =? u8 c then Some s else strchr f m (s + 1) c
  end.

Fixpoint strrchr_loop (fuel : nat) (m : mem) (s c last : Z) : option Z :=
  match fuel with
  | O => None
  | S f =>
      if m s =? 0 then Some (if c =? 0 then s else last)
      else strrchr_loop f m (s + 1) c (if m s =? c then s else last)
  end.
Definition strrchr (fuel : nat) (m : mem) (s c : Z) : option Z :=
  strrchr_loop fuel m s (u8 c) NULL.

Fixpoint strstr_loop (fuel : nat) (m : mem) (h needle : Z) (len : nat) : option Z :=
  match fuel with
  | O => None
  | S f =>
      if m h =? 0 then Some NULL
      else if (m h =? m needle) && (strncmp len m h needle =? 0) then Some h
      else strstr_loop f m (h + 1) needle len
  end.
Definition strstr (fuel : nat) (m : mem) (haystack needle : Z) : option Z :=
  if m needle =? 0 then Some haystack else
  match strlen fuel m needle with
  | None => None
  | Some len => strstr_loop fuel m haystack needle (Z.to_nat len)
  end.

Fixpoint strnlen (maxlen : nat) (m : mem) (s : Z) : Z :=
  match maxlen with
  | O => 0
  | S n => if m s =? 0 then 0 else 1 + strnlen n m (s + 1)
  end.

(** * Number parsing and printing *)

Definition is_blank (c : Z) : bool := (c =? 32) || (c =? 9).
Definition is_digit (c : Z) : bool := (48 <=? c) && (c <=? 57).

Fixpoint skip_blank (fuel : nat) (m : mem) (p : Z) : option Z :=
  match fuel with
  | O => None
  | S f => if is_blank (m p) then skip_blank f m (p + 1) else Some p
  end.

(** [while (digit) { result = 10 * result + digit; str++; }], where [wrap]
    is the width of [result] ([int] or [long]). *)
Fixpoint parse_digits (wrap : Z -> Z) (fuel : nat) (m : mem) (p result : Z) : option Z :=
  match fuel with
  | O => None
  | S f =>
      if is_digit (m p) then parse_digits wrap f m (p + 1) (wrap (result * 10 + (m p - 48)))
      else Some result
  end.

Definition parse_signed (wrap : Z -> Z) (fuel : nat) (m : mem) (str : Z) : option Z :=
  match skip_blank fuel m str with
  | None => None
  | Some p =>
      let '(sign, p) :=
        if m p =? 45 then (-1, p + 1) else if m p =? 43 then (1, p + 1) else (1, p) in
      option_map (fun result => wrap (result * sign)) (parse_digits wrap fuel m p 0)
  end.

Definition atoi (fuel : nat) (m : mem) (str : Z) : option Z := parse_signed s32 fuel m str.
Definition atol (fuel : nat) (m : mem) (str : Z) : option Z := parse_signed s64 fuel m str.

Definition digit_of (c : Z) : option Z :=
  if (48 <=? c) && (c <=? 57) then Some (c - 48)
  else if (97 <=? c) && (c <=? 122) then Some (c - 97 + 10)
  else if (65 <=? c) && (c <=? 90) then Some (c - 65 + 10)
  else None.

(** The digit loop of both versions of [strtoul]: the value and the end pointer. *)
Fixpoint strtoul_digits (fuel : nat) (m : mem) (p base result : Z) : option (Z * Z) :=
  match fuel with
  | O => None
  | S f =>
      match digit_of (m p) with
      | None => Some (result, p)
      | Some digit =>
          if base <=? digit then Some (result, p)
          else strtoul_digits f m (p + 1) base (u64 (result * base + digit))
      end
  end.

(** [strtoul] of [src/string.c], the definition the kernel links. *)
Definition strtoul (fuel : nat) (m : mem) (str base : Z) : option (Z * Z) :=
  match skip_blank fuel m str with
  | None => None
  | Some p => strtoul_digits fuel m p base 0
  end.

(** The weak [strtoul] of [src/stdlib.c]. *)
Definition strtoul_weak (fuel : nat) (m : mem) (str base : Z) : option (Z * Z) :=
  match skip_blank fuel m str with
  | None => None
  | Some p =>
      let is_x c := (c =? 120) || (c =? 88) in
      let '(p, base) :=
        if base =? 0 then
          if m p =? 48 then
            if is_x (m (p + 1)) then (p + 2, 16) else (p + 1, 8)
          else (p, 10)
        else if base =? 16 then
          if (m p =? 48) && is_x (m (p + 1)) then (p + 2, 16) else (p, 16)
        else (p, base) in
      strtoul_digits fuel m p base 0
  end.

(** ["0123456789abcdefghijklmnopqrstuvwxyz"[d]] *)
Definition digit_char (d : Z) : Z := if d <? 10 then 48 + d else 87 + d.

(** [do { *ptr++ = digit; uvalue /= base; } while (uvalue);] *)
Fixpoint itoa_digits (fuel : nat) (m : mem) (ptr uvalue base : Z) : option (mem * Z) :=
  match fuel with
  | O => None
  | S f =>
      let m' := <[ptr := digit_char (uvalue mod base)]> m in
      if uvalue / base =? 0 then Some (m', ptr + 1)
      else itoa_digits f m' (ptr + 1) (uvalue / base) base
  end.

(** [while (low < ptr) { swap *low and *ptr; low++; ptr--; }] *)
Fixpoint itoa_reverse (fuel : nat) (m : mem) (low ptr : Z) : mem :=
  match fuel with
  | O => m
  | S f =>
      if low <? ptr then itoa_reverse f (<[ptr := m low]> (<[low := m ptr]> m)) (low + 1) (ptr - 1)
      else m
  end.

(** 33 rounds are enough for the 32 bits of an [unsigned int] in any base. *)
Definition itoa (m : mem) (value str base : Z) : option mem :=
  if (base <? 2) || (36 <? base) then Some (<[str := 0]> m) else
  let neg := (value <? 0) && (base =? 10) in
  let m := if neg then <[str := 45]> m else m in
  let low := if neg then str + 1 else str in
  let uvalue := u32 (if value <? 0 then - value else value) in
  match itoa_digits 33 m low uvalue base with
  | None => None
  | Some (m', ptr) => Some (itoa_reverse 33 (<[ptr := 0]> m') low (ptr - 1))
  end.

(** * Little-endian bytes *)

Lemma length_le_bytes k v : length (le_bytes k v) = k.
Proof. revert v. induction k; intros; cbn; auto. Qed.

Lemma le_bytes_range k v i : 0 <= (le_bytes k v).[i] < 256.
Proof.
  unfold aget. revert v i. induction k as [|k IH]; intros v i; cbn [le_bytes].
  - rewrite list_lookup_total_alt, lookup_nil. cbn. lia.
  - destruct (Z.to_nat i) as [|n] eqn:E; cbn; [apply Z.mod_pos_bound; lia|].
    specialize (IH (v / 256) (Z.of_nat n)). by rewrite Nat2Z.id in IH.
Qed.

Lemma load_le_ext k m m' a a' :
  (forall i, 0 <= i < Z.of_nat k -> m (a + i) = m' (a' + i)) -> load_le k m a = load_le k m' a'.
Proof.
  revert a a'. induction k as [|k IH]; intros a a' H; cbn [load_le]; [done|].
  rewrite (IH (a + 1) (a' + 1)).
  - specialize (H 0). rewrite !Z.add_0_r in H. rewrite H by lia. done.
  - intros i Hi. rewrite <- !Z.add_assoc. apply H. lia.
Qed.

Lemma load_le_bytes k m a v :
  (forall i, 0 <= i < Z.of_nat k -> m (a + i) = (le_bytes k v).[i]) ->
  load_le k m a = v mod 256 ^ Z.of_nat k.
Proof.
  revert a v. induction k as [|k IH]; intros a v H; cbn [load_le].
  - change (256 ^ Z.of_nat 0) with 1. by rewrite Z.mod_1_r.
  - rewrite (IH (a + 1) (v / 256)).
    + specialize (H 0). rewrite Z.add_0_r in H. rewrite H by lia.
      cbn [le_bytes]. change ((v mod 256 :: le_bytes k (v / 256)).[0]) with (v mod 256).
      rewrite Nat2Z.inj_succ, Z.pow_succ_r by lia.
      rewrite (Z.rem_mul_r v 256 (256 ^ Z.of_nat k)); [lia|lia|apply Z.pow_pos_nonneg; lia].
    + intros i Hi. rewrite <- Z.add_assoc, H by lia. cbn [le_bytes]. unfold aget.
      replace (Z.to_nat (1 + i)) with (S (Z.to_nat i)) by lia. done.
Qed.

Lemma load_le_range k m a :
  (forall x, 0 <= m x < 256) -> 0 <= load_le k m a < 256 ^ Z.of_nat k.
Proof.
  intros Hm. revert a. induction k as [|k IH]; intros a; cbn [load_le].
  - change (256 ^ Z.of_nat 0) with 1. lia.
  - rewrite Nat2Z.inj_succ, Z.pow_succ_r by lia. specialize (IH (a + 1)). specialize (Hm a). lia.
Qed.

(** * Packed structures: reading back *)

Definition is_byte (v : Z) : Prop := 0 <= v < 256.
Definition sum_widths (ws : list nat) : Z := foldr (fun w n => Z.of_nat w + n) 0 ws.

Lemma zlen_pack_le ws vs : zlen (pack ws vs) <= sum_widths ws.
Proof.
  revert vs. induction ws as [|w ws IH]; intros [|v vs]; cbn; try (unfold zlen; cbn; lia).
  - specialize (IH []). destruct ws; unfold zlen in *; cbn in *; lia.
  - rewrite zlen_app. specialize (IH vs). unfold zlen in *. rewrite length_le_bytes. unfold sum_widths in IH. lia.
Qed.

Lemma pack_bytes ws vs : Forall is_byte (pack ws vs).
Proof.
  assert (Hle : forall k v, Forall is_byte (le_bytes k v)).
  { induction k as [|k IH]; intros v; cbn; constructor; [apply Z.mod_pos_bound; lia|done]. }
  revert vs. induction ws as [|w ws IH]; intros [|v vs]; cbn; try done. by apply Forall_app.
Qed.

Lemma pack_app ws1 ws2 vs1 vs2 :
  length ws1 = length vs1 -> pack (ws1 ++ ws2) (vs1 ++ vs2) = pack ws1 vs1 ++ pack ws2 vs2.
Proof.
  revert vs1. induction ws1 as [|w ws IH]; intros [|v vs] E; cbn in *; try done.
  rewrite IH by lia. by rewrite app_assoc.
Qed.

Lemma unpack_app ws1 ws2 m a : unpack (ws1 ++ ws2) m a = unpack ws1 m a ++ unpack ws2 m (a + sum_widths ws1).
Proof.
  revert a. induction ws1 as [|w ws IH]; intros a; cbn; [by rewrite Z.add_0_r|].
  rewrite IH. do 3 f_equal. unfold sum_widths. lia.
Qed.

Lemma unpack_pack ws vs m a :
  length ws = length vs ->
  (forall i, 0 <= i < zlen (pack ws vs) -> m (a + i) = (pack ws vs).[i]) ->
  unpack ws m a = zip_with (fun w v => v mod 256 ^ Z.of_nat w) ws vs.
Proof.
  revert vs a. induction ws as [|w ws IH]; intros [|v vs] a E Hm; cbn in *; try done.
  rewrite zlen_app in Hm. unfold zlen at 1 in Hm. rewrite length_le_bytes in Hm.
  assert (Hz : 0 <= zlen (pack ws vs)) by (unfold zlen; lia). f_equal.
  - apply load_le_bytes. intros i Hi. rewrite Hm by lia. unfold aget.
    apply lookup_total_app_l. rewrite length_le_bytes. lia.
  - apply IH; [lia|]. intros i Hi. rewrite <- Z.add_assoc, Hm by lia. unfold aget.
    rewrite lookup_total_app_r by (rewrite length_le_bytes; lia). f_equal. rewrite length_le_bytes. lia.
Qed.

(** * Lemmas: memory *)

Lemma mem_upd (m : mem) a v x : (<[a := v]> m) x = if x =? a then v else m x.
Proof.
  destruct (Z.eqb_spec x a) as [->|].
  - apply fn_lookup_insert.
  - by apply fn_lookup_insert_ne.
Qed.

Definition in_range (a n x : Z) : bool := (a <=? x) && (x <? a + n).

Lemma in_range_spec a n x : BoolSpec (a <= x < a + n) (~ a <= x < a + n) (in_range a n x).
Proof.
  unfold in_range.
  destruct (Z.leb_spec a x), (Z.ltb_spec x (a + n)); constructor; lia.
Qed.

Definition bytes_ok (m : mem) : Prop := forall a, 0 <= m a < 256.

(** The memory after filling, and after copying, [n] bytes. *)
Definition filled (m : mem) (p v n : Z) : mem := fun x => if in_range p n x then v else m x.
Definition copied (m : mem) (d s n : Z) : mem :=
  fun x => if in_range d n x then m (s + (x - d)) else m x.

(** Case analysis on the bounds tests of a goal. *)
Ltac mem_cases :=
  repeat match goal with
  | |- context [in_range ?a ?n ?x] => destruct (in_range_spec a n x)
  | |- context [?x =? ?y] => destruct (Z.eqb_spec x y)
  | H : context [in_range ?a ?n ?x] |- _ => destruct (in_range_spec a n x)
  end; try lia.

Lemma store_le_read k m a w x :
  store_le k m a w x =
  if in_range a (Z.of_nat k) x then (w / 256 ^ (x - a)) mod 256 else m x.
Proof.
  revert m a w. induction k as [|k IH]; intros m a w; cbn [store_le].
  { by mem_cases. }
  rewrite IH, mem_upd. mem_cases; subst; try done.
  - rewrite Z.div_div by lia. f_equal. f_equal.
    rewrite <- (Z.pow_succ_r 256) by lia. f_equal. lia.
  - by rewrite Z.sub_diag, Z.pow_0_r, Z.div_1_r.
Qed.

Lemma load_le_byte k m a i :
  bytes_ok m -> 0 <= i < Z.of_nat k -> (load_le k m a / 256 ^ i) mod 256 = m (a + i).
Proof.
  intros Hm. revert a i. induction k as [|k IH]; intros a i Hi; [lia|]. cbn [load_le].
  pose proof (Hm a).
  destruct (decide (i = 0)) as [->|].
  - rewrite Z.pow_0_r, Z.div_1_r, Z.add_0_r. lia.
  - replace i with (Z.succ (i - 1)) at 1 by lia. rewrite Z.pow_succ_r by lia.
    rewrite <- Z.div_div by lia.
    replace ((m a + 256 * load_le k m (a + 1)) / 256) with (load_le k m (a + 1)) by lia.
    rewrite IH by lia. f_equal. lia.
Qed.

Lemma store_load64 m d s x :
  bytes_ok m -> store64 m d (load64 m s) x = copied m d s 8 x.
Proof.
  intros Hm. unfold store64, copied, load64. rewrite store_le_read.
  change (Z.of_nat 8) with 8. mem_cases. by rewrite load_le_byte by (done || lia).
Qed.

(** The replicated fill pattern, checked for all 256 bytes. *)
Definition fill_word (val : Z) : Z :=
  let w1 := Z.lor val (u64 (Z.shiftl val 8)) in
  let w2 := Z.lor w1 (u64 (Z.shiftl w1 16)) in
  Z.lor w2 (u64 (Z.shiftl w2 32)).

Lemma fill_word_byte val i :
  0 <= val < 256 -> 0 <= i < 8 -> (fill_word val / 256 ^ i) mod 256 = val.
Proof.
  intros Hv Hi.
  assert (Hall : forallb (fun v => forallb (fun i => (fill_word v / 256 ^ i) mod 256 =? v)
    (seqZ 0 8)) (seqZ 0 256) = true) by (vm_compute; reflexivity).
  rewrite forallb_forall in Hall. specialize (Hall val).
  rewrite <- list_elem_of_In, elem_of_seqZ in Hall. specialize (Hall ltac:(lia)).
  rewrite forallb_forall in Hall. specialize (Hall i).
  rewrite <- list_elem_of_In, elem_of_seqZ in Hall. specialize (Hall ltac:(lia)).
  by apply Z.eqb_eq in Hall.
Qed.

Lemma memset_bytes_read n m p v x : memset_bytes n m p v x = filled m p v (Z.of_nat n) x.
Proof.
  revert m p. induction n as [|n IH]; intros m p; cbn [memset_bytes].
  { unfold filled. by mem_cases. }
  rewrite IH. unfold filled. rewrite mem_upd. by mem_cases.
Qed.

Lemma memset_words_read fuel m p v n :
  0 <= v < 256 -> 0 <= n <= Z.of_nat fuel ->
  exists q, 0 <= q /\ 0 <= n - 8 * q < 8 /\
    (memset_words fuel m p (fill_word v) n).1.2 = p + 8 * q /\
    (memset_words fuel m p (fill_word v) n).2 = n - 8 * q /\
    forall x, (memset_words fuel m p (fill_word v) n).1.1 x = filled m p v (8 * q) x.
Proof.
  intros Hv. revert m p n. induction fuel as [|fuel IH]; intros m p n Hn; cbn [memset_words].
  { exists 0. repeat split; cbn; try lia. intros. unfold filled. by mem_cases. }
  destruct (Z.leb_spec 8 n); cycle 1.
  { exists 0. repeat split; cbn; try lia. intros. unfold filled. by mem_cases. }
  destruct (IH (store64 m p (fill_word v)) (p + 8) (n - 8)) as (q & ? & ? & -> & -> & Hx); [lia|].
  exists (q + 1). repeat split; try lia. intros x. rewrite Hx. unfold filled, store64.
  rewrite store_le_read. change (Z.of_nat 8) with 8. mem_cases; try done.
  rewrite fill_word_byte; lia.
Qed.

Lemma copy_fwd_read n m d s x :
  d <= s \/ s + Z.of_nat n <= d -> copy_fwd n m d s x = copied m d s (Z.of_nat n) x.
Proof.
  revert m d s. induction n as [|n IH]; intros m d s Hds; cbn [copy_fwd].
  { unfold copied. by mem_cases. }
  rewrite IH by lia. unfold copied. rewrite !mem_upd. mem_cases; subst; f_equal; lia.
Qed.

Lemma copy_bwd_read n m d s x :
  s <= d -> copy_bwd n m (d + Z.of_nat n) (s + Z.of_nat n) x = copied m d s (Z.of_nat n) x.
Proof.
  revert m. induction n as [|n IH]; intros m Hds; cbn [copy_bwd].
  { unfold copied. by mem_cases. }
  replace (d + Z.of_nat (S n) - 1) with (d + Z.of_nat n) by lia.
  replace (s + Z.of_nat (S n) - 1) with (s + Z.of_nat n) by lia.
  rewrite IH by lia. unfold copied. rewrite !mem_upd. mem_cases; subst; f_equal; lia.
Qed.

Lemma memcpy_words_read fuel m d s n :
  bytes_ok m -> 0 <= n <= Z.of_nat fuel -> d <= s \/ s + n <= d ->
  exists q, 0 <= q /\ 0 <= n - 8 * q < 8 /\
    (memcpy_words fuel m d s n).1.1.2 = d + 8 * q /\
    (memcpy_words fuel m d s n).1.2 = s + 8 * q /\
    (memcpy_words fuel m d s n).2 = n - 8 * q /\
    forall x, (memcpy_words fuel m d s n).1.1.1 x = copied m d s (8 * q) x.
Proof.
  revert m d s n. induction fuel as [|fuel IH]; intros m d s n Hm Hn Hds; cbn [memcpy_words].
  { exists 0. repeat split; cbn; try lia. intros. unfold copied. by mem_cases. }
  destruct (Z.leb_spec 8 n); cycle 1.
  { exists 0. repeat split; cbn; try lia. intros. unfold copied. by mem_cases. }
  destruct (IH (store64 m d (load64 m s)) (d + 8) (s + 8) (n - 8))
    as (q & ? & ? & -> & -> & -> & Hx); [|lia|lia|].
  { intros a. rewrite store_load64 by done. unfold copied. by mem_cases. }
  exists (q + 1). repeat split; try lia. intros x. rewrite Hx. unfold copied.
  rewrite !store_load64 by done. unfold copied. mem_cases; try done; f_equal; lia.
Qed.

Lemma memset_read m a c n x : 0 <= n -> memset m a c n x = filled m a (u8 c) n x.
Proof.
  intros Hn. unfold memset. change (Z.lor _ _) with (fill_word (u8 c)).
  destruct ((8 <=? n) && IS_ALIGNED a 8).
  - destruct (memset_words_read (Z.to_nat n) m a (u8 c) n) as (q & H0 & Hq & E2 & E3 & Hx);
      [apply u8_range|lia|].
    destruct (memset_words _ _ _ _ _) as [[m' p] n']. cbn in E2, E3, Hx. subst.
    rewrite memset_bytes_read. unfold filled. rewrite Hx. unfold filled. by mem_cases.
  - rewrite memset_bytes_read. by rewrite Z2Nat.id.
Qed.

Lemma memcpy_read m a b n :
  bytes_ok m -> 0 <= n -> a <= b \/ b + n <= a -> forall x, memcpy m a b n x = copied m a b n x.
Proof.
  intros Hm Hn Hab x. unfold memcpy. destruct (_ && _).
  - destruct (memcpy_words_read (Z.to_nat n) m a b n) as (q & H0 & Hq & E1 & E2 & E3 & Hx);
      [done|lia|done|].
    destruct (memcpy_words _ _ _ _ _) as [[[m' d] s] n']. cbn in E1, E2, E3, Hx. subst.
    rewrite copy_fwd_read by lia. unfold copied. rewrite !Hx. unfold copied.
    mem_cases; try done; f_equal; lia.
  - rewrite copy_fwd_read by lia. by rewrite Z2Nat.id.
Qed.

Lemma memcmp_loop_zero m k a b :
  memcmp_loop k m a b = 0 <-> forall i, 0 <= i < Z.of_nat k -> m (a + i) = m (b + i).
Proof.
  revert a b. induction k as [|k IH]; intros a b; cbn [memcmp_loop]; [split; [lia|done]|].
  destruct (Z.eqb_spec (m a) (m b)) as [E|E]; cbn [negb].
  - rewrite IH. split; intros H i Hi.
    + destruct (decide (i = 0)) as [->|]; [by rewrite !Z.add_0_r|].
      specialize (H (i - 1) ltac:(lia)).
      replace (a + 1 + (i - 1)) with (a + i) in H by lia.
      by replace (b + 1 + (i - 1)) with (b + i) in H by lia.
    + specialize (H (i + 1) ltac:(lia)).
      replace (a + 1 + i) with (a + (i + 1)) by lia.
      by replace (b + 1 + i) with (b + (i + 1)) by lia.
  - split; [lia|]. intros H. specialize (H 0 ltac:(lia)). rewrite !Z.add_0_r in H. done.
Qed.

(** * Lemmas: strings *)

(** The NUL-terminated string [l] is stored at [p]. *)
Fixpoint cstr (m : mem) (p : Z) (l : list Z) : Prop :=
  match l with
  | [] => m p = 0
  | c :: l' => m p = c /\ c <> 0 /\ cstr m (p + 1) l'
  end.

Lemma cstr_ext m m' p l :
  (forall x, p <= x <= p + zlen l -> m' x = m x) -> cstr m p l -> cstr m' p l.
Proof.
  unfold zlen. revert p. induction l as [|c l IH]; intros p Hx; cbn [cstr length] in *.
  - intros Hp. rewrite Hx; [done|lia].
  - intros (Hp & Hc & Hl). rewrite Hx by lia. repeat split; try done.
    apply IH; [|done]. intros. apply Hx. lia.
Qed.

Lemma cstr_moved m m' p d l :
  cstr m p l -> (forall i, 0 <= i <= zlen l -> m' (d + i) = m (p + i)) -> cstr m' d l.
Proof.
  unfold zlen. revert p d. induction l as [|c l IH]; intros p d; cbn [cstr length]; intros Hl Hs.
  - specialize (Hs 0 ltac:(lia)). rewrite !Z.add_0_r in Hs. congruence.
  - destruct Hl as (Hc & Hc0 & Hl). split; [|split; [done|]].
    + specialize (Hs 0 ltac:(lia)). rewrite !Z.add_0_r in Hs. congruence.
    + apply (IH (p + 1) (d + 1) Hl). intros i Hi. specialize (Hs (i + 1) ltac:(lia)).
      replace (d + 1 + i) with (d + (i + 1)) by lia.
      by replace (p + 1 + i) with (p + (i + 1)) by lia.
Qed.

Lemma strlen_cstr m p l fuel :
  cstr m p l -> (length l < fuel)%nat -> strlen fuel m p = Some (zlen l).
Proof.
  unfold zlen. revert p fuel.
  induction l as [|c l IH]; intros p [|fuel] Hs Hf; cbn [length] in Hf; try lia;
    cbn [strlen cstr] in *.
  - by rewrite Hs.
  - destruct Hs as (-> & Hc & Hs). destruct (Z.eqb_spec c 0); [done|].
    rewrite (IH (p + 1)) by (done || lia). cbn. f_equal. lia.
Qed.

Lemma strcpy_cstr m d s l fuel :
  cstr m s l -> (length l < fuel)%nat -> d <= s \/ s + zlen l < d ->
  exists m', strcpy fuel m d s = Some m' /\ forall x, m' x = copied m d s (zlen l + 1) x.
Proof.
  unfold zlen. revert m d s fuel.
  induction l as [|c l IH]; intros m d s [|fuel] Hs Hf Hds; cbn [length] in Hf, Hds; try lia;
    cbn [strcpy cstr length] in *.
  - rewrite Hs. eexists. split; [done|]. intros x. rewrite mem_upd. unfold copied.
    mem_cases; subst; by rewrite Z.sub_diag, Z.add_0_r.
  - destruct Hs as (Hms & Hc & Hs). rewrite Hms. destruct (Z.eqb_spec c 0); [done|].
    destruct (IH (<[d := c]> m) (d + 1) (s + 1) fuel) as (m' & -> & Hm'); [|lia|lia|].
    { eapply cstr_ext; [|exact Hs]. intros x Hx. unfold zlen in Hx. rewrite mem_upd. mem_cases. }
    exists m'. split; [done|]. intros x. rewrite Hm'. unfold copied. rewrite !mem_upd.
    mem_cases; subst; try done; try (f_equal; lia);
      by rewrite Z.sub_diag, Z.add_0_r.
Qed.

(** What [strncpy] leaves: the characters, at most [n]; and when the string is
    shorter than [n], NULs up to and including offset [n]. *)
Definition strncpyed (m : mem) (d s : Z) (l : list Z) (n : Z) : mem :=
  fun x =>
    if in_range d (Z.min n (zlen l)) x then m (s + (x - d))
    else if (zlen l <? n) && in_range (d + zlen l) (n - zlen l + 1) x then 0 else m x.

Lemma strncpy_cstr m d s l n :
  cstr m s l -> d + Z.of_nat n < s \/ s + zlen l < d ->
  forall x, strncpy n m d s x = strncpyed m d s l (Z.of_nat n) x.
Proof.
  unfold strncpyed, zlen. revert m d s n.
  induction l as [|c l IH]; intros m d s n Hs Hds x; cbn [cstr length] in *.
  - destruct n as [|n]; cbn [strncpy].
    { destruct (Z.ltb_spec (Z.of_nat 0) (Z.of_nat 0)); cbn; mem_cases. }
    rewrite Hs. cbn [Z.eqb]. rewrite memset_bytes_read. unfold filled. rewrite mem_upd.
    destruct (Z.ltb_spec (Z.of_nat 0) (Z.of_nat (S n))); [|lia]. cbn [andb]. mem_cases.
  - destruct n as [|n]; cbn [strncpy].
    { destruct (Z.ltb_spec (Z.of_nat (S (length l))) (Z.of_nat 0)); [lia|]. cbn. mem_cases. }
    destruct Hs as (Hms & Hc & Hs). rewrite Hms. destruct (Z.eqb_spec c 0); [done|].
    rewrite IH; [|eapply cstr_ext; [|exact Hs]|lia].
    2: { intros y Hy. unfold zlen in Hy. rewrite mem_upd. mem_cases. }
    rewrite !mem_upd.
    destruct (Z.ltb_spec (Z.of_nat (length l)) (Z.of_nat n)),
      (Z.ltb_spec (Z.of_nat (S (length l))) (Z.of_nat (S n))); try lia; cbn [andb];
      mem_cases; subst; try done; try (f_equal; lia);
      by replace (s + (d - d)) with s by lia.
Qed.

(** The reference comparison: the difference of the first characters that differ. *)
Fixpoint lex_diff (l1 l2 : list Z) : Z :=
  match l1, l2 with
  | [], [] => 0
  | [], b :: _ => - b
  | a :: _, [] => a
  | a :: l1', b :: l2' => if a =? b then lex_diff l1' l2' else a - b
  end.

Lemma lex_diff_zero l1 l2 :
  Forall (fun c => c <> 0) l1 -> Forall (fun c => c <> 0) l2 -> lex_diff l1 l2 = 0 <-> l1 = l2.
Proof.
  intros H1. revert l2. induction H1 as [|a l1 Ha H1 IH]; intros l2 H2.
  - destruct H2; cbn; split; (done || lia).
  - destruct H2 as [|b l2 Hb H2]; cbn [lex_diff]; [done|].
    destruct (Z.eqb_spec a b) as [->|]; [rewrite IH by done; naive_solver|].
    split; [lia|]. naive_solver.
Qed.

Lemma cstr_nonzero m p l : cstr m p l -> Forall (fun c => c <> 0) l.
Proof.
  revert p. induction l as [|c l IH]; intros p; cbn [cstr]; [done|].
  intros (? & ? & ?). constructor; eauto.
Qed.

Lemma cstr_fun m p l1 l2 : cstr m p l1 -> cstr m p l2 -> l1 = l2.
Proof.
  revert p l2. induction l1 as [|a l1 IH]; intros p [|b l2]; cbn [cstr].
  - done.
  - intros ? (? & ? & ?). congruence.
  - intros (? & ? & ?) ?. congruence.
  - intros (? & ? & ?) (? & ? & ?). f_equal; [congruence|]. eauto.
Qed.

Lemma strcmp_cstr m p1 p2 l1 l2 fuel :
  cstr m p1 l1 -> cstr m p2 l2 -> (length l1 < fuel)%nat ->
  strcmp fuel m p1 p2 = Some (lex_diff l1 l2).
Proof.
  revert p1 p2 l2 fuel.
  induction l1 as [|a l1 IH]; intros p1 p2 l2 [|fuel] H1 H2 Hf; cbn [length] in Hf; try lia;
    cbn [cstr strcmp] in *.
  - rewrite H1. cbn. destruct l2 as [|b l2]; cbn [cstr lex_diff] in *; [by rewrite H2|].
    destruct H2 as (-> & _ & _). done.
  - destruct H1 as (-> & Ha & H1). destruct (Z.eqb_spec a 0); [done|]. cbn [negb andb].
    destruct l2 as [|b l2]; cbn [cstr lex_diff] in *.
    + rewrite H2. destruct (Z.eqb_spec a 0); [done|]. f_equal. lia.
    + destruct H2 as (-> & Hb & H2). destruct (Z.eqb_spec a b); [|done].
      apply IH; [done|done|lia].
Qed.

Lemma strncmp_cstr m p1 p2 l1 l2 n :
  cstr m p1 l1 -> cstr m p2 l2 -> strncmp n m p1 p2 = lex_diff (take n l1) (take n l2).
Proof.
  revert p1 p2 l1 l2. induction n as [|n IH]; intros p1 p2 l1 l2 H1 H2; cbn [strncmp]; [done|].
  destruct l1 as [|a l1]; cbn [cstr take] in *.
  - rewrite H1. cbn. destruct l2 as [|b l2]; cbn [cstr lex_diff] in *; [by rewrite H2|].
    by destruct H2 as (-> & _ & _).
  - destruct H1 as (-> & Ha & H1). destruct (Z.eqb_spec a 0); [done|]. cbn [negb andb].
    destruct l2 as [|b l2]; cbn [cstr lex_diff take] in *.
    + rewrite H2. destruct (Z.eqb_spec a 0); [done|]. lia.
    + destruct H2 as (-> & Hb & H2). destruct (Z.eqb_spec a b); [|done]. eauto.
Qed.

(** [needle] starts the string [l]. *)
Definition starts_with (needle l : list Z) : bool := bool_decide (take (length needle) l = needle).

(** The first suffix of [l] that starts with [needle], as an offset. *)
Fixpoint first_match (needle l : list Z) : option Z :=
  match l with
  | [] => None
  | _ :: l' => if starts_with needle l then Some 0 else option_map (Z.add 1) (first_match needle l')
  end.

Lemma strstr_loop_cstr m h n l c needle fuel :
  cstr m h l -> cstr m n (c :: needle) -> (length l < fuel)%nat ->
  strstr_loop fuel m h n (S (length needle)) =
  Some (match first_match (c :: needle) l with Some i => h + i | None => NULL end).
Proof.
  intros Hl Hn. revert h fuel Hl. induction l as [|a l IH]; intros h [|fuel] Hl Hf;
    cbn [length] in Hf; try lia; cbn [strstr_loop first_match].
  - cbn [cstr] in Hl. by rewrite Hl.
  - pose proof Hl as (Ha & Ha0 & Hl'). pose proof Hn as (Hc & Hc0 & _).
    rewrite (strncmp_cstr m h n (a :: l) (c :: needle) (S (length needle))) by done.
    rewrite Ha, Hc. destruct (Z.eqb_spec a 0); [done|].
    replace (take (S (length needle)) (c :: needle)) with (c :: needle)
      by (cbn; by rewrite firstn_all).
    assert (Hnz := cstr_nonzero _ _ _ Hl). assert (Hnn := cstr_nonzero _ _ _ Hn).
    unfold starts_with. cbn [length].
    destruct (Z.eqb_spec (lex_diff (take (S (length needle)) (a :: l)) (c :: needle)) 0) as [E|E].
    + apply lex_diff_zero in E; [|by apply Forall_take|done].
      rewrite bool_decide_true by done. cbn in E. injection E as -> _.
      rewrite Z.eqb_refl. cbn. f_equal. lia.
    + rewrite bool_decide_false by (rewrite <- lex_diff_zero; [done|by apply Forall_take|done]).
      rewrite andb_false_r. rewrite IH by (done || lia).
      destruct (first_match _ l); cbn; f_equal; lia.
Qed.

(** Offsets of the first and of the last occurrence of a character. *)
Fixpoint first_idx (c : Z) (l : list Z) : option Z :=
  match l with
  | [] => None
  | a :: l' => if a =? c then Some 0 else option_map (Z.add 1) (first_idx c l')
  end.
Fixpoint last_idx (c : Z) (l : list Z) : option Z :=
  match l with
  | [] => None
  | a :: l' =>
      match last_idx c l' with
      | Some i => Some (1 + i)
      | None => if a =? c then Some 0 else None
      end
  end.

Lemma strchr_cstr m p l c fuel :
  cstr m p l -> (length l < fuel)%nat ->
  strchr fuel m p c = Some (if u8 c =? 0 then p + zlen l else
    match first_idx (u8 c) l with Some i => p + i | None => NULL end).
Proof.
  unfold zlen. revert p fuel. induction l as [|a l IH]; intros p [|fuel] Hs Hf;
    cbn [length] in Hf; try lia; cbn [cstr strchr first_idx length] in *.
  - rewrite Hs. cbn [Z.eqb]. by rewrite Z.add_0_r.
  - destruct Hs as (-> & Ha & Hs). destruct (Z.eqb_spec a 0); [done|].
    destruct (Z.eqb_spec a (u8 c)) as [->|].
    + destruct (Z.eqb_spec (u8 c) 0); [done|]. f_equal. lia.
    + rewrite (IH (p + 1)) by (done || lia). f_equal.
      destruct (u8 c =? 0); [lia|]. destruct (first_idx _ l); cbn; lia.
Qed.

Lemma strrchr_loop_cstr m p l c last fuel :
  cstr m p l -> (length l < fuel)%nat ->
  strrchr_loop fuel m p c last = Some (if c =? 0 then p + zlen l else
    match last_idx c l with Some i => p + i | None => last end).
Proof.
  unfold zlen. revert p last fuel. induction l as [|a l IH]; intros p last [|fuel] Hs Hf;
    cbn [length] in Hf; try lia; cbn [cstr strrchr_loop last_idx length] in *.
  - rewrite Hs. cbn [Z.eqb]. by rewrite Z.add_0_r.
  - destruct Hs as (-> & Ha & Hs). destruct (Z.eqb_spec a 0); [done|].
    rewrite (IH (p + 1)) by (done || lia). f_equal.
    destruct (c =? 0); [lia|]. destruct (last_idx c l); [lia|].
    destruct (a =? c); lia.
Qed.

Lemma strnlen_cstr m p l n : cstr m p l -> strnlen n m p = Z.min (Z.of_nat n) (zlen l).
Proof.
  unfold zlen. revert p l. induction n as [|n IH]; intros p l Hs; cbn [strnlen]; [lia|].
  destruct l as [|a l]; cbn [cstr length] in *; [by rewrite Hs|].
  destruct Hs as (-> & Ha & Hs). destruct (Z.eqb_spec a 0); [done|]. rewrite (IH _ l Hs). lia.
Qed.

Lemma cstr_app m p l1 l2 :
  (forall i, 0 <= i < zlen l1 -> m (p + i) = l1.[i]) -> Forall (fun c => c <> 0) l1 ->
  cstr m (p + zlen l1) l2 -> cstr m p (l1 ++ l2).
Proof.
  unfold zlen. intros Hi Hnz. revert p Hi. induction Hnz as [|c l Hc Hnz IH]; intros p Hi H2;
    cbn [app cstr length] in *; [by rewrite Z.add_0_r in H2|].
  split; [|split; [done|]].
  - specialize (Hi 0 ltac:(lia)). by rewrite Z.add_0_r in Hi.
  - apply IH.
    + intros i Hr. specialize (Hi (i + 1) ltac:(lia)).
      replace (p + 1 + i) with (p + (i + 1)) by lia. rewrite Hi. unfold aget.
      by replace (Z.to_nat (i + 1)) with (S (Z.to_nat i)) by lia.
    + by replace (p + 1 + Z.of_nat (length l)) with (p + Z.of_nat (S (length l))) by lia.
Qed.

Lemma cstr_read m p l i : cstr m p l -> 0 <= i < zlen l -> m (p + i) = l.[i].
Proof.
  unfold zlen. revert p i. induction l as [|a l IH]; intros p i; cbn [cstr length]; [lia|].
  intros (<- & _ & Hs) Hi. destruct (decide (i = 0)) as [->|]; [by rewrite Z.add_0_r|].
  replace (p + i) with (p + 1 + (i - 1)) by lia. rewrite IH by (done || lia). unfold aget.
  by replace (Z.to_nat i) with (S (Z.to_nat (i - 1))) by lia.
Qed.

Lemma strcat_cstr m d s l1 l2 fuel :
  cstr m d l1 -> cstr m s l2 -> (length l1 < fuel)%nat -> (length l2 < fuel)%nat ->
  d + zlen l1 <= s \/ s + zlen l2 < d + zlen l1 ->
  exists m', strcat fuel m d s = Some m' /\ cstr m' d (l1 ++ l2).
Proof.
  intros H1 H2 Hf1 Hf2 Hds. unfold strcat. rewrite (strlen_cstr m d l1) by done.
  destruct (strcpy_cstr m (d + zlen l1) s l2 fuel H2 Hf2 Hds) as (m' & -> & Hm').
  exists m'. split; [done|]. assert (0 <= zlen l2) by (unfold zlen; lia).
  apply cstr_app; [|by eapply cstr_nonzero|].
  - intros i Hi. rewrite Hm'. unfold copied. mem_cases. by apply cstr_read.
  - eapply cstr_moved; [exact H2|]. intros i Hi. rewrite Hm'. unfold copied. mem_cases.
    f_equal. lia.
Qed.

(** * Lemmas: numbers *)

(** The digits of [u], least significant first, and the value of a digit string. *)
Fixpoint le_digits (fuel : nat) (u base : Z) : list Z :=
  match fuel with
  | O => []
  | S f => u mod base :: (if u / base =? 0 then [] else le_digits f (u / base) base)
  end.
Definition value_of (base acc : Z) (ds : list Z) : Z := foldl (fun a d => a * base + d) acc ds.

Lemma cstr_intro m p l :
  (forall i, 0 <= i < zlen l -> m (p + i) = l.[i]) -> Forall (fun c => c <> 0) l ->
  m (p + zlen l) = 0 -> cstr m p l.
Proof.
  unfold zlen. intros Hi Hnz. revert p Hi.
  induction Hnz as [|c l Hc Hnz IH]; intros p Hi H0; cbn [cstr length] in *.
  - by rewrite Z.add_0_r in H0.
  - split; [|split; [done|]].
    + specialize (Hi 0 ltac:(lia)). by rewrite Z.add_0_r in Hi.
    + apply IH.
      * intros i Hr. specialize (Hi (i + 1) ltac:(lia)).
        replace (p + 1 + i) with (p + (i + 1)) by lia. rewrite Hi. unfold aget.
        by replace (Z.to_nat (i + 1)) with (S (Z.to_nat i)) by lia.
      * replace (p + 1 + Z.of_nat (length l)) with (p + Z.of_nat (S (length l))) by lia. done.
Qed.

Lemma aget_cons {A} `{!Inhabited A} (x : A) l i :
  0 <= i -> (x :: l).[i] = if i =? 0 then x else l.[i - 1].
Proof.
  intros Hi. unfold aget. destruct (Z.eqb_spec i 0) as [->|]; [done|].
  by replace (Z.to_nat i) with (S (Z.to_nat (i - 1))) by lia.
Qed.

Lemma le_digits_range fuel u base :
  2 <= base -> Forall (fun d => 0 <= d < base) (le_digits fuel u base).
Proof.
  intros Hb. revert u. induction fuel as [|fuel IH]; intros u; cbn [le_digits]; [done|].
  constructor; [apply Z.mod_pos_bound; lia|]. destruct (_ =? 0); [done|apply IH].
Qed.

Lemma le_digits_value fuel u base :
  2 <= base -> 0 <= u < base ^ Z.of_nat fuel ->
  foldr (fun d a => a * base + d) 0 (le_digits fuel u base) = u.
Proof.
  intros Hb. revert u. induction fuel as [|fuel IH]; intros u Hu; cbn [le_digits foldr].
  { change (base ^ Z.of_nat 0) with 1 in Hu. lia. }
  pose proof (Z.div_mod u base ltac:(lia)) as Hdm.
  destruct (Z.eqb_spec (u / base) 0) as [E|E]; cbn [foldr]; [lia|].
  rewrite IH; [lia|]. split; [apply Z.div_pos; lia|].
  apply Z.div_lt_upper_bound; [lia|].
  rewrite Nat2Z.inj_succ, Z.pow_succ_r in Hu by lia. lia.
Qed.

Lemma value_of_rev_digits fuel u base :
  2 <= base -> 0 <= u < base ^ Z.of_nat fuel ->
  value_of base 0 (rev (le_digits fuel u base)) = u.
Proof.
  intros Hb Hu. unfold value_of.
  rewrite <- (le_digits_value fuel u base) at 2 by done.
  generalize (le_digits fuel u base) as l. intros l. induction l as [|d l IH]; [done|].
  cbn [rev foldr]. rewrite foldl_app. cbn [foldl]. by rewrite IH.
Qed.

Lemma value_of_ge base acc ds :
  2 <= base -> 0 <= acc -> Forall (fun d => 0 <= d) ds -> acc <= value_of base acc ds.
Proof.
  intros Hb Ha Hd. revert acc Ha. induction Hd as [|d l Hd0 Hd IH]; intros acc Ha; cbn; [lia|].
  etransitivity; [|apply IH; nia]. nia.
Qed.

Lemma digit_of_char d : 0 <= d < 36 -> digit_of (digit_char d) = Some d.
Proof.
  intros Hd. unfold digit_char, digit_of.
  destruct (Z.ltb_spec d 10);
    repeat match goal with |- context [?a <=? ?b] => destruct (Z.leb_spec a b) end;
    cbn [andb]; try lia; f_equal; lia.
Qed.

Lemma digit_char_range d : 0 <= d < 36 -> 48 <= digit_char d <= 122.
Proof. intros Hd. unfold digit_char. destruct (Z.ltb_spec d 10); lia. Qed.

Lemma strtoul_digits_run m base ds p acc fuel :
  2 <= base <= 36 -> Forall (fun d => 0 <= d < base) ds -> 0 <= acc ->
  value_of base acc ds < 2 ^ 64 -> cstr m p (map digit_char ds) -> (length ds < fuel)%nat ->
  strtoul_digits fuel m p base acc = Some (value_of base acc ds, p + zlen ds).
Proof.
  unfold zlen. intros Hb Hd. revert p acc fuel.
  induction Hd as [|d ds Hd0 Hd IH]; intros p acc [|fuel] Hacc Hv Hs Hf; cbn [length] in Hf;
    try lia; cbn [strtoul_digits map cstr] in *.
  - rewrite Hs. cbn. by rewrite Z.add_0_r.
  - destruct Hs as (-> & _ & Hs). rewrite digit_of_char by lia.
    destruct (Z.leb_spec base d); [lia|].
    change (value_of base acc (d :: ds)) with (value_of base (acc * base + d) ds) in *.
    assert (0 <= acc * base + d) by nia.
    assert (acc * base + d <= value_of base (acc * base + d) ds).
    { apply value_of_ge; [lia|done|]. eapply Forall_impl; [done|]. cbn. lia. }
    rewrite u64_id by lia. rewrite IH by (done || lia). cbn [length]. do 2 f_equal. lia.
Qed.

Lemma parse_digits_run wrap m ds p acc fuel :
  Forall (fun d => 0 <= d < 10) ds -> 0 <= acc ->
  (forall x, 0 <= x <= value_of 10 acc ds -> wrap x = x) ->
  cstr m p (map digit_char ds) -> (length ds < fuel)%nat ->
  parse_digits wrap fuel m p acc = Some (value_of 10 acc ds).
Proof.
  intros Hd. revert p acc fuel.
  induction Hd as [|d ds Hd0 Hd IH]; intros p acc [|fuel] Hacc Hw Hs Hf; cbn [length] in Hf;
    try lia; cbn [parse_digits map cstr] in *.
  - by rewrite Hs.
  - destruct Hs as (-> & _ & Hs). unfold is_digit.
    assert (digit_char d = 48 + d) as ->.
    { unfold digit_char. by destruct (Z.ltb_spec d 10); [|lia]. }
    destruct (Z.leb_spec 48 (48 + d)), (Z.leb_spec (48 + d) 57); try lia. cbn [andb].
    change (value_of 10 acc (d :: ds)) with (value_of 10 (acc * 10 + d) ds) in *.
    assert (acc * 10 + d <= value_of 10 (acc * 10 + d) ds).
    { apply value_of_ge; [lia|lia|]. eapply Forall_impl; [done|]. cbn. lia. }
    replace (acc * 10 + (48 + d - 48)) with (acc * 10 + d) by lia.
    rewrite Hw by lia. apply IH; done || lia.
Qed.

Lemma itoa_digits_read fuel m p u base :
  2 <= base <= 36 -> 0 <= u < base ^ Z.of_nat fuel -> (0 < fuel)%nat ->
  let ds := le_digits fuel u base in
  exists m', itoa_digits fuel m p u base = Some (m', p + zlen ds) /\
    forall x, m' x = if in_range p (zlen ds) x then digit_char ds.[x - p] else m x.
Proof.
  unfold zlen. intros Hb. revert m p u. induction fuel as [|fuel IH]; intros m p u Hu Hf; [lia|].
  cbn [itoa_digits le_digits]. rewrite Nat2Z.inj_succ, Z.pow_succ_r in Hu by lia.
  destruct (Z.eqb_spec (u / base) 0) as [E|E]; cbn [length].
  - eexists. split; [done|]. intros x. rewrite mem_upd.
    mem_cases. subst. by rewrite Z.sub_diag.
  - assert (0 <= u / base < base ^ Z.of_nat fuel) as Hu'.
    { split; [apply Z.div_pos; lia|]. apply Z.div_lt_upper_bound; lia. }
    destruct (IH (<[p := digit_char (u mod base)]> m) (p + 1) (u / base)) as (m' & -> & Hm').
    { done. } { destruct fuel; [|lia]. change (base ^ Z.of_nat 0) with 1 in Hu'. lia. }
    exists m'. split; [do 2 f_equal; lia|]. intros x. rewrite Hm', mem_upd.
    mem_cases; try done.
    + rewrite aget_cons by lia. destruct (Z.eqb_spec (x - p) 0); [lia|]. do 2 f_equal. lia.
    + subst. by rewrite Z.sub_diag.
Qed.

Lemma itoa_reverse_read fuel m low ptr x :
  ptr - low <= 2 * Z.of_nat fuel ->
  itoa_reverse fuel m low ptr x = if in_range low (ptr + 1 - low) x then m (low + ptr - x) else m x.
Proof.
  revert m low ptr. induction fuel as [|fuel IH]; intros m low ptr Hf; cbn [itoa_reverse].
  { mem_cases. f_equal. lia. }
  destruct (Z.ltb_spec low ptr); cycle 1.
  { mem_cases. f_equal. lia. }
  rewrite IH by lia. rewrite !mem_upd. mem_cases; subst; f_equal; lia.
Qed.

Lemma aget_rev {A} `{!Inhabited A} (l : list A) i :
  0 <= i < zlen l -> (rev l).[i] = l.[zlen l - 1 - i].
Proof.
  unfold zlen, aget. intros Hi. rewrite !list_lookup_total_alt. f_equal.
  rewrite rev_alt. change (rev_append l []) with (reverse l).
  rewrite reverse_lookup by lia. f_equal. lia.
Qed.

Lemma length_le_digits fuel u base : (length (le_digits fuel u base) <= fuel)%nat.
Proof.
  revert u. induction fuel as [|fuel IH]; intros u; cbn [le_digits]; [done|].
  destruct (_ =? 0); cbn [length]; [lia|]. specialize (IH (u / base)). lia.
Qed.

Lemma itoa_tail m low u base :
  2 <= base <= 36 -> 0 <= u < 2 ^ 32 ->
  let ds := rev (le_digits 33 u base) in
  exists m' ptr, itoa_digits 33 m low u base = Some (m', ptr) /\ (length ds <= 33)%nat /\
    cstr (itoa_reverse 33 (<[ptr := 0]> m') low (ptr - 1)) low (map digit_char ds) /\
    forall x, x < low -> itoa_reverse 33 (<[ptr := 0]> m') low (ptr - 1) x = m x.
Proof.
  intros Hb Hu ds.
  assert (Hu' : 0 <= u < base ^ Z.of_nat 33).
  { split; [lia|]. eapply Z.lt_le_trans; [apply Hu|].
    transitivity (2 ^ 33); [lia|]. apply Z.pow_le_mono_l. lia. }
  destruct (itoa_digits_read 33 m low u base Hb Hu' ltac:(lia)) as (m' & E & Hm').
  exists m', (low + zlen (le_digits 33 u base)). split; [done|].
  assert (Hlen : (length ds <= 33)%nat).
  { unfold ds. rewrite length_rev. apply length_le_digits. }
  split; [done|].
  assert (Hzl : zlen ds = zlen (le_digits 33 u base)) by (unfold zlen, ds; by rewrite length_rev).
  assert (0 <= zlen ds <= 33) by (unfold zlen; lia).
  assert (Hrd : Forall (fun d => 0 <= d < base) ds).
  { unfold ds. apply List.Forall_rev, le_digits_range. lia. }
  rewrite <- Hzl in *. set (n := zlen ds) in *.
  assert (Hread : forall x, itoa_reverse 33 (<[low + n := 0]> m') low (low + n - 1) x =
    if in_range low n x then digit_char ds.[x - low] else if x =? low + n then 0 else m x).
  { intros x. rewrite itoa_reverse_read by lia. rewrite !mem_upd, !Hm'. mem_cases; try done.
    f_equal. unfold ds. rewrite aget_rev by lia. f_equal. lia. }
  split.
  - apply cstr_intro.
    + intros i. unfold zlen. rewrite length_map. fold (zlen ds). fold n. intros Hi.
      rewrite Hread. mem_cases. replace (low + i - low) with i by lia.
      unfold aget. rewrite !list_lookup_total_alt, list_lookup_fmap.
      destruct (ds !! Z.to_nat i) eqn:El; [done|]. apply lookup_ge_None_1 in El.
      unfold n, zlen in Hi. lia.
    + apply Forall_map. eapply Forall_impl; [exact Hrd|]. cbn. intros d Hd.
      pose proof (digit_char_range d ltac:(lia)). lia.
    + unfold zlen. rewrite length_map. fold (zlen ds). fold n. rewrite Hread. by mem_cases.
  - intros x Hx. rewrite Hread. by mem_cases.
Qed.

Lemma skip_blank_stop m p fuel : (0 < fuel)%nat -> is_blank (m p) = false ->
  skip_blank fuel m p = Some p.
Proof. intros Hf Hb. destruct fuel; [lia|]. cbn. by rewrite Hb. Qed.

Lemma cstr_first m p l : cstr m p l -> m p = match l with [] => 0 | c :: _ => c end.
Proof. destruct l; cbn [cstr]; [done|]. by intros [-> _]. Qed.

Lemma digits_first m p ds base :
  2 <= base <= 36 -> Forall (fun d => 0 <= d < base) ds -> cstr m p (map digit_char ds) ->
  is_blank (m p) = false /\ m p <> 45 /\ m p <> 43.
Proof.
  intros Hb Hd Hc%cstr_first. rewrite Hc. destruct Hd as [|d ds Hd Hds]; cbn [map].
  { by split. }
  pose proof (digit_char_range d ltac:(lia)). unfold is_blank.
  destruct (Z.eqb_spec (digit_char d) 32), (Z.eqb_spec (digit_char d) 9); split; try lia; done.
Qed.

(** * Properties *)

(** C36 The word-at-a-time loops of [memset] and [memcpy] and the two directions of
    [memmove] compute exactly the fill and copy they stand for: [memmove] for
    every overlap, [memcpy] when the destination starts at or below the source
    or past its end; all other bytes keep their values.  [memcmp] is zero
    exactly on equal ranges. *)
Theorem memory_routines_correct (m : mem) (a b c n : Z) (Hm : bytes_ok m) (Hn : 0 <= n) :
  (forall x, memset m a c n x = filled m a (u8 c) n x) /\
  (a <= b \/ b + n <= a -> forall x, memcpy m a b n x = copied m a b n x) /\
  (forall x, memmove m a b n x = copied m a b n x) /\
  (memcmp m a b n = 0 <-> forall i, 0 <= i < n -> m (a + i) = m (b + i)).
Proof.
  split; [|split; [|split]].
  - intros x. by apply memset_read.
  - by apply memcpy_read.
  - intros x. unfold memmove. destruct (Z.ltb_spec a b); [|destruct (Z.ltb_spec b a)].
    + rewrite copy_fwd_read by lia. by rewrite Z2Nat.id.
    + replace (a + n) with (a + Z.of_nat (Z.to_nat n)) by lia.
      replace (b + n) with (b + Z.of_nat (Z.to_nat n)) by lia.
      rewrite copy_bwd_read by lia. by rewrite Z2Nat.id.
    + assert (a = b) as -> by lia. unfold copied. mem_cases; f_equal; lia.
  - unfold memcmp. rewrite memcmp_loop_zero. by rewrite Z2Nat.id.
Qed.

(** The string routines on NUL-terminated strings, given enough fuel: [strlen]
    counts the characters, [strcmp] and [strncmp] compute the first difference
    (of the whole strings, of their first [n] characters), [strcmp] is zero
    exactly on equal strings, [strstr] finds the first occurrence or returns
    [NULL], [strcpy] copies the string with its NUL and nothing else, [strcat]
    leaves the concatenation, [strchr] and [strrchr] find the first and the last
    occurrence of a character, and [strnlen] is the length capped at [n]. *)
Theorem string_routines_correct (m : mem) (p1 p2 : Z) (l1 l2 : list Z) (n fuel : nat)
    (H1 : cstr m p1 l1) (H2 : cstr m p2 l2)
    (Hf : (length l1 < fuel)%nat /\ (length l2 < fuel)%nat) :
  strlen fuel m p1 = Some (zlen l1) /\
  strcmp fuel m p1 p2 = Some (lex_diff l1 l2) /\
  (strcmp fuel m p1 p2 = Some 0 <-> l1 = l2) /\
  strncmp n m p1 p2 = lex_diff (take n l1) (take n l2) /\
  strstr fuel m p1 p2 = Some (match l2 with
     | [] => p1
     | _ => match first_match l2 l1 with Some i => p1 + i | None => NULL end end) /\
  (forall d, d <= p1 \/ p1 + zlen l1 < d ->
     exists m', strcpy fuel m d p1 = Some m' /\ cstr m' d l1 /\
       forall x, ~ d <= x <= d + zlen l1 -> m' x = m x) /\
  (p1 + zlen l1 <= p2 \/ p2 + zlen l2 < p1 + zlen l1 ->
     exists m', strcat fuel m p1 p2 = Some m' /\ cstr m' p1 (l1 ++ l2)) /\
  (forall c, u8 c <> 0 ->
     strchr fuel m p1 c =
       Some (match first_idx (u8 c) l1 with Some i => p1 + i | None => NULL end) /\
     strrchr fuel m p1 c =
       Some (match last_idx (u8 c) l1 with Some i => p1 + i | None => NULL end)) /\
  strnlen n m p1 = Z.min (Z.of_nat n) (zlen l1).
Proof.
  destruct Hf as [Hf1 Hf2].
  pose proof (strcmp_cstr m p1 p2 l1 l2 fuel H1 H2 Hf1) as Hcmp.
  split; [by apply strlen_cstr|]. split; [done|]. split; [|split; [|split; [|split; [|split; [|split]]]]].
  - rewrite Hcmp, <- lex_diff_zero by (by eapply cstr_nonzero). split; congruence.
  - by apply strncmp_cstr.
  - unfold strstr. rewrite (cstr_first _ _ _ H2). destruct l2 as [|c l2]; [done|].
    pose proof H2 as (_ & Hc & _). destruct (Z.eqb_spec c 0); [done|].
    rewrite (strlen_cstr m p2 (c :: l2)) by done. unfold zlen. rewrite Nat2Z.id. cbn [length].
    by apply strstr_loop_cstr.
  - intros d Hd. destruct (strcpy_cstr m d p1 l1 fuel H1 Hf1 Hd) as (m' & E & Hm').
    exists m'. split; [done|]. split.
    + eapply cstr_moved; [exact H1|]. intros i Hi. rewrite Hm'. unfold copied. mem_cases.
      f_equal. lia.
    + intros x Hx. rewrite Hm'. unfold copied. by mem_cases.
  - intros Hp. by apply strcat_cstr.
  - intros c Hc. unfold strrchr.
    rewrite (strchr_cstr m p1 l1), (strrchr_loop_cstr m p1 l1) by done.
    by destruct (Z.eqb_spec (u8 c) 0).
  - by apply strnlen_cstr.
Qed.

(** Bug: when the string is shorter than [n], [strncpy] writes [n + 1] bytes: the
    NUL it stores while copying is not counted, so the padding loop clears the
    byte at [dest + n], one past the buffer.  When the string has at least [n]
    characters exactly [n] bytes are written and no NUL is added. *)
Theorem strncpy_overruns_by_one (m : mem) (d s : Z) (l : list Z) (n : nat)
    (Hs : cstr m s l) (Hds : d + Z.of_nat n < s \/ s + zlen l < d) :
  (forall x, strncpy n m d s x = strncpyed m d s l (Z.of_nat n) x) /\
  (zlen l < Z.of_nat n -> strncpy n m d s (d + Z.of_nat n) = 0) /\
  (Z.of_nat n <= zlen l -> forall x, ~ d <= x < d + Z.of_nat n -> strncpy n m d s x = m x).
Proof.
  pose proof (strncpy_cstr m d s l n Hs Hds) as Hr. split; [done|].
  assert (0 <= zlen l) by (unfold zlen; lia).
  split.
  - intros Hlt. rewrite Hr. unfold strncpyed.
    destruct (Z.ltb_spec (zlen l) (Z.of_nat n)); [|lia]. cbn [andb]. by mem_cases.
  - intros Hge x Hx. rewrite Hr. unfold strncpyed.
    destruct (Z.ltb_spec (zlen l) (Z.of_nat n)); [lia|]. cbn [andb]. by mem_cases.
Qed.

(** C39 Round trip: the text [itoa] writes for [v >= 0] in any base 2..36 is read
    back by [strtoul] as [v], with the end pointer at its NUL, and the decimal
    text of any [int] other than [INT_MIN] is read back by [atoi] and by [atol]. *)
Theorem itoa_round_trip (m : mem) (str : Z) (fuel : nat) (Hf : (34 < fuel)%nat) :
  (forall v base, 0 <= v < 2 ^ 31 -> 2 <= base <= 36 ->
     exists m' len, itoa m v str base = Some m' /\ m' (str + len) = 0 /\
       strtoul fuel m' str base = Some (v, str + len)) /\
  (forall v, - 2 ^ 31 < v < 2 ^ 31 ->
     exists m', itoa m v str 10 = Some m' /\ atoi fuel m' str = Some v /\
       atol fuel m' str = Some v).
Proof.
  split.
  - intros v base Hv Hb. unfold itoa.
    destruct (Z.ltb_spec base 2), (Z.ltb_spec 36 base); try lia. cbn [orb].
    destruct (Z.ltb_spec v 0); [lia|]. cbn [andb]. rewrite u32_id by lia.
    destruct (itoa_tail m str v base Hb ltac:(lia)) as (m' & ptr & -> & Hl & Hc & _).
    set (ds := rev _) in *. eexists _, (zlen ds). split; [done|].
    assert (Hds : Forall (fun d => 0 <= d < base) ds).
    { unfold ds. apply List.Forall_rev, le_digits_range. lia. }
    assert (Hval : value_of base 0 ds = v).
    { apply value_of_rev_digits; [lia|]. split; [lia|].
      apply Z.lt_le_trans with (2 ^ 33); [lia|]. apply Z.pow_le_mono_l. lia. }
    set (m2 := itoa_reverse _ _ _ _) in *. split.
    + clear - Hc. unfold zlen. rewrite <- (length_map digit_char ds).
      revert Hc. generalize (map digit_char ds) str. intros l. clear.
      induction l as [|c l IH]; intros p; cbn [cstr length].
      * by rewrite Z.add_0_r.
      * intros (_ & _ & Hc). replace (p + Z.of_nat (S (length l))) with (p + 1 + Z.of_nat (length l)) by lia.
        by apply IH.
    + unfold strtoul. destruct (digits_first m2 str ds base Hb Hds Hc) as (Hbl & _).
      rewrite skip_blank_stop by (done || lia).
      rewrite (strtoul_digits_run m2 base ds) by (done || lia). by rewrite Hval.
  - intros v Hv. unfold itoa. cbn [Z.ltb Z.compare orb]. change (10 =? 10) with true.
    change ((10 <? 2) || (36 <? 10)) with false. cbn [andb].
    rewrite andb_true_r.
    set (u := u32 (if v <? 0 then - v else v)).
    assert (Hu : u = Z.abs v).
    { unfold u. destruct (Z.ltb_spec v 0); rewrite u32_id by lia; lia. }
    set (low := if v <? 0 then str + 1 else str).
    set (m0 := if v <? 0 then <[str := 45]> m else m).
    destruct (itoa_tail m0 low u 10 ltac:(lia) ltac:(lia)) as (m' & ptr & -> & Hl & Hc & Hx).
    set (ds := rev _) in *. eexists. split; [done|].
    enough (Hw : forall wrap, (forall x, - 2 ^ 31 <= x < 2 ^ 31 -> wrap x = x) ->
      parse_signed wrap fuel (itoa_reverse 33 (<[ptr := 0]> m') low (ptr - 1)) str = Some v).
    { split; apply Hw; intros; [by apply s32_id|apply s64_id; lia]. }
    intros wrap Hwrap. unfold parse_signed.
    set (m2 := itoa_reverse _ _ _ _) in *.
    assert (Hds : Forall (fun d => 0 <= d < 10) ds).
    { unfold ds. apply List.Forall_rev, le_digits_range. lia. }
    assert (Hval : value_of 10 0 ds = Z.abs v).
    { rewrite <- Hu. apply value_of_rev_digits; [lia|]. split; [lia|].
      apply Z.lt_le_trans with (2 ^ 33); [lia|]. apply Z.pow_le_mono_l. lia. }
    destruct (digits_first m2 low ds 10 ltac:(lia) Hds Hc) as (Hbl & H45 & H43).
    assert (Hparse : parse_digits wrap fuel m2 low 0 = Some (Z.abs v)).
    { rewrite <- Hval. apply parse_digits_run; [done|lia| |done|lia].
      intros x Hxr. apply Hwrap. lia. }
    unfold low, m0 in *. destruct (Z.ltb_spec v 0).
    + assert (Hm : m2 str = 45) by (rewrite Hx by lia; apply fn_lookup_insert).
      rewrite skip_blank_stop by (try lia; unfold is_blank; by rewrite Hm).
      rewrite Hm, Z.eqb_refl, Hparse. cbn. f_equal. rewrite Hwrap; lia.
    + rewrite skip_blank_stop by (done || lia).
      destruct (Z.eqb_spec (m2 str) 45); [done|]. destruct (Z.eqb_spec (m2 str) 43); [done|].
      rewrite Hparse. cbn. f_equal. rewrite Hwrap; lia.
Qed.

(** The two definitions of [strtoul] agree for every base other than 0 and 16;
    for base 0, which the weak one documents as "determine base", the linked
    one consumes no digit at all and returns 0; for base 16 the linked one
    stops at the [x] of a [0x] prefix. *)
Theorem strtoul_versions (m : mem) (str : Z) (fuel : nat) :
  (forall base, base <> 0 -> base <> 16 -> strtoul fuel m str base = strtoul_weak fuel m str base) /\
  (forall v e, strtoul fuel m str 0 = Some (v, e) -> v = 0 /\ skip_blank fuel m str = Some e) /\
  (m str = 48 -> m (str + 1) = 120 -> (2 < fuel)%nat ->
     strtoul fuel m str 16 = Some (0, str + 1)) /\
  (exists m', strtoul 20 m' 0 0 = Some (0, 0) /\ strtoul_weak 20 m' 0 0 = Some (31, 4) /\
     strtoul 20 m' 0 16 = Some (0, 1) /\ strtoul_weak 20 m' 0 16 = Some (31, 4)).
Proof.
  split; [|split; [|split]].
  - intros base H0 H16. unfold strtoul, strtoul_weak. destruct (skip_blank fuel m str); [|done].
    destruct (Z.eqb_spec base 0); [done|]. by destruct (Z.eqb_spec base 16).
  - intros v e. unfold strtoul. destruct (skip_blank fuel m str) as [p|]; [|done].
    destruct fuel as [|fuel]; [done|]. cbn [strtoul_digits].
    destruct (digit_of (m p)) as [d|] eqn:Ed; [|by intros [= <- <-]].
    assert (0 <= d).
    { unfold digit_of in Ed. repeat case_match; naive_solver lia. }
    destruct (Z.leb_spec 0 d); [by intros [= <- <-]|lia].
  - intros H0 H1 Hf. unfold strtoul. rewrite skip_blank_stop by (try lia; unfold is_blank; by rewrite H0).
    destruct fuel as [|[|fuel]]; try lia. cbn [strtoul_digits]. by rewrite H0, H1.
  - exists (fun a => if a =? 0 then 48 else if a =? 1 then 120 else if a =? 2 then 49
      else if a =? 3 then 102 else 0). repeat split; vm_compute; reflexivity.
Qed.

(** * Witnesses *)

(** A memory holding [bytes] from address 0, zero elsewhere. *)
Definition demo_mem (bytes : list Z) : mem := fun a => if a <? 0 then 0 else nth (Z.to_nat a) bytes 0.

Lemma memory_routines_correct_witness :
  bytes_ok (fun a => a mod 256) /\ 0 <= 20 /\
  memmove (fun a => a mod 256) 104 100 20 110 = 106 /\
  memcpy (fun a => a mod 256) 104 160 20 123 = 179 /\
  (forall x, memmove (fun a => a mod 256) 104 100 20 x = copied (fun a => a mod 256) 104 100 20 x).
Proof.
  assert (Hm : bytes_ok (fun a => a mod 256)) by (intros a; apply Z.mod_pos_bound; lia).
  split; [exact Hm|]. split; [lia|]. split; [vm_compute; reflexivity|].
  split; [vm_compute; reflexivity|].
  destruct (memory_routines_correct _ 104 100 7 20 Hm ltac:(lia)) as (_ & _ & H & _). exact H.
Defined.

Lemma string_routines_correct_witness :
  let m := demo_mem [97; 98; 0; 98; 0] in
  cstr m 0 [97; 98] /\ cstr m 3 [98] /\
  strcmp 5 m 0 3 = Some (-1) /\ strstr 5 m 0 3 = Some 1.
Proof.
  intros m. assert (H1 : cstr m 0 [97; 98]) by (vm_compute; intuition discriminate).
  assert (H2 : cstr m 3 [98]) by (vm_compute; intuition discriminate).
  destruct (string_routines_correct m 0 3 [97; 98] [98] 1 5 H1 H2 ltac:(cbn; lia))
    as (_ & Hc & _ & _ & Hs & _).
  split; [exact H1|]. split; [exact H2|]. split; [exact Hc|exact Hs].
Defined.

Lemma strncpy_overruns_by_one_witness :
  let m := demo_mem [65; 66; 0; 7; 7; 7; 7; 7; 7; 7; 7; 7; 7] in
  cstr m 0 [65; 66] /\ m 8 = 7 /\ strncpy 5 m 3 0 8 = 0.
Proof.
  intros m. assert (Hs : cstr m 0 [65; 66]) by (vm_compute; intuition discriminate).
  split; [exact Hs|]. split; [reflexivity|].
  apply (strncpy_overruns_by_one m 3 0 [65; 66] 5 Hs); vm_compute; tauto.
Defined.

Lemma itoa_round_trip_witness :
  (34 < 40)%nat /\
  exists m', itoa (demo_mem []) (-1234) 10 10 = Some m' /\ atoi 40 m' 10 = Some (-1234) /\
    atol 40 m' 10 = Some (-1234).
Proof.
  split; [lia|]. apply (itoa_round_trip (demo_mem []) 10 40 ltac:(lia)). lia.
Defined.

Lemma strtoul_versions_witness :
  let m := demo_mem [48; 120; 49; 102] in
  m 0 = 48 /\ m 1 = 120 /\ strtoul 20 m 0 16 = Some (0, 1) /\
  strtoul 20 m 0 10 = strtoul_weak 20 m 0 10.
Proof.
  intros m. split; [reflexivity|]. split; [reflexivity|].
  destruct (strtoul_versions m 0 20) as (H1 & _ & H3 & _). split.
  - apply H3; [reflexivity|reflexivity|lia].
  - apply H1; lia.
Defined.
