(* ===== verification/Printk.v ===== *)
(** The kernel log and the formatted output of [src/printk.c].

    [vprintk] and [vsnprintf] contain the same formatter twice, over two sinks:
    a character appended to the log's ring buffer and handed to the console, and
    a character stored into a bounded buffer.  The formatter is written once, over
    any sink ([Section formatter]).  It reads the format and the strings from
    memory, where the sink may write.  The arguments are the 64-bit words that
    [va_arg] fetches; fetching one too many gives [None], as do a width that
    overflows [int] and a string loop without fuel. *)
From Stdlib Require Import Ascii String.
From S2P Require Import Prelude Pmm CString.
Open Scope Z_scope.

(** The characters of a literal, and the memory that holds just this literal. *)
Definition chars (s : string) : list Z :=
  map (fun a => Z.of_N (N_of_ascii a)) (list_ascii_of_string s).
Definition literal (l : list Z) : mem :=
  fun a => if in_range 0 (zlen l) a then l.[a] else 0.

Definition LOG_BUF_SIZE : Z := 16384.
Definition LOG_BUF_MASK : Z := LOG_BUF_SIZE - 1.
Definition LOGLEVEL_EMERG : Z := 0.
Definition LOGLEVEL_INFO : Z := 6.
Definition LOGLEVEL_DEBUG : Z := 7.

(** * The formatter *)

(** ["0123456789ABCDEF"[d]] or ["0123456789abcdef"[d]] *)
Definition hex_digit (upper : bool) (d : Z) : Z :=
  if d <? 10 then 48 + d else (if upper then 55 else 87) + d.

(** [while (num > 0) { buf[i++] = digits[num % base]; num /= base; }] into
    [char buf[32]]; [None] when the buffer overflows. *)
Fixpoint uint_digits (room : nat) (upper : bool) (num base : Z) : option (list Z) :=
  if num <=? 0 then Some [] else
  match room with
  | O => None
  | S r => option_map (cons (hex_digit upper (num mod base))) (uint_digits r upper (num / base) base)
  end.

Definition va_arg (args : list Z) : option (Z * list Z) :=
  match args with [] => None | w :: args' => Some (w, args') end.

Section formatter.
Context {S : Type}.
(** The memory the formatter reads, the sink, and whether [%x] prints ["0x"]. *)
Context (rd : S -> mem) (putc : S -> Z -> S) (hex_prefix : bool).

(** [while ( *s) putc( *s++);] *)
Fixpoint fmt_puts (fuel : nat) (s : S) (p : Z) : option S :=
  match fuel with
  | O => None
  | Datatypes.S f => if rd s p =? 0 then Some s else fmt_puts f (putc s (rd s p)) (p + 1)
  end.

(** [for (int i = 0; i < n; i++) putc(pad);] *)
Fixpoint fmt_pad (n : nat) (s : S) (pad : Z) : S :=
  match n with
  | O => s
  | Datatypes.S n' => fmt_pad n' (putc s pad) pad
  end.

Definition fmt_uint (s : S) (num base width pad : Z) (upper : bool) : option S :=
  if num =? 0 then
    let s := if 1 <? width then fmt_pad (Z.to_nat (width - 1)) s pad else s in
    Some (putc s 48)
  else
    match uint_digits 32 upper num base with
    | None => None
    | Some buf =>
        let digits_count := zlen buf in
        let s := if digits_count <? width then fmt_pad (Z.to_nat (width - digits_count)) s pad else s in
        Some (foldl putc s (rev buf))
    end.

Definition fmt_int (s : S) (num width pad : Z) : option S :=
  if num <? 0 then
    let s := putc s 45 in
    let width := if 0 <? width then width - 1 else width in
    fmt_uint s (u64 (- num)) 10 width pad false
  else fmt_uint s (u64 num) 10 width pad false.

Definition fmt_ptr (s : S) (p : Z) : option S :=
  fmt_uint (foldl putc s (chars "0x")) p 16 16 48 false.

(** [while ( *p >= '0' && *p <= '9') { width = width * 10 + ( *p - '0'); p++; }] *)
Fixpoint fmt_width (fuel : nat) (s : S) (p width : Z) : option (Z * Z) :=
  match fuel with
  | O => None
  | Datatypes.S f =>
      if is_digit (rd s p) then
        let width := width * 10 + (rd s p - 48) in
        if 2 ^ 31 <=? width then None else fmt_width f s (p + 1) width
      else Some (p, width)
  end.

(** The flags, the width and the length of a conversion: the address of its
    letter, the padding character, the width and [is_long]. *)
Definition fmt_flags (fuel : nat) (s : S) (p : Z) : option (Z * Z * Z * bool) :=
  let p := if rd s p =? 45 then p + 1 else p in
  let '(pad_char, p) := if rd s p =? 48 then (48, p + 1) else (32, p) in
  match fmt_width fuel s p 0 with
  | None => None
  | Some (p, width) =>
      let '(is_long, p) := if rd s p =? 108 then (true, p + 1) else (false, p) in
      Some (p, pad_char, width, is_long)
  end.

(** The [switch] over the letter [c]. *)
Definition fmt_conv (fuel : nat) (s : S) (c pad_char width : Z) (is_long : bool) (args : list Z) :
    option (S * list Z) :=
  let with_arg (k : Z -> option S) :=
    match va_arg args with
    | None => None
    | Some (w, args') => option_map (fun s' => (s', args')) (k w)
    end in
  let uval w := if is_long then u64 w else u32 w in
  if c =? 99 then (* c *) with_arg (fun w => Some (putc s (u8 w)))
  else if c =? 115 then (* s *)
    with_arg (fun w => if w =? NULL then Some (foldl putc s (chars "(null)")) else fmt_puts fuel s w)
  else if (c =? 100) || (c =? 105) then (* d i *)
    with_arg (fun w => fmt_int s (if is_long then s64 w else s32 w) width pad_char)
  else if c =? 117 then (* u *)
    with_arg (fun w => fmt_uint s (uval w) 10 width pad_char false)
  else if (c =? 120) || (c =? 88) then (* x X *)
    with_arg (fun w =>
      let s := if hex_prefix then foldl putc s (chars "0x") else s in
      fmt_uint s (uval w) 16 width pad_char (c =? 88))
  else if c =? 112 then (* p *) with_arg (fun w => fmt_ptr s (u64 w))
  else if c =? 37 then Some (putc s 37, args)
  else Some (putc (putc s 37) c, args).

(** [while ( *p) { ... p++; }] *)
Fixpoint fmt_loop (fuel : nat) (s : S) (p : Z) (args : list Z) : option S :=
  match fuel with
  | O => None
  | Datatypes.S f =>
      if rd s p =? 0 then Some s
      else if (rd s p =? 37) && negb (rd s (p + 1) =? 0) then
        match fmt_flags fuel s (p + 1) with
        | None => None
        | Some (p, pad_char, width, is_long) =>
            match fmt_conv fuel s (rd s p) pad_char width is_long args with
            | None => None
            | Some (s, args) => fmt_loop f s (p + 1) args
            end
        end
      else fmt_loop f (putc s (rd s p)) (p + 1) args
  end.
End formatter.

(** * The log *)

Record log := mk_log {
  log_buffer : list Z;
  log_head : Z;            (** write position *)
  log_tail : Z;            (** read position *)
  console_loglevel : Z;
  output_sink : Z;         (** the console's function, or [NULL] *)
  sink_out : list Z        (** the characters handed to the console so far *)
}.
#[export] Instance eta_log : Eta log := fun r =>
  mk_log (log_buffer r) (log_head r) (log_tail r) (console_loglevel r) (output_sink r) (sink_out r).

(** The static initialisers. *)
Definition log_boot : log := mk_log (replicate (Z.to_nat LOG_BUF_SIZE) 0) 0 0 LOGLEVEL_INFO NULL [].

Definition fmt_putc (k : log) (c : Z) : log :=
  let k := k <| log_buffer := (log_buffer k).[Z.land (log_head k) LOG_BUF_MASK <- c] |> in
  let k := k <| log_head := u64 (log_head k + 1) |> in
  let k :=
    if LOG_BUF_SIZE <? u64 (log_head k - log_tail k)
    then k <| log_tail := u64 (log_head k - LOG_BUF_SIZE) |> else k in
  if output_sink k =? NULL then k else k <| sink_out := sink_out k ++ [c] |>.

(** [fmt[2]] of the one-character format ["<"] lies behind the format. *)
Definition log_level (m : mem) (fmt : Z) : Z * Z :=
  if (m fmt =? 60) && (m (fmt + 2) =? 62) then (m (fmt + 1) - 48, fmt + 3)
  else (LOGLEVEL_INFO, fmt).

Definition vprintk (fuel : nat) (m : mem) (k : log) (fmt : Z) (args : list Z) : option log :=
  let '(level, p) := log_level m fmt in
  if console_loglevel k <? level then Some k
  else fmt_loop (fun _ => m) fmt_putc false fuel k p args.

Definition printk := vprintk.

Definition printk_init (fuel : nat) (k : log) (sink : Z) : option log :=
  let k := k <| output_sink := sink |> <| log_head := 0 |> <| log_tail := 0 |> in
  printk fuel (literal (chars "<6>Crimson OS Kernel Log initialized
")) k 0 [].

Definition printk_set_level (k : log) (level : Z) : log :=
  if (LOGLEVEL_EMERG <=? level) && (level <=? LOGLEVEL_DEBUG)
  then k <| console_loglevel := level |> else k.
Definition printk_get_level (k : log) : Z := console_loglevel k.

(** [for (size_t i = 0; i < to_copy; i++) buf[i] = log_buffer[(log_tail + i) & LOG_BUF_MASK];] *)
Fixpoint dmesg_copy (n : nat) (k : log) (m : mem) (buf i : Z) : mem :=
  match n with
  | O => m
  | S n' =>
      dmesg_copy n' k (<[buf + i := (log_buffer k).[Z.land (u64 (log_tail k + i)) LOG_BUF_MASK]]> m)
        buf (i + 1)
  end.

Definition dmesg (k : log) (m : mem) (buf size : Z) : mem * Z :=
  if (buf =? NULL) || (size =? 0) then (m, 0) else
  let available :=
    if log_tail k <=? log_head k then log_head k - log_tail k
    else u64 (LOG_BUF_SIZE - log_tail k + log_head k) in
  let to_copy := if available <? size - 1 then available else size - 1 in
  (<[buf + to_copy := 0]> (dmesg_copy (Z.to_nat to_copy) k m buf 0), to_copy).

Definition dmesg_clear (k : log) : log := k <| log_head := 0 |> <| log_tail := 0 |>.

(** [printk_hexdump]: its lines and columns; the formats are literals. *)
Definition print_lit (k : log) (fmt : string) (args : list Z) : option log :=
  printk 64 (literal (chars fmt)) k 0 args.

Fixpoint hexdump_hex (n : nat) (m : mem) (k : log) (addr len i j : Z) : option log :=
  match n with
  | O => Some k
  | S n' =>
      k ← (if i + j <? len then print_lit k "%02x " [m (addr + (i + j))] else print_lit k "   " []);
      k ← (if j =? 7 then print_lit k " " [] else Some k);
      hexdump_hex n' m k addr len i (j + 1)
  end.

Fixpoint hexdump_ascii (n : nat) (m : mem) (k : log) (addr len i j : Z) : option log :=
  match n with
  | O => Some k
  | S n' =>
      if negb (i + j <? len) then Some k else
      let c := m (addr + (i + j)) in
      k ← (if (32 <=? c) && (c <? 127) then print_lit k "%c" [c] else print_lit k "." []);
      hexdump_ascii n' m k addr len i (j + 1)
  end.

Fixpoint hexdump_rows (fuel : nat) (m : mem) (k : log) (addr len i : Z) : option log :=
  match fuel with
  | O => None
  | S f =>
      if negb (i <? len) then Some k else
      k ← print_lit k "%p  " [addr + i];
      k ← hexdump_hex 16 m k addr len i 0;
      k ← print_lit k " |" [];
      k ← hexdump_ascii 16 m k addr len i 0;
      k ← print_lit k "|
" [];
      hexdump_rows f m k addr len (i + 16)
  end.
Definition printk_hexdump (fuel : nat) (m : mem) (k : log) (addr len : Z) : option log :=
  hexdump_rows fuel m k addr len 0.

(** * Bounded formatting *)

Record fmt_buf_t := mk_fmt_buf { fb_mem : mem; fb_buf : Z; fb_size : Z; fb_pos : Z }.
#[export] Instance eta_fmt_buf : Eta fmt_buf_t := fun r =>
  mk_fmt_buf (fb_mem r) (fb_buf r) (fb_size r) (fb_pos r).

Definition snprintf_putc (fb : fmt_buf_t) (c : Z) : fmt_buf_t :=
  if fb_pos fb <? u64 (fb_size fb - 1) then
    let fb := fb <| fb_mem := <[fb_buf fb + fb_pos fb := c]> (fb_mem fb) |>
                 <| fb_pos := fb_pos fb + 1 |> in
    fb <| fb_mem := <[fb_buf fb + fb_pos fb := 0]> (fb_mem fb) |>
  else fb.

(** The same code as for the log, over this sink. *)
Definition snprintf_puts := fmt_puts fb_mem snprintf_putc.
Definition snprintf_uint := fmt_uint snprintf_putc.
Definition snprintf_int := fmt_int snprintf_putc.
Definition snprintf_ptr := fmt_ptr snprintf_putc.

(** The memory after the call and the result, the number of characters stored. *)
Definition vsnprintf (fuel : nat) (m : mem) (str size fmt : Z) (args : list Z) : option (mem * Z) :=
  if (str =? NULL) || (size =? 0) then Some (m, 0) else
  let fb := mk_fmt_buf (<[str := 0]> m) str size 0 in
  fb ← fmt_loop fb_mem snprintf_putc true fuel fb fmt args;
  let m := if fb_pos fb <? size then <[str + fb_pos fb := 0]> (fb_mem fb)
           else <[str + size - 1 := 0]> (fb_mem fb) in
  Some (m, s32 (fb_pos fb)).
Definition snprintf := vsnprintf.

(** * What a format means

    A format is a sequence of pieces; [fmt_text] writes it down, [render] is the
    text it stands for. *)

Inductive piece :=
| Lit (c : Z)
| Conv (minus zero : bool) (width : list Z) (long : bool) (letter : Z).

(** An argument: a number, or a pointer to a string. *)
Inductive value := VNum (n : Z) | VStr (text : list Z).

Definition piece_text (x : piece) : list Z :=
  match x with
  | Lit c => [c]
  | Conv minus zero ds long letter =>
      37 :: (if minus then [45] else []) ++ (if zero then [48] else []) ++
      map digit_char ds ++ (if long then [108] else []) ++ [letter]
  end.
Definition fmt_text (l : list piece) : list Z := concat (map piece_text l).

(** The decimal width has no leading zero, which would be the flag, and fits
    [int]; the letter is no flag, digit or length. *)
Definition conv_ok (zero : bool) (ds : list Z) (letter : Z) : Prop :=
  Forall (fun d => 0 <= d < 10) ds /\ value_of 10 0 ds < 2 ^ 31 /\
  (zero = false -> head ds <> Some 0) /\
  letter <> 0 /\ letter <> 45 /\ letter <> 108 /\ is_digit letter = false.

(** A lone [%] can only come last. *)
Fixpoint fmt_ok (l : list piece) : Prop :=
  match l with
  | [] => True
  | Lit c :: l' => c <> 0 /\ (c = 37 -> l' = []) /\ fmt_ok l'
  | Conv _ zero ds _ letter :: l' => conv_ok zero ds letter /\ fmt_ok l'
  end.

Definition uint_text (upper : bool) (base width pad n : Z) : list Z :=
  let ds := map (hex_digit upper) (rev (le_digits 64 n base)) in
  replicate (Z.to_nat (width - zlen ds)) pad ++ ds.
Definition int_text (width pad n : Z) : list Z :=
  if n <? 0 then 45 :: uint_text false 10 (if 0 <? width then width - 1 else width) pad (- n)
  else uint_text false 10 width pad n.

Section render.
Context (hex_prefix : bool).

Definition conv_text (zero : bool) (ds : list Z) (long : bool) (letter : Z) (args : list value) :
    option (list Z * list value) :=
  let width := value_of 10 0 ds in
  let pad := if zero then 48 else 32 in
  let uval n := if long then u64 n else u32 n in
  if letter =? 37 then Some ([37], args) else
  if (letter =? 99) || (letter =? 100) || (letter =? 105) || (letter =? 117) ||
     (letter =? 120) || (letter =? 88) || (letter =? 112) then
    match args with
    | VNum n :: args =>
        Some (if letter =? 99 then [u8 n]
              else if letter =? 117 then uint_text false 10 width pad (uval n)
              else if (letter =? 120) || (letter =? 88) then
                (if hex_prefix then chars "0x" else []) ++
                uint_text (letter =? 88) 16 width pad (uval n)
              else if letter =? 112 then chars "0x" ++ uint_text false 16 16 48 (u64 n)
              else int_text width pad (if long then s64 n else s32 n), args)
    | _ => None
    end
  else if letter =? 115 then
    match args with
    | VStr text :: args => Some (text, args)
    | VNum 0 :: args => Some (chars "(null)", args)
    | _ => None
    end
  else Some ([37; letter], args).

Fixpoint render (l : list piece) (args : list value) : option (list Z) :=
  match l with
  | [] => Some []
  | Lit c :: l' => option_map (cons c) (render l' args)
  | Conv _ zero ds long letter :: l' =>
      match conv_text zero ds long letter args with
      | None => None
      | Some (text, args) => option_map (app text) (render l' args)
      end
  end.
End render.

(** * Lemmas: the formatter computes the text *)

Lemma hex_digit_lower d : hex_digit false d = digit_char d.
Proof. done. Qed.

Lemma uint_digits_eq room upper n base fuel :
  2 <= base -> 0 < n < base ^ Z.of_nat room -> n < base ^ Z.of_nat fuel ->
  uint_digits room upper n base = Some (map (hex_digit upper) (le_digits fuel n base)).
Proof.
  intros Hb. revert n fuel. induction room as [|room IH]; intros n [|fuel] Hn Hf;
    rewrite ?Nat2Z.inj_succ, ?Z.pow_succ_r in * by lia;
    change (Z.of_nat 0) with 0 in *; rewrite ?Z.pow_0_r in *; try lia.
  cbn [uint_digits le_digits map]. destruct (Z.leb_spec n 0); [lia|].
  pose proof (Z.div_mod n base ltac:(lia)). pose proof (Z.mod_pos_bound n base ltac:(lia)).
  destruct (Z.eqb_spec (n / base) 0) as [E|E].
  - rewrite E. by destruct room.
  - assert (0 <= n / base) by (apply Z.div_pos; lia).
    rewrite (IH _ fuel); [done| |].
    + split; [lia|]. apply Z.div_lt_upper_bound; lia.
    + apply Z.div_lt_upper_bound; lia.
Qed.

Section formatter_text.
Context {S : Type} (rd : S -> mem) (putc : S -> Z -> S) (hex_prefix : bool).
(** The sink keeps an invariant and leaves the addresses [P] alone. *)
Context (Inv : S -> Prop) (P : Z -> Prop).
Context (Hputc : forall s c, Inv s -> Inv (putc s c) /\ forall x, P x -> rd (putc s c) x = rd s x).

Notation put := (foldl putc).

Lemma put_inv s l : Inv s -> Inv (put s l) /\ forall x, P x -> rd (put s l) x = rd s x.
Proof.
  revert s. induction l as [|c l IH]; intros s Hs; [done|]. cbn [foldl].
  destruct (Hputc s c Hs) as [H1 H2]. destruct (IH _ H1) as [H3 H4].
  split; [done|]. intros x Hx. by rewrite H4, H2.
Qed.

(** A string that the sink does not overwrite. *)
Definition text_at (s : S) (p : Z) (l : list Z) : Prop :=
  cstr (rd s) p l /\ forall x, p <= x <= p + zlen l -> P x.

Lemma text_at_ext s s' p l :
  (forall x, P x -> rd s' x = rd s x) -> text_at s p l -> text_at s' p l.
Proof.
  intros Hs [Hc HP]. split; [|done].
  apply (cstr_ext (rd s)); [|done]. intros x Hx. by apply Hs, HP.
Qed.

Lemma text_at_put s p l out : Inv s -> text_at s p l -> text_at (put s out) p l.
Proof. intros Hs. apply text_at_ext. by apply put_inv. Qed.

Lemma text_at_cons s p c l : text_at s p (c :: l) -> rd s p = c /\ c <> 0 /\ text_at s (p + 1) l.
Proof.
  intros [(Hc & H0 & Hl) HP]. repeat split; try done.
  intros x Hx. apply HP. rewrite zlen_cons. lia.
Qed.

Lemma text_at_nil s p : text_at s p [] -> rd s p = 0.
Proof. by intros [Hc _]. Qed.

Lemma text_at_nonzero s p l : text_at s p l -> l <> [] -> rd s p <> 0.
Proof. destruct l as [|c l]; [done|]. by intros (-> & ? & _)%text_at_cons _. Qed.

Lemma text_at_app s p l1 l2 : text_at s p (l1 ++ l2) -> text_at s (p + zlen l1) l2.
Proof.
  revert p. induction l1 as [|c l1 IH]; intros p Ht; cbn [app] in Ht.
  - by rewrite Z.add_0_r.
  - apply text_at_cons in Ht as (_ & _ & Ht). rewrite zlen_cons.
    replace (p + (1 + zlen l1)) with (p + 1 + zlen l1) by lia. by apply IH.
Qed.

Lemma fmt_puts_text fuel s p l :
  Inv s -> text_at s p l -> (length l < fuel)%nat -> fmt_puts rd putc fuel s p = Some (put s l).
Proof.
  revert s p fuel. induction l as [|c l IH]; intros s p [|fuel] Hs Ht Hf; cbn [length] in Hf;
    try lia; cbn [fmt_puts foldl].
  - by rewrite (text_at_nil _ _ Ht).
  - destruct (text_at_cons _ _ _ _ Ht) as (-> & H0 & Ht').
    destruct (Z.eqb_spec c 0); [done|]. apply IH; [by apply Hputc| |lia].
    by apply (text_at_put s _ _ [c]).
Qed.

Lemma fmt_pad_put n s pad : fmt_pad putc n s pad = put s (replicate n pad).
Proof. revert s. induction n as [|n IH]; intros s; [done|]. apply IH. Qed.

Lemma fmt_uint_text s n base width pad upper :
  10 <= base -> 0 <= n < 2 ^ 64 ->
  fmt_uint putc s n base width pad upper = Some (put s (uint_text upper base width pad n)).
Proof.
  intros Hb Hn. unfold fmt_uint, uint_text. rewrite foldl_app. destruct (Z.eqb_spec n 0) as [->|Hn0].
  - change (rev (le_digits 64 0 base)) with (rev [0 mod base]).
    rewrite Zmod_0_l. cbn [rev app map foldl zlen length]. change (hex_digit upper 0) with 48.
    change (zlen [48]) with 1. rewrite fmt_pad_put. destruct (Z.ltb_spec 1 width); [done|].
    by replace (Z.to_nat (width - 1)) with 0%nat by lia.
  - assert (H10 : forall k, 32 <= k -> n < base ^ k).
    { intros k Hk. apply Z.lt_le_trans with (10 ^ 32); [lia|].
      transitivity (10 ^ k); [apply Z.pow_le_mono_r; lia|apply Z.pow_le_mono_l; lia]. }
    rewrite (uint_digits_eq 32 upper n base 64) by (try split; try apply H10; lia).
    rewrite map_rev. set (ds := map _ _).
    replace (zlen (rev ds)) with (zlen ds) by (unfold zlen; by rewrite length_rev).
    rewrite fmt_pad_put. destruct (Z.ltb_spec (zlen ds) width); [done|].
    by replace (Z.to_nat (width - zlen ds)) with 0%nat by lia.
Qed.

Lemma fmt_int_text s n width pad :
  - 2 ^ 63 <= n < 2 ^ 63 -> fmt_int putc s n width pad = Some (put s (int_text width pad n)).
Proof.
  intros Hn. unfold fmt_int, int_text. destruct (Z.ltb_spec n 0); rewrite u64_id by lia.
  - by rewrite fmt_uint_text by lia.
  - by rewrite fmt_uint_text by lia.
Qed.

Lemma fmt_ptr_text s p :
  0 <= p < 2 ^ 64 -> fmt_ptr putc s p = Some (put s (chars "0x" ++ uint_text false 16 16 48 p)).
Proof. intros Hp. unfold fmt_ptr. by rewrite fmt_uint_text, foldl_app by lia. Qed.

Lemma fmt_width_text fuel s p ds acc c rest :
  Forall (fun d => 0 <= d < 10) ds -> 0 <= acc -> value_of 10 acc ds < 2 ^ 31 ->
  is_digit c = false -> text_at s p (map digit_char ds ++ c :: rest) -> (length ds < fuel)%nat ->
  fmt_width rd fuel s p acc = Some (p + zlen ds, value_of 10 acc ds).
Proof.
  intros Hd. revert p acc fuel.
  induction Hd as [|d ds Hd Hds IH]; intros p acc [|fuel] Hacc Hv Hc Ht Hf; cbn [length] in Hf;
    try lia; cbn [fmt_width map app] in *; destruct (text_at_cons _ _ _ _ Ht) as (-> & _ & Ht').
  - rewrite Hc. by rewrite Z.add_0_r.
  - assert (digit_char d = 48 + d) as ->.
    { unfold digit_char. by destruct (Z.ltb_spec d 10); [|lia]. }
    unfold is_digit. destruct (Z.leb_spec 48 (48 + d)), (Z.leb_spec (48 + d) 57); try lia.
    cbn [andb]. change (value_of 10 acc (d :: ds)) with (value_of 10 (acc * 10 + d) ds) in *.
    replace (acc * 10 + (48 + d - 48)) with (acc * 10 + d) by lia.
    assert (acc * 10 + d <= value_of 10 (acc * 10 + d) ds).
    { apply value_of_ge; [lia|lia|]. eapply Forall_impl; [done|]. cbn. lia. }
    destruct (Z.leb_spec (2 ^ 31) (acc * 10 + d)); [lia|].
    rewrite IH by (done || lia). rewrite zlen_cons. do 2 f_equal. lia.
Qed.

Lemma digits_head_not_flag ds c rest x :
  Forall (fun d => 0 <= d < 10) ds -> c <> x -> x < 48 \/ 57 < x \/ (x = 48 /\ head ds <> Some 0) ->
  head (map digit_char ds ++ c :: rest) <> Some x.
Proof.
  intros Hd Hc Hx. destruct Hd as [|d ds Hd Hds]; cbn [map app head].
  - congruence.
  - intros [= E]. unfold digit_char in E. destruct (Z.ltb_spec d 10); [|lia].
    destruct Hx as [?|[?|[-> Hx]]]; [lia|lia|]. apply Hx. cbn. f_equal. lia.
Qed.

Lemma text_at_head s p l x : x <> 0 -> text_at s p l -> head l <> Some x -> rd s p <> x.
Proof.
  intros Hx Ht Hh. destruct l as [|c l]; [rewrite (text_at_nil _ _ Ht); done|].
  destruct (text_at_cons _ _ _ _ Ht) as (-> & _). cbn in Hh. congruence.
Qed.

(** Reading one optional flag character. *)
Lemma flag_read s p (b : bool) x l :
  text_at s p ((if b then [x] else []) ++ l) -> x <> 0 -> (b = false -> head l <> Some x) ->
  (rd s p =? x) = b /\ text_at s (if b then p + 1 else p) l.
Proof.
  intros Ht Hx Hb. destruct b; cbn [app] in Ht.
  - destruct (text_at_cons _ _ _ _ Ht) as (-> & _ & Ht'). by rewrite Z.eqb_refl.
  - split; [|done]. apply Z.eqb_neq. by apply (text_at_head s p l); auto.
Qed.

Lemma fmt_flags_text fuel s p (minus zero long : bool) ds letter rest :
  conv_ok zero ds letter ->
  text_at s p ((if minus then [45] else []) ++ (if zero then [48] else []) ++
               map digit_char ds ++ (if long then [108] else []) ++ letter :: rest) ->
  (length ds < fuel)%nat ->
  exists q, fmt_flags rd fuel s p = Some (q, if zero then 48 else 32, value_of 10 0 ds, long) /\
    text_at s q (letter :: rest).
Proof.
  intros (Hds & Hv & Hz & Hl0 & Hl45 & Hl108 & Hld) Ht Hf. unfold fmt_flags.
  assert (letter <> 48) by (intros ->; done).
  destruct (flag_read _ _ _ _ _ Ht) as [E1 T1]; [done| |].
  { intros _. destruct zero; [done|]. destruct long.
    - apply (digits_head_not_flag ds 108); [done|done|lia].
    - apply (digits_head_not_flag ds letter); [done|done|lia]. }
  rewrite E1. set (p1 := if minus then p + 1 else p) in *.
  destruct (flag_read _ _ _ _ _ T1) as [E2 T2]; [done| |].
  { intros Hzf. destruct long.
    - apply (digits_head_not_flag ds 108); [done|done|]. auto.
    - apply (digits_head_not_flag ds letter); [done|done|]. auto. }
  rewrite E2.
  replace (if zero then (48, p1 + 1) else (32, p1))
    with (if zero then 48 else 32, if zero then p1 + 1 else p1) by (by destruct zero).
  set (p2 := if zero then p1 + 1 else p1) in *.
  assert (exists c r, (if long then [108] else []) ++ letter :: rest = c :: r /\ is_digit c = false)
    as (c & r & Ecr & Hc) by (destruct long; eauto).
  rewrite Ecr in T2. rewrite (fmt_width_text fuel s p2 ds 0 c r) by done. rewrite <- Ecr in T2.
  apply text_at_app in T2. replace (zlen (map digit_char ds)) with (zlen ds) in T2
    by (unfold zlen; by rewrite length_map).
  destruct (flag_read _ _ _ _ _ T2) as [E3 T3]; [done| |].
  { intros _. cbn. congruence. }
  rewrite E3. destruct long; eauto.
Qed.

(** The word [w] is the argument [v], with strings of at most [N] characters. *)
Definition value_at (N : nat) (s : S) (w : Z) (v : value) : Prop :=
  match v with
  | VNum n => w = n
  | VStr l => w <> NULL /\ text_at s w l /\ (length l <= N)%nat
  end.

Lemma values_put N s ws vs out :
  Inv s -> Forall2 (value_at N s) ws vs -> Forall2 (value_at N (put s out)) ws vs.
Proof.
  intros Hs Hv. eapply Forall2_impl; [exact Hv|]. intros w [n|l]; cbn; [done|].
  intros (? & ? & ?). split; [done|]. split; [|done]. by apply text_at_put.
Qed.

Lemma fmt_conv_text N fuel s zero ds long letter ws vs text vs' :
  Inv s -> Forall2 (value_at N s) ws vs -> (N < fuel)%nat ->
  conv_text hex_prefix zero ds long letter vs = Some (text, vs') ->
  exists ws', fmt_conv rd putc hex_prefix fuel s letter (if zero then 48 else 32) (value_of 10 0 ds) long ws
      = Some (put s text, ws') /\ Forall2 (value_at N s) ws' vs'.
Proof.
  intros Hs Hv HN. unfold conv_text, fmt_conv.
  set (width := value_of 10 0 ds). set (pad := if zero then 48 else 32).
  pose proof u64_range as Hu64. pose proof u32_range as Hu32.
  assert (Huv : forall n, 0 <= (if long then u64 n else u32 n) < 2 ^ 64).
  { intros n. destruct long; [apply Hu64|]. specialize (Hu32 n). lia. }
  assert (Hsv : forall n, - 2 ^ 63 <= (if long then s64 n else s32 n) < 2 ^ 63).
  { intros n. unfold s64, s32. destruct long; lia. }
  destruct (Z.eqb_spec letter 37) as [->|H37].
  { intros [= <- <-]. cbn [Z.eqb Pos.eqb orb]. eauto. }
  destruct (Z.eqb_spec letter 99) as [->|H99].
  { cbn [Z.eqb Pos.eqb orb]. destruct Hv as [|w v ws vs Hw Hv]; [done|].
    destruct v as [n|]; [|done]. cbn in Hw. subst w. intros [= <- <-]. cbn. eauto. }
  destruct (Z.eqb_spec letter 115) as [->|H115].
  { cbn [Z.eqb Pos.eqb orb]. destruct Hv as [|w v ws vs Hw Hv]; [done|]. cbn [va_arg].
    destruct v as [n|l]; cbn in Hw.
    - subst w. destruct n; [|done..]. intros [= <- <-]. cbn. eauto.
    - destruct Hw as (Hw & Ht & Hl). intros [= <- <-].
      destruct (Z.eqb_spec w NULL); [done|]. rewrite (fmt_puts_text fuel s w l) by (done || lia).
      cbn. eauto. }
  destruct (Z.eqb_spec letter 100) as [->|H100].
  { cbn [Z.eqb Pos.eqb orb]. destruct Hv as [|w v ws vs Hw Hv]; [done|].
    destruct v as [n|]; [|done]. cbn in Hw. subst w. intros [= <- <-].
    cbn [va_arg]. rewrite fmt_int_text by apply Hsv. cbn [option_map]. eauto. }
  destruct (Z.eqb_spec letter 105) as [->|H105].
  { cbn [Z.eqb Pos.eqb orb]. destruct Hv as [|w v ws vs Hw Hv]; [done|].
    destruct v as [n|]; [|done]. cbn in Hw. subst w. intros [= <- <-].
    cbn [va_arg]. rewrite fmt_int_text by apply Hsv. cbn [option_map]. eauto. }
  destruct (Z.eqb_spec letter 117) as [->|H117].
  { cbn [Z.eqb Pos.eqb orb]. destruct Hv as [|w v ws vs Hw Hv]; [done|].
    destruct v as [n|]; [|done]. cbn in Hw. subst w. intros [= <- <-].
    cbn [va_arg]. rewrite fmt_uint_text by (lia || apply Huv). cbn [option_map]. eauto. }
  cbn [orb]. destruct ((letter =? 120) || (letter =? 88)) eqn:Hx.
  { assert ((letter =? 112) = false) as -> by lia. cbn [orb].
    destruct Hv as [|w v ws vs Hw Hv]; [done|].
    destruct v as [n|]; [|done]. cbn in Hw. subst w. intros [= <- <-].
    cbn [va_arg]. rewrite fmt_uint_text by (lia || apply Huv). cbn [option_map].
    rewrite foldl_app. destruct hex_prefix; eauto. }
  cbn [orb].
  destruct (Z.eqb_spec letter 112) as [->|H112].
  { destruct Hv as [|w v ws vs Hw Hv]; [done|].
    destruct v as [n|]; [|done]. cbn in Hw. subst w. intros [= <- <-].
    cbn [va_arg]. rewrite fmt_ptr_text by apply Hu64. cbn [option_map]. eauto. }
  intros [= <- <-]. eauto.
Qed.

Lemma fmt_loop_text N fuel s p l ws vs out :
  Inv s -> fmt_ok l -> text_at s p (fmt_text l) -> Forall2 (value_at N s) ws vs ->
  render hex_prefix l vs = Some out -> (length (fmt_text l) + N < fuel)%nat ->
  fmt_loop rd putc hex_prefix fuel s p ws = Some (put s out).
Proof.
  revert fuel s p ws vs out.
  induction l as [|[c|minus zero ds long letter] l IH]; intros [|fuel] s p ws vs out Hs Hok Ht Hv Hr Hf;
    try lia; cbn [fmt_loop fmt_ok render] in *.
  - injection Hr as <-. by rewrite (text_at_nil _ _ Ht).
  - destruct Hok as (Hc & H37 & Hok). change (fmt_text (Lit c :: l)) with (c :: fmt_text l) in *.
    cbn [length] in Hf. destruct (text_at_cons _ _ _ _ Ht) as (-> & _ & Ht').
    destruct (Z.eqb_spec c 0); [done|].
    destruct (render hex_prefix l vs) as [out'|] eqn:Er; [|done]. injection Hr as <-.
    assert ((c =? 37) && negb (rd s (p + 1) =? 0) = false) as ->.
    { destruct (Z.eqb_spec c 37) as [->|]; [|done]. rewrite (H37 eq_refl) in Ht'.
      by rewrite (text_at_nil _ _ Ht'). }
    cbn [foldl]. eapply (IH fuel (putc s c)); try done; [by apply Hputc| | |lia].
    + by apply (text_at_put s _ _ [c]).
    + by apply (values_put N s ws vs [c]).
  - destruct Hok as [Hc Hok].
    destruct (conv_text hex_prefix zero ds long letter vs) as [[text vs']|] eqn:Ec; [|done].
    destruct (render hex_prefix l vs') as [out'|] eqn:Er; [|done]. injection Hr as <-.
    change (fmt_text (Conv minus zero ds long letter :: l))
      with (piece_text (Conv minus zero ds long letter) ++ fmt_text l) in *.
    rewrite length_app in Hf. cbn [piece_text length app] in Ht, Hf.
    rewrite !length_app, length_map in Hf. cbn [length] in Hf.
    destruct (text_at_cons _ _ _ _ Ht) as (-> & _ & Ht').
    rewrite <- !(app_assoc _ _ (fmt_text l)) in Ht'. cbn [app] in Ht'.
    assert (rd s (p + 1) <> 0) as Hnz.
    { eapply text_at_nonzero; [exact Ht'|]. intros E. apply (f_equal length) in E.
      rewrite !length_app in E. cbn [length] in E. lia. }
    cbn [Z.eqb Pos.eqb andb]. destruct (Z.eqb_spec (rd s (p + 1)) 0); [done|]. cbn [negb].
    destruct (fmt_flags_text (Datatypes.S fuel) s (p + 1) minus zero long ds letter (fmt_text l) Hc Ht')
      as (q & -> & Hq); [lia|].
    destruct (text_at_cons _ _ _ _ Hq) as (-> & _ & Hq').
    destruct (fmt_conv_text N (Datatypes.S fuel) s zero ds long letter ws vs text vs' Hs Hv ltac:(lia) Ec)
      as (ws' & -> & Hv').
    rewrite foldl_app. eapply (IH fuel (put s text)); try done; [by apply put_inv| | |lia].
    + by apply text_at_put.
    + by apply values_put.
Qed.
End formatter_text.

(** * Lemmas: the ring buffer *)

Definition log_ok (k : log) : Prop :=
  zlen (log_buffer k) = LOG_BUF_SIZE /\ 0 <= log_tail k <= log_head k /\ log_head k < 2 ^ 64 /\
  log_head k - log_tail k <= LOG_BUF_SIZE.

(** The characters between the read and the write position. *)
Definition log_char (k : log) (i : Z) : Z := (log_buffer k).[i mod LOG_BUF_SIZE].
Definition log_text (k : log) : list Z :=
  ring_list (log_buffer k) LOG_BUF_SIZE (log_tail k) (log_head k - log_tail k).

Lemma land_mask i : Z.land i LOG_BUF_MASK = i mod LOG_BUF_SIZE.
Proof. change LOG_BUF_MASK with (Z.ones 14). by rewrite Z.land_ones by lia. Qed.

Lemma zlen_log_text k : log_ok k -> zlen (log_text k) = log_head k - log_tail k.
Proof. intros (_ & ? & _). unfold log_text. rewrite zlen_ring_list; lia. Qed.

(** What [fmt_putc] does to the console. *)
Definition sent (k : log) (l : list Z) : list Z :=
  if output_sink k =? NULL then sink_out k else sink_out k ++ l.

Lemma fmt_putc_fields k c :
  log_ok k -> log_head k + 1 < 2 ^ 64 ->
  fmt_putc k c = mk_log (log_buffer k).[Z.land (log_head k) LOG_BUF_MASK <- c] (log_head k + 1)
    (if log_head k - log_tail k =? LOG_BUF_SIZE then log_tail k + 1 else log_tail k)
    (console_loglevel k) (output_sink k) (sent k [c]).
Proof.
  intros (Hlen & Ht & Hh & Hn) Hc. unfold fmt_putc, sent. destruct k; rec_simpl. cbn in *.
  unfold LOG_BUF_SIZE in *. rewrite !(u64_id (log_head0 + 1)) by lia.
  rewrite (u64_id (_ - log_tail0)) by lia.
  destruct (Z.ltb_spec 16384 (log_head0 + 1 - log_tail0)), (Z.eqb_spec (log_head0 - log_tail0) 16384);
    try lia; rewrite ?u64_id by lia; destruct (_ =? NULL); unfold upd; cbn; f_equal; lia.
Qed.

Lemma fmt_putc_text k c :
  log_ok k -> log_head k + 1 < 2 ^ 64 ->
  log_ok (fmt_putc k c) /\ log_text (fmt_putc k c) = newest (Z.to_nat LOG_BUF_SIZE) (log_text k ++ [c]).
Proof.
  intros Hk Hc. rewrite fmt_putc_fields by done. destruct Hk as (Hb & Ht & Hh & Hn). split.
  { unfold log_ok. cbn. rewrite zlen_aset. unfold LOG_BUF_SIZE in *.
    destruct (Z.eqb_spec (log_head k - log_tail k) 16384); lia. }
  unfold log_text. cbn [log_tail log_head log_buffer]. rewrite land_mask.
  rewrite <- ring_list_push by (unfold LOG_BUF_SIZE in *; lia).
  replace (log_tail k + (log_head k - log_tail k)) with (log_head k) by lia.
  f_equal. destruct (Z.eqb_spec (log_head k - log_tail k) LOG_BUF_SIZE); lia.
Qed.

Lemma put_log k l :
  log_ok k -> log_head k + zlen l < 2 ^ 64 ->
  let k' := foldl fmt_putc k l in
  log_ok k' /\ log_text k' = newest (Z.to_nat LOG_BUF_SIZE) (log_text k ++ l) /\ log_head k' = log_head k + zlen l /\
  console_loglevel k' = console_loglevel k /\ output_sink k' = output_sink k /\ sink_out k' = sent k l.
Proof.
  revert k. induction l as [|c l IH]; intros k Hk Hc; cbn [foldl].
  - split; [done|]. split; [|].
    { rewrite app_nil_r, newest_all; [done|]. pose proof (zlen_log_text k Hk) as Hlen.
      destruct Hk as (_ & _ & _ & Hn). unfold zlen, LOG_BUF_SIZE in *. lia. }
    rewrite Z.add_0_r. repeat split. unfold sent. destruct (_ =? NULL); [done|]. by rewrite app_nil_r.
  - rewrite zlen_cons in *. pose proof (zlen_nonneg l).
    destruct (fmt_putc_text k c Hk ltac:(lia)) as [Hk1 Ht1].
    pose proof (fmt_putc_fields k c Hk ltac:(lia)) as E.
    destruct (IH (fmt_putc k c) Hk1) as (H1 & H2 & H3 & H4 & H5 & H6).
    { rewrite E. cbn. lia. }
    split; [done|]. rewrite H2, H3, H4, H5, H6, Ht1. split.
    { rewrite newest_newest. by rewrite <- app_assoc. }
    rewrite E. unfold sent. cbn. split; [lia|]. repeat split.
    destruct (_ =? NULL); [done|]. by rewrite <- app_assoc.
Qed.

Lemma dmesg_copy_read n k m buf i x :
  dmesg_copy n k m buf i x =
  if in_range (buf + i) (Z.of_nat n) x then log_char k (u64 (log_tail k + (x - buf))) else m x.
Proof.
  revert m i. induction n as [|n IH]; intros m i; cbn [dmesg_copy].
  - by mem_cases.
  - rewrite IH, mem_upd. mem_cases; try done. subst. rewrite land_mask. unfold log_char. do 4 f_equal. lia.
Qed.

(** The memory after storing a text and its terminator at [p]. *)
Definition stored (m : mem) (p : Z) (t : list Z) : mem := fun x =>
  if in_range p (zlen t) x then t.[x - p] else if x =? p + zlen t then 0 else m x.

Lemma aget_take (l : list Z) n i : 0 <= i < Z.of_nat n -> (take n l).[i] = l.[i].
Proof.
  intros Hi. unfold aget. rewrite lookup_total_take.
  by destruct (decide (Z.to_nat i < n)%nat); [|lia].
Qed.

Lemma zlen_take (l : list Z) n : 0 <= n -> zlen (take (Z.to_nat n) l) = Z.min n (zlen l).
Proof. intros Hn. unfold zlen. rewrite length_take. lia. Qed.

Lemma stored_cstr m p t : Forall (fun c => c <> 0) t -> cstr (stored m p t) p t.
Proof.
  intros Ht. pose proof (zlen_nonneg t). apply cstr_intro; [|done|]; unfold stored.
  - intros i Hi. mem_cases. by replace (p + i - p) with i by lia.
  - by mem_cases.
Qed.

Lemma dmesg_text k m buf size :
  log_ok k -> buf <> NULL -> 0 < size ->
  let t := take (Z.to_nat (size - 1)) (log_text k) in
  exists m', dmesg k m buf size = (m', zlen t) /\ forall x, m' x = stored m buf t x.
Proof.
  intros Hk Hbuf Hsize t. pose proof (zlen_log_text k Hk) as Hlen.
  assert (Ht : zlen t = Z.min (size - 1) (log_head k - log_tail k)).
  { unfold t. rewrite zlen_take by lia. lia. }
  destruct Hk as (_ & Htl & Hh & _). unfold dmesg.
  destruct (Z.eqb_spec buf NULL); [done|]. destruct (Z.eqb_spec size 0); [lia|]. cbn [orb].
  destruct (Z.leb_spec (log_tail k) (log_head k)); [|lia].
  replace (if log_head k - log_tail k <? size - 1 then _ else _) with (zlen t)
    by (destruct (Z.ltb_spec (log_head k - log_tail k) (size - 1)); lia).
  eexists. split; [done|]. intros x. unfold stored. rewrite mem_upd, dmesg_copy_read.
  replace (Z.of_nat (Z.to_nat (zlen t))) with (zlen t) by lia.
  mem_cases; try done. unfold t. rewrite aget_take by lia.
  unfold log_text, ring_list. unfold aget at 1. rewrite list_lookup_total_alt, list_lookup_fmap.
  replace (x - buf) with (Z.of_nat (Z.to_nat (x - buf))) at 1 by lia.
  rewrite lookup_seqZ_lt by lia. cbn. rewrite u64_id by lia. f_equal; lia.
Qed.

(** * Lemmas: the bounded buffer *)

Definition fb_ok (str size : Z) (fb : fmt_buf_t) : Prop :=
  fb_buf fb = str /\ fb_size fb = size /\ 0 <= fb_pos fb < size.
Definition outside (str size x : Z) : Prop := ~ str <= x < str + size.

Lemma snprintf_putc_outside str size fb c :
  size < 2 ^ 64 -> fb_ok str size fb ->
  fb_ok str size (snprintf_putc fb c) /\
  forall x, outside str size x -> fb_mem (snprintf_putc fb c) x = fb_mem fb x.
Proof.
  unfold fb_ok, outside, snprintf_putc. intros Hs (Hb & Hsz & Hp).
  rewrite Hsz, u64_id by lia. destruct (Z.ltb_spec (fb_pos fb) (size - 1)); [|done].
  rec_simpl. rewrite Hb, Hsz. split; [lia|]. intros x Hx. rewrite !mem_upd. by mem_cases.
Qed.

Lemma put_snprintf str size fb out :
  size < 2 ^ 64 -> fb_ok str size fb -> fb_mem fb (str + fb_pos fb) = 0 ->
  let fb' := foldl snprintf_putc fb out in
  let t := take (Z.to_nat (size - 1 - fb_pos fb)) out in
  fb_pos fb' = fb_pos fb + zlen t /\ forall x, fb_mem fb' x = stored (fb_mem fb) (str + fb_pos fb) t x.
Proof.
  intros Hs. revert fb. induction out as [|c out IH]; intros fb Hok H0; cbn [foldl].
  { rewrite take_nil. split; [by rewrite Z.add_0_r|]. intros x. unfold stored. change (zlen []) with 0. mem_cases.
    subst. by rewrite Z.add_0_r. }
  destruct (snprintf_putc_outside str size fb c Hs Hok) as [Hok' _].
  pose proof Hok as (Hb & Hsz & Hp).
  assert (E : snprintf_putc fb c = if fb_pos fb <? size - 1 then
      mk_fmt_buf (<[str + (fb_pos fb + 1) := 0]> (<[str + fb_pos fb := c]> (fb_mem fb))) str size (fb_pos fb + 1)
    else fb).
  { unfold snprintf_putc. rewrite Hsz, u64_id by lia. destruct (Z.ltb_spec (fb_pos fb) (size - 1)); [|done].
    destruct fb. cbn in *. subst. unfold upd. cbn. done. }
  destruct (Z.ltb_spec (fb_pos fb) (size - 1)) as [Hlt|Hge]; rewrite E in *.
  - destruct (IH _ Hok') as [H1 H2]; [by cbn; rewrite fn_lookup_insert|]. cbn [fb_pos fb_mem] in *.
    replace (Z.to_nat (size - 1 - fb_pos fb)) with (S (Z.to_nat (size - 1 - (fb_pos fb + 1)))) by lia.
    cbn [take]. rewrite zlen_cons. split; [lia|]. intros x. rewrite H2. unfold stored.
    rewrite !zlen_cons, !mem_upd. pose proof (zlen_nonneg (take (Z.to_nat (size - 1 - (fb_pos fb + 1))) out)).
    mem_cases; try done.
    + rewrite aget_cons by lia. destruct (Z.eqb_spec (x - (str + fb_pos fb)) 0); [lia|]. f_equal. lia.
    + subst. by rewrite Z.sub_diag.
  - destruct (IH _ Hok' H0) as [H1 H2]. cbn zeta. rewrite H1.
    replace (Z.to_nat (size - 1 - fb_pos fb)) with 0%nat in * by lia.
    split; [done|]. exact H2.
Qed.

(** The words [ws] of an argument list, in memory [m]: their values, with strings
    of at most [N] characters at addresses of [P]. *)
Definition args_at (P : Z -> Prop) (N : nat) (m : mem) (ws : list Z) (vs : list value) : Prop :=
  Forall2 (value_at (fun m : mem => m) P N m) ws vs.

(** The [KERN_] prefix of a format. *)
Definition kern (level : option Z) : list Z :=
  match level with None => [] | Some n => [60; 48 + n; 62] end.
Definition level_of (level : option Z) : Z := default LOGLEVEL_INFO level.

Lemma log_level_kern m fmt level l :
  cstr m fmt (kern level ++ l) -> (level = None -> ~ (m fmt = 60 /\ m (fmt + 2) = 62)) ->
  exists p, log_level m fmt = (level_of level, p) /\ cstr m p l.
Proof.
  unfold log_level. destruct level as [n|]; cbn [kern app cstr].
  - intros (-> & _ & H1 & _ & H2 & _ & Hl) _.
    replace (fmt + 2) with (fmt + 1 + 1) by lia. rewrite H1, H2. cbn [Z.eqb Pos.eqb andb].
    exists (fmt + 3). split; [unfold level_of; cbn; f_equal; lia|].
    by replace (fmt + 3) with (fmt + 1 + 1 + 1) by lia.
  - intros Hl Hn. exists fmt. split; [|done].
    destruct (Z.eqb_spec (m fmt) 60), (Z.eqb_spec (m (fmt + 2)) 62); try done.
    by destruct Hn.
Qed.

Lemma vsnprintf_text (N fuel : nat) (m : mem) (str size fmt : Z)
    (l : list piece) (ws : list Z) (vs : list value) (out : list Z) :
  str <> NULL -> 0 < size < 2 ^ 31 -> fmt_ok l -> cstr m fmt (fmt_text l) ->
  (forall x, fmt <= x <= fmt + zlen (fmt_text l) -> outside str size x) ->
  args_at (outside str size) N m ws vs -> render true l vs = Some out ->
  (length (fmt_text l) + N < fuel)%nat ->
  let t := take (Z.to_nat (size - 1)) out in
  exists m', vsnprintf fuel m str size fmt ws = Some (m', zlen t) /\
    (forall x, m' x = stored m str t x) /\ (forall x, outside str size x -> m' x = m x).
Proof.
  intros Hnull Hsize Hfmt Hm Hsep Hargs Hout Hfuel. unfold vsnprintf.
  destruct (Z.eqb_spec str NULL); [done|]. destruct (Z.eqb_spec size 0); [lia|]. cbn [orb].
  set (m0 := <[str := 0]> m). set (fb := mk_fmt_buf m0 str size 0). set (t := take _ out).
  assert (Hm0 : forall x, outside str size x -> m0 x = m x).
  { intros x Hx. unfold m0, outside in *. rewrite mem_upd. by mem_cases. }
  assert (Hok : fb_ok str size fb) by (unfold fb_ok; cbn; lia).
  assert (Hput : forall fb c, fb_ok str size fb -> fb_ok str size (snprintf_putc fb c) /\
    forall x, outside str size x -> fb_mem (snprintf_putc fb c) x = fb_mem fb x).
  { intros fb' c. apply snprintf_putc_outside. lia. }
  rewrite (fmt_loop_text fb_mem snprintf_putc true _ _ Hput N fuel fb fmt l ws vs out); try done; cycle 1.
  { apply (text_at_ext (fun m : mem => m) _ m m0); [done|by split]. }
  { eapply Forall2_impl; [exact Hargs|]. intros w [x|s]; [done|]. intros (? & Hs & ?).
    split; [done|]. split; [|done]. by apply (text_at_ext (fun m : mem => m) _ m m0). }
  destruct (put_snprintf str size fb out ltac:(lia) Hok) as [Hpos Hmem].
  { cbn. unfold m0. rewrite mem_upd. by mem_cases. }
  cbn [fb_pos fb_mem fb] in Hpos, Hmem. rewrite Z.add_0_r, Z.sub_0_r in *. fold t in Hpos, Hmem.
  assert (Ht : zlen t <= size - 1) by (unfold t; rewrite zlen_take; lia).
  pose proof (zlen_nonneg t). change (0 + zlen t) with (zlen t) in Hpos. cbn [mbind option_bind]. rewrite Hpos.
  destruct (Z.ltb_spec (zlen t) size); [|lia]. rewrite s32_id by lia.
  eexists. split; [done|].
  assert (Hfin : forall x, (<[str + zlen t := 0]> (fb_mem (foldl snprintf_putc fb out))) x = stored m str t x).
  { intros x. rewrite mem_upd, Hmem. unfold stored, m0. rewrite mem_upd. by mem_cases. }
  split; [exact Hfin|]. intros x Hx. rewrite Hfin. unfold stored, outside in *. by mem_cases.
Qed.

Lemma le_digits_short fuel u base k :
  2 <= base -> 0 <= u < base ^ Z.of_nat k -> (0 < k)%nat -> (length (le_digits fuel u base) <= k)%nat.
Proof.
  intros Hb. revert u k. induction fuel as [|fuel IH]; intros u k Hu Hk; cbn [le_digits length]; [lia|].
  destruct (Z.eqb_spec (u / base) 0); cbn [length]; [lia|].
  destruct k as [|k]; [lia|]. rewrite Nat2Z.inj_succ, Z.pow_succ_r in Hu by lia.
  assert (0 < u / base < base ^ Z.of_nat k).
  { split; [pose proof (Z.div_pos u base); lia|]. apply Z.div_lt_upper_bound; lia. }
  destruct k as [|k]; [change (base ^ Z.of_nat 0) with 1 in *; lia|].
  specialize (IH (u / base) (S k) ltac:(lia) ltac:(lia)). lia.
Qed.

(** The text of a number without padding. *)
Lemma digit_text base n :
  10 <= base <= 16 -> 0 <= n < 2 ^ 64 ->
  exists ds, uint_text false base 0 32 n = map digit_char ds /\
    Forall (fun d => 0 <= d < base) ds /\ value_of base 0 ds = n /\ (0 < length ds <= 20)%nat.
Proof.
  intros Hb Hn. exists (rev (le_digits 64 n base)). repeat split.
  - unfold uint_text. set (ds := map _ _). pose proof (zlen_nonneg ds).
    by replace (Z.to_nat (0 - zlen ds)) with 0%nat by lia.
  - apply List.Forall_rev, le_digits_range. lia.
  - apply value_of_rev_digits; [lia|]. split; [lia|]. apply Z.lt_le_trans with (2 ^ 64); [lia|].
    apply (Z.pow_le_mono_l 2 base 64). lia.
  - rewrite length_rev. cbn [le_digits length]. lia.
  - rewrite length_rev. apply le_digits_short; [lia| |lia]. split; [lia|].
    apply Z.lt_le_trans with (10 ^ 20); [lia|]. apply (Z.pow_le_mono_l 10 base 20). lia.
Qed.

Lemma digits_nonzero base ds :
  2 <= base <= 36 -> Forall (fun d => 0 <= d < base) ds -> Forall (fun c => c <> 0) (map digit_char ds).
Proof.
  intros Hb Hd. apply Forall_map. eapply Forall_impl; [exact Hd|]. cbn. intros d Hdr.
  pose proof (digit_char_range d ltac:(lia)). lia.
Qed.

(** [vsnprintf] of one conversion whose text fits. *)
Lemma vsnprintf_conv fuel m str size fmt n letter out :
  str <> NULL -> 22 < size < 2 ^ 31 -> (forall x, fmt <= x <= fmt + 3 -> outside str size x) ->
  (32 < fuel)%nat -> conv_ok false [] letter ->
  render true [Conv false false [] true letter] [VNum n] = Some out -> (length out <= 22)%nat ->
  Forall (fun c => c <> 0) out -> cstr m fmt [37; 108; letter] ->
  exists m', vsnprintf fuel m str size fmt [n] = Some (m', zlen out) /\ cstr m' str out.
Proof.
  intros Hstr Hsize Hsep Hfuel Hok Hr Hlen Hnz Hc.
  destruct (vsnprintf_text 0 fuel m str size fmt [Conv false false [] true letter] [n] [VNum n] out
    Hstr ltac:(lia) ltac:(by split) Hc Hsep ltac:(by repeat constructor) Hr ltac:(cbn; lia))
    as (m' & E & Hm' & _).
  rewrite take_ge in * by lia. exists m'. split; [exact E|].
  apply (cstr_ext (stored m str out)); [intros; apply Hm'|by apply stored_cstr].
Qed.

(** ** A call with given strings *)

(** The strings of an argument list laid out from [a] on: the memory, the words to
    pass and the first free address. *)
Fixpoint place_args (m : mem) (a : Z) (args : list value) : mem * list Z * Z :=
  match args with
  | [] => (m, [], a)
  | VNum n :: args => let '(m, ws, e) := place_args m a args in (m, n :: ws, e)
  | VStr t :: args =>
      let '(m, ws, e) := place_args (stored m a t) (a + zlen t + 1) args in (m, a :: ws, e)
  end.

(** What [vsnprintf(buf, size, fmt, args...)] leaves in [buf], up to the terminator. *)
Definition format_text (size : Z) (fmt : list Z) (args : list value) : option (list Z) :=
  let '(m, ws, buf) := place_args (literal fmt) (zlen fmt + 1) args in
  match vsnprintf (Z.to_nat (2 * buf)) m buf size 0 ws with
  | None => None
  | Some (m', n) => Some (map m' (seqZ buf n))
  end.

Definition value_ok (v : value) : Prop :=
  match v with VNum _ => True | VStr t => Forall (fun c => c <> 0) t end.

Lemma place_args_ok args m a m' ws e :
  0 < a -> Forall value_ok args -> place_args m a args = (m', ws, e) ->
  a <= e /\ (forall x, x < a -> m' x = m x) /\
  Forall2 (fun w v => match v with VNum n => w = n | VStr t =>
    w <> NULL /\ cstr m' w t /\ 0 <= w /\ w + zlen t < e end) ws args.
Proof.
  intros Ha Hok. revert m a m' ws e Ha. induction Hok as [|v args Hv Hok IH]; intros m a m' ws e Ha E.
  - injection E as <- <- <-. split; [lia|]. by split.
  - destruct v as [n|t]; cbn [place_args] in E.
    + destruct (place_args m a args) as [[m1 ws1] e1] eqn:E1. injection E as <- <- <-.
      destruct (IH _ _ _ _ _ Ha E1) as (H1 & H2 & H3). split; [done|]. split; [done|]. by constructor.
    + pose proof (zlen_nonneg t).
      destruct (place_args (stored m a t) (a + zlen t + 1) args) as [[m1 ws1] e1] eqn:E1.
      injection E as <- <- <-. destruct (IH _ (a + zlen t + 1) _ _ _ ltac:(lia) E1) as (H1 & H2 & H3).
      split; [lia|]. split.
      { intros x Hx. rewrite H2 by lia. unfold stored. by mem_cases. }
      constructor; [|done]. unfold NULL. split; [lia|]. split; [|lia].
      apply (cstr_ext (stored m a t)); [intros x Hx; apply H2; lia|by apply stored_cstr].
Qed.

Lemma map_stored m p t : map (stored m p t) (seqZ p (zlen t)) = t.
Proof.
  pose proof (zlen_nonneg t). apply (list_eq_same_length _ _ (length t)); [done| |].
  - rewrite length_map, length_seqZ. unfold zlen. lia.
  - intros i x y Hi Hx Hy. rewrite list_lookup_fmap, lookup_seqZ_lt in Hx by (unfold zlen; lia).
    cbn in Hx. injection Hx as <-. unfold stored, zlen in *. mem_cases.
    replace (p + Z.of_nat i - p) with (Z.of_nat i) by lia. unfold aget. rewrite Nat2Z.id.
    by apply list_lookup_total_correct.
Qed.

(** What a call with strings at distinct places prints is what its format means. *)
Lemma format_text_render size l args out :
  0 < size < 2 ^ 31 -> fmt_ok l -> Forall (fun c => c <> 0) (fmt_text l) -> Forall value_ok args ->
  render true l args = Some out ->
  format_text size (fmt_text l) args = Some (take (Z.to_nat (size - 1)) out).
Proof.
  intros Hsize Hl Hnz Hargs Hr. unfold format_text. pose proof (zlen_nonneg (fmt_text l)).
  destruct (place_args _ _ _) as [[m ws] buf] eqn:E.
  destruct (place_args_ok _ _ (zlen (fmt_text l) + 1) _ _ _ ltac:(lia) Hargs E) as (Hbuf & Hm & Hws).
  destruct (vsnprintf_text (Z.to_nat buf) (Z.to_nat (2 * buf)) m buf size 0 l ws args out)
    as (m' & Ev & Hm' & _); try done.
  - unfold NULL. lia.
  - apply cstr_intro; [|done|].
    + intros i Hi. rewrite Hm by lia. unfold literal. by mem_cases.
    + rewrite Hm by lia. unfold literal. by mem_cases.
  - intros x Hx. unfold outside. lia.
  - eapply Forall2_impl; [exact Hws|]. intros w [n|t]; [done|]. intros (H1 & H2 & H3 & H4).
    pose proof (zlen_nonneg t). split; [done|]. split; [|unfold zlen in *; lia].
    split; [exact H2|]. intros x Hx. unfold outside. lia.
  - unfold zlen in *. lia.
  - rewrite Ev. f_equal. rewrite <- (map_stored m buf (take _ out)) at 2.
    apply map_ext. exact Hm'.
Qed.

(** * Properties *)

(** C11 [printk] prints what its format means.  A message above the console's
    level changes nothing: it is not in the log either.  Any other one is appended to the log, of which the
    newest 16384 characters are kept in order, and goes to the console; [dmesg]
    then stores the first [size - 1] characters of the log, oldest first, with a
    terminator and touches nothing else, and [dmesg_clear] empties the log. *)
Theorem printk_appends_to_log (N fuel : nat) (m : mem) (k : log) (fmt : Z) (level : option Z)
    (l : list piece) (ws : list Z) (vs : list value) (out : list Z)
    (Hk : log_ok k) (Hfmt : fmt_ok l) (Hm : cstr m fmt (kern level ++ fmt_text l))
    (Hlevel : level = None -> ~ (m fmt = 60 /\ m (fmt + 2) = 62))
    (Hargs : args_at (fun _ => True) N m ws vs) (Hout : render false l vs = Some out)
    (Hroom : log_head k + zlen out < 2 ^ 64) (Hfuel : (length (fmt_text l) + N < fuel)%nat) :
  (console_loglevel k < level_of level -> printk fuel m k fmt ws = Some k) /\
  (level_of level <= console_loglevel k ->
   exists k', printk fuel m k fmt ws = Some k' /\ log_ok k' /\
     log_text k' = newest (Z.to_nat LOG_BUF_SIZE) (log_text k ++ out) /\
     sink_out k' = sent k out /\ console_loglevel k' = console_loglevel k /\
     (forall buf size, buf <> NULL -> 0 < size ->
        let t := take (Z.to_nat (size - 1)) (log_text k') in
        exists m', dmesg k' m buf size = (m', zlen t) /\ forall x, m' x = stored m buf t x) /\
     log_text (dmesg_clear k') = []).
Proof.
  destruct (log_level_kern m fmt level (fmt_text l) Hm Hlevel) as (p & E & Hp).
  unfold printk, vprintk. rewrite E. split; intros Hl.
  { by destruct (Z.ltb_spec (console_loglevel k) (level_of level)); [|lia]. }
  destruct (Z.ltb_spec (console_loglevel k) (level_of level)); [lia|].
  exists (foldl fmt_putc k out).
  destruct (put_log k out Hk Hroom) as (H1 & H2 & H3 & H4 & H5 & H6).
  split; [|do 4 (split; [done|]); split; [|done]].
  - apply (fmt_loop_text (fun _ => m) fmt_putc false (fun _ => True) (fun _ => True)
      ltac:(done) N fuel k p l ws vs out); try done.
  - intros buf size Hb Hs. by apply dmesg_text.
Qed.

(** C22 [vsnprintf] stores the text of its format, cut to [size - 1] characters,
    with a terminator, into the buffer and never writes outside of it; its result
    is the number of characters stored.  Without a buffer it does nothing. *)
Theorem vsnprintf_outcome (N fuel : nat) (m : mem) (str size fmt : Z)
    (l : list piece) (ws : list Z) (vs : list value) (out : list Z)
    (Hsize : 0 <= size < 2 ^ 31) (Hfmt : fmt_ok l) (Hm : cstr m fmt (fmt_text l))
    (Hsep : forall x, fmt <= x <= fmt + zlen (fmt_text l) -> outside str size x)
    (Hargs : args_at (outside str size) N m ws vs) (Hout : render true l vs = Some out)
    (Hfuel : (length (fmt_text l) + N < fuel)%nat) :
  if (str =? NULL) || (size =? 0) then vsnprintf fuel m str size fmt ws = Some (m, 0) else
  let t := take (Z.to_nat (size - 1)) out in
  exists m', vsnprintf fuel m str size fmt ws = Some (m', zlen t) /\
    (forall x, m' x = stored m str t x) /\
    (forall x, outside str size x -> m' x = m x).
Proof.
  destruct ((str =? NULL) || (size =? 0)) eqn:E0.
  { unfold vsnprintf. by rewrite E0. }
  apply orb_false_iff in E0 as [?%Z.eqb_neq ?%Z.eqb_neq].
  apply (vsnprintf_text N fuel m str size fmt l ws vs out); done || lia.
Qed.

(** Numbers survive printing and parsing: what ["%lu"] prints into a buffer of at
    least 23 bytes, [strtoul] reads back in base 10, and what ["%lx"] prints is
    read back by the version of [strtoul] that skips a prefix (stdlib.c).  The
    version the kernel links (string.c) stops behind the 0 of the ["0x"] that
    [vsnprintf] adds and returns 0. *)
Theorem sprintf_parse_round_trip (fuel : nat) (m : mem) (str size fmt n : Z)
    (Hn : 0 <= n < 2 ^ 64) (Hsize : 22 < size < 2 ^ 31) (Hstr : str <> NULL)
    (Hsep : forall x, fmt <= x <= fmt + 3 -> outside str size x) (Hfuel : (32 < fuel)%nat) :
  (cstr m fmt (chars "%lu") ->
   exists m' len, vsnprintf fuel m str size fmt [n] = Some (m', len) /\
     strtoul fuel m' str 10 = Some (n, str + len)) /\
  (cstr m fmt (chars "%lx") ->
   exists m' len, vsnprintf fuel m str size fmt [n] = Some (m', len) /\
     strtoul_weak fuel m' str 16 = Some (n, str + len) /\
     strtoul fuel m' str 16 = Some (0, str + 1)).
Proof.
  split; intros Hc.
  - destruct (digit_text 10 n ltac:(lia) Hn) as (ds & E & Hds & Hv & Hlen).
    destruct (vsnprintf_conv fuel m str size fmt n 117 (map digit_char ds)) as (m' & Ev & Hm'); try done.
    + cbn. by rewrite u64_id, E, app_nil_r.
    + rewrite length_map. lia.
    + by apply (digits_nonzero 10).
    + exists m', (zlen (map digit_char ds)). split; [done|]. unfold strtoul.
      destruct (digits_first m' str ds 10 ltac:(lia) Hds Hm') as (Hb & _).
      rewrite skip_blank_stop by (done || lia).
      rewrite (strtoul_digits_run m' 10 ds) by (done || lia). rewrite Hv. unfold zlen.
      by rewrite length_map.
  - destruct (digit_text 16 n ltac:(lia) Hn) as (ds & E & Hds & Hv & Hlen).
    destruct (vsnprintf_conv fuel m str size fmt n 120 (48 :: 120 :: map digit_char ds))
      as (m' & Ev & Hm'); try done.
    + cbn. rewrite u64_id, E, app_nil_r by done. done.
    + cbn [length]. rewrite length_map. lia.
    + repeat constructor; [done..|]. by apply (digits_nonzero 16).
    + destruct Hm' as (H0 & _ & H1 & _ & Hm'). exists m', (zlen (48 :: 120 :: map digit_char ds)).
      split; [done|]. unfold strtoul_weak, strtoul.
      rewrite skip_blank_stop by (by rewrite ?H0 || lia). rewrite H0, H1. cbn [Z.eqb Pos.eqb andb orb]. split.
      * replace (str + 2) with (str + 1 + 1) by lia.
        rewrite (strtoul_digits_run m' 16 ds) by (done || lia). rewrite Hv, !zlen_cons. unfold zlen.
        rewrite length_map. do 2 f_equal. lia.
      * destruct fuel as [|[|fuel]]; [lia..|]. cbn [strtoul_digits]. rewrite H0.
        change (digit_of 48) with (Some 0). cbn [Z.leb]. rewrite H1. done.
Qed.

(** Where the formatter departs from its description: a width puts its spaces
    between the sign and the digits, [-] does not align to the left, the two
    formatters print [%x] differently, a second [l] is taken for the letter and
    prints no number, and a format that ends inside a conversion
    is read on behind its end. *)
Theorem formatter_quirks :
  let print hex fmt args :=
    fmt_loop (fun _ => literal fmt) (fun l c => l ++ [c]) hex 64 [] 0 args in
  print false (chars "[%5d]") [-7] = Some (chars "[-   7]") /\
  print false (chars "[%-5d]") [42] = Some (chars "[   42]") /\
  print false (chars "%x") [255] = Some (chars "ff") /\
  print true (chars "%x") [255] = Some (chars "0xff") /\
  print false (chars "%llx") [255] = Some (chars "%lx") /\
  print false (chars "%5l" ++ 0 :: chars "AB") [] = Some (37 :: 0 :: chars "AB").
Proof. repeat split; vm_compute; reflexivity. Qed.

(** * Witnesses *)

(** ["n=%3d %s"] at 100 with a level prefix, ["abc"] at 1000. *)
Definition demo_pieces : list piece :=
  [Lit 110; Lit 61; Conv false false [3] false 100; Lit 32; Conv false false [] false 115].
Definition demo_strings (level : option Z) : mem :=
  stored (stored (fun _ => 0) 1000 (chars "abc")) 100 (kern level ++ fmt_text demo_pieces).
Definition demo_values : list value := [VNum (-7); VStr (chars "abc")].

Lemma demo_pieces_ok : fmt_ok demo_pieces.
Proof.
  repeat split; try done; constructor; [lia|constructor].
Qed.

Lemma demo_args (P : Z -> Prop) level :
  (forall x, 1000 <= x <= 1003 -> P x) ->
  args_at P 3 (demo_strings level) [-7; 1000] demo_values.
Proof.
  intros HP. constructor; [done|]. constructor; [|constructor].
  split; [done|]. split; [|cbn; lia]. split; [|exact HP].
  destruct level; vm_compute; repeat split; discriminate.
Qed.

Lemma printk_appends_to_log_witness :
  exists k', printk 100 (demo_strings (Some 6)) log_boot 100 [-7; 1000] = Some k' /\
    log_text k' = newest (Z.to_nat LOG_BUF_SIZE) (log_text log_boot ++ chars "n=- 7 abc").
Proof.
  destruct (printk_appends_to_log 3 100 (demo_strings (Some 6)) log_boot 100 (Some 6) demo_pieces
    [-7; 1000] demo_values (chars "n=- 7 abc")) as [_ H].
  - repeat split; vm_compute; discriminate.
  - exact demo_pieces_ok.
  - vm_compute. repeat split; discriminate.
  - discriminate.
  - by apply demo_args.
  - vm_compute. reflexivity.
  - vm_compute. reflexivity.
  - vm_compute. lia.
  - destruct H as (k' & E & _ & Ht & _); [vm_compute; discriminate|]. exists k'. by split.
Defined.

Lemma vsnprintf_outcome_witness :
  exists m', vsnprintf 100 (demo_strings None) 5000 6 100 [-7; 1000] = Some (m', 5) /\
    forall x, m' x = stored (demo_strings None) 5000 (chars "n=- 7") x.
Proof.
  pose proof (vsnprintf_outcome 3 100 (demo_strings None) 5000 6 100 demo_pieces
    [-7; 1000] demo_values (chars "n=- 7 abc")) as H.
  destruct H as (m' & E & Hm' & _).
  - lia.
  - exact demo_pieces_ok.
  - vm_compute. repeat split; discriminate.
  - intros x Hx. change (zlen (fmt_text demo_pieces)) with 8 in Hx. unfold outside. lia.
  - apply demo_args. intros x Hx. unfold outside. lia.
  - vm_compute. reflexivity.
  - vm_compute. lia.
  - exists m'. split; [exact E|exact Hm'].
Defined.

Lemma sprintf_parse_round_trip_witness :
  exists m' len, vsnprintf 40 (stored (fun _ => 0) 100 (chars "%lu")) 5000 32 100 [2 ^ 64 - 1] = Some (m', len) /\
    strtoul 40 m' 5000 10 = Some (2 ^ 64 - 1, 5000 + len).
Proof.
  apply (sprintf_parse_round_trip 40 (stored (fun _ => 0) 100 (chars "%lu")) 5000 32 100 (2 ^ 64 - 1)).
  - lia.
  - lia.
  - discriminate.
  - intros x Hx. unfold outside. lia.
  - lia.
  - vm_compute. repeat split; discriminate.
Defined.
