(* ===== verification/Security.v ===== *)
(** Access control, sandboxes and mitigations ([src/security.c]).

    One structure, [g_security], holds the state of the subsystem; every function
    takes it and returns it.  A file name, a sandbox name or a message is the list
    of its characters.  The clock enters as arguments: [uptime] is what
    [timer_get_uptime_seconds] answers during a call, [ticks] what
    [timer_get_ticks] answers.  Messages of the audit log are made by the formatter
    of [Printk].  Printing is left out, and with it the functions that only print. *)
From Stdlib Require Import Ascii String.
From S2P Require Import Prelude Pmm CString Printk.
Open Scope Z_scope.

Definition SEC_CTX_INTERNAL : Z := 2.
Definition SEC_CTX_CONFIDENTIAL : Z := 3.
Definition SEC_CTX_MAX : Z := 6.
Definition SEC_DOMAIN_KERNEL : Z := 0.
Definition SEC_DOMAIN_SYSTEM : Z := 1.
Definition SEC_DOMAIN_SERVICE : Z := 2.
Definition SEC_DOMAIN_APP : Z := 3.
Definition SEC_DOMAIN_ISOLATED : Z := 4.
Definition SEC_DOMAIN_PEN_TEST : Z := 5.
Definition SEC_DOMAIN_MAX : Z := 6.
Definition MAC_PERM_READ : Z := 0x01.
Definition MAC_PERM_WRITE : Z := 0x02.
Definition MAC_PERM_EXEC : Z := 0x04.
Definition MAC_PERM_ADMIN : Z := 0x80.
Definition SEC_TYPE_PROCESS : Z := 1.
Definition SEC_TYPE_FILE : Z := 2.
Definition SEC_TYPE_SOCKET : Z := 3.
Definition MAC_FLAG_SANDBOXED : Z := 0x02.
Definition MAC_FLAG_NO_NETWORK : Z := 0x08.
Definition CAP_BIT (i : Z) : Z := Z.shiftl 1 i.
Definition CAP_KILL : Z := CAP_BIT 5.
Definition CAP_NET_BIND_SERVICE : Z := CAP_BIT 9.
Definition CAP_NET_ADMIN : Z := CAP_BIT 11.
Definition CAP_NET_RAW : Z := CAP_BIT 12.
Definition CAP_SYS_ADMIN : Z := CAP_BIT 13.
Definition CAP_SYS_BOOT : Z := CAP_BIT 14.
Definition CAP_SYS_CHROOT : Z := CAP_BIT 15.
Definition CAP_SYS_NICE : Z := CAP_BIT 17.
Definition CAP_SYS_PTRACE : Z := CAP_BIT 19.
Definition CAP_SYS_RAWIO : Z := CAP_BIT 20.
Definition CAP_SYS_RESOURCE : Z := CAP_BIT 21.
Definition CAP_SYS_TIME : Z := CAP_BIT 22.
Definition CAP_AUDIT_CONTROL : Z := CAP_BIT 26.
Definition CAP_AUDIT_WRITE : Z := CAP_BIT 27.
Definition CAP_PEN_TEST : Z := CAP_BIT 30.
Definition all_of (l : list Z) : Z := foldr Z.lor 0 l.
Definition CAPS_DOMAIN_KERNEL : Z := 0xFFFFFFFF.
Definition CAPS_DOMAIN_SYSTEM : Z := all_of
  [CAP_NET_ADMIN; CAP_NET_RAW; CAP_SYS_ADMIN; CAP_SYS_BOOT; CAP_SYS_CHROOT; CAP_SYS_NICE;
   CAP_SYS_RESOURCE; CAP_AUDIT_CONTROL; CAP_AUDIT_WRITE].
Definition CAPS_DOMAIN_SERVICE : Z := all_of [CAP_NET_BIND_SERVICE; CAP_NET_RAW; CAP_SYS_TIME; CAP_KILL].
Definition CAPS_DOMAIN_APP : Z := CAP_NET_BIND_SERVICE.
Definition CAPS_DOMAIN_ISOLATED : Z := 0.
Definition CAPS_DOMAIN_PEN_TEST : Z := all_of
  [CAP_NET_RAW; CAP_NET_ADMIN; CAP_SYS_PTRACE; CAP_SYS_RAWIO; CAP_PEN_TEST].
Definition VB_MAGIC : Z := 0x56424F4F.
Definition VB_VERSION : Z := 1.
Definition BOOT_STATE_GREEN : Z := 0.
Definition BOOT_STATE_YELLOW : Z := 1.
Definition BOOT_STATE_ORANGE : Z := 2.
Definition BOOT_STATE_RED : Z := 3.
Definition BOOT_STATE_EIO : Z := 4.
Definition SANDBOX_MAX : Z := 64.
Definition SB_NAME_LEN : Z := 64.
Definition SB_MAX_RULES : Z := 32.
Definition SB_RULE_ALLOW : Z := 1.
Definition SB_RULE_DENY : Z := 2.
Definition SB_RULE_READ_ONLY : Z := 3.
Definition SB_RULE_LOG : Z := 4.
Definition SB_TARGET_FILE : Z := 1.
Definition ASLR_STACK_BITS : Z := 16.
Definition ASLR_MMAP_BITS : Z := 14.
Definition ASLR_PIE_BITS : Z := 18.
Definition CFI_MAX_SHADOW_ENTRIES : Z := 4096.
Definition STACK_CANARY_VALUE : Z := 0xDEADBEEFCAFEBAB0.
Definition AUDIT_MAX_ENTRIES : Z := 4096.
Definition AUDIT_MSG_LEN : Z := 256.
Definition AUDIT_MAC_VIOLATION : Z := 2.
Definition AUDIT_FILE_ACCESS : Z := 4.
Definition AUDIT_SECURITY : Z := 7.

(** * State *)

Record mac_label := mk_label {
  lb_domain : Z; lb_context : Z; lb_type : Z; lb_caps : Z; lb_flags : Z
}.
Record mac_policy := mk_policy { subject_domain : Z; object_domain : Z; permissions : Z }.
Record vb_partition := mk_partition { vp_name : list Z; vp_hash : list Z; vp_size : Z; vp_rollback_index : Z }.
Record vb_header := mk_vb_header {
  vb_magic : Z; vb_version : Z; vb_partition_count : Z; vb_pubkey : list Z; vb_partitions : list vb_partition
}.
Record sandbox_rule := mk_rule { action : Z; target_type : Z; target : list Z }.
Record sandbox_limits := mk_limits {
  cpu_time_ms : Z; memory_max_bytes : Z; max_open_files : Z; max_processes : Z;
  max_net_bandwidth_kbps : Z; allowed_syscalls : list Z
}.
Record sandbox := mk_sandbox {
  sb_id : Z; sb_name : list Z; sb_owner : Z; sb_active : Z; sb_label : mac_label;
  sb_rules : list sandbox_rule; sb_rule_count : Z; sb_limits : sandbox_limits
}.
Record aslr_state := mk_aslr {
  aslr_enabled : Z; stack_randomization : Z; mmap_randomization : Z; pie_randomization : Z;
  brute_force_detection : Z
}.
Record cfi_entry := mk_cfi_entry { function_start : Z; function_end : Z }.
Record cfi_state := mk_cfi {
  cfi_enabled : Z; shadow_stack : list cfi_entry; shadow_count : Z; violations : Z; strict_mode : Z
}.
Record audit_entry := mk_entry {
  ae_timestamp : Z; ae_type : Z; ae_pid : Z; ae_uid : Z; ae_result : Z; ae_message : list Z
}.

(** [g_security], and the static seed of the random numbers. *)
Record security := mk_security {
  default_labels : list mac_label;
  policies : list mac_policy;
  policy_count : Z;
  mac_enforcing : Z;
  vb : vb_header;
  boot_state : Z;
  rollback_index : Z;
  sandboxes : list sandbox;
  sandbox_count : Z;
  aslr : aslr_state;
  cfi : cfi_state;
  nx_enabled : Z;
  system_canary : Z;
  audit_ring : list audit_entry;
  audit_head : Z;
  audit_count : Z;
  audit_enabled : Z;
  security_level : Z;
  aslr_prng_seed : Z
}.
#[export] Instance eta_label : Eta mac_label := fun l =>
  mk_label (lb_domain l) (lb_context l) (lb_type l) (lb_caps l) (lb_flags l).
#[export] Instance eta_sandbox : Eta sandbox := fun b =>
  mk_sandbox (sb_id b) (sb_name b) (sb_owner b) (sb_active b) (sb_label b) (sb_rules b)
    (sb_rule_count b) (sb_limits b).
#[export] Instance eta_vb_header : Eta vb_header := fun h =>
  mk_vb_header (vb_magic h) (vb_version h) (vb_partition_count h) (vb_pubkey h) (vb_partitions h).
#[export] Instance eta_cfi : Eta cfi_state := fun c =>
  mk_cfi (cfi_enabled c) (shadow_stack c) (shadow_count c) (violations c) (strict_mode c).
#[export] Instance eta_aslr : Eta aslr_state := fun a =>
  mk_aslr (aslr_enabled a) (stack_randomization a) (mmap_randomization a) (pie_randomization a)
    (brute_force_detection a).
#[export] Instance eta_security : Eta security := fun s =>
  mk_security (default_labels s) (policies s) (policy_count s) (mac_enforcing s) (vb s) (boot_state s)
    (rollback_index s) (sandboxes s) (sandbox_count s) (aslr s) (cfi s) (nx_enabled s)
    (system_canary s) (audit_ring s) (audit_head s) (audit_count s) (audit_enabled s)
    (security_level s) (aslr_prng_seed s).

(** All zero, as [memset] leaves them. *)
Definition zero_label : mac_label := mk_label 0 0 0 0 0.
Definition zero_policy : mac_policy := mk_policy 0 0 0.
Definition zero_partition : vb_partition := mk_partition [] (replicate 32 0) 0 0.
Definition zero_header : vb_header := mk_vb_header 0 0 0 (replicate 32 0) (replicate 16 zero_partition).
Definition zero_rule : sandbox_rule := mk_rule 0 0 [].
Definition zero_limits : sandbox_limits := mk_limits 0 0 0 0 0 (replicate 16 0).
Definition zero_sandbox : sandbox :=
  mk_sandbox 0 [] 0 0 zero_label (replicate (Z.to_nat SB_MAX_RULES) zero_rule) 0 zero_limits.
Definition zero_cfi_entry : cfi_entry := mk_cfi_entry 0 0.
Definition zero_cfi : cfi_state := mk_cfi 0 (replicate (Z.to_nat CFI_MAX_SHADOW_ENTRIES) zero_cfi_entry) 0 0 0.
Definition zero_entry : audit_entry := mk_entry 0 0 0 0 0 [].
Definition zero_security (seed : Z) : security :=
  mk_security (replicate (Z.to_nat SEC_DOMAIN_MAX) zero_label) (replicate 128 zero_policy) 0 0 zero_header 0 0
    (replicate (Z.to_nat SANDBOX_MAX) zero_sandbox) 0 (mk_aslr 0 0 0 0 0) zero_cfi 0 0
    (replicate (Z.to_nat AUDIT_MAX_ENTRIES) zero_entry) 0 0 0 0 seed.
#[export] Instance label_inhabited : Inhabited mac_label := populate zero_label.
#[export] Instance policy_inhabited : Inhabited mac_policy := populate zero_policy.
#[export] Instance partition_inhabited : Inhabited vb_partition := populate zero_partition.
#[export] Instance rule_inhabited : Inhabited sandbox_rule := populate zero_rule.
#[export] Instance sandbox_inhabited : Inhabited sandbox := populate zero_sandbox.
#[export] Instance cfi_entry_inhabited : Inhabited cfi_entry := populate zero_cfi_entry.
#[export] Instance entry_inhabited : Inhabited audit_entry := populate zero_entry.

(** * Audit log *)

Definition audit_init (s : security) : security :=
  s <| audit_ring := replicate (Z.to_nat AUDIT_MAX_ENTRIES) zero_entry |>
    <| audit_head := 0 |> <| audit_count := 0 |> <| audit_enabled := 1 |>.

(** The message field after [vsnprintf] (the formats of this file never fail: [format_text_render]). *)
Definition audit_message (fmt : string) (args : list value) : list Z :=
  default [] (format_text AUDIT_MSG_LEN (chars fmt) args).

Section security_calls.
(** What [timer_get_uptime_seconds] answers. *)
Context (uptime : Z).

Definition audit_log (s : security) (type pid uid result : Z) (fmt : string) (args : list value) : security :=
  if audit_enabled s =? 0 then s else
  let entry := mk_entry uptime type pid uid (u32 result) (audit_message fmt args) in
  let s := s <| audit_ring := (audit_ring s).[audit_head s <- entry] |> in
  let s := s <| audit_head := u32 (audit_head s + 1) mod AUDIT_MAX_ENTRIES |> in
  if audit_count s <? AUDIT_MAX_ENTRIES then s <| audit_count := u32 (audit_count s + 1) |> else s.

(** [timer_get_uptime_seconds] does not matter to these. *)
Definition audit_enable (s : security) (enable : Z) : security := s <| audit_enabled := enable |>.
Definition audit_clear (s : security) : security :=
  s <| audit_head := 0 |> <| audit_count := 0 |>
    <| audit_ring := replicate (Z.to_nat AUDIT_MAX_ENTRIES) zero_entry |>.

(** The entries [audit_print_recent] prints, in this order. *)
Definition audit_recent (s : security) (count : Z) : list audit_entry :=
  let count := if (count =? 0) || (audit_count s <? count) then audit_count s else count in
  map (fun i => (audit_ring s).[u32 (u32 (audit_head s - 1 - i) + AUDIT_MAX_ENTRIES) mod AUDIT_MAX_ENTRIES])
    (seqZ 0 count).

Definition audit_type_name (type : Z) : string :=
  if type =? 1 then "syscall" else if type =? 2 then "mac-violation" else if type =? 3 then "auth"
  else if type =? 4 then "file-access" else if type =? 5 then "network" else if type =? 6 then "process"
  else if type =? 7 then "security" else if type =? 8 then "cap-change" else "unknown".

(** * Mandatory access control *)

Definition mac_domain_name (domain : Z) : string :=
  if domain =? 0 then "kernel" else if domain =? 1 then "system" else if domain =? 2 then "service"
  else if domain =? 3 then "app" else if domain =? 4 then "isolated" else if domain =? 5 then "pentest"
  else "unknown".
Definition mac_context_name (ctx : Z) : string :=
  if ctx =? 0 then "unclassified" else if ctx =? 1 then "public" else if ctx =? 2 then "internal"
  else if ctx =? 3 then "confidential" else if ctx =? 4 then "secret" else if ctx =? 5 then "top-secret"
  else "unknown".

(** The label after [mac_label_init(label, domain, context)], for a label that is
    not one of [default_labels]. *)
Definition mac_label_init (s : security) (domain context : Z) : mac_label :=
  mk_label domain context SEC_TYPE_PROCESS
    (if domain <? SEC_DOMAIN_MAX then lb_caps (default_labels s).[domain] else 0) 0.

Definition domain_caps (d : Z) : Z :=
  if d =? SEC_DOMAIN_KERNEL then CAPS_DOMAIN_KERNEL
  else if d =? SEC_DOMAIN_SYSTEM then CAPS_DOMAIN_SYSTEM
  else if d =? SEC_DOMAIN_SERVICE then CAPS_DOMAIN_SERVICE
  else if d =? SEC_DOMAIN_APP then CAPS_DOMAIN_APP
  else if d =? SEC_DOMAIN_ISOLATED then CAPS_DOMAIN_ISOLATED
  else if d =? SEC_DOMAIN_PEN_TEST then CAPS_DOMAIN_PEN_TEST else 0.

(** The loop of [mac_init]: the call of [mac_label_init] clears the default label
    before it reads its capabilities back from it. *)
Fixpoint init_labels (n : nat) (d : Z) (s : security) : security :=
  match n with
  | O => s
  | S n' =>
      let s := s <| default_labels := (default_labels s).[d <- zero_label] |> in
      let label := mac_label_init s d SEC_CTX_INTERNAL in
      let label := label <| lb_caps := domain_caps d |> in
      init_labels n' (d + 1) (s <| default_labels := (default_labels s).[d <- label] |>)
  end.
Definition mac_init (s : security) : security :=
  let s := init_labels (Z.to_nat SEC_DOMAIN_MAX) 0 s in
  s <| policy_count := 0 |> <| mac_enforcing := 1 |>.

Definition has (x mask : Z) : bool := negb (Z.land x mask =? 0).

Definition find_policy (s : security) (subj obj : Z) : option mac_policy :=
  (fun i => (policies s).[i]) <$>
  find_from (fun i => (subject_domain (policies s).[i] =? subj) && (object_domain (policies s).[i] =? obj))
    (Z.to_nat (policy_count s)) 0.

(** The decision of [mac_check_access] between two labels in enforcing mode. *)
Definition mac_decide (s : security) (subj obj : mac_label) (perm : Z) : bool :=
  if lb_domain subj =? SEC_DOMAIN_KERNEL then true
  else if has perm MAC_PERM_ADMIN && negb (has (lb_caps subj) CAP_SYS_ADMIN) then false
  else if (lb_type obj =? SEC_TYPE_FILE) && (lb_domain subj =? SEC_DOMAIN_ISOLATED) &&
          (lb_domain obj =? SEC_DOMAIN_SYSTEM) then false
  else if (lb_type obj =? SEC_TYPE_FILE) && (lb_domain subj =? SEC_DOMAIN_APP) &&
          (lb_domain obj =? SEC_DOMAIN_SYSTEM) && has perm MAC_PERM_WRITE then false
  else if (lb_type obj =? SEC_TYPE_SOCKET) && has (lb_flags subj) MAC_FLAG_NO_NETWORK then false
  else match find_policy s (lb_domain subj) (lb_domain obj) with
       | Some pol => Z.land (permissions pol) perm =? perm
       | None => (lb_domain subj =? lb_domain obj) || (perm =? MAC_PERM_READ)
       end.

Definition mac_check_access (s : security) (subj obj : option mac_label) (perm : Z) : security * Z :=
  if mac_enforcing s =? 0 then (s, 0) else
  match subj, obj with
  | Some subj, Some obj =>
      if mac_decide s subj obj perm then (s, 0)
      else (audit_log s AUDIT_MAC_VIOLATION 0 0 (-1) "MAC denied: domain=%d -> domain=%d perm=0x%x"
              [VNum (lb_domain subj); VNum (lb_domain obj); VNum perm], -1)
  | _, _ => (s, -1)
  end.

Definition mac_check_capability (pid cap : Z) : Z := if cap =? CAP_PEN_TEST then 0 else -1.

Definition mac_set_domain (s : security) (pid domain : Z) : security :=
  if SEC_DOMAIN_MAX <=? domain then s else
  audit_log s AUDIT_SECURITY pid 0 0 "MAC domain changed to %s" [VStr (chars (mac_domain_name domain))].
Definition mac_set_context (s : security) (pid context : Z) : security :=
  if SEC_CTX_MAX <=? context then s else
  audit_log s AUDIT_SECURITY pid 0 0 "MAC context changed to %s" [VStr (chars (mac_context_name context))].

Definition mac_add_policy (s : security) (subj obj perms : Z) : security :=
  if 128 <=? policy_count s then s else
  let s := s <| policies := (policies s).[policy_count s <- mk_policy subj obj perms] |> in
  let s := s <| policy_count := policy_count s + 1 |> in
  audit_log s AUDIT_SECURITY 0 0 0 "MAC policy added: %s -> %s (perms=0x%x)"
    [VStr (chars (mac_domain_name subj)); VStr (chars (mac_domain_name obj)); VNum perms].

Definition mac_load_default_policies (s : security) : security :=
  let s := mac_add_policy s SEC_DOMAIN_APP SEC_DOMAIN_KERNEL 0 in
  let s := mac_add_policy s SEC_DOMAIN_APP SEC_DOMAIN_SYSTEM MAC_PERM_READ in
  let s := mac_add_policy s SEC_DOMAIN_ISOLATED SEC_DOMAIN_SYSTEM 0 in
  let s := mac_add_policy s SEC_DOMAIN_PEN_TEST SEC_DOMAIN_SYSTEM (Z.lor MAC_PERM_READ MAC_PERM_EXEC) in
  let s := mac_add_policy s SEC_DOMAIN_SERVICE SEC_DOMAIN_KERNEL 0 in
  mac_add_policy s SEC_DOMAIN_SYSTEM SEC_DOMAIN_KERNEL MAC_PERM_READ.

Definition mac_set_enforcing (s : security) (enforcing : Z) : security :=
  let s := s <| mac_enforcing := enforcing |> in
  audit_log s AUDIT_SECURITY 0 0 0 "MAC mode changed to %s"
    [VStr (chars (if enforcing =? 0 then "PERMISSIVE" else "ENFORCING"))].

(** * Verified boot *)

Definition vb_init (s : security) : security :=
  s <| vb := zero_header <| vb_magic := VB_MAGIC |> <| vb_version := VB_VERSION |>
               <| vb_pubkey := map (fun i => Z.lxor i 0x55) (seqZ 0 32) |> |>
    <| boot_state := BOOT_STATE_ORANGE |> <| rollback_index := 0 |>.

(** [pkg_hash_sha256] of pkg.c: its eight accumulators. *)
Fixpoint hash_loop (data : list Z) (i : Z) (h : Z * Z * Z * Z) : Z * Z * Z * Z :=
  match data with
  | [] => h
  | b :: data' =>
      let '(h0, h1, h2, h3) := h in
      hash_loop data' (i + 1)
        (Z.lxor h0 (u32 (Z.shiftl b (i mod 4 * 8))), Z.lxor h1 (u32 (Z.shiftl b ((i + 1) mod 4 * 8))),
         Z.lor (u32 (Z.shiftl h2 1)) (Z.shiftr h2 31), u32 (h3 + b))
  end.
Definition be_bytes (h : Z) : list Z := [u8 (Z.shiftr h 24); u8 (Z.shiftr h 16); u8 (Z.shiftr h 8); u8 h].
Definition pkg_hash_sha256 (data : list Z) : list Z :=
  let '(h0, h1, h2, h3) := hash_loop data 0 (0x6a09e667, 0xbb67ae85, 0x3c6ef372, 0xa54ff53a) in
  let len := zlen data in
  be_bytes (u32 (h0 + len)) ++ be_bytes (u32 (h1 + len * 7)) ++ be_bytes (u32 (Z.lxor h2 (len * 13))) ++
  be_bytes (u32 (h3 + len * 17)) ++ be_bytes (u32 (Z.lxor 0x510e527f (len * 23))) ++
  be_bytes (u32 (0x9b05688c + len * 29)) ++ be_bytes (u32 (Z.lxor 0x1f83d9ab (len * 31))) ++
  be_bytes (u32 (0x5be0cd19 + len * 37)).

Definition vb_verify_partition (s : security) (name data : option (list Z)) : security * Z :=
  match name, data with
  | Some name, Some data =>
      if zlen data =? 0 then (s, -1) else
      match find_from (fun i => bool_decide (vp_name (vb_partitions (vb s)).[i] = name))
              (Z.to_nat (vb_partition_count (vb s))) 0 with
      | None => (s, -1)
      | Some i =>
          let part := (vb_partitions (vb s)).[i] in
          if negb (bool_decide (pkg_hash_sha256 data = vp_hash part)) then
            (s <| boot_state := BOOT_STATE_RED |>, -1)
          else if vp_rollback_index part <? rollback_index s then
            (s <| boot_state := BOOT_STATE_RED |>, -1)
          else (s, 0)
      end
  | _, _ => (s, -1)
  end.

(** The loop over the partitions has an empty body. *)
Definition vb_verify_chain (s : security) : security * Z :=
  if negb (vb_magic (vb s) =? VB_MAGIC) then (s <| boot_state := BOOT_STATE_RED |>, -1) else
  let s := s <| boot_state := BOOT_STATE_GREEN |> in
  (audit_log s AUDIT_SECURITY 0 0 0 "Boot chain verified, state=GREEN" [], 0).

Definition vb_state_name (state : Z) : list Z :=
  if state =? BOOT_STATE_GREEN then chars "GREEN (verified)"
  else if state =? BOOT_STATE_YELLOW then chars "YELLOW (custom key)"
  else if state =? BOOT_STATE_ORANGE then chars "ORANGE (unverified)"
  else if state =? BOOT_STATE_RED then 27 :: chars "[31mRED (FAILED)" ++ 27 :: chars "[0m"
  else if state =? BOOT_STATE_EIO then chars "EIO (I/O error)"
  else chars "unknown".
Definition vb_set_state (s : security) (state : Z) : security :=
  audit_log (s <| boot_state := state |>) AUDIT_SECURITY 0 0 0 "Boot state changed to %s"
    [VStr (vb_state_name state)].

(** * Sandboxes *)

Definition mod_sb (s : security) (i : Z) (f : sandbox -> sandbox) : security :=
  s <| sandboxes := (sandboxes s).[i <- f (sandboxes s).[i]] |>.
Definition active (s : security) (i : Z) : bool := negb (sb_active (sandboxes s).[i] =? 0).

(** The loop of [sandbox_init]. *)
Fixpoint init_sandboxes (n : nat) (i : Z) (s : security) : security :=
  match n with
  | O => s
  | S n' => init_sandboxes n' (i + 1) (mod_sb s i (fun _ => zero_sandbox <| sb_id := i |>))
  end.
Definition sandbox_init (s : security) : security :=
  (init_sandboxes (Z.to_nat SANDBOX_MAX) 0 s) <| sandbox_count := 0 |>.

(** [strncpy(rule->target, target, 255)] into a cleared field. *)
Definition sandbox_add_rule (s : security) (id action type : Z) (target : option (list Z)) : security * Z :=
  match target with
  | None => (s, -1)
  | Some target =>
      if SANDBOX_MAX <=? id then (s, -1) else
      if negb (active s id) then (s, -1) else
      if SB_MAX_RULES <=? sb_rule_count (sandboxes s).[id] then (s, -1) else
      (mod_sb s id (fun b =>
         b <| sb_rules := (sb_rules b).[sb_rule_count b <- mk_rule action type (take 255 target)] |>
           <| sb_rule_count := sb_rule_count b + 1 |>), 0)
  end.

(** The slot [id] from [memset] to the default limits. *)
Definition sandbox_setup (s : security) (id : Z) (name : list Z) (owner : Z) : security :=
  let s := mod_sb s id (fun _ => zero_sandbox <| sb_id := id |> <| sb_active := 1 |>
    <| sb_owner := owner |> <| sb_name := take 63 name |>) in
  let label := mac_label_init s SEC_DOMAIN_ISOLATED SEC_CTX_CONFIDENTIAL in
  let s := mod_sb s id (fun b => b <| sb_label :=
    label <| lb_flags := Z.lor MAC_FLAG_SANDBOXED MAC_FLAG_NO_NETWORK |> |>) in
  let s := mod_sb s id (fun b => b <| sb_rule_count := 0 |>) in
  let s := fst (sandbox_add_rule s id SB_RULE_DENY SB_TARGET_FILE (Some (chars "/"))) in
  let s := fst (sandbox_add_rule s id SB_RULE_ALLOW SB_TARGET_FILE (Some (chars "/dev/null"))) in
  let s := fst (sandbox_add_rule s id SB_RULE_ALLOW SB_TARGET_FILE (Some (chars "/dev/zero"))) in
  let s := fst (sandbox_add_rule s id SB_RULE_ALLOW SB_TARGET_FILE (Some (chars "/dev/random"))) in
  let s := fst (sandbox_add_rule s id SB_RULE_ALLOW SB_TARGET_FILE (Some (chars "/dev/urandom"))) in
  mod_sb s id (fun b => b <| sb_limits :=
    mk_limits 30000 (64 * 1024 * 1024) 64 4 0 (allowed_syscalls (sb_limits b)) |>).

Definition sandbox_create (s : security) (name : option (list Z)) (owner : Z) : security * Z :=
  match name with
  | None => (s, -1)
  | Some name =>
      match find_from (fun i => negb (active s i)) (Z.to_nat SANDBOX_MAX) 0 with
      | None => (s, -1)
      | Some id =>
          let s := sandbox_setup s id name owner in
          let s := s <| sandbox_count := u32 (sandbox_count s + 1) |> in
          (audit_log s AUDIT_SECURITY owner 0 0 "Sandbox created: %s (id=%d)" [VStr name; VNum id], id)
      end
  end.

Definition sandbox_destroy (s : security) (id : Z) : security :=
  if SANDBOX_MAX <=? id then s else
  if negb (active s id) then s else
  let s := mod_sb s id (fun b => b <| sb_active := 0 |>) in
  let s := s <| sandbox_count := u32 (sandbox_count s - 1) |> in
  audit_log s AUDIT_SECURITY (sb_owner (sandboxes s).[id]) 0 0 "Sandbox destroyed: %s (id=%d)"
    [VStr (sb_name (sandboxes s).[id]); VNum id].

Definition sandbox_apply (s : security) (id pid : Z) : security * Z :=
  if SANDBOX_MAX <=? id then (s, -1) else
  if negb (active s id) then (s, -1) else
  (audit_log s AUDIT_SECURITY pid 0 0 "Sandbox %d applied to PID %d" [VNum id; VNum pid], 0).

(** [cur] is what [current_pid] answers. *)
Definition sandbox_enter (s : security) (id cur : Z) : security * Z := sandbox_apply s id cur.

Definition sandbox_set_limits (s : security) (id : Z) (limits : option sandbox_limits) : security :=
  match limits with
  | None => s
  | Some limits =>
      if SANDBOX_MAX <=? id then s else
      if negb (active s id) then s else mod_sb s id (fun b => b <| sb_limits := limits |>)
  end.

(** What one rule says about an access; [None] when the next rule is tried.  The
    prefix test is [strncmp(target, rule->target, strlen(rule->target)) == 0]. *)
Inductive verdict := Allow | Deny | AllowLogged.
Definition rule_verdict (r : sandbox_rule) (type : Z) (path : list Z) (access : Z) : option verdict :=
  if negb (target_type r =? type) then None else
  if starts_with (target r) path then
    if action r =? SB_RULE_ALLOW then Some Allow
    else if action r =? SB_RULE_DENY then Some Deny
    else if action r =? SB_RULE_READ_ONLY then Some (if access =? MAC_PERM_READ then Allow else Deny)
    else if action r =? SB_RULE_LOG then Some AllowLogged
    else None
  else None.

Fixpoint rules_verdict (rules : list sandbox_rule) (type : Z) (path : list Z) (access : Z) : verdict :=
  match rules with
  | [] => Deny
  | r :: rules => default (rules_verdict rules type path access) (rule_verdict r type path access)
  end.

Definition sandbox_check_access (s : security) (id type : Z) (path : option (list Z)) (access : Z) : security * Z :=
  match path with
  | None => (s, -1)
  | Some path =>
      if SANDBOX_MAX <=? id then (s, -1) else
      if negb (active s id) then (s, 0) else
      let b := (sandboxes s).[id] in
      match rules_verdict (take (Z.to_nat (sb_rule_count b)) (sb_rules b)) type path access with
      | Allow => (s, 0)
      | AllowLogged => (audit_log s AUDIT_FILE_ACCESS 0 0 0 "Sandbox logged access: %s" [VStr path], 0)
      | Deny => (audit_log s AUDIT_MAC_VIOLATION 0 0 (-1) "Sandbox denied: type=%d target=%s access=0x%x"
                   [VNum type; VStr path; VNum access], -1)
      end
  end.

Definition sandbox_get (s : security) (id : Z) : option Z :=
  if (id <? SANDBOX_MAX) && active s id then Some id else None.

Definition sandbox_target_name (t : Z) : string :=
  if t =? 1 then "file" else if t =? 2 then "dir" else if t =? 3 then "net" else if t =? 4 then "syscall"
  else if t =? 5 then "cap" else "unknown".
Definition sandbox_action_name (a : Z) : string :=
  if a =? 1 then "allow" else if a =? 2 then "deny" else if a =? 3 then "read-only" else if a =? 4 then "log"
  else "unknown".

(** * Address space randomisation *)

(** xorshift64*: the new state and the number. *)
Definition xorshift (x : Z) : Z :=
  let x := Z.lxor x (Z.shiftr x 12) in
  let x := Z.lxor x (u64 (Z.shiftl x 25)) in
  Z.lxor x (Z.shiftr x 27).
Definition aslr_prng (s : security) : security * Z :=
  let x := xorshift (aslr_prng_seed s) in
  (s <| aslr_prng_seed := x |>, u64 (x * 0x2545F4914F6CDD1D)).

Definition aslr_init (s : security) (ticks : Z) : security :=
  s <| aslr := mk_aslr 1 1 1 1 1 |> <| aslr_prng_seed := Z.lxor ticks 0xDEADBEEFCAFEBABE |>.

(** [(r & ((1ULL << bits) - 1)) & ~0xFFF] *)
Definition random_offset (bits r : Z) : Z := Z.land (Z.land r (Z.shiftl 1 bits - 1)) (Z.lnot 0xFFF).

Definition aslr_randomize_stack (s : security) (base : Z) : security * Z :=
  if (aslr_enabled (aslr s) =? 0) || (stack_randomization (aslr s) =? 0) then (s, base) else
  let '(s, r) := aslr_prng s in
  (s, u64 (base - random_offset ASLR_STACK_BITS r)).

Definition aslr_randomize_mmap (s : security) (base size : Z) : security * Z :=
  if (aslr_enabled (aslr s) =? 0) || (mmap_randomization (aslr s) =? 0) then (s, base) else
  let '(s, r) := aslr_prng s in
  let mask := Z.land (Z.shiftl 1 ASLR_MMAP_BITS - 1) (Z.lnot 0xFFF) in
  (s, u64 (base + Z.land r mask + Z.land size 0xFFF)).

Definition aslr_randomize_pie (s : security) (base : Z) : security * Z :=
  if (aslr_enabled (aslr s) =? 0) || (pie_randomization (aslr s) =? 0) then (s, base) else
  let '(s, r) := aslr_prng s in
  (s, u64 (base + random_offset ASLR_PIE_BITS r)).

Definition aslr_set_enabled (s : security) (enabled : Z) : security :=
  let s := s <| aslr := (aslr s) <| aslr_enabled := enabled |> |> in
  audit_log s AUDIT_SECURITY 0 0 0 "ASLR %s" [VStr (chars (if enabled =? 0 then "disabled" else "enabled"))].

(** * Control flow integrity, no-execute, canaries *)

Definition cfi_init (s : security) : security :=
  s <| cfi := (cfi s) <| cfi_enabled := 1 |> <| shadow_count := 0 |> <| violations := 0 |> <| strict_mode := 1 |> |>.

Definition cfi_register_function (s : security) (start fin : Z) : security :=
  if CFI_MAX_SHADOW_ENTRIES <=? shadow_count (cfi s) then s else
  s <| cfi := (cfi s)
         <| shadow_stack := (shadow_stack (cfi s)).[shadow_count (cfi s) <- mk_cfi_entry start fin] |>
         <| shadow_count := shadow_count (cfi s) + 1 |> |>.

Definition cfi_violation (s : security) (expected actual : Z) : security :=
  let s := s <| cfi := (cfi s) <| violations := u32 (violations (cfi s) + 1) |> |> in
  audit_log s AUDIT_SECURITY 0 0 (-1) "CFI violation: expected=%p actual=%p" [VNum expected; VNum actual].

Definition cfi_verify_target (s : security) (caller tgt : Z) : security * Z :=
  if cfi_enabled (cfi s) =? 0 then (s, 0) else
  match find_from (fun i => let e := (shadow_stack (cfi s)).[i] in
                            (function_start e <=? tgt) && (tgt <=? function_end e))
          (Z.to_nat (shadow_count (cfi s))) 0 with
  | Some _ => (s, 0)
  | None => (cfi_violation s 0 tgt, -1)
  end.

Definition cfi_shadow_push (s : security) (ret_addr : Z) : security := s.
Definition cfi_shadow_pop (s : security) : Z := 0.
Definition cfi_set_strict (s : security) (strict : Z) : security :=
  s <| cfi := (cfi s) <| strict_mode := strict |> |>.

Definition nx_init (s : security) : security := s <| nx_enabled := 1 |>.
Definition nx_enable (s : security) : security := s <| nx_enabled := 1 |>.
Definition nx_check_region (vaddr size : Z) : Z := 0.

Definition canary_init (s : security) (ticks : Z) : security :=
  s <| system_canary := Z.lxor STACK_CANARY_VALUE ticks |>.
Definition canary_generate (s : security) : security * Z :=
  let '(s, r) := aslr_prng s in
  (s, Z.lxor (Z.lxor STACK_CANARY_VALUE r) (system_canary s)).
Definition canary_verify (s : security) (canary : Z) : security * Z :=
  let '(s, expected) := canary_generate s in
  if negb (canary =? expected) && negb (canary =? system_canary s) then
    (audit_log s AUDIT_SECURITY 0 0 (-1) "Stack canary violation" [], -1)
  else (s, 0).

(** * The whole subsystem *)

Definition security_init (s : security) (ticks : Z) : security :=
  let s := zero_security (aslr_prng_seed s) in
  let s := s <| security_level := 4 |> <| mac_enforcing := 1 |> <| audit_enabled := 1 |> in
  let s := mac_init s in
  let s := vb_init s in
  let s := sandbox_init s in
  let s := aslr_init s ticks in
  let s := cfi_init s in
  let s := nx_init s in
  let s := canary_init s ticks in
  let s := audit_init s in
  let s := mac_load_default_policies s in
  audit_log s AUDIT_SECURITY 0 0 0 "Security subsystem initialized, level=%d enforcing=%d"
    [VNum (security_level s); VNum (mac_enforcing s)].

(** [security_run_tests]: the state and the numbers of tests passed and failed. *)
Definition security_run_tests (s : security) : security * (Z * Z) :=
  let test (ok : bool) (r : Z * Z) := if ok then (fst r + 1, snd r) else (fst r, snd r + 1) in
  let lbl := mac_label_init s SEC_DOMAIN_APP SEC_CTX_CONFIDENTIAL in
  let r := test ((lb_domain lbl =? SEC_DOMAIN_APP) && (lb_context lbl =? SEC_CTX_CONFIDENTIAL)) (0, 0) in
  let lbl := mac_label_init s SEC_DOMAIN_APP 1 in
  let obj := mac_label_init s SEC_DOMAIN_SYSTEM SEC_CTX_INTERNAL in
  let '(s, a) := mac_check_access s (Some lbl) (Some obj) MAC_PERM_READ in
  let r := test ((a =? 0) || (a =? -1)) r in
  let '(s, sb) := sandbox_create s (Some (chars "test_sandbox")) 0 in
  let '(s, r) := if 0 <=? sb then (sandbox_destroy s sb, test true r) else (s, test false r) in
  let '(s, a) := aslr_randomize_stack s 0x7fff00000000 in
  let '(s, b) := aslr_randomize_stack s 0x7fff00000000 in
  let r := test true r in
  let '(s, c1) := canary_generate s in
  let '(s, c2) := canary_generate s in
  let r := test (negb (c1 =? 0) && negb (c1 =? c2)) r in
  let old_count := audit_count s in
  let s := audit_log s AUDIT_SECURITY 0 0 0 "Test audit entry" [] in
  let r := test (old_count <? audit_count s) r in
  let s := cfi_register_function s 0x1000 0x2000 in
  let r := test (0 <? shadow_count (cfi s)) r in
  (audit_log s AUDIT_SECURITY 0 0 (if snd r =? 0 then 0 else 1) "Security self-test: %d passed, %d failed"
     [VNum (fst r); VNum (snd r)], r).

(** [strcmp] of two strings, [atoi] of one. *)
Definition str_eq (a : list Z) (b : string) : bool := bool_decide (a = chars b).
Definition atoi_of (l : list Z) : Z := default 0 (atoi (S (S (length l))) (literal l) 0).

(** The state changes of [security_shell_dispatch].  It compares the argument of
    [sandbox] with ["create"] by [strcmp(...) == 1]. *)
Definition security_shell_dispatch (s : security) (cur : Z) (cmd : list Z) (argv : list (list Z)) : security :=
  let arg0 := nth 0 argv [] in
  let arg1 := nth 1 argv [] in
  let argc := zlen argv in
  if str_eq cmd "mac" then
    if argc =? 0 then s
    else if str_eq arg0 "enforce" then mac_set_enforcing s 1
    else if str_eq arg0 "permissive" then mac_set_enforcing s 0 else s
  else if str_eq cmd "sandbox" then
    if argc =? 0 then s
    else if (lex_diff arg0 (chars "create") =? 1) && (2 <=? argc) then fst (sandbox_create s (Some arg1) cur)
    else if str_eq arg0 "destroy" && (2 <=? argc) then sandbox_destroy s (u32 (atoi_of arg1)) else s
  else if str_eq cmd "aslr" then
    if 0 <? argc then aslr_set_enabled s (if str_eq arg0 "on" then 1 else 0) else s
  else if str_eq cmd "cfi" then
    if 0 <? argc then
      if str_eq arg0 "on" then s <| cfi := (cfi s) <| cfi_enabled := 1 |> |>
      else if str_eq arg0 "off" then s <| cfi := (cfi s) <| cfi_enabled := 0 |> |>
      else if str_eq arg0 "strict" then s <| cfi := (cfi s) <| strict_mode := 1 |> |> else s
    else s
  else if str_eq cmd "audit" then
    if argc =? 0 then s
    else if str_eq arg0 "clear" then audit_clear s
    else if str_eq arg0 "enable" then audit_enable s 1
    else if str_eq arg0 "disable" then audit_enable s 0 else s
  else if str_eq cmd "test" then fst (security_run_tests s)
  else s.
End security_calls.

(** * Runs of the subsystem *)

Inductive sec_op :=
| OpAuditLog (type pid uid result : Z) (fmt : string) (args : list value)
| OpAuditEnable (enable : Z)
| OpAuditClear
| OpCheckAccess (subj obj : option mac_label) (perm : Z)
| OpSetDomain (pid domain : Z)
| OpSetContext (pid context : Z)
| OpAddPolicy (subj obj perms : Z)
| OpSetEnforcing (enforcing : Z)
| OpVerifyPartition (name data : option (list Z))
| OpVerifyChain
| OpSetBootState (state : Z)
| OpSandboxCreate (name : option (list Z)) (owner : Z)
| OpSandboxDestroy (id : Z)
| OpSandboxAddRule (id action type : Z) (target : option (list Z))
| OpSandboxApply (id pid : Z)
| OpSandboxLimits (id : Z) (limits : option sandbox_limits)
| OpSandboxCheck (id type : Z) (path : option (list Z)) (access : Z)
| OpStack (base : Z)
| OpMmap (base size : Z)
| OpPie (base : Z)
| OpAslr (enabled : Z)
| OpCfiRegister (start fin : Z)
| OpCfiVerify (caller tgt : Z)
| OpCfiStrict (strict : Z)
| OpNx
| OpCanaryGenerate
| OpCanaryVerify (canary : Z)
| OpSelfTest
| OpShell (cur : Z) (cmd : list Z) (argv : list (list Z)).

(** One call at uptime [t]; identifiers are [uint32_t]. *)
Definition sec_do (t : Z) (op : sec_op) (s : security) : security :=
  match op with
  | OpAuditLog type pid uid result fmt args => audit_log t s type pid uid result fmt args
  | OpAuditEnable enable => audit_enable s enable
  | OpAuditClear => audit_clear s
  | OpCheckAccess subj obj perm => fst (mac_check_access t s subj obj perm)
  | OpSetDomain pid domain => mac_set_domain t s pid domain
  | OpSetContext pid context => mac_set_context t s pid context
  | OpAddPolicy subj obj perms => mac_add_policy t s subj obj perms
  | OpSetEnforcing enforcing => mac_set_enforcing t s enforcing
  | OpVerifyPartition name data => fst (vb_verify_partition s name data)
  | OpVerifyChain => fst (vb_verify_chain t s)
  | OpSetBootState state => vb_set_state t s state
  | OpSandboxCreate name owner => fst (sandbox_create t s name owner)
  | OpSandboxDestroy id => sandbox_destroy t s (u32 id)
  | OpSandboxAddRule id action type target => fst (sandbox_add_rule s (u32 id) action type target)
  | OpSandboxApply id pid => fst (sandbox_apply t s (u32 id) pid)
  | OpSandboxLimits id limits => sandbox_set_limits s (u32 id) limits
  | OpSandboxCheck id type path access => fst (sandbox_check_access t s (u32 id) type path access)
  | OpStack base => fst (aslr_randomize_stack s base)
  | OpMmap base size => fst (aslr_randomize_mmap s base size)
  | OpPie base => fst (aslr_randomize_pie s base)
  | OpAslr enabled => aslr_set_enabled t s enabled
  | OpCfiRegister start fin => cfi_register_function s start fin
  | OpCfiVerify caller tgt => fst (cfi_verify_target t s caller tgt)
  | OpCfiStrict strict => cfi_set_strict s strict
  | OpNx => nx_enable s
  | OpCanaryGenerate => fst (canary_generate s)
  | OpCanaryVerify canary => fst (canary_verify t s canary)
  | OpSelfTest => fst (security_run_tests t s)
  | OpShell cur cmd argv => security_shell_dispatch t s cur cmd argv
  end.

Definition sec_run (ops : list (Z * sec_op)) (s : security) : security :=
  foldl (fun s '(t, op) => sec_do t op s) s ops.

(** A state after [security_init] and any calls. *)
Definition sec_reachable (s : security) : Prop :=
  exists t s0 ticks ops, s = sec_run ops (security_init t s0 ticks).

(** * Lemmas: the audit log *)

Definition ring_ok (s : security) : Prop :=
  zlen (audit_ring s) = AUDIT_MAX_ENTRIES /\ 0 <= audit_head s < AUDIT_MAX_ENTRIES /\
  0 <= audit_count s <= AUDIT_MAX_ENTRIES.

(** The entries of the log, oldest first. *)
Definition audit_list (s : security) : list audit_entry :=
  ring_list (audit_ring s) AUDIT_MAX_ENTRIES (audit_head s - audit_count s) (audit_count s).

Lemma audit_log_frame t s type pid uid result fmt args :
  exists r h c, audit_log t s type pid uid result fmt args =
    s <| audit_ring := r |> <| audit_head := h |> <| audit_count := c |>.
Proof.
  unfold audit_log. set (e := mk_entry _ _ _ _ _ _). cbv zeta. rec_simpl.
  destruct (audit_enabled s =? 0); [|destruct (audit_count s <? AUDIT_MAX_ENTRIES)].
  - exists (audit_ring s), (audit_head s), (audit_count s). by destruct s.
  - by eexists _, _, _.
  - exists (audit_ring s).[audit_head s <- e], (u32 (audit_head s + 1) mod AUDIT_MAX_ENTRIES), (audit_count s).
    by destruct s.
Qed.

Lemma audit_log_ring t s type pid uid result fmt args :
  ring_ok s ->
  let s' := audit_log t s type pid uid result fmt args in
  ring_ok s' /\
  audit_list s' = if audit_enabled s =? 0 then audit_list s else
    newest (Z.to_nat AUDIT_MAX_ENTRIES)
      (audit_list s ++ [mk_entry t type pid uid (u32 result) (audit_message fmt args)]).
Proof.
  intros (Hl & Hh & Hc). unfold audit_log. destruct (audit_enabled s =? 0); [done|].
  set (e := mk_entry _ _ _ _ _ _). cbv zeta. rec_simpl. unfold AUDIT_MAX_ENTRIES in *.
  set (s' := if audit_count s <? 4096 then _ else _).
  assert (E : audit_ring s' = (audit_ring s).[audit_head s <- e] /\
    audit_head s' = u32 (audit_head s + 1) mod 4096 /\
    audit_count s' = if audit_count s <? 4096 then audit_count s + 1 else audit_count s).
  { unfold s'. destruct (Z.ltb_spec (audit_count s) 4096); rec_simpl; [|done].
    by rewrite (u32_id (audit_count s + 1)) by lia. }
  clearbody s'. destruct E as (E1 & E2 & E3). rewrite u32_id in E2 by lia. split.
  - unfold ring_ok, AUDIT_MAX_ENTRIES. rewrite E1, E2, E3, zlen_aset.
    destruct (Z.ltb_spec (audit_count s) 4096); lia.
  - unfold audit_list, AUDIT_MAX_ENTRIES. rewrite <- ring_list_push by lia.
    replace ((audit_head s - audit_count s + audit_count s) mod 4096) with (audit_head s) by lia.
    rewrite E1, E2, E3.
    set (k := - ((audit_head s + 1) / 4096)).
    rewrite <- (ring_list_shift _ 4096 (if audit_count s =? 4096 then _ else _) _ k) by lia.
    unfold k. destruct (Z.ltb_spec (audit_count s) 4096), (Z.eqb_spec (audit_count s) 4096); try lia;
      f_equal; lia.
Qed.

Lemma audit_recent_newest s n :
  ring_ok s -> 0 <= n ->
  audit_recent s n = take (if n =? 0 then length (audit_list s) else Z.to_nat n) (reverse (audit_list s)).
Proof.
  intros (_ & Hh & Hc) Hn.
  assert (Hl : zlen (audit_list s) = audit_count s) by (apply zlen_ring_list; lia).
  unfold AUDIT_MAX_ENTRIES, zlen in *.
  set (c := if (n =? 0) || (audit_count s <? n) then audit_count s else n).
  assert (Hc' : 0 <= c <= audit_count s /\ length (take (if n =? 0 then length (audit_list s) else Z.to_nat n)
    (reverse (audit_list s))) = Z.to_nat c).
  { unfold c. rewrite length_take, length_reverse.
    destruct (Z.eqb_spec n 0), (Z.ltb_spec (audit_count s) n); cbn [orb]; lia. }
  destruct Hc' as [Hcr Hlen]. unfold audit_recent. fold c.
  apply (list_eq_same_length _ _ (Z.to_nat c)); [done|by rewrite length_map, length_seqZ|].
  intros i x y Hi Hx Hy. rewrite list_lookup_fmap, lookup_seqZ_lt in Hx by lia. cbn in Hx. injection Hx as <-.
  assert (i < (if (n =? 0)%Z then length (audit_list s) else Z.to_nat n))%nat as Hin.
  { rewrite length_take in Hlen. lia. }
  rewrite lookup_take_lt in Hy by done. rewrite reverse_lookup in Hy by lia.
  replace (length (audit_list s) - S i)%nat with (Z.to_nat (audit_count s) - S i)%nat in Hy by lia.
  unfold audit_list, ring_list in Hy. rewrite list_lookup_fmap, lookup_seqZ_lt in Hy by lia.
  cbn in Hy. injection Hy as <-. f_equal. unfold u32, AUDIT_MAX_ENTRIES. lia.
Qed.

(** [s'] has the entries of [s] and newer ones, and forgets the oldest only when it is full. *)
Definition grows (s s' : security) : Prop :=
  ring_ok s -> ring_ok s' /\
  exists l, audit_list s' = newest (Z.to_nat AUDIT_MAX_ENTRIES) (audit_list s ++ l).

Lemma audit_list_fits s : ring_ok s -> (length (audit_list s) <= Z.to_nat AUDIT_MAX_ENTRIES)%nat.
Proof.
  intros (_ & _ & Hc). pose proof (zlen_ring_list (audit_ring s) AUDIT_MAX_ENTRIES
    (audit_head s - audit_count s) (audit_count s) ltac:(lia)) as H. unfold zlen in H.
  fold (audit_list s) in H. lia.
Qed.

Lemma grows_same s s' :
  audit_ring s' = audit_ring s -> audit_head s' = audit_head s -> audit_count s' = audit_count s -> grows s s'.
Proof.
  intros E1 E2 E3 Hs. unfold ring_ok, audit_list. rewrite E1, E2, E3. split; [exact Hs|].
  exists []. rewrite app_nil_r, newest_all; [done|by apply audit_list_fits].
Qed.

Lemma grows_refl s : grows s s.
Proof. by apply grows_same. Qed.

Lemma grows_trans s1 s2 s3 : grows s1 s2 -> grows s2 s3 -> grows s1 s3.
Proof.
  intros H12 H23 H1. destruct (H12 H1) as [H2 [l E]]. destruct (H23 H2) as [H3 [l' E']].
  split; [done|]. exists (l ++ l'). by rewrite E', E, newest_newest, app_assoc.
Qed.

Lemma grows_log s0 t s type pid uid result fmt args :
  grows s0 s -> grows s0 (audit_log t s type pid uid result fmt args).
Proof.
  intros H. eapply grows_trans; [exact H|]. intros Hs.
  destruct (audit_log_ring t s type pid uid result fmt args Hs) as [H1 H2]. split; [done|].
  rewrite H2. destruct (_ =? 0); [|eauto].
  exists []. rewrite app_nil_r, newest_all; [done|by apply audit_list_fits].
Qed.

(** Only the table of sandboxes differs. *)
Definition sb_only (s s' : security) : Prop := exists l, s' = s <| sandboxes := l |>.

Lemma sb_only_refl s : sb_only s s.
Proof. exists (sandboxes s). by destruct s. Qed.

Lemma sb_only_mod s s' i f : sb_only s s' -> sb_only s (mod_sb s' i f).
Proof. intros [l ->]. by eexists. Qed.

Lemma sb_only_add s s' id action type target :
  sb_only s s' -> sb_only s (fst (sandbox_add_rule s' id action type target)).
Proof.
  intros Hs. unfold sandbox_add_rule. destruct target; [|done].
  destruct (_ <=? _); [done|]. destruct (negb _); [done|]. destruct (_ <=? _); [done|]. by apply sb_only_mod.
Qed.

Lemma sandbox_setup_frame s id name owner : sb_only s (sandbox_setup s id name owner).
Proof. unfold sandbox_setup. cbv zeta. apply sb_only_mod. repeat apply sb_only_add. repeat apply sb_only_mod. apply sb_only_refl. Qed.

(** * What a call can do

    Every call is a sequence of the effects below.  A relation that is reflexive
    and transitive and holds across each of them holds across every call; the
    effects that a property may not survive are kinds that [A] can exclude. *)

Inductive kind := KPolicy | KEnforce | KClear | KDestroy (id : Z).

Definition sandbox_drop (s : security) (id : Z) : security :=
  (mod_sb s id (fun b => b <| sb_active := 0 |>)) <| sandbox_count := u32 (sandbox_count s - 1) |>.
Definition sandbox_new (s : security) (id : Z) (name : list Z) (owner : Z) : security :=
  (sandbox_setup s id name owner) <| sandbox_count := u32 (sandbox_count s + 1) |>.

Section effects.
Context (A : kind -> Prop) (R : security -> security -> Prop).

Definition needs (op : sec_op) : Prop :=
  match op with
  | OpAddPolicy _ _ _ => A KPolicy
  | OpSetEnforcing _ => A KEnforce
  | OpAuditClear => A KClear
  | OpSandboxDestroy id => A (KDestroy (u32 id))
  | OpShell _ _ _ => A KEnforce /\ A KClear /\ forall id, A (KDestroy id)
  | _ => True
  end.

Record effects_ok := {
  eff_refl : forall s, R s s;
  eff_trans : forall s1 s2 s3, R s1 s2 -> R s2 s3 -> R s1 s3;
  eff_log : forall t s ty p u r f a, R s (audit_log t s ty p u r f a);
  eff_enable : forall s e, R s (s <| audit_enabled := e |>);
  eff_boot : forall s b, R s (s <| boot_state := b |>);
  eff_aslr : forall s a, R s (s <| aslr := a |>);
  eff_seed : forall s, R s (s <| aslr_prng_seed := xorshift (aslr_prng_seed s) |>);
  eff_cfi : forall s c, (shadow_stack c, shadow_count c) = (shadow_stack (cfi s), shadow_count (cfi s)) ->
    R s (s <| cfi := c |>);
  eff_register : forall s a b, R s (cfi_register_function s a b);
  eff_nx : forall s n, R s (s <| nx_enabled := n |>);
  eff_policy : A KPolicy -> forall s p, policy_count s < 128 ->
    R s (s <| policies := (policies s).[policy_count s <- p] |> <| policy_count := policy_count s + 1 |>);
  eff_enforce : A KEnforce -> forall s e, R s (s <| mac_enforcing := e |>);
  eff_clear : A KClear -> forall s, R s (audit_clear s);
  eff_create : forall s i n o, 0 <= i < SANDBOX_MAX -> active s i = false -> R s (sandbox_new s i n o);
  eff_destroy : forall s i, A (KDestroy i) -> 0 <= i < SANDBOX_MAX -> active s i = true -> R s (sandbox_drop s i);
  eff_temp : forall s i n o, 0 <= i < SANDBOX_MAX -> active s i = false ->
    active (sandbox_new s i n o) i = true -> R s (sandbox_drop (sandbox_new s i n o) i);
  eff_rule : forall s id a ty tg, 0 <= id -> R s (fst (sandbox_add_rule s id a ty tg));
  eff_limits : forall s id l, 0 <= id < SANDBOX_MAX -> R s (mod_sb s id (fun b => b <| sb_limits := l |>))
}.

Context (H : effects_ok).

Lemma log_trans s0 t s ty p u r f a : R s0 s -> R s0 (audit_log t s ty p u r f a).
Proof. intros Hs. eapply (eff_trans H); [exact Hs|apply (eff_log H)]. Qed.

Lemma access_effect t s subj obj perm : R s (fst (mac_check_access t s subj obj perm)).
Proof.
  unfold mac_check_access. destruct (_ =? 0), subj, obj; try destruct (mac_decide _ _ _ _); cbn [fst];
    first [apply (eff_refl H)|apply (eff_log H)].
Qed.

Lemma free_slot s i :
  find_from (fun i => negb (active s i)) (Z.to_nat SANDBOX_MAX) 0 = Some i ->
  0 <= i < SANDBOX_MAX /\ active s i = false.
Proof.
  intros (Hi & Ha & _)%find_from_Some. unfold SANDBOX_MAX in *. split; [lia|]. by apply negb_true_iff.
Qed.

Lemma sandbox_create_new t s n o i :
  find_from (fun i => negb (active s i)) (Z.to_nat SANDBOX_MAX) 0 = Some i ->
  sandbox_create t s (Some n) o = (audit_log t (sandbox_new s i n o) AUDIT_SECURITY o 0 0
    "Sandbox created: %s (id=%d)" [VStr n; VNum i], i).
Proof.
  intros E. unfold sandbox_create, sandbox_new. rewrite E. cbv zeta.
  destruct (sandbox_setup_frame s i n o) as [l ->]. done.
Qed.

Lemma create_effect t s name owner : R s (fst (sandbox_create t s name owner)).
Proof.
  destruct name as [n|]; [|apply (eff_refl H)].
  destruct (find_from (fun i => negb (active s i)) (Z.to_nat SANDBOX_MAX) 0) as [i|] eqn:E.
  - rewrite (sandbox_create_new t s n owner i E). apply log_trans.
    destruct (free_slot _ _ E). by apply (eff_create H).
  - unfold sandbox_create. rewrite E. apply (eff_refl H).
Qed.

Lemma destroy_drop t s id :
  SANDBOX_MAX <= id \/ active s id = false -> sandbox_destroy t s id = s.
Proof.
  intros Hd. unfold sandbox_destroy. destruct (Z.leb_spec SANDBOX_MAX id); [done|].
  destruct Hd as [?|E]; [lia|by rewrite E].
Qed.

Lemma destroy_drop' t s id :
  id < SANDBOX_MAX -> active s id = true ->
  exists p l, sandbox_destroy t s id = audit_log t (sandbox_drop s id) AUDIT_SECURITY p 0 0
    "Sandbox destroyed: %s (id=%d)" l.
Proof.
  intros Hi Ha. unfold sandbox_destroy. destruct (Z.leb_spec SANDBOX_MAX id); [lia|]. rewrite Ha. cbn [negb].
  by eexists _, _.
Qed.

Lemma destroy_effect t s id : A (KDestroy id) -> 0 <= id -> R s (sandbox_destroy t s id).
Proof.
  intros HA Hi. destruct (Z.lt_ge_cases id SANDBOX_MAX); [|rewrite destroy_drop; [apply (eff_refl H)|lia]].
  destruct (active s id) eqn:Ea; [|rewrite destroy_drop; [apply (eff_refl H)|auto]].
  destruct (destroy_drop' t s id ltac:(lia) Ea) as (p & l & ->). apply log_trans. by apply (eff_destroy H).
Qed.

Lemma drop_log t s ty p u r f a i :
  sandbox_drop (audit_log t s ty p u r f a) i = audit_log t (sandbox_drop s i) ty p u r f a.
Proof.
  unfold audit_log. cbv zeta.
  change (audit_enabled (sandbox_drop s i)) with (audit_enabled s).
  destruct (audit_enabled s =? 0); [done|]. rec_simpl.
  change (audit_count (sandbox_drop s i)) with (audit_count s).
  destruct (audit_count s <? AUDIT_MAX_ENTRIES); done.
Qed.

(** Destroying the sandbox just created. *)
Lemma temp_effect t s n o :
  let '(s', i) := sandbox_create t s (Some n) o in 0 <= i -> R s (sandbox_destroy t s' i).
Proof.
  destruct (find_from (fun i => negb (active s i)) (Z.to_nat SANDBOX_MAX) 0) as [i|] eqn:E; cycle 1.
  { unfold sandbox_create. rewrite E. lia. }
  rewrite (sandbox_create_new t s n o i E). intros _. destruct (free_slot _ _ E) as [Hi Ha].
  set (s1 := sandbox_new s i n o).
  destruct (active s1 i) eqn:Ea1; cycle 1.
  { rewrite destroy_drop; [|right]; [apply log_trans; by apply (eff_create H)|].
    by destruct (audit_log_frame t s1 AUDIT_SECURITY o 0 0 "Sandbox created: %s (id=%d)" [VStr n; VNum i])
      as (rg & hd & ct & ->). }
  match goal with |- R _ (sandbox_destroy _ ?s2 _) => destruct (destroy_drop' t s2 i) as (p & l & ->) end.
  - lia.
  - by destruct (audit_log_frame t s1 AUDIT_SECURITY o 0 0 "Sandbox created: %s (id=%d)" [VStr n; VNum i])
      as (rg & hd & ct & ->).
  - apply log_trans. rewrite drop_log. apply log_trans. by apply (eff_temp H).
Qed.

Lemma self_test_effect t s : R s (fst (security_run_tests t s)).
Proof.
  unfold security_run_tests. cbv zeta.
  pose proof (access_effect t s (Some (mac_label_init s SEC_DOMAIN_APP 1))
    (Some (mac_label_init s SEC_DOMAIN_SYSTEM SEC_CTX_INTERNAL)) MAC_PERM_READ) as H1.
  destruct (mac_check_access _ _ _ _ _) as [s1 a]. cbn [fst] in H1.
  pose proof (create_effect t s1 (Some (chars "test_sandbox")) 0) as H2.
  pose proof (temp_effect t s1 (chars "test_sandbox") 0) as H3.
  destruct (sandbox_create _ _ _ _) as [s2 sb]. cbn [fst] in H2.
  match goal with |- context [let '(_, _) := (if 0 <=? sb then ?x else ?y) in _] =>
    assert (H4 : exists s3 r, (if 0 <=? sb then x else y) = (s3, r) /\ R s s3) end.
  { destruct (Z.leb_spec 0 sb); eexists _, _; (split; [done|]); (eapply (eff_trans H); [exact H1|]); auto. }
  destruct H4 as (s3 & r & -> & H4). unfold aslr_randomize_stack.
  assert (Hrand : forall s' base, R s s' ->
    R s (fst (if (aslr_enabled (aslr s') =? 0) || (stack_randomization (aslr s') =? 0) then (s', base)
              else let '(s', r) := aslr_prng s' in (s', u64 (base - random_offset ASLR_STACK_BITS r))))).
  { intros s' base Hs. destruct (_ || _); [done|]. cbn. eapply (eff_trans H); [exact Hs|apply (eff_seed H)]. }
  pose proof (Hrand s3 0x7fff00000000 H4) as H5. destruct (if _ || _ then _ else _) as [s4 a4]. cbn [fst] in H5.
  pose proof (Hrand s4 0x7fff00000000 H5) as H6. destruct (if _ || _ then _ else _) as [s5 a5]. cbn [fst] in H6.
  unfold canary_generate, aslr_prng. cbn [fst].
  apply log_trans. eapply (eff_trans H); [|apply (eff_register H)]. apply log_trans.
  eapply (eff_trans H); [|apply (eff_seed H)]. eapply (eff_trans H); [exact H6|apply (eff_seed H)].
Qed.

Ltac eff_done :=
  cbn [fst snd]; repeat apply log_trans;
  first [apply (eff_refl H) | apply (eff_log H) | apply (eff_boot H) | apply (eff_aslr H) | apply (eff_seed H)
        | by apply (eff_cfi H) | apply (eff_register H) | apply (eff_nx H) | apply (eff_enable H)
        | by apply (eff_enforce H) | by apply (eff_clear H)].

Lemma shell_effect t s cur cmd argv :
  A KEnforce -> A KClear -> (forall id, A (KDestroy id)) -> R s (security_shell_dispatch t s cur cmd argv).
Proof.
  intros He Hc Hd. unfold security_shell_dispatch, mac_set_enforcing, aslr_set_enabled.
  repeat match goal with
  | |- R _ (fst (sandbox_create _ _ _ _)) => apply create_effect
  | |- R _ (fst (security_run_tests _ _)) => apply self_test_effect
  | |- R _ (sandbox_destroy _ _ (u32 ?x)) => apply destroy_effect; [apply Hd|apply u32_range]
  | |- R _ (if _ then _ else _) => case_match
  end; eff_done.
Qed.

Lemma sec_do_effect t op s : needs op -> R s (sec_do t op s).
Proof.
  intros Hn. destruct op; cbn [sec_do needs] in *;
    unfold audit_enable, mac_set_domain, mac_set_context, mac_set_enforcing, vb_verify_partition,
      vb_verify_chain, vb_set_state, sandbox_apply, sandbox_check_access, aslr_randomize_stack,
      aslr_randomize_mmap, aslr_randomize_pie, aslr_set_enabled, cfi_verify_target, cfi_violation,
      cfi_set_strict, nx_enable, canary_verify, canary_generate, aslr_prng;
    try (repeat case_match; simplify_eq; eff_done).
  - apply access_effect.
  - unfold mac_add_policy. destruct (Z.leb_spec 128 (policy_count s)); [apply (eff_refl H)|].
    cbv zeta. rec_simpl. apply log_trans. by apply (eff_policy H).
  - apply create_effect.
  - apply destroy_effect; [done|apply u32_range].
  - apply (eff_rule H). apply u32_range.
  - unfold sandbox_set_limits. destruct limits; [|apply (eff_refl H)].
    pose proof (u32_range id). destruct (Z.leb_spec SANDBOX_MAX (u32 id)); [apply (eff_refl H)|].
    destruct (negb _); [apply (eff_refl H)|]. apply (eff_limits H). lia.
  - apply self_test_effect.
  - apply shell_effect; apply Hn.
Qed.

Lemma sec_run_effect ops s : Forall (fun x => needs (snd x)) ops -> R s (sec_run ops s).
Proof.
  unfold sec_run. revert s. induction ops as [|[t op] ops IH]; intros s Hf; cbn [foldl].
  - apply (eff_refl H).
  - apply Forall_cons in Hf as [Hop Hf]. eapply (eff_trans H); [by apply (sec_do_effect t op)|by apply IH].
Qed.
End effects.

(** ** The log only grows *)

Lemma grows_ok : effects_ok (fun k => k <> KClear) grows.
Proof.
  split; intros; try (by apply grows_same); try done.
  - by eapply grows_trans.
  - apply grows_log, grows_refl.
  - unfold cfi_register_function. destruct (_ <=? _); by apply grows_same.
  - destruct (sandbox_setup_frame s i n o) as [l E]. unfold sandbox_new. rewrite E. by apply grows_same.
  - destruct (sandbox_setup_frame s i n o) as [l E]. unfold sandbox_drop, sandbox_new. rewrite E. by apply grows_same.
  - destruct (sb_only_add s s id a ty tg (sb_only_refl s)) as [l ->]. by apply grows_same.
Qed.

(** ** Policies and labels *)

Definition mac_part (s : security) := (default_labels s, policies s, policy_count s, mac_enforcing s).

Lemma mac_same_ok : effects_ok (fun k => k <> KPolicy /\ k <> KEnforce) (fun s s' => mac_part s' = mac_part s).
Proof.
  split; intros; try done; try naive_solver.
  - etransitivity; done.
  - by destruct (audit_log_frame t s ty p u r f a) as (? & ? & ? & ->).
  - unfold cfi_register_function. by destruct (_ <=? _).
  - destruct (sandbox_setup_frame s i n o) as [l E]. unfold sandbox_new. by rewrite E.
  - destruct (sandbox_setup_frame s i n o) as [l E]. unfold sandbox_drop, sandbox_new. by rewrite E.
  - by destruct (sb_only_add s s id a ty tg (sb_only_refl s)) as [l ->].
Qed.

(** ** The sandbox table *)

Definition sb_well (b : sandbox) : Prop :=
  zlen (sb_rules b) = SB_MAX_RULES /\ 0 <= sb_rule_count b <= SB_MAX_RULES.
Definition is_active (b : sandbox) : Prop := sb_active b <> 0.
#[export] Instance is_active_dec b : Decision (is_active b) := _.
Definition table_ok (s : security) : Prop :=
  zlen (sandboxes s) = SANDBOX_MAX /\ Forall sb_well (sandboxes s) /\
  sandbox_count s = zlen (filter is_active (sandboxes s)).

Lemma active_count_set (l : list sandbox) i b :
  0 <= i < zlen l ->
  zlen (filter is_active (l.[i <- b])) + (if decide (is_active l.[i]) then 1 else 0) =
  zlen (filter is_active l) + (if decide (is_active b) then 1 else 0).
Proof.
  intros Hi. unfold zlen, aset, aget in *.
  assert (Hl : l !! Z.to_nat i = Some (l !!! Z.to_nat i)) by (apply list_lookup_lookup_total_lt; lia).
  set (old := l !!! Z.to_nat i) in *.
  rewrite insert_take_drop by lia. rewrite <- (take_drop_middle l _ _ Hl) at 3.
  rewrite !filter_app, !length_app, !filter_cons.
  destruct (decide (is_active b)), (decide (is_active old)); cbn [length]; lia.
Qed.

Lemma active_spec s i : active s i = true <-> is_active (sandboxes s).[i].
Proof. unfold active, is_active. destruct (Z.eqb_spec (sb_active (sandboxes s).[i]) 0); naive_solver. Qed.

Lemma filter_active_bound s : table_ok s -> 0 <= zlen (filter is_active (sandboxes s)) <= SANDBOX_MAX.
Proof.
  intros (Hl & _ & _). unfold zlen in *. rewrite <- Hl.
  pose proof (length_filter is_active (sandboxes s)). lia.
Qed.

(** A change of one slot that keeps it well formed and (in)active. *)
Lemma table_ok_mod s i f :
  0 <= i < SANDBOX_MAX -> (sb_well (sandboxes s).[i] -> sb_well (f (sandboxes s).[i])) ->
  (is_active (f (sandboxes s).[i]) <-> is_active (sandboxes s).[i]) -> table_ok s -> table_ok (mod_sb s i f).
Proof.
  intros Hi Hf Ha Hs. pose proof Hs as (Hl & Hw & Hc). unfold mod_sb, table_ok. rec_simpl.
  rewrite zlen_aset. split; [done|]. split.
  { apply Forall_aset; [done|]. apply Hf, Forall_aget; [done|lia]. }
  rewrite Hc. pose proof (active_count_set (sandboxes s) i (f (sandboxes s).[i]) ltac:(lia)).
  destruct (decide (is_active (f (sandboxes s).[i]))), (decide (is_active (sandboxes s).[i])); naive_solver lia.
Qed.

Definition slot_set (s : security) (i : Z) (b : sandbox) : security := s <| sandboxes := (sandboxes s).[i <- b] |>.

Lemma mod_sb_set s i b f :
  0 <= i < zlen (sandboxes s) -> mod_sb (slot_set s i b) i f = slot_set s i (f b).
Proof.
  intros Hi. unfold mod_sb, slot_set. rec_simpl. rewrite aget_aset_eq by done.
  unfold aset. rewrite list_insert_insert_eq. done.
Qed.

Lemma active_set s i b : 0 <= i < zlen (sandboxes s) -> active (slot_set s i b) i = negb (sb_active b =? 0).
Proof. intros Hi. unfold active, slot_set. rec_simpl. by rewrite aget_aset_eq. Qed.

Lemma add_rule_set s i b a ty tg :
  0 <= i < zlen (sandboxes s) -> i < SANDBOX_MAX -> (sb_active b =? 0) = false ->
  (SB_MAX_RULES <=? sb_rule_count b) = false ->
  fst (sandbox_add_rule (slot_set s i b) i a ty (Some tg)) =
  slot_set s i (b <| sb_rules := (sb_rules b).[sb_rule_count b <- mk_rule a ty (take 255 tg)] |>
                  <| sb_rule_count := sb_rule_count b + 1 |>).
Proof.
  intros Hi Hm Ha Hc. unfold sandbox_add_rule. destruct (Z.leb_spec SANDBOX_MAX i); [lia|].
  rewrite active_set, Ha by done. cbn [negb].
  assert ((sandboxes (slot_set s i b)).[i] = b) as -> by (unfold slot_set; rec_simpl; by rewrite aget_aset_eq).
  rewrite Hc. cbn [fst]. by rewrite mod_sb_set.
Qed.

Definition default_rules : list sandbox_rule :=
  [mk_rule SB_RULE_DENY SB_TARGET_FILE (chars "/");
   mk_rule SB_RULE_ALLOW SB_TARGET_FILE (chars "/dev/null");
   mk_rule SB_RULE_ALLOW SB_TARGET_FILE (chars "/dev/zero");
   mk_rule SB_RULE_ALLOW SB_TARGET_FILE (chars "/dev/random");
   mk_rule SB_RULE_ALLOW SB_TARGET_FILE (chars "/dev/urandom")].

(** The sandbox that [sandbox_create] makes. *)
Definition fresh_sandbox (s : security) (i : Z) (name : list Z) (owner : Z) : sandbox :=
  mk_sandbox i (take 63 name) owner 1
    ((mac_label_init s SEC_DOMAIN_ISOLATED SEC_CTX_CONFIDENTIAL)
       <| lb_flags := Z.lor MAC_FLAG_SANDBOXED MAC_FLAG_NO_NETWORK |>)
    (default_rules ++ replicate 27 zero_rule) 5 (mk_limits 30000 (64 * 1024 * 1024) 64 4 0 (replicate 16 0)).

Lemma sandbox_setup_eq s i name owner :
  zlen (sandboxes s) = SANDBOX_MAX -> 0 <= i < SANDBOX_MAX ->
  sandbox_setup s i name owner = slot_set s i (fresh_sandbox s i name owner).
Proof.
  intros Hl Hi. unfold sandbox_setup. cbv zeta.
  change (mod_sb s i (fun _ => ?b)) with (slot_set s i b).
  rewrite !mod_sb_set by lia.
  rewrite !add_rule_set by (done || lia). rewrite mod_sb_set by lia. done.
Qed.

Lemma fresh_well s i name owner : sb_well (fresh_sandbox s i name owner).
Proof. unfold sb_well, SB_MAX_RULES. cbn. split; [done|lia]. Qed.

Lemma table_new s i name owner :
  0 <= i < SANDBOX_MAX -> active s i = false -> table_ok s ->
  table_ok (sandbox_new s i name owner).
Proof.
  intros Hi Ha Hs. pose proof Hs as (Hl & Hw & Hc). unfold sandbox_new. rewrite sandbox_setup_eq by done.
  unfold slot_set, table_ok. rec_simpl. rewrite zlen_aset. split; [done|]. split.
  { apply Forall_aset; [done|]. apply fresh_well. }
  pose proof (active_count_set (sandboxes s) i (fresh_sandbox s i name owner) ltac:(lia)) as H.
  destruct (decide (is_active (sandboxes s).[i])) as [Hx|_]; [apply active_spec in Hx; congruence|].
  destruct (decide (is_active (fresh_sandbox s i name owner))) as [_|Hx]; [|by destruct Hx].
  pose proof (filter_active_bound s Hs). unfold SANDBOX_MAX in *. rewrite Hc, u32_id; lia.
Qed.

Lemma table_drop s i :
  0 <= i < SANDBOX_MAX -> active s i = true -> table_ok s -> table_ok (sandbox_drop s i).
Proof.
  intros Hi Ha Hs. pose proof Hs as (Hl & Hw & Hc). unfold sandbox_drop, mod_sb, table_ok. rec_simpl.
  rewrite zlen_aset. split; [done|]. split.
  { apply Forall_aset; [done|]. apply (Forall_aget sb_well (sandboxes s) i Hw). lia. }
  pose proof (active_count_set (sandboxes s) i (((sandboxes s).[i]) <| sb_active := 0 |>) ltac:(lia)) as H.
  apply active_spec in Ha. destruct (decide (is_active (sandboxes s).[i])) as [_|]; [|done].
  destruct (decide (is_active (((sandboxes s).[i]) <| sb_active := 0 |>))) as [Hx|_]; [by destruct Hx|].
  pose proof (filter_active_bound s Hs). pose proof (zlen_nonneg
    (filter is_active ((sandboxes s).[i <- ((sandboxes s).[i]) <| sb_active := 0 |>]))).
  unfold SANDBOX_MAX in *. rewrite Hc, u32_id; lia.
Qed.

Lemma table_rule s id a ty tg :
  0 <= id -> table_ok s -> table_ok (fst (sandbox_add_rule s id a ty tg)).
Proof.
  intros Hid Hs. unfold sandbox_add_rule. destruct tg as [tg|]; [|done].
  destruct (Z.leb_spec SANDBOX_MAX id); [done|]. destruct (negb _); [done|].
  destruct (Z.leb_spec SB_MAX_RULES (sb_rule_count (sandboxes s).[id])); [done|].
  apply table_ok_mod; [lia| |done|done]. intros [H1 H2]. unfold sb_well. rec_simpl.
  rewrite zlen_aset. lia.
Qed.

Lemma table_ok_effects : effects_ok (fun _ => True) (fun s s' => table_ok s -> table_ok s').
Proof.
  split; intros; try done; try naive_solver.
  - by destruct (audit_log_frame t s ty p u r f a) as (? & ? & ? & ->).
  - unfold cfi_register_function in *. by destruct (_ <=? _).
  - by apply table_new.
  - by apply table_drop.
  - apply table_drop; [done|done|]. by apply table_new.
  - by apply table_rule.
  - by apply table_ok_mod.
Qed.

(** The first rule of the sandbox [id] denies every absolute path. *)
Definition denies_root (id : Z) (s : security) : Prop :=
  table_ok s /\ active s id = true /\ 1 <= sb_rule_count (sandboxes s).[id] /\
  (sb_rules (sandboxes s).[id]).[0] = mk_rule SB_RULE_DENY SB_TARGET_FILE (chars "/").

Lemma denies_root_same id s s' : sandboxes s' = sandboxes s -> sandbox_count s' = sandbox_count s ->
  denies_root id s -> denies_root id s'.
Proof. unfold denies_root, table_ok, active. by intros -> ->. Qed.

(** Another slot may change in any way. *)
Lemma denies_root_other id i b c s :
  0 <= id < SANDBOX_MAX -> 0 <= i -> i <> id -> table_ok ((slot_set s i b) <| sandbox_count := c |>) ->
  denies_root id s -> denies_root id ((slot_set s i b) <| sandbox_count := c |>).
Proof.
  intros Hid Hi Hne Hok (_ & Ha & Hc & Hr). split; [exact Hok|]. unfold slot_set, active in *. rec_simpl.
  rewrite aget_aset_ne by lia. done.
Qed.

Lemma denies_root_rule id s i a ty tg :
  0 <= id < SANDBOX_MAX -> 0 <= i -> denies_root id s -> denies_root id (fst (sandbox_add_rule s i a ty tg)).
Proof.
  intros Hid Hi Hd. pose proof Hd as (Hok & Ha & Hc & Hr).
  assert (table_ok (fst (sandbox_add_rule s i a ty tg))) as Hok' by (by apply table_rule).
  unfold sandbox_add_rule in *. destruct tg as [tg|]; [|done].
  destruct (Z.leb_spec SANDBOX_MAX i); [done|]. destruct (negb _); [done|].
  destruct (Z.leb_spec SB_MAX_RULES (sb_rule_count (sandboxes s).[i])) as [|Hlt]; [done|]. cbn [fst] in *.
  split; [done|]. pose proof Hok as (Hl & Hw & _). unfold mod_sb, active in *. rec_simpl.
  rewrite aget_aset by lia. destruct (Z.eqb_spec i id) as [->|]; [|done]. rec_simpl.
  split; [done|]. split; [lia|]. rewrite aget_aset_ne by lia. done.
Qed.

Lemma denies_root_effects id : 0 <= id < SANDBOX_MAX ->
  effects_ok (fun k => k <> KDestroy id) (fun s s' => denies_root id s -> denies_root id s').
Proof.
  intros Hid. split; intros; try done; try naive_solver;
    try (eapply denies_root_same; [..|eassumption]; reflexivity).
  - destruct (audit_log_frame t s ty p u r f a) as (? & ? & ? & ->).
    by eapply (denies_root_same id s).
  - unfold cfi_register_function in *. by destruct (_ <=? _).
  - pose proof H1 as (Hok & Ha & _). pose proof Hok as (Hl & _).
    pose proof (table_new s i n o H H0 Hok) as Hok'.
    unfold sandbox_new in *. rewrite sandbox_setup_eq in * by done.
    apply denies_root_other; try done; [lia|]. intros ->. congruence.
  - pose proof H2 as (Hok & Ha & _). pose proof (table_drop s i H0 H1 Hok) as Hok'.
    apply denies_root_other; try done; [lia|]. intros ->. done.
  - pose proof H2 as (Hok & Ha & _). pose proof Hok as (Hl & _).
    pose proof (table_new s i n o H H0 Hok) as Hok'.
    assert (i <> id) as Hne by (intros ->; congruence).
    pose proof (table_drop _ i H H1 Hok') as Hok''.
    apply denies_root_other; [done|lia|done|exact Hok''|].
    unfold sandbox_new in *. rewrite sandbox_setup_eq in * by done.
    by apply denies_root_other; try done; [lia].
  - by apply denies_root_rule.
  - pose proof H0 as (Hok & Ha & Hc & Hr). pose proof Hok as (Hl & _). split.
    + apply table_ok_mod; [done| |done|done]. done.
    + unfold mod_sb, active in *. rec_simpl. rewrite aget_aset by lia.
      destruct (Z.eqb_spec id0 id) as [->|]; by rec_simpl.
Qed.

(** ** The state after [security_init] *)

Definition default_policies : list mac_policy :=
  [mk_policy SEC_DOMAIN_APP SEC_DOMAIN_KERNEL 0; mk_policy SEC_DOMAIN_APP SEC_DOMAIN_SYSTEM MAC_PERM_READ;
   mk_policy SEC_DOMAIN_ISOLATED SEC_DOMAIN_SYSTEM 0; mk_policy SEC_DOMAIN_PEN_TEST SEC_DOMAIN_SYSTEM 5;
   mk_policy SEC_DOMAIN_SERVICE SEC_DOMAIN_KERNEL 0; mk_policy SEC_DOMAIN_SYSTEM SEC_DOMAIN_KERNEL MAC_PERM_READ].

Lemma init_mac t s0 ticks :
  mac_part (security_init t s0 ticks) =
  (map (fun d => mk_label d SEC_CTX_INTERNAL SEC_TYPE_PROCESS (domain_caps d) 0) (seqZ 0 6),
   default_policies ++ replicate 122 zero_policy, 6, 1).
Proof. vm_compute. reflexivity. Qed.

Lemma init_table t s0 ticks : table_ok (security_init t s0 ticks).
Proof.
  assert (E1 : sandboxes (security_init t s0 ticks) =
    map (fun i => zero_sandbox <| sb_id := i |>) (seqZ 0 64)) by (vm_compute; reflexivity).
  assert (E2 : sandbox_count (security_init t s0 ticks) = 0) by (vm_compute; reflexivity).
  unfold table_ok. rewrite E1, E2. split; [done|]. split.
  - apply Forall_map. apply Forall_forall. intros i _. unfold sb_well. cbn. split; [done|]. unfold SB_MAX_RULES. lia.
  - done.
Qed.

Lemma init_ring t s0 ticks : ring_ok (security_init t s0 ticks).
Proof.
  assert (E1 : zlen (audit_ring (security_init t s0 ticks)) = 4096) by (vm_compute; reflexivity).
  assert (E2 : audit_head (security_init t s0 ticks) = 7) by (vm_compute; reflexivity).
  assert (E3 : audit_count (security_init t s0 ticks) = 7) by (vm_compute; reflexivity).
  unfold ring_ok. rewrite E1, E2, E3. unfold AUDIT_MAX_ENTRIES. lia.
Qed.

Lemma init_seed t s0 ticks : aslr_prng_seed (security_init t s0 ticks) = Z.lxor ticks 0xDEADBEEFCAFEBABE.
Proof. vm_compute. reflexivity. Qed.

Lemma ring_ok_effects : effects_ok (fun _ => True) (fun s s' => ring_ok s -> ring_ok s').
Proof.
  split; intros; try done; try naive_solver.
  - by apply audit_log_ring.
  - unfold cfi_register_function in *. by destruct (_ <=? _).
  - destruct (sandbox_setup_frame s i n o) as [l E]. unfold sandbox_new. by rewrite E.
  - destruct (sandbox_setup_frame s i n o) as [l E]. unfold sandbox_drop, sandbox_new. by rewrite E.
  - by destruct (sb_only_add s s id a ty tg (sb_only_refl s)) as [l ->].
Qed.

Lemma needs_all (ops : list (Z * sec_op)) : Forall (fun x => needs (fun _ => True) (snd x)) ops.
Proof. apply Forall_forall. intros [t op] _. by destruct op. Qed.

(** An invariant that every effect keeps holds in every reachable state. *)
Lemma sec_reachable_inv (I : security -> Prop) s :
  effects_ok (fun _ => True) (fun s s' => I s -> I s') -> (forall t s0 ticks, I (security_init t s0 ticks)) ->
  sec_reachable s -> I s.
Proof.
  intros He Hi (t & s0 & ticks & ops & ->).
  apply (sec_run_effect _ _ He ops _ (needs_all ops)). apply Hi.
Qed.

Lemma reachable_table s : sec_reachable s -> table_ok s.
Proof. apply sec_reachable_inv; [apply table_ok_effects|apply init_table]. Qed.
Lemma reachable_ring s : sec_reachable s -> ring_ok s.
Proof. apply sec_reachable_inv; [apply ring_ok_effects|apply init_ring]. Qed.

(** ** Decisions *)

(** What subjects of the domain [a] may do with objects of another domain [b]. *)
Definition mac_right (a b : Z) : Z :=
  if (a =? SEC_DOMAIN_APP) && (b =? SEC_DOMAIN_KERNEL) then 0
  else if (a =? SEC_DOMAIN_SERVICE) && (b =? SEC_DOMAIN_KERNEL) then 0
  else if (a =? SEC_DOMAIN_ISOLATED) && (b =? SEC_DOMAIN_SYSTEM) then 0
  else if (a =? SEC_DOMAIN_PEN_TEST) && (b =? SEC_DOMAIN_SYSTEM) then Z.lor MAC_PERM_READ MAC_PERM_EXEC
  else MAC_PERM_READ.

Definition mac_allowed (subj obj : mac_label) (perm : Z) : bool :=
  (lb_domain subj =? SEC_DOMAIN_KERNEL) ||
  negb ((lb_type obj =? SEC_TYPE_SOCKET) && has (lb_flags subj) MAC_FLAG_NO_NETWORK) &&
  (if lb_domain subj =? lb_domain obj
   then negb (has perm MAC_PERM_ADMIN) || has (lb_caps subj) CAP_SYS_ADMIN
   else Z.land (mac_right (lb_domain subj) (lb_domain obj)) perm =? perm).

Lemma land_sub r p : 0 <= r -> Z.land r p = p -> p <= r.
Proof.
  intros Hr E. apply Z.ldiff_le; [done|]. apply Z.bits_inj'. intros i Hi.
  rewrite Z.ldiff_spec, Z.bits_0, <- E, Z.land_spec. by destruct (Z.testbit r i), (Z.testbit p i).
Qed.

Lemma land_one p : 0 < p -> (p =? MAC_PERM_READ) = (Z.land 1 p =? p).
Proof.
  intros Hp. destruct (Z.eqb_spec (Z.land 1 p) p) as [E|E].
  - apply land_sub in E; [|done]. by replace p with 1 by lia.
  - apply Z.eqb_neq. by intros ->.
Qed.

Lemma mac_decide_allowed s subj obj perm :
  policies s = default_policies ++ replicate 122 zero_policy -> policy_count s = 6 ->
  0 <= lb_domain subj < SEC_DOMAIN_MAX -> 0 <= lb_domain obj < SEC_DOMAIN_MAX -> 0 < perm ->
  mac_decide s subj obj perm = mac_allowed subj obj perm.
Proof.
  intros Hp Hc Ha Hb Hperm. unfold mac_decide, mac_allowed, find_policy. rewrite Hp, Hc.
  set (a := lb_domain subj) in *. set (b := lb_domain obj) in *.
  set (sock := (lb_type obj =? SEC_TYPE_SOCKET) && has (lb_flags subj) MAC_FLAG_NO_NETWORK).
  unfold SEC_DOMAIN_MAX in *.
  assert (a = 0 \/ a = 1 \/ a = 2 \/ a = 3 \/ a = 4 \/ a = 5) as Ca by lia.
  assert (b = 0 \/ b = 1 \/ b = 2 \/ b = 3 \/ b = 4 \/ b = 5) as Cb by lia.
  clearbody a b. destruct (a =? SEC_DOMAIN_KERNEL) eqn:Ek; [done|]. cbn [orb].
  destruct (Z.eqb_spec a b) as [<-|Hne].
  - (* the same domain *)
    assert (Hf : find_from (fun i => (subject_domain (default_policies ++ replicate 122 zero_policy).[i] =? a) &&
      (object_domain (default_policies ++ replicate 122 zero_policy).[i] =? a)) (Z.to_nat 6) 0 = None).
    { destruct Ca as [->|[->|[->|[->|[->| ->]]]]]; vm_compute; reflexivity. }
    rewrite Hf. cbn [fmap option_fmap option_map orb].
    assert ((a =? SEC_DOMAIN_ISOLATED) && (a =? SEC_DOMAIN_SYSTEM) = false) as Hi
      by (unfold SEC_DOMAIN_ISOLATED, SEC_DOMAIN_SYSTEM; lia).
    assert ((a =? SEC_DOMAIN_APP) && (a =? SEC_DOMAIN_SYSTEM) = false) as Hp'
      by (unfold SEC_DOMAIN_APP, SEC_DOMAIN_SYSTEM; lia).
    destruct (lb_type obj =? SEC_TYPE_FILE); cbn [andb]; rewrite ?Hi, ?Hp'; cbn [andb]; destruct sock,
      (has perm MAC_PERM_ADMIN), (has (lb_caps subj) CAP_SYS_ADMIN); done.
  - (* another domain *)
    assert (Hr : 0 <= mac_right a b) by (unfold mac_right; repeat case_match; done).
    pose proof (land_sub (mac_right a b) perm Hr) as Hsub.
    assert (Hpol : match (fun i => (default_policies ++ replicate 122 zero_policy).[i]) <$>
        find_from (fun i => (subject_domain (default_policies ++ replicate 122 zero_policy).[i] =? a) &&
          (object_domain (default_policies ++ replicate 122 zero_policy).[i] =? b)) (Z.to_nat 6) 0 with
      | Some pol => Z.land (permissions pol) perm =? perm
      | None => false || (perm =? MAC_PERM_READ) end = (Z.land (mac_right a b) perm =? perm)).
    { destruct Ca as [->|[->|[->|[->|[->| ->]]]]]; [done|..];
      destruct Cb as [->|[->|[->|[->|[->| ->]]]]]; try done;
      match goal with |- context [find_from ?p ?n ?i] =>
        let v := eval vm_compute in (find_from p n i) in
        replace (find_from p n i) with v by (vm_compute; reflexivity) end;
      cbn [fmap option_fmap option_map orb];
      match goal with |- context [mac_right ?x ?y] =>
        let v := eval vm_compute in (mac_right x y) in change (mac_right x y) with v in * end;
      try (vm_compute; reflexivity); by apply land_one. }
    rewrite Hpol. clear Hpol. destruct (Z.land (mac_right a b) perm =? perm) eqn:Eg; cycle 1.
    { rewrite andb_false_r. by repeat case_match. }
    apply Z.eqb_eq, Hsub in Eg.
    assert (mac_right a b <= 5) by (unfold mac_right; repeat case_match; vm_compute; discriminate).
    assert (has perm MAC_PERM_ADMIN = false) as ->.
    { assert (perm = 1 \/ perm = 2 \/ perm = 3 \/ perm = 4 \/ perm = 5) as Cp by lia.
      by destruct Cp as [->|[->|[->|[->| ->]]]]. }
    cbn [andb]. rewrite andb_true_r.
    assert ((a =? SEC_DOMAIN_ISOLATED) && (b =? SEC_DOMAIN_SYSTEM) = false) as Hi.
    { apply not_true_is_false. intros [->%Z.eqb_eq ->%Z.eqb_eq]%andb_true_iff. change (perm <= 0) in Eg. lia. }
    assert ((a =? SEC_DOMAIN_APP) && (b =? SEC_DOMAIN_SYSTEM) && has perm MAC_PERM_WRITE = false) as Hw.
    { apply not_true_is_false. intros [[->%Z.eqb_eq ->%Z.eqb_eq]%andb_true_iff Hw]%andb_true_iff.
      change (perm <= 1) in Eg. by replace perm with 1 in Hw by lia. }
    destruct (lb_type obj =? SEC_TYPE_FILE); cbn [andb]; rewrite ?Hi, ?Hw; by destruct sock.
Qed.

(** The first rule that decides settles the access. *)
Lemma rules_verdict_first l1 r l2 type path access v :
  (forall r', r' ∈ l1 -> rule_verdict r' type path access = None) ->
  rule_verdict r type path access = Some v -> rules_verdict (l1 ++ r :: l2) type path access = v.
Proof.
  intros Hl1 Hr. induction l1 as [|r' l1 IH]; cbn [app rules_verdict].
  - by rewrite Hr.
  - rewrite Hl1 by set_solver. apply IH. set_solver.
Qed.

Lemma denies_root_verdict id s p access :
  denies_root id s ->
  rules_verdict (take (Z.to_nat (sb_rule_count (sandboxes s).[id])) (sb_rules (sandboxes s).[id]))
    SB_TARGET_FILE (47 :: p) access = Deny.
Proof.
  intros (_ & _ & Hc & Hr). set (b := (sandboxes s).[id]) in *.
  destruct (Z.to_nat (sb_rule_count b)) as [|n] eqn:En; [lia|].
  destruct (sb_rules b) as [|r l]; [done|]. cbn [take rules_verdict].
  change ((r :: l).[0]) with r in Hr. subst r. done.
Qed.

(** [strncmp(path, target, strlen(target)) == 0] is the prefix test. *)
Lemma strncmp_prefix m p1 p2 path target :
  cstr m p1 path -> cstr m p2 target ->
  (strncmp (length target) m p1 p2 =? 0) = starts_with target path.
Proof.
  intros H1 H2. rewrite (strncmp_cstr m p1 p2 path target) by done. unfold starts_with.
  apply Bool.eq_iff_eq_true. rewrite Z.eqb_eq, bool_decide_eq_true, (take_ge target) by lia.
  apply lex_diff_zero; [apply Forall_take|]; by eapply cstr_nonzero.
Qed.

(** ** Random numbers *)

Lemma lxor_range n x y : 0 <= n -> 0 <= x < 2 ^ n -> 0 <= y < 2 ^ n -> 0 <= Z.lxor x y < 2 ^ n.
Proof.
  intros Hn Hx Hy. assert (0 <= Z.lxor x y) by (apply Z.lxor_nonneg; lia).
  split; [done|]. apply word_bound_bits; [done|done|]. intros i Hi.
  by rewrite Z.lxor_spec, (testbit_high x n i), (testbit_high y n i).
Qed.

Lemma shiftr_lt x k : 0 < x -> 0 < k -> 0 <= Z.shiftr x k < x.
Proof.
  intros Hx Hk. rewrite Z.shiftr_div_pow2 by lia. assert (2 <= 2 ^ k).
  { change 2 with (2 ^ 1) at 1. apply Z.pow_le_mono_r; lia. }
  split; [apply Z.div_pos; lia|]. apply Z.div_lt; lia.
Qed.

Definition seed_ok (x : Z) : Prop := 0 < x < 2 ^ 64.

Lemma xor_shift_right x k : 0 < k -> seed_ok x -> seed_ok (Z.lxor x (Z.shiftr x k)).
Proof.
  unfold seed_ok. intros Hk Hx. pose proof (shiftr_lt x k ltac:(lia) Hk).
  pose proof (lxor_range 64 x (Z.shiftr x k) ltac:(lia) ltac:(lia) ltac:(lia)).
  assert (Z.lxor x (Z.shiftr x k) <> 0); [|lia]. intros E%Z.lxor_eq. lia.
Qed.

Lemma xor_shift_left x : seed_ok x -> seed_ok (Z.lxor x (u64 (Z.shiftl x 25))).
Proof.
  unfold seed_ok. intros Hx. pose proof (u64_range (Z.shiftl x 25)) as Hu.
  pose proof (lxor_range 64 x (u64 (Z.shiftl x 25)) ltac:(lia) ltac:(lia) Hu).
  assert (Z.lxor x (u64 (Z.shiftl x 25)) <> 0); [|lia]. intros E%Z.lxor_eq.
  rewrite Z.shiftl_mul_pow2 in E by lia. unfold u64 in E.
  assert (Hd : (2 ^ 64 | (2 ^ 25 - 1) * x)).
  { exists (x * 2 ^ 25 / 2 ^ 64). pose proof (Z.div_mod (x * 2 ^ 25) (2 ^ 64) ltac:(lia)). lia. }
  apply Z.gauss in Hd; [|reflexivity]. apply Z.divide_pos_le in Hd; lia.
Qed.

Lemma xorshift_ok x : seed_ok x -> seed_ok (xorshift x).
Proof. intros Hx. unfold xorshift. apply xor_shift_right, xor_shift_left, xor_shift_right; done || lia. Qed.

Lemma random_offset_pages bits r : 12 <= bits ->
  random_offset bits r = 4096 * (r mod 2 ^ bits / 4096) /\ 0 <= r mod 2 ^ bits / 4096 < 2 ^ (bits - 12).
Proof.
  intros Hb. unfold random_offset. rewrite Z.shiftl_1_l.
  replace (2 ^ bits - 1) with (Z.ones bits) by (rewrite Z.ones_equiv; lia). rewrite Z.land_ones by lia.
  change 0xFFF with (2 ^ 12 - 1). rewrite land_lnot_ones by lia. change (2 ^ 12) with 4096.
  pose proof (Z.mod_pos_bound r (2 ^ bits) ltac:(lia)).
  split; [lia|]. split; [apply Z.div_pos; lia|]. apply Z.div_lt_upper_bound; [lia|].
  replace (4096 * 2 ^ (bits - 12)) with (2 ^ bits); [lia|].
  change 4096 with (2 ^ 12). rewrite <- Z.pow_add_r by lia. f_equal. lia.
Qed.

Lemma seed_ok_effects : effects_ok (fun _ => True)
  (fun s s' => seed_ok (aslr_prng_seed s) -> seed_ok (aslr_prng_seed s')).
Proof.
  split; intros; [done|auto| |done..|by apply xorshift_ok|done| |done|done|done|done| |done| | |done].
  - by destruct (audit_log_frame t s ty p u r f a) as (? & ? & ? & ->).
  - unfold cfi_register_function in *. by destruct (_ <=? _).
  - destruct (sandbox_setup_frame s i n o) as [l E]. unfold sandbox_new. by rewrite E.
  - destruct (sandbox_setup_frame s i n o) as [l E]. unfold sandbox_drop, sandbox_new. by rewrite E.
  - by destruct (sb_only_add s s id a ty tg (sb_only_refl s)) as [l ->].
Qed.

(** The verified-boot header never changes. *)
Lemma vb_effects : effects_ok (fun _ => True) (fun s s' => vb s' = vb s).
Proof.
  split; intros; [done|congruence| |done..| |done|done|done|done| |done| | |done].
  - by destruct (audit_log_frame t s ty p u r f a) as (? & ? & ? & ->).
  - unfold cfi_register_function in *. by destruct (_ <=? _).
  - destruct (sandbox_setup_frame s i n o) as [l E]. unfold sandbox_new. by rewrite E.
  - destruct (sandbox_setup_frame s i n o) as [l E]. unfold sandbox_drop, sandbox_new. by rewrite E.
  - by destruct (sb_only_add s s id a ty tg (sb_only_refl s)) as [l ->].
Qed.

(** * Properties *)

(** The calls that leave the access policy alone. *)
Definition no_admin (op : sec_op) : Prop :=
  match op with OpAddPolicy _ _ _ | OpSetEnforcing _ | OpShell _ _ _ => False | _ => True end.


(** C23 In every reachable state the sandbox count is the number of active sandboxes,
    at most 64; [sandbox_create] takes the lowest free slot and fails exactly when
    there is none.  The rule table is read first match first, so the rule that
    denies ["/"], which a new sandbox begins with, shadows every other file rule:
    whatever is called afterwards, short of destroying the sandbox, no absolute
    path can be opened in it, not even the devices its own rules allow. *)
Theorem sandbox_first_rule_wins (s : security) (Hs : sec_reachable s) :
  table_ok s /\ 0 <= sandbox_count s <= SANDBOX_MAX /\
  forall t name owner,
    let '(s', id) := sandbox_create t s (Some name) owner in
    (id = -1 -> s' = s /\ sandbox_count s = SANDBOX_MAX) /\
    (id <> -1 -> 0 <= id < SANDBOX_MAX /\ active s id = false /\ (forall j, 0 <= j < id -> active s j = true) /\
       sandbox_count s' = sandbox_count s + 1 /\ (sandboxes s').[id] = fresh_sandbox s id name owner /\
       forall ops p access u, Forall (fun x => needs (fun k => k <> KDestroy id) (snd x)) ops ->
         snd (sandbox_check_access u (sec_run ops s') id SB_TARGET_FILE (Some (47 :: p)) access) = -1).
Proof.
  pose proof (reachable_table s Hs) as Hok. pose proof Hok as (Hl & _ & Hc).
  pose proof (filter_active_bound s Hok) as Hb. split; [done|]. split; [lia|]. intros t name owner.
  destruct (find_from (fun i => negb (active s i)) (Z.to_nat SANDBOX_MAX) 0) as [i|] eqn:E.
  - rewrite (sandbox_create_new t s name owner i E). destruct (free_slot _ _ E) as [Hi Ha].
    split; [lia|]. intros _. split; [done|]. split; [done|].
    apply find_from_Some in E as (_ & _ & Hlow). split.
    { intros j Hj. apply negb_false_iff, Hlow. lia. }
    pose proof (table_new s i name owner Hi Ha Hok) as Hnew. set (s1 := sandbox_new s i name owner) in *.
    assert (E1 : s1 = (slot_set s i (fresh_sandbox s i name owner)) <| sandbox_count := u32 (sandbox_count s + 1) |>).
    { unfold s1, sandbox_new. by rewrite sandbox_setup_eq. }
    assert (Hslot : (sandboxes s1).[i] = fresh_sandbox s i name owner).
    { rewrite E1. unfold slot_set. rec_simpl. apply aget_aset_eq. lia. }
    assert (Hcount : sandbox_count s1 = sandbox_count s + 1).
    { destruct Hnew as (Hl1 & _ & Hc1). rewrite Hc1. rewrite E1. unfold slot_set. rec_simpl.
      pose proof (active_count_set (sandboxes s) i (fresh_sandbox s i name owner) ltac:(lia)) as H.
      destruct (decide (is_active (sandboxes s).[i])) as [Hx|_]; [apply active_spec in Hx; congruence|].
      destruct (decide (is_active (fresh_sandbox s i name owner))) as [_|Hx]; [lia|by destruct Hx]. }
    assert (Hd : denies_root i s1).
    { split; [done|]. unfold active. rewrite Hslot. done. }
    set (s2 := audit_log _ _ _ _ _ _ _ _).
    assert (Hfr : sandboxes s2 = sandboxes s1 /\ sandbox_count s2 = sandbox_count s1).
    { unfold s2. by destruct (audit_log_frame t s1 AUDIT_SECURITY owner 0 0
        "Sandbox created: %s (id=%d)" [VStr name; VNum i]) as (? & ? & ? & ->). }
    destruct Hfr as [F1 F2]. rewrite F1, F2. split; [done|]. split; [done|].
    intros ops p access u Hops. assert (Hd2 : denies_root i s2) by (by eapply denies_root_same).
    assert (Hd3 : denies_root i (sec_run ops s2)).
    { by apply (sec_run_effect _ _ (denies_root_effects i Hi) ops s2 Hops). }
    unfold sandbox_check_access. destruct (Z.leb_spec SANDBOX_MAX i); [lia|].
    pose proof Hd3 as (_ & -> & _). cbn [negb]. by rewrite (denies_root_verdict i _ p access Hd3).
  - unfold sandbox_create. rewrite E. split; [|done]. intros _. split; [done|].
    rewrite find_from_None in E. rewrite Hc. rewrite (filter_all is_active).
    + done.
    + intros b (k & Hk)%list_elem_of_lookup_1. apply lookup_lt_Some in Hk as Hlt.
      specialize (E (Z.of_nat k)). unfold zlen, SANDBOX_MAX in *.
      replace b with ((sandboxes s).[Z.of_nat k]).
      * apply active_spec, negb_false_iff, E. lia.
      * unfold aget. rewrite Nat2Z.id. by apply list_lookup_total_correct.
Qed.

(** C24 The audit log is append-only: every call other than [audit_clear] (and the
    shell, which reaches it) only adds entries, the newest 4096 of which are kept in
    order; [audit_log] adds exactly one when logging is on, with the message cut to
    255 characters, and [audit_print_recent] shows the newest first. *)
Theorem audit_log_append_only (s : security) (Hs : sec_reachable s) :
  (forall t op, needs (fun k => k <> KClear) op ->
     exists l, audit_list (sec_do t op s) = newest (Z.to_nat AUDIT_MAX_ENTRIES) (audit_list s ++ l)) /\
  (forall t type pid uid result l args out, fmt_ok l -> Forall (fun c => c <> 0) (fmt_text l) ->
     Forall value_ok args -> render true l args = Some out -> forall fmt, chars fmt = fmt_text l ->
     audit_list (audit_log t s type pid uid result fmt args) =
     if audit_enabled s =? 0 then audit_list s else
     newest (Z.to_nat AUDIT_MAX_ENTRIES)
       (audit_list s ++ [mk_entry t type pid uid (u32 result) (take 255 out)])) /\
  (forall n, 0 <= n -> audit_recent s n =
     take (if n =? 0 then length (audit_list s) else Z.to_nat n) (reverse (audit_list s))) /\
  audit_list (audit_clear s) = [].
Proof.
  pose proof (reachable_ring s Hs) as Hr. split; [|split; [|split]].
  - intros t op Hop. by destruct (sec_do_effect _ _ grows_ok t op s Hop Hr).
  - intros t type pid uid result l args out Hf Hnz Ha Hout fmt Efmt.
    rewrite (proj2 (audit_log_ring t s type pid uid result fmt args Hr)).
    unfold audit_message. rewrite Efmt, (format_text_render AUDIT_MSG_LEN l args out) by done. done.
  - intros n Hn. by apply audit_recent_newest.
  - done.
Qed.

(** Exploit mitigations.  The random number generator never falls into its fixed
    point 0, unless it is seeded with it; the stack moves down by 0 to 15 pages, a
    mapping up by 0 to 3 and a program by 0 to 63; a mapping also moves by the part
    of its size below a page.  A canary is accepted exactly when it is the system's
    or the one the generator makes next, so the one it made last is not, as a rule.
    A branch target is accepted exactly when it lies between the first and the last
    address, inclusive, of a registered function; otherwise the violation is
    counted, and strict mode makes no difference. *)
Theorem mitigation_strength (t : Z) (s0 : security) (ticks : Z) (ops : list (Z * sec_op))
    (Hticks : 0 <= ticks < 2 ^ 64) (Hseed : ticks <> 0xDEADBEEFCAFEBABE) :
  let s := sec_run ops (security_init t s0 ticks) in
  seed_ok (aslr_prng_seed s) /\
  (forall base, exists j, 0 <= j < 16 /\ snd (aslr_randomize_stack s base) = u64 (base - 4096 * j) \/
     snd (aslr_randomize_stack s base) = base /\ (aslr_enabled (aslr s) = 0 \/ stack_randomization (aslr s) = 0)) /\
  (forall base size, exists j, 0 <= j < 4 /\
       snd (aslr_randomize_mmap s base size) = u64 (base + 4096 * j + size mod 4096) \/
     snd (aslr_randomize_mmap s base size) = base /\ (aslr_enabled (aslr s) = 0 \/ mmap_randomization (aslr s) = 0)) /\
  (forall base, exists j, 0 <= j < 64 /\ snd (aslr_randomize_pie s base) = u64 (base + 4096 * j) \/
     snd (aslr_randomize_pie s base) = base /\ (aslr_enabled (aslr s) = 0 \/ pie_randomization (aslr s) = 0)) /\
  (forall u c, snd (canary_verify u s c) = 0 <-> c = snd (canary_generate s) \/ c = system_canary s) /\
  (forall u caller tgt, let '(s', r) := cfi_verify_target u s caller tgt in
     (r = 0 <-> cfi_enabled (cfi s) = 0 \/ exists i, 0 <= i < shadow_count (cfi s) /\
        function_start (shadow_stack (cfi s)).[i] <= tgt <= function_end (shadow_stack (cfi s)).[i]) /\
     (r = 0 -> s' = s) /\ (r <> 0 -> r = -1 /\ violations (cfi s') = u32 (violations (cfi s) + 1))).
Proof.
  intros s. split; [|split; [|split; [|split; [|split]]]].
  - apply (sec_run_effect _ _ seed_ok_effects ops _ (needs_all ops)). rewrite init_seed.
    pose proof (lxor_range 64 ticks 0xDEADBEEFCAFEBABE ltac:(lia) Hticks ltac:(lia)).
    assert (Z.lxor ticks 0xDEADBEEFCAFEBABE <> 0) by (intros E%Z.lxor_eq; done). unfold seed_ok. lia.
  - intros base. unfold aslr_randomize_stack, aslr_prng.
    destruct (Z.eqb_spec (aslr_enabled (aslr s)) 0), (Z.eqb_spec (stack_randomization (aslr s)) 0);
      cbn [orb snd]; [exists 0; auto..|].
    destruct (random_offset_pages ASLR_STACK_BITS (u64 (xorshift (aslr_prng_seed s) * 0x2545F4914F6CDD1D)))
      as [-> Hj]; [done|]. eexists. left. split; [exact Hj|done].
  - intros base size. unfold aslr_randomize_mmap, aslr_prng.
    destruct (Z.eqb_spec (aslr_enabled (aslr s)) 0), (Z.eqb_spec (mmap_randomization (aslr s)) 0);
      cbn [orb snd]; [exists 0; auto..|].
    cbv zeta. cbn [snd]. set (r := u64 (xorshift _ * _)). rewrite (Z.land_assoc r).
    destruct (random_offset_pages ASLR_MMAP_BITS r) as [E Hj]; [done|]. unfold random_offset in E. rewrite E.
    change 0xFFF with (Z.ones 12). rewrite Z.land_ones by lia. eexists. left. split; [exact Hj|done].
  - intros base. unfold aslr_randomize_pie, aslr_prng.
    destruct (Z.eqb_spec (aslr_enabled (aslr s)) 0), (Z.eqb_spec (pie_randomization (aslr s)) 0);
      cbn [orb snd]; [exists 0; auto..|].
    destruct (random_offset_pages ASLR_PIE_BITS (u64 (xorshift (aslr_prng_seed s) * 0x2545F4914F6CDD1D)))
      as [-> Hj]; [done|]. eexists. left. split; [exact Hj|done].
  - intros u c. unfold canary_verify. destruct (canary_generate s) as [s' e] eqn:E.
    assert (system_canary s' = system_canary s) as -> by (unfold canary_generate, aslr_prng in E; by injection E as <- _).
    cbn [snd]. destruct (Z.eqb_spec c e), (Z.eqb_spec c (system_canary s)); cbn [negb andb snd]; naive_solver.
  - intros u caller tgt. unfold cfi_verify_target. destruct (Z.eqb_spec (cfi_enabled (cfi s)) 0); [naive_solver|].
    destruct (find_from _ _ _) as [i|] eqn:E.
    + split; [|naive_solver]. split; [|done]. intros _. right. apply find_from_Some in E as (Hi & Hp & _).
      exists i. apply andb_true_iff in Hp as [?%Z.leb_le ?%Z.leb_le]. lia.
    + split; [|split; [done|]].
      * split; [done|]. intros [?|(i & Hi & Hp)]; [done|]. rewrite find_from_None in E.
        specialize (E i ltac:(lia)). cbn beta zeta in E. lia.
      * intros _. split; [done|]. unfold cfi_violation.
        by destruct (audit_log_frame u (s <| cfi := (cfi s) <| violations := u32 (violations (cfi s) + 1) |> |>)
          AUDIT_SECURITY 0 0 (-1) "CFI violation: expected=%p actual=%p" [VNum 0; VNum tgt]) as (? & ? & ? & ->).
Qed.

(** Verified boot verifies nothing: no call enters a partition into the header, so
    every partition is refused, and the chain is declared verified whenever it is
    asked for, also after a failure.  The checksum it would use does not depend on
    the order of bytes four apart. *)
Theorem verified_boot_is_vacuous (s : security) (Hs : sec_reachable s) :
  (forall name data, snd (vb_verify_partition s name data) = -1) /\
  (forall t, snd (vb_verify_chain t s) = 0 /\ boot_state (fst (vb_verify_chain t s)) = BOOT_STATE_GREEN) /\
  pkg_hash_sha256 [1; 2; 3; 4; 5; 6; 7; 8] = pkg_hash_sha256 [5; 2; 3; 4; 1; 6; 7; 8].
Proof.
  assert (Hv : vb_partition_count (vb s) = 0 /\ vb_magic (vb s) = VB_MAGIC).
  { destruct Hs as (t & s0 & ticks & ops & ->).
    rewrite (sec_run_effect _ _ vb_effects ops _ (needs_all ops)). by split; vm_compute. }
  destruct Hv as [Hc Hm]. split; [|split].
  - intros [name|] [data|]; try done. cbn. rewrite Hc. by destruct (zlen data =? 0).
  - intros t. unfold vb_verify_chain. rewrite Hm. cbn [negb Z.eqb].
    rewrite Z.eqb_refl. cbn [negb fst snd]. split; [done|].
    by destruct (audit_log_frame t (s <| boot_state := BOOT_STATE_GREEN |>) AUDIT_SECURITY 0 0 0
      "Boot chain verified, state=GREEN" []) as (? & ? & ? & ->).
  - vm_compute. reflexivity.
Qed.

(** What does not do what it says: a label or capability of a process never
    matters; the shell creates a sandbox for an argument one above ["create"], not
    for ["create"] itself; a generated canary fails its own verification. *)
Theorem security_gaps :
  let s := security_init 0 (zero_security 1) 1000 in
  mac_check_capability 1 CAP_PEN_TEST = 0 /\ mac_check_capability 1 CAP_KILL = -1 /\
  mac_part (mac_set_domain 5 s 1 SEC_DOMAIN_KERNEL) = mac_part s /\
  sandbox_count (security_shell_dispatch 5 s 1 (chars "sandbox") [chars "create"; chars "x"]) = 0 /\
  sandbox_count (security_shell_dispatch 5 s 1 (chars "sandbox") [chars "creatf"; chars "x"]) = 1 /\
  (let '(s', c) := canary_generate s in snd (canary_verify 5 s' c)) = -1.
Proof. cbv zeta. repeat (lazymatch goal with |- _ /\ _ => split end); vm_compute; reflexivity. Qed.

(** * Witnesses *)

Definition demo_security : security := security_init 0 (zero_security 1) 1000.
Definition demo_subject : mac_label := mk_label SEC_DOMAIN_APP SEC_CTX_INTERNAL SEC_TYPE_PROCESS 0 0.
Definition demo_object : mac_label := mk_label SEC_DOMAIN_KERNEL SEC_CTX_INTERNAL SEC_TYPE_FILE 0 0.


Lemma demo_sec_reachable : sec_reachable demo_security.
Proof.
  unfold sec_reachable. exists 0, (zero_security 1), 1000, []. unfold demo_security, sec_run. cbn [foldl].
  exact eq_refl.
Qed.

Lemma sandbox_first_rule_wins_witness :
  table_ok demo_security /\
  snd (sandbox_check_access 9 (fst (sandbox_create 5 demo_security (Some (chars "x")) 1)) 0 SB_TARGET_FILE
    (Some (chars "/dev/null")) MAC_PERM_READ) = -1.
Proof.
  destruct (sandbox_first_rule_wins demo_security demo_sec_reachable) as (H1 & _ & H). split; [exact H1|].
  specialize (H 5 (chars "x") 1).
  assert (E : snd (sandbox_create 5 demo_security (Some (chars "x")) 1) = 0) by (vm_compute; reflexivity).
  destruct (sandbox_create 5 demo_security (Some (chars "x")) 1) as [s' id]. cbn [fst snd] in *. subst id.
  destruct H as [_ (_ & _ & _ & _ & _ & H)]; [discriminate|].
  exact (H [] (chars "dev/null") MAC_PERM_READ 9 ltac:(constructor)).
Defined.

Lemma audit_log_append_only_witness :
  map ae_message (audit_recent (audit_log 3 demo_security AUDIT_SECURITY 1 0 0 "id=%d" [VNum 7]) 1) = [chars "id=7"].
Proof.
  destruct (audit_log_append_only demo_security demo_sec_reachable) as (_ & H & _ & _).
  assert (E := H 3 AUDIT_SECURITY 1 0 0 [Lit 105; Lit 100; Lit 61; Conv false false [] false 100] [VNum 7]
    (chars "id=7") ltac:(repeat split; try done; constructor) ltac:(repeat constructor; discriminate)
    ltac:(repeat constructor) ltac:(vm_compute; reflexivity) "id=%d"%string ltac:(reflexivity)).
  vm_compute. reflexivity.
Defined.

Lemma mitigation_strength_witness :
  let s := sec_run [] (security_init 0 (zero_security 1) 1000) in
  seed_ok (aslr_prng_seed s) /\
  exists j, 0 <= j < 16 /\ snd (aslr_randomize_stack s 0x100000) = u64 (0x100000 - 4096 * j).
Proof.
  destruct (mitigation_strength 0 (zero_security 1) 1000 [] ltac:(lia) ltac:(lia)) as (H1 & H2 & _).
  cbv zeta. split; [exact H1|].
  destruct (H2 0x100000) as [j [Hj|[_ [Hj|Hj]]]]; [by exists j|vm_compute in Hj; discriminate Hj..].
Defined.
