(* ===== verification/Heap.v ===== *)
(** Kernel heap ([src/mm.c], second part): [kmalloc], [kfree], [kcalloc],
    [krealloc] over a list of block headers threaded through the heap memory.

    The headers are a store from addresses to [heap_block]; a header that is
    merged away stays in the store, as it stays in memory.  The payload bytes
    are a separate byte memory.  The walk along the list takes fuel ([fuel], more
    than the number of blocks) and the retry after growing the heap is counted
    by [rounds]; [None] is either of them running out or a read past the page
    bitmap in [pmm_alloc_n]. *)
From S2P Require Import Prelude Pmm CString.

Definition HEAP_MAGIC : Z := 0xCE150007.
(** [sizeof(heap_block_t)]: 8 + 4 + 4 + 8 bytes *)
Definition HDR : Z := 24.

Record heap_block := mkBlock {
  hb_size : Z;
  hb_used : Z;
  hb_magic : Z;
  hb_next : Z
}.
#[export] Instance eta_heap_block : Eta heap_block := fun b =>
  mkBlock (hb_size b) (hb_used b) (hb_magic b) (hb_next b).

Record heap := mkHeap {
  hp_block : Z -> heap_block;
  heap_start : Z;
  heap_size : Z;
  hp_mem : mem;
  hp_pmm : pmm
}.
#[export] Instance eta_heap : Eta heap := fun h =>
  mkHeap (hp_block h) (heap_start h) (heap_size h) (hp_mem h) (hp_pmm h).

(** [h->field = v] on the header at [a] *)
Definition set_block (h : heap) (a : Z) (b : heap_block) : heap :=
  h <| hp_block := <[a := b]> (hp_block h) |>.

(** [lo] and [hi] are the linker symbols [__heap_start] and [__heap_end]. *)
Definition kmalloc_init (h : heap) (lo hi : Z) : heap :=
  let size := hi - lo in
  (set_block h lo (mkBlock (size - HDR) 0 HEAP_MAGIC NULL))
    <| heap_start := lo |> <| heap_size := size |>.

Inductive scan :=
| ScanFit (a : Z)        (** the first free block that is large enough *)
| ScanCorrupt (a : Z)    (** a header without the magic number *)
| ScanEnd                (** no block fits *)
| ScanFuel.

Fixpoint heap_scan (fuel : nat) (blk : Z -> heap_block) (current size : Z) : scan :=
  match fuel with
  | O => ScanFuel
  | S f =>
      if current =? NULL then ScanEnd else
      let b := blk current in
      if negb (hb_magic b =? HEAP_MAGIC) then ScanCorrupt current else
      if (hb_used b =? 0) && (size <=? hb_size b) then ScanFit current
      else heap_scan f blk (hb_next b) size
  end.

(** Taking the block at [a]: split off the rest when it is large enough. *)
Definition heap_take (h : heap) (a size : Z) : heap :=
  let b := hp_block h a in
  if u64 (size + HDR + 16) <=? hb_size b then
    let nb := a + HDR + size in
    let h1 := set_block h nb (mkBlock (hb_size b - size - HDR) 0 HEAP_MAGIC (hb_next b)) in
    set_block h1 a (mkBlock size 1 (hb_magic b) nb)
  else set_block h a (b <| hb_used := 1 |>).

(** The pages obtained from the page allocator become the first block. *)
Definition heap_grow (h : heap) (new_pages pages : Z) : heap :=
  (set_block h new_pages (mkBlock (pages * PAGE_SIZE - HDR) 0 HEAP_MAGIC (heap_start h)))
    <| heap_start := new_pages |>.

Fixpoint kmalloc (rounds fuel : nat) (h : heap) (size : Z) : option (heap * Z) :=
  match rounds with
  | O => None
  | S r =>
      if size =? 0 then Some (h, NULL) else
      let size := ALIGN_UP size 16 in
      match heap_scan fuel (hp_block h) (heap_start h) size with
      | ScanFuel => None
      | ScanCorrupt _ => Some (h, NULL)
      | ScanFit a => Some (heap_take h a size, a + HDR)
      | ScanEnd =>
          let pages_needed := ALIGN_UP (u64 (size + HDR)) PAGE_SIZE / PAGE_SIZE in
          match pmm_alloc_n (hp_pmm h) pages_needed with
          | None => None
          | Some (p', new_pages) =>
              let h1 := h <| hp_pmm := p' |> in
              if new_pages =? 0 then Some (h1, NULL)
              else kmalloc r fuel (heap_grow h1 new_pages pages_needed) size
          end
      end
  end.

Definition kfree (h : heap) (ptr : Z) : heap :=
  if ptr =? NULL then h else
  let a := ptr - HDR in
  let block := hp_block h a in
  if negb (hb_magic block =? HEAP_MAGIC) then h else
  if hb_used block =? 0 then h else
  let block := block <| hb_used := 0 |> in
  let h1 := set_block h a block in
  let nxt := hp_block h1 (hb_next block) in
  if negb (hb_next block =? NULL) && (hb_used nxt =? 0) then
    set_block h1 a (block <| hb_size := u64 (hb_size block + (HDR + hb_size nxt)) |>
                          <| hb_next := hb_next nxt |>)
  else h1.

Definition kcalloc (rounds fuel : nat) (h : heap) (nmemb size : Z) : option (heap * Z) :=
  let total := u64 (nmemb * size) in
  match kmalloc rounds fuel h total with
  | None => None
  | Some (h', ptr) =>
      if ptr =? NULL then Some (h', ptr)
      else Some (h' <| hp_mem := memset (hp_mem h') ptr 0 total |>, ptr)
  end.

Definition krealloc (rounds fuel : nat) (h : heap) (ptr new_size : Z) : option (heap * Z) :=
  if ptr =? NULL then kmalloc rounds fuel h new_size else
  if new_size =? 0 then Some (kfree h ptr, NULL) else
  if new_size <=? hb_size (hp_block h (ptr - HDR)) then Some (h, ptr) else
  match kmalloc rounds fuel h new_size with
  | None => None
  | Some (h', new_ptr) =>
      if new_ptr =? NULL then Some (h', new_ptr) else
      let h1 := h' <| hp_mem := memcpy (hp_mem h') new_ptr ptr
                                  (hb_size (hp_block h' (ptr - HDR))) |> in
      Some (kfree h1 ptr, new_ptr)
  end.

(** A heap of one page beside a page allocator with 19 free pages. *)
Definition demo_heap : heap :=
  kmalloc_init
    (mkHeap (fun _ => mkBlock 0 0 0 0) 0 0 (fun _ => 0) (pmm_init 4096 (20 * PAGE_SIZE) 0))
    0x50000000 0x50001000.
Definition kmalloc_demo (h : heap) (size : Z) : heap * Z := default (h, -1) (kmalloc 30 100 h size).

(** * Well-formed heaps *)

Definition nx (h : heap) : Z -> Z := fun a => hb_next (hp_block h a).

(** The blocks [l] lie one after the other from [s] to [e]. *)
Fixpoint tiles (h : heap) (s : Z) (l : list Z) (e : Z) : Prop :=
  match l with
  | [] => s = e
  | a :: l' => a = s /\ 0 <= hb_size (hp_block h a) /\ tiles h (a + HDR + hb_size (hp_block h a)) l' e
  end.

(** A heap that is one region [s, e): the list visits its blocks in order. *)
Record heap_wf (h : heap) (l : list Z) (s e : Z) : Prop := {
  hw_start : 0 < s;
  hw_end : e < 2 ^ 63;
  hw_chain : chain (nx h) (heap_start h) l;
  hw_tiles : tiles h s l e;
  hw_magic : Forall (fun a => hb_magic (hp_block h a) = HEAP_MAGIC) l
}.

Definition used (h : heap) (a : Z) : Prop := hb_used (hp_block h a) <> 0.
(** The bytes a client may use of the block at [a]. *)
Definition payload (h : heap) (a x : Z) : Prop :=
  a + HDR <= x < a + HDR + hb_size (hp_block h a).

Lemma hp_block_set h a b x : hp_block (set_block h a b) x = if x =? a then b else hp_block h x.
Proof.
  unfold set_block. rec_simpl. destruct (Z.eqb_spec x a) as [->|].
  - apply fn_lookup_insert.
  - by apply fn_lookup_insert_ne.
Qed.

Lemma tiles_app h s l1 l2 e : tiles h s (l1 ++ l2) e <-> exists m, tiles h s l1 m /\ tiles h m l2 e.
Proof.
  revert s. induction l1 as [|a l1 IH]; intros s; cbn [app tiles].
  - naive_solver.
  - rewrite IH. naive_solver.
Qed.

Lemma tiles_ext h h' s l e :
  (forall x, x ∈ l -> hb_size (hp_block h' x) = hb_size (hp_block h x)) ->
  tiles h s l e -> tiles h' s l e.
Proof.
  revert s. induction l as [|a l IH]; intros s Hx; cbn [tiles]; [done|].
  intros (-> & ? & ?). rewrite Hx by set_solver. repeat split; try done.
  apply IH; [set_solver|done].
Qed.

Lemma tiles_le h s l e : tiles h s l e -> s <= e.
Proof.
  revert s. induction l as [|a l IH]; intros s; cbn [tiles]; [lia|].
  intros (-> & ? & ?%IH). unfold HDR in *. lia.
Qed.

Lemma tiles_elem h s l e a :
  tiles h s l e -> a ∈ l ->
  s <= a /\ a + HDR + hb_size (hp_block h a) <= e /\ 0 <= hb_size (hp_block h a).
Proof.
  revert s. induction l as [|b l IH]; intros s; cbn [tiles]; [set_solver|].
  intros (-> & Hb & Ht) [->|Ha]%elem_of_cons.
  - apply tiles_le in Ht. unfold HDR in *. lia.
  - destruct (IH _ Ht Ha). unfold HDR in *. lia.
Qed.

(** Two blocks of a tiling never overlap, headers included. *)
Lemma tiles_disjoint h s l e a b :
  tiles h s l e -> a ∈ l -> b ∈ l -> a <> b ->
  a + HDR + hb_size (hp_block h a) <= b \/ b + HDR + hb_size (hp_block h b) <= a.
Proof.
  intros Ht (l1 & l2 & ->)%list_elem_of_split Hb Hne.
  apply tiles_app in Ht as (m & H1 & -> & H0 & H2).
  apply elem_of_app in Hb as [Hb|[->|Hb]%elem_of_cons]; [|done|].
  - right. by destruct (tiles_elem _ _ _ _ _ H1 Hb) as (_ & ? & _).
  - left. by destruct (tiles_elem _ _ _ _ _ H2 Hb).
Qed.

Section one_region.
Context (h : heap) (l : list Z) (s e : Z) (Hwf : heap_wf h l s e).

Lemma hw_block a : a ∈ l ->
  s <= a /\ a + HDR + hb_size (hp_block h a) <= e /\ 0 <= hb_size (hp_block h a) /\
  hb_magic (hp_block h a) = HEAP_MAGIC.
Proof.
  intros Ha. destruct (tiles_elem _ _ _ _ _ (hw_tiles _ _ _ _ Hwf) Ha) as (? & ? & ?).
  pose proof (hw_magic _ _ _ _ Hwf) as Hm. rewrite Forall_forall in Hm. auto.
Qed.

(** The scan finds the first free block that is large enough. *)
Lemma heap_scan_spec size fuel :
  (length l < fuel)%nat ->
  match heap_scan fuel (hp_block h) (heap_start h) size with
  | ScanFit a => exists l1 l2, l = l1 ++ a :: l2 /\ ~ used h a /\ size <= hb_size (hp_block h a) /\
      forall b, b ∈ l1 -> used h b \/ hb_size (hp_block h b) < size
  | ScanEnd => forall b, b ∈ l -> used h b \/ hb_size (hp_block h b) < size
  | _ => False
  end.
Proof.
  pose proof (hw_chain _ _ _ _ Hwf) as Hc. pose proof (hw_magic _ _ _ _ Hwf) as Hm.
  revert Hc Hm. clear Hwf. generalize (heap_start h) as c. revert fuel.
  induction l as [|a l' IH]; intros fuel c Hc Hm Hf; (destruct fuel as [|fuel]; [cbn in Hf; lia|]);
    cbn [heap_scan].
  - rewrite chain_nil in Hc. subst. cbn. set_solver.
  - rewrite chain_cons in Hc. destruct Hc as (-> & Ha & Hc). apply Forall_cons in Hm as [Hma Hm].
    destruct (Z.eqb_spec a NULL); [done|]. rewrite Hma, Z.eqb_refl. cbn [negb].
    destruct (Z.eqb_spec (hb_used (hp_block h a)) 0) as [Hu|Hu]; cbn [andb];
      [destruct (Z.leb_spec size (hb_size (hp_block h a)))|].
    + exists [], l'. split; [done|]. split; [unfold used; lia|]. split; [done|]. set_solver.
    + specialize (IH fuel (nx h a) Hc Hm ltac:(cbn in Hf; lia)). unfold nx in IH.
      destruct (heap_scan fuel _ _ _) as [b|b| |]; try done.
      * destruct IH as (l1 & l2 & -> & ? & ? & Hl1). exists (a :: l1), l2.
        split; [done|]. split; [done|]. split; [done|].
        intros x [->|?]%elem_of_cons; [by right|auto].
      * intros x [->|?]%elem_of_cons; [by right|auto].
    + specialize (IH fuel (nx h a) Hc Hm ltac:(cbn in Hf; lia)). unfold nx in IH.
      destruct (heap_scan fuel _ _ _) as [b|b| |]; try done.
      * destruct IH as (l1 & l2 & -> & ? & ? & Hl1). exists (a :: l1), l2.
        split; [done|]. split; [done|]. split; [done|].
        intros x [->|?]%elem_of_cons; [by left|auto].
      * intros x [->|?]%elem_of_cons; [by left|auto].
Qed.

(** Changing the header of one block [a] and replacing the blocks after it by [r]. *)
Lemma replace_block l1 a l2 h' r :
  l = l1 ++ a :: l2 -> heap_start h' = heap_start h ->
  (forall x, x ∈ l1 -> hp_block h' x = hp_block h x) ->
  chain (nx h') (nx h' a) r -> hb_magic (hp_block h' a) = HEAP_MAGIC ->
  Forall (fun x => hb_magic (hp_block h' x) = HEAP_MAGIC) r ->
  0 <= hb_size (hp_block h' a) ->
  tiles h' (a + HDR + hb_size (hp_block h' a)) r e ->
  heap_wf h' (l1 ++ a :: r) s e.
Proof.
  intros Hl Hst Hl1 Hch Hma Hmag Hsz Ht. destruct Hwf as [H0 He Hc Htl Hm].
  rewrite Hl in Hc, Htl, Hm. split; [done|done|..].
  - rewrite Hst. apply seg_app in Hc as (c & Hc1 & Hc2). apply seg_app. exists c. split.
    + eapply seg_ext; [|exact Hc1]. intros x Hx. unfold nx. by rewrite Hl1.
    + destruct Hc2 as (-> & ? & _). split; [done|]. by split.
  - apply tiles_app in Htl as (c & Ht1 & Ht2). apply tiles_app. exists c. split.
    + eapply tiles_ext; [|exact Ht1]. intros x Hx. by rewrite Hl1.
    + destruct Ht2 as (-> & _ & _). by repeat split.
  - apply Forall_app in Hm as [Hm1 _]. apply Forall_app. split; [|by constructor].
    apply Forall_forall. intros x Hx. rewrite Hl1 by done.
    by apply (proj1 (Forall_forall _ _) Hm1).
Qed.
End one_region.

Section steps.
Context (h : heap) (l : list Z) (s e : Z) (Hwf : heap_wf h l s e).

Lemma around_block l1 a l2 :
  l = l1 ++ a :: l2 ->
  tiles h (a + HDR + hb_size (hp_block h a)) l2 e /\ chain (nx h) (nx h a) l2 /\
  Forall (fun x => hb_magic (hp_block h x) = HEAP_MAGIC) l2 /\
  (forall b, b ∈ l1 -> b + HDR + hb_size (hp_block h b) <= a /\ 0 <= hb_size (hp_block h b)) /\
  (forall b, b ∈ l2 -> a + HDR + hb_size (hp_block h a) <= b).
Proof.
  intros Hl. destruct Hwf as [H0 He Hc Ht Hm]. rewrite Hl in Hc, Ht, Hm.
  apply tiles_app in Ht as (m & Ht1 & -> & Hs & Ht2).
  apply seg_app in Hc as (c & _ & -> & Ha & Hc2).
  apply Forall_app in Hm as [_ [_ Hm]%Forall_cons].
  split; [done|]. split; [done|]. split; [done|]. split; intros b Hb.
  - by destruct (tiles_elem _ _ _ _ _ Ht1 Hb) as (_ & ? & ?).
  - by destruct (tiles_elem _ _ _ _ _ Ht2 Hb) as (? & _ & _).
Qed.

Lemma heap_take_wf l1 a l2 size :
  l = l1 ++ a :: l2 -> 0 <= size <= hb_size (hp_block h a) ->
  exists m, heap_wf (heap_take h a size) (l1 ++ a :: m ++ l2) s e /\
    used (heap_take h a size) a /\
    size <= hb_size (hp_block (heap_take h a size) a) <= hb_size (hp_block h a) /\
    (forall b, b ∈ l -> b <> a -> hp_block (heap_take h a size) b = hp_block h b) /\
    (forall b, b ∈ m -> ~ used (heap_take h a size) b) /\
    hp_mem (heap_take h a size) = hp_mem h /\ hp_pmm (heap_take h a size) = hp_pmm h.
Proof.
  intros Hl Hsz. destruct (around_block l1 a l2 Hl) as (Ht2 & Hc2 & Hm2 & Hb1 & Hb2).
  assert (Hal : a ∈ l) by (rewrite Hl; set_solver).
  destruct (hw_block _ _ _ _ Hwf a Hal) as (Hsa & Hea & Hs0 & Hmag).
  pose proof (hw_start _ _ _ _ Hwf). pose proof (hw_end _ _ _ _ Hwf). unfold HDR in *.
  unfold heap_take. rewrite u64_id by (unfold HDR; lia).
  destruct (Z.leb_spec (size + HDR + 16) (hb_size (hp_block h a))) as [Hbig|Hsmall].
  - unfold HDR in Hbig. set (nb := a + HDR + size). set (h' := set_block _ a _).
    assert (Hnb : a < nb /\ nb + HDR + (hb_size (hp_block h a) - size - HDR) =
      a + 24 + hb_size (hp_block h a)) by (unfold nb, HDR; lia).
    assert (Hh' : forall x, x <> a -> x <> nb -> hp_block h' x = hp_block h x).
    { intros x ??. unfold h'. rewrite !hp_block_set.
      by destruct (Z.eqb_spec x a), (Z.eqb_spec x nb). }
    assert (Hha : hp_block h' a = mkBlock size 1 (hb_magic (hp_block h a)) nb).
    { unfold h'. by rewrite hp_block_set, Z.eqb_refl. }
    assert (Hhnb : hp_block h' nb =
      mkBlock (hb_size (hp_block h a) - size - HDR) 0 HEAP_MAGIC (hb_next (hp_block h a))).
    { unfold h'. rewrite !hp_block_set. destruct (Z.eqb_spec nb a); [lia|]. by rewrite Z.eqb_refl. }
    assert (Hl1h : forall x, x ∈ l1 -> hp_block h' x = hp_block h x).
    { intros x Hx. destruct (Hb1 x Hx). apply Hh'; lia. }
    assert (Hl2h : forall x, x ∈ l2 -> hp_block h' x = hp_block h x).
    { intros x Hx. specialize (Hb2 x Hx). apply Hh'; unfold nb, HDR; lia. }
    exists [nb]. split; [|split; [|split; [|split; [|split; [|done]]]]].
    + apply (replace_block h l s e Hwf l1 a l2 h' (nb :: l2)); try done.
      * rewrite chain_cons. unfold nx. rewrite Hha, Hhnb. cbn [hb_next]. split; [done|].
        split; [unfold NULL; lia|]. eapply chain_ext; [|exact Hc2].
        intros x Hx. unfold nx. by rewrite Hl2h.
      * by rewrite Hha.
      * constructor; [by rewrite Hhnb|]. apply Forall_forall. intros x Hx. rewrite Hl2h by done.
        by apply (proj1 (Forall_forall _ _) Hm2).
      * rewrite Hha. cbn [hb_size]. lia.
      * rewrite Hha. cbn [hb_size app tiles]. rewrite Hhnb. cbn [hb_size].
        split; [unfold nb; lia|]. split; [unfold HDR; lia|].
        destruct Hnb as [_ ->]. eapply tiles_ext; [|exact Ht2]. intros x Hx. by rewrite Hl2h.
    + unfold used. by rewrite Hha.
    + rewrite Hha. cbn [hb_size]. lia.
    + intros b Hb Hne. rewrite Hl in Hb. apply elem_of_app in Hb as [|[->|]%elem_of_cons]; auto.
    + intros b ->%list_elem_of_singleton. unfold used. rewrite Hhnb. cbn. lia.
  - set (h' := set_block h a _).
    assert (Hha : hp_block h' a = (hp_block h a) <| hb_used := 1 |>).
    { unfold h'. by rewrite hp_block_set, Z.eqb_refl. }
    assert (Hh' : forall x, x <> a -> hp_block h' x = hp_block h x).
    { intros x ?. unfold h'. rewrite hp_block_set. by destruct (Z.eqb_spec x a). }
    assert (Hl1h : forall x, x ∈ l1 -> hp_block h' x = hp_block h x).
    { intros x Hx. destruct (Hb1 x Hx). apply Hh'; lia. }
    assert (Hl2h : forall x, x ∈ l2 -> hp_block h' x = hp_block h x).
    { intros x Hx. specialize (Hb2 x Hx). apply Hh'; lia. }
    exists []. split; [|split; [|split; [|split; [|split; [|done]]]]].
    + apply (replace_block h l s e Hwf l1 a l2 h' l2); try done.
      * unfold nx at 2. rewrite Hha. rec_simpl. eapply chain_ext; [|exact Hc2].
        intros x Hx. unfold nx. by rewrite Hl2h.
      * by rewrite Hha.
      * apply Forall_forall. intros x Hx. rewrite Hl2h by done.
        by apply (proj1 (Forall_forall _ _) Hm2).
      * rewrite Hha. rec_simpl. lia.
      * rewrite Hha. rec_simpl. eapply tiles_ext; [|exact Ht2]. intros x Hx. by rewrite Hl2h.
    + unfold used. by rewrite Hha.
    + rewrite Hha. rec_simpl. lia.
    + intros b Hb Hne. by apply Hh'.
    + set_solver.
Qed.

Lemma kfree_wf l1 a l2 :
  l = l1 ++ a :: l2 -> used h a ->
  exists l2', heap_wf (kfree h (a + HDR)) (l1 ++ a :: l2') s e /\
    ~ used (kfree h (a + HDR)) a /\ l2' ⊆ l2 /\
    (forall b, b ∈ l -> b <> a -> used h b -> b ∈ l1 ++ l2') /\
    (forall b, b ∈ l -> b <> a -> hp_block (kfree h (a + HDR)) b = hp_block h b) /\
    hb_size (hp_block h a) <= hb_size (hp_block (kfree h (a + HDR)) a).
Proof.
  intros Hl Hu. destruct (around_block l1 a l2 Hl) as (Ht2 & Hc2 & Hm2 & Hb1 & Hb2).
  assert (Hal : a ∈ l) by (rewrite Hl; set_solver).
  destruct (hw_block _ _ _ _ Hwf a Hal) as (Hsa & Hea & Hs0 & Hmag).
  pose proof (hw_start _ _ _ _ Hwf). pose proof (hw_end _ _ _ _ Hwf).
  unfold kfree, HDR, NULL in *. replace (a + 24 - 24) with a by lia.
  destruct (Z.eqb_spec (a + 24) 0); [lia|]. rewrite Hmag, Z.eqb_refl. cbn [negb].
  destruct (Z.eqb_spec (hb_used (hp_block h a)) 0); [done|]. cbn [negb]. rec_simpl.
  set (b0 := (hp_block h a) <| hb_used := 0 |>). set (h1 := set_block h a b0).
  assert (Hh1 : forall x, x <> a -> hp_block h1 x = hp_block h x).
  { intros x ?. unfold h1. rewrite hp_block_set. by destruct (Z.eqb_spec x a). }
  assert (Hl1a : forall x, x ∈ l1 -> x <> a) by (intros x Hx; destruct (Hb1 x Hx); lia).
  assert (Hl2a : forall x, x ∈ l2 -> x <> a) by (intros x Hx; specialize (Hb2 x Hx); lia).
  assert (Hgen : forall b2 l2' h',
    h' = set_block h1 a b2 \/ (h' = h1 /\ b2 = b0) ->
    l2' ⊆ l2 -> hb_used b2 = 0 -> hb_magic b2 = HEAP_MAGIC ->
    hb_size (hp_block h a) <= hb_size b2 -> chain (nx h) (hb_next b2) l2' ->
    tiles h (a + 24 + hb_size b2) l2' e ->
    (forall b, b ∈ l2 -> used h b -> b ∈ l2') ->
    heap_wf h' (l1 ++ a :: l2') s e /\ ~ used h' a /\ l2' ⊆ l2 /\
    (forall b, b ∈ l -> b <> a -> used h b -> b ∈ l1 ++ l2') /\
    (forall b, b ∈ l -> b <> a -> hp_block h' b = hp_block h b) /\
    hb_size (hp_block h a) <= hb_size (hp_block h' a)).
  { intros b2 l2' h' Hh' Hsub Hu2 Hm2' Hs2 Hch Hti Hus.
    assert (Hha : hp_block h' a = b2).
    { destruct Hh' as [->|[-> ->]]; [|unfold h1]; by rewrite hp_block_set, Z.eqb_refl. }
    assert (Hho : forall x, x <> a -> hp_block h' x = hp_block h x).
    { intros x ?. destruct Hh' as [->|[-> _]]; [|by apply Hh1].
      rewrite hp_block_set. destruct (Z.eqb_spec x a); [done|]. by apply Hh1. }
    assert (Hst : heap_start h' = heap_start h) by (by destruct Hh' as [->|[-> _]]).
    split; [|split; [|split; [done|split; [|split]]]].
    - apply (replace_block h l s e Hwf l1 a l2 h' l2' Hl Hst).
      + intros x Hx. by apply Hho, Hl1a.
      + unfold nx at 2. rewrite Hha. eapply chain_ext; [|exact Hch].
        intros x Hx. unfold nx. by rewrite Hho by auto.
      + by rewrite Hha.
      + apply Forall_forall. intros x Hx. rewrite Hho by auto.
        by apply (proj1 (Forall_forall _ _) Hm2), Hsub.
      + rewrite Hha. lia.
      + rewrite Hha. eapply tiles_ext; [|exact Hti]. intros x Hx. by rewrite Hho by auto.
    - unfold used. rewrite Hha. lia.
    - intros b Hb Hne Hub. rewrite Hl in Hb. set_solver.
    - intros b _ Hne. by apply Hho.
    - by rewrite Hha. }
  destruct (Z.eqb_spec (hb_next (hp_block h a)) 0) as [Hn|Hn]; cbn [negb andb].
  { exists l2. apply (Hgen b0); auto; try done. }
  destruct l2 as [|b l2]; [by rewrite chain_nil in Hc2|].
  rewrite chain_cons in Hc2. destruct Hc2 as (Hnb & Hb0 & Hc2). unfold nx in Hnb.
  rewrite Hnb. assert (Hba : b <> a) by set_solver. rewrite (Hh1 b Hba).
  destruct (Z.eqb_spec (hb_used (hp_block h b)) 0) as [Hub|Hub].
  - destruct Ht2 as (Hbeq & Hsb & Ht2). unfold HDR in Ht2.
    pose proof (tiles_le _ _ _ _ Ht2). exists l2.
    apply (Hgen (b0 <| hb_size := u64 (hb_size b0 + (24 + hb_size (hp_block h b))) |>
      <| hb_next := hb_next (hp_block h b) |>)); rec_simpl; try done; auto.
    + set_solver.
    + change (hb_size b0) with (hb_size (hp_block h a)). rewrite u64_id by lia. lia.
    + change (hb_size b0) with (hb_size (hp_block h a)). rewrite u64_id by lia.
      replace (a + 24 + (hb_size (hp_block h a) + (24 + hb_size (hp_block h b))))
        with (b + 24 + hb_size (hp_block h b)) by lia. done.
    + intros x [->|?]%elem_of_cons Hux; [|done]. exfalso. by apply Hux.
  - exists (b :: l2). apply (Hgen b0); auto; try done.
Qed.
End steps.

(** * Allocation and release on a heap of one region *)

Lemma ALIGN_UP_16 x : 0 <= x < 2 ^ 63 -> x <= ALIGN_UP x 16 < x + 16 /\ ALIGN_UP x 16 mod 16 = 0.
Proof.
  intros. unfold ALIGN_UP. change (16 - 1) with (2 ^ 4 - 1).
  rewrite land_lnot_ones, u64_id by lia. lia.
Qed.

(** A block the scan stops at is in the list, free and large enough. *)
Lemma scan_fit_block h fuel l c size a :
  chain (nx h) c l -> heap_scan fuel (hp_block h) c size = ScanFit a ->
  exists l1 l2, l = l1 ++ a :: l2 /\ ~ used h a /\ size <= hb_size (hp_block h a).
Proof.
  revert l c. induction fuel as [|fuel IH]; intros l c Hc; cbn [heap_scan]; [done|].
  destruct (Z.eqb_spec c NULL); [done|]. destruct l as [|x l]; [by rewrite chain_nil in Hc|].
  rewrite chain_cons in Hc. destruct Hc as (-> & Hx & Hc). destruct (negb _); [done|]. destruct (_ && _) eqn:Ef.
  - intros [= ->]. exists [], l. apply andb_prop in Ef as [E1 E2]. unfold used. split; [done|]. lia.
  - intros Hs. destruct (IH l _ Hc Hs) as (l1 & l2 & -> & ?). by exists (x :: l1), l2.
Qed.

Section operations.
Context (h : heap) (l : list Z) (s e : Z) (Hwf : heap_wf h l s e).

(** What one successful allocation does. *)
Record allocated (h' : heap) (a size : Z) (l' : list Z) : Prop := {
  al_wf : heap_wf h' l' s e;
  al_free : a ∈ l /\ ~ used h a;
  al_used : a ∈ l' /\ used h' a;
  al_size : size <= hb_size (hp_block h' a) <= hb_size (hp_block h a);
  al_others : forall b, b ∈ l -> b <> a -> b ∈ l' /\ hp_block h' b = hp_block h b;
  al_new : forall b, b ∈ l' -> b <> a -> used h' b -> b ∈ l /\ used h b;
  al_mem : hp_mem h' = hp_mem h /\ hp_pmm h' = hp_pmm h
}.

Lemma heap_take_allocated l1 a l2 size :
  l = l1 ++ a :: l2 -> ~ used h a -> 0 <= size <= hb_size (hp_block h a) ->
  exists l', allocated (heap_take h a size) a size l'.
Proof.
  intros Hl Hu Hs.
  destruct (heap_take_wf h l s e Hwf l1 a l2 size Hl Hs)
    as (m & Hwf' & Hua & Hsz & Hoth & Hm & Hmem & Hpmm).
  exists (l1 ++ a :: m ++ l2). split; try done.
  - rewrite Hl. set_solver.
  - set_solver.
  - intros b Hb Hne. split; [|by apply Hoth]. rewrite Hl in Hb. set_solver.
  - intros b Hb Hne Hub. assert (b ∈ l).
    { rewrite Hl. destruct (decide (b ∈ m)) as [Hbm|]; [|set_solver].
      exfalso. by apply (Hm b Hbm). }
    split; [done|]. unfold used in *. by rewrite <- Hoth.
Qed.

Lemma kmalloc_fit rounds fuel size :
  (length l < fuel)%nat -> 0 < size <= 2 ^ 62 ->
  (exists b, b ∈ l /\ ~ used h b /\ ALIGN_UP size 16 <= hb_size (hp_block h b)) ->
  exists h' a l', kmalloc (S rounds) fuel h size = Some (h', a + HDR) /\
    allocated h' a (ALIGN_UP size 16) l'.
Proof.
  intros Hf Hsz (b & Hb & Hub & Hbs). cbn [kmalloc].
  destruct (Z.eqb_spec size 0); [lia|].
  pose proof (heap_scan_spec h l s e Hwf (ALIGN_UP size 16) fuel Hf) as Hscan.
  destruct (heap_scan fuel _ _ _) as [a|a| |]; try done.
  - destruct Hscan as (l1 & l2 & Hl & Hu & Hfit & _).
    destruct (ALIGN_UP_16 size ltac:(lia)) as [? _].
    destruct (heap_take_allocated l1 a l2 (ALIGN_UP size 16) Hl Hu) as (l' & Hal); [lia|].
    by exists (heap_take h a (ALIGN_UP size 16)), a, l'.
  - destruct (Hscan b Hb); [done|lia].
Qed.

Lemma kmalloc_inv fuel size h' p :
  0 <= size <= 2 ^ 62 -> kmalloc 1 fuel h size = Some (h', p) ->
  (p = NULL /\ heap_wf h' l s e /\ hp_block h' = hp_block h /\ hp_mem h' = hp_mem h) \/
  exists a l', p = a + HDR /\ allocated h' a (ALIGN_UP size 16) l'.
Proof.
  intros Hsz. cbn [kmalloc]. destruct (Z.eqb_spec size 0); [intros [= <- <-]; by left|].
  pose proof (ALIGN_UP_16 size ltac:(lia)) as [? _].
  destruct (heap_scan fuel _ _ _) as [a|a| |] eqn:E; [|intros [= <- <-]; by left| |done].
  - intros [= <- <-]. right.
    pose proof (scan_fit_block _ _ _ _ _ _ (hw_chain _ _ _ _ Hwf) E) as Hf.
    destruct Hf as (l1 & l2 & Hl & Hu & Hfit).
    destruct (heap_take_allocated l1 a l2 (ALIGN_UP size 16) Hl Hu) as (l' & Hal); [lia|].
    by exists a, l'.
  - destruct (pmm_alloc_n _ _) as [[p' np]|]; [|done].
    destruct (np =? 0); [|done]. intros [= <- <-]. left. split; [done|]. split; [|done].
    destruct Hwf; split; try done. by apply (tiles_ext h).
Qed.
End operations.

(** * Clients *)

Record heap_client := mkHeapClient { hc_heap : heap; hc_held : gset Z }.

(** The calls a client that holds the pointers [hc_held] may make while the
    page allocator has nothing to give: it frees and resizes only pointers it holds, and writes
    anything to memory outside the headers. *)
Inductive region_step : heap_client -> heap_client -> Prop :=
| rs_kmalloc h H fuel size h' p :
    0 <= size <= 2 ^ 62 -> kmalloc 1 fuel h size = Some (h', p) ->
    region_step (mkHeapClient h H) (mkHeapClient h' (if p =? NULL then H else {[p]} ∪ H))
| rs_kfree h H p : p ∈ H -> region_step (mkHeapClient h H) (mkHeapClient (kfree h p) (H ∖ {[p]}))
| rs_krealloc h H fuel p size h' q :
    p ∈ H -> 0 < size <= 2 ^ 62 -> krealloc 1 fuel h p size = Some (h', q) ->
    region_step (mkHeapClient h H)
      (mkHeapClient h' (if q =? NULL then H else {[q]} ∪ (H ∖ {[p]})))
| rs_write h H m :
    bytes_ok m -> region_step (mkHeapClient h H) (mkHeapClient (h <| hp_mem := m |>) H).

(** The held pointers are exactly the used blocks. *)
Definition client_ok (s e : Z) (c : heap_client) : Prop :=
  exists l, heap_wf (hc_heap c) l s e /\
    forall a, a + HDR ∈ hc_held c <-> a ∈ l /\ used (hc_heap c) a.

(** The bytes of the block that [p] points to. *)
Definition block_bytes (h : heap) (p : Z) : Z := hb_size (hp_block h (p - HDR)).

Lemma minus_plus_HDR p : p - HDR + HDR = p.
Proof. lia. Qed.

Lemma client_ok_mem s e h H m :
  client_ok s e (mkHeapClient h H) -> client_ok s e (mkHeapClient (h <| hp_mem := m |>) H).
Proof.
  intros (l & [? ? ? ? ?] & Hh). exists l. split; [|done].
  split; try done. by apply (tiles_ext h).
Qed.

Lemma client_ok_allocated s e h H l h' a size l' :
  heap_wf h l s e -> (forall b, b + HDR ∈ H <-> b ∈ l /\ used h b) ->
  allocated h l s e h' a size l' ->
  client_ok s e (mkHeapClient h' ({[a + HDR]} ∪ H)) /\ a + HDR ∉ H.
Proof.
  intros Hwf Hh [Hwf' [Hal Hfree] [Hal' Hu'] Hs Hoth Hnew _]. split.
  - exists l'. split; [done|]. cbn. intros b. rewrite elem_of_union, elem_of_singleton, Hh. split.
    + intros [Heq|[Hb Hub]]; [assert (b = a) as -> by lia; done|].
      assert (b <> a) by (intros ->; done). destruct (Hoth b) as [Hb' Heq]; [done..|].
      unfold used in *. by rewrite Heq.
    + intros [Hb Hub]. destruct (decide (b = a)) as [->|Hne]; [by left|]. right. by apply Hnew.
  - rewrite Hh. naive_solver.
Qed.

Lemma client_ok_kfree s e h H p :
  client_ok s e (mkHeapClient h H) -> p ∈ H ->
  client_ok s e (mkHeapClient (kfree h p) (H ∖ {[p]})).
Proof.
  intros (l & Hwf & Hh) Hp. cbn in *. rewrite <- (minus_plus_HDR p) in Hp |- *.
  set (a := p - HDR) in *. apply Hh in Hp as [Ha Hu].
  apply list_elem_of_split in Ha as (l1 & l2 & Hl).
  destruct (kfree_wf h l s e Hwf l1 a l2 Hl Hu) as (l2' & Hwf' & Hu' & Hsub & Hkeep & Hoth & _).
  assert (Hnd : NoDup l) by (by eapply chain_NoDup, hw_chain).
  assert (Hnd2 : a ∉ l1 /\ a ∉ l2).
  { rewrite Hl in Hnd. apply NoDup_app in Hnd as (_ & Hd & [? _]%NoDup_cons). split; [|done].
    intros Hal. apply (Hd a Hal). set_solver. }
  exists (l1 ++ a :: l2'). split; [done|]. cbn. intros b.
  rewrite elem_of_difference, elem_of_singleton, Hh. unfold used in *. split.
  - intros [[Hb Hub] Hne]. assert (b <> a) by (intros ->; done).
    rewrite Hoth by done. split; [|done]. specialize (Hkeep b). set_solver.
  - intros [Hb Hub]. destruct (decide (b = a)) as [->|Hne]; [done|].
    assert (Hbl : b ∈ l) by (rewrite Hl; set_solver). rewrite Hoth in Hub by done.
    split; [done|]. intros Heq. apply Hne. lia.
Qed.

(** Held pointers are inside the region and their bytes do not overlap. *)
Lemma client_ok_disjoint s e h H p q :
  client_ok s e (mkHeapClient h H) -> p ∈ H ->
  (s + HDR <= p /\ p + block_bytes h p <= e /\ 0 <= block_bytes h p) /\
  (q ∈ H -> p <> q -> p + block_bytes h p <= q - HDR \/ q + block_bytes h q <= p - HDR).
Proof.
  intros (l & Hwf & Hh) Hp. cbn in *. rewrite <- (minus_plus_HDR p), Hh in Hp.
  destruct Hp as [Hp _]. destruct (hw_block h l s e Hwf _ Hp) as (? & ? & ? & _).
  unfold block_bytes. unfold HDR in *. split; [lia|].
  intros Hq Hne. rewrite <- (minus_plus_HDR q), Hh in Hq. destruct Hq as [Hq _].
  destruct (tiles_disjoint h s l e _ _ (hw_tiles _ _ _ _ Hwf) Hp Hq); unfold HDR in *; lia.
Qed.

Lemma kmalloc_init_wf h lo hi :
  0 < lo -> hi < 2 ^ 63 -> lo + HDR <= hi -> heap_wf (kmalloc_init h lo hi) [lo] lo hi.
Proof.
  intros Hlo Hhi Hle. assert (Hb : hp_block (kmalloc_init h lo hi) lo = mkBlock (hi - lo - HDR) 0 HEAP_MAGIC NULL).
  { change (hp_block (set_block h lo (mkBlock (hi - lo - HDR) 0 HEAP_MAGIC NULL)) lo = 
            mkBlock (hi - lo - HDR) 0 HEAP_MAGIC NULL).
    by rewrite hp_block_set, Z.eqb_refl. }
  split; [done|done|..].
  - apply chain_cons. unfold NULL. split; [done|]. split; [lia|]. unfold nx. by rewrite Hb.
  - cbn [tiles]. rewrite Hb. cbn. unfold HDR in *. lia.
  - constructor; [by rewrite Hb|constructor].
Qed.

(** Resizing a held pointer: what it returns and what the bytes are. *)
Lemma krealloc_inv s e h H fuel p size h' q :
  client_ok s e (mkHeapClient h H) -> p ∈ H -> 0 < s -> 0 < size <= 2 ^ 62 ->
  bytes_ok (hp_mem h) -> krealloc 1 fuel h p size = Some (h', q) ->
  client_ok s e (mkHeapClient h' (if q =? NULL then H else {[q]} ∪ (H ∖ {[p]}))) /\
  bytes_ok (hp_mem h') /\
  (q <> NULL -> size <= block_bytes h' q /\
    forall i, 0 <= i < Z.min size (block_bytes h p) -> hp_mem h' (q + i) = hp_mem h (p + i)).
Proof.
  intros Hok Hp Hs Hsz Hm. pose proof Hok as (l & Hwf & Hh). cbn in Hwf, Hh.
  destruct (client_ok_disjoint s e h H p p Hok Hp) as [(Hin1 & Hin2 & Hin3) _].
  unfold krealloc, NULL. destruct (Z.eqb_spec p 0); [unfold HDR in *; lia|].
  destruct (Z.eqb_spec size 0); [lia|]. fold (block_bytes h p).
  destruct (Z.leb_spec size (block_bytes h p)).
  { intros [= <- <-]. destruct (Z.eqb_spec p 0); [done|]. split.
    - replace ({[p]} ∪ H ∖ {[p]}) with H; [done|]. symmetry. apply set_eq. intros x.
      rewrite elem_of_union, elem_of_difference, elem_of_singleton.
      destruct (decide (x = p)) as [->|]; naive_solver.
    - split; [done|]. intros _. split; [done|]. done. }
  destruct (kmalloc 1 fuel h size) as [[h1 np]|] eqn:E; [|done].
  destruct (kmalloc_inv h l s e Hwf fuel size h1 np) as [(-> & Hwf1 & Hb1 & Hmem)|(a & l' & -> & Hal)];
    [lia|done|..].
  { intros [= <- <-]. split; [|by rewrite Hmem]. exists l. split; [done|]. cbn. intros b.
    rewrite Hh. unfold used. by rewrite Hb1. }
  destruct (client_ok_allocated _ _ _ _ _ _ _ _ _ Hwf Hh Hal) as [Hok1 Hfresh].
  destruct (client_ok_disjoint s e h1 _ (a + HDR) p Hok1) as [(Ha1 & Ha2 & _) Hdis]; [set_solver|].
  specialize (Hdis ltac:(set_solver) ltac:(intros <-; done)).
  destruct (Z.eqb_spec (a + HDR) 0); [unfold HDR in *; lia|].
  destruct Hal as [_ _ _ Hsize Hoth _ [Hmem _]].
  assert (Hpp : hp_block h1 (p - HDR) = hp_block h (p - HDR)).
  { rewrite <- (minus_plus_HDR p) in Hp. apply Hh in Hp as [Hpl Hpu].
    apply Hoth; [done|]. intros <-. apply Hfresh, Hh. done. }
  pose proof (ALIGN_UP_16 size ltac:(lia)) as [? _].
  assert (Hpb : block_bytes h1 p = block_bytes h p) by (unfold block_bytes; by rewrite Hpp).
  assert (Hab : block_bytes h1 (a + HDR) = hb_size (hp_block h1 a)).
  { unfold block_bytes. f_equal. f_equal. lia. }
  intros [= <- <-]. destruct (Z.eqb_spec (a + HDR) 0); [done|].
  set (hc := h1 <| hp_mem := _ |>).
  assert (Hokc : client_ok s e (mkHeapClient hc ({[a + HDR]} ∪ H))) by (by apply client_ok_mem).
  assert (Hkm : forall x, hp_mem (kfree hc p) x = hp_mem hc x).
  { intros x. unfold kfree. by repeat case_match. }
  assert (Hcp : forall x, hp_mem hc x = copied (hp_mem h) (a + HDR) p (block_bytes h p) x).
  { intros x. unfold hc. rec_simpl. fold (block_bytes h1 p). rewrite Hpb, memcpy_read.
    - by rewrite Hmem.
    - by rewrite Hmem.
    - lia.
    - rewrite Hpb, Hab in Hdis. unfold HDR in *. lia. }
  split; [|split].
  - replace ({[a + HDR]} ∪ H ∖ {[p]}) with (({[a + HDR]} ∪ H) ∖ {[p]}).
    + apply client_ok_kfree; [done|set_solver].
    + apply set_eq. intros x. rewrite !elem_of_difference, !elem_of_union, !elem_of_difference,
        !elem_of_singleton.
      assert (a + HDR <> p) by (intros <-; done). naive_solver.
  - intros x. rewrite Hkm, Hcp. unfold copied. by mem_cases.
  - intros _. split.
    + assert (Hne : a + HDR <> p) by (intros <-; done).
      enough (hb_size (hp_block (kfree hc p) a) = hb_size (hp_block hc a)) as Heq.
      { unfold block_bytes. replace (a + HDR - HDR) with a by lia. rewrite Heq.
        change (hp_block hc) with (hp_block h1). lia. }
      destruct Hokc as (lc & Hwfc & Hhc). cbn in Hwfc, Hhc.
      assert (Hpc : p - HDR ∈ lc /\ used hc (p - HDR)) by (apply Hhc; rewrite minus_plus_HDR; set_solver).
      destruct Hpc as [Hpc Hpcu]. apply list_elem_of_split in Hpc as (l1 & l2 & Hl).
      destruct (kfree_wf hc lc s e Hwfc l1 (p - HDR) l2 Hl Hpcu) as (? & _ & _ & _ & _ & Ho & _).
      rewrite minus_plus_HDR in Ho. rewrite Ho; [done| |lia].
      apply (Hhc a). set_solver.
    + intros i Hi. rewrite Hkm, Hcp. unfold copied. mem_cases. f_equal. lia.
Qed.

Lemma client_ok_init lo hi h :
  0 < lo -> hi < 2 ^ 63 -> lo + HDR <= hi ->
  client_ok lo hi (mkHeapClient (kmalloc_init h lo hi) ∅).
Proof.
  intros. exists [lo]. split; [by apply kmalloc_init_wf|]. cbn. intros b.
  split; [set_solver|]. intros [->%list_elem_of_singleton Hu]. exfalso. apply Hu.
  change (hb_used (hp_block (set_block h lo (mkBlock (hi - lo - HDR) 0 HEAP_MAGIC NULL)) lo) = 0).
  by rewrite hp_block_set, Z.eqb_refl.
Qed.

Lemma region_step_ok s e c c' :
  0 < s -> region_step c c' -> bytes_ok (hp_mem (hc_heap c)) /\ client_ok s e c ->
  bytes_ok (hp_mem (hc_heap c')) /\ client_ok s e c'.
Proof.
  intros Hs Hst [Hm Hok].
  destruct Hst as [h H fuel size h' p Hsz E|h H p Hp|h H fuel p size h' q Hp Hsz E|h H m].
  - pose proof Hok as (l & Hwf & Hh). cbn in Hwf, Hh, Hm.
    destruct (kmalloc_inv h l s e Hwf fuel size h' p Hsz E) as [(-> & Hwf1 & Hb1 & Em)|(a & l' & -> & Hal)].
    + split; [cbn; by rewrite Em|]. exists l. split; [done|]. cbn. intros b.
      rewrite Hh. unfold used. by rewrite Hb1.
    + destruct (client_ok_allocated _ _ _ _ _ _ _ _ _ Hwf Hh Hal) as [Hok' _].
      destruct Hal as [_ [Ha _] _ _ _ _ [Em _]]. apply hw_block with (1 := Hwf) in Ha.
      destruct (Z.eqb_spec (a + HDR) NULL); [unfold NULL, HDR in *; lia|].
      split; [cbn; by rewrite Em|done].
  - split; [|by apply client_ok_kfree].
    intros x. cbn in *. unfold kfree. repeat case_match; apply Hm.
  - destruct (krealloc_inv s e h H fuel p size h' q) as (? & ? & _); done.
  - split; [done|]. by apply client_ok_mem.
Qed.

(** As long as a heap never grows: from [kmalloc_init] on, whatever a client does with
    the pointers it holds,
    the list of blocks tiles the heap region, the held pointers are exactly its
    used blocks, their bytes lie inside the region and never overlap each other
    or a block header; and [kmalloc] returns a pointer that is not held, with at
    least the requested bytes, without changing the size of any held block. *)
Theorem heap_region_is_tiled (h : heap) (lo hi : Z) (c : heap_client)
    (Hb : 0 < lo /\ lo + HDR <= hi /\ hi < 2 ^ 63) (Hm : bytes_ok (hp_mem h))
    (Hr : rtc region_step (mkHeapClient (kmalloc_init h lo hi) ∅) c) :
  client_ok lo hi c /\
  (forall p q, p ∈ hc_held c -> q ∈ hc_held c -> p <> q ->
    lo + HDR <= p /\ p + block_bytes (hc_heap c) p <= hi /\
    (p + block_bytes (hc_heap c) p <= q - HDR \/ q + block_bytes (hc_heap c) q <= p - HDR)) /\
  (forall fuel size h' p, 0 < size <= 2 ^ 62 ->
    kmalloc 1 fuel (hc_heap c) size = Some (h', p) -> p <> NULL ->
    p ∉ hc_held c /\ size <= block_bytes h' p /\
    forall q, q ∈ hc_held c -> block_bytes h' q = block_bytes (hc_heap c) q).
Proof.
  assert (Hok : bytes_ok (hp_mem (hc_heap c)) /\ client_ok lo hi c).
  { revert Hr. generalize (client_ok_init lo hi h). intros Hi Hr.
    eapply (rtc_ind_r (fun c => bytes_ok (hp_mem (hc_heap c)) /\ client_ok lo hi c)); [| |exact Hr].
    - split; [done|]. apply Hi; lia.
    - intros ???? IH. eapply region_step_ok; [|done|exact IH]. lia. }
  destruct c as [hc H]. destruct Hok as [_ Hok]. cbn [hc_heap hc_held] in *. split; [done|]. split.
  - intros p q Hp Hq Hne. destruct (client_ok_disjoint lo hi hc H p q Hok Hp) as [(? & ? & ?) Hd].
    split; [done|]. split; [done|]. by apply Hd.
  - intros fuel size h' p Hsz E Hp. pose proof Hok as (l & Hwf & Hh). cbn in Hwf, Hh.
    destruct (kmalloc_inv hc l lo hi Hwf fuel size h' p) as [(? & _)|(a & l' & -> & Hal)];
      [lia|done|done|].
    destruct (client_ok_allocated _ _ _ _ _ _ _ _ _ Hwf Hh Hal) as [_ Hf].
    pose proof (ALIGN_UP_16 size ltac:(lia)) as [? _].
    destruct Hal as [_ _ _ Hs Hoth _ _]. split; [done|]. unfold block_bytes. split.
    + replace (a + HDR - HDR) with a by lia. lia.
    + intros q Hq. pose proof Hq as Hq'. rewrite <- (minus_plus_HDR q), Hh in Hq'.
      destruct Hq' as [Hq' _]. f_equal. apply Hoth; [done|]. intros <-.
      rewrite minus_plus_HDR in Hf. done.
Qed.

(** * Growing heaps

    A heap that has grown has several regions.  Its list visits blocks that never
    overlap each other, nor any page the page allocator still has. *)

Definition block_end (h : heap) (a : Z) : Z := a + HDR + hb_size (hp_block h a).

Record heap_blocks (h : heap) (l : list Z) : Prop := {
  hk_chain : chain (nx h) (heap_start h) l;
  hk_block : forall a, a ∈ l -> hb_magic (hp_block h a) = HEAP_MAGIC /\ 0 < a /\
    0 <= hb_size (hp_block h a) /\ block_end h a < 2 ^ 63;
  hk_apart : forall a b, a ∈ l -> b ∈ l -> a <> b -> block_end h a <= b \/ block_end h b <= a;
  hk_pages : forall a k, a ∈ l -> k ∈ free_set (hp_pmm h) ->
    block_end h a <= page_addr (hp_pmm h) k \/ page_addr (hp_pmm h) k + PAGE_SIZE <= a;
  hk_pmm : pmm_wf (hp_pmm h) /\ phys_base (hp_pmm h) + total_pages (hp_pmm h) * PAGE_SIZE < 2 ^ 63
}.

(** The block freed by [kfree h p] may be merged: the next one of the list is in use, or
    lies right behind it. *)
Definition merges_neighbour (h : heap) (p : Z) : Prop :=
  let b := hp_block h (p - HDR) in
  hb_next b = NULL \/ hb_used (hp_block h (hb_next b)) <> 0 \/ hb_next b = p + hb_size b.

Lemma chain_replace h h' c l1 a l2 r :
  chain (nx h) c (l1 ++ a :: l2) -> (forall x, x ∈ l1 -> nx h' x = nx h x) -> chain (nx h') (nx h' a) r ->
  chain (nx h') c (l1 ++ a :: r).
Proof.
  intros Hc H1 Hr. apply seg_app in Hc as (m & Hc1 & -> & Ha & _). apply seg_app. exists a. split; [|by split].
  eapply seg_ext; [|exact Hc1]. intros x Hx. by rewrite H1.
Qed.

Section blocks.
Context (h : heap) (l : list Z) (Hb : heap_blocks h l).

Lemma list_parts l1 a l2 : l = l1 ++ a :: l2 ->
  a ∈ l /\ (forall x, x ∈ l1 -> x ∈ l /\ x <> a) /\ (forall x, x ∈ l2 -> x ∈ l /\ x <> a) /\ chain (nx h) (nx h a) l2.
Proof.
  intros Hl. pose proof (hk_chain _ _ Hb) as Hc. pose proof (chain_NoDup _ _ _ Hc) as Hnd. rewrite Hl in Hc, Hnd.
  apply NoDup_app in Hnd as (_ & Hd & [Ha _]%NoDup_cons). apply seg_app in Hc as (c & _ & -> & _ & Hc2). rewrite Hl.
  split; [set_solver|]. split; [|split; [|done]].
  - intros x Hx. split; [set_solver|]. intros ->. apply (Hd a Hx). set_solver.
  - intros x Hx. split; [set_solver|]. by intros ->.
Qed.

(** Replacing the block at [a] and those of [l2] by blocks inside the space of [a] and
    of blocks of [l2]. *)
Lemma blocks_replace l1 a l2 h' r :
  l = l1 ++ a :: l2 -> heap_start h' = heap_start h -> hp_pmm h' = hp_pmm h ->
  chain (nx h') (nx h' a) r ->
  (forall x, x ∈ l1 ++ l2 -> x ∈ l1 \/ x ∈ r -> hp_block h' x = hp_block h x) ->
  (forall x, x ∈ a :: r -> x ∉ l2 -> hb_magic (hp_block h' x) = HEAP_MAGIC /\ 0 < x /\ 0 <= hb_size (hp_block h' x) /\
     exists y, y ∈ a :: l2 /\ a <= x /\ block_end h' x <= block_end h y /\
       (y = a \/ (y ∉ r /\ block_end h a = y))) ->
  (forall x y, x ∈ a :: r -> y ∈ a :: r -> x ∉ l2 -> y ∉ l2 -> x <> y -> block_end h' x <= y \/ block_end h' y <= x) ->
  heap_blocks h' (l1 ++ a :: r).
Proof.
  intros Hl Hst Hp Hch Hsame Hnew Happ. destruct (list_parts l1 a l2 Hl) as (Hal & Hl1 & Hl2 & Hc2).
  assert (Hin2 : forall y, y ∈ a :: l2 -> y ∈ l) by (intros y [->|?]%elem_of_cons; [done|by apply Hl2]).
  (* an old block keeps its place *)
  assert (Hold : forall x, x ∈ l1 ++ a :: r -> x ∈ l1 \/ x ∈ l2 -> x ∈ l /\ x <> a /\ hp_block h' x = hp_block h x /\ block_end h' x = block_end h x).
  { intros x Hx Hx12. assert (x ∈ l /\ x <> a) as [? ?] by (destruct Hx12; [by apply Hl1|by apply Hl2]).
    assert (E : hp_block h' x = hp_block h x) by (apply Hsame; set_solver). unfold block_end. by rewrite E. }
  assert (Hcase : forall x, x ∈ l1 ++ a :: r -> (x ∈ l1 \/ x ∈ l2) \/ (x ∈ a :: r /\ x ∉ l2)).
  { intros x Hx. destruct (decide (x ∈ l2)); [by left; right|]. apply elem_of_app in Hx as [?|?]; [by left; left|by right]. }
  (* an old block and a new one *)
  assert (Hmix : forall x z, x ∈ l1 ++ a :: r -> (x ∈ l1 \/ x ∈ l2) -> z ∈ a :: r -> z ∉ l2 -> block_end h' x <= z \/ block_end h' z <= x).
  { intros x z Hx Hx12 Hz Hz2. destruct (Hold x Hx Hx12) as (Hxl & Hxa & Ex & ->).
    destruct (Hnew z Hz Hz2) as (_ & _ & Hz0 & y & Hy & Haz & Hzy & Hya).
    pose proof (hk_apart _ _ Hb a x Hal Hxl ltac:(done)) as Hax. destruct (hk_block _ _ Hb x Hxl) as (_ & _ & Hx0 & _).
    destruct (hk_block _ _ Hb a Hal) as (_ & _ & Ha0 & _).
    destruct Hya as [->|[Hyr Hye]]; [unfold block_end, HDR in *; lia|].
    assert (Hxy : x <> y).
    { intros ->. apply elem_of_app in Hx as [Hx1|[->|?]%elem_of_cons]; [|done..].
      apply elem_of_cons in Hy as [->|Hy2]; [done|].
      pose proof (chain_NoDup _ _ _ (hk_chain _ _ Hb)) as Hnd. rewrite Hl in Hnd. apply NoDup_app in Hnd as (_ & Hd & _).
      apply (Hd y Hx1). set_solver. }
    pose proof (hk_apart _ _ Hb y x (Hin2 y Hy) Hxl ltac:(done)) as Hyx. destruct (hk_block _ _ Hb y (Hin2 y Hy)) as (_ & _ & Hy0 & _).
    unfold block_end, HDR in *. lia. }
  split.
  - rewrite Hst. pose proof (hk_chain _ _ Hb) as Hc. rewrite Hl in Hc. apply (chain_replace h h' _ l1 a l2 r Hc); [|done].
    intros x Hx. unfold nx. rewrite Hsame; [done|set_solver|by left].
  - intros x Hx. destruct (Hcase x Hx) as [Hx12|[Hxr Hx2]].
    + destruct (Hold x Hx Hx12) as (Hxl & _ & Ex & Ee). rewrite Ex, Ee. by apply (hk_block _ _ Hb).
    + destruct (Hnew x Hxr Hx2) as (? & ? & ? & y & Hy & _ & Hxy & _). destruct (hk_block _ _ Hb y (Hin2 y Hy)) as (_ & _ & _ & ?).
      split; [done|]. split; [done|]. split; [done|lia].
  - intros x z Hx Hz Hne. destruct (Hcase x Hx) as [Hx12|[Hxr Hx2]], (Hcase z Hz) as [Hz12|[Hzr Hz2]].
    + destruct (Hold x Hx Hx12) as (? & _ & _ & ->), (Hold z Hz Hz12) as (? & _ & _ & ->). by apply (hk_apart _ _ Hb).
    + by apply Hmix.
    + destruct (Hmix z x Hz Hz12 Hxr Hx2); auto.
    + by apply Happ.
  - intros x k Hx Hk. rewrite Hp in *. destruct (Hcase x Hx) as [Hx12|[Hxr Hx2]].
    + destruct (Hold x Hx Hx12) as (? & _ & _ & ->). by apply (hk_pages _ _ Hb).
    + destruct (Hnew x Hxr Hx2) as (_ & _ & Hx0 & y & Hy & Hax & Hxy & Hya).
      pose proof (hk_pages _ _ Hb a k Hal Hk) as H1. pose proof (hk_pages _ _ Hb y k (Hin2 y Hy) Hk) as H2.
      destruct (hk_block _ _ Hb a Hal) as (_ & _ & Ha0 & _). destruct (hk_block _ _ Hb y (Hin2 y Hy)) as (_ & _ & Hy0 & _).
      unfold block_end, HDR, PAGE_SIZE in *. destruct Hya as [->|[_ Hye]]; lia.
  - rewrite Hp. apply (hk_pmm _ _ Hb).
Qed.
End blocks.

(** What a call did: the blocks in use before are as they were, and but for [a] (the
    block handed out) no other is in use. *)
Record grown (h : heap) (l : list Z) (h' : heap) (l' : list Z) : Prop := {
  gr_blocks : heap_blocks h' l';
  gr_kept : forall b, b ∈ l -> used h b -> b ∈ l' /\ hp_block h' b = hp_block h b;
  gr_mem : hp_mem h' = hp_mem h;
  gr_total : total_pages (hp_pmm h') = total_pages (hp_pmm h)
}.
Definition only_new (h : heap) (l : list Z) (h' : heap) (l' : list Z) (a : option Z) : Prop :=
  forall b, b ∈ l' -> used h' b -> Some b <> a -> b ∈ l /\ used h b.

Lemma take_blocks h l a size : heap_blocks h l ->
  (exists l1 l2, l = l1 ++ a :: l2 /\ ~ used h a /\ size <= hb_size (hp_block h a)) -> 0 <= size < 2 ^ 63 ->
  exists l', grown h l (heap_take h a size) l' /\ only_new h l (heap_take h a size) l' (Some a) /\
    a ∈ l' /\ used (heap_take h a size) a /\ size <= hb_size (hp_block (heap_take h a size) a).
Proof.
  intros Hb (l1 & l2 & Hl & Hu & Hfit) Hsz. destruct (list_parts h l Hb l1 a l2 Hl) as (Hal & Hl1 & Hl2 & Hc2).
  destruct (hk_block _ _ Hb a Hal) as (Hm & Ha & Hs0 & He). unfold block_end, HDR in He.
  unfold heap_take. rewrite u64_id by (unfold HDR; lia).
  destruct (Z.leb_spec (size + HDR + 16) (hb_size (hp_block h a))) as [Hbig|Hsmall].
  - set (nb := a + HDR + size). set (h' := set_block _ a _).
    assert (Hnb : a < nb < block_end h a) by (unfold nb, block_end, HDR in *; lia).
    assert (Hnl : nb ∉ l).
    { intros Hin. destruct (hk_block _ _ Hb nb Hin) as (_ & _ & H0 & _). destruct (hk_apart _ _ Hb a nb Hal Hin); unfold block_end, HDR in *; lia. }
    assert (Hh' : forall x, x <> a -> x <> nb -> hp_block h' x = hp_block h x).
    { intros x ??. unfold h'. rewrite !hp_block_set. by destruct (Z.eqb_spec x a), (Z.eqb_spec x nb). }
    assert (Hha : hp_block h' a = mkBlock size 1 (hb_magic (hp_block h a)) nb) by (unfold h'; by rewrite hp_block_set, Z.eqb_refl).
    assert (Hhnb : hp_block h' nb = mkBlock (hb_size (hp_block h a) - size - HDR) 0 HEAP_MAGIC (hb_next (hp_block h a))).
    { unfold h'. rewrite !hp_block_set. destruct (Z.eqb_spec nb a); [lia|]. by rewrite Z.eqb_refl. }
    assert (Hold : forall x, x ∈ l -> x <> a -> hp_block h' x = hp_block h x) by (intros x Hx Hne; apply Hh'; [done|by intros ->]).
    assert (Ea : block_end h' a = nb) by (unfold block_end; rewrite Hha; unfold nb; cbn; lia).
    assert (Enb : block_end h' nb = block_end h a) by (unfold block_end; rewrite Hhnb; unfold nb, HDR; cbn; lia).
    exists (l1 ++ a :: nb :: l2). split; [split; [|intros b Hbl Hbu; split| |]|]; try done.
    + apply (blocks_replace h l Hb l1 a l2 h' (nb :: l2)); try done.
      * rewrite chain_cons. unfold nx. rewrite Hha, Hhnb. cbn [hb_next]. split; [done|]. split; [unfold NULL; lia|].
        eapply chain_ext; [|exact Hc2]. intros x Hx. unfold nx. destruct (Hl2 x Hx). by rewrite Hold.
      * intros x Hx _. apply elem_of_app in Hx as [Hx|Hx]; [destruct (Hl1 x Hx)|destruct (Hl2 x Hx)]; by apply Hold.
      * intros x [->|[->|Hx]%elem_of_cons]%elem_of_cons Hx2; [| |done].
        -- rewrite Hha. cbn. split; [done|]. split; [lia|]. split; [lia|]. exists a. split; [set_solver|]. split; [lia|]. rewrite Ea. split; [lia|by left].
        -- rewrite Hhnb. cbn. split; [done|]. split; [lia|]. split; [unfold HDR in *; lia|]. exists a. split; [set_solver|]. split; [lia|]. rewrite Enb. split; [lia|by left].
      * intros x y [->|[->|?]%elem_of_cons]%elem_of_cons [->|[->|?]%elem_of_cons]%elem_of_cons ?? Hne; try done; rewrite Ea; auto with lia.
    + rewrite Hl in Hbl. set_solver.
    + apply Hold; [done|]. by intros ->.
    + split; [|split; [set_solver|split; [unfold used; by rewrite Hha|rewrite Hha; cbn; lia]]].
      intros b Hbl Hbu Hne. assert (b <> a) by (by intros ->). destruct (decide (b = nb)) as [->|Hnb']; [unfold used in Hbu; by rewrite Hhnb in Hbu|].
      assert (Hbin : b ∈ l) by (rewrite Hl; set_solver). split; [done|]. unfold used in *. by rewrite <- Hold.
  - set (h' := set_block h a _).
    assert (Hha : hp_block h' a = (hp_block h a) <| hb_used := 1 |>) by (unfold h'; by rewrite hp_block_set, Z.eqb_refl).
    assert (Hold : forall x, x <> a -> hp_block h' x = hp_block h x) by (intros x ?; unfold h'; rewrite hp_block_set; by destruct (Z.eqb_spec x a)).
    assert (Ea : block_end h' a = block_end h a) by (unfold block_end; by rewrite Hha).
    exists l. split; [split; [|intros b Hbl Hbu; split; [done|]| |]|]; try done.
    + rewrite Hl. apply (blocks_replace h l Hb l1 a l2 h' l2); try done.
      * unfold nx at 2. rewrite Hha. rec_simpl. eapply chain_ext; [|exact Hc2]. intros x Hx. unfold nx. destruct (Hl2 x Hx). by rewrite Hold.
      * intros x Hx _. apply Hold. apply elem_of_app in Hx as [Hx|Hx]; [by destruct (Hl1 x Hx)|by destruct (Hl2 x Hx)].
      * intros x [->|?]%elem_of_cons Hx2; [|done]. rewrite Hha. rec_simpl. split; [done|]. split; [done|]. split; [done|].
        exists a. split; [set_solver|]. split; [lia|]. rewrite Ea. split; [lia|by left].
      * intros x y [->|?]%elem_of_cons [->|?]%elem_of_cons ???; done.
    + apply Hold. by intros ->.
    + split; [|split; [done|split; [unfold used; by rewrite Hha|rewrite Hha; rec_simpl; lia]]].
      intros b Hbl Hbu Hne. assert (b <> a) by (by intros ->). split; [done|]. unfold used in *. by rewrite <- Hold.
Qed.

Lemma kfree_blocks h l p : heap_blocks h l -> p - HDR ∈ l -> used h (p - HDR) -> merges_neighbour h p ->
  exists l', heap_blocks (kfree h p) l' /\ ~ used (kfree h p) (p - HDR) /\
    (forall b, b ∈ l -> b <> p - HDR -> hp_block (kfree h p) b = hp_block h b) /\
    (forall b, b ∈ l -> b <> p - HDR -> used h b -> b ∈ l') /\ (forall b, b ∈ l' -> b ∈ l).
Proof.
  intros Hb Hal Hu Hmerge. set (a := p - HDR) in *. destruct (hk_block _ _ Hb a Hal) as (Hm & Ha & Hs0 & He).
  pose proof Hal as (l1 & l2 & Hl)%list_elem_of_split. destruct (list_parts h l Hb l1 a l2 Hl) as (_ & Hl1 & Hl2 & Hc2).
  unfold kfree. destruct (Z.eqb_spec p NULL) as [->|_]; [unfold a, NULL, HDR in *; lia|]. fold a. rewrite Hm, Z.eqb_refl. cbn [negb].
  destruct (Z.eqb_spec (hb_used (hp_block h a)) 0); [done|]. cbn [negb]. rec_simpl.
  set (b0 := (hp_block h a) <| hb_used := 0 |>). set (h1 := set_block h a b0).
  assert (Hgen : forall b2 r h', h' = set_block h1 a b2 \/ (h' = h1 /\ b2 = b0) -> r ⊆ l2 -> hb_used b2 = 0 -> hb_magic b2 = HEAP_MAGIC ->
    0 <= hb_size b2 -> chain (nx h) (hb_next b2) r ->
    (exists y, y ∈ a :: l2 /\ a + HDR + hb_size b2 <= block_end h y /\ (y = a \/ (y ∉ r /\ block_end h a = y))) ->
    (forall b, b ∈ l2 -> used h b -> b ∈ r) ->
    heap_blocks h' (l1 ++ a :: r) /\ ~ used h' a /\ (forall b, b ∈ l -> b <> a -> hp_block h' b = hp_block h b) /\
    (forall b, b ∈ l -> b <> a -> used h b -> b ∈ l1 ++ a :: r) /\ (forall b, b ∈ l1 ++ a :: r -> b ∈ l)).
  { intros b2 r h' Hh' Hsub Hu2 Hm2 Hs2 Hch (y & Hy & Hye & Hya) Hkeep.
    assert (Hha : hp_block h' a = b2) by (destruct Hh' as [->|[-> ->]]; [|unfold h1]; by rewrite hp_block_set, Z.eqb_refl).
    assert (Hho : forall x, x <> a -> hp_block h' x = hp_block h x).
    { intros x Hx. apply Z.eqb_neq in Hx. destruct Hh' as [->|[-> _]]; unfold h1; by rewrite ?hp_block_set, Hx. }
    split; [|split; [unfold used; rewrite Hha; lia|split; [intros; by apply Hho|split]]].
    - apply (blocks_replace h l Hb l1 a l2 h' r); try done.
      + by destruct Hh' as [->|[-> _]].
      + by destruct Hh' as [->|[-> _]].
      + unfold nx at 2. rewrite Hha. eapply chain_ext; [|exact Hch]. intros x Hx. unfold nx. destruct (Hl2 x (Hsub x Hx)). by rewrite Hho.
      + intros x Hx _. apply Hho. apply elem_of_app in Hx as [Hx|Hx]; [by destruct (Hl1 x Hx)|by destruct (Hl2 x Hx)].
      + intros x [->|Hx]%elem_of_cons Hx2; [|by destruct (Hx2 (Hsub x Hx))]. rewrite Hha. split; [done|]. split; [done|]. split; [done|].
        exists y. split; [done|]. split; [lia|]. unfold block_end at 1. rewrite Hha. done.
      + intros x z [->|Hx]%elem_of_cons [->|Hz]%elem_of_cons Hx2 Hz2 Hne; [done|by destruct (Hz2 (Hsub z Hz))|by destruct (Hx2 (Hsub x Hx))..].
    - intros b Hbl Hne Hbu. rewrite Hl in Hbl. specialize (Hkeep b). set_solver.
    - intros b Hbl. rewrite Hl. set_solver. }
  destruct (Z.eqb_spec (hb_next (hp_block h a)) NULL) as [Hn|Hn]; cbn [negb andb].
  { exists (l1 ++ a :: l2). apply (Hgen b0); auto; try done. exists a. split; [set_solver|]. split; [unfold block_end; done|by left]. }
  destruct l2 as [|b l2]; [by rewrite chain_nil in Hc2|]. rewrite chain_cons in Hc2. destruct Hc2 as (Hnb & Hb0 & Hc2). unfold nx in Hnb.
  rewrite Hnb. destruct (Hl2 b ltac:(set_solver)) as [Hbl Hba]. assert (Eb : hp_block h1 b = hp_block h b).
  { unfold h1. rewrite hp_block_set. by apply Z.eqb_neq in Hba as ->. }
  rewrite Eb. destruct (Z.eqb_spec (hb_used (hp_block h b)) 0) as [Hub|Hub].
  - destruct Hmerge as [Hx|[Hx|Hx]]; fold a in Hx; [done|by rewrite Hnb in Hx|]. assert (Ebe : block_end h a = b) by (unfold block_end, a, HDR in *; lia).
    destruct (hk_block _ _ Hb b Hbl) as (_ & _ & Hbs & Hbe). unfold block_end in Hbe, Ebe. unfold HDR in Hbe, Ebe. exists (l1 ++ a :: l2).
    apply (Hgen (b0 <| hb_size := u64 (hb_size b0 + (HDR + hb_size (hp_block h b))) |> <| hb_next := hb_next (hp_block h b) |>)); rec_simpl; try done; auto.
    + set_solver.
    + change (hb_size b0) with (hb_size (hp_block h a)). apply u64_range.
    + exists b. split; [set_solver|]. change (hb_size b0) with (hb_size (hp_block h a)). unfold block_end, HDR in *. rewrite u64_id by lia. split; [lia|].
      right. split; [|lia]. pose proof (chain_NoDup _ _ _ (hk_chain _ _ Hb)) as Hnd. rewrite Hl in Hnd. apply NoDup_app in Hnd as (_ & _ & [_ Hnd]%NoDup_cons).
      by apply NoDup_cons in Hnd as [? _].
    + intros x [->|?]%elem_of_cons Hux; [|done]. by destruct Hux.
  - exists (l1 ++ a :: b :: l2). apply (Hgen b0); auto; try done. exists a. split; [set_solver|]. split; [unfold block_end; done|by left].
Qed.

(** Taking pages from the page allocator. *)
Lemma pages_taken p n p' a : pmm_wf p -> 1 <= n <= total_pages p -> pmm_alloc_n p n = Some (p', a) ->
  pmm_wf p' /\ same_region p p' /\ free_set p' ⊆ free_set p /\
  (a <> 0 -> exists k, a = page_addr p k /\ run_of k n ⊆ free_set p /\ run_of k n ## free_set p').
Proof.
  intros Hwf Hn E. assert (Hc : n = 1 \/ 2 <= n) by lia. destruct Hc as [->|H2].
  - unfold pmm_alloc_n in E. cbn [Z.eqb Pos.eqb] in E. apply (inj Some) in E. destruct (pmm_alloc_refine p p' a Hwf E) as (r & Hs & Hr & Hwf' & Hreg).
    split; [done|]. split; [done|]. inversion Hs as [He E1 E2|k Hk Hmin Hkr Hfs]; subst r.
    + split; [set_solver|]. by subst a.
    + split; [set_solver|]. intros _. exists k. split; [done|].
      split; intros x Hx%elem_of_run_of; (assert (x = k) as -> by lia); [done|]. set_solver.
  - destruct (pmm_alloc_n_refine p n Hwf ltac:(lia)) as (p1 & a1 & r & E1 & Hs & Hr & Hwf' & Hreg). rewrite E1 in E.
    apply (inj Some) in E. injection E as <- <-. split; [done|]. split; [done|]. inversion Hs as [Hno E2 E3|k Hk Hmin Hkr Hfs]; subst r.
    + split; [set_solver|]. by subst a1.
    + split; [set_solver|]. intros _. exists k. split; [done|]. split; [done|]. set_solver.
Qed.

Lemma blocks_pmm h l p' : heap_blocks h l -> pmm_wf p' -> same_region (hp_pmm h) p' -> free_set p' ⊆ free_set (hp_pmm h) ->
  heap_blocks (h <| hp_pmm := p' |>) l.
Proof.
  intros [H1 H2 H3 H4 H5] Hwf [Eb Et] Hsub. split; rec_simpl; [done|exact H2|exact H3| |rewrite Eb, Et; split; [done|apply H5]].
  intros a k Ha Hk. unfold page_addr. rewrite Eb. exact (H4 a k Ha (Hsub k Hk)).
Qed.

(** The pages become the first block. *)
Lemma grow_blocks h l np pages k : heap_blocks h l -> 0 < pages -> np <> 0 -> np = page_addr (hp_pmm h) k -> 0 <= k -> k + pages <= total_pages (hp_pmm h) ->
  (forall j, k <= j < k + pages -> j ∉ free_set (hp_pmm h)) ->
  (forall a, a ∈ l -> block_end h a <= np \/ np + pages * PAGE_SIZE <= a) ->
  heap_blocks (heap_grow h np pages) (np :: l) /\ (forall b, b ∈ l -> hp_block (heap_grow h np pages) b = hp_block h b) /\
  ~ used (heap_grow h np pages) np /\ np ∉ l.
Proof.
  intros Hb Hpos Hnz Hk Hk0 Hkt Hfree Hfar. destruct (hk_pmm _ _ Hb) as [Hwf Htop]. destruct (wf_base _ Hwf) as [Hb0 _].
  unfold page_addr in Hk. set (h' := heap_grow h np pages).
  assert (Hnp : 0 < np /\ np + pages * PAGE_SIZE < 2 ^ 63) by (unfold PAGE_SIZE in *; lia).
  assert (Hnl : np ∉ l).
  { intros Hin. destruct (hk_block _ _ Hb np Hin) as (_ & _ & ? & _). destruct (Hfar np Hin); unfold block_end, HDR, PAGE_SIZE in *; lia. }
  assert (Hnew : hp_block h' np = mkBlock (pages * PAGE_SIZE - HDR) 0 HEAP_MAGIC (heap_start h)) by (unfold h', heap_grow; apply fn_lookup_insert).
  assert (Hold : forall b, b ∈ l -> hp_block h' b = hp_block h b).
  { intros b Hbl. unfold h', heap_grow. rec_simpl. rewrite hp_block_set. destruct (Z.eqb_spec b np) as [->|]; done. }
  assert (Ene : block_end h' np = np + pages * PAGE_SIZE) by (unfold block_end; rewrite Hnew; cbn; lia).
  assert (Eo : forall b, b ∈ l -> block_end h' b = block_end h b) by (intros b Hbl; unfold block_end; by rewrite Hold).
  split; [|split; [done|split; [|done]]].
  2: { unfold used. rewrite Hnew. cbn. lia. }
  split.
  - apply chain_cons. split; [done|]. split; [unfold NULL; lia|]. unfold nx at 2. rewrite Hnew. eapply chain_ext; [|exact (hk_chain _ _ Hb)].
    intros x Hx. unfold nx. by rewrite Hold.
  - intros a [->|Ha]%elem_of_cons; [rewrite Ene, Hnew; cbn; unfold HDR, PAGE_SIZE in *; split; [done|lia]|]. rewrite Eo, Hold by done. by apply (hk_block _ _ Hb).
  - intros a b [->|Ha]%elem_of_cons [->|Hbl]%elem_of_cons Hne; [done|..].
    + rewrite Ene, Eo by done. destruct (Hfar b Hbl); auto.
    + rewrite Ene, Eo by done. destruct (Hfar a Ha); auto.
    + rewrite !Eo by done. by apply (hk_apart _ _ Hb).
  - change (hp_pmm h') with (hp_pmm h). intros a j [->|Ha]%elem_of_cons Hj; [|rewrite Eo by done; by apply (hk_pages _ _ Hb)].
    rewrite Ene. unfold page_addr in *. assert (~ (k <= j < k + pages)) by (intros ?; by apply (Hfree j)). unfold PAGE_SIZE in *. lia.
  - done.
Qed.

Lemma ALIGN_UP_idem x : 0 <= x < 2 ^ 63 -> x mod 16 = 0 -> ALIGN_UP x 16 = x.
Proof. intros. pose proof (ALIGN_UP_16 x ltac:(lia)). lia. Qed.

(** The pages [kmalloc] asks for. *)
Definition pages_for (size : Z) : Z := ALIGN_UP (u64 (ALIGN_UP size 16 + HDR)) PAGE_SIZE / PAGE_SIZE.

Lemma pages_for_pos size : 0 < size <= 2 ^ 62 -> 1 <= pages_for size /\ pages_for (ALIGN_UP size 16) = pages_for size.
Proof.
  intros Hs. destruct (ALIGN_UP_16 size ltac:(lia)) as [H1 H2]. unfold pages_for. rewrite (ALIGN_UP_idem (ALIGN_UP size 16)) by lia.
  split; [|done]. unfold HDR, PAGE_SIZE. rewrite u64_id by lia. unfold ALIGN_UP at 1. change (4096 - 1) with (2 ^ 12 - 1). rewrite land_lnot_ones, u64_id by lia. lia.
Qed.

(** A call of [kmalloc], growth included. *)
Lemma kmalloc_blocks rounds fuel h l size h' p : heap_blocks h l -> 0 <= size <= 2 ^ 62 -> pages_for size <= total_pages (hp_pmm h) ->
  kmalloc rounds fuel h size = Some (h', p) ->
  exists l', grown h l h' l' /\
    ((p = NULL /\ only_new h l h' l' None) \/
     exists a, p = a + HDR /\ only_new h l h' l' (Some a) /\ a ∈ l' /\ used h' a /\ ~ (a ∈ l /\ used h a) /\ size <= hb_size (hp_block h' a)).
Proof.
  revert h l size. induction rounds as [|rounds IH]; intros h l size Hb Hsz Hpg; [done|]. cbn [kmalloc].
  assert (Hsame : forall h', heap_blocks h' l -> hp_block h' = hp_block h -> hp_mem h' = hp_mem h -> total_pages (hp_pmm h') = total_pages (hp_pmm h) ->
    grown h l h' l /\ only_new h l h' l None).
  { intros h1 H1 E1 E2 E3. split; [split; [done|intros b Hbl _; split; [done|by rewrite E1]|done|done]|].
    intros b Hbl Hbu _. split; [done|]. unfold used in *. by rewrite <- E1. }
  destruct (Z.eqb_spec size 0) as [->|Hnz].
  { intros [= <- <-]. exists l. destruct (Hsame h) as [? ?]; [done..|]. split; [done|by left]. }
  destruct (ALIGN_UP_16 size ltac:(lia)) as [Hal Hmod]. destruct (pages_for_pos size ltac:(lia)) as [Hp1 Hp2].
  destruct (heap_scan fuel _ _ _) as [a|a| |] eqn:E; [| | |done].
  - intros [= <- <-]. pose proof (scan_fit_block _ _ _ _ _ _ (hk_chain _ _ Hb) E) as Hf.
    destruct (take_blocks h l a (ALIGN_UP size 16) Hb Hf ltac:(lia)) as (l' & Hg & Ho & Ha & Hu & Hs). exists l'. split; [done|]. right. exists a.
    split; [done|]. split; [done|]. split; [done|]. split; [done|]. split; [|lia]. destruct Hf as (? & ? & _ & Hf & _). intros [_ ?]. done.
  - intros [= <- <-]. exists l. destruct (Hsame h) as [? ?]; [done..|]. split; [done|by left].
  - fold (pages_for size). destruct (pmm_alloc_n (hp_pmm h) (pages_for size)) as [[p' np]|] eqn:Ep; [|done].
    destruct (hk_pmm _ _ Hb) as [Hwf _]. destruct (pages_taken _ _ _ _ Hwf (conj Hp1 Hpg) Ep) as (Hwf' & Hreg & Hsub & Hrun).
    pose proof (blocks_pmm h l p' Hb Hwf' Hreg Hsub) as Hb1. set (h1 := h <| hp_pmm := p' |>) in *. destruct Hreg as [Eb Et].
    destruct (Z.eqb_spec np 0) as [->|Hnp].
    { intros [= <- <-]. exists l. destruct (Hsame h1) as [? ?]; [done..|]. split; [done|by left]. }
    destruct (Hrun Hnp) as (k & Ek & Hk1 & Hk2).
    assert (Hkr : forall j, k <= j < k + pages_for size -> j ∈ free_set (hp_pmm h)) by (intros j Hj; by apply Hk1, elem_of_run_of).
    pose proof (Hkr k ltac:(lia)) as [Hk0 _]%elem_of_free_set. pose proof (Hkr (k + pages_for size - 1) ltac:(lia)) as [Hkt _]%elem_of_free_set.
    destruct (grow_blocks h1 l np (pages_for size) k Hb1) as (Hb2 & Hold & Hnu & Hnl); try done; try lia.
    { change (hp_pmm h1) with p'. unfold page_addr in *. by rewrite Eb. }
    { change (hp_pmm h1) with p'. lia. }
    { intros j Hj Hjf. apply (Hk2 j); [by apply elem_of_run_of|done]. }
    { intros a Ha. destruct (decide (block_end h a <= np)) as [|Hgt]; [by left|]. right.
      pose proof (hk_pages _ _ Hb a (k + pages_for size - 1) Ha (Hkr (k + pages_for size - 1) ltac:(lia))) as Hlast.
      assert (Hall : forall n, (0 <= Z.of_nat n < pages_for size) -> page_addr (hp_pmm h) (k + Z.of_nat n) + PAGE_SIZE <= a).
      { destruct (hk_block _ _ Hb a Ha) as (_ & _ & Hs0 & _). induction n as [|n IHn]; intros Hn.
        - pose proof (hk_pages _ _ Hb a k Ha (Hkr k ltac:(lia))). rewrite Z.add_0_r. lia.
        - specialize (IHn ltac:(lia)). pose proof (hk_pages _ _ Hb a (k + Z.of_nat (S n)) Ha (Hkr (k + Z.of_nat (S n)) ltac:(lia))) as [H|H]; [|done].
          unfold block_end, HDR, page_addr, PAGE_SIZE in *. lia. }
      specialize (Hall (Z.to_nat (pages_for size - 1)) ltac:(lia)). unfold page_addr, PAGE_SIZE in *. lia. }
    change (kmalloc rounds fuel (heap_grow h1 np (pages_for size)) (ALIGN_UP size 16) = Some (h', p) -> exists l', grown h l h' l' /\
      ((p = NULL /\ only_new h l h' l' None) \/
       exists a, p = a + HDR /\ only_new h l h' l' (Some a) /\ a ∈ l' /\ used h' a /\ ~ (a ∈ l /\ used h a) /\ size <= hb_size (hp_block h' a))).
    intros Er. assert (Hpg2 : pages_for (ALIGN_UP size 16) <= total_pages (hp_pmm (heap_grow h1 np (pages_for size)))).
    { change (hp_pmm (heap_grow h1 np (pages_for size))) with p'. lia. }
    destruct (IH _ _ (ALIGN_UP size 16) Hb2 ltac:(lia) Hpg2 Er) as (l' & [Hg1 Hg2 Hg3 Hg4] & Hres).
    assert (Hused : forall b, b ∈ np :: l -> used (heap_grow h1 np (pages_for size)) b -> b ∈ l /\ used h b).
    { intros b [->|Hbl]%elem_of_cons Hbu; [done|]. split; [done|]. unfold used in *. by rewrite Hold in Hbu. }
    assert (Hback : forall b, b ∈ l -> used h b -> b ∈ np :: l /\ used (heap_grow h1 np (pages_for size)) b).
    { intros b Hbl Hbu. split; [set_solver|]. unfold used in *. by rewrite Hold. }
    exists l'. split.
    + split; [done| |done|].
      * intros b Hbl Hbu. destruct (Hback b Hbl Hbu) as [H1 H2]. destruct (Hg2 b H1 H2) as [? ->]. split; [done|]. by apply Hold.
      * rewrite Hg4. change (total_pages p' = total_pages (hp_pmm h)). done.
    + destruct Hres as [[-> Ho]|(a & -> & Ho & Ha & Hua & Hna & Hs)]; [left|right].
      * split; [done|]. intros b Hbl Hbu Hne. destruct (Ho b Hbl Hbu Hne) as [? ?]. by apply Hused.
      * exists a. split; [done|]. split; [|split; [done|split; [done|split; [|lia]]]].
        -- intros b Hbl Hbu Hne. destruct (Ho b Hbl Hbu Hne) as [? ?]. by apply Hused.
        -- intros [H1 H2]. apply Hna. by apply Hback.
Qed.

(** * Clients of a growing heap *)

(** The calls of clients that hold the pointers [hc_held].  They free and resize only
    pointers they hold, ask for at most the managed memory, and write anything to
    memory outside the headers; other users of the page allocator take pages.  A block
    that is freed is not followed in the list by a free block of another region. *)
Inductive heap_step : heap_client -> heap_client -> Prop :=
| hs_kmalloc h H rounds fuel size h' p :
    0 <= size <= 2 ^ 62 -> pages_for size <= total_pages (hp_pmm h) -> kmalloc rounds fuel h size = Some (h', p) ->
    heap_step (mkHeapClient h H) (mkHeapClient h' (if p =? NULL then H else {[p]} ∪ H))
| hs_kcalloc h H rounds fuel n size h' p :
    0 <= n -> 0 <= size -> n * size <= 2 ^ 62 -> pages_for (n * size) <= total_pages (hp_pmm h) -> kcalloc rounds fuel h n size = Some (h', p) ->
    heap_step (mkHeapClient h H) (mkHeapClient h' (if p =? NULL then H else {[p]} ∪ H))
| hs_kfree h H p : p ∈ H -> merges_neighbour h p -> heap_step (mkHeapClient h H) (mkHeapClient (kfree h p) (H ∖ {[p]}))
| hs_krealloc h H rounds fuel p size h' q :
    p ∈ H -> 0 < size <= 2 ^ 62 -> pages_for size <= total_pages (hp_pmm h) -> krealloc rounds fuel h p size = Some (h', q) ->
    (forall h1 q1, kmalloc rounds fuel h size = Some (h1, q1) -> merges_neighbour h1 p) ->
    heap_step (mkHeapClient h H) (mkHeapClient h' (if q =? NULL then H else {[q]} ∪ (H ∖ {[p]})))
| hs_write h H m : heap_step (mkHeapClient h H) (mkHeapClient (h <| hp_mem := m |>) H)
| hs_pages h H p' : pmm_wf p' -> same_region (hp_pmm h) p' -> free_set p' ⊆ free_set (hp_pmm h) ->
    heap_step (mkHeapClient h H) (mkHeapClient (h <| hp_pmm := p' |>) H).

(** The held pointers are exactly the blocks in use. *)
Definition held_blocks (h : heap) (H : gset Z) (l : list Z) : Prop :=
  heap_blocks h l /\ forall a, a + HDR ∈ H <-> a ∈ l /\ used h a.

Lemma blocks_mem h l m : heap_blocks h l -> heap_blocks (h <| hp_mem := m |>) l.
Proof. intros [? ? ? ? ?]. by split. Qed.

Lemma held_blocks_none h H l h' l' : held_blocks h H l -> grown h l h' l' -> only_new h l h' l' None -> held_blocks h' H l'.
Proof.
  intros [Hb Hh] [Hb' Hk _ _] Ho. split; [done|]. intros a. rewrite Hh. split.
  - intros [Ha Hu]. destruct (Hk a Ha Hu) as [? E]. split; [done|]. unfold used in *. by rewrite E.
  - intros [Ha Hu]. by apply Ho.
Qed.

Lemma held_blocks_some h H l h' l' a : held_blocks h H l -> grown h l h' l' -> only_new h l h' l' (Some a) -> a ∈ l' -> used h' a ->
  held_blocks h' ({[a + HDR]} ∪ H) l'.
Proof.
  intros [Hb Hh] [Hb' Hk _ _] Ho Ha' Hu'. split; [done|]. intros b. rewrite elem_of_union, elem_of_singleton, Hh. split.
  - intros [E|[Ha Hu]]; [by assert (b = a) as -> by lia|]. destruct (Hk b Ha Hu) as [? E]. split; [done|]. unfold used in *. by rewrite E.
  - intros [Ha Hu]. destruct (decide (b = a)) as [->|Hne]; [by left|]. right. apply Ho; [done|done|]. by intros [= ->].
Qed.

Lemma held_block h H l p : held_blocks h H l -> p ∈ H -> p - HDR ∈ l /\ used h (p - HDR) /\ HDR < p.
Proof.
  intros [Hb Hh] Hp. rewrite <- (minus_plus_HDR p) in Hp. apply Hh in Hp as [Ha Hu]. destruct (hk_block _ _ Hb _ Ha) as (_ & ? & _ & _).
  split; [done|]. split; [done|lia].
Qed.

Lemma held_blocks_kfree h H l p : held_blocks h H l -> p ∈ H -> merges_neighbour h p -> exists l', held_blocks (kfree h p) (H ∖ {[p]}) l'.
Proof.
  intros Hc Hp Hmerge. destruct (held_block h H l p Hc Hp) as (Ha & Hu & _). destruct Hc as [Hb Hh].
  destruct (kfree_blocks h l p Hb Ha Hu Hmerge) as (l' & Hb' & Hnu & Hold & Hkeep & Hsub). exists l'. split; [done|]. intros b.
  rewrite elem_of_difference, elem_of_singleton, Hh. unfold used in *. split.
  - intros [[Hbl Hbu] Hne]. assert (b <> p - HDR) by (unfold HDR in *; lia). rewrite Hold by done. split; [by apply Hkeep|done].
  - intros [Hbl Hbu]. destruct (decide (b = p - HDR)) as [->|Hne]; [done|]. specialize (Hsub b Hbl). rewrite Hold in Hbu by done.
    split; [done|]. unfold HDR in *. lia.
Qed.

(** [kmalloc], for what is held. *)
Lemma held_kmalloc rounds fuel h H l size h' p : held_blocks h H l -> 0 <= size <= 2 ^ 62 -> pages_for size <= total_pages (hp_pmm h) ->
  kmalloc rounds fuel h size = Some (h', p) ->
  exists l', held_blocks h' (if p =? NULL then H else {[p]} ∪ H) l' /\ hp_mem h' = hp_mem h /\
    (forall q, q ∈ H -> hp_block h' (q - HDR) = hp_block h (q - HDR)) /\ (p <> NULL -> p ∉ H /\ size <= block_bytes h' p).
Proof.
  intros Hc Hsz Hpg E. destruct (kmalloc_blocks rounds fuel h l size h' p (proj1 Hc) Hsz Hpg E) as (l' & Hg & Hres). exists l'.
  assert (Hq : forall q, q ∈ H -> hp_block h' (q - HDR) = hp_block h (q - HDR)).
  { intros q Hq. destruct (held_block h H l q Hc Hq) as (Hql & Hqu & _). by apply (gr_kept _ _ _ _ Hg). }
  destruct Hres as [[-> Ho]|(a & -> & Ho & Ha & Hu & Hna & Hs)].
  - split; [by eapply held_blocks_none|]. split; [apply Hg|done].
  - destruct (hk_block _ _ (gr_blocks _ _ _ _ Hg) a Ha) as (_ & Ha0 & _ & _). destruct (Z.eqb_spec (a + HDR) NULL); [unfold NULL, HDR in *; lia|].
    split; [by eapply held_blocks_some|]. split; [apply Hg|]. split; [done|]. intros _. split; [by rewrite (proj2 Hc)|].
    unfold block_bytes. by replace (a + HDR - HDR) with a by lia.
Qed.

Lemma heap_step_held c c' : heap_step c c' -> (exists l, held_blocks (hc_heap c) (hc_held c) l) -> exists l, held_blocks (hc_heap c') (hc_held c') l.
Proof.
  intros Hst [l Hc]. destruct Hst as [h H rounds fuel size h' p Hsz Hpg E|h H rounds fuel n size h' p Hn Hs Hns Hpg E|h H p Hp Hm
    |h H rounds fuel p size h' q Hp Hsz Hpg E Hm|h H m|h H p' Hwf Hreg Hsub]; cbn [hc_heap hc_held] in *.
  - destruct (held_kmalloc rounds fuel h H l size h' p Hc Hsz Hpg E) as (l' & ? & _). by exists l'.
  - unfold kcalloc in E. assert (0 <= n * size) by (by apply Z.mul_nonneg_nonneg). rewrite u64_id in E by lia.
    destruct (kmalloc rounds fuel h (n * size)) as [[h1 p1]|] eqn:Ek; [|done].
    destruct (held_kmalloc rounds fuel h H l (n * size) h1 p1 Hc ltac:(lia) Hpg Ek) as (l' & [Hb' Hh'] & _). exists l'.
    destruct (p1 =? NULL) eqn:E1; injection E as <- <-; rewrite E1; [done|]. split; [by apply blocks_mem|exact Hh'].
  - by eapply held_blocks_kfree.
  - destruct (held_block h H l p Hc Hp) as (Hpl & Hpu & Hp0). unfold krealloc, NULL in E. destruct (Z.eqb_spec p 0); [unfold HDR in *; lia|].
    destruct (Z.eqb_spec size 0); [lia|]. destruct (size <=? _).
    { injection E as <- <-. destruct (Z.eqb_spec p NULL); [done|]. exists l. replace ({[p]} ∪ H ∖ {[p]}) with H; [done|].
      apply set_eq. intros x. destruct (decide (x = p)); set_solver. }
    destruct (kmalloc rounds fuel h size) as [[h1 np]|] eqn:Ek; [|done].
    destruct (held_kmalloc rounds fuel h H l size h1 np Hc ltac:(lia) Hpg Ek) as (l' & Hc1 & _ & _ & Hnew).
    destruct (Z.eqb_spec np 0) as [->|Hnp]; [injection E as <- <-; by exists l'|]. injection E as <- <-.
    destruct (Z.eqb_spec np NULL) as [|_]; [done|]. specialize (Hm h1 np eq_refl). destruct (Hnew Hnp) as [Hnh _].
    set (hc := h1 <| hp_mem := _ |>). assert (Hcc : held_blocks hc ({[np]} ∪ H) l') by (destruct Hc1; split; [by apply blocks_mem|done]).
    destruct (held_blocks_kfree hc ({[np]} ∪ H) l' p Hcc ltac:(set_solver) Hm) as [l2 Hc2]. exists l2.
    replace ({[np]} ∪ H ∖ {[p]}) with (({[np]} ∪ H) ∖ {[p]}); [done|]. apply set_eq. intros x.
    destruct (decide (x = np)); set_solver.
  - exists l. destruct Hc. split; [by apply blocks_mem|done].
  - exists l. destruct Hc. split; [by apply blocks_pmm|done].
Qed.

Lemma kmalloc_init_blocks h lo hi : 0 < lo -> lo + HDR <= hi -> hi < 2 ^ 63 -> pmm_wf (hp_pmm h) ->
  phys_base (hp_pmm h) + total_pages (hp_pmm h) * PAGE_SIZE < 2 ^ 63 ->
  (forall k, k ∈ free_set (hp_pmm h) -> hi <= page_addr (hp_pmm h) k \/ page_addr (hp_pmm h) k + PAGE_SIZE <= lo) ->
  held_blocks (kmalloc_init h lo hi) ∅ [lo].
Proof.
  intros Hlo Hle Hhi Hwf Htop Hfree. pose proof (kmalloc_init_wf h lo hi Hlo Hhi Hle) as [_ _ Hc Ht Hm].
  assert (Hend : block_end (kmalloc_init h lo hi) lo = hi /\ 0 <= hb_size (hp_block (kmalloc_init h lo hi) lo)).
  { destruct Ht as (_ & H0 & E). split; [|done]. unfold block_end. done. }
  split; [split|].
  - done.
  - intros a ->%list_elem_of_singleton. apply Forall_cons in Hm as [? _]. destruct Hend as [-> ?]. done.
  - intros a b ->%list_elem_of_singleton ->%list_elem_of_singleton. done.
  - intros a k ->%list_elem_of_singleton Hk. destruct Hend as [-> _]. by apply Hfree.
  - done.
  - intros a. split; [set_solver|]. intros [->%list_elem_of_singleton Hu]. exfalso. apply Hu.
    change (hb_used (hp_block (set_block h lo (mkBlock (hi - lo - HDR) 0 HEAP_MAGIC NULL)) lo) = 0). by rewrite hp_block_set, Z.eqb_refl.
Qed.

(** A page count covers the request and the header. *)
Lemma pages_cover x :
  0 <= x < 2 ^ 63 ->
  x + HDR <= ALIGN_UP (u64 (x + HDR)) PAGE_SIZE / PAGE_SIZE * PAGE_SIZE < x + HDR + 4096.
Proof.
  intros. unfold HDR, PAGE_SIZE, ALIGN_UP. change (4096 - 1) with (2 ^ 12 - 1).
  rewrite land_lnot_ones, (u64_id (x + 24)), u64_id by lia. lia.
Qed.

(** The block at the start of new pages taken. *)
Lemma taken_pages h l s e hg np pg asz : heap_wf h l s e ->
  hp_block hg np = mkBlock (pg * PAGE_SIZE - HDR) 0 HEAP_MAGIC (heap_start h) -> 0 < asz < 2 ^ 63 -> asz + HDR <= pg * PAGE_SIZE < 2 ^ 63 ->
  (forall b, b <> np -> hp_block hg b = hp_block h b) -> heap_start hg = np ->
  used (heap_take hg np asz) np /\ asz <= hb_size (hp_block (heap_take hg np asz) np) /\ heap_start (heap_take hg np asz) = np /\
  (0 < np -> e <= np \/ np + pg * PAGE_SIZE <= s ->
   exists m, (length m <= 1)%nat /\ chain (nx (heap_take hg np asz)) np (np :: m ++ l) /\ (forall b, b ∈ m -> ~ used (heap_take hg np asz) b) /\
     forall b, b ∈ l -> hp_block (heap_take hg np asz) b = hp_block h b).
Proof.
  intros Hwf Hg Hasz Hpg Hold Hst. unfold heap_take. rewrite Hg. cbn [hb_size hb_magic hb_next]. rewrite u64_id by (unfold HDR, PAGE_SIZE in *; lia).
  assert (Hin : forall b, b ∈ l -> s <= b < e).
  { intros b Hb. destruct (hw_block h l s e Hwf b Hb) as (? & ? & ? & _). unfold HDR in *. lia. }
  destruct (Z.leb_spec (asz + HDR + 16) (pg * PAGE_SIZE - HDR)) as [Hbig|Hsmall].
  - set (nb := np + HDR + asz). set (h' := set_block _ np _). assert (Hnb : nb <> np) by (unfold nb, HDR; lia).
    assert (E1 : hp_block h' np = mkBlock asz 1 HEAP_MAGIC nb) by (unfold h'; by rewrite hp_block_set, Z.eqb_refl).
    assert (E2 : hp_block h' nb = mkBlock (pg * PAGE_SIZE - HDR - asz - HDR) 0 HEAP_MAGIC (heap_start h)).
    { unfold h'. apply Z.eqb_neq in Hnb. by rewrite !hp_block_set, Hnb, Z.eqb_refl. }
    split; [unfold used; by rewrite E1|]. split; [rewrite E1; cbn; lia|]. split; [done|]. intros Hp Hfar.
    assert (E3 : forall b, b ∈ l -> hp_block h' b = hp_block h b).
    { intros b Hb. specialize (Hin b Hb). assert (b <> np /\ b <> nb) as [H1 H2] by (unfold nb, HDR, PAGE_SIZE in *; lia).
      unfold h'. rewrite !hp_block_set. apply Z.eqb_neq in H1 as E. apply Z.eqb_neq in H2 as E'. rewrite E, E'. by apply Hold. }
    exists [nb]. split; [done|]. split; [|split; [|done]].
    + cbn [app]. rewrite !chain_cons.
      assert (N1 : nx h' np = nb) by (unfold nx; by rewrite E1). assert (N2 : nx h' nb = heap_start h) by (unfold nx; by rewrite E2). rewrite N1, N2. split; [done|]. split; [unfold NULL; lia|]. split; [done|].
      split; [unfold NULL, nb, HDR; lia|]. eapply chain_ext; [|exact (hw_chain _ _ _ _ Hwf)]. intros x Hx. unfold nx. by rewrite E3.
    + intros b ->%list_elem_of_singleton. unfold used. rewrite E2. cbn. lia.
  - set (h' := set_block hg np _).
    assert (E1 : hp_block h' np = mkBlock (pg * PAGE_SIZE - HDR) 1 HEAP_MAGIC (heap_start h)) by (unfold h'; by rewrite hp_block_set, Z.eqb_refl).
    split; [unfold used; by rewrite E1|]. split; [rewrite E1; cbn; lia|]. split; [done|]. intros Hp Hfar.
    assert (E3 : forall b, b ∈ l -> hp_block h' b = hp_block h b).
    { intros b Hb. specialize (Hin b Hb). assert (H1 : b <> np) by (unfold HDR, PAGE_SIZE in *; lia).
      unfold h'. rewrite hp_block_set. apply Z.eqb_neq in H1 as E. rewrite E. by apply Hold. }
    exists []. split; [cbn; lia|]. split; [|split; [by intros b ?%elem_of_nil|done]].
    cbn [app]. rewrite chain_cons.
    assert (N1 : nx h' np = heap_start h) by (unfold nx; by rewrite E1). rewrite N1. split; [done|]. split; [unfold NULL; lia|].
    eapply chain_ext; [|exact (hw_chain _ _ _ _ Hwf)]. intros x Hx. unfold nx. by rewrite E3.
Qed.

(** * Properties *)


(** C38 What [kmalloc] does on a heap of one region, for a size below 2^62 and given fuel
    for its blocks: it serves the request from the first free block that is large
    enough; when there is none and the page allocator has no run of pages, it returns
    [NULL] and leaves the blocks alone; when the page allocator delivers pages at [np],
    the second attempt succeeds with the block at the start of those pages, and when
    they are apart from the region, the list is then that block, at most one free block
    for the rest of the pages, and the old blocks as they were.  It always returns
    within two attempts. *)
Theorem kmalloc_outcome (h : heap) (l : list Z) (s e size : Z) (rounds fuel : nat)
    (Hwf : heap_wf h l s e) (Hf : (length l < fuel)%nat) (Hsz : 0 < size < 2 ^ 62) :
  ((exists l1 a l2, l = l1 ++ a :: l2 /\ ~ used h a /\ ALIGN_UP size 16 <= hb_size (hp_block h a) /\
     (forall b, b ∈ l1 -> used h b \/ hb_size (hp_block h b) < ALIGN_UP size 16) /\
     exists h' l', kmalloc (S rounds) fuel h size = Some (h', a + HDR) /\
       allocated h l s e h' a (ALIGN_UP size 16) l') \/
   ((forall b, b ∈ l -> used h b \/ hb_size (hp_block h b) < ALIGN_UP size 16) /\
    forall p' np,
      pmm_alloc_n (hp_pmm h)
        (pages_for size) = Some (p', np) ->
      (np = 0 -> kmalloc (S rounds) fuel h size = Some (h <| hp_pmm := p' |>, NULL)) /\
      (np <> 0 -> exists h', kmalloc (S (S rounds)) fuel h size = Some (h', np + HDR) /\
         size <= block_bytes h' (np + HDR) /\ used h' np /\ hp_pmm h' = p' /\ heap_start h' = np /\
         (0 < np -> e <= np \/ np + pages_for size * PAGE_SIZE <= s ->
          exists m, (length m <= 1)%nat /\ chain (nx h') np (np :: m ++ l) /\ (forall b, b ∈ m -> ~ used h' b) /\
            forall b, b ∈ l -> hp_block h' b = hp_block h b)))).
Proof.
  pose proof (heap_scan_spec h l s e Hwf (ALIGN_UP size 16) fuel Hf) as Hscan.
  pose proof (ALIGN_UP_16 size ltac:(lia)) as [Hal Hmod].
  cbn [kmalloc]. destruct (Z.eqb_spec size 0); [lia|].
  destruct (heap_scan fuel _ _ _) as [a|a| |]; try done.
  - left. destruct Hscan as (l1 & l2 & Hl & Hu & Hfit & Hfirst). exists l1, a, l2.
    split; [done|]. split; [done|]. split; [done|]. split; [done|].
    destruct (heap_take_allocated h l s e Hwf l1 a l2 (ALIGN_UP size 16) Hl Hu) as (l' & Hall); [lia|].
    by exists (heap_take h a (ALIGN_UP size 16)), l'.
  - right. split; [done|]. intros p' np. unfold pages_for. intros ->. set (asz := ALIGN_UP size 16) in *. split.
    + by intros ->.
    + intros Hnp. destruct (Z.eqb_spec np 0); [done|].
      destruct (Z.eqb_spec asz 0); [lia|].
      replace (ALIGN_UP asz 16) with asz by (symmetry; apply ALIGN_UP_idem; lia).
      pose proof (pages_cover asz ltac:(lia)) as Hp.
      set (pg := ALIGN_UP (u64 (asz + HDR)) PAGE_SIZE / PAGE_SIZE) in *.
      destruct fuel as [|fuel]; [lia|]. set (hg := heap_grow _ np pg).
      assert (Hg : hp_block hg np = mkBlock (pg * PAGE_SIZE - HDR) 0 HEAP_MAGIC (heap_start h)).
      { unfold hg, heap_grow. by apply fn_lookup_insert. }
      cbn [heap_scan]. change (heap_start hg) with np.
      destruct (Z.eqb_spec np NULL); [done|]. rewrite Hg. cbn [hb_magic hb_used hb_size].
      rewrite !Z.eqb_refl. cbn [negb andb]. destruct (Z.leb_spec asz (pg * PAGE_SIZE - HDR)); [|lia].
      exists (heap_take hg np asz). split; [done|]. destruct (taken_pages h l s e hg np pg asz Hwf) as (H1 & H2 & H3 & H4); [done|lia|unfold HDR in *; lia| |done|].
      { intros b Hb. unfold hg, heap_grow. rec_simpl. rewrite hp_block_set. by apply Z.eqb_neq in Hb as ->. }
      split; [|split; [exact H1|split; [unfold heap_take; by destruct (_ <=? _)|split; [exact H3|exact H4]]]]. unfold block_bytes. replace (np + HDR - HDR) with np by lia. lia.
Qed.

(** Releasing and resizing, for a client that holds [p] and owns the heap as
    in [client_ok]: [kfree p] marks the block free and leaves every other held block as it is; a second
    [kfree p] is detected and changes nothing, like [kfree NULL] and [kfree] of a
    pointer without a valid header; [krealloc] returns a block that is large
    enough and holds the old contents, and drops [p] unless it fails; [kcalloc]
    returns zeroed bytes. *)
Theorem kfree_krealloc_kcalloc (s e : Z) (h : heap) (H : gset Z) (p : Z)
    (Hok : client_ok s e (mkHeapClient h H)) (Hp : p ∈ H) (Hs : 0 < s) (Hm : bytes_ok (hp_mem h)) :
  (client_ok s e (mkHeapClient (kfree h p) (H ∖ {[p]})) /\
   (forall q, q ∈ H -> q <> p -> hp_block (kfree h p) (q - HDR) = hp_block h (q - HDR)) /\
   kfree (kfree h p) p = kfree h p /\ kfree h NULL = h /\
   (forall q, hb_magic (hp_block h (q - HDR)) <> HEAP_MAGIC -> kfree h q = h)) /\
  (forall fuel size h' q, 0 < size <= 2 ^ 62 -> krealloc 1 fuel h p size = Some (h', q) ->
    client_ok s e (mkHeapClient h' (if q =? NULL then H else {[q]} ∪ (H ∖ {[p]}))) /\
    (q <> NULL -> size <= block_bytes h' q /\
      forall i, 0 <= i < Z.min size (block_bytes h p) -> hp_mem h' (q + i) = hp_mem h (p + i))) /\
  (forall fuel n size h' q, 0 <= n -> 0 <= size -> n * size <= 2 ^ 62 ->
    kcalloc 1 fuel h n size = Some (h', q) -> q <> NULL ->
    n * size <= block_bytes h' q /\ forall i, 0 <= i < n * size -> hp_mem h' (q + i) = 0).
Proof.
  split; [|split].
  - split; [by apply client_ok_kfree|]. pose proof Hok as (l & Hwf & Hh). cbn in Hwf, Hh.
    assert (Hpl : p - HDR ∈ l /\ used h (p - HDR)) by (apply Hh; by rewrite minus_plus_HDR).
    destruct Hpl as [Hpl Hpu]. apply list_elem_of_split in Hpl as (l1 & l2 & Hl).
    destruct (kfree_wf h l s e Hwf l1 _ l2 Hl Hpu) as (l2' & _ & Hfree & _ & _ & Hoth & _).
    rewrite minus_plus_HDR in Hfree, Hoth. split; [|split; [|split; [done|]]].
    + intros q Hq Hne. apply Hoth; [|lia]. apply (Hh (q - HDR)). by rewrite minus_plus_HDR.
    + unfold used in Hfree. unfold kfree at 1. destruct (p =? NULL); [done|].
      destruct (negb _); [done|]. destruct (Z.eqb_spec (hb_used (hp_block (kfree h p) (p - HDR))) 0);
        [done|]. by destruct Hfree.
    + intros q Hq. unfold kfree. destruct (q =? NULL); [done|].
      destruct (Z.eqb_spec (hb_magic (hp_block h (q - HDR))) HEAP_MAGIC); done.
  - intros fuel size h' q Hsz E.
    destruct (krealloc_inv s e h H fuel p size h' q) as (? & _ & ?); done.
  - intros fuel n size h' q Hn Hsize Hov. unfold kcalloc.
    assert (0 <= n * size) by (by apply Z.mul_nonneg_nonneg). rewrite u64_id by lia.
    destruct (kmalloc 1 fuel h (n * size)) as [[h1 q1]|] eqn:E; [|done].
    destruct (Z.eqb_spec q1 NULL) as [->|Hq]; intros [= <- <-] Hq'; [done|].
    pose proof Hok as (l & Hwf & Hh). cbn in Hwf, Hh.
    destruct (kmalloc_inv h l s e Hwf fuel (n * size) h1 q1 ltac:(lia) E) as [[? _]|(a & l' & -> & Hal)]; [done|].
    pose proof (ALIGN_UP_16 (n * size) ltac:(lia)) as [? _]. destruct Hal as [_ _ _ Hsz _ _ _].
    split; [unfold block_bytes; replace (a + HDR - HDR) with a by lia;
      change (hp_block (h1 <| hp_mem := _ |>)) with (hp_block h1); lia|].
    intros i Hi. rec_simpl. rewrite memset_read by lia. unfold filled. by mem_cases.
Qed.

(** Where the heap breaks.  Blocks merge with the next block of the list even
    when it is not the next block in memory: after two growths, freeing a block
    of the second merges it with the rest of the first, and the block that the next call
    returns reaches into a page that the page allocator still has as free.  And
    sizes are rounded up without an overflow check: [kmalloc (2^64 - 1)] returns a
    block of 0 bytes, and [kmalloc (2^64 - 16)] returns [NULL] having moved every
    free page into the heap. *)
Theorem heap_growth_and_overflow :
  (let '(h1, p1) := kmalloc_demo demo_heap 5000 in
   let '(h2, p2) := kmalloc_demo h1 3136 in
   let '(h3, p3) := kmalloc_demo (kfree h2 p2) 3200 in
   p3 <= 16384 < p3 + block_bytes h3 p3 /\
   page_free (hp_pmm h3) ((16384 - phys_base (hp_pmm h3)) / PAGE_SIZE) = true) /\
  (let '(h1, p1) := kmalloc_demo demo_heap (2 ^ 64 - 1) in p1 <> NULL /\ block_bytes h1 p1 = 0) /\
  (let '(h1, p1) := kmalloc_demo demo_heap (2 ^ 64 - 16) in
   p1 = NULL /\ free_pages (hp_pmm demo_heap) = 19 /\ free_pages (hp_pmm h1) = 0).
Proof.
  split; [|split].
  - vm_compute. repeat split; congruence.
  - vm_compute. by split.
  - vm_compute. by repeat split.
Qed.

(** * Witnesses *)

(** A client that takes 100 bytes, then 5000, for which the heap grows, and gives the
    first block back. *)
Definition demo_one : heap := (kmalloc_demo demo_heap 100).1.
Definition demo_two : heap := (kmalloc_demo demo_one 5000).1.

Lemma demo_heap_kmallocs :
  kmalloc 30 100 demo_heap 100 = Some (demo_one, 0x50000018) /\ kmalloc 30 100 demo_one 5000 = Some (demo_two, 8216).
Proof.
  split.
  - unfold demo_one, kmalloc_demo. by destruct (kmalloc 30 100 demo_heap 100) as [[h p]|] eqn:E; [vm_compute in E; injection E as <- <-|].
  - unfold demo_two, kmalloc_demo. by destruct (kmalloc 30 100 demo_one 5000) as [[h p]|] eqn:E; [vm_compute in E; injection E as <- <-|].
Qed.

Definition demo_held : gset Z := ({[8216]} ∪ ({[0x50000018]} ∪ ∅)) ∖ {[0x50000018]}.

Lemma demo_client : rtc heap_step (mkHeapClient demo_heap ∅) (mkHeapClient (kfree demo_two 0x50000018) demo_held).
Proof.
  destruct demo_heap_kmallocs as [E1 E2].
  apply (rtc_l _ _ (mkHeapClient demo_one ({[0x50000018]} ∪ ∅))).
  { apply (hs_kmalloc demo_heap ∅ 30 100 100 demo_one 0x50000018); [lia|vm_compute; discriminate|exact E1]. }
  apply (rtc_l _ _ (mkHeapClient demo_two ({[8216]} ∪ ({[0x50000018]} ∪ ∅)))).
  { apply (hs_kmalloc demo_one _ 30 100 5000 demo_two 8216); [lia|vm_compute; discriminate|exact E2]. }
  apply rtc_once, hs_kfree; [set_solver|]. right. right. vm_compute. reflexivity.
Qed.

Definition demo_memory_map : heap := mkHeap (fun _ => mkBlock 0 0 0 0) 0 0 (fun _ => 0) (pmm_init 4096 (20 * PAGE_SIZE) 0).

Lemma demo_memory : pmm_wf (hp_pmm demo_memory_map) /\
  forall k, k ∈ free_set (hp_pmm demo_memory_map) ->
    0x50001000 <= page_addr (hp_pmm demo_memory_map) k \/ page_addr (hp_pmm demo_memory_map) k + PAGE_SIZE <= 0x50000000.
Proof.
  split; [apply (pmm_init_ok 4096 (20 * PAGE_SIZE) 0); unfold PAGE_SIZE; lia|].
  intros k [Hk _]%elem_of_free_set. right. assert (E : total_pages (hp_pmm demo_memory_map) = 20 /\ phys_base (hp_pmm demo_memory_map) = 4096) by (vm_compute; done).
  destruct E as [E1 E2]. rewrite E1 in Hk. unfold page_addr. rewrite E2. unfold PAGE_SIZE. lia.
Qed.


Lemma demo_heap_wf : heap_wf demo_heap [0x50000000] 0x50000000 0x50001000.
Proof. apply kmalloc_init_wf; unfold HDR; lia. Qed.

Lemma kmalloc_outcome_witness :
  heap_wf demo_heap [0x50000000] 0x50000000 0x50001000 /\
  (kmalloc 1 2 demo_heap 100 = None -> False).
Proof.
  split; [exact demo_heap_wf|].
  destruct (kmalloc_outcome demo_heap [0x50000000] 0x50000000 0x50001000 100 0 2 demo_heap_wf)
    as [(l1 & a & l2 & _ & _ & _ & _ & h' & l' & E & _)|[Hno _]]; [cbn; lia|lia| |].
  - rewrite E. discriminate.
  - intros _. destruct (Hno 0x50000000) as [Hu|Hs]; [set_solver| |].
    + apply Hu. vm_compute. reflexivity.
    + vm_compute in Hs. discriminate.
Defined.

(** One block of the demo heap taken. *)
Definition demo_taken : heap := (kmalloc_demo demo_heap 100).1.

Lemma demo_taken_ok : client_ok 0x50000000 0x50001000 (mkHeapClient demo_taken {[0x50000000 + HDR]}).
Proof.
  assert (E : kmalloc 30 100 demo_heap 100 = Some (demo_taken, 0x50000000 + HDR)).
  { unfold demo_taken, kmalloc_demo. by destruct (kmalloc 30 100 demo_heap 100) as [[h p]|] eqn:E;
      [vm_compute in E; injection E as <- <-|]. }
  destruct (kmalloc_fit _ _ _ _ demo_heap_wf 29 100 100) as (h' & a & l' & E' & Hal); [cbn; lia|lia| |].
  { exists 0x50000000. split; [set_solver|]. vm_compute. split; [|discriminate]. by intros []. }
  rewrite E in E'. injection E' as <- Ha. assert (a = 0x50000000) as -> by lia.
  destruct (client_ok_allocated 0x50000000 0x50001000 demo_heap ∅ [0x50000000] demo_taken
    0x50000000 (ALIGN_UP 100 16) l' demo_heap_wf) as [Hok _]; [|exact Hal|].
  { intros b. split; [set_solver|]. intros [->%list_elem_of_singleton Hu]. exfalso.
    apply Hu. vm_compute. reflexivity. }
  by rewrite union_empty_r_L in Hok.
Qed.

Lemma kfree_krealloc_kcalloc_witness :
  client_ok 0x50000000 0x50001000 (mkHeapClient demo_taken {[0x50000000 + HDR]}) /\
  kfree (kfree demo_taken (0x50000000 + HDR)) (0x50000000 + HDR) = kfree demo_taken (0x50000000 + HDR).
Proof.
  split; [exact demo_taken_ok|].
  apply (kfree_krealloc_kcalloc 0x50000000 0x50001000 demo_taken {[0x50000000 + HDR]}
    (0x50000000 + HDR) demo_taken_ok).
  - set_solver.
  - lia.
  - intros x. vm_compute. split; [discriminate|reflexivity].
Defined.
