(* ===== verification/Vmm.v ===== *)
(** Page tables ([src/mm.c], third part, and [src/vmm_stub.c]): mapping,
    unmapping and walking the four levels of ARM64 translation tables, freeing
    and copying a whole address space.

    Physical memory is a store of 64-bit words ([vm_mem], addressed by the byte address
    of the word); it is identity mapped, so a table is used through its physical
    address.  The pages come from any page allocator ([PageAlloc], implemented by
    [Pmm]).  TLB maintenance and barriers have no counterpart here. *)
From S2P Require Import Prelude Pmm CString.

Definition PT_VALID : Z := 1.
Definition PT_TABLE : Z := 2.
Definition PT_AF : Z := Z.shiftl 1 10.
Definition PT_ADDR_MASK : Z := 0x0000FFFFFFFFF000.
Definition PTRS_PER_TABLE : nat := 512.

Definition PGD_IDX (va : Z) : Z := Z.land (Z.shiftr va 39) 0x1FF.
Definition PUD_IDX (va : Z) : Z := Z.land (Z.shiftr va 30) 0x1FF.
Definition PMD_IDX (va : Z) : Z := Z.land (Z.shiftr va 21) 0x1FF.
Definition PTE_IDX (va : Z) : Z := Z.land (Z.shiftr va 12) 0x1FF.

Definition pt_valid (e : Z) : bool := negb (Z.land e PT_VALID =? 0).
Definition pt_addr (e : Z) : Z := Z.land e PT_ADDR_MASK.

(** [table[i]] *)
Definition entry (m : Z -> Z) (table i : Z) : Z := m (table + 8 * i).

Section vmm.
Context {P : Type} `{PA : PageAlloc P}.

Record vm := mkVm { vm_mem : Z -> Z; vm_alloc : P }.
#[local] Instance eta_vm : Eta vm := fun v => mkVm (vm_mem v) (vm_alloc v).

Definition set_entry (v : vm) (table i e : Z) : vm :=
  v <| vm_mem := <[table + 8 * i := e]> (vm_mem v) |>.

(** [memset(page, 0, PAGE_SIZE)] and [memcpy(dst, src, PAGE_SIZE)] on words *)
Definition page_zero (v : vm) (a : Z) : vm := v <| vm_mem := filled (vm_mem v) a 0 PAGE_SIZE |>.
Definition page_copy (v : vm) (d s : Z) : vm := v <| vm_mem := copied (vm_mem v) d s PAGE_SIZE |>.

Definition vmm_init (v : vm) (pgd : Z) : vm := if pgd =? NULL then v else page_zero v pgd.

Definition alloc_table (v : vm) : vm * Z :=
  let '(s, pa) := pa_alloc (vm_alloc v) in
  let v1 := v <| vm_alloc := s |> in
  if pa =? 0 then (v1, NULL) else (page_zero v1 pa, pa).

(** One level of [vmm_map]: the next table, created if the entry is not valid. *)
Definition next_table (v : vm) (table i : Z) : vm * option Z :=
  if pt_valid (entry (vm_mem v) table i) then (v, Some (pt_addr (entry (vm_mem v) table i)))
  else
    let '(v1, new_table) := alloc_table v in
    if new_table =? 0 then (v1, None)
    else
      let v2 := set_entry v1 table i (Z.lor (Z.lor new_table PT_TABLE) PT_VALID) in
      (v2, Some (pt_addr (entry (vm_mem v2) table i))).

Definition vmm_map (v : vm) (pgd vaddr paddr flags : Z) : vm * Z :=
  if pgd =? NULL then (v, -1) else
  let '(v, pud) := next_table v pgd (PGD_IDX vaddr) in
  match pud with
  | None => (v, -1)
  | Some pud =>
      let '(v, pmd) := next_table v pud (PUD_IDX vaddr) in
      match pmd with
      | None => (v, -1)
      | Some pmd =>
          let '(v, pte) := next_table v pmd (PMD_IDX vaddr) in
          match pte with
          | None => (v, -1)
          | Some pte =>
              (set_entry v pte (PTE_IDX vaddr)
                 (Z.lor (Z.lor (Z.lor (pt_addr paddr) flags) PT_VALID) PT_AF), 0)
          end
      end
  end.

(** The walk shared by [vmm_unmap] and [vmm_get_phys]: the PTE table of [vaddr]. *)
Definition pte_table (m : Z -> Z) (pgd vaddr : Z) : option Z :=
  if pgd =? NULL then None else
  let pgd_e := entry m pgd (PGD_IDX vaddr) in
  if negb (pt_valid pgd_e) then None else
  let pud_e := entry m (pt_addr pgd_e) (PUD_IDX vaddr) in
  if negb (pt_valid pud_e) then None else
  let pmd_e := entry m (pt_addr pud_e) (PMD_IDX vaddr) in
  if negb (pt_valid pmd_e) then None else
  Some (pt_addr pmd_e).

Definition vmm_unmap (v : vm) (pgd vaddr : Z) : vm :=
  match pte_table (vm_mem v) pgd vaddr with
  | None => v
  | Some t => set_entry v t (PTE_IDX vaddr) 0
  end.

Definition vmm_unmap_page (v : vm) (pgd vaddr : Z) : vm := vmm_unmap v pgd vaddr.

Definition vmm_get_phys (v : vm) (pgd vaddr : Z) : Z :=
  match pte_table (vm_mem v) pgd vaddr with
  | None => 0
  | Some t =>
      let e := entry (vm_mem v) t (PTE_IDX vaddr) in
      if negb (pt_valid e) then 0 else Z.lor (pt_addr e) (Z.land vaddr 0xFFF)
  end.

(** [for (j = 0; j < i; j++) vmm_unmap(pgd, vaddr + j * PAGE_SIZE);] *)
Fixpoint unmap_range (n : nat) (v : vm) (pgd vaddr j : Z) : vm :=
  match n with
  | O => v
  | S n' => unmap_range n' (vmm_unmap v pgd (u64 (vaddr + j * PAGE_SIZE))) pgd vaddr (j + 1)
  end.

(** The loop of [vmm_alloc_pages] from page [i] on, [n] pages to go. *)
Fixpoint alloc_pages_loop (n : nat) (v : vm) (pgd vaddr i flags : Z) : vm * Z :=
  match n with
  | O => (v, vaddr)
  | S n' =>
      let '(s, paddr) := pa_alloc (vm_alloc v) in
      let v := v <| vm_alloc := s |> in
      if paddr =? 0 then (unmap_range (Z.to_nat i) v pgd vaddr 0, 0)
      else
        let '(v, r) := vmm_map v pgd (u64 (vaddr + i * PAGE_SIZE)) paddr flags in
        if negb (r =? 0) then
          let v := v <| vm_alloc := pa_free (vm_alloc v) paddr |> in
          (unmap_range (Z.to_nat i) v pgd vaddr 0, 0)
        else alloc_pages_loop n' v pgd vaddr (i + 1) flags
  end.

Definition vmm_alloc_pages (v : vm) (pgd vaddr npages flags : Z) : vm * Z :=
  alloc_pages_loop (Z.to_nat npages) v pgd vaddr 0 flags.

(** [for (i = 0; i < 512; i++) if (table[i] & PT_VALID) body(table[i]);] *)
Definition for_entries {A} (m : Z -> Z) (table : Z) (body : A -> Z -> A) (a : A) : A :=
  foldl (fun a i => if pt_valid (entry m table i) then body a (entry m table i) else a) a
    (seqZ 0 512).

(** The pages [vmm_free_all] hands back, nested as in its loops; freeing does
    not write to memory, so the tables are read as they were on entry. *)
Definition free_pte (m : Z -> Z) (s : P) (pmd_e : Z) : P :=
  pa_free (for_entries m (pt_addr pmd_e) (fun s pte => pa_free s (pt_addr pte)) s) (pt_addr pmd_e).
Definition free_pmd (m : Z -> Z) (s : P) (pud_e : Z) : P :=
  pa_free (for_entries m (pt_addr pud_e) (free_pte m) s) (pt_addr pud_e).
Definition free_pud (m : Z -> Z) (s : P) (pgd_e : Z) : P :=
  pa_free (for_entries m (pt_addr pgd_e) (free_pmd m) s) (pt_addr pgd_e).

Definition vmm_free_all (v : vm) (pgd : Z) : vm :=
  if pgd =? NULL then v else
  v <| vm_alloc := pa_free (for_entries (vm_mem v) pgd (free_pud (vm_mem v)) (vm_alloc v)) pgd |>.

Definition vmm_free_page_tables (v : vm) (pgd : Z) : vm := vmm_free_all v pgd.

(** The loops of [vmm_copy_page_tables]: each body returns -1 to abandon the copy. *)
Fixpoint copy_entries (n : nat) (body : vm -> Z -> vm * Z) (v : vm) (i : Z) : vm * Z :=
  match n with
  | O => (v, 0)
  | S n' =>
      let '(v, r) := body v i in
      if negb (r =? 0) then (v, r) else copy_entries n' body v (i + 1)
  end.

Definition copy_pte (dst src : Z) (v : vm) (l : Z) : vm * Z :=
  let pte := entry (vm_mem v) src l in
  if negb (pt_valid pte) then (v, 0) else
  let src_pa := pt_addr pte in
  let '(s, dst_pa) := pa_alloc (vm_alloc v) in
  let v := v <| vm_alloc := s |> in
  if dst_pa =? 0 then (v, -1) else
  let v := page_copy v dst_pa src_pa in
  (set_entry v dst l (Z.lor (Z.land pte (Z.lnot PT_ADDR_MASK)) dst_pa), 0).

(** One entry of a table of tables; [sub] copies the table below it. *)
Definition copy_table (sub : Z -> Z -> vm -> vm * Z) (dst src : Z) (v : vm) (i : Z) : vm * Z :=
  let e := entry (vm_mem v) src i in
  if negb (pt_valid e) then (v, 0) else
  let '(v, t) := alloc_table v in
  if t =? 0 then (v, -1) else
  let v := set_entry v dst i (Z.lor (Z.lor (Z.lor t PT_VALID) PT_TABLE) PT_AF) in
  sub t (pt_addr e) v.

Definition copy_ptes (dst src : Z) (v : vm) : vm * Z :=
  copy_entries PTRS_PER_TABLE (copy_pte dst src) v 0.
Definition copy_pmds (dst src : Z) (v : vm) : vm * Z :=
  copy_entries PTRS_PER_TABLE (copy_table copy_ptes dst src) v 0.
Definition copy_puds (dst src : Z) (v : vm) : vm * Z :=
  copy_entries PTRS_PER_TABLE (copy_table copy_pmds dst src) v 0.

Definition vmm_copy_page_tables (v : vm) (dst src : Z) : vm * Z :=
  if (dst =? NULL) || (src =? NULL) then (v, -1) else
  copy_entries PTRS_PER_TABLE
    (fun v i =>
       if 0xFFFF000000000000 <=? Z.shiftl i 39 then (v, 0)
       else copy_table copy_puds dst src v i) v 0.

(** * The tables on the path of an address *)

(** Level [k] is indexed by the nine bits of [va] from bit [39 - 9 k] on; [pre k] is
    what the first [k] levels have consumed. *)
Definition idx (k : nat) (va : Z) : Z := (va / 2 ^ (39 - 9 * Z.of_nat k)) mod 512.
Definition pre (k : nat) (va : Z) : Z := (va / 2 ^ (48 - 9 * Z.of_nat k)) mod 2 ^ (9 * Z.of_nat k).

Fixpoint tbl (m : Z -> Z) (pgd : Z) (k : nat) (va : Z) : option Z :=
  match k with
  | O => Some pgd
  | S k' =>
      match tbl m pgd k' va with
      | None => None
      | Some t =>
          let e := entry m t (idx k' va) in
          if pt_valid e then Some (pt_addr e) else None
      end
  end.

(** The page table entry of [va]; 0 when a table on its path is missing. *)
Definition pte (m : Z -> Z) (pgd va : Z) : Z :=
  match tbl m pgd 3 va with Some t => entry m t (idx 3 va) | None => 0 end.

Definition far (a b : Z) : Prop := a + PAGE_SIZE <= b \/ b + PAGE_SIZE <= a.

(** A well-formed address space: the tables of different paths are different
    pages, and none of them is available to the page allocator. *)
Record vmm_wf (v : vm) (pgd : Z) : Prop := {
  vw_ok : pa_ok (vm_alloc v);
  vw_pgd : pgd <> NULL;
  vw_avail : forall k va t a, (k <= 3)%nat -> tbl (vm_mem v) pgd k va = Some t ->
    a ∈ pa_avail (vm_alloc v) -> far t a;
  vw_inj : forall k k' va va' t t', (k <= 3)%nat -> (k' <= 3)%nat ->
    tbl (vm_mem v) pgd k va = Some t -> tbl (vm_mem v) pgd k' va' = Some t' ->
    (k = k' /\ pre k va = pre k' va') \/ far t t'
}.

(** The page [b] is not one of the tables. *)
Definition clear_of (m : Z -> Z) (pgd b : Z) : Prop :=
  forall k va t, (k <= 3)%nat -> tbl m pgd k va = Some t -> far t b.

Lemma idx_range k va : 0 <= idx k va < 512.
Proof. unfold idx. lia. Qed.

Lemma pre_S k va : (k <= 3)%nat -> pre (S k) va = pre k va * 512 + idx k va.
Proof.
  intros Hk. unfold pre, idx.
  do 4 (destruct k as [|k]; [cbn; lia|]). lia.
Qed.

Lemma pre_S_eq k va va' : (k <= 3)%nat ->
  pre (S k) va = pre (S k) va' <-> pre k va = pre k va' /\ idx k va = idx k va'.
Proof.
  intros Hk. rewrite !pre_S by done. pose proof (idx_range k va). pose proof (idx_range k va'). lia.
Qed.

Lemma tbl_pre m pgd k va va' : (k <= 4)%nat -> pre k va = pre k va' -> tbl m pgd k va = tbl m pgd k va'.
Proof.
  induction k as [|k IH]; intros Hk Hp; [done|]. cbn [tbl].
  apply pre_S_eq in Hp as [Hp Hi]; [|lia]. rewrite (IH ltac:(lia) Hp). by rewrite Hi.
Qed.

Lemma PGD_IDX_idx va : 0 <= va -> PGD_IDX va = idx 0 va.
Proof. intros. unfold PGD_IDX, idx. change 0x1FF with (Z.ones 9). by rewrite Z.land_ones, Z.shiftr_div_pow2 by lia. Qed.
Lemma PUD_IDX_idx va : 0 <= va -> PUD_IDX va = idx 1 va.
Proof. intros. unfold PUD_IDX, idx. change 0x1FF with (Z.ones 9). by rewrite Z.land_ones, Z.shiftr_div_pow2 by lia. Qed.
Lemma PMD_IDX_idx va : 0 <= va -> PMD_IDX va = idx 2 va.
Proof. intros. unfold PMD_IDX, idx. change 0x1FF with (Z.ones 9). by rewrite Z.land_ones, Z.shiftr_div_pow2 by lia. Qed.
Lemma PTE_IDX_idx va : 0 <= va -> PTE_IDX va = idx 3 va.
Proof. intros. unfold PTE_IDX, idx. change 0x1FF with (Z.ones 9). by rewrite Z.land_ones, Z.shiftr_div_pow2 by lia. Qed.

Lemma pte_table_tbl m pgd va : 0 <= va -> pgd <> NULL -> pte_table m pgd va = tbl m pgd 3 va.
Proof.
  intros Hv Hp. unfold pte_table. destruct (Z.eqb_spec pgd NULL); [done|].
  rewrite PGD_IDX_idx, PUD_IDX_idx, PMD_IDX_idx by done. cbn [tbl].
  destruct (pt_valid (entry m pgd (idx 0 va))); [|done]. cbn [negb].
  destruct (pt_valid (entry m _ (idx 1 va))); [|done]. cbn [negb].
  by destruct (pt_valid _).
Qed.

(** Writing one word, and clearing a page, as seen through [entry]. *)
Lemma entry_set m t i e u j :
  0 <= i < 512 -> 0 <= j < 512 -> (t = u \/ far t u) ->
  entry (<[t + 8 * i := e]> m) u j = if (t =? u) && (i =? j) then e else entry m u j.
Proof.
  intros Hi Hj Hf. unfold entry. rewrite mem_upd. unfold far, PAGE_SIZE in Hf.
  destruct (Z.eqb_spec (u + 8 * j) (t + 8 * i)), (Z.eqb_spec t u), (Z.eqb_spec i j);
    cbn [andb]; try done; lia.
Qed.

Lemma entry_zero m a u j : 0 <= j < 512 -> far a u -> entry (filled m a 0 PAGE_SIZE) u j = entry m u j.
Proof. intros Hj Hf. unfold entry, filled, far, PAGE_SIZE in *. by mem_cases. Qed.
Lemma entry_zeroed m a j : 0 <= j < 512 -> entry (filled m a 0 PAGE_SIZE) a j = 0.
Proof. intros Hj. unfold entry, filled, PAGE_SIZE in *. by mem_cases. Qed.

Lemma pages_far (s : P) a b : pa_ok s -> a ∈ pa_pages s -> b ∈ pa_pages s -> a <> b -> far a b.
Proof.
  intros Hok Ha Hb Hne. destruct (pa_pages_addr s a Hok Ha) as [? Hma].
  destruct (pa_pages_addr s b Hok Hb) as [? Hmb]. unfold far, PAGE_SIZE in *. lia.
Qed.

(** A table entry that points to the page [a]. *)
Definition points (e a : Z) : Prop := pt_valid e = true /\ pt_addr e = a.

Lemma pt_addr_div x : 0 <= x -> pt_addr x = (x / 4096) mod 2 ^ 36 * 4096.
Proof.
  intros Hx. unfold pt_addr. change PT_ADDR_MASK with (Z.shiftl (Z.ones 36) 12).
  rewrite Z.land_comm. apply Z.bits_inj'. intros n Hn.
  rewrite Z.land_spec, Z.shiftl_spec by done. change 4096 with (2 ^ 12).
  rewrite <- Z.shiftl_mul_pow2, Z.shiftl_spec by lia.
  destruct (Z.lt_ge_cases n 12).
  - by rewrite !(Z.testbit_neg_r _ (n - 12)) by lia.
  - rewrite Z.testbit_ones by lia. destruct (Z.ltb_spec (n - 12) 36).
    + rewrite Z.mod_pow2_bits_low by lia. rewrite Z.div_pow2_bits by lia.
      rewrite (proj2 (Z.leb_le 0 (n - 12))) by lia. cbn [andb]. f_equal. lia.
    + rewrite Z.mod_pow2_bits_high by lia. by rewrite andb_false_r.
Qed.

Lemma points_intro a f :
  0 <= a < 2 ^ 48 -> a mod 4096 = 0 -> 0 <= f < 4096 -> Z.testbit f 0 = true -> points (Z.lor a f) a.
Proof.
  intros Ha Hm Hf Ht. assert (Hand : Z.land a f = 0).
  { apply Z.bits_inj'. intros n Hn. rewrite Z.land_spec, Z.bits_0.
    destruct (Z.lt_ge_cases n 12).
    - replace a with (a / 2 ^ 12 * 2 ^ 12) by lia. by rewrite Z.mul_pow2_bits_low by lia.
    - rewrite (testbit_high f 12 n) by lia. by rewrite andb_false_r. }
  assert (Hlor : Z.lor a f = a + f).
  { rewrite Z.add_nocarry_lxor by done. symmetry. by apply Z.lxor_lor. }
  rewrite Z.bit0_odd in Ht. rewrite Hlor. split.
  - unfold pt_valid, PT_VALID. change 1 with (Z.ones 1). rewrite Z.land_ones by lia.
    change (2 ^ 1) with 2. apply Z.odd_spec in Ht as [k ->].
    destruct (Z.eqb_spec ((a + (2 * k + 1)) mod 2) 0); [lia|done].
  - rewrite pt_addr_div by lia. lia.
Qed.

(** * Installing a table and writing an entry *)

Section install.
Context (m : Z -> Z) (pgd : Z) (k : nat) (va t a e : Z).
Context (Hk : (k < 3)%nat) (Ht : tbl m pgd k va = Some t) (He : pt_valid (entry m t (idx k va)) = false).
Context (Hpt : points e a).
Context (Hfar : forall j va' u, (j <= 3)%nat -> tbl m pgd j va' = Some u -> far a u).
Context (Hinj : forall j va' u, (j <= 3)%nat -> tbl m pgd j va' = Some u ->
  (j = k /\ pre j va' = pre k va) \/ far t u).

Notation m' := (<[t + 8 * idx k va := e]> (filled m a 0 PAGE_SIZE)).

Lemma install_entry j va' u : (j <= 3)%nat -> tbl m pgd j va' = Some u ->
  entry m' u (idx j va') =
  if bool_decide (j = k /\ pre (S k) va' = pre (S k) va) then e else entry m u (idx j va').
Proof.
  intros Hj Hu. pose proof (Hfar j va' u Hj Hu) as Hau. pose proof (idx_range k va).
  pose proof (idx_range j va').
  destruct (Hinj j va' u Hj Hu) as [[-> Hp]|Htu].
  - assert (t = u) as <-. { rewrite (tbl_pre m pgd k va' va) in Hu by (lia || done). congruence. }
    rewrite entry_set by (done || by left). rewrite Z.eqb_refl. cbn [andb].
    rewrite entry_zero by done. destruct (Z.eqb_spec (idx k va) (idx k va')) as [E|E].
    + rewrite bool_decide_eq_true_2; [done|]. split; [done|]. by apply pre_S_eq; [lia|].
    + rewrite bool_decide_eq_false_2; [done|]. intros [_ [_ ?]%pre_S_eq]; [congruence|lia].
  - rewrite entry_set by (done || by right). rewrite entry_zero by done.
    destruct (Z.eqb_spec t u) as [Heq|].
    { unfold far, PAGE_SIZE in Htu. lia. }
    cbn [andb]. rewrite bool_decide_eq_false_2; [done|]. intros [-> [Hp _]%pre_S_eq]; [|lia].
    rewrite (tbl_pre m pgd k va' va) in Hu by (lia || done). congruence.
Qed.

Lemma install_new i : 0 <= i < 512 -> entry m' a i = 0.
Proof.
  intros Hi. pose proof (idx_range k va). pose proof (Hfar k va t ltac:(lia) Ht) as Hf.
  rewrite entry_set; [|done|done|right; unfold far in *; lia].
  destruct (Z.eqb_spec t a) as [->|]; [unfold far, PAGE_SIZE in Hf; lia|]. by apply entry_zeroed.
Qed.

(** Below the new entry there is the new table and nothing further; elsewhere
    nothing changes. *)
Lemma tbl_install j va' : (j <= 3)%nat ->
  tbl m' pgd j va' =
  if bool_decide ((k < j)%nat /\ pre (S k) va' = pre (S k) va)
  then (if bool_decide (j = S k) then Some a else None) else tbl m pgd j va'.
Proof.
  induction j as [|j IH]; intros Hj.
  { rewrite bool_decide_eq_false_2 by lia. done. }
  cbn [tbl]. rewrite IH by lia.
  destruct (decide ((k < j)%nat /\ pre (S k) va' = pre (S k) va)) as [[Hkj Hp]|Hn].
  - rewrite bool_decide_eq_true_2 by done. rewrite (bool_decide_eq_true_2 ((k < S j)%nat /\ _)) by (split; [lia|done]).
    rewrite (bool_decide_eq_false_2 (S j = S k)) by lia.
    destruct (bool_decide (j = S k)); [|done]. cbv zeta. rewrite install_new by apply idx_range. done.
  - rewrite bool_decide_eq_false_2 by done.
    destruct (tbl m pgd j va') as [u|] eqn:Hu.
    + rewrite install_entry by (lia || done).
      destruct (decide (j = k /\ pre (S k) va' = pre (S k) va)) as [[-> Hp]|Hne].
      * rewrite bool_decide_eq_true_2 by done. rewrite (bool_decide_eq_true_2 ((k < S k)%nat /\ _)) by (split; [lia|done]).
        rewrite bool_decide_eq_true_2 by done. destruct Hpt as [Hv Ha]. rewrite Hv. by rewrite Ha.
      * rewrite (bool_decide_eq_false_2 (j = k /\ _)) by done.
        rewrite (bool_decide_eq_false_2 ((k < S j)%nat /\ _)); [done|].
        intros [? ?]. destruct (decide (j = k)); [naive_solver|]. apply Hn. split; [lia|done].
    + rewrite (bool_decide_eq_false_2 ((k < S j)%nat /\ _)); [done|].
      intros [? Hp]. destruct (decide (j = k)) as [->|]; [|apply Hn; split; [lia|done]].
      apply pre_S_eq in Hp as [Hp _]; [|lia].
      rewrite (tbl_pre m pgd k va' va) in Hu by (lia || done). congruence.
Qed.

Lemma pte_install va' : pte m' pgd va' = pte m pgd va'.
Proof.
  assert (Hnone : pre (S k) va' = pre (S k) va -> forall j, (k < j)%nat -> (j <= 3)%nat -> tbl m pgd j va' = None).
  { intros Hp j Hkj Hj. induction Hkj as [|j Hkj IH].
    - cbn [tbl]. apply pre_S_eq in Hp as [Hp Hi]; [|lia].
      rewrite (tbl_pre m pgd k va' va) by (lia || done). rewrite Ht, Hi. by rewrite He.
    - cbn [tbl]. by rewrite IH by lia. }
  unfold pte. rewrite tbl_install by lia.
  case_bool_decide as Hc; [destruct Hc as [Hc Hp]; rewrite (Hnone Hp) by lia|].
  - case_bool_decide; [|done]. apply install_new, idx_range.
  - destruct (tbl m pgd 3 va') as [u|] eqn:Hu; [|done].
    rewrite install_entry by (lia || done). by rewrite bool_decide_eq_false_2 by lia.
Qed.
End install.

Section write_pte.
Context (m : Z -> Z) (pgd va t e : Z) (Ht : tbl m pgd 3 va = Some t).
Context (Hinj : forall j va' u, (j <= 3)%nat -> tbl m pgd j va' = Some u ->
  (j = 3%nat /\ pre j va' = pre 3 va) \/ far t u).

Lemma tbl_write j va' : (j <= 3)%nat ->
  tbl (<[t + 8 * idx 3 va := e]> m) pgd j va' = tbl m pgd j va'.
Proof.
  induction j as [|j IH]; intros Hj; [done|]. cbn [tbl]. rewrite IH by lia.
  destruct (tbl m pgd j va') as [u|] eqn:Hu; [|done].
  destruct (Hinj j va' u ltac:(lia) Hu) as [[? _]|Hf]; [lia|].
  rewrite entry_set by (apply idx_range || by right).
  destruct (Z.eqb_spec t u) as [<-|]; [unfold far, PAGE_SIZE in Hf; lia|done].
Qed.

Lemma pte_write va' :
  pte (<[t + 8 * idx 3 va := e]> m) pgd va' = if pre 4 va' =? pre 4 va then e else pte m pgd va'.
Proof.
  unfold pte. rewrite tbl_write by lia. destruct (tbl m pgd 3 va') as [u|] eqn:Hu.
  - destruct (Hinj 3 va' u ltac:(lia) Hu) as [[_ Hp]|Hf].
    + rewrite (tbl_pre m pgd 3 va' va) in Hu by (lia || done). assert (t = u) as <- by congruence.
      rewrite entry_set by (apply idx_range || by left). rewrite Z.eqb_refl. cbn [andb].
      destruct (Z.eqb_spec (pre 4 va') (pre 4 va)) as [H4|H4]; rewrite (pre_S_eq 3) in H4 by lia;
        destruct (Z.eqb_spec (idx 3 va) (idx 3 va')); naive_solver.
    + rewrite entry_set by (apply idx_range || by right).
      destruct (Z.eqb_spec t u) as [<-|]; [unfold far, PAGE_SIZE in Hf; lia|]. cbn [andb].
      destruct (Z.eqb_spec (pre 4 va') (pre 4 va)) as [H4|H4]; [|done].
      rewrite (pre_S_eq 3) in H4 by lia. rewrite (tbl_pre m pgd 3 va' va) in Hu by (lia || naive_solver).
      congruence.
  - destruct (Z.eqb_spec (pre 4 va') (pre 4 va)) as [H4|H4]; [|done].
    rewrite (pre_S_eq 3) in H4 by lia. rewrite (tbl_pre m pgd 3 va' va) in Hu by (lia || naive_solver).
    congruence.
Qed.
End write_pte.

Section wf.
Context (v : vm) (pgd : Z) (Hwf : vmm_wf v pgd).

Lemma wf_inj_at k va t : (k <= 3)%nat -> tbl (vm_mem v) pgd k va = Some t ->
  forall j va' u, (j <= 3)%nat -> tbl (vm_mem v) pgd j va' = Some u ->
  (j = k /\ pre j va' = pre k va) \/ far t u.
Proof.
  intros Hk Ht j va' u Hj Hu.
  destruct (vw_inj v pgd Hwf k j va va' t u Hk Hj Ht Hu) as [[-> ->]|]; auto.
Qed.

(** The state after [next_table] created the page [a]. *)
Lemma install_wf k va t a e s :
  (k < 3)%nat -> tbl (vm_mem v) pgd k va = Some t -> pt_valid (entry (vm_mem v) t (idx k va)) = false ->
  points e a -> a ∈ pa_avail (vm_alloc v) -> pa_ok s -> pa_pages s = pa_pages (vm_alloc v) ->
  pa_avail s = pa_avail (vm_alloc v) ∖ {[a]} ->
  vmm_wf (mkVm (<[t + 8 * idx k va := e]> (filled (vm_mem v) a 0 PAGE_SIZE)) s) pgd.
Proof.
  intros Hk Ht He Hpt Ha Hs Hpg Hav.
  assert (Hfar : forall j va' u, (j <= 3)%nat -> tbl (vm_mem v) pgd j va' = Some u -> far a u).
  { intros j va' u Hj Hu. pose proof (vw_avail v pgd Hwf j va' u a Hj Hu Ha) as Hf.
    unfold far in *. lia. }
  pose proof (wf_inj_at k va t ltac:(lia) Ht) as Hinj.
  pose proof (tbl_install (vm_mem v) pgd k va t a e Hk Ht He Hpt Hfar Hinj) as Htbl.
  split; cbn [vm_mem vm_alloc]; [done|apply Hwf|..].
  - intros j va' u b Hj. rewrite Htbl by done. rewrite Hav.
    intros Hu [Hb Hne]%elem_of_difference. case_bool_decide; [|by eapply vw_avail].
    case_bool_decide; [|done]. injection Hu as <-.
    apply (pages_far (vm_alloc v)); [apply Hwf|..|set_solver];
      by apply (pa_avail_pages _ (vw_ok _ _ Hwf)).
  - intros j j' va1 va2 u1 u2 Hj Hj'. rewrite !Htbl by done. intros H1 H2.
    destruct (bool_decide ((k < j)%nat /\ _)) eqn:E1, (bool_decide ((k < j')%nat /\ _)) eqn:E2.
    + apply bool_decide_eq_true_1 in E1 as [_ E1]. apply bool_decide_eq_true_1 in E2 as [_ E2].
      repeat case_bool_decide; try done. left. subst. by rewrite E1, E2.
    + clear E1 E2. case_bool_decide; [|done]. injection H1 as <-. right. by eapply Hfar.
    + clear E1 E2. case_bool_decide; [|done]. injection H2 as <-. right.
      pose proof (Hfar j va1 u1 Hj H1). unfold far in *. lia.
    + by eapply vw_inj.
Qed.

Lemma next_table_spec k va t v' r :
  (k < 3)%nat -> tbl (vm_mem v) pgd k va = Some t -> next_table v t (idx k va) = (v', r) ->
  vmm_wf v' pgd /\ (forall va', pte (vm_mem v') pgd va' = pte (vm_mem v) pgd va') /\
  pa_pages (vm_alloc v') = pa_pages (vm_alloc v) /\ pa_avail (vm_alloc v') ⊆ pa_avail (vm_alloc v) /\
  (forall b, b ∈ pa_pages (vm_alloc v) -> b ∉ pa_avail (vm_alloc v) ->
    clear_of (vm_mem v) pgd b -> clear_of (vm_mem v') pgd b) /\
  match r with
  | Some t' => tbl (vm_mem v') pgd (S k) va = Some t'
  | None => pa_avail (vm_alloc v) = ∅
  end.
Proof.
  intros Hk Ht. unfold next_table. destruct (pt_valid (entry (vm_mem v) t (idx k va))) eqn:He.
  { intros [= <- <-]. repeat (split; [done|]). cbn [tbl]. rewrite Ht. by rewrite He. }
  unfold alloc_table. destruct (pa_alloc (vm_alloc v)) as [s a] eqn:Ea.
  destruct (pa_alloc_spec _ _ _ (vw_ok v pgd Hwf) Ea) as (Hs & Hpg & Hcase).
  destruct (Z.eqb_spec a 0) as [Ha0|Ha0].
  - intros [= <- <-]. destruct Hcase as [(_ & Hav & Hav')|[Ha _]].
    + split.
      * destruct Hwf as [Hok Hp Havl Hinj]. split; cbn; try done. intros. by rewrite Hav' in *.
      * split; [done|]. split; [done|]. split; [cbn; set_solver|]. by split.
    + apply (pa_avail_pages _ (vw_ok _ _ Hwf)), pa_pages_addr in Ha; [lia|apply Hwf].
  - destruct Hcase as [[? _]|[Ha Hav]]; [done|].
    pose proof (pa_pages_addr _ _ (vw_ok _ _ Hwf) (pa_avail_pages _ (vw_ok _ _ Hwf) _ Ha)) as [Har Ham].
    destruct (Z.eqb_spec a 0); [done|]. cbv zeta.
    set (e := Z.lor (Z.lor a PT_TABLE) PT_VALID).
    assert (Hpt : points e a).
    { unfold e. rewrite <- Z.lor_assoc. apply points_intro; try done; lia. }
    assert (Hfar : forall j va' u, (j <= 3)%nat -> tbl (vm_mem v) pgd j va' = Some u -> far a u).
    { intros j va' u Hj Hu. pose proof (vw_avail v pgd Hwf j va' u a Hj Hu Ha) as Hf.
      unfold far in *. lia. }
    pose proof (wf_inj_at k va t ltac:(lia) Ht) as Hinj.
    intros [= <- <-]. split; [by eapply install_wf|]. split; [|split; [done|split; [|split]]].
    + intros va'. by apply pte_install.
    + cbn. set_solver.
    + intros b Hb Hnb Hc j va' u Hj. change (vm_mem (set_entry _ t (idx k va) e)) with
        (<[t + 8 * idx k va := e]> (filled (vm_mem v) a 0 PAGE_SIZE)).
      rewrite (tbl_install _ _ k va t a e) by (done || lia). intros Hu.
      case_bool_decide; [|by eapply Hc]. case_bool_decide; [|done]. injection Hu as <-.
      apply (pages_far (vm_alloc v)); [apply Hwf| |done|set_solver].
      by apply (pa_avail_pages _ (vw_ok _ _ Hwf)).
    + cbn [tbl]. change (vm_mem (set_entry _ t (idx k va) e)) with
        (<[t + 8 * idx k va := e]> (filled (vm_mem v) a 0 PAGE_SIZE)).
      rewrite (tbl_install _ _ k va t a e) by (done || lia).
      rewrite bool_decide_eq_false_2 by lia. rewrite Ht.
      rewrite (install_entry _ pgd k va t a e) by (done || lia).
      rewrite bool_decide_eq_true_2 by done. by destruct Hpt as [-> ->].
Qed.

Lemma write_pte_wf va t e : tbl (vm_mem v) pgd 3 va = Some t -> vmm_wf (set_entry v t (idx 3 va) e) pgd.
Proof.
  intros Ht. pose proof (wf_inj_at 3 va t ltac:(lia) Ht) as Hinj.
  pose proof (tbl_write (vm_mem v) pgd va t e Hinj) as Htbl.
  destruct Hwf as [Hok Hp Hav Hi]. split; try done.
  - intros j va' u a Hj. change (vm_mem (set_entry _ _ _ _)) with (<[t + 8 * idx 3 va := e]> (vm_mem v)).
    rewrite Htbl by done. by apply Hav.
  - intros j j' va1 va2 u1 u2 Hj Hj'.
    change (vm_mem (set_entry _ _ _ _)) with (<[t + 8 * idx 3 va := e]> (vm_mem v)).
    rewrite !Htbl by done. by apply Hi.
Qed.
End wf.

(** The entry that [vmm_map] writes. *)
Definition leaf (paddr flags : Z) : Z := Z.lor (Z.lor (Z.lor (pt_addr paddr) flags) PT_VALID) PT_AF.

Lemma vmm_map_spec v pgd va paddr flags v' r :
  vmm_wf v pgd -> 0 <= va -> vmm_map v pgd va paddr flags = (v', r) ->
  vmm_wf v' pgd /\ pa_pages (vm_alloc v') = pa_pages (vm_alloc v) /\
  pa_avail (vm_alloc v') ⊆ pa_avail (vm_alloc v) /\
  (forall b, b ∈ pa_pages (vm_alloc v) -> b ∉ pa_avail (vm_alloc v) ->
    clear_of (vm_mem v) pgd b -> clear_of (vm_mem v') pgd b) /\
  ((r = 0 /\ exists t, tbl (vm_mem v') pgd 3 va = Some t /\
     forall va', pte (vm_mem v') pgd va' =
       if pre 4 va' =? pre 4 va then leaf paddr flags else pte (vm_mem v) pgd va') \/
   (r = -1 /\ pa_avail (vm_alloc v') = ∅ /\
    forall va', pte (vm_mem v') pgd va' = pte (vm_mem v) pgd va')).
Proof.
  intros Hwf Hva. unfold vmm_map. destruct (Z.eqb_spec pgd NULL) as [Hp|_]; [by destruct (vw_pgd _ _ Hwf)|].
  rewrite PGD_IDX_idx, PUD_IDX_idx, PMD_IDX_idx, PTE_IDX_idx by done.
  destruct (next_table v pgd (idx 0 va)) as [v1 r1] eqn:E1.
  destruct (next_table_spec v pgd Hwf 0 va pgd v1 r1) as (Hwf1 & Hp1 & Hg1 & Ha1 & Hc1 & Hr1); [lia|done|done|].
  destruct r1 as [t1|]; cycle 1.
  { intros [= <- <-]. split_and!; try done. right. set_solver. }
  destruct (next_table v1 t1 (idx 1 va)) as [v2 r2] eqn:E2.
  destruct (next_table_spec v1 pgd Hwf1 1 va t1 v2 r2) as (Hwf2 & Hp2 & Hg2 & Ha2 & Hc2 & Hr2); [lia|done|done|].
  assert (Hc12 : forall b, b ∈ pa_pages (vm_alloc v) -> b ∉ pa_avail (vm_alloc v) ->
    clear_of (vm_mem v) pgd b -> clear_of (vm_mem v2) pgd b).
  { intros b ???. apply Hc2; [by rewrite Hg1|set_solver|]. by apply Hc1. }
  destruct r2 as [t2|]; cycle 1.
  { intros [= <- <-]. split_and!; try done; [congruence|set_solver|]. right.
    split; [done|]. split; [set_solver|]. intros. by rewrite Hp2. }
  destruct (next_table v2 t2 (idx 2 va)) as [v3 r3] eqn:E3.
  destruct (next_table_spec v2 pgd Hwf2 2 va t2 v3 r3) as (Hwf3 & Hp3 & Hg3 & Ha3 & Hc3 & Hr3); [lia|done|done|].
  assert (Hc13 : forall b, b ∈ pa_pages (vm_alloc v) -> b ∉ pa_avail (vm_alloc v) ->
    clear_of (vm_mem v) pgd b -> clear_of (vm_mem v3) pgd b).
  { intros b ???. apply Hc3; [by rewrite Hg2, Hg1|set_solver|]. by apply Hc12. }
  destruct r3 as [t3|]; cycle 1.
  { intros [= <- <-]. split_and!; try done; [congruence|set_solver|]. right.
    split; [done|]. split; [set_solver|]. intros. by rewrite Hp3, Hp2. }
  intros [= <- <-]. pose proof (wf_inj_at v3 pgd Hwf3 3 va t3 ltac:(lia) Hr3) as Hinj.
  change (vm_mem (set_entry _ _ _ _)) with (<[t3 + 8 * idx 3 va := leaf paddr flags]> (vm_mem v3)).
  split_and!; [by apply write_pte_wf|cbn; congruence|cbn; set_solver|..].
  - intros b ??? k va' t Hk. rewrite tbl_write by (done || lia). by apply Hc13.
  - left. split; [done|]. exists t3. split; [by rewrite tbl_write by (done || lia)|].
    intros va'. rewrite (pte_write _ pgd va t3) by done. by rewrite Hp3, Hp2, Hp1.
Qed.

Lemma vmm_unmap_spec v pgd va :
  vmm_wf v pgd -> 0 <= va ->
  vmm_wf (vmm_unmap v pgd va) pgd /\ vm_alloc (vmm_unmap v pgd va) = vm_alloc v /\
  forall va', pte (vm_mem (vmm_unmap v pgd va)) pgd va' =
    if pre 4 va' =? pre 4 va then 0 else pte (vm_mem v) pgd va'.
Proof.
  intros Hwf Hva. unfold vmm_unmap. rewrite PTE_IDX_idx, pte_table_tbl by (done || apply Hwf).
  destruct (tbl (vm_mem v) pgd 3 va) as [t|] eqn:Ht.
  - split; [by apply write_pte_wf|]. split; [done|]. intros va'. cbn [vm_mem].
    change (vm_mem (set_entry _ _ _ _)) with (<[t + 8 * idx 3 va := 0]> (vm_mem v)).
    apply pte_write; [done|]. by eapply wf_inj_at; [|lia|].
  - split; [done|]. split; [done|]. intros va'. destruct (Z.eqb_spec (pre 4 va') (pre 4 va)) as [H4|]; [|done].
    apply (pre_S_eq 3) in H4 as [H3 _]; [|lia]. unfold pte.
    by rewrite (tbl_pre _ pgd 3 va' va), Ht by (lia || done).
Qed.

Lemma vmm_get_phys_pte v pgd va :
  vmm_wf v pgd -> 0 <= va ->
  vmm_get_phys v pgd va =
  if pt_valid (pte (vm_mem v) pgd va) then Z.lor (pt_addr (pte (vm_mem v) pgd va)) (Z.land va 0xFFF) else 0.
Proof.
  intros Hwf Hva. unfold vmm_get_phys, pte. rewrite PTE_IDX_idx, pte_table_tbl by (done || apply Hwf).
  destruct (tbl (vm_mem v) pgd 3 va) as [t|]; [|done]. cbv zeta.
  by destruct (pt_valid (entry (vm_mem v) t (idx 3 va))).
Qed.

(** * Ranges of pages *)

Lemma pre_4 va : 0 <= va < 2 ^ 48 -> pre 4 va = va / PAGE_SIZE.
Proof. intros. unfold pre, PAGE_SIZE. cbn. rewrite Z.mod_small; lia. Qed.

(** [f] with the pages [ps] mapped one after the other from [vaddr] on. *)
Definition with_pages (f : Z -> Z) (vaddr flags : Z) (ps : list Z) (va : Z) : Z :=
  let d := pre 4 va - vaddr / PAGE_SIZE in
  if (0 <=? d) && (d <? zlen ps) then leaf ps.[d] flags else f va.

Lemma unmap_range_spec n v pgd vaddr j :
  vmm_wf v pgd -> 0 <= vaddr -> 0 <= j -> vaddr + (j + Z.of_nat n) * PAGE_SIZE <= 2 ^ 48 ->
  vmm_wf (unmap_range n v pgd vaddr j) pgd /\
  vm_alloc (unmap_range n v pgd vaddr j) = vm_alloc v /\
  forall va, pte (vm_mem (unmap_range n v pgd vaddr j)) pgd va =
    let d := pre 4 va - vaddr / PAGE_SIZE in
    if (j <=? d) && (d <? j + Z.of_nat n) then 0 else pte (vm_mem v) pgd va.
Proof.
  revert v j. induction n as [|n IH]; intros v j Hwf Hva Hj Hb; cbn [unmap_range].
  - split; [done|]. split; [done|]. intros va. cbv zeta.
    destruct (Z.leb_spec j (pre 4 va - vaddr / PAGE_SIZE)), (Z.ltb_spec (pre 4 va - vaddr / PAGE_SIZE) (j + Z.of_nat 0));
      try done; lia.
  - assert (Hlt : 0 <= vaddr + j * PAGE_SIZE < 2 ^ 48) by (unfold PAGE_SIZE in *; lia).
    rewrite u64_id by lia.
    destruct (vmm_unmap_spec v pgd (vaddr + j * PAGE_SIZE) Hwf) as (Hwf1 & Ha1 & Hp1); [lia|].
    destruct (IH (vmm_unmap v pgd (vaddr + j * PAGE_SIZE)) (j + 1)) as (Hwf2 & Ha2 & Hp2);
      [done|done|lia|unfold PAGE_SIZE in *; lia|].
    split; [done|]. split; [congruence|]. intros va. rewrite Hp2, Hp1, pre_4 with (va := vaddr + _) by done.
    cbv zeta. set (d := pre 4 va - vaddr / PAGE_SIZE).
    assert (Hd : pre 4 va = (vaddr + j * PAGE_SIZE) / PAGE_SIZE <-> d = j).
    { unfold d, PAGE_SIZE. lia. }
    destruct (Z.eqb_spec (pre 4 va) ((vaddr + j * PAGE_SIZE) / PAGE_SIZE)) as [E|E]; rewrite Hd in E;
      destruct (Z.leb_spec (j + 1) d), (Z.ltb_spec d (j + 1 + Z.of_nat n)), (Z.leb_spec j d),
        (Z.ltb_spec d (j + Z.of_nat (S n))); cbn [andb]; try done; lia.
Qed.

(** The pages [ps] were taken from what was available in [v0] and are not available now. *)
Definition taken (s0 s : P) (ps : list Z) : Prop :=
  NoDup ps /\ pa_pages s = pa_pages s0 /\ pa_avail s ⊆ pa_avail s0 /\
  forall p, p ∈ ps -> p ∈ pa_avail s0 /\ p ∉ pa_avail s.

Lemma taken_snoc s0 s s' ps a :
  taken s0 s ps -> a ∈ pa_avail s -> a ∉ pa_avail s' -> pa_avail s' ⊆ pa_avail s ->
  pa_pages s' = pa_pages s -> taken s0 s' (ps ++ [a]).
Proof.
  intros (Hnd & Hpg & Hsub & Hps) Ha Ha' Hs Hg. split; [|split; [congruence|split; [set_solver|]]].
  - apply NoDup_app. split; [done|]. split; [|apply NoDup_singleton].
    intros p Hp ->%list_elem_of_singleton. by apply (Hps a).
  - intros p [Hp| ->%list_elem_of_singleton]%elem_of_app; [|set_solver].
    destruct (Hps p Hp). set_solver.
Qed.

Lemma taken_shrink s0 s s' ps :
  taken s0 s ps -> pa_avail s' ⊆ pa_avail s -> pa_pages s' = pa_pages s -> taken s0 s' ps.
Proof. intros (? & ? & ? & Hps) Hs Hg. repeat split; try done; [congruence|set_solver| |]; set_solver. Qed.

Lemma with_pages_snoc f vaddr flags ps a va :
  with_pages f vaddr flags (ps ++ [a]) va =
  if pre 4 va =? vaddr / PAGE_SIZE + zlen ps then leaf a flags else with_pages f vaddr flags ps va.
Proof.
  unfold with_pages. cbv zeta. set (d := pre 4 va - vaddr / PAGE_SIZE).
  assert (Hl : zlen (ps ++ [a]) = zlen ps + 1) by (unfold zlen; rewrite length_app; cbn; lia).
  assert (0 <= zlen ps) by (unfold zlen; lia).
  destruct (Z.eqb_spec (pre 4 va) (vaddr / PAGE_SIZE + zlen ps)) as [E|E].
  - assert (d = zlen ps) as -> by lia. rewrite Hl.
    destruct (Z.leb_spec 0 (zlen ps)), (Z.ltb_spec (zlen ps) (zlen ps + 1)); try lia. cbn [andb].
    unfold aget, zlen. rewrite Nat2Z.id. by rewrite lookup_total_app_r, Nat.sub_diag by lia.
  - rewrite Hl. destruct (Z.leb_spec 0 d), (Z.ltb_spec d (zlen ps + 1)), (Z.ltb_spec d (zlen ps));
      cbn [andb]; try done; try lia.
    unfold aget. rewrite lookup_total_app_l; [done|]. unfold zlen in *. lia.
Qed.

(** What [vmm_alloc_pages] leaves: all pages mapped, or none and [ps] lost. *)
Inductive alloc_pages_result (v0 v' : vm) (pgd vaddr flags : Z) (total : nat) : Z -> Prop :=
| apr_done ps :
    length ps = total -> taken (vm_alloc v0) (vm_alloc v') ps ->
    (forall va, pte (vm_mem v') pgd va = with_pages (pte (vm_mem v0) pgd) vaddr flags ps va) ->
    alloc_pages_result v0 v' pgd vaddr flags total vaddr
| apr_failed ps :
    (length ps < total)%nat -> taken (vm_alloc v0) (vm_alloc v') ps ->
    (forall va, pte (vm_mem v') pgd va =
       let d := pre 4 va - vaddr / PAGE_SIZE in
       if (0 <=? d) && (d <? zlen ps) then 0 else pte (vm_mem v0) pgd va) ->
    alloc_pages_result v0 v' pgd vaddr flags total 0.

(** Rolling back after [ps] were mapped. *)
Lemma rollback_spec v0 v pgd vaddr flags ps :
  vmm_wf v pgd -> 0 <= vaddr -> vaddr + zlen ps * PAGE_SIZE <= 2 ^ 48 ->
  (forall va, pte (vm_mem v) pgd va = with_pages (pte (vm_mem v0) pgd) vaddr flags ps va) ->
  vmm_wf (unmap_range (Z.to_nat (zlen ps)) v pgd vaddr 0) pgd /\
  vm_alloc (unmap_range (Z.to_nat (zlen ps)) v pgd vaddr 0) = vm_alloc v /\
  forall va, pte (vm_mem (unmap_range (Z.to_nat (zlen ps)) v pgd vaddr 0)) pgd va =
    let d := pre 4 va - vaddr / PAGE_SIZE in
    if (0 <=? d) && (d <? zlen ps) then 0 else pte (vm_mem v0) pgd va.
Proof.
  intros Hwf Hva Hb Hp. assert (0 <= zlen ps) by (unfold zlen; lia).
  destruct (unmap_range_spec (Z.to_nat (zlen ps)) v pgd vaddr 0) as (Hw & Ha & Hu); [done|unfold PAGE_SIZE in *; lia..|].
  split; [done|]. split; [done|]. intros va. rewrite Hu, Hp. unfold with_pages. cbv zeta.
  rewrite Z2Nat.id by done. cbn [Z.add]. by destruct ((0 <=? _) && _).
Qed.

Lemma alloc_pages_loop_spec n v0 v pgd vaddr ps flags v' r :
  vmm_wf v pgd -> 0 <= vaddr -> vaddr + (zlen ps + Z.of_nat n) * PAGE_SIZE <= 2 ^ 48 ->
  taken (vm_alloc v0) (vm_alloc v) ps ->
  (forall va, pte (vm_mem v) pgd va = with_pages (pte (vm_mem v0) pgd) vaddr flags ps va) ->
  alloc_pages_loop n v pgd vaddr (zlen ps) flags = (v', r) ->
  vmm_wf v' pgd /\ alloc_pages_result v0 v' pgd vaddr flags (length ps + n) r.
Proof.
  revert v ps. induction n as [|n IH]; intros v ps Hwf Hva Hb Htk Hp; cbn [alloc_pages_loop].
  { intros [= <- <-]. split; [done|]. rewrite Nat.add_0_r. by apply (apr_done _ _ _ _ _ _ ps). }
  assert (0 <= zlen ps) by (unfold zlen; lia).
  destruct (pa_alloc (vm_alloc v)) as [s a] eqn:Ea.
  destruct (pa_alloc_spec _ _ _ (vw_ok v pgd Hwf) Ea) as (Hs & Hg & Hcase).
  set (v1 := v <| vm_alloc := s |>).
  assert (Hsub : pa_avail s ⊆ pa_avail (vm_alloc v)) by (destruct Hcase as [(_&?&?)|[_ ?]]; set_solver).
  assert (Hwf1 : vmm_wf v1 pgd).
  { destruct Hwf as [? ? Hav ?]. split; try done. intros k va t b Hk Ht Hb'.
    apply (Hav k va t b Hk Ht), Hsub, Hb'. }
  destruct (Z.eqb_spec a 0) as [Ha0|Ha0].
  - intros [= <- <-].
    destruct (rollback_spec v0 v1 pgd vaddr flags ps) as (Hw & Hal & Hu); [done|done|unfold PAGE_SIZE in *; lia|done|].
    split; [done|]. apply (apr_failed _ _ _ _ _ _ ps); [lia| |done].
    rewrite Hal. by apply (taken_shrink _ (vm_alloc v)).
  - destruct Hcase as [[? _]|[Ha Hav]]; [done|].
    assert (Hlt : 0 <= vaddr + zlen ps * PAGE_SIZE < 2 ^ 48) by (unfold PAGE_SIZE in *; lia).
    rewrite u64_id by lia.
    destruct (vmm_map v1 pgd (vaddr + zlen ps * PAGE_SIZE) a flags) as [v2 r2] eqn:E2.
    destruct (vmm_map_spec v1 pgd (vaddr + zlen ps * PAGE_SIZE) a flags v2 r2 Hwf1) as (Hwf2 & Hg2 & Hs2 & Hc2 & Hr2); [lia|done|].
    change (vm_alloc v1) with s in Hg2, Hs2, Hc2. change (vm_mem v1) with (vm_mem v) in Hr2, Hc2.
    assert (Hclear : clear_of (vm_mem v2) pgd a).
    { apply Hc2; [rewrite Hg; by apply (pa_avail_pages _ (vw_ok _ _ Hwf))|set_solver|].
      intros k va t Hk Ht. by apply (vw_avail v pgd Hwf k va). }
    destruct Hr2 as [(-> & t & _ & Hp2)|(-> & Hav2 & Hp2)]; cbn [Z.eqb negb].
    + assert (Hps : zlen ps + 1 = zlen (ps ++ [a])) by (unfold zlen; rewrite length_app; cbn; lia).
      rewrite Hps. intros E. destruct (IH v2 (ps ++ [a])) as [Hwf' Hres]; try done.
      * rewrite <- Hps. unfold PAGE_SIZE in *. lia.
      * apply (taken_snoc _ (vm_alloc v)); [done|done|set_solver|set_solver|congruence].
      * intros va. rewrite Hp2, with_pages_snoc, Hp, (pre_4 (vaddr + _)) by done.
        assert (Hdiv : (vaddr + zlen ps * PAGE_SIZE) / PAGE_SIZE = vaddr / PAGE_SIZE + zlen ps)
          by (unfold PAGE_SIZE; lia). by rewrite Hdiv.
      * split; [done|]. rewrite length_app in Hres. cbn in Hres.
        by replace (length ps + S n)%nat with (length ps + 1 + n)%nat by lia.
    + intros [= <- <-]. set (v3 := v2 <| vm_alloc := pa_free (vm_alloc v2) a |>).
      destruct (pa_free_spec (vm_alloc v2) a) as (Hok3 & Hg3 & Hav3);
        [apply Hwf2|rewrite Hg2, Hg; apply (pa_avail_pages _ (vw_ok _ _ Hwf)), Ha|set_solver|].
      assert (Hwf3 : vmm_wf v3 pgd).
      { destruct Hwf2 as [? ? Hav2' ?]. split; try done. intros k va u b Hk Hu Hb'. cbn in Hb', Hu.
        rewrite Hav3, Hav2 in Hb'. assert (b = a) as -> by set_solver. by apply (Hclear k va). }
      destruct (rollback_spec v0 v3 pgd vaddr flags ps) as (Hw & Hal & Hu);
        [done|done|unfold PAGE_SIZE in *; lia|intros va; cbn; by rewrite Hp2|].
      split; [done|]. apply (apr_failed _ _ _ _ _ _ ps); [lia| |done].
      rewrite Hal. apply (taken_shrink _ (vm_alloc v)); [done|cbn; set_solver|cbn; congruence].
Qed.

(** * Freeing an address space *)

(** The pages below the table [t], [n] levels deep, in the order they are freed. *)
Definition valid_idx (m : Z -> Z) (t : Z) : list Z :=
  filter (fun i => pt_valid (entry m t i) = true) (seqZ 0 512).
Fixpoint tree_pages (m : Z -> Z) (n : nat) (t : Z) : list Z :=
  match n with
  | O => [t]
  | S n' => (valid_idx m t ≫= fun i => tree_pages m n' (pt_addr (entry m t i))) ++ [t]
  end.

Lemma elem_of_valid_idx m t i : i ∈ valid_idx m t <-> pt_valid (entry m t i) = true /\ 0 <= i < 512.
Proof. unfold valid_idx. rewrite list_elem_of_filter, elem_of_seqZ. naive_solver lia. Qed.

Lemma for_entries_foldl {A} (m : Z -> Z) t (body : A -> Z -> A) (f : A -> Z -> A) (g : Z -> list Z) a :
  (forall a e, body a e = foldl f a (g e)) ->
  for_entries m t body a = foldl f a (valid_idx m t ≫= fun i => g (entry m t i)).
Proof.
  intros Hb. unfold for_entries, valid_idx. revert a. induction (seqZ 0 512) as [|i l IH]; intros a; [done|].
  cbn [foldl]. rewrite IH, filter_cons. destruct (decide _) as [E|E].
  - rewrite E. cbn [mbind list_bind]. by rewrite foldl_app, Hb.
  - by rewrite (not_true_is_false _ E).
Qed.

Lemma vmm_free_all_tree v pgd : pgd <> NULL ->
  vmm_free_all v pgd = v <| vm_alloc := foldl pa_free (vm_alloc v) (tree_pages (vm_mem v) 4 pgd) |>.
Proof.
  intros Hp. unfold vmm_free_all. destruct (Z.eqb_spec pgd NULL); [done|]. f_equal.
  cbn [tree_pages]. rewrite foldl_app. cbn [foldl]. f_equal.
  apply for_entries_foldl with (g := fun e => tree_pages (vm_mem v) 3 (pt_addr e)).
  intros s e. unfold free_pud. cbn [tree_pages]. rewrite foldl_app. cbn [foldl]. f_equal.
  apply for_entries_foldl with (g := fun e => tree_pages (vm_mem v) 2 (pt_addr e)).
  intros s' e'. unfold free_pmd. cbn [tree_pages]. rewrite foldl_app. cbn [foldl]. f_equal.
  apply for_entries_foldl with (g := fun e => tree_pages (vm_mem v) 1 (pt_addr e)).
  intros s2 e2. unfold free_pte. cbn [tree_pages]. rewrite foldl_app. cbn [foldl]. f_equal.
  by apply for_entries_foldl with (g := fun e => [pt_addr e]).
Qed.

(** An address whose path starts like that of [va] and continues with entry [i]. *)
Definition child (k : nat) (va i : Z) : Z :=
  pre k va * 2 ^ (48 - 9 * Z.of_nat k) + i * 2 ^ (39 - 9 * Z.of_nat k).

Lemma child_path k va i : (k <= 3)%nat -> 0 <= i < 512 ->
  pre k (child k va i) = pre k va /\ idx k (child k va i) = i.
Proof.
  intros Hk Hi. unfold child, pre, idx. do 4 (destruct k as [|k]; [cbn; lia|]). lia.
Qed.

Lemma tbl_child m pgd k va t i : (k <= 3)%nat -> i ∈ valid_idx m t -> tbl m pgd k va = Some t ->
  tbl m pgd (S k) (child k va i) = Some (pt_addr (entry m t i)).
Proof.
  intros Hk [Hv Hi]%elem_of_valid_idx Ht. destruct (child_path k va i Hk Hi) as [Hp Hx]. cbn [tbl].
  rewrite (tbl_pre m pgd k _ va), Ht, Hx by (lia || done). by rewrite Hv.
Qed.

Lemma pre_le k k' va va' : (k' <= k)%nat -> (k <= 4)%nat -> pre k va = pre k va' -> pre k' va = pre k' va'.
Proof.
  induction 1 as [|k Hle IH]; [done|]. intros Hk Hp. apply pre_S_eq in Hp as [Hp _]; [|lia].
  apply IH; [lia|done].
Qed.

Lemma tbl_le m pgd j k va b : (j <= k)%nat -> tbl m pgd k va = Some b -> exists u, tbl m pgd j va = Some u.
Proof.
  intros Hle. revert b. induction Hle as [|k Hle IH]; [eauto|]. cbn [tbl]. intros b.
  destruct (tbl m pgd k va) as [u|]; [|done]. intros _. by eapply IH.
Qed.

Lemma elem_of_tree m pgd n k va t b : (k + n = 4)%nat -> tbl m pgd k va = Some t ->
  b ∈ tree_pages m n t <->
  exists k' va', (k <= k' <= 4)%nat /\ pre k va' = pre k va /\ tbl m pgd k' va' = Some b.
Proof.
  revert k va t. induction n as [|n IH]; intros k va t Hkn Ht; cbn [tree_pages].
  - rewrite list_elem_of_singleton. split.
    + intros ->. exists k, va. by split; [lia|].
    + intros (k' & va' & Hk' & Hp & Hb). replace k' with k in Hb by lia.
      rewrite (tbl_pre m pgd k va' va) in Hb by (lia || done). congruence.
  - rewrite elem_of_app, list_elem_of_singleton, list_elem_of_bind. split.
    + intros [(i & Hb & Hi)| ->]; [|by exists k, va; split; [lia|]].
      pose proof (tbl_child m pgd k va t i ltac:(lia) Hi Ht) as Hc.
      apply (IH (S k) _ _ ltac:(lia) Hc) in Hb as (k' & va' & Hk' & Hp & Hb).
      exists k', va'. split; [lia|]. split; [|done].
      rewrite (pre_le (S k) k va' (child k va i)) by (lia || done).
      apply elem_of_valid_idx in Hi as [_ Hi]. apply child_path; [lia|done].
    + intros (k' & va' & Hk' & Hp & Hb). destruct (decide (k' = k)) as [->|Hne].
      { right. rewrite (tbl_pre m pgd k va' va) in Hb by (lia || done). congruence. }
      left. destruct (tbl_le m pgd (S k) k' va' b) as [u Hu]; [lia|done|].
      pose proof Hu as Hu'. cbn [tbl] in Hu'.
      rewrite (tbl_pre m pgd k va' va), Ht in Hu' by (lia || done). cbv zeta in Hu'.
      destruct (pt_valid (entry m t (idx k va'))) eqn:Hv; [|done]. injection Hu' as <-.
      exists (idx k va'). split; [|apply elem_of_valid_idx; split; [done|apply idx_range]].
      apply (IH (S k) va' _ ltac:(lia) Hu). exists k', va'. by split; [lia|].
Qed.

(** All pages of the address space, leaves (level 4) included, are different
    pages of the page allocator and not available. *)
Record owns_pages (v : vm) (pgd : Z) : Prop := {
  ow_inj : forall k k' va va' t, (k <= 4)%nat -> (k' <= 4)%nat ->
    tbl (vm_mem v) pgd k va = Some t -> tbl (vm_mem v) pgd k' va' = Some t ->
    k = k' /\ pre k va = pre k' va';
  ow_pages : forall k va t, (k <= 4)%nat -> tbl (vm_mem v) pgd k va = Some t ->
    t ∈ pa_pages (vm_alloc v) /\ t ∉ pa_avail (vm_alloc v)
}.

Lemma NoDup_tree v pgd n k va t : owns_pages v pgd -> (k + n = 4)%nat ->
  tbl (vm_mem v) pgd k va = Some t -> NoDup (tree_pages (vm_mem v) n t).
Proof.
  intros Hown. set (m := vm_mem v). revert k va t. induction n as [|n IH]; intros k va t Hkn Ht;
    cbn [tree_pages]; [apply NoDup_singleton|].
  assert (Hsub : forall i b, i ∈ valid_idx m t -> b ∈ tree_pages m n (pt_addr (entry m t i)) ->
    exists k' va', (S k <= k' <= 4)%nat /\ pre (S k) va' = pre (S k) (child k va i) /\
      tbl m pgd k' va' = Some b).
  { intros i b Hi. apply elem_of_tree; [lia|]. apply tbl_child; [lia|done|done]. }
  apply NoDup_app. split; [|split; [|apply NoDup_singleton]].
  - apply NoDup_bind; [| |apply NoDup_filter, NoDup_seqZ].
    + intros i j b Hi Hj (k1 & va1 & Hk1 & Hp1 & Hb1)%Hsub (k2 & va2 & Hk2 & Hp2 & Hb2)%Hsub; [|done..].
      destruct (ow_inj v pgd Hown k1 k2 va1 va2 b) as [<- Hp]; [lia|lia|done|done|].
      apply (pre_le k1 (S k)) in Hp; [|lia|lia]. rewrite Hp1, Hp2 in Hp.
      apply pre_S_eq in Hp as [_ Hx]; [|lia].
      apply elem_of_valid_idx in Hi as [_ Hi], Hj as [_ Hj].
      rewrite (proj2 (child_path k va i ltac:(lia) Hi)) in Hx.
      by rewrite (proj2 (child_path k va j ltac:(lia) Hj)) in Hx.
    + intros i Hi. apply (IH (S k) (child k va i)); [lia|]. by apply tbl_child; [lia|..].
  - intros b (i & Hb & Hi)%list_elem_of_bind ->%list_elem_of_singleton.
    apply Hsub in Hb as (k' & va' & Hk' & _ & Hb); [|done].
    destruct (ow_inj v pgd Hown k k' va va' t) as [? _]; [lia|lia|done|done|lia].
Qed.

Lemma foldl_pa_free (s : P) l :
  pa_ok s -> NoDup l -> (forall b, b ∈ l -> b ∈ pa_pages s /\ b ∉ pa_avail s) ->
  pa_ok (foldl pa_free s l) /\ pa_pages (foldl pa_free s l) = pa_pages s /\
  pa_avail (foldl pa_free s l) = list_to_set l ∪ pa_avail s.
Proof.
  intros Hok Hnd. revert s Hok. induction Hnd as [|a l Ha Hnd IH]; intros s Hok Hl; cbn [foldl].
  - split; [done|]. split; [done|]. set_solver.
  - destruct (Hl a) as [H1 H2]; [set_solver|].
    destruct (pa_free_spec s a Hok H1 H2) as (Hok' & Hg & Hav).
    destruct (IH (pa_free s a) Hok') as (? & Hg' & Hav').
    + intros b Hb. rewrite Hg, Hav. destruct (Hl b); [set_solver|].
      split; [done|]. intros [->%elem_of_singleton|]%elem_of_union; done.
    + split; [done|]. split; [congruence|]. rewrite Hav', Hav. set_solver.
Qed.

(** * Copying an address space *)

(** Memory changes only where [W] holds. *)
Definition frame (W : Z -> Prop) (m m' : Z -> Z) : Prop := forall x, ~ W x -> m' x = m x.
Definition in_pages (A : gset Z) (x : Z) : Prop := exists a, a ∈ A /\ a <= x < a + PAGE_SIZE.
(** The entries of table [d] from [i] on. *)
Definition from_entry (d i x : Z) : Prop := d + 8 * i <= x < d + PAGE_SIZE.

Definition far_all (t : Z) (A : gset Z) : Prop := forall a, a ∈ A -> far t a.

(** The source tables and, at depth 0, pages lie outside the pages [A]. *)
Fixpoint src_ok (n : nat) (m : Z -> Z) (s : Z) (A : gset Z) : Prop :=
  far_all s A /\
  match n with
  | O => True
  | S n' => forall i, 0 <= i < 512 -> pt_valid (entry m s i) = true -> src_ok n' m (pt_addr (entry m s i)) A
  end.

(** Table [d] is a copy of table [s]: the same entries are valid; at the last
    level ([n = 0]) they have the same flags and point to pages of [N] with the
    same contents, above it they point to copies. *)
Fixpoint copied_tree (n : nat) (m : Z -> Z) (N : gset Z) (d s : Z) : Prop :=
  forall i, 0 <= i < 512 ->
    if pt_valid (entry m s i) then
      pt_valid (entry m d i) = true /\ pt_addr (entry m d i) ∈ N /\
      match n with
      | O => Z.land (entry m d i) (Z.lnot PT_ADDR_MASK) = Z.land (entry m s i) (Z.lnot PT_ADDR_MASK) /\
             forall x, 0 <= x < PAGE_SIZE -> m (pt_addr (entry m d i) + x) = m (pt_addr (entry m s i) + x)
      | S n' => copied_tree n' m N (pt_addr (entry m d i)) (pt_addr (entry m s i))
      end
    else entry m d i = 0.

(** The statement for one entry. *)
Definition copied_entry (n : nat) (m : Z -> Z) (N : gset Z) (d s i : Z) : Prop :=
  if pt_valid (entry m s i) then
    pt_valid (entry m d i) = true /\ pt_addr (entry m d i) ∈ N /\
    match n with
    | O => Z.land (entry m d i) (Z.lnot PT_ADDR_MASK) = Z.land (entry m s i) (Z.lnot PT_ADDR_MASK) /\
           forall x, 0 <= x < PAGE_SIZE -> m (pt_addr (entry m d i) + x) = m (pt_addr (entry m s i) + x)
    | S n' => copied_tree n' m N (pt_addr (entry m d i)) (pt_addr (entry m s i))
    end
  else entry m d i = 0.

Lemma copied_tree_entries n m N d s :
  copied_tree n m N d s <-> forall i, 0 <= i < 512 -> copied_entry n m N d s i.
Proof. by destruct n. Qed.

Lemma copied_tree_mono n m N N' d s : N ⊆ N' -> copied_tree n m N d s -> copied_tree n m N' d s.
Proof.
  intros HN. revert d s. induction n as [|n IH]; intros d s H i Hi; specialize (H i Hi);
    destruct (pt_valid (entry m s i)); try done; destruct H as (Hv & Hin & Hr);
    (split; [done|]); (split; [set_solver|]); [done|by apply IH].
Qed.

Lemma copied_entry_mono n m N N' d s i : N ⊆ N' -> copied_entry n m N d s i -> copied_entry n m N' d s i.
Proof.
  intros HN. unfold copied_entry. destruct (pt_valid (entry m s i)); [|done].
  intros (Hv & Hin & Hr). split; [done|]. split; [set_solver|]. destruct n; [done|].
  by apply (copied_tree_mono _ _ N).
Qed.

Lemma frame_entry W m m' t i : frame W m m' -> ~ W (t + 8 * i) -> entry m' t i = entry m t i.
Proof. intros Hf. apply Hf. Qed.

Lemma far_not_in t A x : far_all t A -> t <= x < t + PAGE_SIZE -> ~ in_pages A x.
Proof. intros Hf Hx (a & Ha & ?). specialize (Hf a Ha). unfold far in Hf. lia. Qed.

Lemma src_ok_frame n m m' s A : src_ok n m s A -> frame (in_pages A) m m' -> src_ok n m' s A.
Proof.
  intros H Hf. revert s H. induction n as [|n IH]; intros s [Hs H]; (split; [done|]); [done|].
  intros i Hi. rewrite (frame_entry (in_pages A) m m' s i Hf).
  - intros Hv. by apply IH, H.
  - apply (far_not_in s); [done|]. unfold PAGE_SIZE. lia.
Qed.

Lemma src_ok_sub n m s A A' : A' ⊆ A -> src_ok n m s A -> src_ok n m s A'.
Proof.
  intros HA. revert s. induction n as [|n IH]; intros s [Hs H].
  - split; [|done]. intros a Ha. by apply Hs, HA.
  - split; [intros a Ha; by apply Hs, HA|]. intros i Hi Hv. by apply IH, H.
Qed.

(** Ready to copy the entries of [s] from [i] on into [d]; [X] are pages that
    somebody else may write to. *)
Record copy_ok (n : nat) (X : gset Z) (v : vm) (d s i : Z) : Prop := {
  co_ok : pa_ok (vm_alloc v);
  co_others : forall p, p ∈ pa_avail (vm_alloc v) -> far_all p X;
  co_dst : far_all d (X ∪ pa_avail (vm_alloc v));
  co_zero : forall j, i <= j < 512 -> entry (vm_mem v) d j = 0;
  co_src : src_ok (S n) (vm_mem v) s ({[d]} ∪ (X ∪ pa_avail (vm_alloc v)))
}.

(** What a step did: which pages it used, where it wrote, and how it can fail. *)
Record copy_step (W : Z -> Prop) (v v' : vm) (r : Z) : Prop := {
  cs_ok : pa_ok (vm_alloc v');
  cs_pages : pa_pages (vm_alloc v') = pa_pages (vm_alloc v);
  cs_avail : pa_avail (vm_alloc v') ⊆ pa_avail (vm_alloc v);
  cs_frame : frame (fun x => W x \/ in_pages (pa_avail (vm_alloc v) ∖ pa_avail (vm_alloc v')) x)
    (vm_mem v) (vm_mem v');
  cs_fail : r = 0 \/ (r = -1 /\ pa_avail (vm_alloc v') = ∅)
}.

Definition new_pages (v v' : vm) : gset Z := pa_avail (vm_alloc v) ∖ pa_avail (vm_alloc v').

(** Where memory may still change without touching what was copied. *)
Definition elsewhere (X : gset Z) (v : vm) : Z -> Prop := in_pages (X ∪ pa_avail (vm_alloc v)).

Definition body_spec (n : nat) (d s : Z) (body : vm -> Z -> vm * Z) : Prop :=
  forall X v i v' r, 0 <= i < 512 -> copy_ok n X v d s i -> body v i = (v', r) ->
  copy_step (fun x => x = d + 8 * i) v v' r /\
  (r = 0 -> forall m'', frame (fun x => from_entry d (i + 1) x \/ elsewhere X v' x) (vm_mem v') m'' ->
    copied_entry n m'' (new_pages v v') d s i).

Lemma in_pages_mono A B x : A ⊆ B -> in_pages A x -> in_pages B x.
Proof. intros HAB (a & Ha & Hx). exists a. split; [by apply HAB|done]. Qed.

Lemma far_all_sub t A B : A ⊆ B -> far_all t B -> far_all t A.
Proof. intros HAB Hf a Ha. by apply Hf, HAB. Qed.

Lemma copy_ok_step n X v v' d s i i' r :
  0 <= i < i' /\ i' <= 512 -> copy_ok n X v d s i -> copy_step (fun x => x = d + 8 * i) v v' r ->
  copy_ok n X v' d s i'.
Proof.
  intros Hi [Hok Hx Hd Hz Hs] [Hok' Hg Hav Hf _]. split; [done|..].
  - intros p Hp. by apply Hx, Hav.
  - apply (far_all_sub _ _ (X ∪ pa_avail (vm_alloc v))); [set_solver|done].
  - intros j Hj. rewrite (frame_entry _ _ _ d j Hf); [apply Hz; lia|].
    intros [?|Hin]; [lia|]. revert Hin. apply (far_not_in d); [|unfold PAGE_SIZE; lia].
    apply (far_all_sub _ _ (X ∪ pa_avail (vm_alloc v))); [set_solver|done].
  - apply (src_ok_sub _ _ _ ({[d]} ∪ (X ∪ pa_avail (vm_alloc v)))); [set_solver|].
    apply (src_ok_frame _ (vm_mem v)); [done|]. intros x Hxn. apply Hf. intros [->|Hin]; apply Hxn.
    + exists d. split; [set_solver|]. unfold PAGE_SIZE. lia.
    + revert Hin. apply in_pages_mono. set_solver.
Qed.

Lemma copy_entries_spec n d s body X k v i v' r :
  body_spec n d s body -> 0 <= i -> i + Z.of_nat k = 512 -> copy_ok n X v d s i ->
  copy_entries k body v i = (v', r) ->
  copy_step (from_entry d i) v v' r /\
  (r = 0 -> forall m'', frame (elsewhere X v') (vm_mem v') m'' ->
    forall j, i <= j < 512 -> copied_entry n m'' (new_pages v v') d s j).
Proof.
  intros Hb. revert v i. induction k as [|k IH]; intros v i Hi Hik Hco; cbn [copy_entries].
  { intros [= <- <-]. split; [|intros; lia]. split; try done; [apply Hco|by left]. }
  destruct (body v i) as [v1 r1] eqn:E1.
  destruct (Hb X v i v1 r1 ltac:(lia) Hco E1) as [Hst1 Hc1].
  assert (Hw : forall x, x = d + 8 * i -> from_entry d i x) by (unfold from_entry, PAGE_SIZE; lia).
  destruct (Z.eqb_spec r1 0) as [->|Hr1]; cbn [negb]; cycle 1.
  { intros [= <- <-]. split; [|done]. destruct Hst1 as [? ? ? Hf ?]. split; try done.
    intros x Hx. apply Hf. intros [?%Hw|?]; apply Hx; [by left|by right]. }
  intros E. destruct (IH v1 (i + 1)) as [Hst Hc]; [lia|lia|by eapply copy_ok_step; [|done|done]; lia|done|].
  destruct Hst1 as [_ Hg1 Hav1 Hf1 _]. destruct Hst as [Hok Hg Hav Hf Hfail].
  assert (Hframe : frame (fun x => from_entry d i x \/ in_pages (new_pages v v') x) (vm_mem v) (vm_mem v')).
  { intros x Hx. rewrite Hf, Hf1; [done|..]; intros [Hin|Hin]; apply Hx.
    - left. by apply Hw.
    - right. revert Hin. apply in_pages_mono. unfold new_pages. set_solver.
    - left. unfold from_entry in *. lia.
    - right. revert Hin. apply in_pages_mono. unfold new_pages. set_solver. }
  split.
  - split; [done|congruence|set_solver|done|done].
  - intros -> m'' Hm'' j Hj. destruct (decide (j = i)) as [->|Hne].
    + apply (copied_entry_mono _ _ (new_pages v v1)); [unfold new_pages; set_solver|].
      apply Hc1; [done|]. intros x Hx. rewrite Hm'', Hf; [done|..].
      * intros [Hin|Hin]; apply Hx; [by left|right]. revert Hin. apply in_pages_mono. set_solver.
      * intros Hin. apply Hx. right. revert Hin. apply in_pages_mono. set_solver.
    + apply (copied_entry_mono _ _ (new_pages v1 v')); [unfold new_pages; set_solver|].
      apply Hc; [done|done|lia].
Qed.

(** The entry for the copy of a leaf. *)
Lemma copied_leaf e a :
  0 <= a < 2 ^ 48 -> a mod 4096 = 0 -> pt_valid e = true ->
  let e' := Z.lor (Z.land e (Z.lnot PT_ADDR_MASK)) a in
  pt_valid e' = true /\ pt_addr e' = a /\
  Z.land e' (Z.lnot PT_ADDR_MASK) = Z.land e (Z.lnot PT_ADDR_MASK).
Proof.
  intros Ha Hm Hv e'. assert (Haa : Z.land a PT_ADDR_MASK = a).
  { change (pt_addr a = a). rewrite pt_addr_div by lia. lia. }
  unfold e', pt_valid, pt_addr in *. rewrite !Z.land_lor_distr_l, Haa.
  assert (Hn : Z.land a (Z.lnot PT_ADDR_MASK) = 0).
  { rewrite <- Haa, <- Z.land_assoc, Z.land_lnot_diag. apply Z.land_0_r. }
  assert (H1 : Z.land a PT_VALID = 0).
  { unfold PT_VALID. change 1 with (Z.ones 1). rewrite Z.land_ones by lia. change (2 ^ 1) with 2. lia. }
  rewrite Hn, H1, !Z.lor_0_r. split; [|split].
  - by rewrite <- Z.land_assoc, (Z.land_comm (Z.lnot _)).
  - rewrite <- (Z.land_assoc e), (Z.land_comm (Z.lnot _)), Z.land_lnot_diag, Z.land_0_r. by rewrite Z.lor_0_l.
  - by rewrite <- Z.land_assoc, Z.land_diag.
Qed.

(** The step of an allocation, whether or not it delivers a page. *)
Lemma copy_alloc (v : vm) s a :
  pa_ok (vm_alloc v) -> pa_alloc (vm_alloc v) = (s, a) ->
  pa_ok s /\ pa_pages s = pa_pages (vm_alloc v) /\ pa_avail s ⊆ pa_avail (vm_alloc v) /\
  ((a = 0 /\ pa_avail s = ∅) \/
   (a <> 0 /\ a ∈ pa_avail (vm_alloc v) /\ a ∉ pa_avail s /\ 0 <= a < 2 ^ 48 /\ a mod 4096 = 0 /\
    far_all a (pa_avail s))).
Proof.
  intros Hok E. destruct (pa_alloc_spec _ _ _ Hok E) as (Hs & Hg & Hcase).
  split; [done|]. split; [done|]. destruct Hcase as [(-> & ? & ?)|[Ha Hav]]; [set_solver|].
  pose proof (pa_avail_pages _ Hok _ Ha) as Hp. destruct (pa_pages_addr _ _ Hok Hp).
  split; [set_solver|]. right. split; [lia|]. split; [done|]. split; [set_solver|].
  split; [lia|]. split; [done|]. intros b Hb. apply (pages_far (vm_alloc v)); [done|done| |set_solver].
  apply (pa_avail_pages _ Hok). set_solver.
Qed.

Lemma copied_entry_invalid n X v d s i m'' N :
  0 <= i < 512 -> copy_ok n X v d s i -> pt_valid (entry (vm_mem v) s i) = false ->
  frame (fun x => from_entry d (i + 1) x \/ elsewhere X v x) (vm_mem v) m'' ->
  copied_entry n m'' N d s i.
Proof.
  intros Hi [Hok _ Hd Hz [Hs _]] Hv Hf. unfold copied_entry.
  rewrite !(frame_entry _ _ _ _ i Hf), Hv.
  - apply Hz. lia.
  - intros [?|Hin]; [unfold from_entry in *; lia|]. revert Hin. by apply (far_not_in d); [|unfold PAGE_SIZE; lia].
  - intros Hin. specialize (Hs d ltac:(set_solver)) as Hsd. destruct Hin as [?|Hin].
    + unfold from_entry, far, PAGE_SIZE in *. lia.
    + revert Hin. apply (far_not_in s); [|unfold PAGE_SIZE; lia]. intros a Ha. apply Hs. set_solver.
Qed.

Lemma copy_pte_spec d s : body_spec 0 d s (copy_pte d s).
Proof.
  intros X v i v' r Hi Hco. pose proof Hco as [Hok Hx Hd Hz [Hs Hsrc]]. unfold copy_pte.
  destruct (pt_valid (entry (vm_mem v) s i)) eqn:Hv; cbn [negb]; cycle 1.
  { intros [= <- <-]. split; [split; try done; by left|].
    intros _ m'' Hf. by apply (copied_entry_invalid 0 X v). }
  destruct (pa_alloc (vm_alloc v)) as [sa a] eqn:Ea.
  destruct (copy_alloc v sa a Hok Ea) as (Hsa & Hg & Hav & Hcase).
  destruct (Z.eqb_spec a 0) as [->|Ha0].
  { intros [= <- <-]. split; [|done]. destruct Hcase as [[_ He]|[? _]]; [|done].
    split; try done. right. by split. }
  destruct Hcase as [[? _]|(_ & Ha & Hna & Har & Ham & Hfa)]; [done|].
  set (e := entry (vm_mem v) s i) in *. set (e' := Z.lor (Z.land e (Z.lnot PT_ADDR_MASK)) a).
  destruct (copied_leaf e a Har Ham Hv) as (Hv' & Ha' & Hfl).
  pose proof (Hd a ltac:(set_solver)) as Hda. pose proof (Hs d ltac:(set_solver)) as Hsd.
  pose proof (Hs a ltac:(set_solver)) as Hsa'.
  specialize (Hsrc i Hi Hv). destruct Hsrc as [Hleaf _]. fold e in Hleaf.
  pose proof (Hleaf d ltac:(set_solver)) as Hld. pose proof (Hleaf a ltac:(set_solver)) as Hla.
  intros [= <- <-]. set (v' := set_entry _ d i _).
  assert (Hm' : forall x, vm_mem v' x = if x =? d + 8 * i then e' else
    if in_range a PAGE_SIZE x then vm_mem v (pt_addr e + (x - a)) else vm_mem v x).
  { intros x. unfold v', set_entry. rec_simpl. rewrite mem_upd. done. }
  unfold far, PAGE_SIZE in Hda, Hsd, Hsa', Hld, Hla. split.
  - split; [done|done|done| |by left]. intros x Hxn. rewrite Hm'.
    destruct (Z.eqb_spec x (d + 8 * i)); [|destruct (in_range_spec a PAGE_SIZE x)].
    + exfalso. apply Hxn. by left.
    + exfalso. apply Hxn. right. exists a. cbn. split; [set_solver|done].
    + done.
  - intros _ m'' Hf.
    assert (Hleave : forall t x, far_all t (X ∪ pa_avail sa) -> (t + 4096 <= d \/ d + 4096 <= t) ->
      t <= x < t + 4096 -> m'' x = vm_mem v' x).
    { intros t x Ht Htd Hxt. apply Hf. intros [?|Hin]; [unfold from_entry, PAGE_SIZE in *; lia|].
      revert Hin. by apply (far_not_in t). }
    assert (Hsa2 : far_all s (X ∪ pa_avail sa)) by (intros b Hb; apply Hs; set_solver).
    assert (Hla2 : far_all (pt_addr e) (X ∪ pa_avail sa)) by (intros b Hb; apply Hleaf; set_solver).
    assert (Haa2 : far_all a (X ∪ pa_avail sa)) by (intros b [Hb|Hb]%elem_of_union; [by apply (Hx a)|by apply Hfa]).
    assert (Hes : entry m'' s i = e).
    { unfold entry at 1. rewrite (Hleave s), Hm' by (done || lia). unfold PAGE_SIZE. by mem_cases. }
    assert (Hed : entry m'' d i = e').
    { unfold entry. rewrite Hf.
      - rewrite Hm'. by rewrite Z.eqb_refl.
      - intros [?|Hin]; [unfold from_entry in *; lia|]. revert Hin.
        apply (far_not_in d); [|unfold PAGE_SIZE; lia]. intros b Hb. apply Hd. cbn in Hb. set_solver. }
    unfold copied_entry. rewrite Hes, Hed. fold e' in Ha', Hfl, Hv'. rewrite Hv, Ha'. split; [done|].
    split; [unfold new_pages; cbn; set_solver|]. split; [done|].
    intros x Hxr. unfold PAGE_SIZE in Hxr.
    rewrite (Hleave a), (Hleave (pt_addr e)), !Hm' by (done || lia).
    unfold PAGE_SIZE. mem_cases. f_equal. lia.
Qed.

(** A copier of whole tables, as used for the entries of the level above. *)
Definition table_spec (n : nat) (sub : Z -> Z -> vm -> vm * Z) : Prop :=
  forall X v d s v' r, copy_ok n X v d s 0 -> sub d s v = (v', r) ->
  copy_step (from_entry d 0) v v' r /\
  (r = 0 -> forall m'', frame (elsewhere X v') (vm_mem v') m'' ->
    copied_tree n m'' (new_pages v v') d s).

Lemma table_spec_entries n (body : Z -> Z -> vm -> Z -> vm * Z) :
  (forall d s, body_spec n d s (body d s)) ->
  table_spec n (fun d s v => copy_entries PTRS_PER_TABLE (body d s) v 0).
Proof.
  intros Hb X v d s v' r Hco E.
  destruct (copy_entries_spec n d s (body d s) X 512 v 0 v' r) as [Hst Hc]; try done.
  split; [done|]. intros Hr m'' Hf. apply copied_tree_entries. intros i Hi. by apply Hc.
Qed.

Lemma far_sym a b : far a b -> far b a.
Proof. unfold far. tauto. Qed.

(** The state in which the table below an entry is copied. *)
Lemma copy_ok_child n X v d s i sa t e e' :
  0 <= i < 512 -> copy_ok (S n) X v d s i -> pt_valid (entry (vm_mem v) s i) = true ->
  e = entry (vm_mem v) s i -> t ∈ pa_avail (vm_alloc v) -> t ∉ pa_avail sa ->
  pa_ok sa -> pa_avail sa ⊆ pa_avail (vm_alloc v) -> far_all t (pa_avail sa) ->
  copy_ok n ({[d]} ∪ X) (set_entry (page_zero (v <| vm_alloc := sa |>) t) d i e') t (pt_addr e) 0 /\
  frame (fun x => x = d + 8 * i \/ t <= x < t + PAGE_SIZE) (vm_mem v)
    (vm_mem (set_entry (page_zero (v <| vm_alloc := sa |>) t) d i e')).
Proof.
  intros Hi [Hok Hx Hd Hz [Hs Hsr]] Hv -> Ht Hnt Hsa Hav Hft.
  specialize (Hsr i Hi Hv). pose proof (Hd t ltac:(set_solver)) as Hdt.
  set (v2 := set_entry _ d i e').
  assert (Hm2 : forall x, vm_mem v2 x = if x =? d + 8 * i then e' else
    if in_range t PAGE_SIZE x then 0 else vm_mem v x).
  { intros x. unfold v2, set_entry, page_zero. rec_simpl. rewrite mem_upd. done. }
  assert (Hf2 : frame (fun x => x = d + 8 * i \/ t <= x < t + PAGE_SIZE) (vm_mem v) (vm_mem v2)).
  { intros x Hxn. rewrite Hm2. destruct (Z.eqb_spec x (d + 8 * i)); [exfalso; apply Hxn; by left|].
    destruct (in_range_spec t PAGE_SIZE x); [exfalso; apply Hxn; by right|done]. }
  split; [|done]. split.
  - done.
  - intros p Hp q [->%elem_of_singleton|Hq]%elem_of_union.
    + apply far_sym, Hd. set_solver.
    + apply (Hx p); [by apply Hav|done].
  - intros p [[->%elem_of_singleton|Hp]%elem_of_union|Hp]%elem_of_union.
    + by apply far_sym.
    + by apply (Hx t).
    + by apply Hft.
  - intros j Hj. unfold entry. rewrite Hm2. clear -Hdt Hj Hi. unfold far, PAGE_SIZE in *.
    destruct (Z.eqb_spec (t + 8 * j) (d + 8 * i)); [lia|].
    destruct (in_range_spec t 4096 (t + 8 * j)); [done|lia].
  - apply (src_ok_sub _ _ _ ({[d]} ∪ (X ∪ pa_avail (vm_alloc v)))).
    { change (vm_alloc v2) with sa. set_solver. }
    apply (src_ok_frame _ (vm_mem v)); [done|]. intros x Hxn. apply Hf2.
    intros [->|Hin]; apply Hxn; [exists d|exists t]; (split; [set_solver|]); [unfold PAGE_SIZE|]; lia.
Qed.

Lemma copy_table_spec n sub d s : table_spec n sub -> body_spec (S n) d s (copy_table sub d s).
Proof.
  intros Hsub X v i v' r Hi Hco. pose proof Hco as [Hok Hx Hd Hz [Hs _]]. unfold copy_table.
  destruct (pt_valid (entry (vm_mem v) s i)) eqn:Hv; cbn [negb]; cycle 1.
  { intros [= <- <-]. split; [split; try done; by left|].
    intros _ m'' Hf. by apply (copied_entry_invalid (S n) X v). }
  unfold alloc_table. destruct (pa_alloc (vm_alloc v)) as [sa t] eqn:Ea.
  destruct (copy_alloc v sa t Hok Ea) as (Hsa & Hg & Hav & Hcase).
  destruct (Z.eqb_spec t 0) as [->|Ht0].
  { intros [= <- <-]. split; [|done]. destruct Hcase as [[_ He]|[? _]]; [|done].
    split; try done. right. by split. }
  destruct Hcase as [[? _]|(_ & Ht & Hnt & Htr & Htm & Hft)]; [done|].
  destruct (Z.eqb_spec t 0); [done|]. set (e := entry (vm_mem v) s i) in *.
  set (e' := Z.lor (Z.lor (Z.lor t PT_VALID) PT_TABLE) PT_AF).
  assert (Hpt : points e' t).
  { unfold e'. rewrite <- !Z.lor_assoc. apply points_intro; try done; cbn; lia. }
  destruct (copy_ok_child n X v d s i sa t e e') as [Hco2 Hf2]; try done.
  pose proof (Hd t ltac:(set_solver)) as Hdt. pose proof (Hs d ltac:(set_solver)) as Hsd.
  set (v2 := set_entry _ d i e') in *. intros E.
  destruct (Hsub ({[d]} ∪ X) v2 t (pt_addr e) v' r Hco2 E) as [Hst2 Hc2].
  destruct Hst2 as [Hok' Hg' Hav' Hf' Hfail]. change (vm_alloc v2) with sa in Hg', Hav', Hf'.
  assert (Hframe : frame (fun x => x = d + 8 * i \/ in_pages (new_pages v v') x) (vm_mem v) (vm_mem v')).
  { intros x Hxn. rewrite Hf', Hf2; [done|..].
    - intros [?|?]; apply Hxn; [by left|]. right. exists t. split; [unfold new_pages; set_solver|done].
    - intros [Hin|Hin]; apply Hxn; right.
      + exists t. unfold from_entry in Hin. split; [unfold new_pages; set_solver|lia].
      + revert Hin. apply in_pages_mono. unfold new_pages. set_solver. }
  split; [split; [done|congruence|set_solver|done|done]|]. intros -> m'' Hm''.
  assert (Hsi : s <= s + 8 * i < s + PAGE_SIZE) by (unfold PAGE_SIZE; lia).
  assert (Hdi : d <= d + 8 * i < d + PAGE_SIZE) by (unfold PAGE_SIZE; lia).
  assert (Hes : entry m'' s i = e).
  { rewrite (frame_entry _ _ _ s i Hm''); [rewrite (frame_entry _ _ _ s i Hframe); [done|]|].
    - intros [?|Hin]; [unfold far in *; lia|]. revert Hin. apply (far_not_in s); [|done].
      apply (far_all_sub _ _ ({[d]} ∪ (X ∪ pa_avail (vm_alloc v)))); [unfold new_pages; set_solver|done].
    - intros [Hin|Hin]; [unfold from_entry, far in *; lia|]. revert Hin. apply (far_not_in s); [|done].
      apply (far_all_sub _ _ ({[d]} ∪ (X ∪ pa_avail (vm_alloc v)))); [set_solver|done]. }
  assert (Hed : entry m'' d i = e').
  { rewrite (frame_entry _ _ _ d i Hm''); [rewrite (frame_entry _ _ _ d i Hf')|].
    - unfold entry, v2, set_entry. rec_simpl. rewrite mem_upd. by rewrite Z.eqb_refl.
    - intros [?|Hin]; [unfold from_entry, far in *; lia|]. revert Hin. apply (far_not_in d); [|done].
      apply (far_all_sub _ _ (X ∪ pa_avail (vm_alloc v))); [set_solver|done].
    - intros [Hin|Hin]; [unfold from_entry in *; lia|]. revert Hin. apply (far_not_in d); [|done].
      apply (far_all_sub _ _ (X ∪ pa_avail (vm_alloc v))); [set_solver|done]. }
  unfold copied_entry. rewrite Hes, Hed. change (entry (vm_mem v) s i) with e in Hv. rewrite Hv.
  destruct Hpt as [-> ->]. split; [done|]. split; [unfold new_pages; set_solver|].
  apply (copied_tree_mono _ _ (new_pages v2 v')).
  { unfold new_pages. change (vm_alloc v2) with sa. set_solver. }
  apply Hc2; [done|]. intros x Hxn. apply Hm''. intros [Hin|Hin]; apply Hxn.
  - exists d. split; [set_solver|]. unfold from_entry in Hin. lia.
  - revert Hin. apply in_pages_mono. set_solver.
Qed.

Lemma copied_path m N dst src va k : copied_tree 3 m N dst src -> (k <= 3)%nat ->
  match tbl m src k va with
  | Some s => exists d, tbl m dst k va = Some d /\ copied_tree (3 - k) m N d s
  | None => tbl m dst k va = None
  end.
Proof.
  intros Hc. induction k as [|k IH]; intros Hk; [by exists dst|]. cbn [tbl].
  specialize (IH ltac:(lia)). destruct (tbl m src k va) as [s|]; [|by rewrite IH].
  destruct IH as (d & -> & Hd). replace (3 - k)%nat with (S (3 - S k)) in Hd by lia.
  specialize (Hd (idx k va) (idx_range k va)). cbv zeta. destruct (pt_valid (entry m s (idx k va))).
  - destruct Hd as (-> & _ & Hd). by eexists.
  - by rewrite Hd.
Qed.

Lemma src_path m m' src A va k : src_ok 4 m src A -> frame (in_pages A) m m' -> (k <= 4)%nat ->
  tbl m' src k va = tbl m src k va /\ forall t, tbl m src k va = Some t -> src_ok (4 - k) m t A.
Proof.
  intros Hs Hf. induction k as [|k IH]; intros Hk; [split; [done|by intros t [= <-]]|].
  destruct (IH ltac:(lia)) as [Ht Hsr]. cbn [tbl]. rewrite Ht.
  destruct (tbl m src k va) as [t|]; [|done]. specialize (Hsr t eq_refl).
  replace (4 - k)%nat with (S (4 - S k)) in Hsr by lia. destruct Hsr as [Hft Hsr].
  rewrite (frame_entry _ _ _ t (idx k va) Hf); cycle 1.
  { apply (far_not_in t); [done|]. pose proof (idx_range k va). unfold PAGE_SIZE. lia. }
  split; [done|]. intros u. cbv zeta. destruct (pt_valid (entry m t (idx k va))) eqn:Hv; [|done].
  intros [= <-]. apply Hsr; [apply idx_range|done].
Qed.

Lemma pte_tbl4 m pgd va : pt_valid (pte m pgd va) = true -> tbl m pgd 4 va = Some (pt_addr (pte m pgd va)).
Proof.
  unfold pte. replace (tbl m pgd 4 va) with (match tbl m pgd 3 va with None => None | Some t =>
    let e := entry m t (idx 3 va) in if pt_valid e then Some (pt_addr e) else None end) by done.
  destruct (tbl m pgd 3 va) as [t|]; [|done]. cbv zeta. intros Hv. by rewrite Hv.
Qed.

Lemma vmm_copy_spec v dst src v' r :
  dst <> NULL -> src <> NULL -> copy_ok 3 ∅ v dst src 0 -> vmm_copy_page_tables v dst src = (v', r) ->
  copy_step (from_entry dst 0) v v' r /\
  (r = 0 -> copied_tree 3 (vm_mem v') (new_pages v v') dst src).
Proof.
  intros Hd Hs Hco. unfold vmm_copy_page_tables.
  destruct (Z.eqb_spec dst NULL), (Z.eqb_spec src NULL); try done. cbn [orb]. intros E.
  assert (Hb : body_spec 3 dst src (copy_table copy_puds dst src)).
  { apply copy_table_spec.
    apply (table_spec_entries 2 (fun d s => copy_table copy_pmds d s)). intros d s. apply copy_table_spec.
    apply (table_spec_entries 1 (fun d s => copy_table copy_ptes d s)). intros d' s'. apply copy_table_spec.
    apply (table_spec_entries 0 copy_pte). intros d2 s2. apply copy_pte_spec. }
  destruct (copy_entries_spec 3 dst src (fun v i => if 0xFFFF000000000000 <=? Z.shiftl i 39 then (v, 0)
    else copy_table copy_puds dst src v i) ∅ 512 v 0 v' r) as [Hst Hc]; try done.
  - intros X w i w' q Hi Hco' E'. apply (Hb X w i w' q Hi Hco'). rewrite <- E'.
    rewrite Z.shiftl_mul_pow2 by lia. by destruct (Z.leb_spec 0xFFFF000000000000 (i * 2 ^ 39)); [lia|].
  - split; [done|]. intros Hr. apply copied_tree_entries. intros i Hi. by apply Hc.
Qed.

(** An empty address space is well formed. *)
Lemma vmm_init_wf v pgd :
  pa_ok (vm_alloc v) -> pgd <> NULL -> far_all pgd (pa_avail (vm_alloc v)) ->
  vmm_wf (vmm_init v pgd) pgd /\ forall va, pte (vm_mem (vmm_init v pgd)) pgd va = 0.
Proof.
  intros Hok Hp Hf. unfold vmm_init. destruct (Z.eqb_spec pgd NULL); [done|].
  assert (Ht : forall k va, tbl (vm_mem (page_zero v pgd)) pgd (S k) va = None).
  { intros k va. induction k as [|k IH].
    - cbn [tbl]. change (vm_mem (page_zero v pgd)) with (filled (vm_mem v) pgd 0 PAGE_SIZE).
      by rewrite entry_zeroed by apply idx_range.
    - cbn [tbl] in *. by rewrite IH. }
  split; [split; [done|done|..]|].
  - intros [|k] va t a _; [|by rewrite Ht]. intros [= <-]. apply Hf.
  - intros k k' va va' t t' _ _. destruct k as [|k]; [|by rewrite Ht].
    destruct k' as [|k']; [|intros _; by rewrite Ht]. intros _ _. left. split; [done|]. unfold pre. cbn. by rewrite !Z.mod_1_r.
  - intros va. unfold pte. by rewrite Ht.
Qed.

Lemma leaf_get paddr flags va :
  0 <= paddr < 2 ^ 48 -> paddr mod PAGE_SIZE = 0 -> 0 <= flags < PAGE_SIZE ->
  pt_valid (leaf paddr flags) = true /\
  Z.lor (pt_addr (leaf paddr flags)) (Z.land va 0xFFF) = paddr + va mod PAGE_SIZE.
Proof.
  unfold PAGE_SIZE. intros Hp Hm Hfl. unfold leaf.
  assert (Hpa : pt_addr paddr = paddr) by (rewrite pt_addr_div by lia; lia). rewrite Hpa.
  rewrite <- !Z.lor_assoc. destruct (points_intro paddr (Z.lor flags (Z.lor PT_VALID PT_AF))) as [Hv Ha].
  - done.
  - done.
  - split; [apply Z.lor_nonneg; split; [lia|done]|].
    apply (word_bound_bits _ 12); [lia|apply Z.lor_nonneg; split; [lia|done]|].
    intros i Hi. rewrite Z.lor_spec, (testbit_high flags 12) by lia.
    rewrite (testbit_high _ 12); [done|lia|by split|lia].
  - rewrite Z.lor_spec. change (Z.testbit (Z.lor PT_VALID PT_AF) 0) with true. apply orb_true_r.
  - split; [done|]. rewrite Ha. change 0xFFF with (Z.ones 12). rewrite Z.land_ones by lia.
    change (2 ^ 12) with 4096.
    assert (Hand : Z.land paddr (va mod 4096) = 0).
    { apply Z.bits_inj'. intros n Hn. rewrite Z.land_spec, Z.bits_0.
      destruct (Z.lt_ge_cases n 12).
      - replace paddr with (paddr / 2 ^ 12 * 2 ^ 12) by lia. by rewrite Z.mul_pow2_bits_low by lia.
      - rewrite (testbit_high (va mod 4096) 12 n) by lia. by rewrite andb_false_r. }
    rewrite Z.add_nocarry_lxor by done. symmetry. by apply Z.lxor_lor.
Qed.
End vmm.

Arguments vm : clear implicits.

(** * Properties *)

(** C5 Mapping, unmapping and translation agree, over any page allocator: a
    cleared PGD is an empty address space; [vmm_map] of a page-aligned address
    makes [vmm_get_phys] translate exactly the addresses of that page to it, and
    every other address as before; when it fails no page was left and no
    translation changed; [vmm_unmap] removes exactly the translation of its page.
    The address space stays well formed. *)
Theorem vmm_map_unmap_translate {P} `{PageAlloc P} (v : vm P) (pgd : Z) :
  (pa_ok (vm_alloc v) -> pgd <> NULL -> far_all pgd (pa_avail (vm_alloc v)) ->
     vmm_wf (vmm_init v pgd) pgd /\
     forall va, 0 <= va -> vmm_get_phys (vmm_init v pgd) pgd va = 0) /\
  (vmm_wf v pgd -> forall va paddr flags v' r,
     0 <= va -> 0 <= paddr < 2 ^ 48 -> paddr mod PAGE_SIZE = 0 -> 0 <= flags < PAGE_SIZE ->
     vmm_map v pgd va paddr flags = (v', r) ->
     vmm_wf v' pgd /\
     ((r = 0 /\ forall va', 0 <= va' -> vmm_get_phys v' pgd va' =
         if pre 4 va' =? pre 4 va then paddr + va' mod PAGE_SIZE else vmm_get_phys v pgd va') \/
      (r = -1 /\ pa_avail (vm_alloc v') = ∅ /\
       forall va', 0 <= va' -> vmm_get_phys v' pgd va' = vmm_get_phys v pgd va'))) /\
  (vmm_wf v pgd -> forall va, 0 <= va ->
     vmm_wf (vmm_unmap v pgd va) pgd /\ vm_alloc (vmm_unmap v pgd va) = vm_alloc v /\
     forall va', 0 <= va' -> vmm_get_phys (vmm_unmap v pgd va) pgd va' =
       if pre 4 va' =? pre 4 va then 0 else vmm_get_phys v pgd va').
Proof.
  split; [|split].
  - intros Hok Hp Hf. destruct (vmm_init_wf v pgd Hok Hp Hf) as [Hwf Hz]. split; [done|].
    intros va Hva. by rewrite vmm_get_phys_pte, Hz by done.
  - intros Hwf va paddr flags v' r Hva Hpa Hm Hfl E.
    destruct (vmm_map_spec v pgd va paddr flags v' r Hwf Hva E) as (Hwf' & _ & _ & _ & Hr).
    split; [done|]. destruct Hr as [(-> & t & _ & Hp)|(-> & Hav & Hp)].
    + left. split; [done|]. intros va' Hva'. rewrite !vmm_get_phys_pte, Hp by done.
      destruct (pre 4 va' =? pre 4 va); [|done].
      destruct (leaf_get paddr flags va' Hpa Hm Hfl) as [-> ->]. done.
    + right. split; [done|]. split; [done|]. intros va' Hva'. by rewrite !vmm_get_phys_pte, Hp by done.
  - intros Hwf va Hva. destruct (vmm_unmap_spec v pgd va Hwf Hva) as (Hwf' & Ha & Hp).
    split; [done|]. split; [done|]. intros va' Hva'. rewrite !vmm_get_phys_pte, Hp by done.
    by destruct (pre 4 va' =? pre 4 va).
Qed.

(** [vmm_alloc_pages] maps [npages] different fresh pages at consecutive
    addresses and returns [vaddr], or maps none of them and returns 0; nothing
    outside the range changes.  When it fails, the pages it had already mapped are unmapped but not
    given back: they are neither mapped nor available. *)
Theorem vmm_alloc_pages_all_or_nothing {P} `{PageAlloc P} (v v' : vm P) (pgd vaddr npages flags r : Z)
    (Hwf : vmm_wf v pgd) (Hb : 0 <= vaddr /\ 0 <= npages /\ vaddr + npages * PAGE_SIZE <= 2 ^ 48)
    (E : vmm_alloc_pages v pgd vaddr npages flags = (v', r)) :
  vmm_wf v' pgd /\ alloc_pages_result v v' pgd vaddr flags (Z.to_nat npages) r.
Proof.
  apply (alloc_pages_loop_spec (Z.to_nat npages) v v pgd vaddr [] flags v' r); [done|lia| | |  |done].
  - unfold zlen, PAGE_SIZE in *. cbn. lia.
  - split; [constructor|]. split; [done|]. split; [done|]. set_solver.
  - intros va. unfold with_pages. cbv zeta. unfold zlen. cbn [length].
    destruct (Z.leb_spec 0 (pre 4 va - vaddr / PAGE_SIZE)), (Z.ltb_spec (pre 4 va - vaddr / PAGE_SIZE) (Z.of_nat 0));
      try done; lia.
Qed.

(** C34 [vmm_free_all] of an address space that owns its pages gives back every
    table and every mapped page, each exactly once, and nothing else. *)
Theorem vmm_free_all_returns_everything {P} `{PageAlloc P} (v : vm P) (pgd : Z)
    (Hok : pa_ok (vm_alloc v)) (Hp : pgd <> NULL) (Hown : owns_pages v pgd) :
  pa_ok (vm_alloc (vmm_free_all v pgd)) /\ vm_mem (vmm_free_all v pgd) = vm_mem v /\
  forall b, b ∈ pa_avail (vm_alloc (vmm_free_all v pgd)) <->
    b ∈ pa_avail (vm_alloc v) \/ exists k va, (k <= 4)%nat /\ tbl (vm_mem v) pgd k va = Some b.
Proof.
  rewrite vmm_free_all_tree by done.
  assert (Hel : forall b, b ∈ tree_pages (vm_mem v) 4 pgd <->
    exists k va, (k <= 4)%nat /\ tbl (vm_mem v) pgd k va = Some b).
  { intros b. rewrite (elem_of_tree (vm_mem v) pgd 4 0 0 pgd b) by done. split.
    - intros (k & va & ? & _ & ?). exists k, va. by split; [lia|].
    - intros (k & va & ? & ?). exists k, va. split; [lia|]. split; [|done].
      unfold pre. cbn. by rewrite !Z.mod_1_r. }
  destruct (foldl_pa_free (vm_alloc v) (tree_pages (vm_mem v) 4 pgd)) as (H1 & _ & H3).
  - done.
  - by apply (NoDup_tree v pgd 4 0 0).
  - intros b (k & va & Hk & Hb)%Hel. by apply (ow_pages v pgd Hown k va).
  - split; [done|]. split; [done|]. intros b. cbn [vm_alloc upd]. 
    change (vm_alloc (v <| vm_alloc := ?x |>)) with x || idtac. rewrite <- Hel.
    change (b ∈ pa_avail (foldl pa_free (vm_alloc v) (tree_pages (vm_mem v) 4 pgd)) <->
      b ∈ pa_avail (vm_alloc v) \/ b ∈ tree_pages (vm_mem v) 4 pgd).
    rewrite H3, elem_of_union, elem_of_list_to_set. tauto.
Qed.

(** C35 [vmm_copy_page_tables] into a cleared PGD: when it returns 0, every address
    is mapped in the copy exactly when it is mapped in the source, with the same
    flags, to a newly allocated page with the same contents; the source and all
    memory outside the PGD and the new pages are unchanged.  When it returns -1
    the pages have run out. *)
Theorem vmm_copy_page_tables_copies {P} `{PageAlloc P} (v v' : vm P) (dst src r : Z)
    (Hnn : dst <> NULL /\ src <> NULL) (Hco : copy_ok 3 ∅ v dst src 0)
    (E : vmm_copy_page_tables v dst src = (v', r)) :
  ((r = 0 /\ forall va,
      pte (vm_mem v') src va = pte (vm_mem v) src va /\
      pt_valid (pte (vm_mem v') dst va) = pt_valid (pte (vm_mem v) src va) /\
      (pt_valid (pte (vm_mem v) src va) = true ->
        Z.land (pte (vm_mem v') dst va) (Z.lnot PT_ADDR_MASK) =
          Z.land (pte (vm_mem v) src va) (Z.lnot PT_ADDR_MASK) /\
        pt_addr (pte (vm_mem v') dst va) ∈ new_pages v v' /\
        forall x, 0 <= x < PAGE_SIZE ->
          vm_mem v' (pt_addr (pte (vm_mem v') dst va) + x) = vm_mem v (pt_addr (pte (vm_mem v) src va) + x))) \/
   (r = -1 /\ pa_avail (vm_alloc v') = ∅)) /\
  frame (in_pages ({[dst]} ∪ new_pages v v')) (vm_mem v) (vm_mem v').
Proof.
  destruct Hnn as [Hd Hs]. destruct (vmm_copy_spec v dst src v' r Hd Hs Hco E) as [Hst Hc].
  destruct Hst as [_ _ Hav Hf Hfail].
  assert (Hfr : frame (in_pages ({[dst]} ∪ new_pages v v')) (vm_mem v) (vm_mem v')).
  { intros x Hx. apply Hf. intros [Hin|Hin]; apply Hx.
    - exists dst. split; [set_solver|]. unfold from_entry in Hin. lia.
    - revert Hin. apply in_pages_mono. unfold new_pages. set_solver. }
  split; [|done]. destruct Hfail as [Hr|Hr]; [left|by right]. split; [done|]. intros va.
  specialize (Hc Hr). set (A := {[dst]} ∪ (∅ ∪ pa_avail (vm_alloc v))).
  assert (HfA : frame (in_pages A) (vm_mem v) (vm_mem v')).
  { intros x Hx. apply Hfr. intros Hin. apply Hx. revert Hin. apply in_pages_mono.
    unfold A, new_pages. set_solver. }
  pose proof (co_src _ _ _ _ _ _ Hco) as Hsrc. fold A in Hsrc.
  destruct (src_path _ _ _ A va 3 Hsrc HfA ltac:(lia)) as [Ht3 Hsr3].
  assert (Hpte : pte (vm_mem v') src va = pte (vm_mem v) src va).
  { unfold pte. rewrite Ht3. destruct (tbl (vm_mem v) src 3 va) as [t|] eqn:Et; [|done].
    destruct (Hsr3 t eq_refl) as [Hft _].
    apply (frame_entry _ _ _ t _ HfA), (far_not_in t); [done|].
    pose proof (idx_range 3 va). unfold PAGE_SIZE. lia. }
  split; [done|]. pose proof (copied_path _ _ _ _ va 3 Hc ltac:(lia)) as Hp3.
  rewrite Ht3 in Hp3. rewrite <- Hpte. unfold pte. rewrite Ht3.
  destruct (tbl (vm_mem v) src 3 va) as [t|] eqn:Et; [|by rewrite Hp3].
  destruct Hp3 as (d & -> & Hd3). specialize (Hd3 (idx 3 va) (idx_range 3 va)).
  destruct (pt_valid (entry (vm_mem v') t (idx 3 va))) eqn:Hv; [|by rewrite Hd3].
  destruct Hd3 as (-> & Hin & Hfl & Hx). split; [done|]. intros _. split; [done|]. split; [done|].
  intros x Hxr. rewrite Hx by done. apply HfA.
  destruct (Hsr3 t eq_refl) as [Hft Hsr]. apply (far_not_in (pt_addr (entry (vm_mem v') t (idx 3 va)))); [|lia].
  assert (Hent : entry (vm_mem v') t (idx 3 va) = entry (vm_mem v) t (idx 3 va)).
  { apply (frame_entry _ _ _ t _ HfA), (far_not_in t); [done|].
    pose proof (idx_range 3 va). unfold PAGE_SIZE. lia. }
  rewrite Hent in Hv |- *. by destruct (Hsr (idx 3 va) (idx_range 3 va) Hv).
Qed.

(** * Witnesses *)

Lemma pmm_ok_intro p :
  pmm_wf p -> 0 < phys_base p -> phys_base p + total_pages p * PAGE_SIZE <= 2 ^ 48 -> pmm_ok p.
Proof.
  intros Hwf Hb He. split; [done|]. split; [done|].
  intros (k & Hk & [Hr _]%elem_of_free_set)%elem_of_map. unfold page_addr, PAGE_SIZE in *. lia.
Qed.

Lemma demo_pmm_ok : pmm_ok demo_pmm.
Proof. apply pmm_ok_intro; [exact demo_pmm_wf|reflexivity|vm_compute; discriminate]. Qed.

Lemma demo_avail a : a ∈ pmm_avail demo_pmm -> 4096 <= a <= 36864 - PAGE_SIZE.
Proof.
  intros (k & -> & [Hr _]%elem_of_free_set)%elem_of_map.
  change (total_pages demo_pmm) with 8 in Hr. unfold page_addr.
  change (phys_base demo_pmm) with 4096. unfold PAGE_SIZE. lia.
Qed.

Lemma demo_far t : 36864 <= t -> far_all t (pmm_avail demo_pmm).
Proof. intros Ht a Ha%demo_avail. unfold far, PAGE_SIZE in *. lia. Qed.

Definition demo_vm : vm pmm := mkVm (fun _ => 0) demo_pmm.

Lemma demo_vm_wf : vmm_wf (vmm_init demo_vm 0x100000) 0x100000.
Proof.
  apply vmm_init_wf; [exact demo_pmm_ok|done|]. by apply demo_far.
Qed.

Lemma vmm_map_unmap_translate_witness :
  let v := vmm_init demo_vm 0x100000 in
  let '(v', r) := vmm_map v 0x100000 0x7000 0x200000 64 in
  r = 0 /\ vmm_get_phys v' 0x100000 0x7123 = 0x200123 /\ vmm_wf v' 0x100000.
Proof.
  intros v. destruct (vmm_map v 0x100000 0x7000 0x200000 64) as [v' r] eqn:E.
  assert (Hr : (vmm_map v 0x100000 0x7000 0x200000 64).2 = 0) by (vm_compute; reflexivity).
  rewrite E in Hr. cbn in Hr. subst r.
  destruct (vmm_map_unmap_translate v 0x100000) as (_ & Hm & _).
  destruct (Hm demo_vm_wf 0x7000 0x200000 64 v' 0) as [Hwf [[_ Ht]|[? _]]];
    [lia|lia|done|unfold PAGE_SIZE; lia|exact E| |lia].
  split; [reflexivity|]. split; [|exact Hwf]. rewrite Ht by lia. reflexivity.
Defined.

Lemma vmm_alloc_pages_all_or_nothing_witness :
  let '(v', r) := vmm_alloc_pages (vmm_init demo_vm 0x100000) 0x100000 0x7000 2 64 in
  r = 0x7000 /\ vmm_wf v' 0x100000.
Proof.
  destruct (vmm_alloc_pages (vmm_init demo_vm 0x100000) 0x100000 0x7000 2 64) as [v' r] eqn:E.
  assert (Hr : (vmm_alloc_pages (vmm_init demo_vm 0x100000) 0x100000 0x7000 2 64).2 = 0x7000) by (vm_compute; reflexivity).
  rewrite E in Hr. cbn in Hr. subst r.
  split; [done|].
  apply (vmm_alloc_pages_all_or_nothing (vmm_init demo_vm 0x100000) v' 0x100000 0x7000 2 64 0x7000 demo_vm_wf);
    [unfold PAGE_SIZE; lia|exact E].
Defined.

(** An address space that is just its PGD, in the first free page. *)
Definition demo_space : vm pmm := mkVm (fun _ => 0) (pmm_alloc demo_pmm).1.

Lemma demo_space_owns : pa_ok (vm_alloc demo_space) /\ owns_pages demo_space 8192.
Proof.
  destruct (pmm_alloc demo_pmm) as [p a] eqn:E.
  assert (Hr : (pmm_alloc demo_pmm).2 = 8192) by (vm_compute; reflexivity).
  rewrite E in Hr. cbn in Hr. subst a.
  destruct (@pa_alloc_spec pmm pmm_page_alloc demo_pmm p 8192 demo_pmm_ok E) as (Hok & Hg & [[? _]|[Ha Hav]]); [done|].
  assert (Hsp : vm_alloc demo_space = p) by (unfold demo_space; by rewrite E).
  rewrite Hsp. split; [done|].
  assert (Ht : forall k va t, tbl (vm_mem demo_space) 8192 k va = Some t -> k = 0%nat /\ t = 8192).
  { intros k va. destruct k as [|k]; [cbn [tbl]; intros t [= <-]; split; reflexivity|]. intros t.
    enough (tbl (vm_mem demo_space) 8192 (S k) va = None) as -> by done.
    induction k as [|k IH]; [done|]. cbn [tbl] in *. by rewrite IH. }
  split.
  - intros k k' va va' t _ _ [-> _]%Ht [-> _]%Ht. split; [done|]. unfold pre. cbn. by rewrite !Z.mod_1_r.
  - intros k va t _ [-> ->]%Ht. rewrite Hsp, Hg, Hav.
    split; [exact (@pa_avail_pages pmm pmm_page_alloc demo_pmm demo_pmm_ok 8192 Ha)|].
    intros [_ Hn]%elem_of_difference. by apply Hn, elem_of_singleton.
Qed.

Lemma vmm_free_all_returns_everything_witness :
  8192 ∈ pmm_avail (vm_alloc (vmm_free_all demo_space 8192)).
Proof.
  destruct (vmm_free_all_returns_everything demo_space 8192 (proj1 demo_space_owns)) as (_ & _ & Hb);
    [done|exact (proj2 demo_space_owns)|].
  apply Hb. right. exists 0%nat, 0. split; [lia|done].
Defined.

(** One page mapped at address 0, through tables at 0x101000 to 0x103000. *)
Definition demo_tables : Z -> Z := fun x =>
  if x =? 0x100000 then 0x101003 else if x =? 0x101000 then 0x102003 else
  if x =? 0x102000 then 0x103003 else if x =? 0x103000 then 0x104443 else
  if in_range 0x104000 PAGE_SIZE x then x else 0.

Lemma demo_copy_ok : copy_ok 3 ∅ (mkVm demo_tables demo_pmm) 0x200000 0x100000 0.
Proof.
  assert (Hfar : forall t, 36864 <= t <= 0x104000 ->
    far_all t ({[0x200000]} ∪ (∅ ∪ pmm_avail demo_pmm))).
  { intros t Ht b [->%elem_of_singleton|[?|Hb]%elem_of_union]%elem_of_union; [|set_solver|].
    - unfold far, PAGE_SIZE. lia.
    - apply (demo_far t); [lia|done]. }
  assert (Hent : forall t i, t = 0x100000 \/ t = 0x101000 \/ t = 0x102000 \/ t = 0x103000 -> 0 <= i < 512 ->
    pt_valid (entry demo_tables t i) = true -> i = 0).
  { intros t i Ht Hi. unfold entry, demo_tables, PAGE_SIZE.
    destruct (Z.eqb_spec (t + 8 * i) 0x100000), (Z.eqb_spec (t + 8 * i) 0x101000),
      (Z.eqb_spec (t + 8 * i) 0x102000), (Z.eqb_spec (t + 8 * i) 0x103000),
      (in_range_spec 0x104000 4096 (t + 8 * i)); try lia. done. }
  split.
  - exact demo_pmm_ok.
  - intros p _ a []%not_elem_of_empty.
  - intros a [[]%not_elem_of_empty|Ha]%elem_of_union. by apply (demo_far 0x200000).
  - intros j Hj. unfold entry, demo_tables, PAGE_SIZE. cbn [vm_mem].
    destruct (Z.eqb_spec (0x200000 + 8 * j) 0x100000), (Z.eqb_spec (0x200000 + 8 * j) 0x101000),
      (Z.eqb_spec (0x200000 + 8 * j) 0x102000), (Z.eqb_spec (0x200000 + 8 * j) 0x103000),
      (in_range_spec 0x104000 4096 (0x200000 + 8 * j)); try lia; done.
  - cbn [vm_mem vm_alloc].
    split; [apply Hfar; lia|]. intros i Hi Hv. rewrite (Hent 0x100000 i ltac:(lia) Hi Hv).
    split; [apply Hfar; vm_compute; split; discriminate|]. intros j Hj Hv'.
    change (pt_addr (entry demo_tables 0x100000 0)) with 0x101000 in *.
    rewrite (Hent 0x101000 j) by (try lia; done).
    split; [apply Hfar; vm_compute; split; discriminate|]. intros k Hk Hv2.
    change (pt_addr (entry demo_tables 0x101000 0)) with 0x102000 in *.
    rewrite (Hent 0x102000 k) by (try lia; done).
    split; [apply Hfar; vm_compute; split; discriminate|]. intros l Hl Hv3.
    change (pt_addr (entry demo_tables 0x102000 0)) with 0x103000 in *.
    rewrite (Hent 0x103000 l) by (try lia; done).
    split; [|done]. apply Hfar. vm_compute. split; discriminate.
Qed.

Lemma vmm_copy_page_tables_copies_witness :
  let '(v', r) := vmm_copy_page_tables (mkVm demo_tables demo_pmm) 0x200000 0x100000 in
  r = 0 /\ pt_valid (pte (vm_mem v') 0x200000 0x18) = true.
Proof.
  destruct (vmm_copy_page_tables (mkVm demo_tables demo_pmm) 0x200000 0x100000) as [v' r] eqn:E.
  assert (Hr : (vmm_copy_page_tables (mkVm demo_tables demo_pmm) 0x200000 0x100000).2 = 0) by (vm_compute; reflexivity).
  rewrite E in Hr. cbn in Hr. subst r.
  destruct (vmm_copy_page_tables_copies (mkVm demo_tables demo_pmm) v' 0x200000 0x100000 0) as [[[_ Hc]|[? _]] _];
    [split; discriminate|exact demo_copy_ok|exact E| |lia].
  split; [reflexivity|]. destruct (Hc 0x18) as (_ & Hv & _). rewrite Hv. reflexivity.
Defined.
