(* ===== verification/Sched.v ===== *)
(** Scheduler ([src/sched.c]) and the process control block it shares with
    [src/sync.c] and [src/process.c].

    Process control blocks live in a store addressed by pointer; the run queues
    are C linked lists threaded through [sched_next], the wait queues through
    [wq_next], and both are related to plain lists by [chain].  An operation takes
    the number of the CPU that executes it ([cpu_get_id()]).  What it asks of the
    architecture code (context switch, reschedule interrupt, first jump) is
    appended to [events].  [None] is a dereference of [NULL], or a loop over a list
    that is longer than [fuel].  The spinlocks make each operation one step. *)
From S2P Require Import Prelude.

Inductive proc_state :=
| PROC_UNUSED | PROC_READY | PROC_RUNNING | PROC_SLEEPING | PROC_STOPPED | PROC_ZOMBIE | PROC_DEAD.

#[export] Instance proc_state_eq_dec : EqDecision proc_state.
Proof. solve_decision. Defined.

Definition PRIO_REALTIME : Z := 0.
Definition PRIO_HIGH : Z := 1.
Definition PRIO_NORMAL : Z := 2.
Definition PRIO_LOW : Z := 3.
Definition PRIO_IDLE : Z := 4.
Definition SCHED_QUEUES : Z := 5.
Definition PRIORITY_BOOST_INTERVAL : Z := 200.

(** [struct cpu_context]: the fields the C code sets *)
Record cpu_context := mkCtx { x11 : Z; x12 : Z; ctx_sp : Z; ctx_pc : Z; ctx_pstate : Z }.
#[export] Instance eta_cpu_context : Eta cpu_context := fun c =>
  mkCtx (x11 c) (x12 c) (ctx_sp c) (ctx_pc c) (ctx_pstate c).

(** [struct process] *)
Record pcb := mkPcb {
  pid : Z;
  ppid : Z;
  name : list Z;
  state : proc_state;
  priority : Z;
  flags : Z;
  cpu : Z;
  ctx : cpu_context;
  pgd : Z;
  stack_base : Z;
  stack_size : Z;
  sched_next : Z;
  time_slice : Z;
  cpu_time : Z;
  start_time : Z;
  wq : Z;
  wq_next : Z;
  parent : Z;
  children : Z;
  sibling : Z;
  exit_code : Z;
  uid : Z;
  gid : Z;
  euid : Z;
  egid : Z;
  cap : list Z;
  sig_handler : list Z;
  sig_pending : Z;
  sig_blocked : Z;
  fd_table : Z
}.
#[export] Instance eta_pcb : Eta pcb := fun p =>
  mkPcb (pid p) (ppid p) (name p) (state p) (priority p) (flags p) (cpu p) (ctx p) (pgd p)
    (stack_base p) (stack_size p) (sched_next p) (time_slice p) (cpu_time p) (start_time p)
    (wq p) (wq_next p) (parent p) (children p) (sibling p) (exit_code p) (uid p) (gid p) (euid p)
    (egid p) (cap p) (sig_handler p) (sig_pending p) (sig_blocked p) (fd_table p).

(** [memset(proc, 0, sizeof(struct process))] *)
Definition pcb_zero : pcb :=
  mkPcb 0 0 (replicate 32 0) PROC_UNUSED 0 0 0 (mkCtx 0 0 0 0 0) 0 0 0 0 0 0 0 0 0 0 0 0 0 0 0 0 0
    [0; 0] (replicate 64 0) 0 0 0.
#[export] Instance pcb_inhabited : Inhabited pcb := populate pcb_zero.

Record runqueue := mkRq {
  queues : list Z;
  tails : list Z;
  queue_bitmap : Z;
  current : Z;
  idle_task : Z;
  ticks : Z
}.
#[export] Instance eta_runqueue : Eta runqueue := fun r =>
  mkRq (queues r) (tails r) (queue_bitmap r) (current r) (idle_task r) (ticks r).
Definition rq_empty : runqueue := mkRq [0; 0; 0; 0; 0] [0; 0; 0; 0; 0] 0 NULL NULL 0.
#[export] Instance runqueue_inhabited : Inhabited runqueue := populate rq_empty.

(** What the architecture code is asked to do. *)
Inductive sched_event :=
| Switch (prev next : Z)   (** [arch_context_switch] *)
| Resched (c : Z)          (** [arch_trigger_reschedule] *)
| Jump (p : Z).            (** [arch_jump_to_process] *)

Record sched := mkSched {
  procs : Z -> pcb;
  rqs : list runqueue;
  num_cpus : Z;
  sched_initialized : bool;
  wq_head : Z -> Z;
  events : list sched_event
}.
#[export] Instance eta_sched : Eta sched := fun s =>
  mkSched (procs s) (rqs s) (num_cpus s) (sched_initialized s) (wq_head s) (events s).

Definition mod_proc (s : sched) (p : Z) (f : pcb -> pcb) : sched :=
  s <| procs := <[p := f (procs s p)]> (procs s) |>.
Definition mod_rq (s : sched) (c : Z) (f : runqueue -> runqueue) : sched :=
  s <| rqs := (rqs s).[c <- f (rqs s).[c]] |>.
Definition set_wq_head (s : sched) (w h : Z) : sched :=
  s <| wq_head := <[w := h]> (wq_head s) |>.
Definition emit (s : sched) (e : sched_event) : sched := s <| events := events s ++ [e] |>.

(** Run to completion, 40 ms, 80 ms, 160 ms and 320 ms, in ticks of 10 ms. *)
Definition time_quantum : list Z := [0xFFFFFFFF; 4; 8; 16; 32].

(** The rest of [struct runqueue] is zeroed by [kcalloc]. *)
Definition scheduler_init (s : sched) (cores : Z) : sched :=
  s <| num_cpus := cores |> <| rqs := replicate (Z.to_nat cores) rq_empty |>
    <| sched_initialized := true |>.

Definition enqueue_process (s : sched) (proc : Z) : sched :=
  let c := cpu (procs s proc) in
  let prio := priority (procs s proc) in
  let s := mod_proc s proc (fun p => p <| sched_next := NULL |>) in
  let tail := (tails (rqs s).[c]).[prio] in
  let s :=
    if negb (tail =? NULL) then mod_proc s tail (fun p => p <| sched_next := proc |>)
    else mod_rq s c (fun r => r <| queues := (queues r).[prio <- proc] |>) in
  let s := mod_rq s c (fun r => r <| tails := (tails r).[prio <- proc] |>) in
  mod_rq s c (fun r => r <| queue_bitmap := bit_set (queue_bitmap r) prio |>).

(** The recursion clears one bit of the bitmap each time. *)
Fixpoint dequeue_loop (fuel : nat) (s : sched) (c : Z) : option (sched * Z) :=
  match fuel with
  | O => None
  | S f =>
      let rq := (rqs s).[c] in
      if queue_bitmap rq =? 0 then Some (s, NULL) else
      let prio := ctz (queue_bitmap rq) in
      let proc := (queues rq).[prio] in
      if proc =? NULL then
        dequeue_loop f (mod_rq s c (fun r => r <| queue_bitmap := bit_clear (queue_bitmap r) prio |>)) c
      else
        let nxt := sched_next (procs s proc) in
        let s := mod_rq s c (fun r => r <| queues := (queues r).[prio <- nxt] |>) in
        let s :=
          if nxt =? NULL then
            mod_rq s c (fun r => r <| tails := (tails r).[prio <- NULL] |>
                                   <| queue_bitmap := bit_clear (queue_bitmap r) prio |>)
          else s in
        Some (mod_proc s proc (fun p => p <| sched_next := NULL |>), proc)
  end.

Definition dequeue_highest (s : sched) (c : Z) : option (sched * Z) := dequeue_loop 33 s c.

(** [rq->current = next; next->state = PROC_RUNNING; ...] *)
Definition run_next (s : sched) (c next : Z) : option sched :=
  if next =? NULL then None else
  let s := mod_rq s c (fun r => r <| current := next |>) in
  Some (mod_proc s next (fun p => p <| state := PROC_RUNNING |> <| cpu := c |>
                                    <| time_slice := time_quantum.[priority p] |>)).

(** [None] is also [kernel_panic]: not initialised, or no process to run. *)
Definition scheduler_start (s : sched) (c : Z) : option sched :=
  if negb (sched_initialized s) then None else
  match dequeue_highest s c with
  | None => None
  | Some (s, proc) =>
      option_map (fun s => emit s (Jump proc)) (run_next s c proc)
  end.

(** Moving the list from [proc] on to the normal queue. *)
Fixpoint boost_list (fuel : nat) (s : sched) (proc : Z) : option sched :=
  match fuel with
  | O => None
  | S f =>
      if proc =? NULL then Some s else
      let next := sched_next (procs s proc) in
      let s := mod_proc s proc (fun p => p <| priority := PRIO_NORMAL |>) in
      let s := mod_proc s proc (fun p => p <| sched_next := NULL |>) in
      boost_list f (enqueue_process s proc) next
  end.

(** One CPU; the loop [for (q = PRIO_LOW; q > PRIO_NORMAL; q--)] has one round. *)
Definition boost_cpu (fuel : nat) (s : sched) (c : Z) : option sched :=
  let q := PRIO_LOW in
  match boost_list fuel s (queues (rqs s).[c]).[q] with
  | None => None
  | Some s => Some (mod_rq s c (fun r => r <| queues := (queues r).[q <- NULL] |>
                                           <| tails := (tails r).[q <- NULL] |>))
  end.

Fixpoint boost_cpus (n fuel : nat) (s : sched) (c : Z) : option sched :=
  match n with
  | O => Some s
  | S n' => match boost_cpu fuel s c with None => None | Some s => boost_cpus n' fuel s (c + 1) end
  end.

Definition priority_boost (fuel : nat) (s : sched) : option sched :=
  boost_cpus (Z.to_nat (num_cpus s)) fuel s 0.

Definition scheduler_tick (fuel : nat) (s : sched) (c : Z) : option sched :=
  let cur := current (rqs s).[c] in
  if cur =? NULL then Some s else
  let s := mod_proc s cur (fun p => p <| cpu_time := u64 (cpu_time p + 1) |>) in
  let s := mod_rq s c (fun r => r <| ticks := u32 (ticks r + 1) |>) in
  if priority (procs s cur) =? PRIO_REALTIME then Some s else
  let s := if 0 <? time_slice (procs s cur)
           then mod_proc s cur (fun p => p <| time_slice := time_slice p - 1 |>) else s in
  let boost s :=
    if PRIORITY_BOOST_INTERVAL <=? ticks (rqs s).[c]
    then priority_boost fuel (mod_rq s c (fun r => r <| ticks := 0 |>))
    else Some s in
  if time_slice (procs s cur) =? 0 then
    let s := mod_proc s cur (fun p => p <| state := PROC_READY |>) in
    match dequeue_highest (enqueue_process s cur) c with
    | None => None
    | Some (s, next) =>
        let next := if next =? NULL then idle_task (rqs s).[c] else next in
        if negb (next =? cur) then
          option_map (fun s => emit s (Switch cur next)) (run_next s c next)
        else boost (mod_proc s cur (fun p => p <| time_slice := time_quantum.[priority p] |>))
    end
  else boost s.

Definition scheduler_yield (s : sched) (c : Z) : option sched :=
  let cur := current (rqs s).[c] in
  if cur =? NULL then Some s else
  let s := mod_proc s cur (fun p => p <| state := PROC_READY |>) in
  match dequeue_highest (enqueue_process s cur) c with
  | None => None
  | Some (s, next) =>
      if (next =? NULL) || (next =? cur) then
        Some (mod_proc s cur (fun p => p <| time_slice := time_quantum.[priority p] |>))
      else option_map (fun s => emit s (Switch cur next)) (run_next s c next)
  end.

(** The number of non-empty queues according to the bitmap *)
Definition queue_count (load : Z) : Z :=
  Z.of_nat (length (filter (fun q => negb (Z.land load (Z.shiftl 1 q) =? 0) = true) (seqZ 0 SCHED_QUEUES))).

Fixpoint pick_cpu (n : nat) (s : sched) (i target min_load : Z) : Z :=
  match n with
  | O => target
  | S n' =>
      let count := queue_count (queue_bitmap (rqs s).[i]) in
      if count <? min_load then pick_cpu n' s (i + 1) i count else pick_cpu n' s (i + 1) target min_load
  end.

Definition scheduler_add_process (s : sched) (c proc : Z) : sched :=
  if proc =? NULL then s else
  let target := pick_cpu (Z.to_nat (num_cpus s)) s 0 0 0xFFFFFFFF in
  let s := mod_proc s proc (fun p => p <| cpu := target |> <| state := PROC_READY |>
                                       <| time_slice := time_quantum.[priority p] |>) in
  let s := enqueue_process s proc in
  let cur := current (rqs s).[c] in
  if negb (cur =? NULL) && (priority (procs s proc) <? priority (procs s cur))
  then emit s (Resched target) else s.

(** The walk with [pp]; [prev] is the struct whose field [pp] points to, [NULL] for
    the queue head. *)
Fixpoint remove_walk (fuel : nat) (s : sched) (c prio prev x proc : Z) : option sched :=
  match fuel with
  | O => None
  | S f =>
      if x =? NULL then Some s else
      if x =? proc then
        let nxt := sched_next (procs s proc) in
        let s := if prev =? NULL
                 then mod_rq s c (fun r => r <| queues := (queues r).[prio <- nxt] |>)
                 else mod_proc s prev (fun p => p <| sched_next := nxt |>) in
        Some (if (tails (rqs s).[c]).[prio] =? proc
              then mod_rq s c (fun r => r <| tails := (tails r).[prio <- NULL] |>) else s)
      else remove_walk f s c prio x (sched_next (procs s x)) proc
  end.

Definition scheduler_remove_process (fuel : nat) (s : sched) (proc : Z) : option sched :=
  if proc =? NULL then Some s else
  let c := cpu (procs s proc) in
  let prio := priority (procs s proc) in
  match remove_walk fuel s c prio NULL (queues (rqs s).[c]).[prio] proc with
  | None => None
  | Some s => Some (mod_proc s proc (fun p => p <| sched_next := NULL |> <| state := PROC_DEAD |>))
  end.

(** [scheduler_sleep_on] in two parts: [wq->lock] and the caller's lock are released
    before [rq->lock] is taken, so other CPUs can run in between.  First the process
    that runs is put in front of the wait queue, then the next one gets the CPU. *)
Definition sleep_enqueue (s : sched) (cur w : Z) : sched :=
  let s := mod_proc s cur (fun p => p <| state := PROC_SLEEPING |> <| wq := w |>) in
  let s := mod_proc s cur (fun p => p <| wq_next := wq_head s w |>) in
  set_wq_head s w cur.
Definition sleep_switch (s : sched) (c cur : Z) : option sched :=
  match dequeue_highest s c with
  | None => None
  | Some (s, next) =>
      let next := if next =? NULL then idle_task (rqs s).[c] else next in
      option_map (fun s => emit s (Switch cur next)) (run_next s c next)
  end.
(** Nothing in between; up to the context switch. *)
Definition scheduler_sleep_on (s : sched) (c w : Z) : option sched :=
  let cur := current (rqs s).[c] in
  if cur =? NULL then Some s else sleep_switch (sleep_enqueue s cur w) c cur.

(** [proc->wq_next = NULL; proc->wq = NULL; proc->state = PROC_READY; add] *)
Definition wake (s : sched) (c proc : Z) : sched :=
  scheduler_add_process
    (mod_proc s proc (fun p => p <| wq_next := NULL |> <| wq := NULL |> <| state := PROC_READY |>)) c proc.

Fixpoint wake_list (fuel : nat) (s : sched) (c proc : Z) : option sched :=
  match fuel with
  | O => None
  | S f => if proc =? NULL then Some s else wake_list f (wake s c proc) c (wq_next (procs s proc))
  end.

Definition scheduler_wakeup (fuel : nat) (s : sched) (c w : Z) : option sched :=
  if w =? NULL then Some s else
  wake_list fuel (set_wq_head s w NULL) c (wq_head s w).

Definition scheduler_wakeup_one (s : sched) (c w : Z) : sched :=
  if w =? NULL then s else
  let proc := wq_head s w in
  if negb (proc =? NULL) then wake (set_wq_head s w (wq_next (procs s proc))) c proc else s.

Definition scheduler_get_current (s : sched) (c : Z) : Z :=
  if num_cpus s <=? c then NULL else current (rqs s).[c].

Definition scheduler_set_idle (s : sched) (c idle : Z) : sched :=
  if num_cpus s <=? c then s else mod_rq s c (fun r => r <| idle_task := idle |>).

Fixpoint list_count (fuel : nat) (s : sched) (p : Z) : option Z :=
  match fuel with
  | O => None
  | S f => if p =? NULL then Some 0 else option_map (Z.add 1) (list_count f s (sched_next (procs s p)))
  end.

(** The sum of [list_count] over the given (CPU, queue) pairs *)
Fixpoint load_sum (fuel : nat) (s : sched) (l : list (Z * Z)) : option Z :=
  match l with
  | [] => Some 0
  | (c, q) :: l' =>
      match list_count fuel s (queues (rqs s).[c]).[q], load_sum fuel s l' with
      | Some a, Some b => Some (a + b)
      | _, _ => None
      end
  end.

(** All queues but the idle one, of every CPU *)
Definition load_queues (s : sched) : list (Z * Z) :=
  seqZ 0 (num_cpus s) ≫= fun c => (fun q => (c, q)) <$> seqZ 0 (SCHED_QUEUES - 1).

Definition scheduler_get_load (fuel : nat) (s : sched) : option Z :=
  option_map (fun n => if 1000 <? u32 n then 1000 else u32 n) (load_sum fuel s (load_queues s)).

(** * Well-formed schedulers *)

Definition snext (s : sched) : Z -> Z := fun p => sched_next (procs s p).
Definition wnext (s : sched) : Z -> Z := fun p => wq_next (procs s p).
Definition last_or_null (l : list Z) : Z := default NULL (last l).

(** [Q c q] are the processes in queue [q] of CPU [c], in order. *)
Record qwf (s : sched) (Q : Z -> Z -> list Z) : Prop := {
  qw_cpus : num_cpus s = zlen (rqs s);
  qw_lens : forall c, 0 <= c < num_cpus s ->
    zlen (queues (rqs s).[c]) = 5 /\ zlen (tails (rqs s).[c]) = 5 /\ 0 <= queue_bitmap (rqs s).[c] < 2 ^ 5;
  qw_queue : forall c q, 0 <= c < num_cpus s -> 0 <= q < 5 ->
    chain (snext s) (queues (rqs s).[c]).[q] (Q c q) /\
    (tails (rqs s).[c]).[q] = last_or_null (Q c q) /\
    (Q c q <> [] -> Z.testbit (queue_bitmap (rqs s).[c]) q = true);
  qw_in : forall c q p, p ∈ Q c q ->
    0 <= c < num_cpus s /\ 0 <= q < 5 /\
    cpu (procs s p) = c /\ priority (procs s p) = q /\ state (procs s p) = PROC_READY
}.

(** [W w] are the processes asleep on the wait queue [w]. *)
Record wwf (s : sched) (W : Z -> list Z) : Prop := {
  ww_chain : forall w, chain (wnext s) (wq_head s w) (W w);
  ww_in : forall w p, p ∈ W w ->
    state (procs s p) = PROC_SLEEPING /\ wq (procs s p) = w /\ 0 <= priority (procs s p) < 5
}.

Record cwf (s : sched) (Q : Z -> Z -> list Z) (W : Z -> list Z) : Prop := {
  cw_current : forall c, 0 <= c < num_cpus s -> current (rqs s).[c] <> NULL ->
    cpu (procs s (current (rqs s).[c])) = c /\ 0 <= priority (procs s (current (rqs s).[c])) < 5 /\
    (forall c' q, current (rqs s).[c] ∉ Q c' q) /\ (forall w, current (rqs s).[c] ∉ W w);
  cw_idle : forall c, 0 <= c < num_cpus s -> idle_task (rqs s).[c] <> NULL ->
    cpu (procs s (idle_task (rqs s).[c])) = c /\ 0 <= priority (procs s (idle_task (rqs s).[c])) < 5 /\
    (forall w, idle_task (rqs s).[c] ∉ W w)
}.

Definition sched_wf (s : sched) Q W : Prop := qwf s Q /\ wwf s W /\ cwf s Q W.

Definition Qset (Q : Z -> Z -> list Z) (c q : Z) (l : list Z) : Z -> Z -> list Z :=
  fun c' q' => if (c' =? c) && (q' =? q) then l else Q c' q'.

(** Only queue links changed: processes keep everything but [sched_next], CPUs
    keep everything but their queues. *)
Record links_only (s s' : sched) : Prop := {
  lo_cpus : num_cpus s' = num_cpus s /\ wq_head s' = wq_head s /\ events s' = events s /\
    sched_initialized s' = sched_initialized s;
  lo_proc : forall x, procs s' x = (procs s x) <| sched_next := sched_next (procs s' x) |>;
  lo_rq : forall c, 0 <= c < num_cpus s -> current (rqs s').[c] = current (rqs s).[c] /\
    idle_task (rqs s').[c] = idle_task (rqs s).[c] /\ ticks (rqs s').[c] = ticks (rqs s).[c]
}.

Lemma procs_mod s p f x : procs (mod_proc s p f) x = if x =? p then f (procs s p) else procs s x.
Proof.
  unfold mod_proc. rec_simpl. destruct (Z.eqb_spec x p) as [->|].
  - apply fn_lookup_insert.
  - by apply fn_lookup_insert_ne.
Qed.

Lemma rqs_mod s c f c' : 0 <= c < zlen (rqs s) -> 0 <= c' ->
  (rqs (mod_rq s c f)).[c'] = if c =? c' then f (rqs s).[c] else (rqs s).[c'].
Proof. intros. unfold mod_rq. rec_simpl. by apply aget_aset. Qed.

Lemma zlen_rqs_mod s c f : zlen (rqs (mod_rq s c f)) = zlen (rqs s).
Proof. unfold mod_rq. rec_simpl. apply zlen_aset. Qed.

Lemma last_or_null_snoc l x : last_or_null (l ++ [x]) = x.
Proof. unfold last_or_null. by rewrite last_snoc. Qed.

Lemma last_or_null_elem l : l <> [] -> last_or_null l ∈ l.
Proof.
  intros Hl. destruct (exists_last Hl) as (l' & x & ->). rewrite last_or_null_snoc. set_solver.
Qed.

Lemma Qset_same Q c q l : Qset Q c q l c q = l.
Proof. unfold Qset. by rewrite !Z.eqb_refl. Qed.

Lemma elem_of_Qset Q c q l c' q' p :
  p ∈ Qset Q c q l c' q' <-> (c' = c /\ q' = q /\ p ∈ l) \/ (~ (c' = c /\ q' = q) /\ p ∈ Q c' q').
Proof.
  unfold Qset. destruct (Z.eqb_spec c' c), (Z.eqb_spec q' q); cbn [andb]; naive_solver.
Qed.

Lemma links_only_refl s : links_only s s.
Proof. split; [done| |done]. intros x. by destruct (procs s x). Qed.
Lemma links_only_trans s1 s2 s3 : links_only s1 s2 -> links_only s2 s3 -> links_only s1 s3.
Proof.
  intros [(H1 & H2 & H3 & H4) Hp Hr] [(H1' & H2' & H3' & H4') Hp' Hr']. split; [by split_and!; congruence|..].
  - intros x. by rewrite Hp', Hp.
  - intros c Hc. destruct (Hr c Hc) as (? & ? & ?), (Hr' c ltac:(lia)) as (? & ? & ?). split_and!; congruence.
Qed.

(** A field other than [sched_next] *)
Lemma lo_field {A} (f : pcb -> A) s s' x :
  links_only s s' -> (forall p n, f (p <| sched_next := n |>) = f p) -> f (procs s' x) = f (procs s x).
Proof. intros Hl Hf. rewrite (lo_proc _ _ Hl x). apply Hf. Qed.

Definition lists (Q : Z -> Z -> list Z) (p : Z) : Prop := exists c q, p ∈ Q c q.

(** What [enqueue_process] does to one queue pair of arrays. *)
Lemma enqueue_procs s p x : p <> NULL ->
  let t := (tails (rqs s).[cpu (procs s p)]).[priority (procs s p)] in
  procs (enqueue_process s p) x = (procs s x) <| sched_next :=
    if negb (t =? NULL) && (x =? t) then p else if x =? p then NULL else sched_next (procs s x) |>.
Proof.
  intros Hp. cbv zeta. unfold enqueue_process. cbv zeta. set (c := cpu (procs s p)).
  set (q := priority (procs s p)). set (s1 := mod_proc s p _).
  assert (H1 : forall y, procs s1 y = (procs s y) <| sched_next := if y =? p then NULL else sched_next (procs s y) |>).
  { intros y. unfold s1. rewrite procs_mod. destruct (Z.eqb_spec y p) as [->|]; [done|]. by destruct (procs s y). }
  change (rqs s1) with (rqs s). set (t := (tails (rqs s).[c]).[q]).
  change (procs (mod_rq (mod_rq (if negb (t =? NULL) then mod_proc s1 t (fun p0 => p0 <| sched_next := p |>)
    else mod_rq s1 c (fun r => r <| queues := (queues r).[q <- p] |>)) c
    (fun r => r <| tails := (tails r).[q <- p] |>)) c (fun r => r <| queue_bitmap := bit_set (queue_bitmap r) q |>)) x)
    with (procs (if negb (t =? NULL) then mod_proc s1 t (fun p0 => p0 <| sched_next := p |>)
    else mod_rq s1 c (fun r => r <| queues := (queues r).[q <- p] |>)) x).
  destruct (Z.eqb_spec t NULL) as [Ht|Ht]; cbn [negb andb].
  - change (procs (mod_rq s1 c _) x) with (procs s1 x). apply H1.
  - rewrite procs_mod, !H1. by destruct (Z.eqb_spec x t) as [->|].
Qed.

Definition rq_enqueue (r : runqueue) (q p : Z) : runqueue :=
  mkRq (if (tails r).[q] =? NULL then (queues r).[q <- p] else queues r) ((tails r).[q <- p])
    (bit_set (queue_bitmap r) q) (current r) (idle_task r) (ticks r).

Lemma enqueue_rqs s p c : 0 <= cpu (procs s p) < zlen (rqs s) -> 0 <= c ->
  (rqs (enqueue_process s p)).[c] =
  if cpu (procs s p) =? c then rq_enqueue (rqs s).[c] (priority (procs s p)) p else (rqs s).[c].
Proof.
  intros Hc0 Hc. unfold enqueue_process. cbv zeta. set (c0 := cpu (procs s p)) in *.
  set (q := priority (procs s p)). set (s1 := mod_proc s p _).
  change (rqs s1) with (rqs s). set (t := (tails (rqs s).[c0]).[q]).
  set (s2 := if negb (t =? NULL) then _ else _).
  assert (Hlen : zlen (rqs s2) = zlen (rqs s)).
  { unfold s2. destruct (negb _); [done|]. by rewrite zlen_rqs_mod. }
  rewrite !rqs_mod by (rewrite ?zlen_rqs_mod, ?Hlen; lia). rewrite Z.eqb_refl.
  assert (H2 : forall c', 0 <= c' -> (rqs s2).[c'] = if c0 =? c' then (rqs s).[c0] <| queues :=
    if t =? NULL then (queues (rqs s).[c0]).[q <- p] else queues (rqs s).[c0] |> else (rqs s).[c']).
  { intros c' Hc'. unfold s2. destruct (Z.eqb_spec t NULL); cbn [negb].
    - by rewrite rqs_mod by (change (rqs s1) with (rqs s); lia).
    - change (rqs (mod_proc s1 t _)) with (rqs s). destruct (Z.eqb_spec c0 c') as [<-|]; [|done].
      by destruct ((rqs s).[c0]). }
  rewrite !H2 by lia. rewrite Z.eqb_refl. by destruct (Z.eqb_spec c0 c) as [<-|].
Qed.

Lemma zlen_rqs_enqueue s p : zlen (rqs (enqueue_process s p)) = zlen (rqs s).
Proof.
  unfold enqueue_process. cbv zeta. rewrite !zlen_rqs_mod. destruct (negb _); [done|]. by rewrite zlen_rqs_mod.
Qed.

Lemma enqueue_links_only s p :
  0 <= cpu (procs s p) < num_cpus s -> num_cpus s = zlen (rqs s) -> p <> NULL ->
  links_only s (enqueue_process s p).
Proof.
  intros Hc Hn Hp. split.
  - unfold enqueue_process. cbv zeta. by destruct (negb _).
  - intros x. rewrite enqueue_procs by done. cbv zeta. by destruct (procs s x).
  - intros c' Hc'. rewrite enqueue_rqs by lia. by destruct (Z.eqb_spec (cpu (procs s p)) c') as [<-|].
Qed.

Lemma enqueue_spec s Q p c q :
  qwf s Q -> p <> NULL -> cpu (procs s p) = c -> priority (procs s p) = q ->
  0 <= c < num_cpus s -> 0 <= q < 5 -> state (procs s p) = PROC_READY -> ~ lists Q p ->
  qwf (enqueue_process s p) (Qset Q c q (Q c q ++ [p])).
Proof.
  intros [Hn Hl Hq Hin] Hp Ec Eq Hc Hqr Hst Hnl.
  pose proof (enqueue_links_only s p ltac:(lia) Hn Hp) as Hlo. pose proof Hlo as [(Hncpu & _) _ _].
  assert (HpQ : forall c' q', p ∉ Q c' q') by (intros c' q' ?; apply Hnl; by exists c', q').
  destruct (Hq c q Hc Hqr) as (Hch & Htl & Hbit).
  assert (Hnx : forall x, sched_next (procs (enqueue_process s p) x) =
    if negb (last_or_null (Q c q) =? NULL) && (x =? last_or_null (Q c q)) then p
    else if x =? p then NULL else sched_next (procs s x)).
  { intros x. rewrite enqueue_procs by done. cbv zeta. rewrite Ec, Eq, Htl. done. }
  assert (Hrq : forall c', 0 <= c' -> (rqs (enqueue_process s p)).[c'] =
    if cpu (procs s p) =? c' then rq_enqueue (rqs s).[c'] (priority (procs s p)) p else (rqs s).[c']) by (intros; apply enqueue_rqs; lia).
  rewrite Ec, Eq in Hrq. destruct (Hl c Hc) as (L1 & L2 & L3).
  split.
  - by rewrite Hncpu, zlen_rqs_enqueue.
  - intros c' Hc'. rewrite Hncpu in Hc'. rewrite Hrq by lia. destruct (Z.eqb_spec c c') as [<-|]; [|by apply Hl].
    unfold rq_enqueue. cbn [queues tails queue_bitmap]. split; [|split].
    + destruct ((tails (rqs s).[c]).[q] =? NULL); [by rewrite zlen_aset|done].
    + by rewrite zlen_aset.
    + by apply bit_set_range.
  - intros c' q' Hc' Hq'. rewrite Hncpu in Hc'. rewrite Hrq by lia. destruct (Hq c' q' Hc' Hq') as (Hch' & Htl' & Hbit').
    destruct (Z.eqb_spec c c') as [<-|Hne]; cycle 1.
    { assert (HQ : Qset Q c q (Q c q ++ [p]) c' q' = Q c' q').
      { unfold Qset. by destruct (Z.eqb_spec c' c); [congruence|]. }
      rewrite HQ. split; [|done]. apply (chain_ext (snext s)); [|done]. intros x Hx. unfold snext. rewrite Hnx.
      destruct (Hin c' q' x Hx) as (_ & _ & Hcx & _).
      destruct (Z.eqb_spec (last_or_null (Q c q)) NULL) as [|Hln]; cbn [negb andb].
      - destruct (Z.eqb_spec x p) as [->|]; [by apply HpQ in Hx|done].
      - destruct (Z.eqb_spec x (last_or_null (Q c q))) as [->|].
        + assert (Hne' : Q c q <> []) by (intros E; by rewrite E in Hln).
          apply last_or_null_elem, Hin in Hne' as (_ & _ & ? & _). congruence.
        + destruct (Z.eqb_spec x p) as [->|]; [by apply HpQ in Hx|done]. }
    unfold rq_enqueue. cbn [queues tails queue_bitmap]. destruct (decide (q' = q)) as [->|Hqne].
    + rewrite Qset_same, last_or_null_snoc. split; [|split].
      * rewrite Htl. destruct (Q c q) as [|y l] eqn:EQ.
        { change (last_or_null []) with NULL in *. rewrite Z.eqb_refl in *. cbn [app].
          rewrite aget_aset_eq by lia. apply chain_cons. split; [done|]. split; [done|]. apply chain_nil.
          unfold snext. rewrite Hnx. cbn [negb andb]. by rewrite Z.eqb_refl. }
        assert (Hne : y :: l <> []) by done. destruct (exists_last Hne) as (l' & z & E). rewrite E in *.
        rewrite last_or_null_snoc in *. pose proof Hch as (m & Hs1 & (-> & Hz & Hzn))%seg_app.
        destruct (Z.eqb_spec z NULL); [done|]. rewrite <- app_assoc. apply seg_app. exists z. split.
        -- eapply seg_ext; [|exact Hs1]. intros x Hx. unfold snext. rewrite Hnx. cbn [negb andb].
           pose proof (chain_NoDup _ _ _ Hch) as Hnd. apply NoDup_app in Hnd as (_ & Hnd & _).
           destruct (Z.eqb_spec x z) as [->|]; [exfalso; apply (Hnd z Hx); set_solver|].
           destruct (Z.eqb_spec x p) as [->|]; [|done]. exfalso. apply (HpQ c q). rewrite EQ. set_solver.
        -- change (chain (snext (enqueue_process s p)) z [z; p]).
           assert (Hz1 : snext (enqueue_process s p) z = p).
           { unfold snext. rewrite Hnx. cbn [negb andb]. by rewrite Z.eqb_refl. }
           assert (Hp1 : snext (enqueue_process s p) p = NULL).
           { unfold snext. rewrite Hnx. cbn [negb andb]. destruct (Z.eqb_spec p z) as [<-|].
             - exfalso. apply (HpQ c q). rewrite EQ. set_solver.
             - by rewrite Z.eqb_refl. }
           rewrite !chain_cons, chain_nil, Hz1, Hp1. done.
      * apply aget_aset_eq. lia.
      * intros _. rewrite testbit_bit_set by lia. by rewrite Z.eqb_refl.
    + assert (HQ : Qset Q c q (Q c q ++ [p]) c q' = Q c q').
      { unfold Qset. rewrite Z.eqb_refl. by destruct (Z.eqb_spec q' q). }
      rewrite HQ. split; [|split].
      * assert (Hq0 : (if (tails (rqs s).[c]).[q] =? NULL then (queues (rqs s).[c]).[q <- p] else queues (rqs s).[c]).[q']
          = (queues (rqs s).[c]).[q']).
        { destruct ((tails (rqs s).[c]).[q] =? NULL); [|done]. rewrite aget_aset_ne; [done|lia..]. }
        rewrite Hq0. apply (chain_ext (snext s)); [|done]. intros x Hx. unfold snext. rewrite Hnx.
        destruct (Hin c q' x Hx) as (_ & _ & _ & Hpx & _).
        destruct (Z.eqb_spec (last_or_null (Q c q)) NULL) as [|Hln]; cbn [negb andb].
        -- destruct (Z.eqb_spec x p) as [->|]; [by apply HpQ in Hx|done].
        -- destruct (Z.eqb_spec x (last_or_null (Q c q))) as [->|].
           ++ assert (Hne' : Q c q <> []) by (intros E; by rewrite E in Hln).
              apply last_or_null_elem, Hin in Hne' as (_ & _ & _ & ? & _). congruence.
           ++ destruct (Z.eqb_spec x p) as [->|]; [by apply HpQ in Hx|done].
      * rewrite aget_aset_ne; [done|lia..].
      * intros Hne. rewrite testbit_bit_set by lia. rewrite Hbit' by done. apply orb_true_r.
  - intros c' q' x. rewrite elem_of_Qset. rewrite !(lo_field _ _ _ _ Hlo) by done. rewrite Hncpu.
    intros [(-> & -> & [Hx| ->%list_elem_of_singleton]%elem_of_app)|[_ Hx]];
      [by apply Hin|by split_and!; try lia|by apply Hin].
Qed.

(** [dequeue_highest] takes the first process of the highest non-empty queue. *)
Definition highest (Q : Z -> Z -> list Z) (c : Z) (r : option (Z * Z * list Z)) : Prop :=
  match r with
  | None => forall q, Q c q = []
  | Some (q, p, l) => 0 <= q < 5 /\ Q c q = p :: l /\ forall q', 0 <= q' < q -> Q c q' = []
  end.

Lemma mod_rq_links_only s c f :
  (forall r, current (f r) = current r /\ idle_task (f r) = idle_task r /\ ticks (f r) = ticks r) ->
  0 <= c < zlen (rqs s) -> links_only s (mod_rq s c f).
Proof.
  intros Hf Hc. split; [done| |].
  - intros x. change (procs (mod_rq s c f)) with (procs s). by destruct (procs s x).
  - intros c' Hc'. rewrite rqs_mod by lia. destruct (Z.eqb_spec c c') as [<-|]; [apply Hf|done].
Qed.

(** Clearing the bit of an empty queue. *)
Lemma clear_bit_qwf s Q c q :
  qwf s Q -> 0 <= c < num_cpus s -> 0 <= q < 5 -> Q c q = [] ->
  qwf (mod_rq s c (fun r => r <| queue_bitmap := bit_clear (queue_bitmap r) q |>)) Q.
Proof.
  intros [Hn Hl Hq Hin] Hc Hqr HQ. set (f := fun r : runqueue => _).
  assert (Hrq : forall c', 0 <= c' -> (rqs (mod_rq s c f)).[c'] = if c =? c' then f (rqs s).[c] else (rqs s).[c'])
    by (intros; apply rqs_mod; lia).
  split.
  - by rewrite zlen_rqs_mod.
  - intros c' Hc'. change (num_cpus (mod_rq s c f)) with (num_cpus s) in Hc'. rewrite Hrq by lia.
    destruct (Z.eqb_spec c c') as [<-|]; [|by apply Hl]. destruct (Hl c Hc) as (? & ? & ?).
    unfold f. rec_simpl. split; [done|]. split; [done|]. apply bit_clear_range; lia.
  - intros c' q' Hc' Hq'. change (num_cpus (mod_rq s c f)) with (num_cpus s) in Hc'. rewrite Hrq by lia.
    change (snext (mod_rq s c f)) with (snext s).
    destruct (Z.eqb_spec c c') as [<-|]; [|by apply Hq]. destruct (Hq c q' Hc Hq') as (? & ? & Hb).
    unfold f. rec_simpl. split; [done|]. split; [done|]. intros Hne. rewrite testbit_bit_clear by lia.
    rewrite Hb by done. destruct (Z.eqb_spec q' q) as [->|]; [done|done].
  - apply Hin.
Qed.

(** Taking the head of queue [q]. *)
Definition take_head (s : sched) (c prio proc : Z) : sched :=
  let nxt := sched_next (procs s proc) in
  let s := mod_rq s c (fun r => r <| queues := (queues r).[prio <- nxt] |>) in
  let s :=
    if nxt =? NULL then
      mod_rq s c (fun r => r <| tails := (tails r).[prio <- NULL] |>
                             <| queue_bitmap := bit_clear (queue_bitmap r) prio |>)
    else s in
  mod_proc s proc (fun p => p <| sched_next := NULL |>).

Definition rq_take (r : runqueue) (q nxt : Z) : runqueue :=
  mkRq ((queues r).[q <- nxt]) (if nxt =? NULL then (tails r).[q <- NULL] else tails r)
    (if nxt =? NULL then bit_clear (queue_bitmap r) q else queue_bitmap r) (current r) (idle_task r) (ticks r).

Lemma take_head_rqs s c q p c' : 0 <= c < zlen (rqs s) -> 0 <= c' ->
  (rqs (take_head s c q p)).[c'] = if c =? c' then rq_take (rqs s).[c] q (sched_next (procs s p)) else (rqs s).[c'].
Proof.
  intros Hc Hc'. unfold take_head, rq_take. cbv zeta. destruct (sched_next (procs s p) =? NULL);
    change (rqs (mod_proc ?s' _ _)) with (rqs s'); rewrite !rqs_mod by (rewrite ?zlen_rqs_mod; lia);
    rewrite ?Z.eqb_refl; by destruct (Z.eqb_spec c c').
Qed.

Lemma take_head_procs s c q p x :
  procs (take_head s c q p) x = if x =? p then (procs s p) <| sched_next := NULL |> else procs s x.
Proof.
  unfold take_head. cbv zeta. destruct (sched_next (procs s p) =? NULL); by rewrite procs_mod.
Qed.

Lemma zlen_rqs_take s c q p : zlen (rqs (take_head s c q p)) = zlen (rqs s).
Proof.
  unfold take_head. cbv zeta. destruct (_ =? NULL);
    change (rqs (mod_proc ?s' _ _)) with (rqs s'); by rewrite !zlen_rqs_mod.
Qed.

Lemma take_head_links_only s c q p : 0 <= c < zlen (rqs s) -> links_only s (take_head s c q p).
Proof.
  intros Hc. split.
  - unfold take_head. cbv zeta. by destruct (_ =? NULL).
  - intros x. rewrite take_head_procs. destruct (Z.eqb_spec x p) as [->|]; [done|]. by destruct (procs s x).
  - intros c' Hc'. rewrite take_head_rqs by lia. by destruct (Z.eqb_spec c c') as [<-|].
Qed.

Lemma take_head_qwf s Q c q p l :
  qwf s Q -> 0 <= c < num_cpus s -> 0 <= q < 5 -> Q c q = p :: l ->
  qwf (take_head s c q p) (Qset Q c q l).
Proof.
  intros [Hn Hl Hq Hin] Hc Hqr HQ.
  pose proof (take_head_links_only s c q p ltac:(lia)) as Hlo.
  destruct (Hq c q Hc Hqr) as (Hch & Htl & _). rewrite HQ in Hch, Htl.
  pose proof (chain_NoDup _ _ _ Hch) as Hnd. apply NoDup_cons in Hnd as [Hpl Hnd].
  apply chain_cons in Hch as (Hhd & Hp0 & Hch). change (snext s p) with (sched_next (procs s p)) in Hch.
  assert (Hnull : sched_next (procs s p) = NULL <-> l = []).
  { split; intros E; [|by rewrite E in Hch]. rewrite E in Hch. by apply chain_null in Hch. }
  assert (Hnx : forall x, x <> p -> snext (take_head s c q p) x = snext s x).
  { intros x Hx. unfold snext. rewrite take_head_procs. by destruct (Z.eqb_spec x p). }
  destruct (Hl c Hc) as (L1 & L2 & L3). pose proof (lo_cpus _ _ Hlo) as (Hncpu & _). split.
  - by rewrite Hncpu, zlen_rqs_take.
  - intros c' Hc'. rewrite Hncpu in Hc'. rewrite take_head_rqs by lia.
    destruct (Z.eqb_spec c c') as [<-|]; [|by apply Hl]. unfold rq_take. cbn [queues tails queue_bitmap].
    destruct (sched_next (procs s p) =? NULL); rewrite !zlen_aset; (split; [done|]); (split; [done|]);
      [apply bit_clear_range|]; lia.
  - intros c' q' Hc' Hq'. rewrite Hncpu in Hc'. rewrite take_head_rqs by lia.
    destruct (Hq c' q' Hc' Hq') as (Hch' & Htl' & Hbit').
    assert (Hother : ~ (c' = c /\ q' = q) -> chain (snext (take_head s c q p)) (queues (rqs s).[c']).[q'] (Q c' q')).
    { intros Hne. apply (chain_ext (snext s)); [|done]. intros x Hx. symmetry. apply Hnx. intros ->.
      destruct (Hin c' q' p Hx) as (_ & _ & E1 & E2 & _).
      destruct (Hin c q p) as (_ & _ & E3 & E4 & _); [rewrite HQ; set_solver|]. apply Hne. by subst. }
    destruct (Z.eqb_spec c c') as [<-|Hne]; cycle 1.
    { assert (HQ' : Qset Q c q l c' q' = Q c' q').
      { unfold Qset. by destruct (Z.eqb_spec c' c); [congruence|]. }
      rewrite HQ'. split; [|done]. apply Hother. naive_solver. }
    unfold rq_take. cbn [queues tails queue_bitmap]. destruct (decide (q' = q)) as [->|Hqne].
    + rewrite Qset_same, aget_aset_eq by lia. split; [|split].
      * apply (chain_ext (snext s)); [|done]. intros x Hx. symmetry. apply Hnx. by intros ->.
      * destruct (Z.eqb_spec (sched_next (procs s p)) NULL) as [E|E].
        -- rewrite aget_aset_eq by lia. apply Hnull in E as ->. done.
        -- rewrite Htl. destruct l as [|y l]; [by destruct E; apply Hnull|]. done.
      * intros Hne. destruct (Z.eqb_spec (sched_next (procs s p)) NULL) as [E|E].
        -- by apply Hnull in E.
        -- apply Hbit'. by rewrite HQ.
    + assert (HQ' : Qset Q c q l c q' = Q c q').
      { unfold Qset. rewrite Z.eqb_refl. by destruct (Z.eqb_spec q' q). }
      rewrite HQ', aget_aset_ne by lia. split; [apply Hother; naive_solver|].
      destruct (sched_next (procs s p) =? NULL); [|done]. rewrite aget_aset_ne by lia. split; [done|].
      intros Hne. rewrite testbit_bit_clear by lia. rewrite Hbit' by done. by destruct (Z.eqb_spec q' q).
  - intros c' q' x. rewrite elem_of_Qset, !(lo_field _ _ _ _ Hlo) by done. rewrite Hncpu.
    intros [(-> & -> & Hx)|[_ Hx]]; apply Hin; [rewrite HQ; set_solver|done].
Qed.

Lemma dequeue_loop_spec fuel s Q c :
  qwf s Q -> 0 <= c < num_cpus s ->
  (length (filter (fun q => Z.testbit (queue_bitmap (rqs s).[c]) q = true) (seqZ 0 5)) < fuel)%nat ->
  exists s' p r, dequeue_loop fuel s c = Some (s', p) /\ links_only s s' /\ highest Q c r /\
    match r with
    | None => p = NULL /\ qwf s' Q
    | Some (q, p', l) => p = p' /\ p <> NULL /\ qwf s' (Qset Q c q l)
    end.
Proof.
  revert s. induction fuel as [|fuel IH]; intros s Hwf Hc Hf; [lia|]. cbn [dequeue_loop]. cbv zeta.
  pose proof Hwf as [Hn Hl Hq Hin]. destruct (Hl c Hc) as (L1 & L2 & L3).
  set (bm := queue_bitmap (rqs s).[c]) in *.
  destruct (Z.eqb_spec bm 0) as [E0|E0].
  { exists s, NULL, None. split; [done|]. split; [apply links_only_refl|]. split; [|done].
    intros q. destruct (Q c q) as [|p l] eqn:EQ; [done|]. exfalso.
    destruct (Hin c q p) as (_ & Hqr & _); [rewrite EQ; set_solver|].
    destruct (Hq c q Hc Hqr) as (_ & _ & Hb). fold bm in Hb. rewrite E0, Z.bits_0, EQ in Hb. by specialize (Hb ltac:(done)). }
  destruct (ctz_spec bm) as (Hz0 & Hzb & Hzl); [lia|]. pose proof (ctz_range bm 5 ltac:(lia) ltac:(lia)) as Hzr.
  set (q := ctz bm) in *. destruct (Hq c q Hc Hzr) as (Hch & Htl & _).
  destruct (Q c q) as [|p l] eqn:EQ.
  - apply chain_nil in Hch. rewrite Hch, Z.eqb_refl.
    set (f := fun r : runqueue => _). pose proof (clear_bit_qwf s Q c q Hwf Hc Hzr EQ) as Hwf1. fold f in Hwf1.
    assert (Hr1 : queue_bitmap (rqs (mod_rq s c f)).[c] = bit_clear bm q).
    { rewrite rqs_mod by lia. by rewrite Z.eqb_refl. }
    assert (Hlo1 : links_only s (mod_rq s c f)) by (apply mod_rq_links_only; [by intros []|lia]).
    destruct (IH (mod_rq s c f) Hwf1 Hc) as (s' & p & r & E & Hlo & Hhi & Hr).
    + rewrite Hr1. rewrite (length_filter_drop _ (fun q' => Z.testbit (bit_clear bm q) q' = true) _ q) in Hf.
      * lia.
      * apply NoDup_seqZ.
      * apply elem_of_seqZ. lia.
      * done.
      * rewrite testbit_bit_clear by lia. by rewrite Z.eqb_refl.
      * intros x Hx%elem_of_seqZ Hne. rewrite testbit_bit_clear by lia. by destruct (Z.eqb_spec x q).
    + exists s', p, r. split; [done|]. split; [by eapply links_only_trans|]. by split.
  - pose proof Hch as (Hhd & Hp0 & _). rewrite Hhd. destruct (Z.eqb_spec p NULL); [done|].
    exists (take_head s c q p), p, (Some (q, p, l)). split; [done|].
    split; [apply take_head_links_only; lia|]. split; [|split; [done|split; [done|by apply take_head_qwf]]].
    split; [done|]. split; [done|]. intros q' Hq'. destruct (Q c q') as [|x l'] eqn:EQ'; [done|]. exfalso.
    destruct (Hq c q' Hc ltac:(lia)) as (_ & _ & Hb). fold bm in Hb. rewrite Hzl, EQ' in Hb by lia. by specialize (Hb ltac:(done)).
Qed.

Lemma dequeue_spec s Q c :
  qwf s Q -> 0 <= c < num_cpus s ->
  exists s' p r, dequeue_highest s c = Some (s', p) /\ links_only s s' /\ highest Q c r /\
    match r with
    | None => p = NULL /\ qwf s' Q
    | Some (q, p', l) => p = p' /\ p <> NULL /\ qwf s' (Qset Q c q l)
    end.
Proof.
  intros Hwf Hc. apply dequeue_loop_spec; [done|done|].
  pose proof (length_filter (fun q => Z.testbit (queue_bitmap (rqs s).[c]) q = true) (seqZ 0 5)) as Hle.
  rewrite length_seqZ in Hle. lia.
Qed.

(** * Changing one process *)

Lemma qwf_ext s Q Q' : (forall c q, Q c q = Q' c q) -> qwf s Q -> qwf s Q'.
Proof.
  intros HQ [Hn Hl Hq Hin]. split; [done|done|..].
  - intros c q. rewrite <- HQ. apply Hq.
  - intros c q p. rewrite <- HQ. apply Hin.
Qed.

Lemma qwf_mod_other s Q p f : qwf s Q -> ~ lists Q p -> qwf (mod_proc s p f) Q.
Proof.
  intros [Hn Hl Hq Hin] Hp.
  assert (Hx : forall c q x, x ∈ Q c q -> procs (mod_proc s p f) x = procs s x).
  { intros c q x Hx. rewrite procs_mod. destruct (Z.eqb_spec x p) as [->|]; [|done].
    exfalso. apply Hp. by exists c, q. }
  split; [done|done|..].
  - intros c q Hc Hqr. destruct (Hq c q Hc Hqr) as (Hch & ?). split; [|done].
    apply (chain_ext (snext s)); [|done]. intros x Hxq. unfold snext. by rewrite (Hx c q).
  - intros c q x Hxq. rewrite (Hx c q) by done. by apply Hin.
Qed.

Lemma qwf_mod_same s Q p f :
  qwf s Q -> (forall b, sched_next (f b) = sched_next b /\ cpu (f b) = cpu b /\
    priority (f b) = priority b /\ state (f b) = state b) -> qwf (mod_proc s p f) Q.
Proof.
  intros [Hn Hl Hq Hin] Hf.
  assert (Hx : forall x, sched_next (procs (mod_proc s p f) x) = sched_next (procs s x) /\
    cpu (procs (mod_proc s p f) x) = cpu (procs s x) /\
    priority (procs (mod_proc s p f) x) = priority (procs s x) /\
    state (procs (mod_proc s p f) x) = state (procs s x)).
  { intros x. rewrite procs_mod. destruct (Z.eqb_spec x p) as [->|]; [apply Hf|done]. }
  split; [done|done|..].
  - intros c q Hc Hqr. destruct (Hq c q Hc Hqr) as (Hch & ?). split; [|done].
    apply (chain_ext (snext s)); [|done]. intros x Hxq. unfold snext. by destruct (Hx x) as [-> _].
  - intros c q x Hxq. destruct (Hx x) as (_ & -> & -> & ->). by apply Hin.
Qed.

Lemma wwf_mod_other s W p f : wwf s W -> (forall w, p ∉ W w) -> wwf (mod_proc s p f) W.
Proof.
  intros [Hc Hin] Hp.
  assert (Hx : forall w x, x ∈ W w -> procs (mod_proc s p f) x = procs s x).
  { intros w x Hx. rewrite procs_mod. destruct (Z.eqb_spec x p) as [->|]; [by apply Hp in Hx|done]. }
  split.
  - intros w. apply (chain_ext (wnext s)); [|apply Hc]. intros x Hxw. unfold wnext. by rewrite (Hx w).
  - intros w x Hxw. rewrite (Hx w) by done. by apply Hin.
Qed.

Lemma wwf_proj s s' W :
  wwf s W -> wq_head s' = wq_head s ->
  (forall x, wq_next (procs s' x) = wq_next (procs s x) /\ state (procs s' x) = state (procs s x) /\
    wq (procs s' x) = wq (procs s x) /\ priority (procs s' x) = priority (procs s x)) -> wwf s' W.
Proof.
  intros [Hc Hin] Hh Hx. split.
  - intros w. rewrite Hh. apply (chain_ext (wnext s)); [|apply Hc]. intros x _. unfold wnext.
    by destruct (Hx x) as [-> _].
  - intros w x Hxw. destruct (Hx x) as (_ & -> & -> & ->). by apply Hin.
Qed.

Lemma wwf_links s s' W : wwf s W -> links_only s s' -> wwf s' W.
Proof.
  intros Hw Hlo. apply (wwf_proj s); [done|apply Hlo|]. intros x. rewrite (lo_proc _ _ Hlo x). by split_and!.
Qed.

(** [cwf] looks at [cpu] and [priority] of the running and idle processes only. *)
Lemma cwf_proj_prio s s' Q Q' W W' :
  cwf s Q W -> num_cpus s' = num_cpus s ->
  (forall x, cpu (procs s' x) = cpu (procs s x) /\
    (0 <= priority (procs s x) < 5 -> 0 <= priority (procs s' x) < 5)) ->
  (forall c, 0 <= c < num_cpus s -> current (rqs s').[c] = current (rqs s).[c] /\
    idle_task (rqs s').[c] = idle_task (rqs s).[c]) ->
  (forall c q p, p ∈ Q' c q -> lists Q p) -> (forall w p, p ∈ W' w -> exists w', p ∈ W w') ->
  cwf s' Q' W'.
Proof.
  intros [Hcur Hidle] Hn Hx Hr HQ HW. split; intros c; rewrite Hn; intros Hc; destruct (Hr c Hc) as [E1 E2].
  - rewrite E1. intros Hne. destruct (Hcur c Hc Hne) as (? & ? & Hq & Hw).
    destruct (Hx (current (rqs s).[c])) as [-> Hp]. split; [done|]. split; [by apply Hp|]. split.
    + intros c' q (c2 & q2 & ?)%HQ. by apply (Hq c2 q2).
    + intros w (w' & ?)%HW. by apply (Hw w').
  - rewrite E2. intros Hne. destruct (Hidle c Hc Hne) as (? & ? & Hw).
    destruct (Hx (idle_task (rqs s).[c])) as [-> Hp]. split; [done|]. split; [by apply Hp|].
    intros w (w' & ?)%HW. by apply (Hw w').
Qed.

Lemma cwf_proj s s' Q Q' W W' :
  cwf s Q W -> num_cpus s' = num_cpus s ->
  (forall x, cpu (procs s' x) = cpu (procs s x) /\ priority (procs s' x) = priority (procs s x)) ->
  (forall c, 0 <= c < num_cpus s -> current (rqs s').[c] = current (rqs s).[c] /\
    idle_task (rqs s').[c] = idle_task (rqs s).[c]) ->
  (forall c q p, p ∈ Q' c q -> lists Q p) -> (forall w p, p ∈ W' w -> exists w', p ∈ W w') ->
  cwf s' Q' W'.
Proof.
  intros Hc Hn Hx. apply (cwf_proj_prio s); [done|done|]. intros x. by destruct (Hx x) as [-> ->].
Qed.

(** ** [run_next] *)

Lemma qwf_mod_rq s Q c f :
  qwf s Q -> 0 <= c < num_cpus s ->
  (forall r, queues (f r) = queues r /\ tails (f r) = tails r /\ queue_bitmap (f r) = queue_bitmap r) ->
  qwf (mod_rq s c f) Q.
Proof.
  intros [Hn Hl Hq Hin] Hc Hf.
  assert (Hr : forall c', 0 <= c' -> queues (rqs (mod_rq s c f)).[c'] = queues (rqs s).[c'] /\
    tails (rqs (mod_rq s c f)).[c'] = tails (rqs s).[c'] /\
    queue_bitmap (rqs (mod_rq s c f)).[c'] = queue_bitmap (rqs s).[c']).
  { intros c' Hc'. rewrite rqs_mod by lia. destruct (Z.eqb_spec c c') as [<-|]; [apply Hf|done]. }
  split.
  - by rewrite zlen_rqs_mod.
  - intros c' Hc'. destruct (Hr c') as (-> & -> & ->); [lia|]. by apply Hl.
  - intros c' q Hc' Hqr. destruct (Hr c') as (-> & -> & ->); [lia|]. by apply Hq.
  - done.
Qed.

Lemma run_next_spec s Q W c next s' :
  qwf s Q -> wwf s W -> 0 <= c < num_cpus s ->
  (forall c', 0 <= c' < num_cpus s -> c' <> c -> current (rqs s).[c'] <> NULL ->
     cpu (procs s (current (rqs s).[c'])) = c' /\ 0 <= priority (procs s (current (rqs s).[c'])) < 5 /\
     ~ lists Q (current (rqs s).[c']) /\ forall w, current (rqs s).[c'] ∉ W w) ->
  (forall c', 0 <= c' < num_cpus s -> idle_task (rqs s).[c'] <> NULL ->
     cpu (procs s (idle_task (rqs s).[c'])) = c' /\ 0 <= priority (procs s (idle_task (rqs s).[c'])) < 5 /\
     forall w, idle_task (rqs s).[c'] ∉ W w) ->
  cpu (procs s next) = c -> 0 <= priority (procs s next) < 5 -> ~ lists Q next -> (forall w, next ∉ W w) ->
  run_next s c next = Some s' ->
  sched_wf s' Q W /\ current (rqs s').[c] = next /\ state (procs s' next) = PROC_RUNNING /\
  time_slice (procs s' next) = time_quantum.[priority (procs s next)] /\ events s' = events s /\
  (forall c', 0 <= c' < num_cpus s -> c' <> c -> (rqs s').[c'] = (rqs s).[c']) /\
  (forall x, x <> next -> procs s' x = procs s x).
Proof.
  intros Hq Hw Hc Hothers Hidle Hcpu Hprio HnQ HnW. unfold run_next. destruct (next =? NULL); [done|].
  set (s1 := mod_rq s c _). set (f := fun p : pcb => _). intros [= <-].
  pose proof (qw_cpus _ _ Hq) as Hn.
  assert (Hr1 : forall c', 0 <= c' -> (rqs s1).[c'] = if c =? c' then (rqs s).[c] <| current := next |> else (rqs s).[c']).
  { intros c' Hc'. apply rqs_mod; lia. }
  assert (Hf : forall x, procs (mod_proc s1 next f) x = if x =? next then f (procs s next) else procs s x)
    by (intros x; by rewrite procs_mod).
  assert (Hcp : forall x, cpu (procs (mod_proc s1 next f) x) = cpu (procs s x) /\
    priority (procs (mod_proc s1 next f) x) = priority (procs s x)).
  { intros x. rewrite Hf. destruct (Z.eqb_spec x next) as [->|]; [|done]. by split. }
  split; [split; [|split]|].
  - apply qwf_mod_other; [|done]. by apply qwf_mod_rq.
  - apply wwf_mod_other; [by apply (wwf_proj s)|done].
  - split; intros c' Hc'; change (num_cpus (mod_proc s1 next f)) with (num_cpus s) in Hc';
      change (rqs (mod_proc s1 next f)) with (rqs s1); rewrite Hr1 by lia.
    + destruct (Z.eqb_spec c c') as [<-|Hne].
      * change (current _) with next. intros _. destruct (Hcp next) as [-> ->].
        split; [done|]. split; [done|]. split; [|done]. intros c2 q2 ?. apply HnQ. by exists c2, q2.
      * intros Hnn. destruct (Hothers c' Hc' (not_eq_sym Hne) Hnn) as (? & ? & HnQ' & HW).
        destruct (Hcp (current (rqs s).[c'])) as [-> ->].
        split; [done|]. split; [done|]. split; [|done]. intros c2 q2 ?. apply HnQ'. by exists c2, q2.
    + destruct (Z.eqb_spec c c') as [<-|Hne].
      * change (idle_task (_ <| current := next |>)) with (idle_task (rqs s).[c]). intros Hnn.
        destruct (Hcp (idle_task (rqs s).[c])) as [-> ->]. by apply Hidle.
      * intros Hnn. destruct (Hcp (idle_task (rqs s).[c'])) as [-> ->]. by apply Hidle.
  - change (rqs (mod_proc s1 next f)) with (rqs s1). split; [rewrite Hr1 by lia; by rewrite Z.eqb_refl|].
    rewrite Hf, Z.eqb_refl. split; [done|]. split; [done|]. split; [done|]. split.
    + intros c' Hc' Hne. rewrite Hr1 by lia. by destruct (Z.eqb_spec c c'); [congruence|].
    + intros x Hx. rewrite Hf. by destruct (Z.eqb_spec x next).
Qed.

(** ** Requeuing the current process and taking the next one *)

Definition appended (s : sched) (Q : Z -> Z -> list Z) (p : Z) : Z -> Z -> list Z :=
  let c := cpu (procs s p) in
  let q := priority (procs s p) in
  Qset Q c q (Q c q ++ [p]).

(** [next] is the head of the highest queue after [p] was appended to its own,
    and [Q'] what remains. *)
Definition rotated (s : sched) (Q : Z -> Z -> list Z) (c p next : Z) (Q' : Z -> Z -> list Z) : Prop :=
  exists q l, highest (appended s Q p) c (Some (q, next, l)) /\ Q' = Qset (appended s Q p) c q l.

Lemma elem_of_appended s Q p c q x : x ∈ appended s Q p c q ->
  x ∈ Q c q \/ (x = p /\ c = cpu (procs s p) /\ q = priority (procs s p)).
Proof.
  unfold appended. cbv zeta. rewrite elem_of_Qset.
  intros [(-> & -> & [?| ->%list_elem_of_singleton]%elem_of_app)|[_ ?]]; auto.
Qed.

Lemma in_appended s Q p : p ∈ appended s Q p (cpu (procs s p)) (priority (procs s p)).
Proof. unfold appended. cbv zeta. rewrite Qset_same. set_solver. Qed.

(** What [scheduler_tick] and [scheduler_yield] share: [cur], already marked
    ready, is appended and the next process taken. *)
Lemma requeue_spec s Q W c :
  let cur := current (rqs s).[c] in
  let s1 := mod_proc s cur (fun p => p <| state := PROC_READY |>) in
  sched_wf s Q W -> 0 <= c < num_cpus s -> cur <> NULL ->
  exists s2 next Q2, dequeue_highest (enqueue_process s1 cur) c = Some (s2, next) /\
    links_only s1 s2 /\ next <> NULL /\ rotated s Q c cur next Q2 /\ qwf s2 Q2 /\
    ~ lists Q2 next /\ cpu (procs s next) = c /\ 0 <= priority (procs s next) < 5 /\
    (forall c' q p, p ∈ Q2 c' q -> p ∈ appended s Q cur c' q) /\ (forall w, next ∉ W w).
Proof.
  intros cur s1 (Hq & Hw & Hcw) Hc Hcur.
  destruct (cw_current _ _ _ Hcw c Hc Hcur) as (Hcpu & Hpr & HnQ & HnW). fold cur in Hcpu, Hpr, HnQ, HnW.
  assert (Hnl : ~ lists Q cur) by (intros (c' & q' & ?); by apply (HnQ c' q')).
  assert (Hq1 : qwf s1 Q) by (by apply qwf_mod_other).
  assert (Hp1 : forall x, cpu (procs s1 x) = cpu (procs s x) /\ priority (procs s1 x) = priority (procs s x)).
  { intros x. unfold s1. rewrite procs_mod. destruct (Z.eqb_spec x cur) as [->|]; by split. }
  destruct (Hp1 cur) as [Ec Ep].
  assert (Happ : appended s1 Q cur = appended s Q cur) by (unfold appended; by rewrite Ec, Ep).
  assert (Hq2 : qwf (enqueue_process s1 cur) (appended s Q cur)).
  { unfold appended. cbv zeta. apply enqueue_spec; try done; try congruence.
    - by rewrite Hcpu.
    - unfold s1. rewrite procs_mod. by rewrite Z.eqb_refl. }
  assert (Hlo1 : links_only s1 (enqueue_process s1 cur)).
  { apply enqueue_links_only; [rewrite Ec, Hcpu; done|apply Hq1|done]. }
  pose proof (lo_cpus _ _ Hlo1) as (Hn1 & _).
  destruct (dequeue_spec (enqueue_process s1 cur) (appended s Q cur) c Hq2) as (s2 & next & r & E & Hlo2 & Hhi & Hr);
    [by rewrite Hn1|].
  destruct r as [[[q next'] l]|].
  - destruct Hr as (<- & Hnn & Hq3). exists s2, next, (Qset (appended s Q cur) c q l).
    destruct Hhi as (Hqr & HQ & Hlt).
    assert (Hnin : next ∈ appended s Q cur c q) by (rewrite HQ; set_solver).
    destruct (qw_in _ _ Hq2 c q next Hnin) as (_ & _ & Hcn & Hpn & _).
    rewrite (lo_field cpu _ _ _ Hlo1) in Hcn by done. rewrite (lo_field priority _ _ _ Hlo1) in Hpn by done. destruct (Hp1 next) as [E1 E2]. rewrite E1 in Hcn. rewrite E2 in Hpn.
    split; [done|]. split; [by eapply links_only_trans|]. split; [done|]. split; [by exists q, l|]. split; [done|].
    split; [|split; [done|split; [by rewrite Hpn|split]]].
    + intros (c' & q' & Hx). apply elem_of_Qset in Hx as [(-> & -> & Hx)|[Hne Hx]].
      * destruct (qw_queue _ _ Hq2 c q) as (Hch & _); [by rewrite Hn1|done|]. rewrite HQ in Hch.
        apply chain_NoDup, NoDup_cons in Hch as [? _]. done.
      * destruct (qw_in _ _ Hq2 c' q' next Hx) as (_ & _ & Hc' & Hq' & _).
        rewrite (lo_field cpu _ _ _ Hlo1) in Hc' by done. rewrite (lo_field priority _ _ _ Hlo1) in Hq' by done. rewrite E1 in Hc'. rewrite E2 in Hq'. apply Hne. split; congruence.
    + intros c' q' p. rewrite elem_of_Qset. intros [(-> & -> & Hx)|[_ Hx]]; [rewrite HQ; set_solver|done].
    + intros w Hx. destruct (ww_in _ _ Hw w next Hx) as (Hsl & _).
      destruct (elem_of_appended _ _ _ _ _ _ Hnin) as [Hx'|(-> & _)]; [|by apply HnW in Hx].
      apply (qw_in _ _ Hq) in Hx' as (_ & _ & _ & _ & Hrd). congruence.
  - destruct Hr as [-> _]. exfalso. specialize (Hhi (priority (procs s cur))).
    pose proof (in_appended s Q cur) as Hx. rewrite Hcpu, Hhi in Hx. by apply not_elem_of_nil in Hx.
Qed.

(** After [requeue_spec], switching to another process. *)
Lemma switch_spec s Q W c s2 next Q2 :
  let cur := current (rqs s).[c] in
  let s1 := mod_proc s cur (fun p => p <| state := PROC_READY |>) in
  sched_wf s Q W -> 0 <= c < num_cpus s -> cur <> NULL ->
  links_only s1 s2 -> next <> NULL -> qwf s2 Q2 -> ~ lists Q2 next ->
  cpu (procs s next) = c -> 0 <= priority (procs s next) < 5 ->
  (forall c' q p, p ∈ Q2 c' q -> p ∈ appended s Q cur c' q) -> (forall w, next ∉ W w) ->
  exists s3, run_next s2 c next = Some s3 /\ sched_wf s3 Q2 W /\ current (rqs s3).[c] = next /\
    state (procs s3 next) = PROC_RUNNING /\
    time_slice (procs s3 next) = time_quantum.[priority (procs s next)] /\ events s3 = events s /\
    (next <> cur -> state (procs s3 cur) = PROC_READY).
Proof.
  intros cur s1 (Hq & Hw & Hcw) Hc Hcur Hlo Hnn Hq2 HnQ Hcn Hpn Hsub HnW.
  destruct (cw_current _ _ _ Hcw c Hc Hcur) as (Hcpu & Hpr & _ & HcW). fold cur in Hcpu, Hpr, HcW.
  pose proof (lo_cpus _ _ Hlo) as (Hn & Hwq & Hev & _).
  change (num_cpus s1) with (num_cpus s) in Hn. change (events s1) with (events s) in Hev.
  assert (Hp : forall x, cpu (procs s2 x) = cpu (procs s x) /\ priority (procs s2 x) = priority (procs s x)).
  { intros x. rewrite (lo_field cpu _ _ _ Hlo), (lo_field priority _ _ _ Hlo) by done. unfold s1. rewrite procs_mod.
    destruct (Z.eqb_spec x cur) as [->|]; by split. }
  assert (Hrq : forall c', 0 <= c' < num_cpus s -> current (rqs s2).[c'] = current (rqs s).[c'] /\
    idle_task (rqs s2).[c'] = idle_task (rqs s).[c']).
  { intros c' Hc'. by destruct (lo_rq _ _ Hlo c' Hc') as (-> & -> & _). }
  assert (Hw2 : wwf s2 W).
  { apply (wwf_links s1); [|done]. by apply wwf_mod_other. }
  destruct (run_next s2 c next) as [s3|] eqn:E; [|by unfold run_next in E; destruct (Z.eqb_spec next NULL)].
  destruct (Hp next) as [E1 E2].
  destruct (run_next_spec s2 Q2 W c next s3) as (Hwf & Hcu & Hst & Hts & Hev3 & Hoth & Hpr3); try done.
  - by rewrite Hn.
  - intros c' Hc' Hne. rewrite Hn in Hc'. destruct (Hrq c' Hc') as [-> _]. intros Hnn'.
    destruct (cw_current _ _ _ Hcw c' Hc' Hnn') as (Hcc & Hcp & HnQ' & HnW').
    destruct (Hp (current (rqs s).[c'])) as [-> ->]. split; [done|]. split; [done|]. split; [|done].
    intros (c2 & q2 & Hx). apply Hsub, elem_of_appended in Hx as [Hx|(Hx & _)]; [by apply HnQ' in Hx|].
    apply Hne. rewrite <- Hcc, Hx. done.
  - intros c' Hc'. rewrite Hn in Hc'. destruct (Hrq c' Hc') as [_ ->]. intros Hnn'.
    destruct (Hp (idle_task (rqs s).[c'])) as [-> ->]. by apply (cw_idle _ _ _ Hcw).
  - congruence.
  - by rewrite E2.
  - exists s3. split; [done|]. split; [done|]. split; [done|]. split; [done|]. split; [congruence|].
    split; [congruence|]. intros Hne. rewrite Hpr3 by done. rewrite (lo_field state _ _ _ Hlo) by done.
    unfold s1. rewrite procs_mod. by rewrite Z.eqb_refl.
Qed.

(** The current process goes on when it is the next one itself. *)
Lemma stay_spec s Q W c s2 Q2 f :
  let cur := current (rqs s).[c] in
  let s1 := mod_proc s cur (fun p => p <| state := PROC_READY |>) in
  sched_wf s Q W -> 0 <= c < num_cpus s -> cur <> NULL ->
  links_only s1 s2 -> qwf s2 Q2 -> ~ lists Q2 cur ->
  (forall c' q p, p ∈ Q2 c' q -> p ∈ appended s Q cur c' q) ->
  (forall b, cpu (f b) = cpu b /\ priority (f b) = priority b) ->
  sched_wf (mod_proc s2 cur f) Q2 W /\
  (forall c', 0 <= c' < num_cpus s -> current (rqs (mod_proc s2 cur f)).[c'] = current (rqs s).[c'] /\
    idle_task (rqs (mod_proc s2 cur f)).[c'] = idle_task (rqs s).[c'] /\
    ticks (rqs (mod_proc s2 cur f)).[c'] = ticks (rqs s).[c']) /\
  events (mod_proc s2 cur f) = events s /\ num_cpus (mod_proc s2 cur f) = num_cpus s.
Proof.
  intros cur s1 (Hq & Hw & Hcw) Hc Hcur Hlo Hq2 HnQ Hsub Hf.
  destruct (cw_current _ _ _ Hcw c Hc Hcur) as (_ & _ & _ & HcW). fold cur in HcW.
  pose proof (lo_cpus _ _ Hlo) as (Hn & Hwq & Hev & _).
  change (num_cpus s1) with (num_cpus s) in Hn. change (events s1) with (events s) in Hev.
  assert (Hrq : forall c', 0 <= c' < num_cpus s -> current (rqs s2).[c'] = current (rqs s).[c'] /\
    idle_task (rqs s2).[c'] = idle_task (rqs s).[c'] /\ ticks (rqs s2).[c'] = ticks (rqs s).[c']).
  { intros c' Hc'. by apply (lo_rq _ _ Hlo c' Hc'). }
  split; [split; [|split]|by split].
  - by apply qwf_mod_other.
  - apply wwf_mod_other; [|done]. apply (wwf_links s1); [|done]. by apply wwf_mod_other.
  - apply (cwf_proj s (mod_proc s2 cur f) Q Q2 W W Hcw Hn).
    + intros x. rewrite procs_mod. assert (Hx : cpu (procs s2 x) = cpu (procs s x) /\ priority (procs s2 x) = priority (procs s x)).
      { rewrite (lo_field cpu _ _ _ Hlo), (lo_field priority _ _ _ Hlo) by done. unfold s1. rewrite procs_mod.
        destruct (Z.eqb_spec x cur) as [->|]; by split. }
      destruct (Z.eqb_spec x cur) as [->|]; [|done]. destruct (Hf (procs s2 cur)) as [-> ->]. done.
    + intros c' Hc'. destruct (Hrq c' Hc') as (E1 & E2 & _). by split.
    + intros c' q p Hx. pose proof Hx as Hx'.
      apply Hsub, elem_of_appended in Hx' as [Hx'|(-> & _)]; [by exists c', q|]. exfalso. apply HnQ. by exists c', q.
    + eauto.
Qed.

(** ** [scheduler_yield] *)

(** The next process is running, or the same one goes on, still marked ready. *)
Definition switched (s s' : sched) (c cur next : Z) : Prop :=
  current (rqs s').[c] = next /\
  time_slice (procs s' next) = time_quantum.[priority (procs s next)] /\
  if next =? cur then state (procs s' cur) = PROC_READY /\ events s' = events s
  else state (procs s' next) = PROC_RUNNING /\ state (procs s' cur) = PROC_READY /\
       events s' = events s ++ [Switch cur next].

Lemma emit_wf s Q W e : sched_wf s Q W -> sched_wf (emit s e) Q W.
Proof.
  intros ([? ? ? ?] & Hw & Hc). split; [by split|]. split; [by apply (wwf_proj s)|].
  apply (cwf_proj s _ Q _ W _ Hc); try done; [intros c q p ?; by exists c, q|eauto].
Qed.

Lemma yield_spec s Q W c :
  let cur := current (rqs s).[c] in
  sched_wf s Q W -> 0 <= c < num_cpus s ->
  exists s' Q', scheduler_yield s c = Some s' /\ sched_wf s' Q' W /\
    (cur = NULL -> s' = s /\ Q' = Q) /\
    (cur <> NULL -> exists next, rotated s Q c cur next Q' /\ switched s s' c cur next).
Proof.
  intros cur Hwf Hc. unfold scheduler_yield. cbv zeta. fold cur. destruct (Z.eqb_spec cur NULL) as [E|Hcur].
  { exists s, Q. split; [done|]. split; [done|]. split; [done|]. done. }
  destruct (requeue_spec s Q W c Hwf Hc Hcur) as
    (s2 & next & Q2 & E & Hlo & Hnn & Hrot & Hq2 & HnQ & Hcn & Hpn & Hsub & HnW). fold cur in E, Hlo, Hrot, Hsub.
  rewrite E. destruct (Z.eqb_spec next NULL); [done|]. cbn [orb].
  destruct (Z.eqb_spec next cur) as [->|Hne].
  - eexists _, Q2. split; [done|].
    destruct (stay_spec s Q W c s2 Q2 (fun p => p <| time_slice := time_quantum.[priority p] |>) Hwf Hc Hcur Hlo Hq2 HnQ Hsub)
      as (Hwf' & Hrq & Hev & _); [by split|]. fold cur in Hwf', Hrq, Hev.
    split; [done|]. split; [done|]. intros _. exists cur. split; [done|].
    destruct (Hrq c Hc) as (Hcc & _). split; [done|].
    rewrite procs_mod, !Z.eqb_refl. split; [|split; [|done]].
    + change (time_quantum.[priority (procs s2 cur)] = time_quantum.[priority (procs s cur)]).
      rewrite (lo_field priority _ _ _ Hlo) by done. rewrite procs_mod. by rewrite Z.eqb_refl.
    + change (state (procs s2 cur) = PROC_READY). rewrite (lo_field state _ _ _ Hlo) by done.
      rewrite procs_mod. by rewrite Z.eqb_refl.
  - destruct (switch_spec s Q W c s2 next Q2 Hwf Hc Hcur Hlo Hnn Hq2 HnQ Hcn Hpn Hsub HnW)
      as (s3 & E3 & Hwf3 & Hcu & Hst & Hts & Hev & Hcs). rewrite E3. cbn [option_map].
    eexists _, Q2. split; [done|]. split; [by apply emit_wf|]. split; [done|]. intros _.
    exists next. split; [done|]. split; [done|]. split; [done|].
    destruct (Z.eqb_spec next cur); [done|]. split; [done|]. split; [by apply Hcs|].
    unfold emit. rec_simpl. by rewrite Hev.
Qed.

(** ** [priority_boost] *)

Definition rq_clear_low (r : runqueue) : runqueue :=
  r <| queues := (queues r).[PRIO_LOW <- NULL] |> <| tails := (tails r).[PRIO_LOW <- NULL] |>.

Lemma mod_rq_mod_rq s c f g : 0 <= c < zlen (rqs s) ->
  mod_rq (mod_rq s c f) c g = mod_rq s c (fun r => g (f r)).
Proof.
  intros Hc. unfold mod_rq, upd, set_field. cbn. f_equal.
  rewrite aget_aset_eq by done. unfold aset. apply list_insert_insert_eq.
Qed.

Lemma mod_rq_ext s c f g : f (rqs s).[c] = g (rqs s).[c] -> mod_rq s c f = mod_rq s c g.
Proof. unfold mod_rq. by intros ->. Qed.

Lemma aset_comm {A} (l : list A) i j x y : 0 <= i -> 0 <= j -> i <> j ->
  l.[i <- x].[j <- y] = l.[j <- y].[i <- x].
Proof. intros. unfold aset. apply list_insert_insert_ne. lia. Qed.

(** Emptying the low queue does not interfere with an [enqueue] on another one. *)
Lemma enqueue_clear_low s p c : cpu (procs s p) = c -> 0 <= c < zlen (rqs s) ->
  priority (procs s p) = PRIO_NORMAL ->
  enqueue_process (mod_rq s c rq_clear_low) p = mod_rq (enqueue_process s p) c rq_clear_low.
Proof.
  intros Hcpu Hc Hprio. unfold enqueue_process. cbv zeta.
  change (procs (mod_rq s c rq_clear_low)) with (procs s). rewrite Hcpu, Hprio.
  change (rqs (mod_proc ?s' _ _)) with (rqs s'). rewrite rqs_mod, Z.eqb_refl by lia.
  assert (Ht : (tails (rq_clear_low (rqs s).[c])).[PRIO_NORMAL] = (tails (rqs s).[c]).[PRIO_NORMAL]).
  { unfold rq_clear_low. rec_simpl. apply aget_aset_ne; unfold PRIO_LOW, PRIO_NORMAL; lia. }
  rewrite Ht. set (t := (tails (rqs s).[c]).[PRIO_NORMAL]).
  destruct (negb (t =? NULL)).
  - change (mod_proc (mod_proc (mod_rq s c rq_clear_low) p ?f) t ?g) with
      (mod_rq (mod_proc (mod_proc s p f) t g) c rq_clear_low).
    rewrite !mod_rq_mod_rq by (rewrite ?zlen_rqs_mod; exact Hc). apply mod_rq_ext.
    unfold rq_clear_low, upd, set_field. cbn. f_equal. apply aset_comm; unfold PRIO_LOW, PRIO_NORMAL; lia.
  - change (mod_proc (mod_rq s c rq_clear_low) p ?f) with (mod_rq (mod_proc s p f) c rq_clear_low).
    rewrite !mod_rq_mod_rq by (rewrite ?zlen_rqs_mod; exact Hc). apply mod_rq_ext.
    unfold rq_clear_low, upd, set_field. cbn. f_equal; apply aset_comm; unfold PRIO_LOW, PRIO_NORMAL; lia.
Qed.

(** The fields that boosting leaves alone *)
Record boost_only (s s' : sched) (l : list Z) : Prop := {
  bo_cpus : num_cpus s' = num_cpus s /\ wq_head s' = wq_head s /\ events s' = events s /\
    zlen (rqs s') = zlen (rqs s);
  bo_proc : forall x, procs s' x = (procs s x) <| sched_next := sched_next (procs s' x) |>
    <| priority := if bool_decide (x ∈ l) then PRIO_NORMAL else priority (procs s x) |>;
  bo_rq : forall c, 0 <= c < num_cpus s -> current (rqs s').[c] = current (rqs s).[c] /\
    idle_task (rqs s').[c] = idle_task (rqs s).[c] /\ ticks (rqs s').[c] = ticks (rqs s).[c]
}.

Lemma boost_list_spec l fuel s Q c x :
  qwf s Q -> 0 <= c < num_cpus s -> chain (snext s) x l -> (length l < fuel)%nat ->
  (forall p, p ∈ l -> cpu (procs s p) = c /\ state (procs s p) = PROC_READY /\ ~ lists Q p) ->
  exists s', boost_list fuel s x = Some s' /\ qwf s' (Qset Q c PRIO_NORMAL (Q c PRIO_NORMAL ++ l)) /\
    boost_only s s' l.
Proof.
  revert fuel s Q x. induction l as [|p l IH]; intros fuel s Q x Hq Hc Hch Hf Hl;
    (destruct fuel as [|fuel]; [cbn in Hf; lia|]); cbn [boost_list].
  { apply chain_nil in Hch as ->. exists s. split; [done|]. split.
    - apply (qwf_ext s Q); [|done]. intros c' q'. unfold Qset. rewrite app_nil_r.
      destruct (Z.eqb_spec c' c) as [->|], (Z.eqb_spec q' PRIO_NORMAL) as [->|]; done.
    - split; [done| |done]. intros y. rewrite bool_decide_eq_false_2 by apply not_elem_of_nil. by destruct (procs s y). }
  pose proof (chain_NoDup _ _ _ Hch) as Hnd. apply NoDup_cons in Hnd as [Hpl Hnd].
  apply chain_cons in Hch as (-> & Hp & Hch). destruct (Z.eqb_spec p NULL); [done|]. cbv zeta.
  destruct (Hl p) as (Hcp & Hst & HnQ); [set_solver|].
  set (s1 := mod_proc s p _). set (s2 := mod_proc s1 p _).
  assert (Hp2 : forall y, procs s2 y = if y =? p then (procs s p) <| priority := PRIO_NORMAL |> <| sched_next := NULL |>
    else procs s y).
  { intros y. unfold s2, s1. rewrite !procs_mod. rewrite Z.eqb_refl. by destruct (Z.eqb_spec y p). }
  assert (Hq2 : qwf s2 Q) by (apply qwf_mod_other; [by apply qwf_mod_other|done]).
  assert (Hpp : cpu (procs s2 p) = c /\ priority (procs s2 p) = PRIO_NORMAL /\ state (procs s2 p) = PROC_READY).
  { rewrite Hp2, Z.eqb_refl. by split_and!. }
  destruct Hpp as (E1 & E2 & E3).
  pose proof (enqueue_spec s2 Q p c PRIO_NORMAL Hq2 Hp E1 E2 Hc ltac:(unfold PRIO_NORMAL; lia) E3 HnQ) as Hq3.
  pose proof (enqueue_links_only s2 p ltac:(rewrite E1; done) (qw_cpus _ _ Hq2) Hp) as Hlo.
  set (s3 := enqueue_process s2 p) in *. set (Q3 := Qset Q c PRIO_NORMAL (Q c PRIO_NORMAL ++ [p])) in *.
  pose proof (lo_cpus _ _ Hlo) as (Hn3 & Hw3 & He3 & _).
  assert (Hchl : chain (snext s3) (snext s p) l).
  { apply (chain_ext (snext s)); [|done]. intros y Hy. unfold snext, s3. rewrite enqueue_procs by done. cbv zeta.
    rewrite E1, E2. destruct (qw_queue _ _ Hq2 c PRIO_NORMAL Hc ltac:(unfold PRIO_NORMAL; lia)) as (_ & Htl & _).
    rewrite Htl. destruct (Hl y) as (_ & _ & HyQ); [set_solver|]. rec_simpl.
    destruct (Z.eqb_spec y p) as [->|Hyp]; [done|]. rewrite Hp2. destruct (Z.eqb_spec y p); [done|].
    destruct (Z.eqb_spec (last_or_null (Q c PRIO_NORMAL)) NULL); [done|]. cbn [negb andb].
    destruct (Z.eqb_spec y (last_or_null (Q c PRIO_NORMAL))) as [->|]; [|done]. exfalso. apply HyQ.
    exists c, PRIO_NORMAL. apply last_or_null_elem. intros E. by rewrite E in *. }
  destruct (IH fuel s3 Q3 (snext s p)) as (s' & Es & Hqs & [(Hn' & Hw' & He' & Hz') Hpr' Hr']);
    [done|by rewrite Hn3|done|cbn in Hf; lia| |].
  { intros y Hy. destruct (Hl y) as (Hcy & Hsy & HyQ); [set_solver|].
    assert (Hyp : y <> p) by (by intros ->).
    rewrite (lo_field cpu _ _ _ Hlo), (lo_field state _ _ _ Hlo), Hp2 by done.
    destruct (Z.eqb_spec y p); [done|]. split; [done|]. split; [done|].
    intros (c' & q' & [(_ & _ & [?| ->%list_elem_of_singleton]%elem_of_app)|[_ ?]]%elem_of_Qset); try done;
      apply HyQ; by eexists _, _. }
  exists s'. split; [done|]. split.
  - apply (qwf_ext s' _ _) with (2 := Hqs). intros c' q'. unfold Q3, Qset. rewrite !Z.eqb_refl. cbn [andb].
    rewrite <- app_assoc. cbn [app]. by destruct ((c' =? c) && (q' =? PRIO_NORMAL)).
  - split.
    + rewrite Hn', Hw', He', Hz', Hn3, Hw3, He3. split_and!; try done. unfold s3. by rewrite zlen_rqs_enqueue.
    + intros y. rewrite Hpr', (lo_proc _ _ Hlo y), Hp2.
      destruct (Z.eqb_spec y p) as [->|Hyp].
      * rewrite (bool_decide_eq_false_2 (p ∈ l)) by done. rewrite (bool_decide_eq_true_2 (p ∈ p :: l)) by apply list_elem_of_here. done.
      * destruct (decide (y ∈ l)).
        -- rewrite (bool_decide_eq_true_2 (y ∈ l)), (bool_decide_eq_true_2 (y ∈ p :: l)) by (done || by apply list_elem_of_further). done.
        -- rewrite (bool_decide_eq_false_2 (y ∈ l)), (bool_decide_eq_false_2 (y ∈ p :: l)) by (done || by apply not_elem_of_cons). done.
    + intros c' Hc'. destruct (Hr' c') as (-> & -> & ->); [by rewrite Hn3|].
      destruct (lo_rq _ _ Hlo c' Hc') as (-> & -> & ->). done.
Qed.

Lemma boost_list_clear l fuel s c x :
  0 <= c < zlen (rqs s) -> (forall c', 0 <= c' < zlen (rqs s) -> zlen (tails (rqs s).[c']) = 5) ->
  chain (snext s) x l -> (forall p, p ∈ l -> cpu (procs s p) = c) ->
  (tails (rqs s).[c]).[PRIO_NORMAL] ∉ l ->
  boost_list fuel (mod_rq s c rq_clear_low) x =
  option_map (fun s' => mod_rq s' c rq_clear_low) (boost_list fuel s x).
Proof.
  revert fuel s x. induction l as [|p l IH]; intros fuel s x Hc Hlen Hch Hl Ht;
    (destruct fuel as [|fuel]; [done|]); cbn [boost_list].
  { apply chain_nil in Hch as ->. done. }
  pose proof (chain_NoDup _ _ _ Hch) as Hnd. apply NoDup_cons in Hnd as [Hpl Hnd].
  apply chain_cons in Hch as (-> & Hp & Hch). destruct (Z.eqb_spec p NULL); [done|]. cbv zeta.
  pose proof (Hl p ltac:(set_solver)) as Hcp.
  set (f := fun p : pcb => p <| priority := PRIO_NORMAL |>). set (g := fun p : pcb => p <| sched_next := NULL |>).
  change (mod_proc (mod_proc (mod_rq s c rq_clear_low) p f) p g) with
    (mod_rq (mod_proc (mod_proc s p f) p g) c rq_clear_low).
  set (s2 := mod_proc (mod_proc s p f) p g).
  assert (Hp2 : forall y, procs s2 y = if y =? p then g (f (procs s p)) else procs s y).
  { intros y. unfold s2. rewrite !procs_mod. rewrite Z.eqb_refl. by destruct (Z.eqb_spec y p). }
  assert (Hcp2 : cpu (procs s2 p) = c) by (by rewrite Hp2, Z.eqb_refl).
  assert (Hpp2 : priority (procs s2 p) = PRIO_NORMAL) by (by rewrite Hp2, Z.eqb_refl).
  rewrite enqueue_clear_low by done.
  change (sched_next (procs (mod_rq s c rq_clear_low) p)) with (sched_next (procs s p)).
  assert (Hpr : forall y, y ∈ l -> cpu (procs (enqueue_process s2 p) y) = cpu (procs s y) /\
    snext (enqueue_process s2 p) y = snext s y).
  { intros y Hy. unfold snext. rewrite enqueue_procs by done. cbv zeta. rec_simpl. rewrite Hcp2, Hpp2, Hp2.
    change (rqs s2) with (rqs s). destruct (Z.eqb_spec y p) as [->|]; [done|]. split; [done|].
    destruct (Z.eqb_spec y (tails (rqs s).[c]).[PRIO_NORMAL]) as [->|]; [set_solver|]. by rewrite andb_false_r. }
  apply (IH fuel (enqueue_process s2 p)).
  - by rewrite zlen_rqs_enqueue.
  - intros c' Hc'. rewrite zlen_rqs_enqueue in Hc'. rewrite enqueue_rqs by (rewrite ?Hcp2; change (rqs s2) with (rqs s); lia).
    change (rqs s2) with (rqs s). rewrite Hcp2. destruct (Z.eqb_spec c c') as [<-|]; [|by apply Hlen].
    unfold rq_enqueue. cbn [tails]. rewrite zlen_aset. by apply Hlen.
  - apply (chain_ext (snext s)); [|done]. intros y Hy. symmetry. by apply Hpr.
  - intros y Hy. destruct (Hpr y Hy) as [-> _]. apply Hl. set_solver.
  - rewrite enqueue_rqs by (rewrite ?Hcp2; change (rqs s2) with (rqs s); lia).
    rewrite Hcp2, Z.eqb_refl, Hpp2. unfold rq_enqueue. cbn [tails]. change (rqs s2) with (rqs s).
    rewrite aget_aset_eq; [done|]. rewrite Hlen by lia. unfold PRIO_NORMAL. lia.
Qed.

Definition boosted_cpu (Q : Z -> Z -> list Z) (c : Z) : Z -> Z -> list Z :=
  Qset (Qset Q c PRIO_NORMAL (Q c PRIO_NORMAL ++ Q c PRIO_LOW)) c PRIO_LOW [].

Lemma boost_cpu_spec fuel s Q W c :
  sched_wf s Q W -> 0 <= c < num_cpus s -> (length (Q c PRIO_LOW) < fuel)%nat ->
  exists s', boost_cpu fuel s c = Some s' /\ sched_wf s' (boosted_cpu Q c) W /\
    boost_only s s' (Q c PRIO_LOW).
Proof.
  intros (Hq & Hw & Hcw) Hc Hf. pose proof Hq as [Hn Hl Hqq Hin]. unfold boost_cpu.
  set (l := Q c PRIO_LOW) in *. destruct (Hqq c PRIO_LOW Hc ltac:(unfold PRIO_LOW; lia)) as (Hch & _). fold l in Hch.
  destruct (Hqq c PRIO_NORMAL Hc ltac:(unfold PRIO_NORMAL; lia)) as (_ & Htl & _).
  assert (Hlc : forall p, p ∈ l -> cpu (procs s p) = c /\ priority (procs s p) = PRIO_LOW /\ state (procs s p) = PROC_READY)
    by (intros p Hp; by apply Hin in Hp as (_ & _ & ? & ? & ?)).
  assert (Htn : (tails (rqs s).[c]).[PRIO_NORMAL] ∉ l).
  { rewrite Htl. intros Hx. pose proof (seg_nonnull _ _ _ _ _ Hch Hx) as Hnn.
    assert (Hne : Q c PRIO_NORMAL <> []) by (intros E; by rewrite E in Hnn).
    apply last_or_null_elem, Hin in Hne as (_ & _ & _ & E & _). apply Hlc in Hx as (_ & E' & _). by rewrite E in E'. }
  set (s0 := mod_rq s c rq_clear_low).
  assert (Hr0 : forall c', 0 <= c' -> (rqs s0).[c'] = if c =? c' then rq_clear_low (rqs s).[c] else (rqs s).[c'])
    by (intros; apply rqs_mod; lia).
  assert (Hq0 : qwf s0 (Qset Q c PRIO_LOW [])).
  { split.
    - unfold s0. by rewrite zlen_rqs_mod.
    - intros c' Hc'. change (num_cpus s0) with (num_cpus s) in Hc'. rewrite Hr0 by lia.
      destruct (Z.eqb_spec c c') as [<-|]; [|by apply Hl]. unfold rq_clear_low. rec_simpl. rewrite !zlen_aset. by apply Hl.
    - intros c' q Hc' Hqr. change (num_cpus s0) with (num_cpus s) in Hc'. rewrite Hr0 by lia.
      change (snext s0) with (snext s). unfold Qset. rewrite (Z.eqb_sym c' c). destruct (Hl c Hc) as (L1 & L2 & _).
      destruct (Z.eqb_spec c c') as [<-|]; [|by apply Hqq]. cbn [andb]. unfold rq_clear_low. rec_simpl.
      destruct (Z.eqb_spec q PRIO_LOW) as [->|].
      + rewrite !aget_aset_eq by (unfold PRIO_LOW; lia). split; [done|]. split; [done|]. done.
      + rewrite !aget_aset_ne by (unfold PRIO_LOW in *; lia). by apply Hqq.
    - intros c' q p. rewrite elem_of_Qset. intros [(_ & _ & ?%not_elem_of_nil)|[_ Hp]]; [done|by apply Hin]. }
  destruct (boost_list_spec l fuel s0 (Qset Q c PRIO_LOW []) c (queues (rqs s).[c]).[PRIO_LOW] Hq0) as
    (s' & Es & Hqs & Hbo); [done|done|done| |].
  { intros p Hp. destruct (Hlc p Hp) as (? & Hpp & ?). split; [done|]. split; [done|].
    intros (c' & q' & [(_ & _ & ?%not_elem_of_nil)|[Hne Hx]]%elem_of_Qset); [done|].
    apply Hin in Hx as (_ & _ & ? & ? & _). apply Hne. split; congruence. }
  unfold s0 in Es. rewrite (boost_list_clear l) in Es; [|by rewrite <- Hn|intros c' Hc'; apply Hl; lia|done|
    intros p Hp; by apply Hlc|done].
  destruct (boost_list fuel s (queues (rqs s).[c]).[PRIO_LOW]) as [s1|]; [|done]. injection Es as Es.
  exists s'. split; [by rewrite <- Es|].
  pose proof Hbo as [(Hn' & Hw' & He' & Hz') Hp' Hr'].
  assert (Hbo' : boost_only s s' l).
  { split; [|done|].
    - rewrite Hn', Hw', He', Hz'. unfold s0. by rewrite zlen_rqs_mod.
    - intros c' Hc'. destruct (Hr' c' Hc') as (-> & -> & ->). rewrite Hr0 by lia. by destruct (Z.eqb_spec c c') as [<-|]. }
  split; [|done]. assert (Hqb : forall c' q', Qset (Qset Q c PRIO_LOW []) c PRIO_NORMAL (Qset Q c PRIO_LOW [] c PRIO_NORMAL ++ l) c' q' =
    boosted_cpu Q c c' q').
  { intros c' q'. unfold boosted_cpu, Qset. rewrite !Z.eqb_refl. cbn [andb].
    destruct (Z.eqb_spec c' c) as [->|]; cbn [andb]; [|done].
    destruct (Z.eqb_spec q' PRIO_NORMAL) as [Ea|Ea], (Z.eqb_spec q' PRIO_LOW) as [Eb|Eb]; try done.
    by rewrite Ea in Eb. }
  split; [by eapply qwf_ext|]. split.
  - destruct Hw as [Hwc Hwi]. split.
    + intros w. rewrite Hw'. apply (chain_ext (wnext s)); [|apply Hwc]. intros x _. unfold wnext. by rewrite Hp'.
    + intros w p Hp. rewrite Hp'. rec_simpl. change (procs s0) with (procs s). destruct (Hwi w p Hp) as (H1 & H2 & H3).
      split; [done|]. split; [done|]. case_bool_decide; [unfold PRIO_NORMAL; lia|done].
  - apply (cwf_proj_prio s _ Q _ W _ Hcw).
    + by rewrite Hn'.
    + intros x. rewrite Hp'. rec_simpl. change (procs s0) with (procs s). split; [done|].
      case_bool_decide; [unfold PRIO_NORMAL; lia|done].
    + intros c' Hc'. by destruct (bo_rq _ _ _ Hbo' c' Hc') as (-> & -> & _).
    + intros c' q p Hp. unfold boosted_cpu in Hp. apply elem_of_Qset in Hp as [(_ & _ & ?%not_elem_of_nil)|[_ Hp]]; [done|].
      apply elem_of_Qset in Hp as [(_ & _ & [?|?]%elem_of_app)|[_ ?]]; by eexists _, _.
    + eauto.
Qed.

(** All CPUs below [k] boosted. *)
Definition boosted (Q : Z -> Z -> list Z) (k : Z) : Z -> Z -> list Z :=
  fun c q => if (0 <=? c) && (c <? k) then boosted_cpu Q c c q else Q c q.

Definition kept (s s' : sched) : Prop :=
  num_cpus s' = num_cpus s /\ events s' = events s /\
  (forall c, 0 <= c < num_cpus s -> current (rqs s').[c] = current (rqs s).[c] /\
    idle_task (rqs s').[c] = idle_task (rqs s).[c] /\ ticks (rqs s').[c] = ticks (rqs s).[c]) /\
  (forall x, state (procs s' x) = state (procs s x) /\ time_slice (procs s' x) = time_slice (procs s x)).

Lemma kept_refl s : kept s s.
Proof. split_and!; try done. Qed.
Lemma kept_trans s1 s2 s3 : kept s1 s2 -> kept s2 s3 -> kept s1 s3.
Proof.
  intros (H1 & H2 & H3 & H4) (H1' & H2' & H3' & H4'). split; [congruence|]. split; [congruence|]. split.
  - intros c Hc. destruct (H3' c ltac:(lia)) as (-> & -> & ->). by apply H3.
  - intros x. destruct (H4' x) as [-> ->]. apply H4.
Qed.
Lemma boost_only_kept s s' l : boost_only s s' l -> kept s s'.
Proof.
  intros [(? & _ & ? & _) Hp Hr]. split; [done|]. split; [done|]. split; [done|].
  intros x. by rewrite Hp.
Qed.

Lemma boost_cpus_spec n fuel s Q Q0 W k :
  sched_wf s Q W -> 0 <= k -> k + Z.of_nat n = num_cpus s ->
  (forall c q, Q c q = boosted Q0 k c q) -> (forall c, 0 <= c < num_cpus s -> (length (Q0 c PRIO_LOW) < fuel)%nat) ->
  exists s' Q', boost_cpus n fuel s k = Some s' /\ sched_wf s' Q' W /\
    (forall c q, Q' c q = boosted Q0 (num_cpus s) c q) /\ kept s s'.
Proof.
  revert s Q k. induction n as [|n IH]; intros s Q k Hwf Hk Hn HQ Hf; cbn [boost_cpus].
  { exists s, Q. split; [done|]. split; [done|]. replace (num_cpus s) with k by lia. split; [done|apply kept_refl]. }
  assert (HQk : forall q, Q k q = Q0 k q).
  { intros q. rewrite HQ. unfold boosted. by destruct (Z.leb_spec 0 k), (Z.ltb_spec k k); try lia. }
  destruct (boost_cpu_spec fuel s Q W k Hwf) as (s1 & -> & Hwf1 & Hbo); [lia|rewrite HQk; apply Hf; lia|].
  pose proof (boost_only_kept _ _ _ Hbo) as Hk1. pose proof Hk1 as (Hn1 & _).
  destruct (IH s1 (boosted_cpu Q k) (k + 1) Hwf1) as (s' & Q' & E & Hwf' & HQ' & Hk'); [lia|lia| |by rewrite Hn1|].
  - intros c q. unfold boosted. destruct (decide (c = k)) as [->|Hne].
    + destruct (Z.leb_spec 0 k), (Z.ltb_spec k (k + 1)); try lia. cbn [andb].
      unfold boosted_cpu, Qset. by rewrite !HQk.
    + assert (Hb : boosted_cpu Q k c q = Q c q).
      { unfold boosted_cpu, Qset. by destruct (Z.eqb_spec c k). }
      rewrite Hb, HQ. unfold boosted. destruct (Z.leb_spec 0 c), (Z.ltb_spec c k), (Z.ltb_spec c (k + 1)); done || lia.
  - exists s', Q'. split; [done|]. split; [done|]. rewrite Hn1 in HQ'. split; [done|]. by eapply kept_trans.
Qed.

Lemma priority_boost_spec fuel s Q W :
  sched_wf s Q W -> (forall c, 0 <= c < num_cpus s -> (length (Q c PRIO_LOW) < fuel)%nat) ->
  exists s' Q', priority_boost fuel s = Some s' /\ sched_wf s' Q' W /\
    (forall c q, Q' c q = boosted Q (num_cpus s) c q) /\ kept s s'.
Proof.
  intros Hwf Hf. pose proof Hwf as ([Hn _ _ _] & _). unfold priority_boost.
  apply (boost_cpus_spec _ fuel s Q Q W 0 Hwf); [lia| | |done].
  - rewrite Hn. unfold zlen. lia.
  - intros c q. unfold boosted. by destruct (Z.leb_spec 0 c), (Z.ltb_spec c 0); try lia.
Qed.

(** ** [scheduler_tick] *)

Lemma sched_wf_mod_same s Q W p f :
  sched_wf s Q W -> (forall b, sched_next (f b) = sched_next b /\ cpu (f b) = cpu b /\
    priority (f b) = priority b /\ state (f b) = state b /\ wq (f b) = wq b /\ wq_next (f b) = wq_next b) ->
  sched_wf (mod_proc s p f) Q W.
Proof.
  intros (Hq & Hw & Hc) Hf.
  assert (Hx : forall x, cpu (procs (mod_proc s p f) x) = cpu (procs s x) /\
    priority (procs (mod_proc s p f) x) = priority (procs s x) /\
    state (procs (mod_proc s p f) x) = state (procs s x) /\ wq (procs (mod_proc s p f) x) = wq (procs s x) /\
    wq_next (procs (mod_proc s p f) x) = wq_next (procs s x)).
  { intros x. rewrite procs_mod. destruct (Z.eqb_spec x p) as [->|]; [|done].
    by destruct (Hf (procs s p)) as (_ & -> & -> & -> & -> & ->). }
  split; [|split].
  - apply qwf_mod_same; [done|]. intros b. by destruct (Hf b) as (-> & -> & -> & -> & _).
  - apply (wwf_proj s); [done|done|]. intros x. by destruct (Hx x) as (_ & -> & -> & -> & ->).
  - apply (cwf_proj s _ Q _ W _ Hc); [done| |done| |eauto].
    + intros x. by destruct (Hx x) as (-> & -> & _).
    + intros c q x ?. by exists c, q.
Qed.

Lemma sched_wf_mod_rq s Q W c f :
  sched_wf s Q W -> 0 <= c < num_cpus s ->
  (forall r, queues (f r) = queues r /\ tails (f r) = tails r /\ queue_bitmap (f r) = queue_bitmap r /\
    current (f r) = current r /\ idle_task (f r) = idle_task r) ->
  sched_wf (mod_rq s c f) Q W.
Proof.
  intros (Hq & Hw & Hc) Hcr Hf. pose proof (qw_cpus _ _ Hq) as Hn. split; [|split].
  - apply qwf_mod_rq; [done|done|]. intros r. by destruct (Hf r) as (-> & -> & -> & _).
  - by apply (wwf_proj s).
  - apply (cwf_proj s _ Q _ W _ Hc); [done|done| | |eauto].
    + intros c' Hc'. rewrite rqs_mod by lia. destruct (Z.eqb_spec c c') as [<-|]; [|done].
      by destruct (Hf (rqs s).[c]) as (_ & _ & _ & -> & ->).
    + intros c' q x ?. by exists c', q.
Qed.

(** The accounting at the start of a tick *)
Definition tick_account (s : sched) (c : Z) : sched :=
  let cur := current (rqs s).[c] in
  let s := mod_proc s cur (fun p => p <| cpu_time := u64 (cpu_time p + 1) |>) in
  mod_rq s c (fun r => r <| ticks := u32 (ticks r + 1) |>).

Definition tick_slice (s : sched) (cur : Z) : sched :=
  if 0 <? time_slice (procs s cur)
  then mod_proc s cur (fun p => p <| time_slice := time_slice p - 1 |>) else s.

(** How a tick of a CPU with a current process ends. *)
Inductive tick_outcome (s s' : sched) (Q Q' : Z -> Z -> list Z) (c cur : Z) : Prop :=
| to_realtime :
    priority (procs s cur) = PRIO_REALTIME -> s' = tick_account s c -> Q' = Q -> tick_outcome s s' Q Q' c cur
| to_continue :
    priority (procs s cur) <> PRIO_REALTIME -> 1 < time_slice (procs s cur) ->
    u32 (ticks (rqs s).[c] + 1) < PRIORITY_BOOST_INTERVAL ->
    s' = tick_slice (tick_account s c) cur -> Q' = Q -> tick_outcome s s' Q Q' c cur
| to_boost :
    priority (procs s cur) <> PRIO_REALTIME -> 1 < time_slice (procs s cur) ->
    PRIORITY_BOOST_INTERVAL <= u32 (ticks (rqs s).[c] + 1) ->
    (forall c' q, Q' c' q = boosted Q (num_cpus s) c' q) ->
    current (rqs s').[c] = cur -> ticks (rqs s').[c] = 0 -> events s' = events s -> tick_outcome s s' Q Q' c cur
| to_expired next Q1 :
    priority (procs s cur) <> PRIO_REALTIME -> time_slice (procs s cur) <= 1 ->
    rotated s Q c cur next Q1 -> switched s s' c cur next ->
    (Q' = Q1 \/ (next = cur /\ PRIORITY_BOOST_INTERVAL <= u32 (ticks (rqs s).[c] + 1) /\
      forall c' q, Q' c' q = boosted Q1 (num_cpus s) c' q)) -> tick_outcome s s' Q Q' c cur.

Lemma tick_account_wf s Q W c :
  sched_wf s Q W -> 0 <= c < num_cpus s -> sched_wf (tick_account s c) Q W.
Proof.
  intros Hwf Hc. unfold tick_account. cbv zeta. apply sched_wf_mod_rq; [|done|by intros []].
  by apply sched_wf_mod_same; [|intros []].
Qed.

Lemma tick_slice_wf s Q W p : sched_wf s Q W -> sched_wf (tick_slice s p) Q W.
Proof. intros Hwf. unfold tick_slice. destruct (0 <? _); [|done]. by apply sched_wf_mod_same; [|intros []]. Qed.

(** What the accounting leaves alone *)
Lemma tick_slice_account s c :
  let cur := current (rqs s).[c] in
  let s2 := tick_slice (tick_account s c) cur in
  0 <= c < zlen (rqs s) -> 0 <= time_slice (procs s cur) ->
  num_cpus s2 = num_cpus s /\ events s2 = events s /\
  (forall x, cpu (procs s2 x) = cpu (procs s x) /\ priority (procs s2 x) = priority (procs s x) /\
    state (procs s2 x) = state (procs s x)) /\
  current (rqs s2).[c] = cur /\ idle_task (rqs s2).[c] = idle_task (rqs s).[c] /\
  ticks (rqs s2).[c] = u32 (ticks (rqs s).[c] + 1) /\
  time_slice (procs s2 cur) = Z.max 0 (time_slice (procs s cur) - 1) /\
  priority (procs (tick_account s c) cur) = priority (procs s cur).
Proof.
  intros cur s2 Hc Hts.
  assert (Hp : forall x, procs (tick_account s c) x =
    if x =? cur then (procs s cur) <| cpu_time := u64 (cpu_time (procs s cur) + 1) |> else procs s x).
  { intros x. unfold tick_account. cbv zeta. change (procs (mod_rq ?s' _ _)) with (procs s'). by rewrite procs_mod. }
  assert (Hr : rqs s2 = rqs (tick_account s c)) by (unfold s2, tick_slice; by destruct (0 <? _)).
  assert (Hrc : (rqs (tick_account s c)).[c] = (rqs s).[c] <| ticks := u32 (ticks (rqs s).[c] + 1) |>).
  { unfold tick_account. cbv zeta. rewrite rqs_mod by (exact Hc || lia). by rewrite Z.eqb_refl. }
  rewrite Hr, Hrc.
  assert (Hp2 : forall x, cpu (procs s2 x) = cpu (procs s x) /\ priority (procs s2 x) = priority (procs s x) /\
    state (procs s2 x) = state (procs s x)).
  { intros x. unfold s2, tick_slice. destruct (0 <? _).
    - rewrite procs_mod, !Hp, Z.eqb_refl. by destruct (Z.eqb_spec x cur) as [->|].
    - rewrite Hp. by destruct (Z.eqb_spec x cur) as [->|]. }
  split; [unfold s2, tick_slice; by destruct (0 <? _)|]. split; [unfold s2, tick_slice; by destruct (0 <? _)|].
  split; [done|]. split; [done|]. split; [done|]. split; [done|]. split.
  - unfold s2, tick_slice. rewrite Hp, Z.eqb_refl. rec_simpl.
    destruct (Z.ltb_spec 0 (time_slice (procs s cur))).
    + rewrite procs_mod, Z.eqb_refl, Hp, Z.eqb_refl. rec_simpl. lia.
    + rewrite Hp, Z.eqb_refl. rec_simpl. lia.
  - rewrite Hp. by rewrite Z.eqb_refl.
Qed.

Lemma highest_ext Q Q' c r : (forall q, Q c q = Q' c q) -> highest Q c r -> highest Q' c r.
Proof.
  intros HQ. destruct r as [[[q p] l]|]; cbn; [|by intros H q; rewrite <- HQ].
  intros (? & H1 & H2). split; [done|]. rewrite <- HQ. split; [done|]. intros q'. rewrite <- HQ. apply H2.
Qed.

Lemma rotated_low_length s Q c cur next Q1 c' :
  rotated s Q c cur next Q1 -> (length (Q1 c' PRIO_LOW) <= S (length (Q c' PRIO_LOW)))%nat.
Proof.
  intros (q & l & (_ & HQ & _) & ->).
  assert (Ha : forall c q, (length (appended s Q cur c q) <= S (length (Q c q)))%nat).
  { intros c2 q2. unfold appended, Qset. cbv zeta. destruct (Z.eqb_spec c2 (cpu (procs s cur))) as [->|]; cbn [andb]; [|lia].
    destruct (Z.eqb_spec q2 (priority (procs s cur))) as [->|]; [|lia]. rewrite length_app. cbn. lia. }
  unfold Qset. destruct (Z.eqb_spec c' c) as [->|]; cbn [andb]; [|apply Ha].
  destruct (Z.eqb_spec PRIO_LOW q) as [<-|]; [|apply Ha]. specialize (Ha c PRIO_LOW). rewrite HQ in Ha. cbn in Ha. lia.
Qed.

Lemma tick_spec fuel s Q W c :
  let cur := current (rqs s).[c] in
  sched_wf s Q W -> 0 <= c < num_cpus s -> 0 <= time_slice (procs s cur) ->
  (forall c', 0 <= c' < num_cpus s -> (S (length (Q c' PRIO_LOW)) < fuel)%nat) ->
  exists s' Q', scheduler_tick fuel s c = Some s' /\ sched_wf s' Q' W /\
    (cur = NULL -> s' = s /\ Q' = Q) /\ (cur <> NULL -> tick_outcome s s' Q Q' c cur).
Proof.
  intros cur Hwf Hc Hts Hf. unfold scheduler_tick. cbv zeta. fold cur. destruct (Z.eqb_spec cur NULL) as [E|Hcur].
  { exists s, Q. split; [done|]. split; [done|]. split; [done|]. done. }
  change (mod_rq (mod_proc s cur ?f) c ?g) with (tick_account s c).
  pose proof (qw_cpus _ _ (proj1 Hwf)) as Hn.
  destruct (tick_slice_account s c ltac:(lia) Hts) as (Hn2 & He2 & Hp2 & Hcu2 & Hid2 & Hti2 & Hsl2 & Hpr).
  fold cur in Hcu2, Hsl2, Hpr, Hn2, He2, Hp2, Hid2, Hti2. rewrite Hpr.
  pose proof (tick_account_wf s Q W c Hwf Hc) as Hwf1.
  destruct (Z.eqb_spec (priority (procs s cur)) PRIO_REALTIME) as [Hrt|Hrt].
  { exists (tick_account s c), Q. split; [done|]. split; [done|]. split; [done|]. intros _. by apply to_realtime. }
  change (if 0 <? time_slice (procs (tick_account s c) cur) then _ else _) with (tick_slice (tick_account s c) cur).
  pose proof (tick_slice_wf _ Q W cur Hwf1) as Hwf2. set (s2 := tick_slice (tick_account s c) cur) in *.
  assert (Hboost : forall s3 Q3, sched_wf s3 Q3 W -> num_cpus s3 = num_cpus s ->
    ticks (rqs s3).[c] = u32 (ticks (rqs s).[c] + 1) ->
    (forall c', 0 <= c' < num_cpus s -> (length (Q3 c' PRIO_LOW) < fuel)%nat) ->
    exists s4 Q4, (if PRIORITY_BOOST_INTERVAL <=? ticks (rqs s3).[c]
      then priority_boost fuel (mod_rq s3 c (fun r => r <| ticks := 0 |>)) else Some s3) = Some s4 /\ sched_wf s4 Q4 W /\
      ((u32 (ticks (rqs s).[c] + 1) < PRIORITY_BOOST_INTERVAL /\ s4 = s3 /\ Q4 = Q3) \/
       (PRIORITY_BOOST_INTERVAL <= u32 (ticks (rqs s).[c] + 1) /\ ticks (rqs s4).[c] = 0 /\
        (forall c' q, Q4 c' q = boosted Q3 (num_cpus s) c' q) /\ events s4 = events s3 /\
        current (rqs s4).[c] = current (rqs s3).[c] /\
        forall x, state (procs s4 x) = state (procs s3 x) /\ time_slice (procs s4 x) = time_slice (procs s3 x)))).
  { intros s3 Q3 Hwf3 Hn3 Ht3 Hf3. rewrite Ht3. destruct (Z.leb_spec PRIORITY_BOOST_INTERVAL (u32 (ticks (rqs s).[c] + 1))).
    - assert (Hwf3' : sched_wf (mod_rq s3 c (fun r => r <| ticks := 0 |>)) Q3 W)
        by (apply sched_wf_mod_rq; [done|by rewrite Hn3|by intros []]).
      destruct (priority_boost_spec fuel _ Q3 W Hwf3') as (s4 & Q4 & E & Hwf4 & HQ4 & (Hn4 & He4 & Hr4 & Hx4)).
      { intros c' Hc'. apply Hf3. by rewrite <- Hn3. }
      exists s4, Q4. split; [done|]. split; [done|]. right. split; [done|].
      destruct (Hr4 c) as (-> & _ & ->); [by rewrite <- Hn3 in Hc|].
      pose proof (qw_cpus _ _ (proj1 Hwf3)) as Hz3. rewrite rqs_mod, Z.eqb_refl by lia.
      split; [done|]. split; [|split; [by rewrite He4|split; [done|done]]].
      intros c' q. rewrite HQ4. change (num_cpus (mod_rq s3 c _)) with (num_cpus s3). by rewrite Hn3.
    - exists s3, Q3. split; [done|]. split; [done|]. left. done. }
  rewrite Hsl2. destruct (Z.eqb_spec (Z.max 0 (time_slice (procs s cur) - 1)) 0) as [Hexp|Hexp].
  - destruct (requeue_spec s2 Q W c) as (s3 & next & Q2 & E & Hlo & Hnn & Hrot & Hq3 & HnQ & Hcn & Hpn & Hsub & HnW);
      [done|by rewrite Hn2|by rewrite Hcu2|]. rewrite Hcu2 in *.
    assert (Happ : appended s2 Q cur = appended s Q cur).
    { unfold appended. by destruct (Hp2 cur) as (-> & -> & _). }
    assert (Hrot' : rotated s Q c cur next Q2) by (unfold rotated in *; by rewrite <- Happ).
    rewrite E. destruct (Z.eqb_spec next NULL); [done|]. destruct (Z.eqb_spec next cur) as [->|Hne]; cbn [negb].
    + destruct (stay_spec s2 Q W c s3 Q2 (fun p => p <| time_slice := time_quantum.[priority p] |>)) as (Hwf4 & Hrq & Hev & Hn4);
        rewrite ?Hcu2; try done; [by rewrite Hn2|]. rewrite Hcu2 in *.
      set (s4 := mod_proc s3 cur _) in *. destruct (Hrq c ltac:(by rewrite Hn2)) as (Hc4 & _ & Ht4).
      destruct (Hboost s4 Q2) as (s5 & Q5 & E5 & Hwf5 & Hcase); [done|congruence|congruence| |].
      { intros c' Hc'. pose proof (rotated_low_length _ _ _ _ _ _ c' Hrot). specialize (Hf c' Hc'). lia. }
      rewrite E5. exists s5, Q5. split; [done|]. split; [done|]. split; [done|]. intros _.
      apply (to_expired _ _ _ _ _ _ cur Q2); [done|lia|done| |].
      * assert (H4 : time_slice (procs s4 cur) = time_quantum.[priority (procs s cur)] /\ state (procs s4 cur) = PROC_READY).
        { unfold s4. rewrite procs_mod, Z.eqb_refl. rec_simpl.
          rewrite (lo_field priority _ _ _ Hlo), (lo_field state _ _ _ Hlo) by done. rewrite procs_mod, Z.eqb_refl. rec_simpl.
          by destruct (Hp2 cur) as (_ & -> & _). }
        destruct H4 as [H4 H5]. unfold switched. rewrite Z.eqb_refl.
        destruct Hcase as [(_ & -> & ->)|(_ & _ & _ & He5 & Hc5 & Hx5)].
        -- split_and!; [congruence|done|done|congruence].
        -- destruct (Hx5 cur) as [-> ->]. split_and!; [congruence|done|done|congruence].
      * destruct Hcase as [(_ & _ & ->)|(Hge & _ & HQ5 & _)]; [by left|right]. done.
    + destruct (switch_spec s2 Q W c s3 next Q2) as (s4 & E4 & Hwf4 & Hcu & Hst & Hsl & Hev & Hcs);
        rewrite ?Hcu2; try done; [by rewrite Hn2|]. rewrite Hcu2 in *. rewrite E4. cbn [option_map].
      exists (emit s4 (Switch cur next)), Q2. split; [done|]. split; [by apply emit_wf|]. split; [done|]. intros _.
      apply (to_expired _ _ _ _ _ _ next Q2); [done|lia|done| |by left].
      unfold switched. destruct (Z.eqb_spec next cur); [done|]. split; [done|]. split.
      * change (time_slice (procs s4 next) = time_quantum.[priority (procs s next)]).
        destruct (Hp2 next) as (_ & E5 & _). by rewrite Hsl, E5.
      * split; [done|]. split; [by apply Hcs|]. unfold emit. rec_simpl. congruence.
  - destruct (Hboost s2 Q) as (s5 & Q5 & E5 & Hwf5 & Hcase); [done|done|done| |].
    { intros c' Hc'. specialize (Hf c' Hc'). lia. }
    rewrite E5. exists s5, Q5. split; [done|]. split; [done|]. split; [done|]. intros _.
    destruct Hcase as [(Hlt & -> & ->)|(Hge & Ht0 & HQ5 & He5 & Hc5 & _)].
    + by apply to_continue; [|lia|..].
    + apply to_boost; try done; [lia|congruence|congruence].
Qed.

(** ** [scheduler_add_process] and waking *)

Definition load (s : sched) (c : Z) : Z := queue_count (queue_bitmap (rqs s).[c]).

Lemma pick_cpu_spec n s i t m :
  let r := pick_cpu n s i t m in
  (r = t /\ forall j, i <= j < i + Z.of_nat n -> m <= load s j) \/
  (i <= r < i + Z.of_nat n /\ load s r < m /\ (forall j, i <= j < i + Z.of_nat n -> load s r <= load s j) /\
   forall j, i <= j < r -> load s r < load s j).
Proof.
  revert i t m. induction n as [|n IH]; intros i t m; cbn [pick_cpu]; cbv zeta.
  { left. split; [done|]. intros; lia. }
  change (queue_count (queue_bitmap (rqs s).[i])) with (load s i).
  destruct (Z.ltb_spec (load s i) m) as [Hlt|Hge].
  - right. destruct (IH (i + 1) i (load s i)) as [[-> Hall]|(Hr & Hl & Hmin & Hfirst)]; cbv zeta in *.
    + split; [lia|]. split; [done|]. split; [|intros; lia]. intros j Hj.
      destruct (decide (j = i)) as [->|]; [lia|]. apply Hall. lia.
    + split; [lia|]. split; [lia|]. split.
      * intros j Hj. destruct (decide (j = i)) as [->|]; [lia|]. apply Hmin. lia.
      * intros j Hj. destruct (decide (j = i)) as [->|]; [lia|]. apply Hfirst. lia.
  - destruct (IH (i + 1) t m) as [[-> Hall]|(Hr & Hl & Hmin & Hfirst)]; cbv zeta in *.
    + left. split; [done|]. intros j Hj. destruct (decide (j = i)) as [->|]; [lia|]. apply Hall. lia.
    + right. split; [lia|]. split; [done|]. split.
      * intros j Hj. destruct (decide (j = i)) as [->|]; [lia|]. apply Hmin. lia.
      * intros j Hj. destruct (decide (j = i)) as [->|]; [lia|]. apply Hfirst. lia.
Qed.

Definition target_cpu (s : sched) : Z := pick_cpu (Z.to_nat (num_cpus s)) s 0 0 0xFFFFFFFF.

Lemma target_cpu_rqs s s' : rqs s' = rqs s -> num_cpus s' = num_cpus s -> target_cpu s' = target_cpu s.
Proof.
  intros Hr Hn. unfold target_cpu. rewrite Hn. generalize (Z.to_nat (num_cpus s)) 0 0xFFFFFFFF.
  intros n i m. assert (Hg : forall i t m, pick_cpu n s' i t m = pick_cpu n s i t m); [|apply Hg].
  induction n as [|n IH]; intros i' t' m'; cbn [pick_cpu]; [done|]. rewrite Hr. cbv zeta. by rewrite !IH.
Qed.

(** The first CPU with the fewest non-empty queues *)
Lemma target_cpu_spec s :
  0 < num_cpus s ->
  0 <= target_cpu s < num_cpus s /\
  (forall j, 0 <= j < num_cpus s -> load s (target_cpu s) <= load s j) /\
  forall j, 0 <= j < target_cpu s -> load s (target_cpu s) < load s j.
Proof.
  intros Hn. unfold target_cpu.
  assert (Hsmall : forall j, load s j <= 5).
  { intros j. unfold load, queue_count.
    pose proof (length_filter (fun q => negb (Z.land (queue_bitmap (rqs s).[j]) (Z.shiftl 1 q) =? 0) = true) (seqZ 0 SCHED_QUEUES)) as Hle.
    rewrite length_seqZ in Hle. unfold SCHED_QUEUES in *. lia. }
  destruct (pick_cpu_spec (Z.to_nat (num_cpus s)) s 0 0 0xFFFFFFFF) as [[_ Hall]|(Hr & _ & Hmin & Hf)];
    cbv zeta in *.
  - specialize (Hall 0 ltac:(lia)). specialize (Hsmall 0). lia.
  - split; [lia|]. split; [|done]. intros j Hj. apply Hmin. lia.
Qed.

(** A process that no queue, no wait queue and no CPU holds. *)
Definition detached (s : sched) (Q : Z -> Z -> list Z) (W : Z -> list Z) (p : Z) : Prop :=
  p <> NULL /\ 0 <= priority (procs s p) < 5 /\ ~ lists Q p /\ (forall w, p ∉ W w) /\
  forall c, 0 <= c < num_cpus s -> current (rqs s).[c] <> p /\ idle_task (rqs s).[c] <> p.

Lemma detached_wf_mod s Q W p f :
  sched_wf s Q W -> detached s Q W p -> (forall b, priority (f b) = priority b) ->
  sched_wf (mod_proc s p f) Q W /\ detached (mod_proc s p f) Q W p.
Proof.
  intros (Hq & Hw & Hc) (Hp & Hpr & HnQ & HnW & Hcur) Hf. split; [split; [|split]|].
  - by apply qwf_mod_other.
  - by apply wwf_mod_other.
  - destruct Hc as [Hcu Hid]. split; intros c Hcr; change (rqs (mod_proc s p f)) with (rqs s);
      change (num_cpus (mod_proc s p f)) with (num_cpus s) in Hcr; destruct (Hcur c Hcr); rewrite procs_mod.
    + intros Hn. destruct (Z.eqb_spec (current (rqs s).[c]) p); [done|]. by apply Hcu.
    + intros Hn. destruct (Z.eqb_spec (idle_task (rqs s).[c]) p); [done|]. by apply Hid.
  - split; [done|]. rewrite procs_mod, Z.eqb_refl, Hf. done.
Qed.

(** Other processes keep everything but their queue link; CPUs keep who runs. *)
Record others_kept (s s' : sched) (l : list Z) : Prop := {
  ok_cpus : num_cpus s' = num_cpus s /\ wq_head s' = wq_head s;
  ok_proc : forall x, x ∉ l -> procs s' x = (procs s x) <| sched_next := sched_next (procs s' x) |>;
  ok_prio : forall x, priority (procs s' x) = priority (procs s x);
  ok_rq : forall c, 0 <= c < num_cpus s -> current (rqs s').[c] = current (rqs s).[c] /\
    idle_task (rqs s').[c] = idle_task (rqs s).[c] /\ ticks (rqs s').[c] = ticks (rqs s).[c]
}.

Lemma add_spec s Q W c p :
  sched_wf s Q W -> 0 <= c < num_cpus s -> detached s Q W p ->
  let t := target_cpu s in
  let s' := scheduler_add_process s c p in
  sched_wf s' (Qset Q t (priority (procs s p)) (Q t (priority (procs s p)) ++ [p])) W /\
  others_kept s s' [p] /\ cpu (procs s' p) = t /\ state (procs s' p) = PROC_READY /\
  time_slice (procs s' p) = time_quantum.[priority (procs s p)] /\
  wq (procs s' p) = wq (procs s p) /\ wq_next (procs s' p) = wq_next (procs s p) /\
  events s' = events s ++ (if negb (current (rqs s).[c] =? NULL) &&
    (priority (procs s p) <? priority (procs s (current (rqs s).[c]))) then [Resched t] else []).
Proof.
  intros Hwf Hc Hd t s'. pose proof Hd as (Hp & Hpr & HnQ & HnW & Hcur).
  destruct (target_cpu_spec s ltac:(lia)) as (Ht & _). fold t in Ht.
  unfold s', scheduler_add_process. destruct (Z.eqb_spec p NULL); [done|]. cbv zeta.
  change (pick_cpu (Z.to_nat (num_cpus s)) s 0 0 0xFFFFFFFF) with t. set (f := fun b : pcb => _).
  destruct (detached_wf_mod s Q W p f Hwf Hd) as [(Hq1 & Hw1 & Hc1) (_ & _ & _ & _ & Hcur1)]; [by intros []|].
  set (s1 := mod_proc s p f) in *.
  assert (Hp1 : procs s1 p = f (procs s p)) by (unfold s1; by rewrite procs_mod, Z.eqb_refl).
  assert (Hpo : forall x, x <> p -> procs s1 x = procs s x).
  { intros x Hx. unfold s1. rewrite procs_mod. by destruct (Z.eqb_spec x p). }
  pose proof (enqueue_spec s1 Q p t (priority (procs s p)) Hq1 Hp ltac:(by rewrite Hp1) ltac:(by rewrite Hp1) Ht Hpr
    ltac:(by rewrite Hp1) HnQ) as Hq2.
  pose proof (enqueue_links_only s1 p ltac:(by rewrite Hp1) (qw_cpus _ _ Hq1) Hp) as Hlo.
  pose proof (lo_cpus _ _ Hlo) as (Hn2 & Hw2 & He2 & _). set (s2 := enqueue_process s1 p) in *.
  assert (Hwf2 : sched_wf s2 (Qset Q t (priority (procs s p)) (Q t (priority (procs s p)) ++ [p])) W).
  { split; [done|]. split; [by apply (wwf_links s1)|]. destruct Hc1 as [Hcu Hid]. split; intros c' Hc';
      rewrite Hn2 in Hc'; destruct (lo_rq _ _ Hlo c' Hc') as (E1 & E2 & _); rewrite ?E1, ?E2.
    - rewrite (lo_field cpu _ _ _ Hlo), (lo_field priority _ _ _ Hlo) by done. intros Hn.
      destruct (Hcu c' Hc' Hn) as (? & ? & HQ & ?). split; [done|]. split; [done|]. split; [|done].
      intros c2 q2 [(_ & _ & [Hx|Hx%list_elem_of_singleton]%elem_of_app)|[_ Hx]]%elem_of_Qset;
        [by eapply HQ| |by eapply HQ]. by destruct (Hcur c' Hc').
    - rewrite (lo_field cpu _ _ _ Hlo), (lo_field priority _ _ _ Hlo) by done. by apply Hid. }
  assert (Hcc : current (rqs s2).[c] = current (rqs s).[c]) by (by destruct (lo_rq _ _ Hlo c Hc) as (-> & _)).
  assert (Hpc : priority (procs s2 (current (rqs s2).[c])) = priority (procs s (current (rqs s).[c]))).
  { rewrite Hcc, (lo_field priority _ _ _ Hlo) by done. rewrite Hpo; [done|]. by apply Hcur. }
  assert (Hpp : priority (procs s2 p) = priority (procs s p)).
  { rewrite (lo_field priority _ _ _ Hlo), Hp1 by done. done. }
  set (e := negb (current (rqs s2).[c] =? NULL) && _).
  assert (Hs3 : forall Q', sched_wf s2 Q' W -> sched_wf (if e then emit s2 (Resched t) else s2) Q' W)
    by (intros; destruct e; [by apply emit_wf|done]).
  assert (Hpj : procs (if e then emit s2 (Resched t) else s2) = procs s2 /\ rqs (if e then emit s2 (Resched t) else s2) = rqs s2 /\
    num_cpus (if e then emit s2 (Resched t) else s2) = num_cpus s2 /\ wq_head (if e then emit s2 (Resched t) else s2) = wq_head s2)
    by (by destruct e).
  destruct Hpj as (Ep & Er & En & Ew). split; [by apply Hs3|]. rewrite Ep.
  split; [|split; [|split; [|split; [|split; [|split]]]]].
  - split.
    + rewrite En, Ew. split; [done|]. by rewrite Hw2.
    + intros x Hx. rewrite Ep, (lo_proc _ _ Hlo x), Hpo by (intros ->; apply Hx; by apply list_elem_of_singleton). done.
    + intros x. rewrite Ep, (lo_field priority _ _ _ Hlo) by done. destruct (decide (x = p)) as [->|Hx]; [by rewrite Hp1|by rewrite Hpo].
    + intros c' Hc'. rewrite Er. apply (lo_rq _ _ Hlo c' Hc').
  - by rewrite (lo_field cpu _ _ _ Hlo), Hp1 by done.
  - by rewrite (lo_field state _ _ _ Hlo), Hp1 by done.
  - by rewrite (lo_field time_slice _ _ _ Hlo), Hp1 by done.
  - by rewrite (lo_field wq _ _ _ Hlo), Hp1 by done.
  - by rewrite (lo_field wq_next _ _ _ Hlo), Hp1 by done.
  - assert (He : e = negb (current (rqs s).[c] =? NULL) &&
      (priority (procs s p) <? priority (procs s (current (rqs s).[c])))).
    { unfold e. by rewrite Hpc, Hpp, Hcc. }
    rewrite <- He. clear He. change (events s1) with (events s) in He2. destruct e.
    + change (events (emit s2 (Resched t))) with (events s2 ++ [Resched t]). by rewrite He2.
    + by rewrite He2, app_nil_r.
Qed.

Lemma wake_spec s Q W c p :
  sched_wf s Q W -> 0 <= c < num_cpus s -> detached s Q W p ->
  let t := target_cpu s in
  let s' := wake s c p in
  sched_wf s' (Qset Q t (priority (procs s p)) (Q t (priority (procs s p)) ++ [p])) W /\
  others_kept s s' [p] /\ state (procs s' p) = PROC_READY /\ wq (procs s' p) = NULL /\ wq_next (procs s' p) = NULL.
Proof.
  intros Hwf Hc Hd t s'. unfold s', wake. set (f := fun b : pcb => _).
  destruct (detached_wf_mod s Q W p f Hwf Hd) as [Hwf1 Hd1]; [by intros []|].
  destruct (add_spec (mod_proc s p f) Q W c p Hwf1 Hc Hd1) as (H1 & H2 & H3 & H4 & H5 & H6 & H7 & _).
  assert (Hp1 : procs (mod_proc s p f) p = f (procs s p)) by (by rewrite procs_mod, Z.eqb_refl).
  rewrite Hp1 in *. rewrite (target_cpu_rqs s (mod_proc s p f)) in H1 by done.
  split; [done|]. split; [|by split_and!].
  destruct H2 as [Hn Hpx Hpr Hr]. split; [done|..].
  - intros x Hx. pose proof (Hpx x Hx) as E. rewrite procs_mod in E.
    destruct (Z.eqb_spec x p) as [->|]; [set_solver|exact E].
  - intros x. rewrite Hpr, procs_mod. by destruct (Z.eqb_spec x p) as [->|].
  - done.
Qed.

Lemma wake_list_spec l fuel s Q W c x :
  sched_wf s Q W -> 0 <= c < num_cpus s -> chain (wnext s) x l -> (length l < fuel)%nat ->
  (forall p, p ∈ l -> detached s Q W p) ->
  exists s' Q', wake_list fuel s c x = Some s' /\ sched_wf s' Q' W /\
    (forall p, lists Q' p <-> lists Q p \/ p ∈ l) /\ others_kept s s' l.
Proof.
  revert fuel s Q x. induction l as [|p l IH]; intros fuel s Q x Hwf Hc Hch Hf Hl;
    (destruct fuel as [|fuel]; [cbn in Hf; lia|]); cbn [wake_list].
  { apply chain_nil in Hch as ->. exists s, Q. split; [done|]. split; [done|]. split.
    - intros p. set_solver.
    - split; [done| |done|done]. intros y _. by destruct (procs s y). }
  pose proof (chain_NoDup _ _ _ Hch) as Hnd. apply NoDup_cons in Hnd as [Hpl Hnd].
  apply chain_cons in Hch as (-> & Hp & Hch). destruct (Z.eqb_spec p NULL); [done|].
  destruct (wake_spec s Q W c p Hwf Hc) as (Hwf1 & Hok & _); [apply Hl; set_solver|].
  pose proof Hok as [[Hn1 Hw1] Hpx1 Hpr1 Hr1]. set (s1 := wake s c p) in *.
  set (Q1 := Qset Q _ _ _) in *.
  assert (HQ1 : forall y, lists Q1 y <-> lists Q y \/ y = p).
  { intros y. unfold lists, Q1. setoid_rewrite elem_of_Qset. split.
    - intros (c' & q' & [(_ & _ & [?| ->%list_elem_of_singleton]%elem_of_app)|[_ ?]]); [left|by right|left]; by eexists _, _.
    - intros [(c' & q' & Hy)| ->].
      + exists c', q'. destruct (decide (c' = target_cpu s /\ q' = priority (procs s p))) as [[-> ->]|]; [left|by right].
        split_and!; [done|done|set_solver].
      + eexists _, _. left. split_and!; [done|done|set_solver]. }
  destruct (IH fuel s1 Q1 (wnext s p)) as (s' & Q' & E & Hwf' & HQ' & [[Hn' Hw'] Hpx' Hpr' Hr']);
    [done|by rewrite Hn1| |cbn in Hf; lia| |].
  - apply (chain_ext (wnext s)); [|done]. intros y Hy. unfold wnext. rewrite (Hpx1 y); [done|set_solver].
  - intros y Hy. destruct (Hl y) as (Hy0 & Hyp & HyQ & HyW & Hyc); [set_solver|]. split; [done|].
    rewrite Hpr1. split; [done|]. rewrite HQ1. split; [intros [?| ->]; done|]. split; [done|].
    intros c' Hc'. rewrite Hn1 in Hc'. destruct (Hr1 c' Hc') as (-> & -> & _). by apply Hyc.
  - exists s', Q'. split; [done|]. split; [done|]. split.
    + intros y. rewrite HQ', HQ1. set_solver.
    + split; [split; congruence| |by intros; rewrite Hpr'|].
      * intros y Hy. pose proof (Hpx' y ltac:(set_solver)) as E1. pose proof (Hpx1 y ltac:(set_solver)) as E2.
        rewrite E2 in E1. exact E1.
      * intros c' Hc'. destruct (Hr' c') as (-> & -> & ->); [by rewrite Hn1|]. by apply Hr1.
Qed.

Definition Wset (W : Z -> list Z) (w : Z) (l : list Z) : Z -> list Z := fun w' => if w' =? w then l else W w'.

Lemma elem_of_Wset W w l w' p : p ∈ Wset W w l w' <-> (w' = w /\ p ∈ l) \/ (w' <> w /\ p ∈ W w').
Proof. unfold Wset. destruct (Z.eqb_spec w' w); naive_solver. Qed.

(** Taking processes off a wait queue leaves them detached. *)
Lemma unqueue_wf s Q W w h l :
  sched_wf s Q W -> chain (wnext s) h l -> l ⊆ W w ->
  sched_wf (set_wq_head s w h) Q (Wset W w l) /\
  forall p, p ∈ W w -> p ∉ l -> detached (set_wq_head s w h) Q (Wset W w l) p.
Proof.
  intros (Hq & [Hch Hin] & Hc) Hl Hsub.
  assert (HW : forall w' p, p ∈ Wset W w l w' -> p ∈ W w').
  { intros w' p [(-> & ?)|[_ ?]]%elem_of_Wset; [by apply Hsub|done]. }
  split; [split; [|split]|].
  - destruct Hq as [? ? ? ?]. by split.
  - split.
    + intros w'. unfold Wset. change (wnext (set_wq_head s w h)) with (wnext s). unfold set_wq_head. rec_simpl.
      destruct (Z.eqb_spec w' w) as [->|]; [by rewrite fn_lookup_insert|]. by rewrite fn_lookup_insert_ne.
    + intros w' p Hp. apply Hin. by apply HW.
  - apply (cwf_proj s _ Q _ W _ Hc); try done; [intros c q p ?; by exists c, q|]. intros w' p ?%HW. eauto.
  - intros p Hp Hpl. destruct (Hin w p Hp) as (Hst & Hpw & Hpr).
    split; [by eapply seg_nonnull; [apply Hch|]|]. split; [done|]. split; [|split].
    + intros (c & q & Hx). apply (qw_in _ _ Hq) in Hx as (_ & _ & _ & _ & ?). congruence.
    + intros w' [(-> & ?)|[Hne Hx]]%elem_of_Wset; [done|]. destruct (Hin w' p Hx) as (_ & ? & _). congruence.
    + intros c Hcr. change (num_cpus (set_wq_head s w h)) with (num_cpus s) in Hcr.
      change (rqs (set_wq_head s w h)) with (rqs s).
      assert (Hp0 : p <> NULL) by (by eapply seg_nonnull; [apply Hch|]). split; intros E.
      * destruct (cw_current _ _ _ Hc c Hcr) as (_ & _ & _ & Hx); [by rewrite E|]. rewrite E in Hx. by apply (Hx w).
      * destruct (cw_idle _ _ _ Hc c Hcr) as (_ & _ & Hx); [by rewrite E|]. rewrite E in Hx. by apply (Hx w).
Qed.

Lemma wakeup_spec fuel s Q W c w :
  sched_wf s Q W -> 0 <= c < num_cpus s -> w <> NULL -> (length (W w) < fuel)%nat ->
  exists s' Q', scheduler_wakeup fuel s c w = Some s' /\ sched_wf s' Q' (Wset W w []) /\
    (forall p, lists Q' p <-> lists Q p \/ p ∈ W w) /\ others_kept (set_wq_head s w NULL) s' (W w).
Proof.
  intros Hwf Hc Hw Hf. unfold scheduler_wakeup. destruct (Z.eqb_spec w NULL); [done|].
  destruct (unqueue_wf s Q W w NULL [] Hwf) as [Hwf1 Hd]; [done|set_solver|].
  apply (wake_list_spec (W w)); [done|done| |done|].
  - apply (ww_chain _ _ (proj1 (proj2 Hwf))).
  - intros p Hp. apply Hd; [done|set_solver].
Qed.

Lemma wakeup_one_spec s Q W c w p l :
  sched_wf s Q W -> 0 <= c < num_cpus s -> w <> NULL -> W w = p :: l ->
  let q := priority (procs s p) in
  let s' := scheduler_wakeup_one s c w in
  exists t, 0 <= t < num_cpus s /\ sched_wf s' (Qset Q t q (Q t q ++ [p])) (Wset W w l) /\
    state (procs s' p) = PROC_READY /\ others_kept (set_wq_head s w (wq_next (procs s p))) s' [p].
Proof.
  intros Hwf Hc Hw HW q s'. unfold s', scheduler_wakeup_one. destruct (Z.eqb_spec w NULL); [done|]. cbv zeta.
  pose proof (ww_chain _ _ (proj1 (proj2 Hwf)) w) as Hch. rewrite HW in Hch.
  pose proof (chain_NoDup _ _ _ Hch) as [Hpl _]%NoDup_cons.
  apply chain_cons in Hch as (-> & Hp & Hch). destruct (Z.eqb_spec p NULL); [done|]. cbn [negb].
  destruct (unqueue_wf s Q W w (wq_next (procs s p)) l Hwf) as [Hwf1 Hd]; [done|rewrite HW; set_solver|].
  destruct (wake_spec _ Q (Wset W w l) c p Hwf1 Hc) as (H1 & H2 & H3 & _); [apply Hd; [rewrite HW; set_solver|done]|].
  exists (target_cpu (set_wq_head s w (wq_next (procs s p)))).
  split; [apply (target_cpu_spec (set_wq_head s w (wq_next (procs s p)))); change (0 < num_cpus s); lia|]. by split_and!.
Qed.

(** ** [scheduler_sleep_on] *)

Lemma sleep_on_spec s Q W c w :
  let cur := current (rqs s).[c] in
  sched_wf s Q W -> 0 <= c < num_cpus s -> cur <> NULL ->
  idle_task (rqs s).[c] <> NULL -> idle_task (rqs s).[c] <> cur ->
  exists s' next Q', scheduler_sleep_on s c w = Some s' /\
    sched_wf s' Q' (Wset W w (cur :: W w)) /\
    ((exists q l, highest Q c (Some (q, next, l)) /\ Q' = Qset Q c q l) \/
     (highest Q c None /\ next = idle_task (rqs s).[c] /\ Q' = Q)) /\
    current (rqs s').[c] = next /\ state (procs s' next) = PROC_RUNNING /\
    state (procs s' cur) = PROC_SLEEPING /\ wq (procs s' cur) = w /\ events s' = events s ++ [Switch cur next].
Proof.
  intros cur (Hq & Hw & Hcw) Hc Hcur Hid Hne. unfold scheduler_sleep_on, sleep_switch, sleep_enqueue. cbv zeta. fold cur.
  destruct (Z.eqb_spec cur NULL); [done|].
  destruct (cw_current _ _ _ Hcw c Hc Hcur) as (Hcpu & Hpr & HnQ & HnW). fold cur in Hcpu, Hpr, HnQ, HnW.
  set (f := fun b : pcb => b <| state := PROC_SLEEPING |> <| wq := w |>).
  set (s1 := mod_proc s cur f). change (wq_head s1 w) with (wq_head s w).
  set (g := fun b : pcb => b <| wq_next := wq_head s w |>). set (s2 := set_wq_head (mod_proc s1 cur g) w cur).
  assert (Hp2 : forall x, procs s2 x = if x =? cur then g (f (procs s cur)) else procs s x).
  { intros x. unfold s2, s1. change (procs (set_wq_head ?s' _ _)) with (procs s'). rewrite !procs_mod, Z.eqb_refl.
    by destruct (Z.eqb_spec x cur). }
  assert (Hnl : ~ lists Q cur) by (intros (c' & q & Hx); by apply (HnQ c' q)).
  assert (Hq2 : qwf s2 Q).
  { assert (Hq1 : qwf (mod_proc s1 cur g) Q) by (apply qwf_mod_other; [by apply qwf_mod_other|done]).
    destruct Hq1 as [? ? ? ?]. by split. }
  assert (Hw2 : wwf s2 (Wset W w (cur :: W w))).
  { destruct Hw as [Hch Hin]. split.
    - intros w'. unfold Wset. change (wq_head s2) with (<[w := cur]> (wq_head s)).
      assert (Hext : forall w2, chain (wnext s2) (wq_head s w2) (W w2)).
      { intros w2. apply (chain_ext (wnext s)); [|apply Hch]. intros x Hx. unfold wnext. rewrite Hp2.
        destruct (Z.eqb_spec x cur) as [->|]; [by apply HnW in Hx|done]. }
      destruct (Z.eqb_spec w' w) as [->|Hnw].
      + rewrite fn_lookup_insert. apply chain_cons. split; [done|]. split; [done|]. unfold wnext at 2.
        rewrite Hp2, Z.eqb_refl. apply Hext.
      + rewrite fn_lookup_insert_ne by done. apply Hext.
    - intros w' x Hx. rewrite Hp2. destruct (Z.eqb_spec x cur) as [->|Hnx].
      + apply elem_of_Wset in Hx as [[-> _]|[_ Hx]]; [done|by apply HnW in Hx].
      + apply Hin. apply elem_of_Wset in Hx as [[-> [?|?]%elem_of_cons]|[_ ?]]; done. }
  destruct (dequeue_spec s2 Q c Hq2 Hc) as (s3 & nx & r & E & Hlo & Hhi & Hr). rewrite E.
  pose proof (lo_cpus _ _ Hlo) as (Hn3 & _ & He3 & _). change (events s2) with (events s) in He3.
  change (num_cpus s2) with (num_cpus s) in Hn3.
  assert (Hr3 : forall c', 0 <= c' < num_cpus s -> current (rqs s3).[c'] = current (rqs s).[c'] /\
    idle_task (rqs s3).[c'] = idle_task (rqs s).[c']).
  { intros c' Hc'. by destruct (lo_rq _ _ Hlo c' Hc') as (-> & -> & _). }
  destruct (Hr3 c Hc) as [_ Hid3]. rewrite Hid3.
  set (next := if nx =? NULL then idle_task (rqs s).[c] else nx).
  assert (Hp3 : forall x, cpu (procs s3 x) = cpu (procs s x) /\ priority (procs s3 x) = priority (procs s x)).
  { intros x. rewrite (lo_field cpu _ _ _ Hlo), (lo_field priority _ _ _ Hlo), Hp2 by done.
    by destruct (Z.eqb_spec x cur) as [->|]. }
  assert (Hnext : exists Q', qwf s3 Q' /\ next <> NULL /\ next <> cur /\
    cpu (procs s next) = c /\ 0 <= priority (procs s next) < 5 /\ ~ lists Q' next /\ (forall w', next ∉ W w') /\
    (forall c' q p, p ∈ Q' c' q -> lists Q p) /\
    ((exists q l, highest Q c (Some (q, next, l)) /\ Q' = Qset Q c q l) \/
     (highest Q c None /\ next = idle_task (rqs s).[c] /\ Q' = Q))).
  { destruct r as [[[q p] l]|].
    - destruct Hr as (-> & Hpn & Hq3). unfold next. destruct (Z.eqb_spec p NULL); [done|].
      exists (Qset Q c q l). pose proof Hhi as (Hqr & HQ & _).
      assert (Hin : p ∈ Q c q) by (rewrite HQ; set_solver).
      destruct (qw_in _ _ Hq c q p Hin) as (_ & _ & Hcp & Hpp & Hst).
      split; [done|]. split; [done|]. split; [by intros ->; apply (HnQ c q)|]. split; [done|].
      split; [by rewrite Hpp|]. split; [|split; [|split]].
      + intros (c' & q' & [(-> & -> & Hx)|[Hn Hx]]%elem_of_Qset).
        * destruct (qw_queue _ _ Hq c q Hc Hqr) as (Hch & _). rewrite HQ in Hch.
          by apply chain_NoDup, NoDup_cons in Hch as [? _].
        * destruct (qw_in _ _ Hq c' q' p Hx) as (_ & _ & ? & ? & _). apply Hn. split; congruence.
      + intros w' Hx. destruct (ww_in _ _ Hw w' p Hx) as (? & _). congruence.
      + intros c' q' x [(-> & -> & Hx)|[_ Hx]]%elem_of_Qset; eexists _, _; [rewrite HQ; by right|done].
      + left. by exists q, l.
    - destruct Hr as (-> & Hq3). unfold next. rewrite Z.eqb_refl. exists Q.
      destruct (cw_idle _ _ _ Hcw c Hc Hid) as (Hci & Hpi & HWi).
      split; [done|]. split; [done|]. split; [done|]. split; [done|]. split; [done|]. split; [|split; [done|split]].
      + intros (c' & q' & Hx). destruct (qw_in _ _ Hq c' q' _ Hx) as (_ & _ & Hc' & _). rewrite Hci in Hc'. subst c'.
        rewrite Hhi in Hx. by apply not_elem_of_nil in Hx.
      + intros c' q' x ?. by exists c', q'.
      + by right. }
  destruct Hnext as (Q' & Hq3 & Hnn & Hnc & Hcn & Hpn & HnQ' & HnW' & Hsub & Hcase).
  assert (HnW2 : forall w', next ∉ Wset W w (cur :: W w) w').
  { intros w' [(-> & [?|?]%elem_of_cons)|[_ ?]]%elem_of_Wset; [done|by eapply HnW'|by eapply HnW']. }
  destruct (run_next s3 c next) as [s4|] eqn:E4; [|by unfold run_next in E4; destruct (Z.eqb_spec next NULL)].
  destruct (Hp3 next) as [E5 E6].
  destruct (run_next_spec s3 Q' (Wset W w (cur :: W w)) c next s4) as (Hwf4 & Hcu & Hst & _ & He4 & _ & Hpo4); try done.
  - by apply (wwf_links s2).
  - by rewrite Hn3.
  - intros c' Hc' Hnc'. rewrite Hn3 in Hc'. destruct (Hr3 c' Hc') as [-> _]. intros Hnn'.
    destruct (cw_current _ _ _ Hcw c' Hc' Hnn') as (Hcc & Hcp & HnQ2 & HnWc).
    destruct (Hp3 (current (rqs s).[c'])) as [-> ->]. split; [done|]. split; [done|]. split.
    + intros (c2 & q2 & Hx). apply Hsub in Hx as (c3 & q3 & Hx). by apply (HnQ2 c3 q3).
    + intros w' [(-> & [Hx|Hx]%elem_of_cons)|[_ Hx]]%elem_of_Wset; [|by eapply HnWc..]. apply Hnc'. by rewrite <- Hcc, Hx.
  - intros c' Hc'. rewrite Hn3 in Hc'. destruct (Hr3 c' Hc') as [_ ->]. intros Hnn'.
    destruct (cw_idle _ _ _ Hcw c' Hc' Hnn') as (Hcc & Hcp & HnWc).
    destruct (Hp3 (idle_task (rqs s).[c'])) as [-> ->]. split; [done|]. split; [done|].
    intros w' [(-> & [Hx|Hx]%elem_of_cons)|[_ Hx]]%elem_of_Wset; [|by eapply HnWc..].
    assert (c' = c) as -> by (rewrite <- Hcc, Hx; done). done.
  - congruence.
  - by rewrite E6.
  - cbn [option_map]. exists (emit s4 (Switch cur next)), next, Q'. split; [done|].
    split; [by apply emit_wf|]. split; [done|]. split; [done|]. split; [done|].
    change (procs (emit s4 (Switch cur next))) with (procs s4). rewrite Hpo4 by done.
    rewrite (lo_field state _ _ _ Hlo), (lo_field wq _ _ _ Hlo), Hp2, Z.eqb_refl by done.
    split; [done|]. split; [done|]. change (events (emit s4 (Switch cur next))) with (events s4 ++ [Switch cur next]).
    by rewrite He4, He3.
Qed.
