(* ===== verification/SchedRun.v ===== *)
(** The scheduler in operation: removal, the calls as a step relation with its
    reachable states, and the order in which processes run. *)
From S2P Require Import Prelude Sched.

(** * [scheduler_remove_process] *)

(** The struct whose link points to [p]: its predecessor, or [NULL] for the head. *)
Definition unlink (s : sched) (c q prev p : Z) : sched :=
  let nxt := sched_next (procs s p) in
  let s1 := if prev =? NULL then mod_rq s c (fun r => r <| queues := (queues r).[q <- nxt] |>)
            else mod_proc s prev (fun b => b <| sched_next := nxt |>) in
  if (tails (rqs s1).[c]).[q] =? p then mod_rq s1 c (fun r => r <| tails := (tails r).[q <- NULL] |>) else s1.

Lemma remove_walk_found l1 fuel s c q prev x p l2 :
  chain (snext s) x (l1 ++ p :: l2) -> (length l1 < fuel)%nat ->
  remove_walk fuel s c q prev x p = Some (unlink s c q (last_or_null (prev :: l1)) p).
Proof.
  revert fuel prev x. induction l1 as [|y l1 IH]; intros fuel prev x Hch Hf;
    pose proof (chain_NoDup _ _ _ Hch) as Hnd; (destruct fuel as [|fuel]; [cbn in Hf; lia|]);
    apply chain_cons in Hch as (-> & Hx & Hch); cbn [remove_walk].
  - destruct (Z.eqb_spec p NULL); [done|]. by rewrite Z.eqb_refl.
  - destruct (Z.eqb_spec y NULL); [done|]. destruct (Z.eqb_spec y p) as [->|Hne].
    { cbn in Hnd. apply NoDup_cons in Hnd as [Hn _]. exfalso. apply Hn. set_solver. }
    change (sched_next (procs s y)) with (snext s y). rewrite IH by (done || (cbn in Hf; lia)).
    unfold last_or_null. cbn [last]. by destruct l1.
Qed.

Lemma remove_walk_absent l fuel s c q prev x p :
  chain (snext s) x l -> p ∉ l -> (length l < fuel)%nat -> remove_walk fuel s c q prev x p = Some s.
Proof.
  revert fuel prev x. induction l as [|y l IH]; intros fuel prev x Hch Hp Hf;
    (destruct fuel as [|fuel]; [cbn in Hf; lia|]); cbn [remove_walk].
  - apply chain_nil in Hch as ->. done.
  - apply chain_cons in Hch as (-> & Hx & Hch). destruct (Z.eqb_spec y NULL); [done|].
    destruct (Z.eqb_spec y p) as [->|]; [set_solver|]. apply IH; [done|set_solver|cbn in Hf; lia].
Qed.

Lemma last_or_null_app l1 l2 : l2 <> [] -> last_or_null (l1 ++ l2) = last_or_null l2.
Proof.
  intros H. destruct l2 as [|x l2 _] using rev_ind; [done|]. by rewrite app_assoc, !last_or_null_snoc.
Qed.

Lemma unlink_links_only s c q prev p :
  0 <= c < num_cpus s -> num_cpus s = zlen (rqs s) -> links_only s (unlink s c q prev p).
Proof.
  intros Hc Hn. unfold unlink. cbv zeta. set (s1 := if prev =? NULL then _ else _).
  assert (H1 : links_only s s1 /\ zlen (rqs s1) = zlen (rqs s)).
  { unfold s1. destruct (prev =? NULL); split.
    - apply mod_rq_links_only; [by intros []|lia].
    - by rewrite zlen_rqs_mod.
    - split; [done| |done]. intros x. rewrite procs_mod. destruct (Z.eqb_spec x prev) as [->|]; [done|by destruct (procs s x)].
    - done. }
  destruct H1 as [H1 Hz]. destruct (_ =? p); [|done]. eapply links_only_trans; [done|].
  apply mod_rq_links_only; [by intros []|lia].
Qed.

Section unlinking.
Context (s : sched) (Q : Z -> Z -> list Z) (c q p : Z) (l1 l2 : list Z).
Hypothesis (Hwf : qwf s Q) (HQ : Q c q = l1 ++ p :: l2).

Notation prv := (last_or_null (NULL :: l1)).
Notation s' := (unlink s c q prv p).

Lemma unlink_where : 0 <= c < num_cpus s /\ 0 <= q < 5.
Proof. destruct (qw_in _ _ Hwf c q p) as (? & ? & _); [rewrite HQ; set_solver|]. done. Qed.

Lemma unlink_chain : chain (snext s) (queues (rqs s).[c]).[q] (l1 ++ p :: l2) /\
  (tails (rqs s).[c]).[q] = last_or_null (l1 ++ p :: l2).
Proof.
  destruct unlink_where as [Hc Hq]. destruct (qw_queue _ _ Hwf c q Hc Hq) as (H1 & H2 & _). by rewrite HQ in H1, H2.
Qed.

Lemma unlink_prev : prv = NULL /\ l1 = [] \/ prv <> NULL /\ prv ∈ l1 /\ exists l0, l1 = l0 ++ [prv].
Proof.
  destruct unlink_chain as [Hch _].
  destruct l1 as [|y l0 _] using rev_ind; [by left|]. right.
  change (NULL :: l0 ++ [y]) with ((NULL :: l0) ++ [y]). rewrite last_or_null_snoc. split; [|split; [set_solver|by exists l0]].
  eapply seg_nonnull; [exact Hch|]. set_solver.
Qed.

(** The tail is rewritten only when the queue becomes empty. *)
Lemma unlink_tail : (last_or_null (l1 ++ p :: l2) =? p) = bool_decide (l2 = []).
Proof.
  destruct unlink_chain as [Hch _]. apply chain_NoDup in Hch.
  rewrite last_or_null_app by done. destruct l2 as [|x l _] using rev_ind.
  - cbn. by rewrite Z.eqb_refl.
  - change (p :: l ++ [x]) with ((p :: l) ++ [x]) in *. rewrite last_or_null_snoc.
    rewrite bool_decide_eq_false_2 by (by destruct l). apply Z.eqb_neq. intros ->.
    apply NoDup_app in Hch as (_ & _ & Hch). apply NoDup_cons in Hch as [Hn _]. apply Hn. set_solver.
Qed.

Lemma unlink_snext x :
  snext s' x = if (x =? prv) && negb (prv =? NULL) then sched_next (procs s p) else snext s x.
Proof.
  unfold unlink. cbv zeta. destruct (prv =? NULL) eqn:E; cbn [negb].
  - rewrite andb_false_r. by destruct (_ =? p).
  - rewrite andb_true_r. unfold snext.
    assert (Hg : forall t : sched, procs (if (tails (rqs t).[c]).[q] =? p
       then mod_rq t c (fun r => r <| tails := (tails r).[q <- NULL] |>) else t) = procs t) by (intros t; by destruct (_ =? p)).
    rewrite Hg, procs_mod. by destruct (Z.eqb_spec x prv).
Qed.

Definition rq_unlink (r : runqueue) : runqueue :=
  let r1 := if prv =? NULL then r <| queues := (queues r).[q <- sched_next (procs s p)] |> else r in
  if bool_decide (l2 = []) then r1 <| tails := (tails r).[q <- NULL] |> else r1.

Lemma unlink_rqs c' : 0 <= c' -> (rqs s').[c'] = if c =? c' then rq_unlink (rqs s).[c] else (rqs s).[c'].
Proof.
  intros Hc'. destruct unlink_where as [Hc Hq]. pose proof (qw_cpus _ _ Hwf) as Hn. destruct unlink_chain as [_ Ht].
  unfold unlink. cbv zeta. set (s1 := if prv =? NULL then _ else _).
  assert (H1 : forall c', 0 <= c' -> (rqs s1).[c'] = if c =? c' then
     (if prv =? NULL then (rqs s).[c] <| queues := (queues (rqs s).[c]).[q <- sched_next (procs s p)] |> else (rqs s).[c])
     else (rqs s).[c']).
  { intros c2 Hc2. unfold s1. destruct (prv =? NULL).
    - by rewrite rqs_mod by lia.
    - change (rqs (mod_proc s prv (fun b => b <| sched_next := sched_next (procs s p) |>))) with (rqs s).
      by destruct (Z.eqb_spec c c2) as [->|]. }
  assert (Hz : zlen (rqs s1) = zlen (rqs s)) by (unfold s1; destruct (prv =? NULL); [by rewrite zlen_rqs_mod|done]).
  assert (Ht1 : (tails (rqs s1).[c]).[q] = (tails (rqs s).[c]).[q]).
  { rewrite H1 by lia. rewrite Z.eqb_refl. by destruct (prv =? NULL). }
  rewrite Ht1, Ht, unlink_tail. unfold rq_unlink. destruct (bool_decide (l2 = [])).
  - rewrite rqs_mod by lia. rewrite !H1 by lia. rewrite Z.eqb_refl.
    destruct (Z.eqb_spec c c'); [|done]. by destruct (prv =? NULL).
  - rewrite H1 by lia. done.
Qed.

Hypothesis (Hok : l2 <> [] \/ l1 = []).

Lemma unlink_qwf : qwf s' (Qset Q c q (l1 ++ l2)).
Proof.
  destruct unlink_where as [Hc Hq]. destruct unlink_chain as [Hch Ht].
  pose proof (chain_NoDup _ _ _ Hch) as Hnd. pose proof Hwf as [Hn Hl Hqq Hin].
  pose proof (unlink_links_only s c q prv p Hc Hn) as Hlo. pose proof (lo_cpus _ _ Hlo) as (Hn' & _).
  assert (Hz : zlen (rqs s') = zlen (rqs s)).
  { unfold unlink. cbv zeta. destruct (prv =? NULL); destruct (_ =? p); rewrite ?zlen_rqs_mod; done. }
  assert (Hpq : forall c' q', prv <> NULL -> prv ∈ Q c' q' -> c' = c /\ q' = q).
  { intros c' q' Hpn Hx. destruct unlink_prev as [[? _]|(_ & Hp1 & _)]; [done|].
    destruct (Hin _ _ _ Hx) as (_ & _ & E1 & E2 & _).
    destruct (Hin c q prv) as (_ & _ & E3 & E4 & _); [rewrite HQ; set_solver|]. split; congruence. }
  destruct (Hl c Hc) as (L1 & L2 & L3). split.
  - by rewrite Hn', Hz.
  - intros c' Hc'. rewrite Hn' in Hc'. rewrite unlink_rqs by lia. destruct (Z.eqb_spec c c') as [<-|]; [|by apply Hl].
    unfold rq_unlink. destruct (prv =? NULL), (bool_decide (l2 = [])); rec_simpl; rewrite ?zlen_aset; done.
  - intros c' q' Hc' Hq'. rewrite Hn' in Hc'. rewrite unlink_rqs by lia.
    destruct (decide (c' = c /\ q' = q)) as [[-> ->]|Hne]; cycle 1.
    { assert (Qset Q c q (l1 ++ l2) c' q' = Q c' q') as ->.
      { unfold Qset. destruct (Z.eqb_spec c' c), (Z.eqb_spec q' q); try done. naive_solver. }
      destruct (Hqq c' q' Hc' Hq') as (Hch' & Ht' & Hb').
      assert (Hx : chain (snext s') (queues (rqs s).[c']).[q'] (Q c' q')).
      { apply (chain_ext (snext s)); [|done]. intros x Hx. rewrite unlink_snext.
        destruct (Z.eqb_spec x prv) as [->|]; [|done]. destruct (Z.eqb_spec prv NULL); [done|]. by destruct Hne; apply Hpq. }
      destruct (Z.eqb_spec c c') as [<-|]; [|done]. unfold rq_unlink.
      destruct (prv =? NULL), (bool_decide (l2 = [])); rec_simpl; rewrite ?aget_aset_ne by (try lia; naive_solver); done. }
    rewrite Z.eqb_refl, Qset_same. destruct (Hqq c q Hc Hq) as (_ & _ & Hb). split; [|split].
    + assert (Hhd : (queues (rq_unlink (rqs s).[c])).[q] =
        match l1 with [] => snext s p | _ => (queues (rqs s).[c]).[q] end).
      { unfold rq_unlink. destruct unlink_prev as [[E ->]|(E & Hp1 & _)].
        - rewrite E, Z.eqb_refl. destruct (bool_decide (l2 = [])); rec_simpl; by rewrite aget_aset_eq by lia.
        - destruct (Z.eqb_spec prv NULL); [done|]. destruct l1; [set_solver|]. by destruct (bool_decide (l2 = [])). }
      rewrite Hhd. apply (chain_unlink (snext s) (snext s') _ l1 p l2 Hch).
      * intros y Hy. rewrite unlink_snext. destruct (Z.eqb_spec y prv) as [->|]; [|done].
        destruct unlink_prev as [[-> _]|(_ & Hp1 & _)]; [done|].
        apply NoDup_app in Hnd as (_ & Hd & _). exfalso. apply (Hd prv Hp1). set_solver.
      * intros y Hy Hyp. rewrite unlink_snext. destruct (Z.eqb_spec y prv) as [->|]; [|done].
        destruct unlink_prev as [[-> _]|(_ & _ & l0 & El)]; [done|]. exfalso. apply Hyp.
        rewrite El in Hch. rewrite <- app_assoc in Hch. apply seg_app in Hch as (m & _ & Hm). cbn in Hm.
        destruct Hm as (_ & _ & Hm & _). done.
      * intros y Hy Hyp. rewrite unlink_snext. destruct unlink_prev as [[_ El]|(Hpn & _ & l0 & El)]; [rewrite El in Hy; set_solver|].
        destruct (Z.eqb_spec prv NULL); [done|]. destruct (Z.eqb_spec y prv) as [->|Hyn]; [done|]. exfalso.
        rewrite El in Hy. apply elem_of_app in Hy as [Hy|Hy]; [|set_solver].
        apply list_elem_of_split in Hy as (m1 & m2 & ->). rewrite El in Hch, Hnd.
        rewrite <- !app_assoc in Hch. apply seg_app in Hch as (m & _ & Hm). cbn in Hm. destruct Hm as (_ & _ & Hm).
        rewrite Hyp in Hm.
        destruct m2 as [|z m2]; cbn in Hm; destruct Hm as (Hz1 & _).
        -- clear -Hz1 Hnd. subst. rewrite <- !app_assoc in Hnd. apply NoDup_app in Hnd as (_ & _ & Hnd). cbn in Hnd.
           apply NoDup_cons in Hnd as [_ [Hnd _]%NoDup_cons]. apply Hnd. set_solver.
        -- clear -Hz1 Hnd. subst. apply NoDup_app in Hnd as (_ & Hd & _). apply (Hd z); set_solver.
    + unfold rq_unlink. destruct (prv =? NULL), (bool_decide_reflect (l2 = [])) as [->|Hn2]; rec_simpl;
        rewrite ?aget_aset_eq by lia; try (destruct Hok as [?| ->]; [done|done]);
        rewrite Ht, !last_or_null_app by done; by destruct l2.
    + intros _. assert (Hbm : queue_bitmap (rq_unlink (rqs s).[c]) = queue_bitmap (rqs s).[c])
        by (unfold rq_unlink; by destruct (prv =? NULL), (bool_decide (l2 = []))).
      rewrite Hbm. apply Hb. rewrite HQ. by destruct l1.
  - intros c' q' x. rewrite elem_of_Qset, !(lo_field _ _ _ _ Hlo) by done. rewrite Hn'.
    intros [(-> & -> & Hx)|[_ Hx]]; apply Hin; [rewrite HQ; set_solver|done].
Qed.
End unlinking.

(** Every place that holds [p] keeps its view of the other processes. *)
Lemma wf_retire s Q W Q' s1 p f :
  sched_wf s Q W -> qwf s1 Q' -> links_only s s1 -> ~ lists Q' p -> (forall w, p ∉ W w) ->
  (forall c q x, x ∈ Q' c q -> lists Q x) ->
  (forall b, cpu (f b) = cpu b /\ priority (f b) = priority b) -> sched_wf (mod_proc s1 p f) Q' W.
Proof.
  intros (Hq & Hw & Hc) Hq1 Hlo HpQ HpW Hsub Hf. split; [|split].
  - by apply qwf_mod_other.
  - apply wwf_mod_other; [by apply (wwf_links s)|done].
  - pose proof (lo_cpus _ _ Hlo) as (Hn & _). apply (cwf_proj s _ Q Q' W W Hc); [done| | |done|eauto].
    + intros x. rewrite procs_mod. assert (Hx : forall y, cpu (procs s1 y) = cpu (procs s y) /\ priority (procs s1 y) = priority (procs s y)).
      { intros y. by rewrite (lo_field cpu _ _ _ Hlo), (lo_field priority _ _ _ Hlo). }
      destruct (Z.eqb_spec x p) as [->|]; [|done]. destruct (Hf (procs s1 p)) as [-> ->]. done.
    + intros c Hcr. destruct (lo_rq _ _ Hlo c Hcr) as (E1 & E2 & _). by split.
Qed.

Lemma remove_spec fuel s Q W p :
  let c := cpu (procs s p) in
  let q := priority (procs s p) in
  sched_wf s Q W -> p <> NULL -> 0 <= c < num_cpus s -> 0 <= q < 5 -> (forall w, p ∉ W w) ->
  ((tails (rqs s).[c]).[q] = p -> (queues (rqs s).[c]).[q] = p) -> (length (Q c q) < fuel)%nat ->
  exists s' Q', scheduler_remove_process fuel s p = Some s' /\ sched_wf s' Q' W /\
    (forall x, lists Q' x <-> lists Q x /\ x <> p) /\ state (procs s' p) = PROC_DEAD /\
    (forall x, x <> p -> procs s' x = (procs s x) <| sched_next := sched_next (procs s' x) |>) /\
    (forall c', 0 <= c' < num_cpus s -> current (rqs s').[c'] = current (rqs s).[c'] /\
       idle_task (rqs s').[c'] = idle_task (rqs s).[c']) /\ events s' = events s.
Proof.
  intros c q Hwf Hp Hc Hq HpW Htail Hf. unfold scheduler_remove_process. destruct (Z.eqb_spec p NULL); [done|].
  cbv zeta. fold c. fold q. pose proof Hwf as (Hqw & _ & _).
  destruct (qw_queue _ _ Hqw c q Hc Hq) as (Hch & Ht & _). pose proof (chain_NoDup _ _ _ Hch) as Hnd.
  assert (Hout : forall c' q', p ∈ Q c' q' -> c' = c /\ q' = q).
  { intros c' q' Hx. by destruct (qw_in _ _ Hqw c' q' p Hx) as (_ & _ & <- & <- & _). }
  set (f := fun b : pcb => b <| sched_next := NULL |> <| state := PROC_DEAD |>).
  assert (Hres : exists s1 Q', remove_walk fuel s c q NULL (queues (rqs s).[c]).[q] p = Some s1 /\ qwf s1 Q' /\
    links_only s s1 /\ forall x, lists Q' x <-> lists Q x /\ x <> p).
  { destruct (decide (p ∈ Q c q)) as [Hin|Hin].
    - apply list_elem_of_split in Hin as (l1 & l2 & HQ). rewrite HQ in Hch, Hf, Ht, Hnd. rewrite length_app in Hf.
      assert (Hok : l2 <> [] \/ l1 = []).
      { destruct l2; [right|by left]. rewrite last_or_null_app in Ht by done. specialize (Htail Ht).
        destruct l1 as [|y l1]; [done|]. apply chain_cons in Hch as (E & _). rewrite Htail in E. subst y.
        apply NoDup_cons in Hnd as [Hnd _]. exfalso. apply Hnd. set_solver. }
      exists (unlink s c q (last_or_null (NULL :: l1)) p), (Qset Q c q (l1 ++ l2)).
      split; [apply remove_walk_found with l2; [done|lia]|]. split; [by apply unlink_qwf|].
      split; [apply unlink_links_only; [done|apply Hqw]|]. apply NoDup_app in Hnd as (_ & Hd & [Hn2 _]%NoDup_cons).
      intros x. unfold lists. setoid_rewrite elem_of_Qset. split.
      + intros (c' & q' & [(-> & -> & Hx)|[Hne Hx]]).
        * split; [exists c, q; rewrite HQ; set_solver|]. intros ->. apply elem_of_app in Hx as [Hx|Hx]; [|done].
          apply (Hd p Hx). set_solver.
        * split; [by exists c', q'|]. intros ->. by apply Hne, Hout.
      + intros [(c' & q' & Hx) Hxp]. exists c', q'. destruct (decide (c' = c /\ q' = q)) as [[-> ->]|]; [left|by right].
        rewrite HQ in Hx. set_solver.
    - exists s, Q. split; [by eapply remove_walk_absent|]. split; [done|]. split; [apply links_only_refl|].
      intros x. split; [|by intros [? _]]. intros Hx. split; [done|]. intros ->. destruct Hx as (c' & q' & Hx).
      destruct (Hout _ _ Hx) as [-> ->]. done. }
  destruct Hres as (s1 & Q' & -> & Hq1 & Hlo & HQ'). exists (mod_proc s1 p f), Q'. split; [done|]. split.
  { apply (wf_retire s Q W); try done.
    - rewrite HQ'. by intros [_ ?].
    - intros c' q' x Hx. apply HQ'. by exists c', q'. }
  split; [done|]. split; [by rewrite procs_mod, Z.eqb_refl|]. split; [|split].
  - intros x Hx. rewrite procs_mod. destruct (Z.eqb_spec x p); [done|]. apply (lo_proc _ _ Hlo).
  - intros c' Hc'. destruct (lo_rq _ _ Hlo c' Hc') as (E1 & E2 & _). by split.
  - by destruct (lo_cpus _ _ Hlo) as (_ & _ & E & _).
Qed.

(** * [scheduler_start], [scheduler_get_load] *)

Lemma start_spec s Q W c :
  sched_wf s Q W -> 0 <= c < num_cpus s -> sched_initialized s = true ->
  match scheduler_start s c with
  | None => highest Q c None
  | Some s' => exists q p l, highest Q c (Some (q, p, l)) /\ sched_wf s' (Qset Q c q l) W /\
      current (rqs s').[c] = p /\ state (procs s' p) = PROC_RUNNING /\ events s' = events s ++ [Jump p]
  end.
Proof.
  intros (Hq & Hw & Hcw) Hc Hi. unfold scheduler_start. rewrite Hi. cbn [negb].
  destruct (dequeue_spec s Q c Hq Hc) as (s1 & p & r & -> & Hlo & Hhi & Hr).
  destruct r as [[[q p'] l]|].
  2: { destruct Hr as [-> _]. unfold run_next. by rewrite Z.eqb_refl. }
  destruct Hr as (<- & Hp & Hq1). pose proof Hhi as (Hqr & HQ & _).
  assert (Hin : p ∈ Q c q) by (rewrite HQ; set_solver).
  destruct (qw_in _ _ Hq c q p Hin) as (_ & _ & Hcp & Hpp & Hst). destruct (qw_queue _ _ Hq c q Hc Hqr) as (Hch & _).
  rewrite HQ in Hch. apply chain_NoDup, NoDup_cons in Hch as [Hpl _].
  pose proof (lo_cpus _ _ Hlo) as (Hn & _ & He & _).
  assert (Hsub : forall c' q' x, x ∈ Qset Q c q l c' q' -> x ∈ Q c' q').
  { intros c' q' x [(-> & -> & Hx)|[_ Hx]]%elem_of_Qset; [rewrite HQ; by right|done]. }
  assert (Hfld : forall x, cpu (procs s1 x) = cpu (procs s x) /\ priority (procs s1 x) = priority (procs s x)).
  { intros x. by rewrite (lo_field cpu _ _ _ Hlo), (lo_field priority _ _ _ Hlo). }
  destruct (run_next s1 c p) as [s2|] eqn:E; [|by unfold run_next in E; destruct (Z.eqb_spec p NULL)].
  destruct (Hfld p) as [E1 E2].
  destruct (run_next_spec s1 (Qset Q c q l) W c p s2) as (Hwf2 & Hcu & Hst2 & _ & He2 & _); try done.
  - by apply (wwf_links s).
  - by rewrite Hn.
  - intros c' Hc' Hne. rewrite Hn in Hc'. destruct (lo_rq _ _ Hlo c' Hc') as (-> & _). intros Hnn.
    destruct (cw_current _ _ _ Hcw c' Hc' Hnn) as (? & ? & HnQ & ?). destruct (Hfld (current (rqs s).[c'])) as [-> ->].
    split; [done|]. split; [done|]. split; [|done]. intros (c2 & q2 & Hx). by eapply HnQ, Hsub.
  - intros c' Hc'. rewrite Hn in Hc'. destruct (lo_rq _ _ Hlo c' Hc') as (_ & -> & _). intros Hnn.
    destruct (Hfld (idle_task (rqs s).[c'])) as [-> ->]. by apply (cw_idle _ _ _ Hcw).
  - congruence.
  - by rewrite E2, Hpp.
  - intros (c' & q' & [(-> & -> & Hx)|[Hne Hx]]%elem_of_Qset); [done|].
    destruct (qw_in _ _ Hq c' q' p Hx) as (_ & _ & ? & ? & _). apply Hne. split; congruence.
  - intros w Hx. destruct (ww_in _ _ Hw w p Hx) as (? & _). congruence.
  - cbn [option_map]. exists q, p, l. split; [done|]. split; [by apply emit_wf|]. split; [done|]. split; [done|].
    unfold emit. rec_simpl. by rewrite He2, He.
Qed.

Lemma list_count_chain l fuel s x : chain (snext s) x l -> (length l < fuel)%nat -> list_count fuel s x = Some (zlen l).
Proof.
  revert fuel x. induction l as [|y l IH]; intros fuel x Hch Hf; (destruct fuel as [|fuel]; [cbn in Hf; lia|]); cbn [list_count].
  - by apply chain_nil in Hch as ->.
  - apply chain_cons in Hch as (-> & Hy & Hch). destruct (Z.eqb_spec y NULL); [done|].
    change (sched_next (procs s y)) with (snext s y). rewrite (IH fuel) by (done || (cbn in Hf; lia)).
    cbn [option_map]. f_equal. unfold zlen. cbn [length]. lia.
Qed.

(** The processes waiting for a CPU, idle queues aside *)
Definition total_queued (Q : Z -> Z -> list Z) (l : list (Z * Z)) : Z :=
  foldr (fun '(c, q) n => zlen (Q c q) + n) 0 l.

Lemma load_sum_spec fuel s Q l :
  qwf s Q -> (forall c q, (c, q) ∈ l -> 0 <= c < num_cpus s /\ 0 <= q < 5 /\ (length (Q c q) < fuel)%nat) ->
  load_sum fuel s l = Some (total_queued Q l).
Proof.
  intros Hq. induction l as [|[c q] l IH]; intros Hl; [done|]. cbn [load_sum total_queued foldr].
  destruct (Hl c q) as (Hc & Hqr & Hf); [set_solver|]. destruct (qw_queue _ _ Hq c q Hc Hqr) as (Hch & _).
  rewrite (list_count_chain _ _ _ _ Hch Hf), IH by set_solver. done.
Qed.

Lemma elem_of_load_queues s c q : (c, q) ∈ load_queues s -> 0 <= c < num_cpus s /\ 0 <= q < 4.
Proof.
  unfold load_queues. rewrite list_elem_of_bind. intros (c' & Hx & Hc). apply list_elem_of_fmap in Hx as (q' & [= -> ->] & Hq').
  apply elem_of_seqZ in Hc, Hq'. unfold SCHED_QUEUES in *. lia.
Qed.

Lemma get_load_spec fuel s Q :
  qwf s Q -> (forall c q, 0 <= c < num_cpus s -> 0 <= q < 5 -> (length (Q c q) < fuel)%nat) ->
  scheduler_get_load fuel s = Some (Z.min 1000 (u32 (total_queued Q (load_queues s)))).
Proof.
  intros Hq Hf. unfold scheduler_get_load. rewrite (load_sum_spec fuel s Q); [|done|]; cycle 1.
  { intros c q [? ?]%elem_of_load_queues. split; [done|]. split; [lia|]. apply Hf; lia. }
  cbn [option_map]. f_equal. destruct (Z.ltb_spec 1000 (u32 (total_queued Q (load_queues s)))); lia.
Qed.

(** * Time slices stay non-negative *)

Definition slices_ok (s : sched) : Prop := forall p, 0 <= time_slice (procs s p).

Lemma time_quantum_nonneg i : 0 <= time_quantum.[i].
Proof. unfold aget, time_quantum. destruct (Z.to_nat i) as [|[|[|[|[|n]]]]]; by vm_compute. Qed.

Lemma slices_mod s p f :
  slices_ok s -> (0 <= time_slice (procs s p) -> 0 <= time_slice (f (procs s p))) -> slices_ok (mod_proc s p f).
Proof. intros H Hf x. rewrite procs_mod. destruct (Z.eqb_spec x p) as [->|]; [by apply Hf|apply H]. Qed.

(** Queue operations and bookkeeping do not touch [time_slice]. *)
Lemma slices_rq s c f : slices_ok s -> slices_ok (mod_rq s c f).
Proof. done. Qed.
Lemma slices_wq s w h : slices_ok s -> slices_ok (set_wq_head s w h).
Proof. done. Qed.
Lemma slices_emit s e : slices_ok s -> slices_ok (emit s e).
Proof. done. Qed.

Create HintDb slices.
#[local] Hint Extern 1 (slices_ok (mod_rq _ _ _)) => simple apply slices_rq : slices.
#[local] Hint Extern 1 (slices_ok (set_wq_head _ _ _)) => simple apply slices_wq : slices.
#[local] Hint Extern 1 (slices_ok (emit _ _)) => simple apply slices_emit : slices.
#[local] Hint Extern 1 (slices_ok (mod_proc _ _ _)) => simple apply slices_mod; [|intros; first [assumption | exact (time_quantum_nonneg _)]] : slices.
#[local] Hint Extern 2 (slices_ok (if ?b then _ else _)) => destruct b : slices.

Lemma slices_enqueue s p : slices_ok s -> slices_ok (enqueue_process s p).
Proof. intros. unfold enqueue_process. cbv zeta. auto 10 with slices. Qed.
#[local] Hint Extern 1 (slices_ok (enqueue_process _ _)) => simple apply slices_enqueue : slices.

Lemma slices_dequeue fuel s c s' p : slices_ok s -> dequeue_loop fuel s c = Some (s', p) -> slices_ok s'.
Proof.
  revert s. induction fuel as [|fuel IH]; intros s Hs; cbn [dequeue_loop]; cbv zeta; [done|].
  destruct (queue_bitmap _ =? 0); [by intros [= <- _]|]. destruct (_ =? NULL).
  - apply IH. auto with slices.
  - intros [= <- _]. auto 10 with slices.
Qed.

Lemma slices_highest s c s' p : slices_ok s -> dequeue_highest s c = Some (s', p) -> slices_ok s'.
Proof. unfold dequeue_highest. apply slices_dequeue. Qed.

Lemma slices_run_next s c next s' : slices_ok s -> run_next s c next = Some s' -> slices_ok s'.
Proof. intros Hs. unfold run_next. destruct (next =? NULL); [done|]. intros [= <-]. auto with slices. Qed.

Lemma slices_switch s c next e s' :
  slices_ok s -> option_map (fun s => emit s e) (run_next s c next) = Some s' -> slices_ok s'.
Proof.
  intros Hs. destruct (run_next s c next) as [s1|] eqn:E; [|done]. intros [= <-].
  apply slices_emit. by eapply slices_run_next.
Qed.

Lemma slices_start s c s' : slices_ok s -> scheduler_start s c = Some s' -> slices_ok s'.
Proof.
  intros Hs. unfold scheduler_start. destruct (negb _); [done|].
  destruct (dequeue_highest s c) as [[s1 p]|] eqn:E; [|done]. apply slices_switch. by eapply slices_highest.
Qed.

Lemma slices_boost_list fuel s p s' : slices_ok s -> boost_list fuel s p = Some s' -> slices_ok s'.
Proof.
  revert s p. induction fuel as [|fuel IH]; intros s p Hs; cbn [boost_list]; cbv zeta; [done|].
  destruct (p =? NULL); [by intros [= <-]|]. apply IH. auto 10 with slices.
Qed.

Lemma slices_boost_cpus n fuel s c s' : slices_ok s -> boost_cpus n fuel s c = Some s' -> slices_ok s'.
Proof.
  revert s c. induction n as [|n IH]; intros s c Hs; cbn [boost_cpus]; [by intros [= <-]|].
  unfold boost_cpu. cbv zeta. destruct (boost_list _ _ _) as [s1|] eqn:E; [|done].
  apply IH, slices_rq. by eapply slices_boost_list.
Qed.

Lemma slices_add s c p : slices_ok s -> slices_ok (scheduler_add_process s c p).
Proof. intros Hs. unfold scheduler_add_process. destruct (p =? NULL); [done|]. cbv zeta. auto 10 with slices. Qed.
#[local] Hint Extern 1 (slices_ok (scheduler_add_process _ _ _)) => simple apply slices_add : slices.

Lemma slices_wake s c p : slices_ok s -> slices_ok (wake s c p).
Proof. intros. unfold wake. auto with slices. Qed.
#[local] Hint Extern 1 (slices_ok (wake _ _ _)) => simple apply slices_wake : slices.

Lemma slices_wake_list fuel s c p s' : slices_ok s -> wake_list fuel s c p = Some s' -> slices_ok s'.
Proof.
  revert s p. induction fuel as [|fuel IH]; intros s p Hs; cbn [wake_list]; [done|].
  destruct (p =? NULL); [by intros [= <-]|]. apply IH. auto with slices.
Qed.

Lemma slices_yield s c s' : slices_ok s -> scheduler_yield s c = Some s' -> slices_ok s'.
Proof.
  intros Hs. unfold scheduler_yield. cbv zeta. destruct (_ =? NULL); [by intros [= <-]|].
  destruct (dequeue_highest _ _) as [[s1 next]|] eqn:E; [|done].
  assert (H1 : slices_ok s1) by (eapply slices_highest; [|exact E]; auto with slices).
  destruct (_ || _); [intros [= <-]; auto with slices|]. by apply slices_switch.
Qed.

Lemma slices_tick fuel s c s' : slices_ok s -> scheduler_tick fuel s c = Some s' -> slices_ok s'.
Proof.
  intros Hs. unfold scheduler_tick. cbv zeta. set (cur := current _). destruct (_ =? NULL); [by intros [= <-]|].
  set (s1 := mod_rq _ _ _). assert (H1 : slices_ok s1) by (unfold s1; auto with slices).
  destruct (_ =? PRIO_REALTIME); [by intros [= <-]|].
  set (s2 := if 0 <? _ then _ else _). assert (H2 : slices_ok s2).
  { unfold s2. destruct (Z.ltb_spec 0 (time_slice (procs s1 cur))); [|done]. apply slices_mod; [done|].
    intros _. change (0 <= time_slice (procs s1 cur) - 1). lia. }
  assert (Hb : forall t, slices_ok t -> (if PRIORITY_BOOST_INTERVAL <=? ticks (rqs t).[c]
    then priority_boost fuel (mod_rq t c (fun r => r <| ticks := 0 |>)) else Some t) = Some s' -> slices_ok s').
  { intros t Ht. destruct (_ <=? _); [|by intros [= <-]]. by apply slices_boost_cpus. }
  destruct (time_slice _ =? 0); [|by apply Hb].
  destruct (dequeue_highest _ _) as [[s3 next]|] eqn:E; [|done].
  assert (H3 : slices_ok s3) by (eapply slices_highest; [|exact E]; auto with slices).
  destruct (negb _); [by apply slices_switch|]. apply Hb. auto with slices.
Qed.

Lemma slices_sleep_on s c w s' : slices_ok s -> scheduler_sleep_on s c w = Some s' -> slices_ok s'.
Proof.
  intros Hs. unfold scheduler_sleep_on, sleep_switch, sleep_enqueue. cbv zeta. destruct (_ =? NULL); [by intros [= <-]|].
  destruct (dequeue_highest _ _) as [[s1 next]|] eqn:E; [|done]. apply slices_switch.
  eapply slices_highest; [|exact E]. auto 10 with slices.
Qed.

Lemma slices_remove fuel s p s' : slices_ok s -> scheduler_remove_process fuel s p = Some s' -> slices_ok s'.
Proof.
  intros Hs. unfold scheduler_remove_process. cbv zeta. destruct (p =? NULL); [by intros [= <-]|].
  assert (Hw : forall x prev s1, remove_walk fuel s (cpu (procs s p)) (priority (procs s p)) prev x p = Some s1 -> slices_ok s1).
  { induction fuel as [|fuel IH]; intros x prev s1; cbn [remove_walk]; cbv zeta; [done|].
    destruct (x =? NULL); [by intros [= <-]|]. destruct (x =? p); [|apply IH]. intros [= <-]. auto 10 with slices. }
  destruct (remove_walk _ _ _ _ _ _ _) as [s1|] eqn:E; [|done]. intros [= <-]. apply Hw in E. auto with slices.
Qed.

(** * The scheduler as a transition system *)

(** The call returns [a], whatever bound on the loops beyond some minimum. *)
Definition returns {A : Type} (f : nat -> option A) (a : A) : Prop := exists n, forall m, (n <= m)%nat -> f m = Some a.

(** Not waiting in a queue and not known to a CPU: what a caller must ensure of a
    process it hands to the scheduler. *)
Definition off_queue (s : sched) (p : Z) : Prop :=
  p <> NULL /\ state (procs s p) <> PROC_READY /\ state (procs s p) <> PROC_SLEEPING /\
  forall c, 0 <= c < num_cpus s -> current (rqs s).[c] <> p /\ idle_task (rqs s).[c] <> p.

Inductive sched_step : sched -> sched -> Prop :=
| st_create s p b :   (** a caller fills in the struct of a new process *)
    off_queue s p -> state b <> PROC_READY -> state b <> PROC_SLEEPING -> 0 <= time_slice b ->
    sched_step s (mod_proc s p (fun _ => b))
| st_set_idle s c p :
    0 <= c -> p <> NULL -> cpu (procs s p) = c -> 0 <= priority (procs s p) < 5 ->
    state (procs s p) <> PROC_SLEEPING -> sched_step s (scheduler_set_idle s c p)
| st_add s c p :
    0 <= c < num_cpus s -> off_queue s p -> 0 <= priority (procs s p) < 5 ->
    sched_step s (scheduler_add_process s c p)
| st_start s c s' :
    0 <= c < num_cpus s -> scheduler_start s c = Some s' -> sched_step s s'
| st_tick s c s' :
    0 <= c < num_cpus s -> returns (fun fuel => scheduler_tick fuel s c) s' -> sched_step s s'
| st_yield s c s' :
    0 <= c < num_cpus s -> scheduler_yield s c = Some s' -> sched_step s s'
| st_boost s s' : returns (fun fuel => priority_boost fuel s) s' -> sched_step s s'
| st_sleep s c w s' :
    0 <= c < num_cpus s -> current (rqs s).[c] <> NULL -> idle_task (rqs s).[c] <> NULL ->
    idle_task (rqs s).[c] <> current (rqs s).[c] -> scheduler_sleep_on s c w = Some s' -> sched_step s s'
| st_wakeup s c w s' :
    0 <= c < num_cpus s -> w <> NULL -> returns (fun fuel => scheduler_wakeup fuel s c w) s' -> sched_step s s'
| st_wakeup_one s c w :
    0 <= c < num_cpus s -> w <> NULL -> sched_step s (scheduler_wakeup_one s c w)
| st_remove s p s' :  (** not the last of several processes in its queue *)
    p <> NULL -> 0 <= cpu (procs s p) < num_cpus s -> 0 <= priority (procs s p) < 5 ->
    state (procs s p) <> PROC_SLEEPING ->
    (let r := (rqs s).[cpu (procs s p)] in
     (tails r).[priority (procs s p)] = p -> (queues r).[priority (procs s p)] = p) ->
    returns (fun fuel => scheduler_remove_process fuel s p) s' -> sched_step s s'.

Inductive sched_reachable : sched -> Prop :=
| sr_init s cores :
    0 <= cores -> (forall w, wq_head s w = NULL) -> slices_ok s -> sched_reachable (scheduler_init s cores)
| sr_step s s' : sched_reachable s -> sched_step s s' -> sched_reachable s'.

Definition sched_inv (s : sched) : Prop :=
  slices_ok s /\ exists Q W, sched_wf s Q W.

Lemma off_queue_detached s Q W p :
  sched_wf s Q W -> off_queue s p -> 0 <= priority (procs s p) < 5 -> detached s Q W p.
Proof.
  intros (Hq & Hw & _) (Hp & Hr & Hsl & Hc) Hpr. split; [done|]. split; [done|]. split; [|split; [|done]].
  - intros (c & q & Hx). by apply (qw_in _ _ Hq) in Hx as (_ & _ & _ & _ & ?).
  - intros w Hx. by apply (ww_in _ _ Hw) in Hx as (? & _).
Qed.

(** One bound for the queues of all CPUs *)
Lemma queue_bound (Q : Z -> Z -> list Z) n :
  exists b, forall c q, 0 <= c < Z.of_nat n -> 0 <= q < 5 -> (length (Q c q) < b)%nat.
Proof.
  induction n as [|n (b & IH)].
  { exists 0%nat. intros. lia. }
  set (c0 := Z.of_nat n).
  exists (b + length (Q c0 0%Z) + length (Q c0 1%Z) + length (Q c0 2%Z) + length (Q c0 3%Z) + length (Q c0 4%Z) + 1)%nat.
  intros c q Hc Hq. destruct (decide (c = c0)) as [->|].
  - assert (q = 0 \/ q = 1 \/ q = 2 \/ q = 3 \/ q = 4) as Hcase by lia.
    destruct Hcase as [->|[->|[->|[->| ->]]]]; lia.
  - specialize (IH c q ltac:(lia) Hq). lia.
Qed.

Lemma queue_bound_wf s Q : qwf s Q ->
  exists b, forall c q, 0 <= c < num_cpus s -> 0 <= q < 5 -> (length (Q c q) < b)%nat.
Proof.
  intros Hq. destruct (queue_bound Q (Z.to_nat (num_cpus s))) as (b & Hb). exists b. intros c q Hc Hqr.
  apply Hb; [|done]. pose proof (qw_cpus _ _ Hq). unfold zlen in *. lia.
Qed.

Lemma returns_agree {A} (f : nat -> option A) a a' b :
  returns f a -> (forall m, (b <= m)%nat -> f m = Some a') -> a = a'.
Proof.
  intros (n & Hn) Hb. specialize (Hn (n `max` b)%nat ltac:(lia)). specialize (Hb (n `max` b)%nat ltac:(lia)). congruence.
Qed.

Lemma empty_wf s cores :
  0 <= cores -> rqs s = replicate (Z.to_nat cores) rq_empty -> num_cpus s = cores -> (forall w, wq_head s w = NULL) ->
  sched_wf s (fun _ _ => []) (fun _ => []).
Proof.
  intros Hc Hr Hn Hw. assert (Hrq : forall c, 0 <= c < cores -> (rqs s).[c] = rq_empty).
  { intros c Hcr. rewrite Hr. apply aget_replicate. lia. }
  split; [split|split; [split|split]]; rewrite ?Hn.
  - rewrite Hr, zlen_replicate. lia.
  - intros c Hcr. by rewrite Hrq.
  - intros c q Hcr Hq. rewrite Hrq by done. unfold rq_empty. cbn [queues tails queue_bitmap].
    assert (q = 0 \/ q = 1 \/ q = 2 \/ q = 3 \/ q = 4) as Hcase by lia.
    destruct Hcase as [->|[->|[->|[->| ->]]]]; (split; [done|]; split; [done|]); by intros.
  - by intros c q p ?%not_elem_of_nil.
  - intros w. apply Hw.
  - by intros w p ?%not_elem_of_nil.
  - intros c Hcr. by rewrite Hrq.
  - intros c Hcr. by rewrite Hrq.
Qed.

Lemma init_inv s cores :
  0 <= cores -> (forall w, wq_head s w = NULL) -> slices_ok s -> sched_inv (scheduler_init s cores).
Proof.
  intros Hc Hw Hs. split; [done|]. exists (fun _ _ => []), (fun _ => []). by apply (empty_wf _ cores).
Qed.

Lemma create_wf s Q W p b : sched_wf s Q W -> off_queue s p -> sched_wf (mod_proc s p (fun _ => b)) Q W.
Proof.
  intros (Hq & Hw & [Hcu Hid]) (Hp & Hr & Hsl & Hc). split; [|split].
  - apply qwf_mod_other; [done|]. intros (c & q & Hx). by apply (qw_in _ _ Hq) in Hx as (_ & _ & _ & _ & ?).
  - apply wwf_mod_other; [done|]. intros w Hx. by apply (ww_in _ _ Hw) in Hx as (? & _).
  - split; intros c Hcr; change (rqs (mod_proc s p (fun _ => b))) with (rqs s);
      change (num_cpus (mod_proc s p (fun _ => b))) with (num_cpus s) in Hcr; destruct (Hc c Hcr); rewrite procs_mod;
      intros Hn; [destruct (Z.eqb_spec (current (rqs s).[c]) p); [done|]; by apply Hcu|
                  destruct (Z.eqb_spec (idle_task (rqs s).[c]) p); [done|]; by apply Hid].
Qed.

Lemma set_idle_wf s Q W c p :
  sched_wf s Q W -> 0 <= c -> p <> NULL -> cpu (procs s p) = c -> 0 <= priority (procs s p) < 5 ->
  state (procs s p) <> PROC_SLEEPING -> sched_wf (scheduler_set_idle s c p) Q W.
Proof.
  intros (Hq & Hw & [Hcu Hid]) Hc Hp Hcp Hpr Hst. unfold scheduler_set_idle.
  destruct (Z.leb_spec (num_cpus s) c); [done|]. pose proof (qw_cpus _ _ Hq) as Hn. split; [|split].
  - by apply qwf_mod_rq.
  - by apply (wwf_proj s).
  - split; intros c' Hc'; rewrite rqs_mod by lia; destruct (Z.eqb_spec c c') as [<-|]; try (by apply Hcu); try (by apply Hid).
    intros _. change (idle_task ((rqs s).[c] <| idle_task := p |>)) with p.
    split; [done|]. split; [done|]. intros w Hx. by destruct (ww_in _ _ Hw w p Hx) as (? & _).
Qed.

(** ** More fuel never changes a result *)

Definition stable {A : Type} (f : nat -> option A) : Prop :=
  forall n m a, (n <= m)%nat -> f n = Some a -> f m = Some a.

Lemma stable_returns {A} (f : nat -> option A) n a : stable f -> f n = Some a -> returns f a.
Proof. intros Hs Hn. exists n. intros m Hm. by eapply Hs. Qed.

Lemma boost_list_stable s p : stable (fun fuel => boost_list fuel s p).
Proof.
  intros n. revert s p. induction n as [|n IH]; intros s p m s' Hm; [done|]. destruct m as [|m]; [lia|].
  cbn [boost_list]. cbv zeta. destruct (p =? NULL); [done|]. apply IH. lia.
Qed.

Lemma boost_cpus_stable k s c : stable (fun fuel => boost_cpus k fuel s c).
Proof.
  revert s c. induction k as [|k IH]; intros s c n m s' Hm; cbn [boost_cpus]; [done|].
  unfold boost_cpu. cbv zeta. destruct (boost_list n _ _) as [s1|] eqn:E; [|done].
  rewrite (boost_list_stable _ _ n m s1 Hm E). by apply IH.
Qed.

Lemma tick_stable s c : stable (fun fuel => scheduler_tick fuel s c).
Proof.
  intros n m s' Hm. unfold scheduler_tick. cbv zeta. destruct (_ =? NULL); [done|]. destruct (_ =? PRIO_REALTIME); [done|].
  assert (Hb : forall t, (if PRIORITY_BOOST_INTERVAL <=? ticks (rqs t).[c]
      then priority_boost n (mod_rq t c (fun r => r <| ticks := 0 |>)) else Some t) = Some s' ->
    (if PRIORITY_BOOST_INTERVAL <=? ticks (rqs t).[c]
      then priority_boost m (mod_rq t c (fun r => r <| ticks := 0 |>)) else Some t) = Some s').
  { intros t. destruct (_ <=? _); [|done]. unfold priority_boost. by apply boost_cpus_stable. }
  destruct (time_slice _ =? 0); [|apply Hb]. destruct (dequeue_highest _ _) as [[s3 next]|]; [|done].
  destruct (negb _); [done|]. apply Hb.
Qed.

Lemma wakeup_stable s c w : stable (fun fuel => scheduler_wakeup fuel s c w).
Proof.
  assert (Hw : forall n s p m s', (n <= m)%nat -> wake_list n s c p = Some s' -> wake_list m s c p = Some s').
  { induction n as [|n IH]; intros t p m s' Hm; [done|]. destruct m as [|m]; [lia|]. cbn [wake_list].
    destruct (p =? NULL); [done|]. apply IH. lia. }
  intros n m s' Hm. unfold scheduler_wakeup. destruct (w =? NULL); [done|]. by apply Hw.
Qed.

Lemma remove_stable s p : stable (fun fuel => scheduler_remove_process fuel s p).
Proof.
  intros n m s' Hm. unfold scheduler_remove_process. destruct (p =? NULL); [done|]. cbv zeta.
  assert (Hw : forall n m prev x s1, (n <= m)%nat ->
    remove_walk n s (cpu (procs s p)) (priority (procs s p)) prev x p = Some s1 ->
    remove_walk m s (cpu (procs s p)) (priority (procs s p)) prev x p = Some s1).
  { clear. induction n as [|n IH]; intros m prev x s1 Hm; [done|]. destruct m as [|m]; [lia|]. cbn [remove_walk].
    destruct (x =? NULL); [done|]. destruct (x =? p); [done|]. apply IH. lia. }
  destruct (remove_walk n _ _ _ _ _ _) as [s1|] eqn:E; [|done]. by rewrite (Hw n m _ _ _ Hm E).
Qed.

Lemma tick_returns s Q W c :
  sched_wf s Q W -> slices_ok s -> 0 <= c < num_cpus s ->
  exists s' Q', returns (fun fuel => scheduler_tick fuel s c) s' /\ sched_wf s' Q' W /\
    (current (rqs s).[c] = NULL -> s' = s /\ Q' = Q) /\
    (current (rqs s).[c] <> NULL -> tick_outcome s s' Q Q' c (current (rqs s).[c])).
Proof.
  intros Hwf Hs Hc. destruct (queue_bound_wf s Q (proj1 Hwf)) as (b & Hb).
  destruct (tick_spec (S b) s Q W c Hwf Hc (Hs _)) as (s' & Q' & E & H).
  { intros c' Hc'. specialize (Hb c' PRIO_LOW Hc' ltac:(unfold PRIO_LOW; lia)). lia. }
  exists s', Q'. split; [|done]. by apply (stable_returns _ (S b)); [apply tick_stable|].
Qed.

Lemma boost_returns s Q W :
  sched_wf s Q W -> exists s' Q', returns (fun fuel => priority_boost fuel s) s' /\ sched_wf s' Q' W /\
    (forall c q, Q' c q = boosted Q (num_cpus s) c q) /\ kept s s'.
Proof.
  intros Hwf. destruct (queue_bound_wf s Q (proj1 Hwf)) as (b & Hb).
  destruct (priority_boost_spec b s Q W Hwf) as (s' & Q' & E & H).
  { intros c Hc. apply Hb; unfold PRIO_LOW; lia. }
  exists s', Q'. split; [|done]. apply (stable_returns _ b); [|done]. unfold priority_boost. apply boost_cpus_stable.
Qed.

Lemma wakeup_returns s Q W c w :
  sched_wf s Q W -> 0 <= c < num_cpus s -> w <> NULL ->
  exists s' Q', returns (fun fuel => scheduler_wakeup fuel s c w) s' /\ sched_wf s' Q' (Wset W w []) /\
    (forall p, lists Q' p <-> lists Q p \/ p ∈ W w) /\ others_kept (set_wq_head s w NULL) s' (W w).
Proof.
  intros Hwf Hc Hw. destruct (wakeup_spec (S (length (W w))) s Q W c w Hwf Hc Hw ltac:(lia)) as (s' & Q' & E & H).
  exists s', Q'. split; [|done]. by eapply stable_returns; [apply wakeup_stable|].
Qed.

Lemma remove_returns s Q W p :
  let c := cpu (procs s p) in
  let q := priority (procs s p) in
  sched_wf s Q W -> p <> NULL -> 0 <= c < num_cpus s -> 0 <= q < 5 -> (forall w, p ∉ W w) ->
  ((tails (rqs s).[c]).[q] = p -> (queues (rqs s).[c]).[q] = p) ->
  exists s' Q', returns (fun fuel => scheduler_remove_process fuel s p) s' /\ sched_wf s' Q' W /\
    (forall x, lists Q' x <-> lists Q x /\ x <> p) /\ state (procs s' p) = PROC_DEAD /\
    (forall x, x <> p -> procs s' x = (procs s x) <| sched_next := sched_next (procs s' x) |>) /\
    (forall c', 0 <= c' < num_cpus s -> current (rqs s').[c'] = current (rqs s).[c'] /\
      idle_task (rqs s').[c'] = idle_task (rqs s).[c']) /\ events s' = events s.
Proof.
  intros c q Hwf Hp Hc Hq HW Ht.
  destruct (remove_spec (S (length (Q c q))) s Q W p Hwf Hp Hc Hq HW Ht (Nat.lt_succ_diag_r _)) as (s' & Q' & E & H).
  exists s', Q'. split; [|done]. by eapply stable_returns; [apply remove_stable|].
Qed.

Lemma returns_fun {A} (f : nat -> option A) a a' : returns f a -> returns f a' -> a = a'.
Proof. intros H (b & Hb). by eapply returns_agree. Qed.

Lemma returns_some {A} (f : nat -> option A) a : returns f a -> exists n, f n = Some a.
Proof. intros (n & Hn). exists n. by apply Hn. Qed.

(** ** The invariant *)

Lemma start_returns s Q W c s' :
  sched_wf s Q W -> 0 <= c < num_cpus s -> scheduler_start s c = Some s' ->
  exists q p l, highest Q c (Some (q, p, l)) /\ sched_wf s' (Qset Q c q l) W /\
    current (rqs s').[c] = p /\ state (procs s' p) = PROC_RUNNING /\ events s' = events s ++ [Jump p].
Proof.
  intros Hwf Hc E. destruct (sched_initialized s) eqn:Hi; [|by unfold scheduler_start in E; rewrite Hi in E].
  pose proof (start_spec s Q W c Hwf Hc Hi) as H. by rewrite E in H.
Qed.

Lemma step_slices s s' : slices_ok s -> sched_step s s' -> slices_ok s'.
Proof.
  intros Hs Hst. destruct Hst.
  - by apply slices_mod.
  - unfold scheduler_set_idle. by destruct (_ <=? _).
  - by apply slices_add.
  - by eapply slices_start.
  - destruct (returns_some _ _ H0) as (n & E). by apply (slices_tick n s c).
  - by eapply slices_yield.
  - destruct (returns_some _ _ H) as (n & E). by eapply slices_boost_cpus.
  - by eapply slices_sleep_on.
  - destruct (returns_some _ _ H1) as (n & E). unfold scheduler_wakeup in E. destruct (Z.eqb_spec w NULL); [done|].
    by eapply (slices_wake_list n (set_wq_head s w NULL)).
  - unfold scheduler_wakeup_one. destruct (w =? NULL); [done|]. cbv zeta. destruct (negb _); [|done]. by apply slices_wake.
  - destruct (returns_some _ _ H4) as (n & E). by eapply slices_remove.
Qed.

Lemma step_wf s s' Q W :
  slices_ok s -> sched_wf s Q W -> sched_step s s' -> exists Q' W', sched_wf s' Q' W'.
Proof.
  intros Hs Hwf Hst. destruct Hst as [s p b Ho|s c p Hc Hp Hcp Hpr Hns|s c p Hc Ho Hpr|s c s' Hc E|s c s' Hc E|s c s' Hc E|s s' E|
    s c w s' Hc Hcu Hid Hne E|s c w s' Hc Hw E|s c w Hc Hw|s p s' Hp Hc Hpr Hns Ht E].
  - exists Q, W. by apply create_wf.
  - exists Q, W. by apply set_idle_wf.
  - eexists _, W. apply add_spec; [done|done|]. by apply off_queue_detached.
  - destruct (start_returns s Q W c s' Hwf Hc E) as (q & p & l & _ & H & _). eauto.
  - destruct (tick_returns s Q W c Hwf Hs Hc) as (s2 & Q' & Hr & H & _). rewrite (returns_fun _ _ _ E Hr). eauto.
  - destruct (yield_spec s Q W c Hwf Hc) as (s2 & Q' & E' & H & _). rewrite E in E'. injection E' as ->. eauto.
  - destruct (boost_returns s Q W Hwf) as (s2 & Q' & Hr & H & _). rewrite (returns_fun _ _ _ E Hr). eauto.
  - destruct (sleep_on_spec s Q W c w Hwf Hc Hcu Hid Hne) as (s2 & nx & Q' & E' & H & _).
    rewrite E in E'. injection E' as ->. eauto.
  - destruct (wakeup_returns s Q W c w Hwf Hc Hw) as (s2 & Q' & Hr & H & _). rewrite (returns_fun _ _ _ E Hr). eauto.
  - destruct (W w) as [|p l] eqn:HW.
    + assert (wq_head s w = NULL) as Hh.
      { pose proof (ww_chain _ _ (proj1 (proj2 Hwf)) w) as Hch. by rewrite HW in Hch. }
      unfold scheduler_wakeup_one. destruct (Z.eqb_spec w NULL); [done|]. rewrite Hh. eauto.
    + destruct (wakeup_one_spec s Q W c w p l Hwf Hc Hw HW) as (t & _ & H & _). eauto.
  - destruct (remove_returns s Q W p Hwf Hp Hc Hpr) as (s2 & Q' & Hr & H & _); [|done|].
    + intros w Hx. by destruct (ww_in _ _ (proj1 (proj2 Hwf)) w p Hx) as (? & _).
    + rewrite (returns_fun _ _ _ E Hr). eauto.
Qed.

Lemma reachable_inv s : sched_reachable s -> sched_inv s.
Proof.
  induction 1 as [s cores Hc Hw Hs|s s' _ [Hs (Q & W & Hwf)] Hst]; [by apply init_inv|].
  split; [by eapply step_slices|]. by eapply step_wf.
Qed.

(** * Turns *)

Fixpoint yields (n : nat) (s : sched) (c : Z) : option sched :=
  match n with
  | O => Some s
  | S n' => match scheduler_yield s c with None => None | Some s' => yields n' s' c end
  end.

(** Fields the scheduler does not write *)
Definition untouched {A : Type} (f : pcb -> A) : Prop :=
  (forall b v, f (b <| state := v |>) = f b) /\ (forall b v, f (b <| sched_next := v |>) = f b) /\
  (forall b v, f (b <| cpu := v |>) = f b) /\ (forall b v, f (b <| time_slice := v |>) = f b).

(** What a yield does to the process structs: the one that goes on and the one that
    takes over change state, none becomes or stops being unused. *)
Lemma yield_procs s Q W c s' :
  sched_wf s Q W -> 0 <= c < num_cpus s -> scheduler_yield s c = Some s' ->
  (forall (A : Type) (f : pcb -> A) x, untouched f -> f (procs s' x) = f (procs s x)) /\
  (forall x, x <> current (rqs s).[c] \/ current (rqs s).[c] = NULL -> state (procs s x) <> PROC_READY ->
     state (procs s' x) = state (procs s x)) /\
  (forall x, (x = current (rqs s).[c] /\ x <> NULL) \/ state (procs s x) = PROC_READY ->
     state (procs s' x) = PROC_READY \/ state (procs s' x) = PROC_RUNNING) /\
  num_cpus s' = num_cpus s /\
  (forall c', 0 <= c' < num_cpus s -> idle_task (rqs s').[c'] = idle_task (rqs s).[c'] /\
     (c' <> c -> current (rqs s').[c'] = current (rqs s).[c'])) /\
  (current (rqs s).[c] <> NULL -> current (rqs s').[c] = current (rqs s).[c] \/
     state (procs s (current (rqs s').[c])) = PROC_READY).
Proof.
  intros Hwf Hc. unfold scheduler_yield. cbv zeta. set (cur := current _).
  destruct (Z.eqb_spec cur NULL) as [E|Hcur].
  { intros [= <-]. split; [done|]. split; [done|]. split; [|by split_and!]. intros x [[-> ?]|Hx]; [done|by left]. }
  destruct (requeue_spec s Q W c Hwf Hc Hcur) as (s2 & next & Q2 & E & Hlo & Hnn & Hrot & Hq2 & _). fold cur in E, Hlo, Hrot. rewrite E.
  set (s1 := mod_proc s cur _) in *. pose proof (lo_cpus _ _ Hlo) as (Hn2 & _).
  assert (H2 : forall y, procs s2 y = (if y =? cur then (procs s cur) <| state := PROC_READY |> else procs s y) <| sched_next := sched_next (procs s2 y) |>).
  { intros y. rewrite (lo_proc _ _ Hlo y) at 1. unfold s1. by rewrite procs_mod. }
  assert (Hr2 : forall c', 0 <= c' < num_cpus s -> current (rqs s2).[c'] = current (rqs s).[c'] /\
    idle_task (rqs s2).[c'] = idle_task (rqs s).[c']).
  { intros c' Hc'. destruct (lo_rq _ _ Hlo c' Hc') as (E1 & E2 & _). by split. }
  assert (Hnext : next = cur \/ state (procs s next) = PROC_READY).
  { destruct Hrot as (q & l & (_ & HQ & _) & _). assert (Hin : next ∈ appended s Q cur c q) by (rewrite HQ; by left).
    apply elem_of_appended in Hin as [Hin|[? _]]; [right|by left]. by apply (qw_in _ _ (proj1 Hwf)) in Hin as (_ & _ & _ & _ & ?). }
  assert (Hf2 : forall (A : Type) (f : pcb -> A) y, untouched f -> f (procs s2 y) = f (procs s y)).
  { intros A f y (F1 & F2 & _). rewrite H2, F2. destruct (Z.eqb_spec y cur) as [->|]; [apply F1|done]. }
  assert (Hs2 : forall y, state (procs s2 y) = if y =? cur then PROC_READY else state (procs s y)).
  { intros y. rewrite H2. by destruct (y =? cur). }
  destruct (Z.eqb_spec next NULL); [done|]. cbn [orb]. destruct (Z.eqb_spec next cur) as [->|Hne].
  - intros [= <-]. set (g := fun p : pcb => _). split; [|split; [|split; [|split; [done|split; [|intros _; left; by destruct (Hr2 c Hc)]]]]].
    + intros A f x Hf. rewrite procs_mod. destruct (Z.eqb_spec x cur) as [->|]; [|by apply Hf2].
      rewrite <- (Hf2 A f cur Hf). apply Hf.
    + intros x Hx _. rewrite procs_mod. destruct (Z.eqb_spec x cur); [by destruct Hx|]. rewrite Hs2. by destruct (Z.eqb_spec x cur).
    + intros x Hx. left. rewrite procs_mod. destruct (Z.eqb_spec x cur) as [->|].
      * change (state (g (procs s2 cur))) with (state (procs s2 cur)). by rewrite Hs2, Z.eqb_refl.
      * rewrite Hs2. destruct (Z.eqb_spec x cur); [done|]. destruct Hx as [[? _]|?]; done.
    + intros c' Hc'. destruct (Hr2 c' Hc') as [E1 E2]. by split.
  - unfold run_next. destruct (next =? NULL); [done|]. cbn [option_map]. intros [= <-].
    set (g := fun p : pcb => _). set (s3 := mod_rq s2 c _).
    assert (Hr3 : forall c', 0 <= c' -> (rqs s3).[c'] = if c =? c' then (rqs s2).[c] <| current := next |> else (rqs s2).[c']).
    { intros c' Hc'. apply rqs_mod; [|done]. pose proof (qw_cpus _ _ Hq2). change (num_cpus s1) with (num_cpus s) in Hn2. lia. }
    change (procs (emit ?t ?e)) with (procs t). change (rqs (emit (mod_proc s3 next g) (Switch cur next))) with (rqs s3).
    change (num_cpus (emit (mod_proc s3 next g) (Switch cur next))) with (num_cpus s2).
    split; [|split; [|split; [|split; [done|split]]]].
    + intros A f x Hf. rewrite procs_mod. destruct (Z.eqb_spec x next) as [->|]; [|by apply Hf2].
      rewrite <- (Hf2 A f next Hf). destruct Hf as (F1 & F2 & F3 & F4).
      unfold g. rewrite F4, F3, F1. done.
    + intros x Hx Hnr. rewrite procs_mod. destruct (Z.eqb_spec x next) as [->|].
      { destruct Hnext as [?|?]; done. } change (procs s3) with (procs s2). rewrite Hs2.
      destruct (Z.eqb_spec x cur); [by destruct Hx|done].
    + intros x Hx. rewrite procs_mod. destruct (Z.eqb_spec x next) as [->|]; [by right|].
      left. change (procs s3) with (procs s2). rewrite Hs2. destruct (Z.eqb_spec x cur); [done|]. destruct Hx as [[? _]|?]; done.
    + intros c' Hc'. rewrite Hr3 by lia. destruct (Hr2 c' Hc') as [E1 E2]. destruct (Z.eqb_spec c c') as [<-|]; by split.
    + intros _. rewrite Hr3 by lia. rewrite Z.eqb_refl. change (current ((rqs s2).[c] <| current := next |>)) with next.
      right. by destruct Hnext.
Qed.

Lemma add_procs {A : Type} (f : pcb -> A) s c p x :
  p <> NULL -> untouched f -> f (procs (scheduler_add_process s c p) x) = f (procs s x).
Proof.
  intros Hp (F1 & F2 & F3 & F4). unfold scheduler_add_process. destruct (Z.eqb_spec p NULL); [done|]. cbv zeta.
  set (g := fun b : pcb => _). set (s1 := mod_proc s p g). set (b := negb _ && _).
  assert (Hb : forall t e, procs (if b then emit t e else t) = procs t) by (intros; by destruct b).
  rewrite Hb, enqueue_procs by done. rewrite F2. unfold s1. rewrite procs_mod. destruct (Z.eqb_spec x p) as [->|]; [|done].
  unfold g. by rewrite F4, F1, F3.
Qed.

Lemma start_procs s Q W c s' :
  sched_wf s Q W -> 0 <= c < num_cpus s -> scheduler_start s c = Some s' ->
  let next := current (rqs s').[c] in
  next <> NULL /\ state (procs s next) = PROC_READY /\ state (procs s' next) = PROC_RUNNING /\
  (forall (A : Type) (f : pcb -> A) x, untouched f -> f (procs s' x) = f (procs s x)) /\
  (forall x, x <> next -> state (procs s' x) = state (procs s x)) /\ num_cpus s' = num_cpus s /\
  (forall c', 0 <= c' < num_cpus s -> idle_task (rqs s').[c'] = idle_task (rqs s).[c'] /\
     (c' <> c -> current (rqs s').[c'] = current (rqs s).[c'])).
Proof.
  intros (Hq & Hw & Hcw) Hc E. unfold scheduler_start in E. destruct (negb _); [done|].
  destruct (dequeue_spec s Q c Hq Hc) as (s1 & p & r & Ed & Hlo & Hhi & Hr). rewrite Ed in E.
  destruct r as [[[q p'] l]|]; [|destruct Hr as [-> _]; unfold run_next in E; by rewrite Z.eqb_refl in E].
  destruct Hr as (<- & Hp & Hq1). destruct Hhi as (_ & HQ & _).
  assert (Hin : p ∈ Q c q) by (rewrite HQ; by left). destruct (qw_in _ _ Hq c q p Hin) as (_ & _ & _ & _ & Hst).
  pose proof (lo_cpus _ _ Hlo) as (Hn & _). pose proof (qw_cpus _ _ Hq1) as Hz.
  unfold run_next in E. destruct (Z.eqb_spec p NULL); [done|]. cbn [option_map] in E. injection E as <-.
  set (g := fun b : pcb => _). set (s2 := mod_rq s1 c _).
  change (rqs (emit (mod_proc s2 p g) (Jump p))) with (rqs s2). change (procs (emit (mod_proc s2 p g) (Jump p))) with (procs (mod_proc s2 p g)).
  assert (Hr2 : forall c', 0 <= c' -> (rqs s2).[c'] = if c =? c' then (rqs s1).[c] <| current := p |> else (rqs s1).[c'])
    by (intros; apply rqs_mod; lia).
  assert (Hcu : current (rqs s2).[c] = p) by (rewrite Hr2 by lia; by rewrite Z.eqb_refl).
  cbv zeta. rewrite Hcu. split; [done|]. split; [done|]. split; [by rewrite procs_mod, Z.eqb_refl|]. split; [|split; [|split; [done|]]].
  - intros A f x (F1 & F2 & F3 & F4). rewrite procs_mod. change (procs s2) with (procs s1).
    assert (Hx : forall y, f (procs s1 y) = f (procs s y)) by (intros y; rewrite (lo_proc _ _ Hlo y); apply F2).
    destruct (Z.eqb_spec x p) as [->|]; [|done]. unfold g. by rewrite F4, F3, F1.
  - intros x Hx. rewrite procs_mod. destruct (Z.eqb_spec x p); [done|]. change (procs s2) with (procs s1).
    by rewrite (lo_field state _ _ _ Hlo).
  - intros c' Hc'. rewrite Hr2 by lia. destruct (lo_rq _ _ Hlo c' Hc') as (E1 & E2 & _).
    destruct (Z.eqb_spec c c') as [<-|]; by split.
Qed.

Lemma yield_priority s Q W c s' x :
  sched_wf s Q W -> 0 <= c < num_cpus s -> scheduler_yield s c = Some s' ->
  priority (procs s' x) = priority (procs s x).
Proof. intros Hwf Hc E. destruct (yield_procs s Q W c s' Hwf Hc E) as (H & _). by apply H. Qed.

(** With nothing above queue [q] and nothing more urgent running, the head of [q] is next. *)
Lemma rotated_head s Q W c q x l next Q' :
  let cur := current (rqs s).[c] in
  sched_wf s Q W -> 0 <= c < num_cpus s -> cur <> NULL -> 0 <= q <= priority (procs s cur) ->
  (forall q', 0 <= q' < q -> Q c q' = []) -> Q c q = x :: l -> rotated s Q c cur next Q' ->
  next = x /\ (exists r, Q' c q = l ++ r) /\ forall q', 0 <= q' < q -> Q' c q' = [].
Proof.
  intros cur (Hq & _ & Hcw) Hc Hcur Hqr Habove HQ (q0 & l0 & (Hq0 & HQ0 & Hlt) & ->).
  destruct (cw_current _ _ _ Hcw c Hc Hcur) as (Hcc & Hcp & _). fold cur in Hcc, Hcp.
  assert (Happ : forall q', appended s Q cur c q' = if q' =? priority (procs s cur) then Q c q' ++ [cur] else Q c q').
  { intros q'. unfold appended, Qset. cbv zeta. rewrite Hcc, Z.eqb_refl. cbn [andb].
    by destruct (Z.eqb_spec q' (priority (procs s cur))) as [->|]. }
  assert (Hqe : q0 = q).
  { destruct (Z.lt_trichotomy q0 q) as [H|[H|H]]; [|done|].
    - rewrite Happ, Habove in HQ0 by lia. destruct (Z.eqb_spec q0 (priority (procs s cur))); [lia|done].
    - specialize (Hlt q ltac:(lia)). rewrite Happ, HQ in Hlt. by destruct (q =? _). }
  subst q0. rewrite Happ, HQ in HQ0. split; [|split].
  - destruct (q =? _); by injection HQ0.
  - rewrite Qset_same. destruct (q =? _); injection HQ0 as _ <-; [by exists [cur]|exists []; by rewrite app_nil_r].
  - intros q' Hq'. unfold Qset. rewrite Z.eqb_refl. destruct (Z.eqb_spec q' q); [lia|]. cbn [andb].
    rewrite Happ, Habove by lia. destruct (Z.eqb_spec q' (priority (procs s cur))); [lia|done].
Qed.

Lemma turn_comes l1 s Q W c q p l2 :
  let cur := current (rqs s).[c] in
  sched_wf s Q W -> 0 <= c < num_cpus s -> cur <> NULL -> 0 <= q <= priority (procs s cur) ->
  (forall q', 0 <= q' < q -> Q c q' = []) -> Q c q = l1 ++ p :: l2 ->
  exists s', yields (S (length l1)) s c = Some s' /\ current (rqs s').[c] = p /\ state (procs s' p) = PROC_RUNNING.
Proof.
  revert s Q l2. induction l1 as [|x l1 IH]; intros s Q l2 cur Hwf Hc Hcur Hqr Habove HQ;
    destruct (yield_spec s Q W c Hwf Hc) as (s1 & Q1 & E & Hwf1 & _ & Hn); destruct (Hn Hcur) as (next & Hrot & Hsw);
    destruct (rotated_head s Q W c q _ _ next Q1 Hwf Hc Hcur Hqr Habove HQ Hrot) as (-> & (r & HQ1) & Habove1);
    cbn [yields length]; rewrite E; destruct Hsw as (Hcu & _ & Hsw).
  - fold cur in Hsw. destruct (Z.eqb_spec p cur) as [->|Hne].
    { destruct Hwf as (_ & _ & Hcw). destruct (cw_current _ _ _ Hcw c Hc Hcur) as (_ & _ & Hnq & _).
      exfalso. apply (Hnq c q). fold cur. rewrite HQ. set_solver. }
    exists s1. destruct Hsw as (Hst & _). by split_and!.
  - assert (Hxin : x ∈ Q c q) by (rewrite HQ; set_solver).
    destruct Hwf as (Hq & Hw & Hcw). destruct (qw_in _ _ Hq c q x Hxin) as (_ & Hqr' & Hxc & Hxp & _).
    assert (Hn1 : num_cpus s1 = num_cpus s) by (by destruct (yield_procs s Q W c s1 (conj Hq (conj Hw Hcw)) Hc E) as (_ & _ & _ & ? & _)).
    rewrite <- app_assoc in HQ1. cbn [app] in HQ1.
    apply (IH s1 Q1 (l2 ++ r)); rewrite ?Hcu, ?Hn1; try done.
    + by eapply seg_nonnull; [apply (qw_queue _ _ Hq c q)|].
    + rewrite (yield_priority s Q W c s1) by (done || by split). rewrite Hxp. lia.
Qed.

(** * Properties *)

(** C3 From [scheduler_init] on, whatever calls the kernel makes (process structs
    filled in, added, started, ticked, yielded, boosted, put to sleep, woken and
    removed, on any CPU), one after the other, the run queues and wait queues stay well
    formed: every queue is a chain that ends at its tail pointer and whose bit is set,
    holds ready processes of that CPU and priority only, and wait queues hold sleeping
    ones; hence no process is in two queues, runs on two CPUs, or runs while queued or
    asleep.  The callers keep to what the functions need and do not test: only a process
    that is in no queue and on no CPU is filled in or added ([off_queue]), a CPU that
    sleeps has an idle task other than the process that sleeps, no sleeping process is
    removed, and none that is the last of several in its queue, which breaks the queue
    ([remove_process_outcome]). *)
Theorem sched_reachable_safe s :
  sched_reachable s ->
  exists Q W, sched_wf s Q W /\
    (forall c q c' q' p, p ∈ Q c q -> p ∈ Q c' q' -> c = c' /\ q = q') /\
    (forall c q, NoDup (Q c q)) /\
    (forall c q w p, p ∈ Q c q -> p ∉ W w) /\
    (forall w w' p, p ∈ W w -> p ∈ W w' -> w = w') /\
    (forall c, 0 <= c < num_cpus s -> current (rqs s).[c] <> NULL ->
      ~ lists Q (current (rqs s).[c]) /\ (forall w, current (rqs s).[c] ∉ W w) /\
      forall c', 0 <= c' < num_cpus s -> current (rqs s).[c'] = current (rqs s).[c] -> c' = c).
Proof.
  intros (_ & Q & W & Hwf)%reachable_inv. exists Q, W. split; [done|]. destruct Hwf as (Hq & Hw & Hc).
  split; [|split; [|split; [|split]]].
  - intros c q c' q' p (_ & _ & <- & <- & _)%(qw_in _ _ Hq) (_ & _ & <- & <- & _)%(qw_in _ _ Hq). done.
  - intros c q. destruct (decide (0 <= c < num_cpus s /\ 0 <= q < 5)) as [[Hcr Hqr]|Hn].
    + destruct (qw_queue _ _ Hq c q Hcr Hqr) as (Hch & _). by eapply chain_NoDup.
    + destruct (Q c q) as [|p l] eqn:E; [constructor|]. exfalso. apply Hn.
      destruct (qw_in _ _ Hq c q p) as (? & ? & _); [rewrite E; set_solver|done].
  - intros c q w p (_ & _ & _ & _ & H1)%(qw_in _ _ Hq) (H2 & _)%(ww_in _ _ Hw). congruence.
  - intros w w' p (_ & <- & _)%(ww_in _ _ Hw) (_ & <- & _)%(ww_in _ _ Hw). done.
  - intros c Hcr Hn. destruct (cw_current _ _ _ Hc c Hcr Hn) as (Hcc & _ & HnQ & HnW).
    split; [intros (c' & q & Hx); by apply (HnQ c' q)|]. split; [done|]. intros c' Hc' E.
    destruct (cw_current _ _ _ Hc c' Hc') as (Hcc' & _); [by rewrite E|]. rewrite E in Hcc'. congruence.
Qed.

(** The loop of [scheduler_remove_process] ends, wherever the process is. *)
Lemma remove_ends s Q W p :
  sched_wf s Q W -> 0 <= cpu (procs s p) < num_cpus s -> 0 <= priority (procs s p) < 5 ->
  exists s', returns (fun fuel => scheduler_remove_process fuel s p) s'.
Proof.
  intros (Hq & _ & _) Hc Hp. set (c := cpu (procs s p)) in *. set (q := priority (procs s p)) in *.
  destruct (qw_queue _ _ Hq c q Hc Hp) as (Hch & _).
  assert (Hw : exists s1, remove_walk (S (length (Q c q))) s c q NULL (queues (rqs s).[c]).[q] p = Some s1).
  { destruct (decide (p ∈ Q c q)) as [(l1 & l2 & E)%list_elem_of_split|Hn].
    - rewrite E in Hch |- *. eexists. eapply remove_walk_found; [exact Hch|]. rewrite length_app. cbn [length]. lia.
    - eexists. eapply remove_walk_absent; [exact Hch|done|lia]. }
  destruct Hw as [s1 E]. assert (Hr : exists s', scheduler_remove_process (S (length (Q c q))) s p = Some s').
  { unfold scheduler_remove_process. destruct (p =? NULL); [by eexists|]. cbv zeta. fold c. fold q. rewrite E. by eexists. }
  destruct Hr as [s' Hr]. exists s'. by apply (stable_returns _ (S (length (Q c q)))); [apply remove_stable|].
Qed.

(** [scheduler_sleep_on] returns unless there is nothing to run. *)
Lemma sleep_ends s Q W c w :
  sched_wf s Q W -> 0 <= c < num_cpus s ->
  current (rqs s).[c] = NULL \/ idle_task (rqs s).[c] <> NULL \/ (exists q p, p ∈ Q c q) ->
  exists s', scheduler_sleep_on s c w = Some s'.
Proof.
  intros (Hq & Hw & Hcw) Hc Hrun. unfold scheduler_sleep_on. cbv zeta. destruct (Z.eqb_spec (current (rqs s).[c]) NULL) as [|Hcur]; [by eexists|].
  set (cur := current (rqs s).[c]) in *. destruct (cw_current _ _ _ Hcw c Hc Hcur) as (_ & _ & HnQ & _). fold cur in HnQ.
  assert (Hnl : ~ lists Q cur) by (intros (c' & q & Hx); by apply (HnQ c' q)).
  set (s2 := sleep_enqueue s cur w). assert (Hq2 : qwf s2 Q).
  { unfold s2, sleep_enqueue. cbv zeta. set (g := fun p : pcb => p <| wq_next := _ |>).
    assert (Hq1 : qwf (mod_proc (mod_proc s cur (fun p => p <| state := PROC_SLEEPING |> <| wq := w |>)) cur g) Q) by
      (apply qwf_mod_other; [by apply qwf_mod_other|done]). destruct Hq1 as [? ? ? ?]. by split. }
  unfold sleep_switch. destruct (dequeue_spec s2 Q c Hq2 Hc) as (s3 & nx & r & E & Hlo & Hhi & Hr). rewrite E.
  destruct (lo_rq _ _ Hlo c Hc) as (_ & Hid & _). change (idle_task (rqs s2).[c]) with (idle_task (rqs s).[c]) in Hid.
  unfold run_next. destruct (Z.eqb_spec nx NULL) as [->|Hnx]; [|apply Z.eqb_neq in Hnx; rewrite Hnx; by eexists].
  rewrite Hid. destruct (Z.eqb_spec (idle_task (rqs s).[c]) NULL) as [Hz|]; [|by eexists]. exfalso.
  destruct Hrun as [?|[?|(q & p & Hp)]]; [done|done|]. destruct r as [[[q' p'] l]|]; [by destruct Hr as (-> & ? & _)|].
  rewrite Hhi in Hp. by apply not_elem_of_nil in Hp.
Qed.

(** C19 In every state reachable as in [sched_reachable_safe] every scheduler call with
    a loop or a pointer to follow returns: no list is circular and no pointer
    dereferenced is [NULL].  [scheduler_sleep_on] needs something to run, another
    process of the CPU or an idle task; [scheduler_remove_process] ends also for the
    last process of a queue and for one that is in none.  A first start returns exactly
    when the CPU has a process, and the load is the number of processes queued above
    idle, capped at 1000. *)
Theorem sched_calls_return s :
  sched_reachable s ->
  (forall c, 0 <= c < num_cpus s ->
    (exists s', returns (fun fuel => scheduler_tick fuel s c) s') /\
    (exists s', scheduler_yield s c = Some s') /\
    (forall w, w <> NULL -> exists s', returns (fun fuel => scheduler_wakeup fuel s c w) s')) /\
  (forall p, 0 <= cpu (procs s p) < num_cpus s -> 0 <= priority (procs s p) < 5 ->
    exists s', returns (fun fuel => scheduler_remove_process fuel s p) s') /\
  (exists s', returns (fun fuel => priority_boost fuel s) s') /\
  (exists Q W, sched_wf s Q W /\
    (forall c w, 0 <= c < num_cpus s ->
       current (rqs s).[c] = NULL \/ idle_task (rqs s).[c] <> NULL \/ (exists q p, p ∈ Q c q) ->
       exists s', scheduler_sleep_on s c w = Some s') /\
    returns (fun fuel => scheduler_get_load fuel s) (Z.min 1000 (u32 (total_queued Q (load_queues s)))) /\
    forall c, 0 <= c < num_cpus s -> sched_initialized s = true ->
      (scheduler_start s c = None <-> forall q, Q c q = [])).
Proof.
  intros [Hs (Q & W & Hwf)]%reachable_inv. split; [|split; [|split]].
  - intros c Hc. split; [|split].
    + destruct (tick_returns s Q W c Hwf Hs Hc) as (s' & _ & H & _). by exists s'.
    + destruct (yield_spec s Q W c Hwf Hc) as (s' & _ & H & _). by exists s'.
    + intros w Hw. destruct (wakeup_returns s Q W c w Hwf Hc Hw) as (s' & _ & H & _). by exists s'.
  - intros p Hc Hp. by apply (remove_ends s Q W).
  - destruct (boost_returns s Q W Hwf) as (s' & _ & H & _). by exists s'.
  - exists Q, W. split; [done|]. split; [intros c w Hc Hr; by apply (sleep_ends s Q W)|]. split.
    + destruct (queue_bound_wf s Q (proj1 Hwf)) as (b & Hb). exists b. intros m Hm.
      apply get_load_spec; [apply Hwf|]. intros c q Hc Hq. specialize (Hb c q Hc Hq). lia.
    + intros c Hc Hi. pose proof (start_spec s Q W c Hwf Hc Hi) as Hst. destruct (scheduler_start s c) as [s'|].
      * destruct Hst as (q & p & l & (_ & E & _) & _). split; [done|]. intros Hn. by rewrite Hn in E.
      * done.
Qed.

(** A timer tick either only accounts (real-time process, or slice left), or boosts
    every low-priority process to normal each 200 ticks, or, when the slice is used
    up, sends the running process to the tail of its queue and gives the CPU to the
    head of the most urgent queue with a fresh quantum; a yield always does the
    latter. When that head is the process itself it goes on, still marked ready. *)
Theorem tick_yield_outcomes s Q W c :
  sched_wf s Q W -> slices_ok s -> 0 <= c < num_cpus s -> current (rqs s).[c] <> NULL ->
  let cur := current (rqs s).[c] in
  (exists s' Q', returns (fun fuel => scheduler_tick fuel s c) s' /\ sched_wf s' Q' W /\ tick_outcome s s' Q Q' c cur) /\
  (exists s' Q' next, scheduler_yield s c = Some s' /\ sched_wf s' Q' W /\
     rotated s Q c cur next Q' /\ switched s s' c cur next) /\
  (exists s' Q', returns (fun fuel => priority_boost fuel s) s' /\ sched_wf s' Q' W /\
     (forall c q, Q' c q = boosted Q (num_cpus s) c q) /\ kept s s').
Proof.
  intros Hwf Hs Hc Hcur cur. split; [|split].
  - destruct (tick_returns s Q W c Hwf Hs Hc) as (s' & Q' & H1 & H2 & _ & H3). exists s', Q'. auto.
  - destruct (yield_spec s Q W c Hwf Hc) as (s' & Q' & H1 & H2 & _ & H3). destruct (H3 Hcur) as (next & ? & ?).
    exists s', Q', next. auto.
  - by apply boost_returns.
Qed.

(** C20 No starvation within a priority: if nothing more urgent is queued or running on
    the CPU, the process with [n] others before it in its queue runs after [n + 1]
    yields. *)
Theorem round_robin_turn s Q W c q l1 p l2 :
  sched_wf s Q W -> 0 <= c < num_cpus s -> current (rqs s).[c] <> NULL ->
  0 <= q <= priority (procs s (current (rqs s).[c])) -> (forall q', 0 <= q' < q -> Q c q' = []) ->
  Q c q = l1 ++ p :: l2 ->
  exists s', yields (S (length l1)) s c = Some s' /\ current (rqs s').[c] = p /\ state (procs s' p) = PROC_RUNNING.
Proof. apply turn_comes. Qed.

(** Sleeping puts the running process in front of the wait queue and runs the next
    one, the idle task if no other is ready; a wakeup empties the wait queue into the
    run queues, marking every sleeper ready and touching nothing else of the others;
    waking one moves only the front process, the one that went to sleep last. *)
Theorem sleep_and_wakeup s Q W c w :
  sched_wf s Q W -> 0 <= c < num_cpus s -> w <> NULL ->
  (let cur := current (rqs s).[c] in
   cur <> NULL -> idle_task (rqs s).[c] <> NULL -> idle_task (rqs s).[c] <> cur ->
   exists s' next Q', scheduler_sleep_on s c w = Some s' /\ sched_wf s' Q' (Wset W w (cur :: W w)) /\
     ((exists q l, highest Q c (Some (q, next, l)) /\ Q' = Qset Q c q l) \/
      (highest Q c None /\ next = idle_task (rqs s).[c] /\ Q' = Q)) /\
     current (rqs s').[c] = next /\ state (procs s' next) = PROC_RUNNING /\
     state (procs s' cur) = PROC_SLEEPING /\ events s' = events s ++ [Switch cur next]) /\
  (exists s' Q', returns (fun fuel => scheduler_wakeup fuel s c w) s' /\ sched_wf s' Q' (Wset W w []) /\
     (forall p, lists Q' p <-> lists Q p \/ p ∈ W w) /\ others_kept (set_wq_head s w NULL) s' (W w)) /\
  (forall p l, W w = p :: l -> let q := priority (procs s p) in
   let s' := scheduler_wakeup_one s c w in
   exists t, 0 <= t < num_cpus s /\ sched_wf s' (Qset Q t q (Q t q ++ [p])) (Wset W w l) /\
     state (procs s' p) = PROC_READY /\ others_kept (set_wq_head s w (wq_next (procs s p))) s' [p]).
Proof.
  intros Hwf Hc Hw. split; [|split].
  - intros cur H1 H2 H3. destruct (sleep_on_spec s Q W c w Hwf Hc H1 H2 H3) as (s' & nx & Q' & E & ? & ? & ? & ? & ? & _ & ?).
    exists s', nx, Q'. auto 10.
  - by apply wakeup_returns.
  - intros p l HW. by apply wakeup_one_spec.
Qed.

(** Removing the last of several processes leaves the tail pointer [NULL], so
    the next process to be queued is taken for the only one. *)
Lemma remove_tail_loses s Q W c q l p :
  sched_wf s Q W -> Q c q = l ++ [p] -> l <> [] ->
  exists s', returns (fun fuel => scheduler_remove_process fuel s p) s' /\
    forall x, x <> NULL -> x <> p -> cpu (procs s x) = c -> priority (procs s x) = q ->
      chain (snext (enqueue_process s' x)) (queues (rqs (enqueue_process s' x)).[c]).[q] [x].
Proof.
  intros (Hq & Hw & Hcw) HQ Hl. assert (Hin : p ∈ Q c q) by (rewrite HQ; set_solver).
  destruct (qw_in _ _ Hq c q p Hin) as (Hc & Hqr & Hpc & Hpp & _).
  destruct (qw_queue _ _ Hq c q Hc Hqr) as (Hch & _). rewrite HQ in Hch.
  assert (Hp : p <> NULL) by (eapply seg_nonnull; [exact Hch|set_solver]).
  set (s1 := unlink s c q (last_or_null (NULL :: l)) p).
  set (f := fun b : pcb => b <| sched_next := NULL |> <| state := PROC_DEAD |>).
  exists (mod_proc s1 p f). split.
  - apply (stable_returns _ (S (length l))); [apply remove_stable|]. unfold scheduler_remove_process.
    destruct (Z.eqb_spec p NULL); [done|]. cbv zeta. rewrite Hpc, Hpp.
    by rewrite (remove_walk_found l _ _ _ _ _ _ _ [] Hch (Nat.lt_succ_diag_r _)).
  - intros x Hx Hxp Hxc Hxq. set (s2 := mod_proc s1 p f).
    pose proof (unlink_links_only s c q (last_or_null (NULL :: l)) p Hc (qw_cpus _ _ Hq)) as Hlo. fold s1 in Hlo.
    assert (Hx2 : procs s2 x = procs s1 x) by (unfold s2; rewrite procs_mod; by destruct (Z.eqb_spec x p)).
    assert (Hc2 : cpu (procs s2 x) = c) by (by rewrite Hx2, (lo_field cpu _ _ _ Hlo)).
    assert (Hq2 : priority (procs s2 x) = q) by (by rewrite Hx2, (lo_field priority _ _ _ Hlo)).
    pose proof (qw_cpus _ _ Hq) as Hn. destruct (qw_lens _ _ Hq c Hc) as (L1 & L2 & _).
    assert (Hz : zlen (rqs s2) = zlen (rqs s)).
    { unfold s2, s1, unlink. cbv zeta. change (rqs (mod_proc ?t _ _)) with (rqs t).
      destruct (last_or_null (NULL :: l) =? NULL); destruct (_ =? p); rewrite ?zlen_rqs_mod; done. }
    assert (Hr : (rqs s2).[c] = rq_unlink s q p l [] (rqs s).[c]).
    { change (rqs s2) with (rqs s1). unfold s1. rewrite (unlink_rqs s Q c q p l [] Hq HQ) by lia. by rewrite Z.eqb_refl. }
    assert (Hlr : zlen (queues (rqs s2).[c]) = 5 /\ (tails (rqs s2).[c]).[q] = NULL).
    { rewrite Hr. unfold rq_unlink. rewrite bool_decide_eq_true_2 by done.
      destruct (_ =? NULL); rec_simpl; rewrite ?zlen_aset, aget_aset_eq by (rewrite ?zlen_aset; lia); done. }
    destruct Hlr as [Hlr Ht]. apply chain_cons. split; [|split; [done|]].
    + rewrite enqueue_rqs by (rewrite ?Hc2, ?Hz; lia). rewrite Hc2, Z.eqb_refl, Hq2. unfold rq_enqueue. rewrite Ht, Z.eqb_refl.
      cbn [queues]. by rewrite aget_aset_eq by lia.
    + unfold snext. rewrite enqueue_procs by done. rewrite Hc2, Hq2, Ht, !Z.eqb_refl. by cbn [negb andb].
Qed.

(** Removing a process takes it out of its queue, marks it dead and disturbs no other
    process, unless it is the last of several in its queue: then the tail pointer is
    cleared although the queue is not empty, and queueing the next process of that
    priority drops every process still there. *)
Theorem remove_process_outcome s Q W p :
  let c := cpu (procs s p) in
  let q := priority (procs s p) in
  sched_wf s Q W -> p <> NULL -> 0 <= c < num_cpus s -> 0 <= q < 5 -> (forall w, p ∉ W w) ->
  ((forall l, l <> [] -> Q c q <> l ++ [p]) ->
   exists s' Q', returns (fun fuel => scheduler_remove_process fuel s p) s' /\ sched_wf s' Q' W /\
     (forall x, lists Q' x <-> lists Q x /\ x <> p) /\ state (procs s' p) = PROC_DEAD /\
     (forall x, x <> p -> procs s' x = (procs s x) <| sched_next := sched_next (procs s' x) |>) /\
     (forall c', 0 <= c' < num_cpus s -> current (rqs s').[c'] = current (rqs s).[c'] /\
        idle_task (rqs s').[c'] = idle_task (rqs s).[c']) /\ events s' = events s) /\
  (forall l, Q c q = l ++ [p] -> l <> [] ->
   exists s', returns (fun fuel => scheduler_remove_process fuel s p) s' /\
     forall x, x <> NULL -> x <> p -> cpu (procs s x) = c -> priority (procs s x) = q ->
       chain (snext (enqueue_process s' x)) (queues (rqs (enqueue_process s' x)).[c]).[q] [x]).
Proof.
  intros c q Hwf Hp Hc Hq HW. split.
  - intros Hl. apply remove_returns; try done. intros Ht.
    destruct (qw_queue _ _ (proj1 Hwf) c q Hc Hq) as (Hch & Htl & _). fold c q in Ht. rewrite Ht in Htl.
    destruct (Q c q) as [|x l0 _] eqn:E using rev_ind; [done|]. rewrite last_or_null_snoc in Htl. subst x.
    destruct l0 as [|y l0]; [|by destruct (Hl (y :: l0))]. by apply chain_cons in Hch as (Hch & _).
  - intros l HQ Hl. by apply (remove_tail_loses s Q W c q l p).
Qed.

(** * A concrete run: three normal processes and an idle task on one CPU *)

Definition demo_init : sched :=
  scheduler_init (mkSched (fun _ => pcb_zero) [] 0 false (fun _ => NULL) []) 1.
Definition demo_spawn (s : sched) (p prio : Z) : sched :=
  scheduler_add_process (mod_proc s p (fun _ => pcb_zero <| priority := prio |>)) 0 p.
Definition demo_ready : sched := demo_spawn (demo_spawn (demo_spawn demo_init 100 2) 200 2) 300 2.
Definition demo_idle : sched :=
  scheduler_set_idle (mod_proc demo_ready 900 (fun _ => pcb_zero <| priority := 4 |>)) 0 900.
Definition demo_run : sched := default demo_idle (scheduler_start demo_idle 0).

(** The two parts of [scheduler_sleep_on] with a wakeup in between, from another CPU:
    the process that still runs, and is about to be switched from, is ready and waits
    in a run queue, where another CPU can take it. *)
Theorem sleep_wakeup_race :
  option_map (fun s => (current (rqs s).[0], state (procs s 100), sched_next (procs s 300)))
    (scheduler_wakeup 3 (sleep_enqueue demo_run 100 7) 0 7) = Some (100, PROC_READY, 100).
Proof. vm_compute. reflexivity. Qed.

Ltac demo_off := split; [done|]; split; [vm_compute; done|]; split; [vm_compute; done|];
  intros c Hc; change (0 <= c < 1) in Hc; assert (c = 0) as -> by lia; vm_compute; done.

Lemma demo_spawn_reachable s p prio :
  sched_reachable s -> off_queue s p -> num_cpus s = 1 -> 0 <= prio < 5 ->
  sched_reachable (demo_spawn s p prio).
Proof.
  intros Hr Ho Hn Hp. eapply sr_step; [eapply sr_step; [exact Hr|]|].
  - apply (st_create s p (pcb_zero <| priority := prio |>)); done.
  - apply st_add; [change (0 <= 0 < num_cpus s); lia| |].
    + destruct Ho as (H1 & _ & _ & H4). split; [done|]. rewrite procs_mod, Z.eqb_refl. by split_and!.
    + by rewrite procs_mod, Z.eqb_refl.
Qed.

Lemma demo_ready_reachable : sched_reachable demo_ready.
Proof.
  unfold demo_ready. apply demo_spawn_reachable; [|demo_off|by vm_compute|lia].
  apply demo_spawn_reachable; [|demo_off|by vm_compute|lia].
  apply demo_spawn_reachable; [|demo_off|by vm_compute|lia].
  apply sr_init; [lia|done|]. intros p. by vm_compute.
Qed.

Definition demo_created : sched := mod_proc demo_ready 900 (fun _ => pcb_zero <| priority := 4 |>).

Lemma demo_reachable : sched_reachable demo_run.
Proof.
  apply (sr_step demo_idle demo_run).
  - apply (sr_step demo_created demo_idle).
    + apply (sr_step demo_ready demo_created); [exact demo_ready_reachable|].
      apply (st_create demo_ready 900 (pcb_zero <| priority := 4 |>)); [demo_off|done|done|done].
    + apply (st_set_idle demo_created 0 900); [lia|done|by vm_compute|by vm_compute|by vm_compute].
  - apply (st_start demo_idle 0); [by vm_compute|]. unfold demo_run.
    assert (E : match scheduler_start demo_idle 0 with Some _ => True | None => False end) by (vm_compute; exact I).
    destruct (scheduler_start demo_idle 0); [reflexivity|destruct E].
Qed.

Lemma demo_queue Q W : sched_wf demo_run Q W -> Q 0 2 = [200; 300] /\ Q 0 0 = [] /\ Q 0 1 = [].
Proof.
  intros (Hq & _). assert (Hc : 0 <= 0 < num_cpus demo_run) by (by vm_compute).
  assert (Hx : forall q l, 0 <= q < 5 -> chain (snext demo_run) (queues (rqs demo_run).[0]).[q] l -> Q 0 q = l).
  { intros q l Hqr Hl. destruct (qw_queue _ _ Hq 0 q Hc Hqr) as (Hch & _). by eapply chain_fun. }
  split; [|split]; apply Hx; try lia; vm_compute; by split_and?.
Qed.

Lemma sched_reachable_safe_witness :
  sched_reachable demo_run /\ exists Q W, sched_wf demo_run Q W /\ (forall c q, NoDup (Q c q)).
Proof.
  split; [exact demo_reachable|].
  destruct (sched_reachable_safe demo_run demo_reachable) as (Q & W & H1 & _ & H3 & _). by exists Q, W.
Defined.

Lemma sched_calls_return_witness :
  sched_reachable demo_run /\ exists s', returns (fun fuel => scheduler_tick fuel demo_run 0) s'.
Proof.
  split; [exact demo_reachable|].
  destruct (sched_calls_return demo_run demo_reachable) as (H & _).
  destruct (H 0 ltac:(vm_compute; split; [discriminate|reflexivity])) as (H1 & _). exact H1.
Defined.

Lemma tick_yield_outcomes_witness :
  exists s' Q' W next, scheduler_yield demo_run 0 = Some s' /\ sched_wf s' Q' W /\
    switched demo_run s' 0 100 next /\ current (rqs s').[0] = 200.
Proof.
  destruct (reachable_inv _ demo_reachable) as (Hs & Q & W & Hwf).
  destruct (tick_yield_outcomes demo_run Q W 0 Hwf Hs ltac:(by vm_compute) ltac:(by vm_compute))
    as (_ & (s' & Q' & next & H1 & H2 & _ & H4) & _).
  exists s', Q', W, next. split; [done|]. split; [done|]. split; [exact H4|].
  assert (E : option_map (fun s => current (rqs s).[0]) (scheduler_yield demo_run 0) = Some 200) by (vm_compute; reflexivity).
  rewrite H1 in E. cbn in E. congruence.
Defined.

Lemma round_robin_turn_witness :
  exists s', yields 2 demo_run 0 = Some s' /\ current (rqs s').[0] = 300 /\ state (procs s' 300) = PROC_RUNNING.
Proof.
  destruct (reachable_inv _ demo_reachable) as (Hs & Q & W & Hwf).
  destruct (demo_queue Q W Hwf) as (E2 & E0 & E1).
  apply (round_robin_turn demo_run Q W 0 2 [200] 300 []); try (by vm_compute); try done.
  intros q Hq. assert (q = 0 \/ q = 1) as [->| ->] by lia; done.
Defined.

Lemma sleep_and_wakeup_witness :
  exists s' W, scheduler_sleep_on demo_run 0 7 = Some s' /\ state (procs s' 100) = PROC_SLEEPING /\
    (exists Q', sched_wf s' Q' (Wset W 7 (100 :: W 7))) /\ current (rqs s').[0] = 200.
Proof.
  destruct (reachable_inv _ demo_reachable) as (Hs & Q & W & Hwf).
  destruct (sleep_and_wakeup demo_run Q W 0 7 Hwf ltac:(by vm_compute) ltac:(done)) as (H & _).
  destruct H as (s' & next & Q' & E & H1 & _ & H3 & _ & H5 & _); [vm_compute; done..|].
  exists s', W. split; [done|]. split; [exact H5|]. split; [exists Q'; exact H1|].
  assert (E' : option_map (fun s => current (rqs s).[0]) (scheduler_sleep_on demo_run 0 7) = Some 200) by (vm_compute; reflexivity).
  rewrite E in E'. cbn in E'. congruence.
Defined.

Definition demo_more : sched := mod_proc demo_run 500 (fun _ => pcb_zero <| priority := 2 |>).

Lemma remove_process_outcome_witness :
  (exists s' Q' W, sched_wf s' Q' W /\ state (procs s' 200) = PROC_DEAD /\ ~ lists Q' 200) /\
  (exists s', returns (fun fuel => scheduler_remove_process fuel demo_more 300) s' /\
    chain (snext (enqueue_process s' 500)) (queues (rqs (enqueue_process s' 500)).[0]).[2] [500]).
Proof.
  destruct (reachable_inv _ demo_reachable) as (Hs & Q & W & Hwf).
  assert (Hwf5 : sched_wf demo_more Q W) by (apply create_wf; [exact Hwf|demo_off]).
  destruct (demo_queue Q W Hwf) as (E2 & _).
  assert (HW : forall p w, state (procs demo_run p) = PROC_READY -> p ∉ W w).
  { intros p w Hst Hx. destruct Hwf as (_ & Hw & _). destruct (ww_in _ _ Hw w p Hx) as (Hsl & _).
    rewrite Hst in Hsl. discriminate Hsl. }
  split.
  - destruct (remove_process_outcome demo_run Q W 200 Hwf ltac:(done) ltac:(by vm_compute) ltac:(by vm_compute)) as (H & _).
    { intros w. apply HW. by vm_compute. }
    destruct H as (s' & Q' & _ & H1 & H2 & H3 & _).
    { intros l _ E. change (Q 0 2 = l ++ [200]) in E. rewrite E2 in E.
      apply (f_equal last) in E. rewrite last_snoc in E. discriminate E. }
    exists s', Q', W. split; [exact H1|]. split; [exact H3|]. intros Hx. apply H2 in Hx as [_ Hx]. by apply Hx.
  - destruct (remove_process_outcome demo_more Q W 300 Hwf5 ltac:(done) ltac:(by vm_compute) ltac:(by vm_compute)) as (_ & H).
    { intros w. apply HW. by vm_compute. }
    destruct (H [200] E2 ltac:(done)) as (s' & H1 & Hx). exists s'. split; [exact H1|].
    apply Hx; [done|done|by vm_compute|by vm_compute].
Defined.
