(* ===== verification/Sync.v ===== *)
(** Synchronization primitives ([src/sync.c]).

    The spinlock is modelled instruction group by instruction group, for any
    number of CPUs: every CPU has a program counter inside [spin_lock],
    [spin_trylock] or [spin_unlock] and its own interrupt mask.  Everything
    protected by a spinlock (read-write lock, semaphore, barrier, and the
    wait queue of a mutex) is one step.  Objects that block work on the scheduler
    state of [Sched], through [wq_next], [scheduler_yield] and
    [scheduler_add_process].  [None] is what it is there; for a lock whose C
    function loops, one round is modelled and [None] means another round. *)
From S2P Require Import Prelude Sched SchedRun.

(** * Spinlocks *)

Record spinlock := mkSpin { lock : Z; owner : Z; irq_flags : Z }.
#[export] Instance eta_spinlock : Eta spinlock := fun l => mkSpin (lock l) (owner l) (irq_flags l).

Definition spinlock_init (l : spinlock) : spinlock := l <| lock := 0 |> <| owner := -1 |>.
Definition SPINLOCK_INIT : spinlock := mkSpin 0 (-1) 0.

(** Where a CPU is.  [Held f] carries the interrupt mask from before [spin_lock],
    [Held None] is a lock taken with [spin_trylock]. *)
Inductive spin_pc :=
| Out
| Spinning (flags : Z)         (** before the [ldaxr]/[stlxr] pair *)
| Acquired (flags : Z)         (** before [lock->owner = cpu_get_id()] *)
| Owned (flags : Z)            (** before [lock->irq_flags = flags] *)
| Tried                        (** [spin_trylock] succeeded, before [lock->owner] *)
| Held (flags : option Z)
| Unlocking (flags : Z) (saved : option Z)  (** [lock->irq_flags] read, before [stlr] *)
| Released (flags : Z) (saved : option Z)   (** before [lock->owner = -1] *)
| Restoring (flags : Z) (saved : option Z). (** before [arch_restore_irq] *)

(** The mask about to be restored and the one from before [spin_lock] *)
Definition pc_flags (p : spin_pc) : option (Z * Z) :=
  match p with
  | Unlocking g (Some f) | Released g (Some f) | Restoring g (Some f) => Some (g, f)
  | _ => None
  end.

Record spin := mkSpinState { sp_lock : spinlock; daif : Z -> Z; at_pc : Z -> spin_pc }.
#[export] Instance eta_spin : Eta spin := fun s => mkSpinState (sp_lock s) (daif s) (at_pc s).

Definition goto (s : spin) (c : Z) (p : spin_pc) : spin := s <| at_pc := <[c := p]> (at_pc s) |>.
Definition set_daif (s : spin) (c f : Z) : spin := s <| daif := <[c := f]> (daif s) |>.

(** [mrs daif; msr daifset, #0xF]: D, A, I and F are bits 6 to 9. *)
Definition arch_save_irq_disable (s : spin) (c : Z) : spin * Z :=
  (set_daif s c (Z.lor (daif s c) 0x3C0), daif s c).
Definition arch_restore_irq (s : spin) (c flags : Z) : spin := set_daif s c flags.

(** One step of CPU [c] inside [spin_lock]. *)
Definition spin_lock (s : spin) (c : Z) : option spin :=
  match at_pc s c with
  | Out => let '(s, flags) := arch_save_irq_disable s c in Some (goto s c (Spinning flags))
  | Spinning flags =>
      if lock (sp_lock s) =? 0 then Some (goto (s <| sp_lock := (sp_lock s) <| lock := 1 |> |>) c (Acquired flags))
      else None
  | Acquired flags => Some (goto (s <| sp_lock := (sp_lock s) <| owner := c |> |>) c (Owned flags))
  | Owned flags => Some (goto (s <| sp_lock := (sp_lock s) <| irq_flags := flags |> |>) c (Held (Some flags)))
  | _ => None
  end.

(** One step inside [spin_trylock]; a failure leaves everything as it is. *)
Definition spin_trylock (s : spin) (c : Z) : option spin :=
  match at_pc s c with
  | Out =>
      if lock (sp_lock s) =? 0 then Some (goto (s <| sp_lock := (sp_lock s) <| lock := 1 |> |>) c Tried)
      else Some s
  | Tried => Some (goto (s <| sp_lock := (sp_lock s) <| owner := c |> |>) c (Held None))
  | _ => None
  end.

(** One step inside [spin_unlock]. *)
Definition spin_unlock (s : spin) (c : Z) : option spin :=
  match at_pc s c with
  | Held saved => Some (goto s c (Unlocking (irq_flags (sp_lock s)) saved))
  | Unlocking flags f => Some (goto (s <| sp_lock := (sp_lock s) <| lock := 0 |> |>) c (Released flags f))
  | Released flags f => Some (goto (s <| sp_lock := (sp_lock s) <| owner := -1 |> |>) c (Restoring flags f))
  | Restoring flags _ => Some (goto (arch_restore_irq s c flags) c Out)
  | _ => None
  end.

(** CPUs interleave; only the holder unlocks. *)
Inductive spin_step (s : spin) : spin -> Prop :=
| sps_lock c s' : spin_lock s c = Some s' -> spin_step s s'
| sps_trylock c s' : spin_trylock s c = Some s' -> spin_step s s'
| sps_unlock c s' : spin_unlock s c = Some s' -> spin_step s s'.

Definition spin_start (l : spinlock) (d : Z -> Z) : spin := mkSpinState (spinlock_init l) d (fun _ => Out).

(** The critical section, [stlr] being its end. *)
Definition inside (p : spin_pc) : Prop :=
  match p with Acquired _ | Owned _ | Tried | Held _ | Unlocking _ _ => True | _ => False end.

Definition spin_ok (s : spin) : Prop :=
  (lock (sp_lock s) = 0 \/ lock (sp_lock s) = 1) /\
  (forall c, inside (at_pc s c) -> lock (sp_lock s) = 1) /\
  (forall c c', inside (at_pc s c) -> inside (at_pc s c') -> c = c') /\
  (forall c f, at_pc s c = Held (Some f) -> irq_flags (sp_lock s) = f) /\
  (forall c g f, pc_flags (at_pc s c) = Some (g, f) -> g = f).

Lemma spin_ok_goto s l d c p :
  spin_ok s -> (lock l = 0 \/ lock l = 1) ->
  (inside p -> lock l = 1 /\ forall c', c' <> c -> ~ inside (at_pc s c')) ->
  (~ inside p -> forall c', c' <> c -> inside (at_pc s c') -> lock l = 1) ->
  (irq_flags l <> irq_flags (sp_lock s) -> inside (at_pc s c)) ->
  (forall f, p = Held (Some f) -> irq_flags l = f) -> (forall g f, pc_flags p = Some (g, f) -> g = f) ->
  spin_ok (goto (s <| sp_lock := l |> <| daif := d |>) c p).
Proof.
  intros (H1 & H2 & H3 & H4 & H5) Hl Hin Hout Hirq Hh Hu.
  assert (Hat : forall c', at_pc (goto (s <| sp_lock := l |> <| daif := d |>) c p) c' = if c' =? c then p else at_pc s c').
  { intros c'. unfold goto. rec_simpl. destruct (Z.eqb_spec c' c) as [->|]; [apply fn_lookup_insert|].
    by apply fn_lookup_insert_ne. }
  assert (Hdec : inside p \/ ~ inside p) by (destruct p; cbn; auto).
  unfold spin_ok. change (sp_lock (goto (s <| sp_lock := l |> <| daif := d |>) c p)) with l.
  split; [done|]. split; [|split; [|split]].
  - intros c'. rewrite Hat. destruct (Z.eqb_spec c' c) as [->|Hne]; [intros Hp; by destruct (Hin Hp)|]. intros Hc'.
    destruct Hdec as [Hp|Hp]; [by apply Hin|by apply (Hout Hp c')].
  - intros c1 c2. rewrite !Hat. destruct (Z.eqb_spec c1 c) as [->|Hn1], (Z.eqb_spec c2 c) as [->|Hn2]; [done|..].
    + intros Hp Hc. destruct (Hin Hp) as [_ Hx]. by destruct (Hx c2 Hn2).
    + intros Hc Hp. destruct (Hin Hp) as [_ Hx]. by destruct (Hx c1 Hn1).
    + apply H3.
  - intros c' f. rewrite Hat. destruct (Z.eqb_spec c' c) as [->|Hne]; [apply Hh|]. intros Hc'.
    destruct (decide (irq_flags l = irq_flags (sp_lock s))) as [->|Hi]; [by eapply H4|].
    exfalso. apply Hne, H3; [by rewrite Hc'|by apply Hirq].
  - intros c' g f. rewrite Hat. destruct (Z.eqb_spec c' c) as [->|Hne]; [apply Hu|]. apply H5.
Qed.

Lemma spin_step_ok s s' : spin_ok s -> spin_step s s' -> spin_ok s'.
Proof.
  intros Hok Hst. pose proof Hok as (H1 & H2 & H3 & H4 & H5).
  assert (Hfree : lock (sp_lock s) = 0 -> forall c, ~ inside (at_pc s c)).
  { intros H0 c Hc. specialize (H2 c Hc). lia. }
  assert (Hexcl : forall c, inside (at_pc s c) -> lock (sp_lock s) = 1 /\ forall c', c' <> c -> ~ inside (at_pc s c')).
  { intros c Hc. split; [by eapply H2|]. intros c' Hne Hc'. apply Hne. by apply H3. }
  assert (Hgo : forall c p l d, s' = goto (s <| sp_lock := l |> <| daif := d |>) c p ->
    (lock l = 0 \/ lock l = 1) ->
    (inside p -> lock l = 1 /\ forall c', c' <> c -> ~ inside (at_pc s c')) ->
    (~ inside p -> forall c', c' <> c -> inside (at_pc s c') -> lock l = 1) ->
    (irq_flags l <> irq_flags (sp_lock s) -> inside (at_pc s c)) ->
    (forall f, p = Held (Some f) -> irq_flags l = f) -> (forall g f, pc_flags p = Some (g, f) -> g = f) -> spin_ok s').
  { intros c p l d ->. by apply spin_ok_goto. }
  clear Hok.
  destruct Hst as [c s2 E|c s2 E|c s2 E].
  - unfold spin_lock in E. destruct (at_pc s c) as [|f|f|f| | | | |] eqn:Epc; try done.
    + injection E as E.
      apply (Hgo c (Spinning (daif s c)) (sp_lock s) (<[c := Z.lor (daif s c) 0x3C0]> (daif s))); try (by rewrite <- E; destruct s); try done; eauto.
    + destruct (Z.eqb_spec (lock (sp_lock s)) 0) as [H0|]; [|done]. injection E as E.
      apply (Hgo c (Acquired f) ((sp_lock s) <| lock := 1 |>) (daif s)); try (by rewrite <- E; destruct s); try done; eauto.
    + injection E as E. destruct (Hexcl c) as [Hl Hx]; [by rewrite Epc|].
      apply (Hgo c (Owned f) ((sp_lock s) <| owner := c |>) (daif s)); try (by rewrite <- E; destruct s); try done; eauto.
    + injection E as E. destruct (Hexcl c) as [Hl Hx]; [by rewrite Epc|].
      apply (Hgo c (Held (Some f)) ((sp_lock s) <| irq_flags := f |>) (daif s)); try (by rewrite <- E; destruct s); try done; eauto; [by rewrite Epc|].
      intros f' [= <-]. done.
  - unfold spin_trylock in E. destruct (at_pc s c) eqn:Epc; try done.
    + destruct (Z.eqb_spec (lock (sp_lock s)) 0) as [H0|]; [|by injection E as <-]. injection E as E.
      apply (Hgo c Tried ((sp_lock s) <| lock := 1 |>) (daif s)); try (by rewrite <- E; destruct s); try done; eauto.
    + injection E as E. destruct (Hexcl c) as [Hl Hx]; [by rewrite Epc|].
      apply (Hgo c (Held None) ((sp_lock s) <| owner := c |>) (daif s)); try (by rewrite <- E; destruct s); try done; eauto.
  - unfold spin_unlock in E. destruct (at_pc s c) as [| | | | |sv|f sv|f sv|f sv] eqn:Epc; try done;
      injection E as E.
    + destruct (Hexcl c) as [Hl Hx]; [by rewrite Epc|].
      apply (Hgo c (Unlocking (irq_flags (sp_lock s)) sv) (sp_lock s) (daif s)); try (by rewrite <- E; destruct s); try done; eauto.
      intros g f. destruct sv as [f'|]; [|done]. intros [= <- <-]. by apply (H4 c).
    + destruct (Hexcl c) as [Hl Hx]; [by rewrite Epc|].
      apply (Hgo c (Released f sv) ((sp_lock s) <| lock := 0 |>) (daif s)); try (by rewrite <- E; destruct s); try done; eauto.
      * intros _ c' Hne Hc'. by destruct (Hx c').
      * intros g f' Hg. apply (H5 c). by rewrite Epc.
    + apply (Hgo c (Restoring f sv) ((sp_lock s) <| owner := -1 |>) (daif s)); try (by rewrite <- E; destruct s); try done; eauto.
      intros g f' Hg. apply (H5 c). by rewrite Epc.
    + apply (Hgo c Out (sp_lock s) (<[c := f]> (daif s))); try (by rewrite <- E; destruct s); try done; eauto.
Qed.

Lemma spin_reachable_ok l d s : rtc spin_step (spin_start l d) s -> spin_ok s.
Proof.
  intros Hr. assert (Hinit : spin_ok (spin_start l d)) by (split; [by left|]; split_and!; done).
  revert Hinit. induction Hr as [|s s1 s2 Hst _ IH]; [done|]. intros Hok. apply IH. by eapply spin_step_ok.
Qed.


(** Executing a given interleaving *)
Inductive spin_call := CLock | CTry | CUnlock.
Definition spin_do (k : spin_call) : spin -> Z -> option spin :=
  match k with CLock => spin_lock | CTry => spin_trylock | CUnlock => spin_unlock end.
Fixpoint spin_trace (s : spin) (l : list (spin_call * Z)) : option spin :=
  match l with
  | [] => Some s
  | (k, c) :: l' => match spin_do k s c with None => None | Some s' => spin_trace s' l' end
  end.

Lemma spin_trace_rtc l s s' : spin_trace s l = Some s' -> rtc spin_step s s'.
Proof.
  revert s. induction l as [|[k c] l IH]; intros s; cbn; [by intros [= <-]|].
  destruct (spin_do k s c) as [s1|] eqn:E; [|done]. intros Hr%IH. eapply rtc_l; [|exact Hr].
  destruct k; [by eapply sps_lock|by eapply sps_trylock|by eapply sps_unlock].
Qed.

(** CPU 1 releases while CPU 0 waits, and resets [owner] after CPU 0 has set it. *)
Definition owner_race : list (spin_call * Z) :=
  [(CLock, 1); (CLock, 1); (CLock, 1); (CLock, 1); (CLock, 0); (CUnlock, 1); (CUnlock, 1);
   (CLock, 0); (CLock, 0); (CLock, 0); (CUnlock, 1)].

Lemma daif_goto s c p : daif (goto s c p) = daif s.
Proof. done. Qed.

(** Two holes: [owner] is reset after the lock word is cleared, so a CPU can hold the
    lock while [owner] says nobody does; and [spin_trylock] does not record the
    interrupt mask that [spin_unlock] restores, so the pair replaces the mask of the
    CPU by whatever the lock's previous [spin_lock] had saved. *)
Theorem spinlock_holes :
  (exists s, rtc spin_step (spin_start SPINLOCK_INIT (fun _ => 0)) s /\
     at_pc s 0 = Held (Some 0) /\ owner (sp_lock s) = -1) /\
  (forall l d c, exists s',
     spin_trace (spin_start l d) [(CTry, c); (CTry, c); (CUnlock, c); (CUnlock, c); (CUnlock, c); (CUnlock, c)] = Some s' /\
     at_pc s' c = Out /\ daif s' c = irq_flags l).
Proof.
  split.
  - destruct (spin_trace (spin_start SPINLOCK_INIT (fun _ => 0)) owner_race) as [s|] eqn:E; [|by vm_compute in E].
    exists s. split; [by eapply spin_trace_rtc|].
    assert (Hx : option_map (fun s => (at_pc s 0, owner (sp_lock s)))
      (spin_trace (spin_start SPINLOCK_INIT (fun _ => 0)) owner_race) = Some (Held (Some 0), -1)) by (vm_compute; reflexivity).
    rewrite E in Hx. by injection Hx as -> ->.
  - intros l d c. unfold spin_start. cbn [spin_trace spin_do].
    assert (Hg : forall s p, at_pc (goto s c p) c = p) by (intros; apply fn_lookup_insert).
    unfold spin_trylock at 1. cbn [at_pc sp_lock spinlock_init]. rec_simpl. rewrite Z.eqb_refl.
    unfold spin_trylock. rewrite Hg. unfold spin_unlock at 1. rewrite Hg. unfold spin_unlock at 1. rewrite Hg.
    unfold spin_unlock at 1. rewrite Hg. unfold spin_unlock. rewrite Hg. eexists. split; [reflexivity|].
    split; [apply Hg|]. rewrite daif_goto. apply fn_lookup_insert.
Qed.

(** * Read-write locks: one round of each loop, under the lock's spinlock *)

Record rwlock := mkRw { readers : Z; writer : Z }.
#[export] Instance eta_rwlock : Eta rwlock := fun l => mkRw (readers l) (writer l).

Definition rwlock_init : rwlock := mkRw 0 0.
Definition rwlock_read_lock (l : rwlock) : option rwlock :=
  if writer l =? 0 then Some (l <| readers := u32 (readers l + 1) |>) else None.
Definition rwlock_read_unlock (l : rwlock) : rwlock :=
  if 0 <? readers l then l <| readers := readers l - 1 |> else l.
Definition rwlock_write_lock (l : rwlock) : option rwlock :=
  if (writer l =? 0) && (readers l =? 0) then Some (l <| writer := 1 |>) else None.
Definition rwlock_write_unlock (l : rwlock) : rwlock := l <| writer := 0 |>.

(** Clients and who of them holds what; [None] of a lock call is a retry. *)
Record rw_sys := mkRwSys { rw_lock : rwlock; rw_readers : list Z; rw_writers : list Z }.

Inductive rw_step : rw_sys -> rw_sys -> Prop :=
| rws_read l l' R W p : zlen R < 2 ^ 32 - 1 -> rwlock_read_lock l = Some l' ->
    rw_step (mkRwSys l R W) (mkRwSys l' (p :: R) W)
| rws_read_unlock l R1 p R2 W :
    rw_step (mkRwSys l (R1 ++ p :: R2) W) (mkRwSys (rwlock_read_unlock l) (R1 ++ R2) W)
| rws_write l l' R W p : rwlock_write_lock l = Some l' -> rw_step (mkRwSys l R W) (mkRwSys l' R (p :: W))
| rws_write_unlock l R W1 p W2 :
    rw_step (mkRwSys l R (W1 ++ p :: W2)) (mkRwSys (rwlock_write_unlock l) R (W1 ++ W2)).

Definition rw_ok (s : rw_sys) : Prop :=
  readers (rw_lock s) = zlen (rw_readers s) /\ 0 <= zlen (rw_readers s) < 2 ^ 32 /\
  ((writer (rw_lock s) = 0 /\ rw_writers s = []) \/
   (writer (rw_lock s) = 1 /\ rw_readers s = [] /\ exists p, rw_writers s = [p])).

Lemma rw_step_ok s s' : rw_ok s -> rw_step s s' -> rw_ok s'.
Proof.
  intros (H1 & H2 & H3) Hst. destruct Hst as [l l' R W p Hb E|l R1 p R2 W|l l' R W p E|l R W1 p W2];
    unfold rw_ok; cbn [rw_lock rw_readers rw_writers] in *.
  - unfold rwlock_read_lock in E. destruct (Z.eqb_spec (writer l) 0) as [Hw|]; [|done]. injection E as <-. rec_simpl.
    rewrite zlen_cons, H1. split; [rewrite u32_id; lia|]. split; [lia|].
    destruct H3 as [H3|(H3 & _)]; [by left|lia].
  - rewrite zlen_app, zlen_cons in *. pose proof (zlen_nonneg R1). pose proof (zlen_nonneg R2).
    unfold rwlock_read_unlock. destruct (Z.ltb_spec 0 (readers l)); [|lia]. rec_simpl.
    split; [lia|]. split; [lia|]. destruct H3 as [H3|(_ & H3 & _)]; [by left|by destruct R1].
  - unfold rwlock_write_lock in E. destruct (Z.eqb_spec (writer l) 0) as [Hw|]; [|done].
    destruct (Z.eqb_spec (readers l) 0) as [Hr|]; [|done]. injection E as <-. rec_simpl.
    split; [done|]. split; [done|]. right. split; [done|]. destruct H3 as [[_ ->]|(? & _)]; [|lia].
    split; [|by exists p]. apply length_zero_iff_nil. unfold zlen in *. lia.
  - unfold rwlock_write_unlock. rec_simpl. split; [done|]. split; [done|]. left. split; [done|].
    destruct H3 as [[_ H3]|(_ & _ & q & H3)]; [by destruct W1|]. destruct W1 as [|x W1]; [by injection H3 as _ ->|].
    by destruct W1.
Qed.

(** C37 Read-write locks exclude: whatever sequence of lock and unlock calls the clients
    make, a writer is alone, [readers] counts the readers, a read lock is refused
    exactly while there is a writer and a write lock exactly while anybody holds the
    lock, so it is granted again once they leave. *)
Theorem rwlock_exclusion s :
  rtc rw_step (mkRwSys rwlock_init [] []) s ->
  (length (rw_writers s) <= 1)%nat /\ (rw_writers s <> [] -> rw_readers s = []) /\
  readers (rw_lock s) = zlen (rw_readers s) /\
  (rwlock_read_lock (rw_lock s) = None <-> rw_writers s <> []) /\
  (rwlock_write_lock (rw_lock s) = None <-> rw_writers s <> [] \/ rw_readers s <> []).
Proof.
  intros Hr. assert (H0 : rw_ok (mkRwSys rwlock_init [] [])) by (split; [done|]; split; [done|]; by left).
  assert (Hok : rw_ok s).
  { revert H0. induction Hr as [|? ? ? Hst _ IH]; [done|]. intros ?. apply IH. by eapply rw_step_ok. }
  clear Hr H0. destruct s as [l R W]. destruct Hok as (H1 & _ & H3). cbn in *.
  unfold rwlock_read_lock, rwlock_write_lock. rewrite H1.
  destruct H3 as [[-> ->]|(-> & -> & p & ->)]; cbn.
  - split; [lia|]. split; [done|]. split; [done|]. split; [done|].
    destruct R as [|x R]; [cbn; split; [done|by intros [?|?]]|]. rewrite zlen_cons.
    pose proof (zlen_nonneg R). destruct (Z.eqb_spec (1 + zlen R) 0); [lia|]. split; [by right|done].
  - split_and!; try done; try lia. split; [by left|done].
Qed.

(** * Blocking objects *)

(** [current->state = PROC_SLEEPING; current->wq_next = head] *)
Definition push_waiter (s : sched) (cur head : Z) : sched :=
  mod_proc s cur (fun p => p <| state := PROC_SLEEPING |> <| wq_next := head |>).
(** [waiter->wq_next = NULL; waiter->state = PROC_READY] *)
Definition pop_waiter (s : sched) (w : Z) : sched :=
  mod_proc s w (fun p => p <| wq_next := NULL |> <| state := PROC_READY |>).

(** ** Mutexes *)

Record mutex := mkMutex { m_owner : Z; m_locked : Z; m_waiters : Z }.
#[export] Instance eta_mutex : Eta mutex := fun m => mkMutex (m_owner m) (m_locked m) (m_waiters m).

Definition mutex_init : mutex := mkMutex NULL 0 NULL.

Definition mutex_lock (m : mutex) (s : sched) (c : Z) : option (mutex * sched) :=
  let cur := scheduler_get_current s c in
  if m_locked m =? 0 then Some (m <| m_locked := 1 |> <| m_owner := cur |>, s) else
  if cur =? NULL then None else
  if m_owner m =? cur then Some (m, s) else
  match scheduler_yield (push_waiter s cur (m_waiters m)) c with
  | None => None
  | Some s' => Some (m <| m_waiters := cur |>, s')
  end.

Definition mutex_unlock (m : mutex) (s : sched) (c : Z) : option (mutex * sched) :=
  let cur := scheduler_get_current s c in
  if negb (m_owner m =? cur) then (if cur =? NULL then None else Some (m, s)) else
  if negb (m_waiters m =? NULL) then
    let w := m_waiters m in
    Some (m <| m_waiters := wq_next (procs s w) |> <| m_owner := w |>, scheduler_add_process (pop_waiter s w) c w)
  else Some (m <| m_owner := NULL |> <| m_locked := 0 |>, s).

Definition mutex_trylock (m : mutex) (s : sched) (c : Z) : mutex * bool :=
  if m_locked m =? 0 then (m <| m_locked := 1 |> <| m_owner := scheduler_get_current s c |>, true) else (m, false).

(** ** Semaphores *)

Record semaphore := mkSem { count : Z; sem_waiters : Z }.
#[export] Instance eta_semaphore : Eta semaphore := fun m => mkSem (count m) (sem_waiters m).

Definition sem_init (initial : Z) : semaphore := mkSem initial NULL.

Definition sem_wait (m : semaphore) (s : sched) (c : Z) : option (semaphore * sched) :=
  let cur := scheduler_get_current s c in
  let m := m <| count := s32 (count m - 1) |> in
  if count m <? 0 then
    if cur =? NULL then None else
    match scheduler_yield (push_waiter s cur (sem_waiters m)) c with
    | None => None
    | Some s' => Some (m <| sem_waiters := cur |>, s')
    end
  else Some (m, s).

Definition sem_signal (m : semaphore) (s : sched) (c : Z) : semaphore * sched :=
  let m := m <| count := s32 (count m + 1) |> in
  if (count m <=? 0) && negb (sem_waiters m =? NULL) then
    let w := sem_waiters m in
    (m <| sem_waiters := wq_next (procs s w) |>, scheduler_add_process (pop_waiter s w) c w)
  else (m, s).

Definition sem_trywait (m : semaphore) : semaphore * bool :=
  if 0 <? count m then (m <| count := count m - 1 |>, true) else (m, false).

(** ** Barriers *)

Record barrier := mkBarrier { target : Z; arrived : Z; cycle : Z; bar_waiters : Z }.
#[export] Instance eta_barrier : Eta barrier := fun b =>
  mkBarrier (target b) (arrived b) (cycle b) (bar_waiters b).

Definition barrier_init (b : barrier) (n : Z) : barrier := if n =? 0 then b else mkBarrier n 0 0 NULL.

Fixpoint release_list (fuel : nat) (s : sched) (c p : Z) : option sched :=
  match fuel with
  | O => None
  | S f =>
      if p =? NULL then Some s else
      release_list f (scheduler_add_process (pop_waiter s p) c p) c (wq_next (procs s p))
  end.

Definition barrier_wait (fuel : nat) (b : barrier) (s : sched) (c : Z) : option (barrier * sched) :=
  let cur := scheduler_get_current s c in
  let b := b <| arrived := u32 (arrived b + 1) |> in
  if target b <=? arrived b then
    match release_list fuel s c (bar_waiters b) with
    | None => None
    | Some s' => Some (b <| arrived := 0 |> <| cycle := u32 (cycle b + 1) |> <| bar_waiters := NULL |>, s')
    end
  else
    if cur =? NULL then None else
    match scheduler_yield (push_waiter s cur (bar_waiters b)) c with
    | None => None
    | Some s' => Some (b <| bar_waiters := cur |>, s')
    end.

(** * Counting *)

(** The calls on one semaphore, at any scheduler states; the label is what they add. *)
Inductive sem_step : semaphore -> Z -> semaphore -> Prop :=
| sms_wait m s c m' s' : sem_wait m s c = Some (m', s') -> sem_step m (-1) m'
| sms_signal m s c : sem_step m 1 (sem_signal m s c).1
| sms_trywait m : sem_step m (if (sem_trywait m).2 then -1 else 0) (sem_trywait m).1.

Inductive sem_run : semaphore -> Z -> semaphore -> Prop :=
| smr_nil m : sem_run m 0 m
| smr_step m n m' k m'' : sem_run m n m' -> sem_step m' k m'' -> sem_run m (n + k) m''.

Inductive bar_run : barrier -> Z -> barrier -> Prop :=
| br_nil b : bar_run b 0 b
| br_step b n b' fuel s c b'' s' :
    bar_run b n b' -> barrier_wait fuel b' s c = Some (b'', s') -> bar_run b (n + 1) b''.

Lemma s32_add a k : s32 (s32 a + k) = s32 (a + k).
Proof.
  unfold s32. f_equal. replace ((a + 2 ^ 31) mod 2 ^ 32 - 2 ^ 31 + k + 2 ^ 31) with ((a + 2 ^ 31) mod 2 ^ 32 + k) by lia.
  rewrite Zplus_mod_idemp_l. f_equal. lia.
Qed.

Lemma s32_range a : - 2 ^ 31 <= s32 a < 2 ^ 31.
Proof. unfold s32. pose proof (Z.mod_pos_bound (a + 2 ^ 31) (2 ^ 32)). lia. Qed.

Lemma sem_step_count m k m' i : count m = s32 i -> sem_step m k m' -> count m' = s32 (i + k).
Proof.
  intros Hm Hst. destruct Hst as [m s c m' s' E|m s c|m].
  - unfold sem_wait in E. cbv zeta in E. rewrite <- (s32_add i), <- Hm.
    destruct (_ <? 0); [|by injection E as <- _].
    destruct (_ =? NULL); [done|]. destruct (scheduler_yield _ _); [|done]. by injection E as <- _.
  - unfold sem_signal. cbv zeta. rewrite <- (s32_add i), <- Hm. by destruct (_ && _).
  - unfold sem_trywait. pose proof (s32_range i) as Hr. rewrite <- (s32_add i), <- Hm. rewrite <- Hm in Hr.
    destruct (Z.ltb_spec 0 (count m)); cbn [fst snd]; rec_simpl; rewrite s32_id; lia.
Qed.

Lemma bar_step_count fuel b s c b' s' :
  0 < target b < 2 ^ 32 -> 0 <= arrived b < target b -> barrier_wait fuel b s c = Some (b', s') ->
  target b' = target b /\
  if arrived b + 1 =? target b then arrived b' = 0 /\ cycle b' = u32 (cycle b + 1) /\ bar_waiters b' = NULL
  else arrived b' = arrived b + 1 /\ cycle b' = cycle b /\ bar_waiters b' = scheduler_get_current s c.
Proof.
  intros Ht Ha. unfold barrier_wait. cbv zeta. rec_simpl. rewrite u32_id by lia.
  destruct (Z.leb_spec (target b) (arrived b + 1)), (Z.eqb_spec (arrived b + 1) (target b)); try lia.
  - destruct (release_list _ _ _ _); [|done]. by intros [= <- _].
  - destruct (_ =? NULL); [done|]. destruct (scheduler_yield _ _); [|done]. by intros [= <- _].
Qed.

(** Counting: whatever calls are made, in whatever states of the scheduler, the count of
    a semaphore is its initial value plus signals minus (successful) waits, on 32 bits,
    and [sem_trywait] succeeds exactly when it is positive; and the arrivals at a barrier
    complete one cycle each time their number is a multiple of the target. *)
Theorem semaphore_and_barrier_count :
  (forall i n m, - 2 ^ 31 <= i < 2 ^ 31 -> sem_run (sem_init i) n m ->
     count m = s32 (i + n) /\ ((sem_trywait m).2 = true <-> 0 < s32 (i + n))) /\
  (forall b0 t n b, 0 < t < 2 ^ 32 -> bar_run (barrier_init b0 t) n b ->
     target b = t /\ arrived b = n mod t /\ cycle b = u32 (n / t) /\
     forall fuel s c b' s', barrier_wait fuel b s c = Some (b', s') -> (cycle b' <> cycle b <-> (n + 1) mod t = 0)).
Proof.
  split.
  - intros i n m Hi Hr. assert (Hc : count m = s32 (i + n)).
    { remember (sem_init i) as m0 eqn:Hm0. induction Hr as [m|m n m' k m'' _ IH Hst]; subst.
      - rewrite Z.add_0_r, s32_id; done.
      - rewrite Z.add_assoc. eapply sem_step_count; [by apply IH|done]. }
    split; [done|]. unfold sem_trywait. rewrite Hc. destruct (Z.ltb_spec 0 (s32 (i + n))); split; try done; lia.
  - intros b0 t n b Ht Hr.
    assert (Hb : target b = t /\ arrived b = n mod t /\ cycle b = u32 (n / t) /\ 0 <= n).
    { remember (barrier_init b0 t) as b1 eqn:Hb1. induction Hr as [b|b n b' fuel s c b'' s' _ IH E]; subst.
      - unfold barrier_init. destruct (Z.eqb_spec t 0); [lia|]. cbn. rewrite Z.mod_0_l, Z.div_0_l by lia. by split_and!.
      - destruct (IH eq_refl) as (I1 & I2 & I3 & I4). pose proof (Z.mod_pos_bound n t ltac:(lia)) as Hm.
        apply bar_step_count in E as (E1 & E2); [|lia|lia]. rewrite I1, I2 in E2. split; [lia|].
        pose proof (Z.div_mod n t ltac:(lia)) as Hdm.
        destruct (Z.eqb_spec (n mod t + 1) t) as [Hq|Hq]; destruct E2 as (-> & -> & _).
        + assert (n + 1 = t * (n / t + 1)) as Hn by lia. rewrite Hn, Z.mul_comm, Z.mod_mul, Z.div_mul by lia.
          rewrite I3. unfold u32. rewrite Zplus_mod_idemp_l. split; [done|]. split; [done|]. nia.
        + assert (n + 1 = (n mod t + 1) + (n / t) * t) as Hn by lia. rewrite Hn, Z_mod_plus_full, Z_div_plus_full by lia.
          rewrite (Z.mod_small (n mod t + 1)), (Z.div_small (n mod t + 1)) by lia. split; [done|]. split; [done|]. lia. }
    destruct Hb as (H1 & H2 & H3 & H4). split; [done|]. split; [done|]. split; [done|].
    intros fuel s c b' s' E. pose proof (Z.mod_pos_bound n t ltac:(lia)) as Hm.
    apply bar_step_count in E as (E1 & E2); [|lia|lia]. rewrite H1, H2 in E2.
    pose proof (Z.div_mod n t ltac:(lia)) as Hdm.
    destruct (Z.eqb_spec (n mod t + 1) t) as [Hq|Hq]; destruct E2 as (_ & -> & _).
    + assert (n + 1 = (n / t + 1) * t) as -> by lia. rewrite Z.mod_mul by lia. split; [done|]. intros _.
      rewrite H3. unfold u32. pose proof (Z.mod_pos_bound (n / t) (2 ^ 32) ltac:(lia)).
      intros Hx. set (y := (n / t) mod 2 ^ 32) in *. destruct (decide (y = 2 ^ 32 - 1)) as [E|].
      * rewrite E in Hx. by vm_compute in Hx.
      * rewrite Z.mod_small in Hx by lia. lia.
    + split; [done|]. intros Hx. exfalso.
      assert (n + 1 = (n mod t + 1) + (n / t) * t) as Hn by lia. rewrite Hn, Z_mod_plus_full, (Z.mod_small (n mod t + 1)) in Hx by lia. lia.
Qed.

(** * What blocking does *)

(** Changing fields of the running process that no queue depends on *)
Lemma current_mod_wf s Q W c f :
  sched_wf s Q W -> 0 <= c < num_cpus s -> current (rqs s).[c] <> NULL ->
  (forall b, cpu (f b) = cpu b /\ priority (f b) = priority b) ->
  sched_wf (mod_proc s (current (rqs s).[c]) f) Q W.
Proof.
  intros (Hq & Hw & Hcw) Hc Hn Hf. destruct (cw_current _ _ _ Hcw c Hc Hn) as (_ & _ & HnQ & HnW).
  split; [|split].
  - apply qwf_mod_other; [done|]. intros (c' & q & Hx). by apply (HnQ c' q).
  - by apply wwf_mod_other.
  - apply (cwf_proj s _ Q _ W _ Hcw); [done| |done|intros c' q p ?; by exists c', q|eauto].
    intros x. rewrite procs_mod. destruct (Z.eqb_spec x (current (rqs s).[c])) as [->|]; [apply Hf|done].
Qed.

Lemma yield_wq_next s Q W c s' x :
  sched_wf s Q W -> 0 <= c < num_cpus s -> scheduler_yield s c = Some s' ->
  wq_next (procs s' x) = wq_next (procs s x).
Proof.
  intros Hwf Hc E. destruct (yield_procs s Q W c s' Hwf Hc E) as (H & _). by apply H.
Qed.

(** Pushing the running process on a waiter list and yielding does not block it:
    it is ready, and goes on or is queued like after any yield. *)
Lemma push_and_yield s Q W c head :
  let cur := current (rqs s).[c] in
  sched_wf s Q W -> 0 <= c < num_cpus s -> cur <> NULL ->
  exists s' Q' next, scheduler_yield (push_waiter s cur head) c = Some s' /\ sched_wf s' Q' W /\
    current (rqs s').[c] = next /\ state (procs s' cur) = PROC_READY /\ wq_next (procs s' cur) = head /\
    (next = cur \/ lists Q' cur).
Proof.
  intros cur Hwf Hc Hcur. set (s1 := push_waiter s cur head).
  assert (Hwf1 : sched_wf s1 Q W) by (by apply current_mod_wf).
  destruct (yield_spec s1 Q W c Hwf1 Hc) as (s' & Q' & E & Hwf' & _ & Hn).
  change (current (rqs s1).[c]) with cur in Hn. destruct (Hn Hcur) as (next & Hrot & Hsw).
  exists s', Q', next. split; [done|]. split; [done|]. destruct Hsw as (Hcu & _ & Hsw). split; [done|].
  split; [destruct (next =? cur); [by destruct Hsw|by destruct Hsw as (_ & ? & _)]|]. split.
  { rewrite (yield_wq_next s1 Q W c s') by done. unfold s1, push_waiter. rewrite procs_mod. by rewrite Z.eqb_refl. }
  destruct (decide (next = cur)) as [|Hne]; [by left|right].
  destruct Hrot as (q & l & (_ & HQ & _) & ->). pose proof (in_appended s1 Q cur) as Hin.
  set (cc := cpu (procs s1 cur)) in *. set (pp := priority (procs s1 cur)) in *.
  exists cc, pp. apply elem_of_Qset. destruct (decide (cc = c /\ pp = q)) as [[E1 E2]|]; [left|by right].
  rewrite E1, E2, HQ in Hin. apply elem_of_cons in Hin as [->|Hin]; [done|]. by split_and!.
Qed.

Lemma get_current s c : c < num_cpus s -> scheduler_get_current s c = current (rqs s).[c].
Proof. intros. unfold scheduler_get_current. destruct (Z.leb_spec (num_cpus s) c); [lia|done]. Qed.

(** A free mutex is taken at once and given back by its owner; nobody else can unlock it
    or take it with [mutex_trylock]; unlocking hands it to the waiter that came last.
    But a contended [mutex_lock] does not wait: it returns, after one yield at most,
    with the mutex still owned by the other process and the caller ready, running or
    queued, while it is also on the waiter list. *)
Theorem mutex_behaviour s Q W c m :
  sched_wf s Q W -> 0 <= c < num_cpus s -> current (rqs s).[c] <> NULL ->
  let cur := current (rqs s).[c] in
  (m_locked m = 0 ->
     mutex_lock m s c = Some (mkMutex cur 1 (m_waiters m), s) /\ mutex_trylock m s c = (mkMutex cur 1 (m_waiters m), true) /\
     (m_waiters m = NULL -> mutex_unlock (mkMutex cur 1 NULL) s c = Some (mkMutex NULL 0 NULL, s))) /\
  (m_locked m <> 0 -> mutex_trylock m s c = (m, false)) /\
  (m_owner m <> cur -> mutex_unlock m s c = Some (m, s)) /\
  (forall w, m_owner m = cur -> m_waiters m = w -> w <> NULL -> detached s Q W w ->
     exists m' s' Q', mutex_unlock m s c = Some (m', s') /\ m_owner m' = w /\ m_locked m' = m_locked m /\
       m_waiters m' = wq_next (procs s w) /\ sched_wf s' Q' W /\ lists Q' w) /\
  (m_locked m <> 0 -> m_owner m <> cur ->
     exists m' s' Q' next, mutex_lock m s c = Some (m', s') /\ m_owner m' = m_owner m /\ m_locked m' = m_locked m /\
       m_waiters m' = cur /\ wq_next (procs s' cur) = m_waiters m /\ sched_wf s' Q' W /\
       current (rqs s').[c] = next /\ state (procs s' cur) = PROC_READY /\ (next = cur \/ lists Q' cur)).
Proof.
  intros Hwf Hc Hcur cur. pose proof (get_current s c ltac:(lia)) as Hg. fold cur in Hg.
  split; [|split; [|split; [|split]]].
  - intros E. unfold mutex_lock, mutex_trylock. rewrite E, Hg. cbv zeta. rewrite Z.eqb_refl.
    split; [by destruct m|]. split; [by destruct m|]. intros Ew. unfold mutex_unlock. rewrite Hg. cbn. by rewrite Z.eqb_refl.
  - intros E. unfold mutex_trylock. by destruct (Z.eqb_spec (m_locked m) 0).
  - intros E. unfold mutex_unlock. rewrite Hg. cbv zeta. destruct (Z.eqb_spec (m_owner m) cur); [done|].
    cbn [negb]. by destruct (Z.eqb_spec cur NULL).
  - intros w E Ew Hw Hd. unfold mutex_unlock. rewrite Hg, E, Ew, Z.eqb_refl. cbn [negb].
    destruct (Z.eqb_spec w NULL); [done|]. cbn [negb]. set (f := fun p : pcb => p <| wq_next := NULL |> <| state := PROC_READY |>).
    destruct (detached_wf_mod s Q W w f Hwf Hd) as [Hwf1 Hd1]; [by intros []|].
    destruct (add_spec (mod_proc s w f) Q W c w Hwf1 Hc Hd1) as (H1 & _).
    eexists _, _, _. split; [done|]. split; [done|]. split; [done|]. split; [done|]. split; [exact H1|].
    eexists _, _. apply elem_of_Qset. left. split; [done|]. split; [done|]. apply elem_of_app. right. by left.
  - intros E Eo. unfold mutex_lock. rewrite Hg. cbv zeta. destruct (Z.eqb_spec (m_locked m) 0); [done|].
    destruct (Z.eqb_spec cur NULL); [done|]. destruct (Z.eqb_spec (m_owner m) cur); [done|].
    destruct (push_and_yield s Q W c (m_waiters m) Hwf Hc Hcur) as (s' & Q' & next & Ey & H1 & H2 & H3 & H4 & H5).
    fold cur in Ey, H3, H4, H5. rewrite Ey. exists (m <| m_waiters := cur |>), s', Q', next. by split_and!.
Qed.

(** A run of three processes on one CPU: 100 takes the mutex, 200 contends, the turns
    pass to 300 and back to 100, which unlocks. *)
Definition contended_run : option (mutex * sched) :=
  match mutex_lock mutex_init demo_run 0 with
  | Some (m, s) => match scheduler_yield s 0 with
    | Some s => match mutex_lock m s 0 with
      | Some (m, s) => match scheduler_yield s 0 with
        | Some s => mutex_unlock m s 0
        | None => None end
      | None => None end
    | None => None end
  | None => None
  end.

(** The consequence: the unlock queues the waiter a second time although it is in the run
    queue, which drops the processes behind it: process 300 is ready but neither
    queued nor running, and its load is no longer counted. *)
Theorem mutex_contention_loses_process :
  exists m s, contended_run = Some (m, s) /\ m_owner m = 200 /\ current (rqs s).[0] = 100 /\
    state (procs s 300) = PROC_READY /\ chain (snext s) (queues (rqs s).[0]).[2] [200] /\
    (tails (rqs s).[0]).[2] = 200 /\ scheduler_get_load 10 s = Some 1.
Proof.
  assert (Hx : match contended_run with
    | Some (m, s) => m_owner m = 200 /\ current (rqs s).[0] = 100 /\ state (procs s 300) = PROC_READY /\
        chain (snext s) (queues (rqs s).[0]).[2] [200] /\ (tails (rqs s).[0]).[2] = 200 /\
        scheduler_get_load 10 s = Some 1
    | None => False end) by (vm_compute; repeat split; discriminate).
  destruct contended_run as [[m s]|]; [|destruct Hx]. exists m, s. split; [reflexivity|exact Hx].
Qed.

(** * Concrete runs *)

Definition demo_trace : list (spin_call * Z) :=
  [(CLock, 1); (CLock, 1); (CLock, 0); (CLock, 1); (CLock, 1); (CUnlock, 1); (CUnlock, 1); (CUnlock, 1)].
Definition spin_demo : spin := default (spin_start SPINLOCK_INIT (fun _ => 5))
  (spin_trace (spin_start SPINLOCK_INIT (fun _ => 5)) demo_trace).


Lemma rwlock_exclusion_witness :
  let s := mkRwSys (mkRw 2 0) [2; 1] [] in
  rtc rw_step (mkRwSys rwlock_init [] []) s /\ rwlock_write_lock (rw_lock s) = None.
Proof.
  intros s. assert (Hr : rtc rw_step (mkRwSys rwlock_init [] []) s).
  { apply rtc_l with (mkRwSys (mkRw 1 0) [1] []); [|apply rtc_l with s; [|apply rtc_refl]].
    - apply rws_read; [vm_compute; reflexivity|reflexivity].
    - apply rws_read; [vm_compute; reflexivity|reflexivity]. }
  split; [exact Hr|]. destruct (rwlock_exclusion s Hr) as (_ & _ & _ & _ & H). apply H. right. discriminate.
Defined.

Lemma semaphore_and_barrier_count_witness :
  sem_run (sem_init 1) 1 (sem_signal (sem_init 1) demo_run 0).1 /\ count (sem_signal (sem_init 1) demo_run 0).1 = 2.
Proof.
  assert (Hr : sem_run (sem_init 1) 1 (sem_signal (sem_init 1) demo_run 0).1).
  { apply (smr_step _ 0 (sem_init 1)); [apply smr_nil|apply sms_signal]. }
  split; [exact Hr|]. destruct semaphore_and_barrier_count as (H & _).
  destruct (H 1 1 _ ltac:(lia) Hr) as (-> & _). reflexivity.
Defined.

Lemma mutex_behaviour_witness :
  exists m' s' Q' W, mutex_lock (mkMutex 300 1 NULL) demo_run 0 = Some (m', s') /\ m_owner m' = 300 /\
    m_waiters m' = 100 /\ sched_wf s' Q' W /\ state (procs s' 100) = PROC_READY.
Proof.
  destruct (reachable_inv _ demo_reachable) as (Hs & Q & W & Hwf).
  destruct (mutex_behaviour demo_run Q W 0 (mkMutex 300 1 NULL) Hwf ltac:(by vm_compute) ltac:(by vm_compute))
    as (_ & _ & _ & _ & H).
  destruct H as (m' & s' & Q' & next & E & H1 & _ & H3 & _ & H5 & _ & H7 & _); [discriminate|by vm_compute|].
  exists m', s', Q', W. split; [exact E|]. split; [exact H1|]. split; [exact H3|]. split; [exact H5|exact H7].
Defined.
