(* ===== verification/Timer.v ===== *)
(** System timer and software timers ([src/timer.c]).

    A reading of the counter register is an argument of the function that takes
    it (for the busy-wait loops, the sequence of readings); writes to the timer and
    interrupt-controller registers are appended to [hw].  Timer callbacks are function
    pointers: [call] is what a callback does to the timers, [log_call] the one that
    leaves them alone and records the call. *)
From S2P Require Import Prelude.

Definition MAX_SOFT_TIMERS : Z := 16.
Definition TIMER_ID_SCHED : Z := 0.
Definition CTL_ENABLE : Z := 1.
Definition IRQ_TIMER_VIRT : Z := 27.

(** [soft_timer_t] *)
Record soft_timer := mkSoft { active : bool; expiry : Z; interval : Z; callback : Z; arg : Z }.
#[export] Instance eta_soft_timer : Eta soft_timer := fun s =>
  mkSoft (active s) (expiry s) (interval s) (callback s) (arg s).
#[export] Instance soft_timer_inhabited : Inhabited soft_timer := populate (mkSoft false 0 0 0 0).

Inductive hw_event :=
| SetTval (v : Z) | SetCtl (v : Z) | RegisterIrq (irq : Z) | EnableIrq (irq : Z).

Record timers := mkTimers {
  timer_frequency : Z;
  timer_ticks : Z;
  boot_time_us : Z;
  soft_timers : list soft_timer;
  sched_callback : Z;
  hw : list hw_event;
  calls : list (Z * Z)
}.
#[export] Instance eta_timers : Eta timers := fun t =>
  mkTimers (timer_frequency t) (timer_ticks t) (boot_time_us t) (soft_timers t) (sched_callback t) (hw t) (calls t).

Definition hw_do (t : timers) (e : hw_event) : timers := t <| hw := hw t ++ [e] |>.
Definition mod_soft (t : timers) (i : Z) (f : soft_timer -> soft_timer) : timers :=
  t <| soft_timers := (soft_timers t).[i <- f (soft_timers t).[i]] |>.

Definition timer_init (t : timers) (freq count : Z) : timers :=
  let t := t <| timer_frequency := u32 freq |> in
  let t := t <| boot_time_us := u64 (count * 1000000) / timer_frequency t |> in
  t <| soft_timers := (fun s => s <| active := false |>) <$> soft_timers t |>.

Definition timer_init_sched (t : timers) : timers :=
  let t := hw_do t (RegisterIrq IRQ_TIMER_VIRT) in
  let t := hw_do t (SetCtl CTL_ENABLE) in
  let t := hw_do t (SetTval (timer_frequency t / 100)) in
  hw_do t (EnableIrq IRQ_TIMER_VIRT).

Definition timer_get_uptime_ms (t : timers) (count : Z) : Z := u64 (count * 1000) / timer_frequency t.
Definition timer_get_uptime_us (t : timers) (count : Z) : Z := u64 (count * 1000000) / timer_frequency t.
Definition timer_get_uptime_seconds (t : timers) (count : Z) : Z := timer_get_uptime_ms t count / 1000.
Definition timer_get_frequency (t : timers) : Z := timer_frequency t.
Definition timer_get_freq_mhz (t : timers) : Z := timer_frequency t / 1000000.

(** [while ((timer_get_ticks() - start) < wait);] the number of further readings *)
Fixpoint delay_loop (fuel : nat) (rd : nat -> Z) (i : nat) (start wait : Z) : option nat :=
  match fuel with
  | O => None
  | S f => if u64 (rd i - start) <? wait then delay_loop f rd (S i) start wait else Some i
  end.
Definition timer_delay_ms (fuel : nat) (t : timers) (rd : nat -> Z) (ms : Z) : option nat :=
  delay_loop fuel rd 1 (rd 0%nat) (u64 (ms * timer_frequency t) / 1000).
Definition timer_delay_us (fuel : nat) (t : timers) (rd : nat -> Z) (us : Z) : option nat :=
  delay_loop fuel rd 1 (rd 0%nat) (u64 (us * timer_frequency t) / 1000000).

Definition timer_set_callback (t : timers) (id cb : Z) : timers :=
  if id =? TIMER_ID_SCHED then t <| sched_callback := cb |> else t.
Definition timer_start_periodic (t : timers) (id hz : Z) : timers :=
  if id =? TIMER_ID_SCHED then hw_do t (SetTval (timer_frequency t / hz)) else t.
Definition timer_stop (t : timers) (id : Z) : timers :=
  if id =? TIMER_ID_SCHED then hw_do t (SetCtl 0) else t.

(** ** Software timers *)

Definition timer_create (t : timers) (cb a : Z) : timers * Z :=
  match find_from (fun i => negb (active (soft_timers t).[i])) (Z.to_nat MAX_SOFT_TIMERS) 0 with
  | Some i => (mod_soft t i (fun s => s <| active := true |> <| callback := cb |> <| arg := a |> <| interval := 0 |>), i)
  | None => (t, -1)
  end.

Definition bad_handle (h : Z) : bool := (h <? 0) || (MAX_SOFT_TIMERS <=? h).

Definition timer_set_oneshot (t : timers) (count h ms : Z) : timers :=
  if bad_handle h then t else
  if active (soft_timers t).[h]
  then mod_soft t h (fun s => s <| expiry := u64 (timer_get_uptime_ms t count + ms) |> <| interval := 0 |>)
  else t.

Definition timer_set_periodic (t : timers) (count h ms : Z) : timers :=
  if bad_handle h then t else
  if active (soft_timers t).[h]
  then mod_soft t h (fun s => s <| expiry := u64 (timer_get_uptime_ms t count + ms) |> <| interval := ms |>)
  else t.

Definition timer_cancel (t : timers) (h : Z) : timers :=
  if bad_handle h then t else mod_soft t h (fun s => s <| interval := 0 |> <| expiry := 0 |>).

Definition timer_destroy (t : timers) (h : Z) : timers :=
  if bad_handle h then t else mod_soft t h (fun s => s <| active := false |>).

Section interrupt.
Context (call : Z -> Z -> timers -> timers).

(** The loop body for slot [i] *)
Definition update_one (now : Z) (t : timers) (i : Z) : timers :=
  let s := (soft_timers t).[i] in
  if negb (active s) then t else
  if expiry s =? 0 then t else
  if expiry s <=? now then
    let t := if 0 <? interval s then mod_soft t i (fun s => s <| expiry := u64 (now + interval s) |>)
             else mod_soft t i (fun s => s <| expiry := 0 |>) in
    if negb (callback s =? NULL) then call (callback s) (arg s) t else t
  else t.

Definition timer_update_soft_timers (t : timers) (count : Z) : timers :=
  fold_left (update_one (timer_get_uptime_ms t count)) (seqZ 0 MAX_SOFT_TIMERS) t.

Definition timer_irq_handler (t : timers) (count : Z) : timers :=
  let t := t <| timer_ticks := u64 (timer_ticks t + 1) |> in
  let t := hw_do t (SetTval (timer_frequency t / 100)) in
  let t := if negb (sched_callback t =? NULL) then call (sched_callback t) NULL t else t in
  timer_update_soft_timers t count.
End interrupt.

(** ** Conversions *)

Definition timer_cycles_to_ns (t : timers) (cycles : Z) : Z := u64 (cycles * 1000000000) / timer_frequency t.
Definition timer_cycles_to_us (t : timers) (cycles : Z) : Z := u64 (cycles * 1000000) / timer_frequency t.
Definition timer_cycles_to_ms (t : timers) (cycles : Z) : Z := u64 (cycles * 1000) / timer_frequency t.
Definition timer_perf_end (t : timers) (start fin : Z) : Z := timer_cycles_to_ns t (u64 (fin - start)).

(** A callback that leaves the timers alone *)
Definition log_call (cb a : Z) (t : timers) : timers := t <| calls := calls t ++ [(cb, a)] |>.

(** * One interrupt *)

Definition due (now : Z) (s : soft_timer) : bool := active s && negb (expiry s =? 0) && (expiry s <=? now).
Definition soft_after (now : Z) (s : soft_timer) : soft_timer :=
  if due now s then s <| expiry := if 0 <? interval s then u64 (now + interval s) else 0 |> else s.
Definition fires (now : Z) (s : soft_timer) : list (Z * Z) :=
  if due now s && negb (callback s =? NULL) then [(callback s, arg s)] else [].

Lemma soft_mod t i f j : 0 <= i < zlen (soft_timers t) -> 0 <= j ->
  (soft_timers (mod_soft t i f)).[j] = if i =? j then f (soft_timers t).[i] else (soft_timers t).[j].
Proof. intros. unfold mod_soft. rec_simpl. by apply aget_aset. Qed.

Lemma zlen_mod_soft t i f : zlen (soft_timers (mod_soft t i f)) = zlen (soft_timers t).
Proof. unfold mod_soft. rec_simpl. apply zlen_aset. Qed.

Lemma update_one_spec now t i :
  0 <= i < zlen (soft_timers t) ->
  let t' := update_one log_call now t i in
  zlen (soft_timers t') = zlen (soft_timers t) /\ timer_frequency t' = timer_frequency t /\
  calls t' = calls t ++ fires now (soft_timers t).[i] /\
  forall j, 0 <= j -> (soft_timers t').[j] = if i =? j then soft_after now (soft_timers t).[i] else (soft_timers t).[j].
Proof.
  intros Hi. cbv zeta. unfold update_one, soft_after, fires, due. cbv zeta. set (s := (soft_timers t).[i]).
  assert (Hsame : forall j, 0 <= j -> (soft_timers t).[j] = if i =? j then s else (soft_timers t).[j]).
  { intros j _. by destruct (Z.eqb_spec i j) as [<-|]. }
  destruct (active s); cbn [negb andb]; [|rewrite app_nil_r; by split_and!].
  destruct (expiry s =? 0); cbn [negb andb]; [rewrite app_nil_r; by split_and!|].
  destruct (expiry s <=? now); cbn [andb]; [|rewrite app_nil_r; by split_and!].
  set (t1 := if 0 <? interval s then _ else _).
  assert (H1 : zlen (soft_timers t1) = zlen (soft_timers t) /\ timer_frequency t1 = timer_frequency t /\ calls t1 = calls t /\
    forall j, 0 <= j -> (soft_timers t1).[j] = if i =? j then s <| expiry := if 0 <? interval s then u64 (now + interval s) else 0 |>
      else (soft_timers t).[j]).
  { unfold t1. destruct (0 <? interval s); (split; [apply zlen_mod_soft|]); (split; [done|]); (split; [done|]);
      intros j Hj; by rewrite soft_mod. }
  destruct H1 as (H1 & H2 & H3 & H4). destruct (negb (callback s =? NULL)).
  - change (soft_timers (log_call ?a ?b t1)) with (soft_timers t1). split; [done|]. split; [done|]. split; [|done].
    change (calls (log_call (callback s) (arg s) t1)) with (calls t1 ++ [(callback s, arg s)]). by rewrite H3.
  - rewrite app_nil_r. by split_and!.
Qed.

Lemma update_loop_spec now n k t :
  0 <= k -> k + Z.of_nat n <= zlen (soft_timers t) ->
  let t' := fold_left (update_one log_call now) (seqZ k (Z.of_nat n)) t in
  zlen (soft_timers t') = zlen (soft_timers t) /\ timer_frequency t' = timer_frequency t /\
  calls t' = calls t ++ (seqZ k (Z.of_nat n) ≫= fun i => fires now (soft_timers t).[i]) /\
  forall j, 0 <= j -> (soft_timers t').[j] =
    if (k <=? j) && (j <? k + Z.of_nat n) then soft_after now (soft_timers t).[j] else (soft_timers t).[j].
Proof.
  revert k t. induction n as [|n IH]; intros k t Hk Hn; cbv zeta.
  - split; [done|]. split; [done|]. split; [cbn; by rewrite app_nil_r|]. intros j _.
    destruct (Z.leb_spec k j), (Z.ltb_spec j (k + Z.of_nat 0)); try lia; done.
  - rewrite seqZ_cons by lia. replace (Z.pred (Z.of_nat (S n))) with (Z.of_nat n) by lia.
    replace (Z.succ k) with (k + 1) by lia. cbn [fold_left].
    destruct (update_one_spec now t k ltac:(lia)) as (H1 & H2 & H3 & H4). set (t1 := update_one log_call now t k) in *.
    destruct (IH (k + 1) t1 ltac:(lia) ltac:(lia)) as (I1 & I2 & I3 & I4). cbv zeta in *.
    split; [lia|]. split; [congruence|]. split.
    + rewrite I3, H3, <- app_assoc. f_equal. cbn [mbind list_bind]. f_equal.
      assert (Hx : forall l, (forall i, i ∈ l -> k < i) ->
        (l ≫= fun i => fires now (soft_timers t1).[i]) = (l ≫= fun i => fires now (soft_timers t).[i])).
      { induction l as [|x l IHl]; intros Hl; [done|]. cbn [mbind list_bind]. rewrite IHl by set_solver.
        f_equal. rewrite H4 by (specialize (Hl x ltac:(by left)); lia). destruct (Z.eqb_spec k x); [|done].
        specialize (Hl x ltac:(by left)). lia. }
      apply Hx. intros i Hi%elem_of_seqZ. lia.
    + intros j Hj. rewrite I4 by done. rewrite (H4 j) by done.
      destruct (Z.leb_spec (k + 1) j), (Z.ltb_spec j (k + 1 + Z.of_nat n)), (Z.leb_spec k j),
        (Z.ltb_spec j (k + Z.of_nat (S n))), (Z.eqb_spec k j) as [Hkj|]; cbn [andb]; try lia; try done; by rewrite Hkj.
Qed.

(** * Many interrupts *)

Definition update (t : timers) (count : Z) : timers := timer_update_soft_timers log_call t count.

Fixpoint updates (t : timers) (counts : list Z) : timers :=
  match counts with [] => t | c :: cs => updates (update t c) cs end.

(** What slot [h] calls at interrupts with the given counter readings *)
Fixpoint fired_by (h : Z) (t : timers) (counts : list Z) : list (Z * Z) :=
  match counts with
  | [] => []
  | c :: cs => fires (timer_get_uptime_ms t c) (soft_timers t).[h] ++ fired_by h (update t c) cs
  end.

Definition sixteen (t : timers) : Prop := zlen (soft_timers t) = MAX_SOFT_TIMERS.

Lemma update_spec t count :
  sixteen t ->
  let now := timer_get_uptime_ms t count in
  sixteen (update t count) /\ timer_frequency (update t count) = timer_frequency t /\
  calls (update t count) = calls t ++ (seqZ 0 MAX_SOFT_TIMERS ≫= fun i => fires now (soft_timers t).[i]) /\
  forall j, 0 <= j < MAX_SOFT_TIMERS -> (soft_timers (update t count)).[j] = soft_after now (soft_timers t).[j].
Proof.
  intros Hn now. unfold sixteen in *. unfold update, timer_update_soft_timers. fold now.
  destruct (update_loop_spec now 16 0 t) as (H1 & H2 & H3 & H4); [lia|by rewrite Hn|].
  change (Z.of_nat 16) with MAX_SOFT_TIMERS in *. cbv zeta in *.
  split; [congruence|]. split; [done|]. split; [done|].
  intros j Hj. rewrite H4 by lia. destruct (Z.leb_spec 0 j), (Z.ltb_spec j (0 + MAX_SOFT_TIMERS)); try lia; done.
Qed.

Lemma uptime_update t c c' : sixteen t -> timer_get_uptime_ms (update t c') c = timer_get_uptime_ms t c.
Proof. intros Hn. unfold timer_get_uptime_ms. by destruct (update_spec t c' Hn) as (_ & -> & _). Qed.

Lemma bind_app_perm {A B} (f g : A -> list B) (l : list A) :
  (l ≫= fun x => f x ++ g x) ≡ₚ (l ≫= f) ++ (l ≫= g).
Proof.
  induction l as [|x l IH]; [done|]. cbn [mbind list_bind]. rewrite IH. rewrite <- !app_assoc.
  apply Permutation_app_head. rewrite !app_assoc. apply Permutation_app_tail, Permutation_app_comm.
Qed.

Lemma fired_by_cons l t c cs :
  (l ≫= fun h => fired_by h t (c :: cs)) ≡ₚ
  (l ≫= fun h => fires (timer_get_uptime_ms t c) (soft_timers t).[h]) ++ (l ≫= fun h => fired_by h (update t c) cs).
Proof. cbn [fired_by]. apply bind_app_perm. Qed.

Lemma fired_by_nil l t : (l ≫= fun h => fired_by h t []) = [].
Proof. by induction l. Qed.

(** The calls made are those of the slots. *)
Lemma calls_by_slot counts t :
  sixteen t ->
  calls (updates t counts) ≡ₚ calls t ++ (seqZ 0 MAX_SOFT_TIMERS ≫= fun h => fired_by h t counts).
Proof.
  assert (Hstep : forall t c, sixteen t -> sixteen (update t c) /\ calls (update t c) =
    calls t ++ (seqZ 0 MAX_SOFT_TIMERS ≫= fun i => fires (timer_get_uptime_ms t c) (soft_timers t).[i])).
  { intros t0 c Hn. by destruct (update_spec t0 c Hn) as (H1 & _ & H3 & _). }
  revert t. generalize dependent (seqZ 0 MAX_SOFT_TIMERS). intros l Hstep.
  induction counts as [|c cs IH]; intros t Hn; cbn [updates].
  - by rewrite fired_by_nil, app_nil_r.
  - destruct (Hstep t c Hn) as (H1 & H3). rewrite (IH _ H1), H3, fired_by_cons, app_assoc. reflexivity.
Qed.

Section slot.
Context (h : Z) (Hh : 0 <= h < MAX_SOFT_TIMERS).

Lemma fired_inactive counts t :
  sixteen t -> active (soft_timers t).[h] = false \/ expiry (soft_timers t).[h] = 0 -> fired_by h t counts = [].
Proof.
  revert t. induction counts as [|c cs IH]; intros t Hn Hs; [done|]. cbn [fired_by].
  destruct (update_spec t c Hn) as (H1 & _ & _ & H4).
  assert (Hd : due (timer_get_uptime_ms t c) (soft_timers t).[h] = false).
  { unfold due. destruct Hs as [-> | ->]; [done|]. by rewrite andb_false_r. }
  unfold fires. rewrite Hd. cbn [andb app]. apply IH; [done|]. rewrite H4 by done. unfold soft_after. by rewrite Hd.
Qed.

Lemma existsb_uptime e t c0 cs :
  sixteen t -> existsb (fun c => e <=? timer_get_uptime_ms (update t c0) c) cs = existsb (fun c => e <=? timer_get_uptime_ms t c) cs.
Proof. intros Hn. induction cs as [|c cs IH]; [done|]. cbn [existsb]. by rewrite IH, uptime_update. Qed.

(** One firing, at the first interrupt not before the deadline. *)
Lemma fired_oneshot counts t :
  sixteen t -> let s := (soft_timers t).[h] in
  active s = true -> interval s = 0 -> callback s <> NULL ->
  fired_by h t counts =
    if negb (expiry s =? 0) && existsb (fun c => expiry s <=? timer_get_uptime_ms t c) counts
    then [(callback s, arg s)] else [].
Proof.
  revert t. induction counts as [|c cs IH]; intros t Hn s Ha Hi Hc; [by rewrite andb_false_r|].
  destruct (Z.eqb_spec (expiry s) 0) as [He|He]; [by rewrite fired_inactive by auto|].
  cbn [fired_by existsb negb andb].
  destruct (update_spec t c Hn) as (H1 & _ & _ & H4). specialize (H4 h Hh). fold s in H4.
  unfold fires. unfold soft_after in H4. fold s.
  assert (Hd : due (timer_get_uptime_ms t c) s = (expiry s <=? timer_get_uptime_ms t c)).
  { unfold due. rewrite Ha. by destruct (Z.eqb_spec (expiry s) 0). }
  rewrite Hd in *. destruct (expiry s <=? timer_get_uptime_ms t c); cbn [orb andb].
  - destruct (Z.eqb_spec (callback s) NULL); [done|]. cbn [negb]. rewrite fired_inactive; [done|done|].
    right. rewrite H4, Hi. done.
  - cbn [app]. rewrite IH by (rewrite ?H4; done). rewrite H4, existsb_uptime by done.
    by destruct (Z.eqb_spec (expiry s) 0).
Qed.

(** The times a periodic timer fires: the first interrupt not before the deadline,
    and from there on again after at least [ms]. *)
Fixpoint periodic_times (ms deadline : Z) (nows : list Z) : list Z :=
  match nows with
  | [] => []
  | now :: r => if deadline <=? now then now :: periodic_times ms (now + ms) r else periodic_times ms deadline r
  end.

Lemma fired_periodic counts t :
  sixteen t -> let s := (soft_timers t).[h] in
  active s = true -> 0 < interval s -> callback s <> NULL -> expiry s <> 0 ->
  (forall c, c ∈ counts -> 0 <= timer_get_uptime_ms t c /\ timer_get_uptime_ms t c + interval s < 2 ^ 64) ->
  fired_by h t counts =
    replicate (length (periodic_times (interval s) (expiry s) (timer_get_uptime_ms t <$> counts))) (callback s, arg s).
Proof.
  revert t. induction counts as [|c cs IH]; intros t Hn s Ha Hi Hc He Hb; [done|]. cbn [fired_by fmap list_fmap periodic_times].
  destruct (update_spec t c Hn) as (H1 & _ & _ & H4). specialize (H4 h Hh). fold s in H4.
  unfold fires. unfold soft_after in H4. fold s. destruct (Hb c ltac:(by left)) as [Hb1 Hb2].
  assert (Hd : due (timer_get_uptime_ms t c) s = (expiry s <=? timer_get_uptime_ms t c)).
  { unfold due. rewrite Ha. by destruct (Z.eqb_spec (expiry s) 0). }
  assert (Hup : (timer_get_uptime_ms (update t c) <$> cs) = (timer_get_uptime_ms t <$> cs)).
  { apply list_fmap_ext. intros _ x _. by apply uptime_update. }
  assert (Hb' : forall x, x ∈ cs -> 0 <= timer_get_uptime_ms (update t c) x /\ timer_get_uptime_ms (update t c) x + interval s < 2 ^ 64).
  { intros x Hx. rewrite uptime_update by done. apply Hb. by right. }
  rewrite Hd in *. destruct (Z.leb_spec (expiry s) (timer_get_uptime_ms t c)); cbn [andb].
  - destruct (Z.eqb_spec (callback s) NULL); [done|]. cbn [negb app length replicate]. f_equal.
    destruct (Z.ltb_spec 0 (interval s)); [|lia]. rewrite u64_id in H4 by lia.
    rewrite IH; rewrite ?H4; rec_simpl; try done; [by rewrite Hup|lia].
  - cbn [app]. rewrite IH; rewrite ?H4; try done. by rewrite Hup.
Qed.
End slot.

Lemma bad_handle_false h : 0 <= h < MAX_SOFT_TIMERS -> bad_handle h = false.
Proof. intros. unfold bad_handle. destruct (Z.ltb_spec h 0), (Z.leb_spec MAX_SOFT_TIMERS h); try lia; done. Qed.

Lemma sixteen_mod t i f : sixteen t -> sixteen (mod_soft t i f).
Proof. unfold sixteen. by rewrite zlen_mod_soft. Qed.

Lemma mod_soft_same t h f : sixteen t -> 0 <= h < MAX_SOFT_TIMERS -> (soft_timers (mod_soft t h f)).[h] = f (soft_timers t).[h].
Proof. intros Hn Hh. unfold sixteen in Hn. rewrite soft_mod by lia. by rewrite Z.eqb_refl. Qed.

Lemma create_spec t cb a :
  sixteen t ->
  (timer_create t cb a = (t, -1) /\ forall i, 0 <= i < MAX_SOFT_TIMERS -> active (soft_timers t).[i] = true) \/
  (exists i t', timer_create t cb a = (t', i) /\ 0 <= i < MAX_SOFT_TIMERS /\ active (soft_timers t).[i] = false /\
     (forall k, 0 <= k < i -> active (soft_timers t).[k] = true) /\ sixteen t' /\
     (soft_timers t').[i] = mkSoft true (expiry (soft_timers t).[i]) 0 cb a /\
     (forall j, 0 <= j -> j <> i -> (soft_timers t').[j] = (soft_timers t).[j]) /\
     timer_frequency t' = timer_frequency t /\ calls t' = calls t).
Proof.
  intros Hn. unfold timer_create. destruct (find_from _ _ _) as [i|] eqn:E.
  - right. apply find_from_Some in E as (Hi & Hp & Hlt). change (0 + Z.of_nat (Z.to_nat MAX_SOFT_TIMERS)) with MAX_SOFT_TIMERS in Hi.
    eexists i, _. split; [done|]. split; [done|]. split; [by apply negb_true_iff|].
    split; [intros k Hk; specialize (Hlt k Hk); by apply negb_false_iff|]. split; [by apply sixteen_mod|].
    split; [by rewrite mod_soft_same|]. split; [|done]. intros j Hj Hne. unfold sixteen in Hn. rewrite soft_mod by lia.
    by destruct (Z.eqb_spec i j).
  - left. split; [done|]. rewrite find_from_None in E. intros i Hi. apply negb_false_iff. apply E.
    change (0 + Z.of_nat (Z.to_nat MAX_SOFT_TIMERS)) with MAX_SOFT_TIMERS. done.
Qed.

(** C33 Software timers do what they are set to: interrupts make exactly the calls of the
    slots that are due; an armed one-shot timer fires once, at the first interrupt not
    before its deadline; a periodic one at the first interrupt not before the deadline
    and then again after at least its interval, every time; a cancelled or destroyed
    one never. *)
Theorem software_timers_fire t count counts h ms :
  sixteen t -> 0 <= h < MAX_SOFT_TIMERS ->
  active (soft_timers t).[h] = true -> callback (soft_timers t).[h] <> NULL ->
  let who := (callback (soft_timers t).[h], arg (soft_timers t).[h]) in
  let deadline := u64 (timer_get_uptime_ms t count + ms) in
  calls (updates t counts) ≡ₚ calls t ++ (seqZ 0 MAX_SOFT_TIMERS ≫= fun i => fired_by i t counts) /\
  (deadline <> 0 -> fired_by h (timer_set_oneshot t count h ms) counts =
     if existsb (fun c => deadline <=? timer_get_uptime_ms t c) counts then [who] else []) /\
  (deadline <> 0 -> 0 < ms ->
     (forall c, c ∈ counts -> 0 <= timer_get_uptime_ms t c /\ timer_get_uptime_ms t c + ms < 2 ^ 64) ->
     fired_by h (timer_set_periodic t count h ms) counts =
       replicate (length (periodic_times ms deadline (timer_get_uptime_ms t <$> counts))) who) /\
  fired_by h (timer_cancel t h) counts = [] /\ fired_by h (timer_destroy t h) counts = [].
Proof.
  intros Hn Hh Ha Hc who deadline. unfold timer_set_oneshot, timer_set_periodic, timer_cancel, timer_destroy.
  rewrite bad_handle_false, Ha by done.
  split; [by apply calls_by_slot|]. split; [|split; [|split]].
  - intros Hd. set (f := fun s : soft_timer => _). pose proof (mod_soft_same t h f Hn Hh) as Hs.
    rewrite fired_oneshot; [|done|by apply sixteen_mod|by rewrite Hs|by rewrite Hs|by rewrite Hs].
    rewrite Hs. unfold f. rec_simpl. fold deadline. by destruct (Z.eqb_spec deadline 0).
  - intros Hd Hms Hb. set (f := fun s : soft_timer => _). pose proof (mod_soft_same t h f Hn Hh) as Hs.
    rewrite fired_periodic; rewrite ?Hs; try done. by apply sixteen_mod.
  - apply fired_inactive; [done|by apply sixteen_mod|]. right. by rewrite mod_soft_same.
  - apply fired_inactive; [done|by apply sixteen_mod|]. left. by rewrite mod_soft_same.
Qed.

(** [timer_create] gives the lowest free slot to the new timer and changes no other, or
    fails when all 16 are in use. It keeps the slot's old deadline: a new timer that
    nobody has set fires by itself when the slot's previous owner destroyed a timer
    that was still armed. *)
Theorem timer_create_slot t cb a :
  sixteen t -> cb <> NULL ->
  (timer_create t cb a = (t, -1) /\ forall i, 0 <= i < MAX_SOFT_TIMERS -> active (soft_timers t).[i] = true) \/
  (exists i t', timer_create t cb a = (t', i) /\ 0 <= i < MAX_SOFT_TIMERS /\ active (soft_timers t).[i] = false /\
     (forall k, 0 <= k < i -> active (soft_timers t).[k] = true) /\
     (forall j, 0 <= j -> j <> i -> (soft_timers t').[j] = (soft_timers t).[j]) /\
     forall counts, fired_by i t' counts =
       if negb (expiry (soft_timers t).[i] =? 0) &&
          existsb (fun c => expiry (soft_timers t).[i] <=? timer_get_uptime_ms t c) counts then [(cb, a)] else []).
Proof.
  intros Hn Hcb. destruct (create_spec t cb a Hn) as [?|(i & t' & E & Hi & Hina & Hlow & Hn' & Hs & Hoth & Hf & _)]; [by left|].
  right. exists i, t'. do 5 (split; [done|]). intros counts.
  rewrite fired_oneshot by (try done; by rewrite Hs). rewrite Hs. cbn [expiry callback arg].
  unfold timer_get_uptime_ms. by rewrite Hf.
Qed.

(** * Time arithmetic *)

Lemma uptime_exact k c f : 0 < f -> 0 <= c -> c * k < 2 ^ 64 -> 0 < k -> u64 (c * k) / f = c * k / f.
Proof. intros. rewrite u64_id; [done|]. nia. Qed.

Lemma delay_loop_returns rd start wait n i :
  (forall m, 0 <= rd m < 2 ^ 64) -> start = rd 0%nat -> (forall m, rd m <= rd (S m)) ->
  wait <= rd (i + n)%nat - start ->
  exists m, delay_loop (S n) rd i start wait = Some m /\ (i <= m <= i + n)%nat /\ wait <= rd m - start /\
    forall k, (i <= k < m)%nat -> rd k - start < wait.
Proof.
  intros Hr Hs Hmono. assert (Hge : forall m, start <= rd m).
  { induction m as [|m IH]; [lia|]. specialize (Hmono m). lia. }
  revert i. induction n as [|n IH]; intros i Hw.
  - rewrite Nat.add_0_r in Hw. exists i. cbn [delay_loop]. specialize (Hr i) as Hri. pose proof (Hr 0%nat). specialize (Hge i).
    rewrite u64_id by lia. destruct (Z.ltb_spec (rd i - start) wait); [lia|]. split; [done|]. split; [lia|]. split; [done|]. lia.
  - remember (S n) as n1. cbn [delay_loop]. pose proof (Hr i). pose proof (Hr 0%nat). pose proof (Hge i).
    rewrite u64_id by lia. destruct (Z.ltb_spec (rd i - start) wait) as [Hlt|Hge'].
    + destruct (IH (S i)) as (m & E & Hm & Hw' & Hk); [by replace (S i + n)%nat with (i + n1)%nat by lia|].
      exists m. subst n1. split; [done|]. split; [lia|]. split; [done|]. intros k Hk'.
      destruct (decide (k = i)) as [->|]; [done|]. apply Hk. lia.
    + exists i. split; [done|]. split; [lia|]. split; [done|]. lia.
Qed.

(** Times: below 2^64 the uptime in milliseconds, microseconds and seconds is the exact
    quotient and never runs backwards; a busy wait ends as soon as the counter has
    advanced far enough, neither earlier nor a reading later; but the products wrap, so
    at 24 MHz a cycle count of 13 minutes converts to 12 ns and the microsecond uptime
    restarts after nine days. *)
Theorem time_arithmetic t :
  0 < timer_frequency t < 2 ^ 32 ->
  (forall c, 0 <= c -> c * 1000000 < 2 ^ 64 ->
     timer_get_uptime_ms t c = c * 1000 / timer_frequency t /\
     timer_get_uptime_us t c = c * 1000000 / timer_frequency t /\
     timer_get_uptime_seconds t c = c / timer_frequency t) /\
  (forall c c', 0 <= c <= c' -> c' * 1000000 < 2 ^ 64 ->
     timer_get_uptime_ms t c <= timer_get_uptime_ms t c' /\ timer_get_uptime_us t c <= timer_get_uptime_us t c') /\
  (forall rd ms n, 0 <= ms < 2 ^ 32 -> (forall m, 0 <= rd m < 2 ^ 64) -> (forall m, rd m <= rd (S m)) ->
     ms * timer_frequency t / 1000 <= rd (S n) - rd 0%nat ->
     exists m, timer_delay_ms (S n) t rd ms = Some m /\ ms * timer_frequency t < (rd m - rd 0%nat + 1) * 1000 /\
       forall k, (1 <= k < m)%nat -> (rd k - rd 0%nat) * 1000 < ms * timer_frequency t) /\
  (timer_frequency t = 24000000 ->
     timer_cycles_to_ns t (2 ^ 64 / 10 ^ 9 + 1) = 12 /\
     timer_get_uptime_us t (2 ^ 64 / 10 ^ 6 + 1) < timer_get_uptime_us t (2 ^ 64 / 10 ^ 6)).
Proof.
  intros Hf. split; [|split; [|split]].
  - intros c Hc Hb. unfold timer_get_uptime_seconds, timer_get_uptime_ms, timer_get_uptime_us.
    rewrite !uptime_exact by lia. split; [done|]. split; [done|].
    rewrite Z.div_div, Z.mul_comm, (Z.mul_comm _ 1000), Z.div_mul_cancel_l by lia. done.
  - intros c c' Hc Hb. unfold timer_get_uptime_ms, timer_get_uptime_us. rewrite !uptime_exact by lia.
    split; apply Z.div_le_mono; lia.
  - intros rd ms n Hms Hr Hmono Hw. unfold timer_delay_ms. rewrite u64_id by nia.
    destruct (delay_loop_returns rd (rd 0%nat) (ms * timer_frequency t / 1000) n 1) as (m & E & _ & H1 & H2); [done|done|done|done|].
    exists m. split; [done|]. split; [lia|]. intros k Hk. specialize (H2 k Hk).
    apply Z.lt_le_trans with (ms * timer_frequency t / 1000 * 1000); [lia|]. lia.
  - unfold timer_cycles_to_ns, timer_get_uptime_us. intros ->. split; vm_compute; reflexivity.
Qed.

(** * Concrete timers *)

Definition demo_timers : timers :=
  (timer_create (timer_init (mkTimers 0 0 0 (replicate 16 (mkSoft false 0 0 0 0)) NULL [] []) 24000000 0) 77 5).1.

Lemma software_timers_fire_witness :
  fired_by 0 (timer_set_oneshot demo_timers 0 0 10) [120000; 240000; 480000] = [(77, 5)] /\
  fired_by 0 (timer_cancel demo_timers 0) [120000; 240000; 480000] = [].
Proof.
  destruct (software_timers_fire demo_timers 0 [120000; 240000; 480000] 0 10) as (_ & H1 & _ & H2 & _);
    [reflexivity|unfold MAX_SOFT_TIMERS; lia|reflexivity|discriminate|].
  split; [|exact H2]. rewrite H1 by (vm_compute; discriminate). reflexivity.
Defined.

Lemma timer_create_slot_witness :
  exists t', timer_create (timer_destroy (timer_set_oneshot demo_timers 0 0 10) 0) 88 6 = (t', 0) /\
    fired_by 0 t' [240000] = [(88, 6)].
Proof.
  destruct (timer_create_slot (timer_destroy (timer_set_oneshot demo_timers 0 0 10) 0) 88 6) as [[_ H]|(i & t' & E & Hi & Ha & Hlow & _ & H)];
    [reflexivity|discriminate| |].
  - specialize (H 0 ltac:(unfold MAX_SOFT_TIMERS; lia)). vm_compute in H. discriminate H.
  - assert (i = 0) as ->.
    { destruct (Z.lt_trichotomy 0 i) as [Hlt|[?|?]]; [|lia|lia].
      specialize (Hlow 0 ltac:(lia)). vm_compute in Hlow. discriminate Hlow. }
    exists t'. split; [exact E|]. rewrite H. reflexivity.
Defined.

Lemma time_arithmetic_witness : timer_get_uptime_seconds demo_timers 48000000 = 2.
Proof.
  destruct (time_arithmetic demo_timers) as (H & _); [vm_compute; split; reflexivity|].
  destruct (H 48000000 ltac:(lia) ltac:(lia)) as (_ & _ & ->). reflexivity.
Defined.
