(* ===== verification/Process.v ===== *)
(** Process management ([src/process.c]): creation, exit, kill, wait and the
    process table with its PID bitmap, on top of the scheduler ([Sched]) and of a
    kernel memory interface ([KernelMemory]), which [Heap], [Pmm] and [Vmm] implement
    ([kmem_memory]).

    The table is an array of process control blocks in the scheduler's store; its
    base address and the size of the struct are parameters.  [None] is a [NULL]
    dereference, [kernel_panic], or a loop over more structs than [fuel].  The table
    lock is held around each operation, so each is one step. *)
From S2P Require Import Prelude Pmm CString Heap Vmm Sched SchedRun Sync.

Definition MAX_PROCESSES : Z := 1024.
Definition PID_BITMAP_SIZE : Z := 16.
Definition NUM_SIGNALS : Z := 64.
Definition WNOHANG : Z := 1.
Definition PROC_FLAG_USER : Z := 2.
Definition STATUS_OK : Z := 0.
Definition STATUS_NOMEM : Z := 2.
Definition STATUS_INVAL : Z := 3.
Definition STATUS_NOTFOUND : Z := 4.
Definition STATUS_PERM : Z := 8.

(** What process management uses of the memory subsystem. *)
Class KernelMemory (M : Type) := {
  km_kmalloc : M -> Z -> option (M * Z);
  km_kcalloc : M -> Z -> Z -> option (M * Z);
  km_kfree : M -> Z -> M;
  km_pmm_alloc : M -> M * Z;
  km_pmm_free : M -> Z -> M;
  km_vmm_init : M -> Z -> M;
  km_vmm_free_all : M -> Z -> M
}.

(** [struct process_attr]; the name is the bytes of the string *)
Record process_attr := mkAttr {
  at_name : list Z; at_entry : Z; at_priority : Z; at_stack_size : Z; at_flags : Z
}.

Section process.
Context {M : Type} `{KM : KernelMemory M}.
(** Address of [process_table] and [sizeof(struct process)] *)
Context (process_table sizeof_process : Z).

Record psys := mkPsys {
  ps_sched : sched;
  pid_bitmap : list Z;
  num_processes : Z;
  zombie_list : Z;
  fd_tables : Z -> Z * Z;   (** [count] and [max_fd] of the table at an address *)
  ps_mem : M
}.
#[local] Instance eta_psys : Eta psys := fun s =>
  mkPsys (ps_sched s) (pid_bitmap s) (num_processes s) (zombie_list s) (fd_tables s) (ps_mem s).

Definition slot (i : Z) : Z := process_table + i * sizeof_process.
Definition pr (s : psys) (p : Z) : pcb := procs (ps_sched s) p.
Definition mod_pr (s : psys) (p : Z) (f : pcb -> pcb) : psys := s <| ps_sched := mod_proc (ps_sched s) p f |>.

(** [memset(process_table, 0, ...)] *)
Fixpoint clear_slots (n : nat) (i : Z) (s : psys) : psys :=
  match n with O => s | S n' => clear_slots n' (i + 1) (mod_pr s (slot i) (fun _ => pcb_zero)) end.

Definition process_init (s : psys) : psys :=
  let s := clear_slots (Z.to_nat MAX_PROCESSES) 0 s in
  let s := s <| pid_bitmap := replicate (Z.to_nat PID_BITMAP_SIZE) 0 |> in
  let s := s <| pid_bitmap := (pid_bitmap s).[0 <- Z.lor (pid_bitmap s).[0] 1] |> in
  s <| num_processes := 0 |>.

Definition alloc_pid (s : psys) : psys * Z :=
  match find_from (fun i => negb ((pid_bitmap s).[i] =? 2 ^ 64 - 1)) (Z.to_nat PID_BITMAP_SIZE) 0 with
  | Some i =>
      let bit := ctz (2 ^ 64 - 1 - (pid_bitmap s).[i]) in
      (s <| pid_bitmap := (pid_bitmap s).[i <- bit_set (pid_bitmap s).[i] bit] |>, i * 64 + bit)
  | None => (s, -1)
  end.

Definition free_pid (s : psys) (pid : Z) : psys :=
  if (pid <? 0) || (MAX_PROCESSES <=? pid) then s else
  let idx := pid / 64 in
  let bit := pid mod 64 in
  s <| pid_bitmap := (pid_bitmap s).[idx <- bit_clear (pid_bitmap s).[idx] bit] |>.

(** [strncpy(proc->name, attr->name, 31); proc->name[31] = 0] into a zeroed array *)
Definition name_field (l : list Z) : list Z := take 31 l ++ replicate (32 - length (take 31 l)) 0.

(** The struct after the first assignments *)
Definition basic_pcb (attr : process_attr) (id : Z) : pcb :=
  pcb_zero <| pid := id |> <| name := name_field (at_name attr) |> <| state := PROC_READY |>
    <| priority := at_priority attr |> <| flags := at_flags attr |>.

Definition context_pcb (attr : process_attr) (id stack_top : Z) : pcb :=
  (basic_pcb attr id) <| ctx := mkCtx (at_entry attr) stack_top stack_top (at_entry attr) 0x345 |>.

Definition full_pcb (attr : process_attr) (id stack_top pg now fd : Z) : pcb :=
  (context_pcb attr id stack_top) <| pgd := pg |> <| stack_base := u64 (stack_top - at_stack_size attr) |>
    <| stack_size := at_stack_size attr |> <| cap := [2 ^ 64 - 1; 2 ^ 64 - 1] |> <| start_time := now |>
    <| fd_table := fd |>.

Definition process_create (s : psys) (c now : Z) (attr : option process_attr) : option (psys * Z) :=
  match attr with
  | None => Some (s, - STATUS_INVAL)
  | Some attr =>
    if at_entry attr =? NULL then Some (s, - STATUS_INVAL) else
    match find_from (fun i => bool_decide (state (pr s (slot i)) = PROC_UNUSED)) (Z.to_nat MAX_PROCESSES) 0 with
    | None => Some (s, - STATUS_NOMEM)
    | Some i =>
      let '(s, id) := alloc_pid s in
      if id <? 0 then Some (s, - STATUS_NOMEM) else
      let proc := slot i in
      let s := mod_pr s proc (fun _ => basic_pcb attr id) in
      match km_kmalloc (ps_mem s) (at_stack_size attr) with
      | None => None
      | Some (m, stk) =>
        let s := s <| ps_mem := m |> in
        if stk =? NULL then
          Some (mod_pr (free_pid s id) proc (fun p => p <| state := PROC_UNUSED |>), - STATUS_NOMEM)
        else
        let stack_top := Z.land (u64 (stk + at_stack_size attr)) (Z.lnot 0xF) in
        let s := mod_pr s proc (fun _ => context_pcb attr id stack_top) in
        let user := negb (Z.land (at_flags attr) PROC_FLAG_USER =? 0) in
        let '(m, pg) := if user then km_pmm_alloc (ps_mem s) else (ps_mem s, NULL) in
        let s := s <| ps_mem := m |> in
        if user && (pg =? NULL) then
          let s := s <| ps_mem := km_kfree (ps_mem s) (u64 (stack_top - at_stack_size attr)) |> in
          Some (mod_pr (free_pid s id) proc (fun p => p <| state := PROC_UNUSED |>), - STATUS_NOMEM)
        else
        let s := if user then s <| ps_mem := km_vmm_init (ps_mem s) pg |> else s in
        match km_kcalloc (ps_mem s) 1 8 with
        | None => None
        | Some (m, fd) =>
          let s := s <| ps_mem := m |> in
          let s := if fd =? NULL then s else s <| fd_tables := <[fd := (0, 256)]> (fd_tables s) |> in
          let s := mod_pr s proc (fun _ => full_pcb attr id stack_top pg now fd) in
          let s := s <| num_processes := u32 (num_processes s + 1) |> in
          Some (s <| ps_sched := scheduler_add_process (ps_sched s) c proc |>, id)
        end
      end
    end
  end.

(** Reparenting the children to init *)
Fixpoint reparent (fuel : nat) (s : psys) (child : Z) : option psys :=
  match fuel with
  | O => None
  | S f =>
      if child =? NULL then Some s else
      reparent f (mod_pr s child (fun p => p <| ppid := 1 |>)) (sibling (pr s child))
  end.

(** [None] is also the panic after a yield that returned at once. *)
Definition process_exit (fuel : nat) (s : psys) (c code : Z) : option psys :=
  let cur := scheduler_get_current (ps_sched s) c in
  if cur =? NULL then None else
  let s := mod_pr s cur (fun p => p <| exit_code := code |> <| state := PROC_ZOMBIE |>) in
  match reparent fuel s (children (pr s cur)) with
  | None => None
  | Some s =>
      let s := mod_pr s cur (fun p => p <| sibling := zombie_list s |>) in
      let s := s <| zombie_list := cur |> in
      let s := s <| num_processes := u32 (num_processes s - 1) |> in
      match scheduler_yield (ps_sched s) c with
      | None => None
      | Some sc => if scheduler_get_current sc c =? cur then None else Some (s <| ps_sched := sc |>)
      end
  end.

Definition process_kill (s : psys) (c id sig : Z) : option (psys * Z) :=
  if (id <=? 0) || (MAX_PROCESSES <=? id) then Some (s, - STATUS_INVAL) else
  if (sig <? 0) || (NUM_SIGNALS <=? sig) then Some (s, - STATUS_INVAL) else
  let proc := slot (id - 1) in
  if bool_decide (state (pr s proc) = PROC_UNUSED \/ state (pr s proc) = PROC_ZOMBIE)
  then Some (s, - STATUS_NOTFOUND) else
  let cur := scheduler_get_current (ps_sched s) c in
  if cur =? NULL then None else
  if negb (euid (pr s cur) =? 0) && negb (euid (pr s cur) =? uid (pr s proc)) then Some (s, - STATUS_PERM) else
  let s := mod_pr s proc (fun p => p <| sig_pending := bit_set (sig_pending p) sig |>) in
  if bool_decide (state (pr s proc) = PROC_SLEEPING) then
    let s := mod_pr s proc (fun p => p <| state := PROC_READY |>) in
    Some (s <| ps_sched := scheduler_add_process (ps_sched s) c proc |>, STATUS_OK)
  else Some (s, STATUS_OK).

Definition process_cleanup (s : psys) (proc : Z) : psys :=
  if proc =? NULL then s else
  let b := pr s proc in
  let s := if negb (stack_base b =? 0) then s <| ps_mem := km_kfree (ps_mem s) (stack_base b) |> else s in
  let s := if negb (pgd b =? NULL)
           then s <| ps_mem := km_pmm_free (km_vmm_free_all (ps_mem s) (pgd b)) (pgd b) |> else s in
  let s := if negb (fd_table b =? NULL) then s <| ps_mem := km_kfree (ps_mem s) (fd_table b) |> else s in
  mod_pr (free_pid s (pid b)) proc (fun p => p <| state := PROC_UNUSED |>).

(** The search through the children *)
Fixpoint find_zombie (fuel : nat) (s : psys) (id prev child : Z) : option (option (Z * Z)) :=
  match fuel with
  | O => None
  | S f =>
      if child =? NULL then Some None else
      if ((id =? -1) || (pid (pr s child) =? id)) && bool_decide (state (pr s child) = PROC_ZOMBIE)
      then Some (Some (prev, child)) else find_zombie f s id child (sibling (pr s child))
  end.

Inductive wait_result :=
| Reaped (cpid status : Z)   (** a child, and what [*status] is set to *)
| WaitReturn (r : Z)         (** 0 or an error *)
| WaitAgain.                 (** [scheduler_yield] and another round *)

(** One round of [process_wait] *)
Definition process_wait (fuel : nat) (s : psys) (c id options : Z) : option (psys * wait_result) :=
  let cur := scheduler_get_current (ps_sched s) c in
  if cur =? NULL then None else
  match find_zombie fuel s id NULL (children (pr s cur)) with
  | None => None
  | Some (Some (prev, child)) =>
      let b := pr s child in
      let s := if negb (prev =? NULL) then mod_pr s prev (fun p => p <| sibling := sibling b |>)
               else mod_pr s cur (fun p => p <| children := sibling b |>) in
      Some (process_cleanup s child, Reaped (pid b) (exit_code b))
  | Some None =>
      if negb (Z.land options WNOHANG =? 0) then Some (s, WaitReturn 0) else
      if children (pr s cur) =? NULL then Some (s, WaitReturn (- STATUS_NOTFOUND)) else Some (s, WaitAgain)
  end.

Definition process_get_by_pid (s : psys) (id : Z) : Z :=
  if (id <=? 0) || (MAX_PROCESSES <? id) then NULL else
  let proc := slot (id - 1) in
  if bool_decide (state (pr s proc) = PROC_UNUSED) then NULL else proc.

Fixpoint reap_loop (fuel : nat) (s : psys) (prev proc : Z) : option psys :=
  match fuel with
  | O => None
  | S f =>
      if proc =? NULL then Some s else
      let next := sibling (pr s proc) in
      if bool_decide (state (pr s proc) = PROC_UNUSED) then
        let s := if negb (prev =? NULL) then mod_pr s prev (fun p => p <| sibling := next |>)
                 else s <| zombie_list := next |> in
        reap_loop f s prev next
      else reap_loop f s proc next
  end.
Definition process_reap_zombies (fuel : nat) (s : psys) : option psys := reap_loop fuel s NULL (zombie_list s).

Definition current_pid (s : psys) (c : Z) : Z :=
  let cur := scheduler_get_current (ps_sched s) c in
  if cur =? NULL then 0 else pid (pr s cur).
End process.

(** * PIDs *)

Definition pid_bit (bm : list Z) (k : Z) : bool := Z.testbit bm.[k / 64] (k mod 64).

Record bitmap_ok (bm : list Z) : Prop := {
  bo_len : zlen bm = PID_BITMAP_SIZE;
  bo_word : forall i, 0 <= i < PID_BITMAP_SIZE -> 0 <= bm.[i] < 2 ^ 64;
  bo_zero : pid_bit bm 0 = true
}.

Lemma lnot_bit w b : 0 <= w < 2 ^ 64 -> 0 <= b < 64 -> Z.testbit (2 ^ 64 - 1 - w) b = negb (Z.testbit w b).
Proof.
  intros Hw Hb. replace (2 ^ 64 - 1 - w) with (Z.lnot w + 1 * 2 ^ 64) by (unfold Z.lnot; lia).
  rewrite <- (Z.mod_pow2_bits_low (Z.lnot w + 1 * 2 ^ 64) 64 b) by lia.
  rewrite Z.mod_add by lia. rewrite Z.mod_pow2_bits_low by lia. apply Z.lnot_spec. lia.
Qed.

Lemma pid_bit_set bm k j :
  bitmap_ok bm -> 0 <= k < MAX_PROCESSES -> 0 <= j < MAX_PROCESSES ->
  pid_bit (bm.[k / 64 <- bit_set bm.[k / 64] (k mod 64)]) j = (j =? k) || pid_bit bm j.
Proof.
  intros Hb Hk Hj. unfold pid_bit, MAX_PROCESSES in *. pose proof (bo_len _ Hb) as Hl. unfold PID_BITMAP_SIZE in Hl.
  rewrite aget_aset by lia. destruct (Z.eqb_spec (k / 64) (j / 64)) as [E|E].
  - rewrite testbit_bit_set, E by lia. f_equal. destruct (Z.eqb_spec (j mod 64) (k mod 64)), (Z.eqb_spec j k); try lia; done.
  - destruct (Z.eqb_spec j k) as [->|]; [done|done].
Qed.

Lemma pid_bit_clear bm k j :
  bitmap_ok bm -> 0 <= k < MAX_PROCESSES -> 0 <= j < MAX_PROCESSES ->
  pid_bit (bm.[k / 64 <- bit_clear bm.[k / 64] (k mod 64)]) j = negb (j =? k) && pid_bit bm j.
Proof.
  intros Hb Hk Hj. unfold pid_bit, MAX_PROCESSES in *. pose proof (bo_len _ Hb) as Hl. unfold PID_BITMAP_SIZE in Hl.
  rewrite aget_aset by lia. destruct (Z.eqb_spec (k / 64) (j / 64)) as [E|E].
  - rewrite testbit_bit_clear, E by lia. do 2 f_equal. destruct (Z.eqb_spec (j mod 64) (k mod 64)), (Z.eqb_spec j k); try lia; done.
  - destruct (Z.eqb_spec j k) as [->|]; [done|done].
Qed.

Lemma bitmap_ok_set bm k : bitmap_ok bm -> 0 <= k < MAX_PROCESSES -> bitmap_ok (bm.[k / 64 <- bit_set bm.[k / 64] (k mod 64)]).
Proof.
  intros Hb Hk. pose proof Hb as [H1 H2 H3]. split.
  - by rewrite zlen_aset.
  - intros i Hi. unfold PID_BITMAP_SIZE, MAX_PROCESSES in *. rewrite aget_aset by lia.
    destruct (_ =? _); [|by apply H2]. apply bit_set_range; [lia|]. apply H2. lia.
  - rewrite pid_bit_set by (done || (unfold MAX_PROCESSES in *; lia)). rewrite H3. apply orb_true_r.
Qed.

Lemma bitmap_ok_clear bm k :
  bitmap_ok bm -> 0 < k < MAX_PROCESSES -> bitmap_ok (bm.[k / 64 <- bit_clear bm.[k / 64] (k mod 64)]).
Proof.
  intros Hb Hk. pose proof Hb as [H1 H2 H3]. split.
  - by rewrite zlen_aset.
  - intros i Hi. unfold PID_BITMAP_SIZE, MAX_PROCESSES in *. rewrite aget_aset by lia.
    destruct (_ =? _); [|by apply H2]. apply bit_clear_range; [lia|lia|]. apply H2. lia.
  - rewrite pid_bit_clear by (done || (unfold MAX_PROCESSES in *; lia)). rewrite H3. destruct (Z.eqb_spec 0 k); [lia|done].
Qed.

(** The lowest free PID, or -1 *)
Lemma alloc_pid_spec {M} (s s' : psys (M := M)) id :
  bitmap_ok (pid_bitmap s) -> alloc_pid s = (s', id) ->
  (id = -1 /\ s' = s /\ forall k, 0 <= k < MAX_PROCESSES -> pid_bit (pid_bitmap s) k = true) \/
  (0 < id < MAX_PROCESSES /\ pid_bit (pid_bitmap s) id = false /\
   (forall k, 0 <= k < id -> pid_bit (pid_bitmap s) k = true) /\
   s' = mkPsys (ps_sched s) ((pid_bitmap s).[id / 64 <- bit_set (pid_bitmap s).[id / 64] (id mod 64)])
          (num_processes s) (zombie_list s) (fd_tables s) (ps_mem s)).
Proof.
  intros Hb H. unfold alloc_pid in H. destruct (find_from _ _ _) as [i|] eqn:E.
  - right. apply find_from_Some in E as (Hi & Hp & Hlt). change (0 + Z.of_nat (Z.to_nat PID_BITMAP_SIZE)) with 16 in Hi.
    pose proof (bo_word _ Hb i Hi) as Hw. set (w := (pid_bitmap s).[i]) in *.
    apply negb_true_iff, Z.eqb_neq in Hp.
    destruct (ctz_spec (2 ^ 64 - 1 - w)) as (Hz0 & Hzb & Hzl); [lia|].
    pose proof (ctz_range (2 ^ 64 - 1 - w) 64 ltac:(lia) ltac:(lia)) as Hzr. cbv zeta in H.
    set (b := ctz (2 ^ 64 - 1 - w)) in *. injection H as <- <-.
    assert (Hd : (i * 64 + b) / 64 = i) by lia. assert (Hm : (i * 64 + b) mod 64 = b) by lia.
    assert (Hfree : pid_bit (pid_bitmap s) (i * 64 + b) = false).
    { unfold pid_bit. rewrite Hd, Hm. fold w. rewrite lnot_bit in Hzb by lia. by apply negb_true_iff. }
    assert (Hlow : forall k, 0 <= k < i * 64 + b -> pid_bit (pid_bitmap s) k = true).
    { intros k Hk. unfold pid_bit. destruct (decide (k / 64 = i)) as [Ek|Ek].
      - rewrite Ek. fold w. specialize (Hzl (k mod 64) ltac:(lia)). rewrite lnot_bit in Hzl by lia. by apply negb_false_iff.
      - specialize (Hlt (k / 64) ltac:(lia)). apply negb_false_iff, Z.eqb_eq in Hlt. rewrite Hlt.
        change (2 ^ 64 - 1) with (Z.ones 64). apply Z.ones_spec_low. lia. }
    unfold MAX_PROCESSES. assert (i * 64 + b <> 0).
    { intros E0. rewrite E0, (bo_zero _ Hb) in Hfree. done. }
    split; [lia|]. split; [done|]. split; [done|]. rewrite Hd, Hm. by destruct s.
  - left. injection H as <- <-. split; [done|]. split; [done|]. rewrite find_from_None in E. intros k Hk.
    unfold MAX_PROCESSES in Hk. specialize (E (k / 64)). change (0 + Z.of_nat (Z.to_nat PID_BITMAP_SIZE)) with 16 in E.
    specialize (E ltac:(lia)). apply negb_false_iff, Z.eqb_eq in E. unfold pid_bit. rewrite E.
    change (2 ^ 64 - 1) with (Z.ones 64). apply Z.ones_spec_low. lia.
Qed.

(** * The process table *)

(** A struct no queue and no CPU refers to *)
Definition loose (s : sched) (Q : Z -> Z -> list Z) (W : Z -> list Z) (p : Z) : Prop :=
  p <> NULL /\ ~ lists Q p /\ (forall w, p ∉ W w) /\
  forall c, 0 <= c < num_cpus s -> current (rqs s).[c] <> p /\ idle_task (rqs s).[c] <> p.

Lemma loose_mod s Q W p f :
  sched_wf s Q W -> loose s Q W p -> sched_wf (mod_proc s p f) Q W /\ loose (mod_proc s p f) Q W p.
Proof.
  intros (Hq & Hw & [Hcu Hid]) Hl. pose proof Hl as (Hp & HQ & HW & Hc). split; [split; [|split]|done].
  - by apply qwf_mod_other.
  - by apply wwf_mod_other.
  - split; intros c Hcr; change (rqs (mod_proc s p f)) with (rqs s);
      change (num_cpus (mod_proc s p f)) with (num_cpus s) in Hcr; destruct (Hc c Hcr); rewrite procs_mod; intros Hn;
      [destruct (Z.eqb_spec (current (rqs s).[c]) p); [done|]; by apply Hcu|
       destruct (Z.eqb_spec (idle_task (rqs s).[c]) p); [done|]; by apply Hid].
Qed.

Section table.
Context {M : Type} `{KM : KernelMemory M} (pt sz : Z) (Hpt : 0 < pt) (Hsz : 0 < sz).
Notation slot := (slot pt sz).
Notation psys := (psys (M := M)).
Implicit Types (s : psys).

Lemma slot_inj i j : slot i = slot j -> i = j.
Proof. unfold Process.slot. nia. Qed.

Lemma slot_nonnull i : 0 <= i -> slot i <> NULL.
Proof. unfold Process.slot, NULL. nia. Qed.

Lemma pr_mod s p f x : pr (mod_pr s p f) x = if x =? p then f (pr s p) else pr s x.
Proof. unfold pr, mod_pr. rec_simpl. apply procs_mod. Qed.

Definition used_slot (s : psys) (i : Z) : Prop := state (pr s (slot i)) <> PROC_UNUSED.

Record table_ok (s : psys) : Prop := {
  to_bitmap : bitmap_ok (pid_bitmap s);
  to_slot : forall i, 0 <= i < MAX_PROCESSES - 1 ->
    (used_slot s i <-> pid_bit (pid_bitmap s) (i + 1) = true) /\ (used_slot s i -> pid (pr s (slot i)) = i + 1);
  to_last : ~ used_slot s (MAX_PROCESSES - 1);
  to_children : forall p, children (pr s p) = NULL
}.

Record sys_ok (s : psys) : Prop := {
  so_table : table_ok s;
  so_sched : exists Q W, sched_wf (ps_sched s) Q W;
  so_live : forall c, 0 <= c < num_cpus (ps_sched s) ->
    (current (rqs (ps_sched s)).[c] <> NULL -> state (pr s (current (rqs (ps_sched s)).[c])) <> PROC_UNUSED) /\
    (idle_task (rqs (ps_sched s)).[c] <> NULL -> state (pr s (idle_task (rqs (ps_sched s)).[c])) <> PROC_UNUSED)
}.

(** Operations that neither allocate nor free keep the table. *)
Lemma table_ok_proj s s' :
  table_ok s -> pid_bitmap s' = pid_bitmap s ->
  (forall p, pid (pr s' p) = pid (pr s p) /\ children (pr s' p) = children (pr s p) /\
     (state (pr s' p) = PROC_UNUSED <-> state (pr s p) = PROC_UNUSED)) -> table_ok s'.
Proof.
  intros [H1 H2 H3 H4] Hb Hp. assert (Hu : forall i, used_slot s' i <-> used_slot s i).
  { intros i. unfold used_slot. by destruct (Hp (slot i)) as (_ & _ & ->). }
  split.
  - by rewrite Hb.
  - intros i Hi. rewrite Hb, Hu. destruct (Hp (slot i)) as (-> & _). by apply H2.
  - by rewrite Hu.
  - intros p. destruct (Hp p) as (_ & -> & _). apply H4.
Qed.

Lemma unused_loose s Q W p :
  sys_ok s -> sched_wf (ps_sched s) Q W -> p <> NULL -> state (pr s p) = PROC_UNUSED -> loose (ps_sched s) Q W p.
Proof.
  intros [_ _ Hl] (Hq & Hw & _) Hp Hst. split; [done|]. split; [|split].
  - intros (c & q & Hx). apply (qw_in _ _ Hq) in Hx as (_ & _ & _ & _ & Hx). unfold pr in Hst. congruence.
  - intros w Hx. apply (ww_in _ _ Hw) in Hx as (Hx & _). unfold pr in Hst. congruence.
  - intros c Hc. destruct (Hl c Hc) as [H1 H2]. split; intros E; [apply H1|apply H2]; by rewrite E.
Qed.

(** The slot and the PID [process_create] picks *)
Lemma lowest_slot s i :
  table_ok s ->
  find_from (fun i => bool_decide (state (pr s (slot i)) = PROC_UNUSED)) (Z.to_nat MAX_PROCESSES) 0 = Some i ->
  forall s' id, alloc_pid s = (s', id) ->
  (i = MAX_PROCESSES - 1 /\ id = -1 /\ s' = s /\ forall k, 0 <= k < MAX_PROCESSES - 1 -> used_slot s k) \/
  (0 <= i < MAX_PROCESSES - 1 /\ id = i + 1 /\ ~ used_slot s i /\ (forall k, 0 <= k < i -> used_slot s k) /\
   pid_bit (pid_bitmap s) id = false /\
   s' = mkPsys (ps_sched s) ((pid_bitmap s).[id / 64 <- bit_set (pid_bitmap s).[id / 64] (id mod 64)])
          (num_processes s) (zombie_list s) (fd_tables s) (ps_mem s)).
Proof.
  intros Ht E s' id Ea. apply find_from_Some in E as (Hi & Hp & Hlt).
  change (0 + Z.of_nat (Z.to_nat MAX_PROCESSES)) with MAX_PROCESSES in Hi. apply bool_decide_eq_true in Hp.
  assert (Hlt' : forall k, 0 <= k < i -> used_slot s k).
  { intros k Hk. specialize (Hlt k Hk). by apply bool_decide_eq_false in Hlt. }
  unfold MAX_PROCESSES in *. pose proof (to_bitmap _ Ht) as Hb.
  destruct (alloc_pid_spec s s' id Hb Ea) as [(-> & -> & Hall)|(Hid & Hfree & Hlow & ->)]; unfold MAX_PROCESSES in *.
  - left. destruct (decide (i = 1024 - 1)) as [->|]; [by split_and!|].
    destruct (to_slot _ Ht i) as [Hs _]; [unfold MAX_PROCESSES; lia|]. exfalso. apply Hs; [|done]. apply Hall. lia.
  - right. assert (i <> 1024 - 1).
    { intros ->. destruct (to_slot _ Ht (id - 1)) as [Hs _]; [unfold MAX_PROCESSES; lia|].
      replace (id - 1 + 1) with id in Hs by lia. assert (used_slot s (id - 1)) as Hu by (apply Hlt'; lia).
      apply Hs in Hu. congruence. }
    assert (id = i + 1) as ->.
    { destruct (Z.lt_trichotomy id (i + 1)) as [Hlt1|[?|Hgt]]; [|done|].
      - destruct (to_slot _ Ht (id - 1)) as [Hs _]; [unfold MAX_PROCESSES; lia|].
        replace (id - 1 + 1) with id in Hs by lia. assert (used_slot s (id - 1)) as Hu by (apply Hlt'; lia).
        apply Hs in Hu. congruence.
      - destruct (to_slot _ Ht i) as [Hs _]; [unfold MAX_PROCESSES; lia|]. exfalso. apply Hs; [|done]. apply Hlow. lia. }
    split; [lia|]. split; [done|]. split; [by intros ?|]. by split_and!.
Qed.

(** Giving back the PID just taken restores the bitmap. *)
Lemma free_set_bitmap bm id :
  bitmap_ok bm -> 0 < id < MAX_PROCESSES -> pid_bit bm id = false ->
  let bm' := bm.[id / 64 <- bit_set bm.[id / 64] (id mod 64)] in
  bm'.[id / 64 <- bit_clear bm'.[id / 64] (id mod 64)] = bm.
Proof.
  intros Hb Hid Hf bm'. unfold MAX_PROCESSES in Hid. pose proof (bo_len _ Hb) as Hl. unfold PID_BITMAP_SIZE in Hl.
  unfold bm'. rewrite aget_aset_eq by lia.
  assert (Hw : bit_clear (bit_set bm.[id / 64] (id mod 64)) (id mod 64) = bm.[id / 64]).
  { apply Z.bits_inj'. intros n Hn. rewrite testbit_bit_clear, testbit_bit_set by lia.
    destruct (Z.eqb_spec n (id mod 64)) as [->|]; [|done]. unfold pid_bit in Hf. by rewrite Hf. }
  rewrite Hw. unfold aset. rewrite list_insert_insert_eq. apply list_insert_id.
  apply list_lookup_lookup_total_lt. unfold zlen in Hl. lia.
Qed.

(** Only the struct at [p] differs. *)
Record slot_only (S S' : sched) (p : Z) : Prop := {
  sl_rest : rqs S' = rqs S /\ num_cpus S' = num_cpus S /\ events S' = events S;
  sl_procs : forall x, x <> p -> procs S' x = procs S x;
  sl_wf : forall Q W, sched_wf S Q W -> loose S Q W p -> sched_wf S' Q W /\ loose S' Q W p
}.

Lemma slot_only_refl S p : slot_only S S p.
Proof. by split. Qed.

Lemma slot_only_mod S S' p f : slot_only S S' p -> slot_only S (mod_proc S' p f) p.
Proof.
  intros [H1 H2 H3]. split; [done| |].
  - intros x Hx. rewrite procs_mod. destruct (Z.eqb_spec x p); [done|]. by apply H2.
  - intros Q W Hwf Hl. destruct (H3 Q W Hwf Hl) as [H4 H5]. by apply loose_mod.
Qed.

Inductive create_outcome (s s' : psys) (c now : Z) (attr : process_attr) : Z -> Prop :=
| co_full :
    (forall k, 0 <= k < MAX_PROCESSES - 1 -> used_slot s k) -> s' = s -> create_outcome s s' c now attr (- STATUS_NOMEM)
| co_no_memory i :
    0 <= i < MAX_PROCESSES - 1 -> ~ used_slot s i -> (forall k, 0 <= k < i -> used_slot s k) ->
    slot_only (ps_sched s) (ps_sched s') (slot i) -> state (pr s' (slot i)) = PROC_UNUSED ->
    pid_bitmap s' = pid_bitmap s -> num_processes s' = num_processes s ->
    create_outcome s s' c now attr (- STATUS_NOMEM)
| co_created i stack_top pg fd :
    0 <= i < MAX_PROCESSES - 1 -> ~ used_slot s i -> (forall k, 0 <= k < i -> used_slot s k) ->
    (forall k, 0 <= k < MAX_PROCESSES -> pid_bit (pid_bitmap s') k = (k =? i + 1) || pid_bit (pid_bitmap s) k) ->
    num_processes s' = u32 (num_processes s + 1) ->
    stack_top mod 16 = 0 -> (pg = NULL <-> Z.land (at_flags attr) PROC_FLAG_USER = 0) ->
    (forall (A : Type) (f : pcb -> A), untouched f -> f (pr s' (slot i)) = f (full_pcb attr (i + 1) stack_top pg now fd)) ->
    state (pr s' (slot i)) = PROC_READY ->
    (forall x, x <> slot i -> pr s' x = (pr s x) <| sched_next := sched_next (pr s' x) |>) ->
    (exists Q Q' W, sched_wf (ps_sched s) Q W /\ sched_wf (ps_sched s') Q' W /\ forall x, lists Q' x <-> lists Q x \/ x = slot i) ->
    create_outcome s s' c now attr (i + 1).

(** A failed creation leaves a well-formed system. *)
Lemma fail_sys_ok s s' i :
  sys_ok s -> 0 <= i < MAX_PROCESSES - 1 -> ~ used_slot s i ->
  slot_only (ps_sched s) (ps_sched s') (slot i) -> state (pr s' (slot i)) = PROC_UNUSED -> children (pr s' (slot i)) = NULL ->
  pid_bitmap s' = pid_bitmap s -> sys_ok s'.
Proof.
  intros Hok Hi Hu Hso Hst Hch Hb. pose proof Hok as [[T1 T2 T3 T4] (Q & W & Hwf) Hl].
  assert (Hun : state (pr s (slot i)) = PROC_UNUSED) by (destruct (decide (state (pr s (slot i)) = PROC_UNUSED)); done).
  pose proof (unused_loose s Q W (slot i) Hok Hwf (slot_nonnull i ltac:(lia)) Hun) as Hloose.
  destruct (sl_rest _ _ _ Hso) as (Er & En & _). pose proof (sl_procs _ _ _ Hso) as Hp.
  assert (Hne : forall k, k <> i -> slot k <> slot i) by (intros k Hk E; by apply Hk, slot_inj).
  split; [split| |].
  - by rewrite Hb.
  - intros k Hk. rewrite Hb. unfold used_slot in *. destruct (decide (k = i)) as [->|Hki].
    + destruct (T2 i Hk) as [H1 H2]. rewrite Hst, <- H1, Hun. by split.
    + unfold pr in *. rewrite (Hp _ (Hne k Hki)). by apply T2.
  - unfold used_slot, pr in *. rewrite (Hp _ (Hne (MAX_PROCESSES - 1) ltac:(lia))). done.
  - intros p. destruct (decide (p = slot i)) as [->|Hpi]; [done|]. unfold pr. rewrite (Hp p Hpi). apply T4.
  - exists Q, W. by apply (sl_wf _ _ _ Hso).
  - intros c. rewrite En, Er. intros Hc. destruct (Hl c Hc) as [H1 H2]. destruct Hloose as (_ & _ & _ & Hcu).
    destruct (Hcu c Hc) as [Hc1 Hc2]. unfold pr. rewrite !Hp by done. by split.
Qed.

Lemma land_not15 x : Z.land x (Z.lnot 0xF) mod 16 = 0.
Proof. change 0xF with (2 ^ 4 - 1). rewrite land_lnot_ones by lia. apply Z.mod_mul. lia. Qed.

(** What [scheduler_add_process] makes of a prepared slot *)
Lemma add_slot S S' Q W c i b :
  slot_only S S' (slot i) -> sched_wf S Q W -> loose S Q W (slot i) -> procs S' (slot i) = b ->
  0 <= c < num_cpus S -> 0 <= priority b < 5 ->
  let S2 := scheduler_add_process S' c (slot i) in
  (exists Q', sched_wf S2 Q' W /\ forall x, lists Q' x <-> lists Q x \/ x = slot i) /\
  (forall (A : Type) (f : pcb -> A), untouched f -> f (procs S2 (slot i)) = f b) /\
  state (procs S2 (slot i)) = PROC_READY /\
  (forall x, x <> slot i -> procs S2 x = (procs S x) <| sched_next := sched_next (procs S2 x) |>) /\
  num_cpus S2 = num_cpus S /\
  (forall c', 0 <= c' < num_cpus S -> current (rqs S2).[c'] = current (rqs S).[c'] /\ idle_task (rqs S2).[c'] = idle_task (rqs S).[c']).
Proof.
  intros Hso Hwf Hl Hb Hc Hpr S2. destruct (sl_wf _ _ _ Hso Q W Hwf Hl) as [Hwf' Hl'].
  destruct (sl_rest _ _ _ Hso) as (Er & En & _). destruct Hl' as (Hp & HQ & HW & Hcu).
  assert (Hd : detached S' Q W (slot i)) by (split; [done|]; rewrite Hb; done).
  destruct (add_spec S' Q W c (slot i) Hwf' ltac:(by rewrite En) Hd) as (H1 & [H2 H3 _ H4] & _ & H5 & _).
  fold S2 in H1, H2, H3, H4, H5. split; [|split; [|split; [done|split; [|split]]]].
  - eexists. split; [exact H1|]. intros x. unfold lists. setoid_rewrite elem_of_Qset. split.
    + intros (c' & q' & [(-> & -> & [Hx|Hx%list_elem_of_singleton]%elem_of_app)|[_ Hx]]); [left; by eexists _, _|by right|left; by eexists _, _].
    + intros [(c' & q' & Hx)| ->].
      * exists c', q'. destruct (decide (c' = target_cpu S' /\ q' = priority (procs S' (slot i)))) as [[-> ->]|]; [left|by right].
        split_and!; [done|done|]. apply elem_of_app. by left.
      * eexists _, _. left. split_and!; [done|done|]. apply elem_of_app. right. by left.
  - intros A f Hf. unfold S2. by rewrite add_procs, Hb.
  - intros x Hx. rewrite (H3 x) at 1 by (by intros ->%list_elem_of_singleton). by rewrite (sl_procs _ _ _ Hso x Hx).
  - destruct H2 as [H2 _]. by rewrite H2.
  - intros c' Hc'. destruct (H4 c') as (E1 & E2 & _); [by rewrite En|]. by rewrite E1, E2, Er.
Qed.

Lemma created_sys_ok s s' now attr i stack_top pg fd :
  sys_ok s -> 0 <= i < MAX_PROCESSES - 1 -> ~ used_slot s i ->
  pid_bitmap s' = (pid_bitmap s).[(i + 1) / 64 <- bit_set (pid_bitmap s).[(i + 1) / 64] ((i + 1) mod 64)] ->
  (forall (A : Type) (f : pcb -> A), untouched f -> f (pr s' (slot i)) = f (full_pcb attr (i + 1) stack_top pg now fd)) ->
  state (pr s' (slot i)) = PROC_READY ->
  (forall x, x <> slot i -> pr s' x = (pr s x) <| sched_next := sched_next (pr s' x) |>) ->
  num_cpus (ps_sched s') = num_cpus (ps_sched s) ->
  (forall c', 0 <= c' < num_cpus (ps_sched s) ->
     current (rqs (ps_sched s')).[c'] = current (rqs (ps_sched s)).[c'] /\
     idle_task (rqs (ps_sched s')).[c'] = idle_task (rqs (ps_sched s)).[c']) ->
  (exists Q W, sched_wf (ps_sched s') Q W) -> sys_ok s'.
Proof.
  intros [[T1 T2 T3 T4] _ Hl] Hi Hu Hb Hf Hst Hp Hn Hrq Hwf.
  assert (Hne : forall k, k <> i -> slot k <> slot i) by (intros k Hk E; by apply Hk, slot_inj).
  assert (Hstx : forall x, x <> slot i -> state (pr s' x) = state (pr s x)) by (intros x Hx; by rewrite (Hp x Hx)).
  split; [split|done|].
  - rewrite Hb. apply bitmap_ok_set; [done|unfold MAX_PROCESSES in *; lia].
  - intros k Hk. rewrite Hb, pid_bit_set by (done || (unfold MAX_PROCESSES in *; lia)).
    unfold used_slot in *. destruct (decide (k = i)) as [->|Hki].
    + rewrite Hst, Z.eqb_refl. split; [by split|]. intros _. by rewrite (Hf _ pid).
    + rewrite (Hstx _ (Hne k Hki)), (Hp _ (Hne k Hki)). destruct (Z.eqb_spec (k + 1) (i + 1)); [lia|]. by apply T2.
  - unfold used_slot in *. rewrite Hstx by (apply Hne; lia). done.
  - intros p. destruct (decide (p = slot i)) as [->|Hpi]; [by rewrite (Hf _ children)|]. rewrite (Hp p Hpi). apply T4.
  - intros c'. rewrite Hn. intros Hc'. destruct (Hl c' Hc') as [H1 H2]. destruct (Hrq c' Hc') as [-> ->].
    assert (Hx : forall x, state (pr s x) <> PROC_UNUSED -> state (pr s' x) <> PROC_UNUSED).
    { intros x Hx. destruct (decide (x = slot i)) as [->|Hxi]; [by rewrite Hst|by rewrite Hstx]. }
    split; intros Hnn; apply Hx; [by apply H1|by apply H2].
Qed.

Lemma process_create_spec s c now attr s' r :
  sys_ok s -> 0 <= c < num_cpus (ps_sched s) -> at_entry attr <> NULL -> 0 <= at_priority attr < 5 ->
  process_create pt sz s c now (Some attr) = Some (s', r) -> create_outcome s s' c now attr r /\ sys_ok s'.
Proof.
  intros Hok Hc Hen Hpr E. pose proof Hok as [Ht (Q & W & Hwf) _]. unfold process_create in E.
  destruct (Z.eqb_spec (at_entry attr) NULL); [done|].
  destruct (find_from _ _ _) as [i|] eqn:Ei; cycle 1.
  { rewrite find_from_None in Ei. exfalso. apply (to_last _ Ht). intros Hst. specialize (Ei (MAX_PROCESSES - 1)).
    rewrite bool_decide_eq_true_2 in Ei by done. discriminate Ei. unfold MAX_PROCESSES. lia. }
  destruct (alloc_pid s) as [s1 id] eqn:Ea.
  destruct (lowest_slot s i Ht Ei s1 id Ea) as [(-> & -> & -> & Hall)|(Hi & -> & Hu & Hlow & Hfree & ->)].
  { injection E as <- <-. split; [by apply co_full|done]. }
  destruct (Z.ltb_spec (i + 1) 0); [lia|]. cbv zeta in E.
  assert (Hun : state (pr s (slot i)) = PROC_UNUSED) by (unfold used_slot in Hu; destruct (decide (state (pr s (slot i)) = PROC_UNUSED)); done).
  pose proof (unused_loose s Q W (slot i) Hok Hwf (slot_nonnull i ltac:(lia)) Hun) as Hloose.
  pose proof (to_bitmap _ Ht) as Hbm.
  pose proof (free_set_bitmap _ (i + 1) Hbm ltac:(unfold MAX_PROCESSES in *; lia) Hfree) as Hundo. cbv zeta in Hundo.
  set (bm := (pid_bitmap s).[_ <- _]) in *.
  (* every failure after the PID was taken *)
  assert (Hfail : forall S m fd, slot_only (ps_sched s) S (slot i) -> children (procs S (slot i)) = NULL ->
    let t := mod_pr (free_pid (mkPsys S bm (num_processes s) (zombie_list s) fd m) (i + 1)) (slot i) (fun p => p <| state := PROC_UNUSED |>) in
    create_outcome s t c now attr (- STATUS_NOMEM) /\ sys_ok t).
  { intros S m fd Hso Hch t.
    assert (Hbt : pid_bitmap t = pid_bitmap s).
    { unfold t, free_pid. unfold MAX_PROCESSES in *. destruct (Z.ltb_spec (i + 1) 0), (Z.leb_spec 1024 (i + 1)); try lia. exact Hundo. }
    assert (Hs : ps_sched t = mod_proc S (slot i) (fun p => p <| state := PROC_UNUSED |>)).
    { unfold t, free_pid. by destruct (_ || _). }
    assert (Hnt : num_processes t = num_processes s) by (unfold t, free_pid; by destruct (_ || _)).
    assert (Hso' : slot_only (ps_sched s) (ps_sched t) (slot i)) by (rewrite Hs; by apply slot_only_mod).
    assert (Hst : pr t (slot i) = (procs S (slot i)) <| state := PROC_UNUSED |>).
    { unfold pr. rewrite Hs, procs_mod. by rewrite Z.eqb_refl. }
    split.
    - apply (co_no_memory s t c now attr i); try done. by rewrite Hst.
    - apply (fail_sys_ok s t i); try done; by rewrite Hst. }
  destruct (km_kmalloc _ _) as [[m1 stk]|]; [|done].
  destruct (Z.eqb_spec stk NULL) as [_|Hstk].
  { injection E as <- <-. apply (Hfail (mod_proc (ps_sched s) (slot i) (fun _ => basic_pcb attr (i + 1))));
      [apply slot_only_mod, slot_only_refl|]. rewrite procs_mod. by rewrite Z.eqb_refl. }
  set (top := Z.land _ (Z.lnot 0xF)) in *. pose proof (land_not15 (u64 (stk + at_stack_size attr))) as Htop. fold top in Htop.
  set (user := negb (_ =? 0)) in *.
  destruct (if user then _ else _) as [m2 pg] eqn:Epg. destruct (user && (pg =? NULL)) eqn:Eup.
  { injection E as <- <-. apply (Hfail (mod_proc (mod_proc (ps_sched s) (slot i) (fun _ => basic_pcb attr (i + 1))) (slot i)
      (fun _ => context_pcb attr (i + 1) top))); [do 2 apply slot_only_mod; apply slot_only_refl|]. rewrite procs_mod. by rewrite Z.eqb_refl. }
  assert (Hpg : pg = NULL <-> Z.land (at_flags attr) PROC_FLAG_USER = 0).
  { unfold user in *. destruct (Z.eqb_spec (Z.land (at_flags attr) PROC_FLAG_USER) 0); cbn [negb andb] in *.
    - by injection Epg as _ <-.
    - destruct (Z.eqb_spec pg NULL); done. }
  destruct (km_kcalloc _ _ _) as [[m3 fd]|]; [|done]. injection E as E <-.
  set (S1 := mod_proc (mod_proc (mod_proc (ps_sched s) (slot i) (fun _ => basic_pcb attr (i + 1))) (slot i)
    (fun _ => context_pcb attr (i + 1) top)) (slot i) (fun _ => full_pcb attr (i + 1) top pg now fd)).
  assert (Hs' : ps_sched s' = scheduler_add_process S1 c (slot i) /\ pid_bitmap s' = bm /\ num_processes s' = u32 (num_processes s + 1)).
  { rewrite <- E. by destruct user, (fd =? NULL). }
  destruct Hs' as (Hs' & Hb' & Hn').
  assert (Hso : slot_only (ps_sched s) S1 (slot i)) by (do 3 apply slot_only_mod; apply slot_only_refl).
  assert (Hb : procs S1 (slot i) = full_pcb attr (i + 1) top pg now fd) by (unfold S1; rewrite procs_mod; by rewrite Z.eqb_refl).
  destruct (add_slot (ps_sched s) S1 Q W c i _ Hso Hwf Hloose Hb Hc Hpr) as ((Q' & Hwf' & HQ') & H1 & H2 & H3 & H4 & H5).
  rewrite <- Hs' in *. split.
  - apply (co_created s s' c now attr i top pg fd); try done.
    + intros k Hk. rewrite Hb'. apply pid_bit_set; [done|unfold MAX_PROCESSES in *; lia|done].
    + by exists Q, Q', W.
  - apply (created_sys_ok s s' now attr i top pg fd); try done. by exists Q', W.
Qed.

(** A scheduler call that makes no struct unused and keeps the idle tasks *)
Lemma sched_call_ok s sc Q W :
  sys_ok s -> sched_wf sc Q W -> num_cpus sc = num_cpus (ps_sched s) ->
  (forall x, pid (procs sc x) = pid (pr s x) /\ children (procs sc x) = children (pr s x) /\
     (state (procs sc x) = PROC_UNUSED <-> state (pr s x) = PROC_UNUSED)) ->
  (forall c, 0 <= c < num_cpus sc -> idle_task (rqs sc).[c] = idle_task (rqs (ps_sched s)).[c] /\
     (current (rqs sc).[c] = current (rqs (ps_sched s)).[c] \/ state (pr s (current (rqs sc).[c])) <> PROC_UNUSED)) ->
  sys_ok (mkPsys sc (pid_bitmap s) (num_processes s) (zombie_list s) (fd_tables s) (ps_mem s)).
Proof.
  intros [Ht _ Hl] Hwf Hn Hp Hr. split.
  - apply (table_ok_proj s); [done|done|exact Hp].
  - by exists Q, W.
  - intros c Hc. cbn [ps_sched] in *. destruct (Hr c Hc) as [-> Hcu]. rewrite Hn in Hc. destruct (Hl c Hc) as [H1 H2].
    unfold pr in *. cbn [ps_sched]. split; intros Hnn Hx; apply Hp in Hx; [|by apply H2].
    destruct Hcu as [E|Hu]; [rewrite E in *; by apply H1|done].
Qed.

Lemma yield_ok s c sc :
  sys_ok s -> 0 <= c < num_cpus (ps_sched s) -> scheduler_yield (ps_sched s) c = Some sc ->
  sys_ok (mkPsys sc (pid_bitmap s) (num_processes s) (zombie_list s) (fd_tables s) (ps_mem s)).
Proof.
  intros Hok Hc E. pose proof Hok as [_ (Q & W & Hwf) Hl].
  destruct (yield_spec (ps_sched s) Q W c Hwf Hc) as (s' & Q' & E' & Hwf' & _). rewrite E in E'. injection E' as <-.
  destruct (yield_procs (ps_sched s) Q W c sc Hwf Hc E) as (H1 & H2 & H3 & H4 & H5 & H6).
  destruct (Hl c Hc) as [Hlc _]. set (cur := current (rqs (ps_sched s)).[c]) in *.
  apply (sched_call_ok s sc Q' W); [done|done|done| |].
  - intros x. unfold pr. rewrite (H1 _ pid), (H1 _ children) by done. split; [done|]. split; [done|].
    destruct (decide ((x = cur /\ x <> NULL) \/ state (procs (ps_sched s) x) = PROC_READY)) as [Hx|Hx].
    + specialize (H3 x Hx). assert (state (procs (ps_sched s) x) <> PROC_UNUSED).
      { destruct Hx as [[-> ?]|Hx]; [by apply Hlc|congruence]. }
      destruct H3 as [-> | ->]; split; done.
    + rewrite H2; [done| |]; [destruct (decide (cur = NULL)); [by right|left; intros ->; apply Hx; by left]|].
      intros ?. apply Hx. by right.
  - intros c' Hc'. rewrite H4 in Hc'. destruct (H5 c' Hc') as [E1 E2]. split; [done|].
    destruct (decide (c' = c)) as [->|Hne]; [|left; by apply E2].
    destruct (decide (cur = NULL)) as [E0|E0].
    + left. unfold scheduler_yield in E. fold cur in E. rewrite E0 in E. rewrite Z.eqb_refl in E. by injection E as <-.
    + destruct (H6 E0) as [?|Hr]; [by left|right]. unfold pr. congruence.
Qed.

Lemma start_ok s c sc :
  sys_ok s -> 0 <= c < num_cpus (ps_sched s) -> scheduler_start (ps_sched s) c = Some sc ->
  sys_ok (mkPsys sc (pid_bitmap s) (num_processes s) (zombie_list s) (fd_tables s) (ps_mem s)).
Proof.
  intros Hok Hc E. pose proof Hok as [_ (Q & W & Hwf) Hl].
  destruct (start_returns (ps_sched s) Q W c sc Hwf Hc E) as (q & p & l & _ & Hwf' & _).
  destruct (start_procs (ps_sched s) Q W c sc Hwf Hc E) as (H0 & H1 & H2 & H3 & H4 & H5 & H6). cbv zeta in *.
  apply (sched_call_ok s sc _ _ Hok Hwf' H5).
  - intros x. unfold pr. rewrite (H3 _ pid), (H3 _ children) by done. split; [done|]. split; [done|].
    destruct (decide (x = current (rqs sc).[c])) as [->|Hx]; [by rewrite H1, H2|by rewrite H4].
  - intros c' Hc'. rewrite H5 in Hc'. destruct (H6 c' Hc') as [E1 E2]. split; [done|].
    destruct (decide (c' = c)) as [->|Hne]; [right; unfold pr; congruence|left; by apply E2].
Qed.

(** Changing bookkeeping fields of a struct *)
Lemma field_ok s p f :
  sys_ok s -> (forall b, pid (f b) = pid b /\ children (f b) = children b /\ state (f b) = state b /\
    sched_next (f b) = sched_next b /\ cpu (f b) = cpu b /\ priority (f b) = priority b /\ wq (f b) = wq b /\ wq_next (f b) = wq_next b) ->
  sys_ok (mod_pr s p f).
Proof.
  intros [Ht (Q & W & Hwf) Hl] Hf. assert (Hx : forall x, state (pr (mod_pr s p f) x) = state (pr s x)).
  { intros x. rewrite pr_mod. destruct (Z.eqb_spec x p) as [->|]; [apply Hf|done]. }
  split.
  - apply (table_ok_proj s); [done|done|]. intros x. rewrite Hx, !pr_mod. destruct (Z.eqb_spec x p) as [->|]; [|done].
    destruct (Hf (pr s p)) as (-> & -> & _). done.
  - exists Q, W. apply sched_wf_mod_same; [done|]. intros b. destruct (Hf b) as (_ & _ & -> & -> & -> & -> & -> & ->). done.
  - intros c Hc. change (rqs (ps_sched (mod_pr s p f))) with (rqs (ps_sched s)). rewrite !Hx. by apply Hl.
Qed.

(** ** Exit, kill, wait *)

Lemma exit_spec fuel s c code :
  sys_ok s -> 0 <= c < num_cpus (ps_sched s) ->
  let cur := current (rqs (ps_sched s)).[c] in
  cur <> NULL -> (0 < fuel)%nat ->
  match process_exit fuel s c code with
  | None => True
  | Some s' => sys_ok s' /\ state (pr s' cur) = PROC_READY /\ exit_code (pr s' cur) = code /\
      zombie_list s' = cur /\ sibling (pr s' cur) = zombie_list s /\ pid_bitmap s' = pid_bitmap s /\
      num_processes s' = u32 (num_processes s - 1) /\
      exists Q' W', sched_wf (ps_sched s') Q' W' /\ lists Q' cur
  end.
Proof.
  intros Hok Hc cur Hcur Hf. destruct (process_exit fuel s c code) as [s'|] eqn:E; [|done].
  pose proof Hok as [Ht (Q & W & Hwf) Hl]. unfold process_exit in E. rewrite get_current in E by lia. fold cur in E.
  destruct (Z.eqb_spec cur NULL); [done|]. cbv zeta in E.
  set (s1 := mod_pr s cur (fun p => p <| exit_code := code |> <| state := PROC_ZOMBIE |>)) in *.
  assert (Hch : children (pr s1 cur) = NULL) by (unfold s1; rewrite pr_mod, Z.eqb_refl; apply (to_children _ Ht)).
  rewrite Hch in E. destruct fuel as [|fuel]; [lia|]. cbn [reparent] in E.
  set (S2 := mod_proc (ps_sched s1) cur (fun p => p <| sibling := zombie_list s |>)).
  change (zombie_list s1) with (zombie_list s) in E.
  set (s2 := mkPsys S2 (pid_bitmap s) (u32 (num_processes s - 1)) cur (fd_tables s) (ps_mem s)).
  change (match scheduler_yield S2 c with None => None | Some sc => if scheduler_get_current sc c =? cur then None
    else Some (mkPsys sc (pid_bitmap s) (u32 (num_processes s - 1)) cur (fd_tables s) (ps_mem s)) end = Some s') in E.
  assert (Hb2 : procs S2 cur = (pr s cur) <| exit_code := code |> <| state := PROC_ZOMBIE |> <| sibling := zombie_list s |>).
  { unfold S2. rewrite procs_mod, Z.eqb_refl. f_equal. change (procs (ps_sched s1) cur) with (pr s1 cur). unfold s1. by rewrite pr_mod, Z.eqb_refl. }
  assert (Hx2 : forall x, x <> cur -> procs S2 x = pr s x).
  { intros x Hx. unfold S2. rewrite procs_mod. destruct (Z.eqb_spec x cur); [done|]. change (procs (ps_sched s1) x) with (pr s1 x).
    unfold s1. rewrite pr_mod. by destruct (Z.eqb_spec x cur). }
  assert (Hwf2 : sched_wf S2 Q W).
  { apply (current_mod_wf (ps_sched s1) Q W c); [|done|done|done]. by apply current_mod_wf. }
  assert (Hok2 : sys_ok s2).
  { apply (sched_call_ok (mkPsys (ps_sched s) (pid_bitmap s) (u32 (num_processes s - 1)) cur (fd_tables s) (ps_mem s)) S2 Q W).
    - split; [by apply (table_ok_proj s)|by exists Q, W|exact Hl].
    - done.
    - done.
    - intros x. unfold pr. cbn [ps_sched]. destruct (decide (x = cur)) as [->|Hx]; [|by rewrite Hx2].
      rewrite Hb2. split; [done|]. split; [done|]. split; [done|]. intros Hu. by destruct (Hl c Hc) as [H1 _]; apply H1 in Hu.
    - intros c' Hc'. split; [done|by left]. }
  destruct (scheduler_yield S2 c) as [sc|] eqn:Ey; [|done]. destruct (scheduler_get_current sc c =? cur) eqn:Ecur; [done|].
  pose proof (yield_ok s2 c sc Hok2 Hc Ey) as Hok3. injection E as <-.
  destruct (yield_procs S2 Q W c sc Hwf2 Hc Ey) as (H1 & _ & H3 & Hn & _).
  destruct (yield_spec S2 Q W c Hwf2 Hc) as (sc' & Q' & Ey' & Hwf' & _ & Hsw). rewrite Ey in Ey'. injection Ey' as <-.
  change (current (rqs S2).[c]) with cur in Hsw. destruct (Hsw Hcur) as (next & Hrot & Hcu & _ & Hst).
  assert (Hne : next <> cur).
  { intros ->. rewrite get_current, Hcu in Ecur by (rewrite Hn; apply Hc). by rewrite Z.eqb_refl in Ecur. }
  destruct (Z.eqb_spec next cur); [done|]. destruct Hst as (_ & Hst & _).
  split; [exact Hok3|]. unfold pr. cbn [ps_sched zombie_list num_processes pid_bitmap].
  split; [done|]. split; [by rewrite (H1 _ exit_code), Hb2|]. split; [done|]. split; [by rewrite (H1 _ sibling), Hb2|].
  split; [done|]. split; [done|]. exists Q', W. split; [done|].
  destruct Hrot as (q & l & (_ & HQ & _) & ->). pose proof (in_appended S2 Q cur) as Hin.
  set (cc := cpu (procs S2 cur)) in *. set (pp := priority (procs S2 cur)) in *.
  exists cc, pp. apply elem_of_Qset. destruct (decide (cc = c /\ pp = q)) as [[E1 E2]|]; [left|by right].
  rewrite E1, E2, HQ in Hin. apply elem_of_cons in Hin as [->|Hin]; [done|]. by split_and!.
Qed.

(** The permission check of [process_kill] *)
Definition may_signal (s : psys) (cur proc : Z) : Prop := euid (pr s cur) = 0 \/ euid (pr s cur) = uid (pr s proc).

Lemma kill_spec s c id sig :
  sys_ok s -> 0 <= c < num_cpus (ps_sched s) ->
  let cur := current (rqs (ps_sched s)).[c] in
  let proc := slot (id - 1) in
  cur <> NULL -> state (pr s proc) <> PROC_SLEEPING ->
  exists s' r, process_kill pt sz s c id sig = Some (s', r) /\ sys_ok s' /\
    (r <> STATUS_OK -> s' = s) /\
    (r = - STATUS_INVAL <-> ~ (0 < id < MAX_PROCESSES /\ 0 <= sig < NUM_SIGNALS)) /\
    (r = - STATUS_NOTFOUND <-> (0 < id < MAX_PROCESSES /\ 0 <= sig < NUM_SIGNALS) /\
       (state (pr s proc) = PROC_UNUSED \/ state (pr s proc) = PROC_ZOMBIE)) /\
    (r = STATUS_OK -> may_signal s cur proc /\ s' = mod_pr s proc (fun p => p <| sig_pending := bit_set (sig_pending p) sig |>)) /\
    (r = STATUS_OK \/ r = - STATUS_INVAL \/ r = - STATUS_NOTFOUND \/ r = - STATUS_PERM).
Proof.
  intros Hok Hc cur proc Hcur Hns. unfold process_kill. rewrite get_current by lia. fold cur. fold proc.
  unfold STATUS_OK, STATUS_INVAL, STATUS_NOTFOUND, STATUS_PERM.
  destruct (Z.leb_spec id 0), (Z.leb_spec MAX_PROCESSES id); cbn [orb]; try (exists s, (-3); split_and!; try done; try lia; naive_solver lia).
  destruct (Z.ltb_spec sig 0), (Z.leb_spec NUM_SIGNALS sig); cbn [orb]; try (exists s, (-3); split_and!; try done; try lia; naive_solver lia).
  destruct (bool_decide_reflect (state (pr s proc) = PROC_UNUSED \/ state (pr s proc) = PROC_ZOMBIE)) as [Hst|Hst].
  { exists s, (-4). split_and!; try done; try lia; naive_solver lia. }
  destruct (Z.eqb_spec cur NULL); [done|].
  destruct (negb (euid (pr s cur) =? 0) && negb (euid (pr s cur) =? uid (pr s proc))) eqn:Ep.
  { exists s, (-8). split_and!; try done; try lia; naive_solver lia. }
  cbv zeta. set (s1 := mod_pr s proc _).
  assert (Hs1 : state (pr s1 proc) = state (pr s proc)) by (unfold s1; by rewrite pr_mod, Z.eqb_refl).
  rewrite Hs1, bool_decide_eq_false_2 by done. exists s1, 0. split; [done|].
  split; [by apply field_ok|]. split; [done|]. split; [split; [done|]; intros Hx; exfalso; apply Hx; lia|].
  split; [split; [done|]; naive_solver|]. split; [|by left]. intros _. split; [|done].
  unfold may_signal. destruct (Z.eqb_spec (euid (pr s cur)) 0); [by left|].
  destruct (Z.eqb_spec (euid (pr s cur)) (uid (pr s proc))); [by right|done].
Qed.

(** A sleeping process that gets a signal. *)
Definition killed_asleep (s : psys) (proc sig : Z) (s' : psys) : Prop :=
  state (pr s' proc) = PROC_READY /\ sig_pending (pr s' proc) = bit_set (sig_pending (pr s proc)) sig /\
  wq_head (ps_sched s') = wq_head (ps_sched s) /\ (forall x, wq_next (pr s' x) = wq_next (pr s x) /\ wq (pr s' x) = wq (pr s x)) /\
  (0 <= priority (pr s proc) < 5 ->
   exists t, 0 <= t < num_cpus (ps_sched s) /\ (tails (rqs (ps_sched s')).[t]).[priority (pr s proc)] = proc) /\
  pid_bitmap s' = pid_bitmap s /\ zombie_list s' = zombie_list s /\ ps_mem s' = ps_mem s.

Lemma add_asleep (sc : sched) c proc : proc <> NULL -> 0 < num_cpus sc -> num_cpus sc = zlen (rqs sc) -> (forall c, 0 <= c < num_cpus sc -> zlen (tails (rqs sc).[c]) = 5) ->
  let sc' := scheduler_add_process sc c proc in
  state (procs sc' proc) = PROC_READY /\ sig_pending (procs sc' proc) = sig_pending (procs sc proc) /\ wq_head sc' = wq_head sc /\
  (forall x, wq_next (procs sc' x) = wq_next (procs sc x) /\ wq (procs sc' x) = wq (procs sc x)) /\
  (0 <= priority (procs sc proc) < 5 -> exists t, 0 <= t < num_cpus sc /\ (tails (rqs sc').[t]).[priority (procs sc proc)] = proc).
Proof.
  intros Hp Hn Hz Hlen. unfold scheduler_add_process. destruct (Z.eqb_spec proc NULL); [done|]. cbv zeta. fold (target_cpu sc).
  destruct (target_cpu_spec sc Hn) as (Ht & _). set (t := target_cpu sc) in *. set (s1 := mod_proc sc proc _).
  assert (H1 : forall x, procs s1 x = if x =? proc then (procs sc proc) <| cpu := t |> <| state := PROC_READY |>
    <| time_slice := time_quantum.[priority (procs sc proc)] |> else procs sc x) by (intros x; unfold s1; apply procs_mod).
  assert (Hem : forall (b : bool) e, procs (if b then emit e (Resched t) else e) = procs e /\ rqs (if b then emit e (Resched t) else e) = rqs e /\
    wq_head (if b then emit e (Resched t) else e) = wq_head e) by (by intros [] e).
  match goal with |- context [if ?b then emit ?e _ else _] => destruct (Hem b e) as (-> & -> & ->) end.
  assert (Hpe : forall x, procs (enqueue_process s1 proc) x = (procs s1 x) <| sched_next := sched_next (procs (enqueue_process s1 proc) x) |>).
  { intros x. rewrite enqueue_procs by done. done. }
  assert (Hc1 : cpu (procs s1 proc) = t /\ priority (procs s1 proc) = priority (procs sc proc)) by (rewrite H1, Z.eqb_refl; done).
  destruct Hc1 as [Hc1 Hc2]. split; [|split; [|split; [|split]]].
  - rewrite Hpe. rec_simpl. by rewrite H1, Z.eqb_refl.
  - rewrite Hpe. rec_simpl. by rewrite H1, Z.eqb_refl.
  - unfold enqueue_process. cbv zeta. by destruct (negb _).
  - intros x. rewrite Hpe. rec_simpl. rewrite H1. by destruct (Z.eqb_spec x proc) as [->|].
  - intros Hpr. exists t. split; [done|]. rewrite enqueue_rqs by (rewrite ?Hc1; unfold s1; change (rqs (mod_proc sc proc _)) with (rqs sc); lia).
    rewrite Hc1, Z.eqb_refl, Hc2. unfold rq_enqueue. cbn [tails]. pose proof (Hlen t Ht) as L.
    change (rqs s1) with (rqs sc). by rewrite aget_aset_eq by lia.
Qed.

(** Every branch of [process_kill]. *)
Lemma kill_outcome s c id sig :
  sys_ok s -> 0 <= c < num_cpus (ps_sched s) ->
  let cur := current (rqs (ps_sched s)).[c] in
  let proc := slot (id - 1) in
  let named := 0 < id < MAX_PROCESSES /\ 0 <= sig < NUM_SIGNALS in
  let gone := state (pr s proc) = PROC_UNUSED \/ state (pr s proc) = PROC_ZOMBIE in
  cur <> NULL ->
  exists s' r, process_kill pt sz s c id sig = Some (s', r) /\
    (~ named -> r = - STATUS_INVAL /\ s' = s) /\
    (named -> gone -> r = - STATUS_NOTFOUND /\ s' = s) /\
    (named -> ~ gone -> ~ may_signal s cur proc -> r = - STATUS_PERM /\ s' = s) /\
    (named -> ~ gone -> may_signal s cur proc -> r = STATUS_OK /\
       (state (pr s proc) <> PROC_SLEEPING -> s' = mod_pr s proc (fun p => p <| sig_pending := bit_set (sig_pending p) sig |>)) /\
       (state (pr s proc) = PROC_SLEEPING -> killed_asleep s proc sig s')).
Proof.
  intros Hok Hc cur proc named gone Hcur. unfold process_kill. rewrite get_current by lia. fold cur. fold proc.
  destruct (decide (0 < id < MAX_PROCESSES)) as [Hid|Hid].
  2: { assert (Hn : ~ named) by (intros [? _]; done). assert (E : (id <=? 0) || (MAX_PROCESSES <=? id) = true) by (destruct (Z.leb_spec id 0), (Z.leb_spec MAX_PROCESSES id); done || lia).
       rewrite E. exists s, (- STATUS_INVAL). by split_and!. }
  assert (E : (id <=? 0) || (MAX_PROCESSES <=? id) = false) by (destruct (Z.leb_spec id 0), (Z.leb_spec MAX_PROCESSES id); done || lia). rewrite E. clear E.
  destruct (decide (0 <= sig < NUM_SIGNALS)) as [Hsig|Hsig].
  2: { assert (Hn : ~ named) by (intros [_ ?]; done). assert (E : (sig <? 0) || (NUM_SIGNALS <=? sig) = true) by (destruct (Z.ltb_spec sig 0), (Z.leb_spec NUM_SIGNALS sig); done || lia).
       rewrite E. exists s, (- STATUS_INVAL). by split_and!. }
  assert (E : (sig <? 0) || (NUM_SIGNALS <=? sig) = false) by (destruct (Z.ltb_spec sig 0), (Z.leb_spec NUM_SIGNALS sig); done || lia). rewrite E. clear E.
  assert (Hn : named) by done. clearbody named.
  destruct (bool_decide_reflect (state (pr s proc) = PROC_UNUSED \/ state (pr s proc) = PROC_ZOMBIE)) as [Hg|Hg].
  { exists s, (- STATUS_NOTFOUND). by split_and!. }
  destruct (Z.eqb_spec cur NULL); [done|].
  destruct (negb (euid (pr s cur) =? 0) && negb (euid (pr s cur) =? uid (pr s proc))) eqn:Ep.
  { assert (Hm : ~ may_signal s cur proc).
    { unfold may_signal. destruct (Z.eqb_spec (euid (pr s cur)) 0), (Z.eqb_spec (euid (pr s cur)) (uid (pr s proc))); try done. by intros [?|?]. }
    exists s, (- STATUS_PERM). by split_and!. }
  assert (Hm : may_signal s cur proc).
  { unfold may_signal. destruct (Z.eqb_spec (euid (pr s cur)) 0), (Z.eqb_spec (euid (pr s cur)) (uid (pr s proc))); try done; by (left + right). }
  cbv zeta. set (s1 := mod_pr s proc _).
  assert (Hs1 : state (pr s1 proc) = state (pr s proc)) by (unfold s1; by rewrite pr_mod, Z.eqb_refl). rewrite Hs1.
  destruct (bool_decide_reflect (state (pr s proc) = PROC_SLEEPING)) as [Hsl|Hsl].
  2: { exists s1, STATUS_OK. by split_and!. }
  set (s2 := mod_pr s1 proc _). eexists _, STATUS_OK. split; [reflexivity|]. split; [done|]. split; [done|]. split; [done|].
  intros _ _ _. split; [done|]. split; [done|]. intros _.
  assert (Hpn : proc <> NULL) by (unfold proc, slot, NULL; nia).
  assert (H2 : forall x, pr s2 x = if x =? proc then (pr s proc) <| sig_pending := bit_set (sig_pending (pr s proc)) sig |> <| state := PROC_READY |> else pr s x).
  { intros x. unfold s2, s1. rewrite !pr_mod, Z.eqb_refl. by destruct (x =? proc). }
  destruct (so_sched _ Hok) as (Q & W & Hq & _ & _).
  destruct (add_asleep (ps_sched s2) c proc Hpn) as (A1 & A2 & A3 & A4 & A5); [change (0 < num_cpus (ps_sched s)); lia|exact (qw_cpus _ _ Hq)| |].
  { intros c' Hc'. exact (proj1 (proj2 (qw_lens _ _ Hq c' Hc'))). }
  assert (H3 : forall x, procs (ps_sched s2) x = pr s2 x) by done. split; [exact A1|]. split; [|split; [exact A3|split; [|split; [|done]]]].
  - etransitivity; [exact A2|]. rewrite H3, H2, Z.eqb_refl. done.
  - intros x. destruct (A4 x) as [B1 B2]. rewrite H3, H2 in B1, B2. unfold pr at 1 3. rec_simpl. rewrite B1, B2. destruct (Z.eqb_spec x proc) as [Ex|]; [by rewrite Ex|done].
  - intros Hpr. rewrite H3, H2, Z.eqb_refl in A5. exact (A5 Hpr).
Qed.

Lemma wait_spec fuel s c id options :
  table_ok s -> 0 <= c < num_cpus (ps_sched s) -> current (rqs (ps_sched s)).[c] <> NULL -> (0 < fuel)%nat ->
  process_wait fuel s c id options =
    Some (s, WaitReturn (if Z.land options WNOHANG =? 0 then - STATUS_NOTFOUND else 0)).
Proof.
  intros Ht Hc Hcur Hf. unfold process_wait. rewrite get_current by lia.
  destruct (Z.eqb_spec (current (rqs (ps_sched s)).[c]) NULL); [done|]. rewrite (to_children _ Ht).
  destruct fuel as [|fuel]; [lia|]. cbn [find_zombie]. rewrite Z.eqb_refl. by destruct (Z.land options WNOHANG =? 0).
Qed.

(** ** Reachable systems *)

(** At boot the store is zero. *)
Definition boot (cores : Z) (m : M) : psys :=
  mkPsys (scheduler_init (mkSched (fun _ => pcb_zero) [] 0 false (fun _ => NULL) []) cores) [] 0 NULL (fun _ => (0, 0)) m.

Inductive proc_step : psys -> psys -> Prop :=
| ps_create s c now attr s' r :
    0 <= c < num_cpus (ps_sched s) ->
    match attr with Some a => 0 <= at_priority a < 5 | None => True end ->
    process_create pt sz s c now attr = Some (s', r) -> proc_step s s'
| ps_exit s fuel c code s' :
    0 <= c < num_cpus (ps_sched s) -> process_exit fuel s c code = Some s' -> proc_step s s'
| ps_kill s c id sig s' r :
    0 <= c < num_cpus (ps_sched s) -> state (pr s (slot (id - 1))) <> PROC_SLEEPING ->
    process_kill pt sz s c id sig = Some (s', r) -> proc_step s s'
| ps_wait s fuel c id options s' r :
    0 <= c < num_cpus (ps_sched s) -> process_wait fuel s c id options = Some (s', r) -> proc_step s s'
| ps_reap s fuel s' : process_reap_zombies fuel s = Some s' -> proc_step s s'
| ps_start s c sc :
    0 <= c < num_cpus (ps_sched s) -> scheduler_start (ps_sched s) c = Some sc ->
    proc_step s (mkPsys sc (pid_bitmap s) (num_processes s) (zombie_list s) (fd_tables s) (ps_mem s))
| ps_yield s c sc :
    0 <= c < num_cpus (ps_sched s) -> scheduler_yield (ps_sched s) c = Some sc ->
    proc_step s (mkPsys sc (pid_bitmap s) (num_processes s) (zombie_list s) (fd_tables s) (ps_mem s)).

Inductive proc_reachable : psys -> Prop :=
| pr_boot cores m : 0 <= cores -> proc_reachable (process_init pt sz (boot cores m))
| pr_step s s' : proc_reachable s -> proc_step s s' -> proc_reachable s'.

Lemma clear_slots_zero n i s :
  (forall p, pr s p = pcb_zero) ->
  let s' := clear_slots pt sz n i s in
  (forall p, pr s' p = pcb_zero) /\ rqs (ps_sched s') = rqs (ps_sched s) /\ num_cpus (ps_sched s') = num_cpus (ps_sched s) /\
  wq_head (ps_sched s') = wq_head (ps_sched s).
Proof.
  revert i s. induction n as [|n IH]; intros i s Hz; [done|]. cbn [clear_slots].
  destruct (IH (i + 1) (mod_pr s (slot i) (fun _ => pcb_zero))) as (H1 & H2 & H3 & H4).
  - intros p. rewrite pr_mod. by destruct (p =? slot i).
  - cbv zeta in *. split; [done|]. by rewrite H2, H3, H4.
Qed.

Lemma aget_bitmap_boot i :
  0 <= i < 16 -> ((replicate 16 0).[0 <- 1]).[i] = if i =? 0 then 1 else 0.
Proof.
  intros Hi. rewrite aget_aset by (rewrite ?zlen_replicate; lia). rewrite Z.eqb_sym.
  destruct (i =? 0); [done|]. by apply aget_replicate.
Qed.

Lemma boot_ok cores m : 0 <= cores -> sys_ok (process_init pt sz (boot cores m)).
Proof.
  intros Hn. unfold process_init. generalize (Z.to_nat MAX_PROCESSES) as n. intros n.
  destruct (clear_slots_zero n 0 (boot cores m)) as (H1 & H2 & H3 & H4); [done|].
  set (s1 := clear_slots pt sz n 0 (boot cores m)) in *. clearbody s1.
  set (bm := (replicate 16 0).[0 <- 1]).
  change (sys_ok (mkPsys (ps_sched s1) bm 0 (zombie_list s1) (fd_tables s1) (ps_mem s1))).
  assert (Hbit : forall k, 0 <= k < MAX_PROCESSES -> pid_bit bm k = (k =? 0)).
  { intros k Hk. unfold MAX_PROCESSES in Hk. unfold pid_bit, bm. rewrite aget_bitmap_boot by lia.
    destruct (Z.eqb_spec (k / 64) 0) as [E|E].
    - replace (k mod 64) with k by lia. destruct (Z.eqb_spec k 0) as [->|]; [done|]. destruct k as [|p|]; try lia. by destruct p.
    - rewrite Z.bits_0. destruct (Z.eqb_spec k 0) as [->|]; [done|done]. }
  split; [split| |].
  - cbn [pid_bitmap]. split; [done| |done]. intros i Hi. unfold PID_BITMAP_SIZE in Hi.
    unfold bm. rewrite aget_bitmap_boot by lia. destruct (_ =? _); lia.
  - intros i Hi. cbn [pid_bitmap]. rewrite Hbit by (unfold MAX_PROCESSES in *; lia). unfold used_slot, pr. cbn [ps_sched].
    unfold pr in H1. rewrite H1. destruct (Z.eqb_spec (i + 1) 0); [lia|]. split; [split; [|done]|]; intros Hx; by destruct Hx.
  - unfold used_slot, pr. cbn [ps_sched]. unfold pr in H1. rewrite H1. intros Hx. by apply Hx.
  - intros p. unfold pr. cbn [ps_sched]. unfold pr in H1. by rewrite H1.
  - exists (fun _ _ => []), (fun _ => []). cbn [ps_sched]. apply (empty_wf _ cores); [done|done|done|]. by rewrite H4.
  - cbn [ps_sched]. rewrite H2, H3. intros c Hc. cbn [boot ps_sched scheduler_init num_cpus] in Hc. 
    change (0 <= c < cores) in Hc. unfold boot, scheduler_init. cbn [ps_sched]. rec_simpl.
    rewrite aget_replicate by lia. split; intros Hx; by destruct Hx.
Qed.

Lemma reap_ok fuel s s' prev proc :
  sys_ok s -> reap_loop fuel s prev proc = Some s' -> sys_ok s'.
Proof.
  revert s prev proc. induction fuel as [|fuel IH]; intros s prev proc Hok; cbn [reap_loop]; [done|].
  destruct (proc =? NULL); [by intros [= <-]|]. destruct (bool_decide _); [|by apply IH]. apply IH.
  destruct (negb _); [by apply field_ok|]. destruct Hok as [Ht Hwf Hl]. split; [by apply (table_ok_proj s)|done|done].
Qed.

Lemma proc_step_ok s s' : sys_ok s -> proc_step s s' -> sys_ok s'.
Proof.
  intros Hok Hst. pose proof Hok as [Ht _ _].
  destruct Hst as [s c now attr s' r Hc Ha E|s fuel c code s' Hc E|s c id sig s' r Hc Hns E|s fuel c id opt s' r Hc E|s fuel s' E|s c sc Hc E|s c sc Hc E].
  - destruct attr as [a|]; [|by injection E as <- _]. destruct (decide (at_entry a = NULL)) as [En|En].
    + unfold process_create in E. rewrite En, Z.eqb_refl in E. by injection E as <- _.
    + by apply (process_create_spec s c now a s' r).
  - destruct (decide (current (rqs (ps_sched s)).[c] = NULL)) as [E0|E0].
    { unfold process_exit in E. rewrite get_current, E0, Z.eqb_refl in E by lia. done. }
    destruct fuel as [|fuel]; [unfold process_exit in E; destruct (_ =? NULL); done|].
    pose proof (exit_spec (S fuel) s c code Hok Hc E0 ltac:(lia)) as H. rewrite E in H. by destruct H.
  - destruct (decide (current (rqs (ps_sched s)).[c] = NULL)) as [E0|E0].
    + unfold process_kill in E. rewrite get_current, E0, Z.eqb_refl in E by lia.
      repeat (destruct (_ || _) in E; [by injection E as <- _|]). destruct (bool_decide _) in E; [by injection E as <- _|done].
    + destruct (kill_spec s c id sig Hok Hc E0 Hns) as (s2 & r2 & E2 & H2 & _). rewrite E in E2. by injection E2 as <- _.
  - destruct (decide (current (rqs (ps_sched s)).[c] = NULL)) as [E0|E0].
    { unfold process_wait in E. rewrite get_current, E0, Z.eqb_refl in E by lia. done. }
    destruct fuel as [|fuel]; [unfold process_wait in E; destruct (_ =? NULL); done|].
    rewrite (wait_spec (S fuel) s c id opt Ht Hc E0 ltac:(lia)) in E. by injection E as <- _.
  - by eapply reap_ok.
  - by apply (start_ok s c).
  - by apply (yield_ok s c).
Qed.

Lemma proc_reachable_ok s : proc_reachable s -> sys_ok s.
Proof. induction 1; [by apply boot_ok|]. by eapply proc_step_ok. Qed.
End table.

(** * The kernel's memory as the implementation of the interface *)

Record kmem := mkKmem { km_heap : heap; km_words : Z -> Z }.

(** [rounds] of heap growth and [fuel] for the block list are more than the concrete runs need. *)
Definition kmem_pages (m : kmem) (f : vm pmm -> vm pmm) : kmem :=
  let v := f (mkVm (km_words m) (hp_pmm (km_heap m))) in
  mkKmem ((km_heap m) <| hp_pmm := vm_alloc v |>) (vm_mem v).

#[export] Instance kmem_memory : KernelMemory kmem := {|
  km_kmalloc m size := match kmalloc 30 1000 (km_heap m) size with
    | Some (h, p) => Some (mkKmem h (km_words m), p) | None => None end;
  km_kcalloc m n size := match kcalloc 30 1000 (km_heap m) n size with
    | Some (h, p) => Some (mkKmem h (km_words m), p) | None => None end;
  km_kfree m p := mkKmem (kfree (km_heap m) p) (km_words m);
  km_pmm_alloc m := let '(p, a) := pmm_alloc (hp_pmm (km_heap m)) in
    (mkKmem ((km_heap m) <| hp_pmm := p |>) (km_words m), a);
  km_pmm_free m a := mkKmem ((km_heap m) <| hp_pmm := pmm_free (hp_pmm (km_heap m)) a |>) (km_words m);
  km_vmm_init m pgd := kmem_pages m (fun v => vmm_init v pgd);
  km_vmm_free_all m pgd := kmem_pages m (fun v => vmm_free_all v pgd)
|}.

(** * Properties *)

Section properties.
Context {M : Type} `{KM : KernelMemory M} (pt sz : Z).
Notation psys := (psys (M := M)).
Implicit Types (s : psys).

(** C6 From [process_init] on, through any sequence of creations, exits, kills, waits,
    reaps and schedules, a PID is allocated exactly while its slot is in use, the process
    in slot [i] has PID [i + 1], no two processes share a PID, [process_get_by_pid] finds
    exactly the process with that PID, and the scheduler underneath stays well formed.
    The last slot is never used. *)
Theorem process_table_sound s :
  0 < pt -> 0 < sz -> proc_reachable pt sz s ->
  (forall i, 0 <= i < MAX_PROCESSES - 1 -> (used_slot pt sz s i <-> pid_bit (pid_bitmap s) (i + 1) = true)) /\
  (forall i, 0 <= i < MAX_PROCESSES - 1 -> used_slot pt sz s i ->
     pid (pr s (slot pt sz i)) = i + 1 /\ process_get_by_pid pt sz s (i + 1) = slot pt sz i) /\
  (forall i j, 0 <= i < MAX_PROCESSES -> 0 <= j < MAX_PROCESSES -> used_slot pt sz s i -> used_slot pt sz s j ->
     pid (pr s (slot pt sz i)) = pid (pr s (slot pt sz j)) -> i = j) /\
  (forall id, process_get_by_pid pt sz s id <> NULL ->
     state (pr s (process_get_by_pid pt sz s id)) <> PROC_UNUSED /\ pid (pr s (process_get_by_pid pt sz s id)) = id) /\
  ~ used_slot pt sz s (MAX_PROCESSES - 1) /\ exists Q W, sched_wf (ps_sched s) Q W.
Proof.
  intros Hpt Hsz Hr. destruct (proc_reachable_ok pt sz Hpt Hsz s Hr) as [[T1 T2 T3 T4] Hwf _].
  assert (Hlast : forall i, 0 <= i < MAX_PROCESSES -> used_slot pt sz s i -> 0 <= i < MAX_PROCESSES - 1).
  { intros i Hi Hu. destruct (decide (i = MAX_PROCESSES - 1)) as [->|]; [done|lia]. }
  split; [intros i Hi; by apply T2|]. split; [|split; [|split; [|by split]]].
  - intros i Hi Hu. destruct (T2 i Hi) as [_ Hp]. split; [by apply Hp|]. unfold process_get_by_pid.
    destruct (Z.leb_spec (i + 1) 0), (Z.ltb_spec MAX_PROCESSES (i + 1)); cbn [orb]; try lia.
    replace (i + 1 - 1) with i by lia. by rewrite bool_decide_eq_false_2.
  - intros i j Hi Hj Hui Huj. destruct (T2 i (Hlast i Hi Hui)) as [_ Hp], (T2 j (Hlast j Hj Huj)) as [_ Hp'].
    rewrite Hp, Hp' by done. lia.
  - intros id. unfold process_get_by_pid.
    destruct (Z.leb_spec id 0), (Z.ltb_spec MAX_PROCESSES id); cbn [orb]; try done. cbv zeta.
    destruct (bool_decide_reflect (state (pr s (slot pt sz (id - 1))) = PROC_UNUSED)) as [|Hu]; [done|]. intros _.
    split; [done|]. destruct (T2 (id - 1)) as [_ Hp]; [apply Hlast; [lia|done]|]. rewrite Hp by done. lia.
Qed.

(** [process_create] refuses a missing entry point; it fails with [STATUS_NOMEM] and no
    trace in the table when every PID is taken or an allocation fails; otherwise the
    lowest free slot [i] becomes process [i + 1], with its stack pointer 16-byte aligned,
    a page directory exactly if it is a user process, and queued as ready on the
    least loaded CPU. *)
Theorem process_create_outcome s c now attr s' r :
  0 < pt -> 0 < sz -> sys_ok pt sz s -> 0 <= c < num_cpus (ps_sched s) -> 0 <= at_priority attr < 5 ->
  process_create pt sz s c now (Some attr) = Some (s', r) ->
  sys_ok pt sz s' /\
  (at_entry attr = NULL -> s' = s /\ r = - STATUS_INVAL) /\
  (at_entry attr <> NULL -> create_outcome pt sz s s' c now attr r).
Proof.
  intros Hpt Hsz Hok Hc Hpr E. destruct (decide (at_entry attr = NULL)) as [En|En].
  - unfold process_create in E. rewrite En, Z.eqb_refl in E. injection E as <- <-. by split_and!.
  - destruct (process_create_spec pt sz Hpt Hsz s c now attr s' r Hok Hc En Hpr E) as [H1 H2]. by split_and!.
Qed.

(** C40 An exiting process does not go away: when another process runs in its place it is
    marked ready again and waits in a run queue, its zombie state overwritten (it would
    run on into a panic); nobody can collect it, since no process ever has children:
    every [process_wait] returns at once with 0 or [STATUS_NOTFOUND].  [process_kill], in
    any well-formed system, answers an invalid PID or signal, then a free slot or a
    zombie, then a caller without permission with its error code and no effect, and
    otherwise succeeds: it sets the signal's pending bit, and a process that sleeps is
    made ready and put at the end of a run queue, while it stays linked in its wait
    queue. *)
Theorem process_exit_wait_kill s c :
  0 < pt -> 0 < sz -> proc_reachable pt sz s -> 0 <= c < num_cpus (ps_sched s) ->
  let cur := current (rqs (ps_sched s)).[c] in
  cur <> NULL ->
  (forall fuel code s', (0 < fuel)%nat -> process_exit fuel s c code = Some s' ->
     state (pr s' cur) = PROC_READY /\ exit_code (pr s' cur) = code /\ zombie_list s' = cur /\
     pid_bitmap s' = pid_bitmap s /\ exists Q' W', sched_wf (ps_sched s') Q' W' /\ lists Q' cur) /\
  (forall fuel id options, (0 < fuel)%nat -> process_wait fuel s c id options =
     Some (s, WaitReturn (if Z.land options WNOHANG =? 0 then - STATUS_NOTFOUND else 0))) /\
  (forall (t : psys) d id sig, sys_ok pt sz t -> 0 <= d < num_cpus (ps_sched t) -> current (rqs (ps_sched t)).[d] <> NULL ->
     let proc := slot pt sz (id - 1) in
     let named := 0 < id < MAX_PROCESSES /\ 0 <= sig < NUM_SIGNALS in
     let gone := state (pr t proc) = PROC_UNUSED \/ state (pr t proc) = PROC_ZOMBIE in
     let may := may_signal t (current (rqs (ps_sched t)).[d]) proc in
     exists t' r, process_kill pt sz t d id sig = Some (t', r) /\
       (~ named -> r = - STATUS_INVAL /\ t' = t) /\
       (named -> gone -> r = - STATUS_NOTFOUND /\ t' = t) /\
       (named -> ~ gone -> ~ may -> r = - STATUS_PERM /\ t' = t) /\
       (named -> ~ gone -> may -> r = STATUS_OK /\
          (state (pr t proc) <> PROC_SLEEPING -> t' = mod_pr t proc (fun p => p <| sig_pending := bit_set (sig_pending p) sig |>)) /\
          (state (pr t proc) = PROC_SLEEPING -> killed_asleep t proc sig t'))).
Proof.
  intros Hpt Hsz Hr Hc cur Hcur. pose proof (proc_reachable_ok pt sz Hpt Hsz s Hr) as Hok. split; [|split].
  - intros fuel code s' Hf E. pose proof (exit_spec pt sz fuel s c code Hok Hc Hcur Hf) as H. rewrite E in H.
    destruct H as (_ & H1 & H2 & H3 & _ & H5 & _ & H7). by split_and!.
  - intros fuel id options Hf. by apply (wait_spec pt sz fuel s c id options (so_table _ _ _ Hok)).
  - intros t d id sig Ht Hd Hcd. by apply (kill_outcome pt sz Hpt Hsz t d id sig Ht Hd).
Qed.
End properties.

(** * A concrete run: two kernel processes on one CPU *)

Definition demo_attr (entry : Z) : process_attr := mkAttr [105; 110; 105; 116] entry 2 512 0.
Definition demo_boot : psys (M := kmem) := process_init 4096 1024 (boot 1 (mkKmem demo_heap (fun _ => 0))).
Definition demo_create (s : psys (M := kmem)) (entry : Z) : psys :=
  match process_create 4096 1024 s 0 7 (Some (demo_attr entry)) with Some (s', _) => s' | None => s end.
Definition demo_two : psys (M := kmem) := demo_create (demo_create demo_boot 0x1000) 0x2000.
Definition demo_started : psys (M := kmem) :=
  mkPsys (default (ps_sched demo_two) (scheduler_start (ps_sched demo_two) 0)) (pid_bitmap demo_two) (num_processes demo_two)
    (zombie_list demo_two) (fd_tables demo_two) (ps_mem demo_two).

Lemma demo_create_reachable s entry :
  proc_reachable 4096 1024 s -> num_cpus (ps_sched s) = 1 -> proc_reachable 4096 1024 (demo_create s entry).
Proof.
  intros Hr Hn. unfold demo_create. destruct (process_create _ _ s 0 7 _) as [[s' r]|] eqn:E; [|exact Hr].
  eapply pr_step; [exact Hr|]. apply (ps_create 4096 1024 s 0 7 (Some (demo_attr entry)) s' r); [lia|cbn; lia|exact E].
Qed.

Lemma demo_boot_reachable : proc_reachable 4096 1024 demo_boot.
Proof. apply pr_boot. lia. Qed.

Lemma demo_started_reachable : proc_reachable 4096 1024 demo_started.
Proof.
  assert (H2 : proc_reachable 4096 1024 demo_two).
  { apply demo_create_reachable; [apply demo_create_reachable; [exact demo_boot_reachable|]|]; vm_compute; reflexivity. }
  eapply pr_step; [exact H2|]. apply (ps_start 4096 1024 demo_two 0); [vm_compute; split; [discriminate|reflexivity]|].
  assert (E : match scheduler_start (ps_sched demo_two) 0 with Some _ => True | None => False end) by (vm_compute; exact I).
  destruct (scheduler_start (ps_sched demo_two) 0); [reflexivity|destruct E].
Qed.

Lemma process_table_sound_witness :
  process_get_by_pid 4096 1024 demo_started 2 = slot 4096 1024 1 /\ pid (pr demo_started (slot 4096 1024 1)) = 2.
Proof.
  destruct (process_table_sound 4096 1024 demo_started ltac:(lia) ltac:(lia) demo_started_reachable) as (_ & H & _).
  destruct (H 1) as [H1 H2]; [unfold MAX_PROCESSES; lia|vm_compute; discriminate|]. split; [exact H2|exact H1].
Defined.

Lemma process_create_outcome_witness :
  exists s' r, process_create 4096 1024 demo_boot 0 7 (Some (demo_attr 0x1000)) = Some (s', r) /\
    sys_ok 4096 1024 s' /\ create_outcome 4096 1024 demo_boot s' 0 7 (demo_attr 0x1000) r /\ r = 1.
Proof.
  assert (E : match process_create 4096 1024 demo_boot 0 7 (Some (demo_attr 0x1000)) with
    | Some (_, r) => r = 1 | None => False end) by (vm_compute; reflexivity).
  destruct (process_create 4096 1024 demo_boot 0 7 (Some (demo_attr 0x1000))) as [[s' r]|] eqn:E1; [|destruct E].
  exists s', r. split; [reflexivity|].
  destruct (process_create_outcome 4096 1024 demo_boot 0 7 (demo_attr 0x1000) s' r) as (H1 & _ & H2);
    [lia|lia|apply proc_reachable_ok; [lia|lia|exact demo_boot_reachable]|vm_compute; split; [discriminate|reflexivity]|
     vm_compute; split; [discriminate|reflexivity]|exact E1|].
  split; [exact H1|]. split; [apply H2; discriminate|exact E].
Defined.

Lemma process_exit_wait_kill_witness :
  exists s', process_exit 5 demo_started 0 3 = Some s' /\ state (pr s' (slot 4096 1024 0)) = PROC_READY /\
    process_wait 5 demo_started 0 (-1) 0 = Some (demo_started, WaitReturn (- STATUS_NOTFOUND)) /\
    exists t', process_kill 4096 1024 demo_started 0 2 9 = Some (t', STATUS_OK).
Proof.
  assert (E : match process_exit 5 demo_started 0 3 with Some _ => True | None => False end) by (vm_compute; exact I).
  assert (Ec : current (rqs (ps_sched demo_started)).[0] = slot 4096 1024 0) by (vm_compute; reflexivity).
  destruct (process_exit_wait_kill 4096 1024 demo_started 0 ltac:(lia) ltac:(lia) demo_started_reachable
    ltac:(vm_compute; split; [discriminate|reflexivity]) ltac:(vm_compute; discriminate)) as (H1 & H2 & H3).
  destruct (process_exit 5 demo_started 0 3) as [s'|] eqn:E1; [|destruct E]. exists s'. split; [reflexivity|].
  destruct (H1 5%nat 3 s' ltac:(lia) E1) as (H4 & _). rewrite Ec in H4. split; [exact H4|].
  split; [exact (H2 5%nat (-1) 0 ltac:(lia))|].
  pose proof (proc_reachable_ok 4096 1024 ltac:(lia) ltac:(lia) _ demo_started_reachable) as Hok.
  destruct (H3 demo_started 0 2 9 Hok ltac:(vm_compute; split; [discriminate|reflexivity]) ltac:(vm_compute; discriminate))
    as (t' & r & E2 & _ & _ & _ & H5).
  destruct H5 as [-> _]; [unfold MAX_PROCESSES, NUM_SIGNALS; lia|vm_compute; intros [?|?]; discriminate|left; vm_compute; reflexivity|].
  exists t'. exact E2.
Defined.
