(* ===== verification/Crfs.v ===== *)
(** CrimsonFS, the log-structured file system ([src/crfs.c], [src/crfs.h]): the
    on-disk structures and every operation, over the interface [BlockDevice] to the
    device driver behind [struct block_device].

    A local 4096-byte buffer is a list of bytes or of 64-bit words; what lies behind
    it on the stack is the parameter [beyond].  Inodes are the objects of
    [crfs_iget] in the order of their allocation and a pointer to one is its index
    ([-1] is [NULL]); [kmalloc_ok n] says whether the allocation of the [n]-th
    succeeds.  [None] is an undefined behaviour (an uninitialised address, a
    dereferenced [NULL], a buffer overrun) or a loop that does not end.  Every call
    holds its locks from beginning to end, so it is one step. *)
From S2P Require Import Prelude Pmm CString.

Definition CRFS_MAGIC : Z := 0x4372696D534F5300.
Definition CRFS_VERSION : Z := 1.
Definition CRFS_BLOCK_SIZE : Z := 4096.
Definition CRFS_BLOCK_SHIFT : Z := 12.
Definition CRFS_SEG_SIZE : Z := 2 * 1024 * 1024.
Definition CRFS_BLOCKS_PER_SEG : Z := 512.
Definition CRFS_MAX_PATH : Z := 4096.
Definition CRFS_MAX_OPEN : Z := 1024.
Definition CRFS_ROOT_INO : Z := 1.
Definition CRFS_TYPE_REG : Z := 1.
Definition CRFS_TYPE_DIR : Z := 2.
Definition CRFS_COMP_LZ4 : Z := 1.
Definition CRFS_PTRS_PER_BLOCK : Z := 512.
Definition CRFS_INDIRECT_BASE : Z := 12.
Definition O_WRONLY : Z := 0x0001.
Definition O_RDWR : Z := 0x0002.
Definition O_CREAT : Z := 0x0040.
Definition O_TRUNC : Z := 0x0200.
Definition O_APPEND : Z := 0x0400.
Definition O_DIRECTORY : Z := 0x010000.
Definition S_IFDIR : Z := 0x4000.

Record superblock := mkSb {
  sb_magic : Z; version : Z; block_size : Z; seg_size : Z;
  total_segs : Z; used_segs : Z; free_segs : Z;
  checkpoint_offset : Z; checkpoint_seq : Z; inode_table_start : Z; root_inode_addr : Z;
  sb_flags : Z; feature_compat : Z; feature_incompat : Z; feature_ro_compat : Z;
  creation_time : Z; last_mount_time : Z; mount_count : Z; sb_checksum : Z;
  uuid : list Z; volume_name : list Z; encryption_key_id : list Z; sb_pad : list Z
}.
#[export] Instance eta_superblock : Eta superblock := fun s =>
  mkSb (sb_magic s) (version s) (block_size s) (seg_size s) (total_segs s) (used_segs s)
    (free_segs s) (checkpoint_offset s) (checkpoint_seq s) (inode_table_start s)
    (root_inode_addr s) (sb_flags s) (feature_compat s) (feature_incompat s)
    (feature_ro_compat s) (creation_time s) (last_mount_time s) (mount_count s)
    (sb_checksum s) (uuid s) (volume_name s) (encryption_key_id s) (sb_pad s).

Definition sb_layout : list nat :=
  [8; 4; 4; 4; 8; 8; 8; 8; 8; 8; 8; 4; 4; 4; 4]%nat ++ replicate 112 1%nat ++ [8; 8; 8; 4]%nat
  ++ replicate 4060 1%nat.

Definition sb_fields (s : superblock) : list Z :=
  [sb_magic s; version s; block_size s; seg_size s; total_segs s; used_segs s; free_segs s;
   checkpoint_offset s; checkpoint_seq s; inode_table_start s; root_inode_addr s;
   sb_flags s; feature_compat s; feature_incompat s; feature_ro_compat s]
  ++ uuid s ++ volume_name s ++ encryption_key_id s
  ++ [creation_time s; last_mount_time s; mount_count s; sb_checksum s] ++ sb_pad s.

Definition sb_of_fields (l : list Z) : superblock :=
  mkSb l.[0] l.[1] l.[2] l.[3] l.[4] l.[5] l.[6] l.[7] l.[8] l.[9] l.[10] l.[11] l.[12] l.[13] l.[14]
    l.[127] l.[128] l.[129] l.[130]
    (take 16 (drop 15 l)) (take 64 (drop 31 l)) (take 32 (drop 95 l)) (drop 131 l).

Definition sb_bytes (s : superblock) : list Z := pack sb_layout (sb_fields s).
Definition SB_SIZE : Z := 4292.

Record inode_disk := mkInode {
  di_inode_no : Z; di_type : Z; di_mode : Z; uid : Z; gid : Z;
  size : Z; blocks : Z; atime : Z; mtime : Z; ctime : Z; nlink : Z;
  compression : Z; encryption : Z; encryption_iv : list Z;
  direct : list Z; indirect : Z; double_indirect : Z;
  inline_len : Z; inline_data : list Z; checksum : Z
}.
#[export] Instance eta_inode_disk : Eta inode_disk := fun i =>
  mkInode (di_inode_no i) (di_type i) (di_mode i) (uid i) (gid i) (size i) (blocks i)
    (atime i) (mtime i) (ctime i) (nlink i) (compression i) (encryption i)
    (encryption_iv i) (direct i) (indirect i) (double_indirect i) (inline_len i)
    (inline_data i) (checksum i).

Definition inode_layout : list nat :=
  [4; 4; 4; 4; 4; 8; 8; 8; 8; 8; 8; 4; 4]%nat ++ replicate 12 1%nat ++ replicate 12 8%nat
  ++ [8; 8; 4]%nat ++ replicate 4096 1%nat ++ [4]%nat.

Definition inode_fields (i : inode_disk) : list Z :=
  [di_inode_no i; di_type i; di_mode i; uid i; gid i; size i; blocks i; atime i; mtime i;
   ctime i; nlink i; compression i; encryption i]
  ++ encryption_iv i ++ direct i ++ [indirect i; double_indirect i; inline_len i]
  ++ inline_data i ++ [checksum i].

Definition inode_of_fields (l : list Z) : inode_disk :=
  mkInode l.[0] l.[1] l.[2] l.[3] l.[4] l.[5] l.[6] l.[7] l.[8] l.[9] l.[10] l.[11] l.[12]
    (take 12 (drop 13 l)) (take 12 (drop 25 l)) l.[37] l.[38] l.[39]
    (take 4096 (drop 40 l)) l.[4136].

Definition inode_bytes (i : inode_disk) : list Z := pack inode_layout (inode_fields i).
Definition INODE_SIZE : Z := 4304.

(** [memset(&inode, 0, sizeof(inode))] *)
Definition zero_inode : inode_disk := inode_of_fields (replicate 4137 0).
Definition zero_sb : superblock := sb_of_fields (replicate 4191 0).

(** [strncpy(field, s, n)] into a zeroed array of [size] bytes, for [n < size] *)
Definition str_field (size n : nat) (s : list Z) : list Z := take size (take n s ++ replicate size 0).

(** [crc32c]: reflected polynomial, a byte at a time *)
Definition crc_bit (crc : Z) : Z := Z.lxor (Z.shiftr crc 1) (Z.land 0x82F63B78 (u32 (- (Z.land crc 1)))).
Definition crc_byte (crc byte : Z) : Z := Nat.iter 8 crc_bit (Z.lxor crc byte).
Definition crc32c (bytes : list Z) : Z := u32 (Z.lnot (foldl crc_byte 0xFFFFFFFF bytes)).

(** * The block device

    [struct block_device] is a table of function pointers filled in by a driver.
    What [crfs.c] relies on: a byte written at an offset is the byte read there. *)
Class BlockDevice (D : Type) := {
  bd_size : D -> Z;
  bd_byte : D -> Z -> Z;
  bd_write : D -> Z -> list Z -> D;
  bd_flush : D -> D;
  bd_byte_range d x : 0 <= bd_byte d x < 256;
  bd_write_byte d a l x :
    bd_byte (bd_write d a l) x = if in_range a (zlen l) x then u8 l.[x - a] else bd_byte d x;
  bd_write_size d a l : bd_size (bd_write d a l) = bd_size d;
  bd_flush_byte d x : bd_byte (bd_flush d) x = bd_byte d x
}.

(** * State *)

(** [crfs_inode_t]; [hash_next] is the order of the chain in [inode_cache] *)
Record inode := mkIn { inode_no : Z; ref_count : Z; dirty : Z; disk : inode_disk }.
#[export] Instance eta_inode : Eta inode := fun i => mkIn (inode_no i) (ref_count i) (dirty i) (disk i).
#[export] Instance inode_inhabited : Inhabited inode := populate (mkIn 0 0 0 zero_inode).

(** [crfs_file_t] *)
Record file := mkFile { in_use : Z; flags : Z; offset : Z; finode : Z }.
#[export] Instance eta_file : Eta file := fun f => mkFile (in_use f) (flags f) (offset f) (finode f).
#[export] Instance file_inhabited : Inhabited file := populate (mkFile 0 0 0 (-1)).

(** [*g_fs], the two static variables of [crfs_alloc_block] and the device *)
Record fs {D : Type} := mkFs {
  mounted : bool;
  sb : superblock;
  inode_cache : list (list Z);
  inodes : list inode;
  files : list file;
  seg_bitmap : list Z;
  next_seg : Z;
  read_bytes : Z; write_bytes : Z; read_ops : Z; write_ops : Z;
  block_in_seg : Z;
  current_seg : Z;
  dev : D
}.
Arguments fs : clear implicits.
#[export] Instance eta_fs {D} : Eta (fs D) := fun s =>
  mkFs D (mounted s) (sb s) (inode_cache s) (inodes s) (files s) (seg_bitmap s) (next_seg s)
    (read_bytes s) (write_bytes s) (read_ops s) (write_ops s) (block_in_seg s) (current_seg s) (dev s).

Section crfs.
Context {D : Type} `{BD : BlockDevice D}.
(** Whether [kmalloc] succeeds for the n-th inode object; the bytes behind a local buffer *)
Context (kmalloc_ok : Z -> bool) (beyond : Z -> Z).
Notation crfs := (fs D).

Definition mod_inode (s : crfs) (p : Z) (f : inode -> inode) : crfs :=
  s <| inodes := (inodes s).[p <- f (inodes s).[p]] |>.
Definition mod_disk (s : crfs) (p : Z) (f : inode_disk -> inode_disk) : crfs :=
  mod_inode s p (fun i => i <| disk := f (disk i) |>).
Definition set_dirty (s : crfs) (p : Z) : crfs := mod_inode s p (fun i => i <| dirty := 1 |>).
Definition idisk (s : crfs) (p : Z) : inode_disk := disk (inodes s).[p].

(** * Blocks *)

(** [read(bdev, off, buf, len)] *)
Definition bd_read (d : D) (a n : Z) : list Z := map (bd_byte d) (seqZ a n).

Definition crfs_read_block (s : crfs) (a : Z) : list Z := bd_read (dev s) a CRFS_BLOCK_SIZE.
Definition crfs_write_block (s : crfs) (a : Z) (buf : list Z) : crfs :=
  s <| dev := bd_write (dev s) a (take 4096 buf) |>.

(** [crfs_read_block(a, ptrs)] and [crfs_write_block(a, ptrs)] for [uint64_t ptrs[512]] *)
Definition read_ptrs (s : crfs) (a : Z) : list Z :=
  map (fun i => load64 (bd_byte (dev s)) (a + 8 * i)) (seqZ 0 CRFS_PTRS_PER_BLOCK).
Definition write_ptrs (s : crfs) (a : Z) (ptrs : list Z) : crfs :=
  s <| dev := bd_write (dev s) a (flat_map (le_bytes 8) ptrs) |>.
Definition zero_ptrs : list Z := replicate 512 0.

(** [bitmap[i / 8] & (1 << (i % 8))] *)
Definition seg_used (s : crfs) (i : Z) : bool :=
  negb (Z.land (seg_bitmap s).[i / 8] (Z.shiftl 1 (i mod 8)) =? 0).

Definition take_segment (s : crfs) (i : Z) : crfs :=
  s <| seg_bitmap := (seg_bitmap s).[i / 8 <- bit_set (seg_bitmap s).[i / 8] (i mod 8)] |>
    <| sb := (sb s) <| used_segs := u64 (used_segs (sb s) + 1) |>
                  <| free_segs := u64 (free_segs (sb s) - 1) |> |>
    <| next_seg := u64 (i + 1) |>.

Definition crfs_alloc_segment (s : crfs) : crfs * option Z :=
  match find_from (fun i => negb (seg_used s i)) (Z.to_nat (total_segs (sb s) - next_seg s)) (next_seg s) with
  | Some i => (take_segment s i, Some i)
  | None => (s, None)
  end.

Definition alloc_in_seg (s : crfs) : crfs * option Z :=
  (s <| block_in_seg := block_in_seg s + 1 |>,
   Some (u64 (current_seg s * CRFS_SEG_SIZE + block_in_seg s * CRFS_BLOCK_SIZE))).

Definition crfs_alloc_block (s : crfs) : crfs * option Z :=
  if (current_seg s =? 0) || (CRFS_BLOCKS_PER_SEG <=? block_in_seg s) then
    match crfs_alloc_segment s with
    | (s1, None) => (s1, None)
    | (s1, Some i) => alloc_in_seg (s1 <| current_seg := i |> <| block_in_seg := 0 |>)
    end
  else alloc_in_seg s.

Definition crfs_free_block (s : crfs) (a : Z) : crfs :=
  let seg := a / CRFS_SEG_SIZE in
  s <| seg_bitmap := (seg_bitmap s).[seg / 8 <- bit_clear (seg_bitmap s).[seg / 8] (seg mod 8)] |>
    <| sb := (sb s) <| used_segs := u64 (used_segs (sb s) - 1) |>
                  <| free_segs := u64 (free_segs (sb s) + 1) |> |>.

(** * Inodes *)

Definition inode_addr (s : crfs) (no : Z) : Z :=
  u64 (inode_table_start (sb s) * CRFS_SEG_SIZE + no * INODE_SIZE).

(** The 4096 bytes read over the zeroed 4304-byte struct *)
Definition crfs_read_inode (s : crfs) (no : Z) : inode_disk :=
  inode_of_fields (unpack inode_layout
    (fun x => if x <? CRFS_BLOCK_SIZE then bd_byte (dev s) (inode_addr s no + x) else 0) 0).

Definition crfs_iget (s : crfs) (no : Z) : crfs * option Z :=
  let hash := no mod 256 in
  match List.find (fun p => inode_no (inodes s).[p] =? no) (inode_cache s).[hash] with
  | Some p => (mod_inode s p (fun i => i <| ref_count := u32 (ref_count i + 1) |>), Some p)
  | None =>
      let p := zlen (inodes s) in
      if kmalloc_ok p then
        (s <| inodes := inodes s ++ [mkIn no 1 0 (crfs_read_inode s no)] |>
           <| inode_cache := (inode_cache s).[hash <- p :: (inode_cache s).[hash]] |>, Some p)
      else (s, None)
  end.

Definition crfs_write_inode (s : crfs) (p : Z) : crfs :=
  let s1 := mod_disk s p (fun i => i <| checksum := crc32c (take 4300 (inode_bytes i)) |>) in
  crfs_write_block s1 (inode_addr s1 (inode_no (inodes s1).[p])) (inode_bytes (idisk s1 p)).

Definition crfs_iput (s : crfs) (p : Z) : crfs :=
  let s1 := mod_inode s p (fun i => i <| ref_count := u32 (ref_count i - 1) |>) in
  let i := (inodes s1).[p] in
  if (ref_count i =? 0) && negb (dirty i =? 0) then crfs_write_inode s1 p else s1.

Definition crfs_inode_get_block (s : crfs) (i : inode_disk) (block_no : Z) : Z :=
  if block_no <? CRFS_INDIRECT_BASE then (direct i).[block_no] else
  let block_no := block_no - CRFS_INDIRECT_BASE in
  if block_no <? CRFS_PTRS_PER_BLOCK then
    if indirect i =? 0 then 0 else (read_ptrs s (indirect i)).[block_no]
  else
  let block_no := block_no - CRFS_PTRS_PER_BLOCK in
  if block_no <? CRFS_PTRS_PER_BLOCK * CRFS_PTRS_PER_BLOCK then
    if double_indirect i =? 0 then 0 else
    let l1_addr := (read_ptrs s (double_indirect i)).[block_no / CRFS_PTRS_PER_BLOCK] in
    if l1_addr =? 0 then 0 else (read_ptrs s l1_addr).[block_no mod CRFS_PTRS_PER_BLOCK]
  else 0.

(** [ptrs] read, one entry changed, written back *)
Definition store_ptr (s : crfs) (a idx v : Z) : crfs := write_ptrs s a ((read_ptrs s a).[idx <- v]).

(** A new zeroed block of pointers *)
Definition alloc_ptrs (s : crfs) : crfs * option Z :=
  match crfs_alloc_block s with
  | (s1, Some a) => (write_ptrs s1 a zero_ptrs, Some a)
  | (s1, None) => (s1, None)
  end.

(** [if (!inode->disk.indirect) { ... }] *)
Definition ensure_indirect (s : crfs) (p : Z) : crfs * bool :=
  if indirect (idisk s p) =? 0 then
    match alloc_ptrs s with
    | (s1, Some a) => (mod_disk s1 p (fun i => i <| indirect := a |>), true)
    | (s1, None) => (s1, false)
    end
  else (s, true).

Definition ensure_double (s : crfs) (p : Z) : crfs * bool :=
  if double_indirect (idisk s p) =? 0 then
    match alloc_ptrs s with
    | (s1, Some a) => (mod_disk s1 p (fun i => i <| double_indirect := a |>), true)
    | (s1, None) => (s1, false)
    end
  else (s, true).

(** [if (!l1_ptrs[l1_idx]) { ... }], and the address of the second-level block *)
Definition ensure_l1 (s : crfs) (p l1_idx : Z) : crfs * option Z :=
  let dind := double_indirect (idisk s p) in
  let l1_ptrs := read_ptrs s dind in
  if l1_ptrs.[l1_idx] =? 0 then
    match alloc_ptrs s with
    | (s1, Some a) => (write_ptrs s1 dind (l1_ptrs.[l1_idx <- a]), Some a)
    | (s1, None) => (s1, None)
    end
  else (s, Some l1_ptrs.[l1_idx]).

Definition crfs_inode_set_block (s : crfs) (p block_no disk_addr : Z) : crfs * Z :=
  if block_no <? CRFS_INDIRECT_BASE then
    (set_dirty (mod_disk s p (fun i => i <| direct := (direct i).[block_no <- disk_addr] |>)) p, 0)
  else
  let block_no := block_no - CRFS_INDIRECT_BASE in
  if block_no <? CRFS_PTRS_PER_BLOCK then
    match ensure_indirect s p with
    | (s1, false) => (s1, -1)
    | (s1, true) => (set_dirty (store_ptr s1 (indirect (idisk s1 p)) block_no disk_addr) p, 0)
    end
  else
  let block_no := block_no - CRFS_PTRS_PER_BLOCK in
  if block_no <? CRFS_PTRS_PER_BLOCK * CRFS_PTRS_PER_BLOCK then
    let l1_idx := block_no / CRFS_PTRS_PER_BLOCK in
    let l2_idx := block_no mod CRFS_PTRS_PER_BLOCK in
    match ensure_double s p with
    | (s1, false) => (s1, -1)
    | (s1, true) =>
        match ensure_l1 s1 p l1_idx with
        | (s2, None) => (s2, -1)
        | (s2, Some l1) => (set_dirty (store_ptr s2 l1 l2_idx disk_addr) p, 0)
        end
    end
  else (s, -1).

(** * Directories

    The stack frame of the directory functions: the block buffer at 0 with what
    lies behind it, and the name, NUL-terminated, at [NAME]. *)

Definition NAME : Z := 2 ^ 40.
Definition frame (block name : list Z) : mem := fun x =>
  if NAME <=? x then (name ++ [0]).[x - NAME]
  else if in_range 0 CRFS_BLOCK_SIZE x then block.[x] else beyond x.

Definition de_inode_no (m : mem) (off : Z) : Z := load_le 4 m off.
Definition de_rec_len (m : mem) (off : Z) : Z := load_le 2 m (off + 4).
Definition de_name_len (m : mem) (off : Z) : Z := m (off + 6).
Definition de_name (off : Z) : Z := off + 8.

(** The inner loop of [crfs_dir_lookup]: a record of length 0 ends it, so every
    round moves on and [4096] rounds are enough. *)
Fixpoint lookup_block (fuel : nat) (m : mem) (off : Z) : option Z :=
  match fuel with
  | O => None
  | S f =>
      if CRFS_BLOCK_SIZE <=? off then None
      else if de_inode_no m off =? 0 then None
      else if de_rec_len m off =? 0 then None
      else if strncmp (Z.to_nat (de_name_len m off)) m (de_name off) NAME =? 0 then Some (de_inode_no m off)
      else lookup_block f m (off + de_rec_len m off)
  end.

Fixpoint lookup_blocks (n : nat) (s : crfs) (i : inode_disk) (name : list Z) (b : Z) : option Z :=
  match n with
  | O => None
  | S n' =>
      let a := crfs_inode_get_block s i b in
      if a =? 0 then lookup_blocks n' s i name (b + 1) else
      match lookup_block 4096 (frame (crfs_read_block s a) name) 0 with
      | Some ino => Some ino
      | None => lookup_blocks n' s i name (b + 1)
      end
  end.

(** [Some ino]: found (result 0 and [*out_inode]); [None]: result -1 *)
Definition crfs_dir_lookup (s : crfs) (p : Z) (name : list Z) : option Z :=
  lookup_blocks (Z.to_nat (blocks (idisk s p))) s (idisk s p) name 0.

Definition align4 (n : Z) : Z := Z.land (n + 3) (Z.lnot 3).

(** The record stored in an empty slot at [off]; its bytes past the name stay *)
Definition dirent_bytes (no off ty : Z) (name : list Z) : list Z :=
  le_bytes 4 no ++ le_bytes 2 (CRFS_BLOCK_SIZE - off) ++ [u8 (zlen name); u8 ty] ++ name ++ [0].

(** [memcpy(block_buf + off, data, len)] *)
Definition splice (block : list Z) (off : Z) (data : list Z) : list Z :=
  take (Z.to_nat off) block ++ data ++ drop (Z.to_nat (off + zlen data)) block.

(** The inner loop of [crfs_dir_add], which does not look for records of length 0:
    [None] when it never ends or writes past the buffer, [Some None] when the block
    has no empty slot. *)
Fixpoint add_block (fuel : nat) (block : list Z) (name : list Z) (no ty off : Z) : option (option (list Z)) :=
  match fuel with
  | O => None
  | S f =>
      if CRFS_BLOCK_SIZE <=? off then Some None
      else if de_inode_no (frame block name) off =? 0 then
        let de := dirent_bytes no off ty name in
        if CRFS_BLOCK_SIZE <? off + zlen de then None else Some (Some (splice block off de))
      else add_block f block name no ty (off + de_rec_len (frame block name) off)
  end.

(** [if (addr == 0) { ... }]: a failed allocation leaves the address 0 *)
Definition dir_block (s : crfs) (p b : Z) : crfs * Z :=
  let a := crfs_inode_get_block s (idisk s p) b in
  if a =? 0 then
    let '(s1, r) := crfs_alloc_block s in
    let a1 := default 0 r in
    let '(s2, _) := crfs_inode_set_block s1 p b a1 in
    (crfs_write_block s2 a1 (replicate 4096 0), a1)
  else (s, a).

Fixpoint add_blocks (n : nat) (s : crfs) (p : Z) (name : list Z) (no ty b : Z) : option (crfs * Z) :=
  match n with
  | O => Some (s, -1)
  | S n' =>
      let '(s1, a) := dir_block s p b in
      match add_block 4097 (crfs_read_block s1 a) name no ty 0 with
      | None => None
      | Some (Some block) => Some (set_dirty (crfs_write_block s1 a block) p, 0)
      | Some None => add_blocks n' s1 p name no ty (b + 1)
      end
  end.

Definition crfs_dir_add (s : crfs) (p : Z) (name : list Z) (no ty : Z) : option (crfs * Z) :=
  add_blocks (Z.to_nat (Z.max 1 (blocks (idisk s p)))) s p name no ty 0.

Definition crfs_dir_remove (s : crfs) (p : Z) (name : list Z) : crfs * Z := (s, 0).

(** * Files *)

Definition mod_file (s : crfs) (fd : Z) (f : file -> file) : crfs :=
  s <| files := (files s).[fd <- f (files s).[fd]] |>.
Definition bad_fd (fd : Z) : bool := (fd <? 0) || (CRFS_MAX_OPEN <=? fd).

(** The data returned by the read loop *)
Fixpoint read_loop (fuel : nat) (s : crfs) (i : inode_disk) (off count total : Z) : option (list Z) :=
  if count <=? total then Some [] else
  match fuel with
  | O => None
  | S f =>
      let pos := u64 (off + total) in
      let block_no := u32 (Z.shiftr pos CRFS_BLOCK_SHIFT) in
      let block_off := Z.land pos (CRFS_BLOCK_SIZE - 1) in
      let to_read := Z.min (CRFS_BLOCK_SIZE - block_off) (count - total) in
      let disk_addr := crfs_inode_get_block s i block_no in
      let chunk :=
        if disk_addr =? 0 then replicate (Z.to_nat to_read) 0
        else take (Z.to_nat to_read) (drop (Z.to_nat block_off) (crfs_read_block s disk_addr)) in
      option_map (app chunk) (read_loop f s i off count (total + to_read))
  end.

(** Enough rounds: all but the first and the last move a whole block *)
Definition io_fuel (count : Z) : nat := Z.to_nat (count / CRFS_BLOCK_SIZE + 2).

Definition crfs_read (s : crfs) (fd count now : Z) : option (crfs * list Z * Z) :=
  if bad_fd fd then Some (s, [], -1)
  else if negb (mounted s) then None
  else
    let f := (files s).[fd] in
    if (in_use f =? 0) || (finode f =? -1) then Some (s, [], -1) else
    let i := idisk s (finode f) in
    if size i <=? offset f then Some (s, [], 0) else
    let count := if size i <? u64 (offset f + count) then size i - offset f else count in
    match read_loop (io_fuel count) s i (offset f) count 0 with
    | None => None
    | Some data =>
        let s1 := mod_file s fd (fun f => f <| offset := u64 (offset f + count) |>) in
        let s2 := s1 <| read_bytes := u64 (read_bytes s1 + count) |> <| read_ops := u64 (read_ops s1 + 1) |> in
        Some (mod_disk s2 (finode f) (fun i => i <| atime := now |>), data, count)
    end.

(** One round of the write loop *)
Definition write_block (s : crfs) (p block_no block_off : Z) (chunk : list Z) : option crfs :=
  let old_addr := crfs_inode_get_block s (idisk s p) block_no in
  let block_buf :=
    if negb (old_addr =? 0) && negb (block_off =? 0) then crfs_read_block s old_addr
    else replicate 4096 0 in
  match crfs_alloc_block s with
  | (_, None) => None
  | (s1, Some new_addr) =>
      let s2 := crfs_write_block s1 new_addr (splice block_buf block_off chunk) in
      let '(s3, _) := crfs_inode_set_block s2 p block_no new_addr in
      Some (if old_addr =? 0 then s3 else crfs_free_block s3 old_addr)
  end.

Fixpoint write_loop (fuel : nat) (s : crfs) (p off : Z) (data : list Z) (total : Z) : option crfs :=
  match data with
  | [] => Some s
  | _ =>
      match fuel with
      | O => None
      | S f =>
          let pos := u64 (off + total) in
          let block_no := u32 (Z.shiftr pos CRFS_BLOCK_SHIFT) in
          let block_off := Z.land pos (CRFS_BLOCK_SIZE - 1) in
          let to_write := Z.min (CRFS_BLOCK_SIZE - block_off) (zlen data) in
          match write_block s p block_no block_off (take (Z.to_nat to_write) data) with
          | None => None
          | Some s1 => write_loop f s1 p off (drop (Z.to_nat to_write) data) (total + to_write)
          end
      end
  end.

Definition crfs_journal_begin (s : crfs) : crfs * Z := (s, 0).
Definition crfs_journal_commit (s : crfs) : crfs * Z := (s, 0).

(** [if (f->offset + total > size) ...] *)
Definition grow (now e : Z) (i : inode_disk) : inode_disk :=
  (if size i <? e then i <| size := e |> <| blocks := u32 (Z.shiftr (u64 (e + CRFS_BLOCK_SIZE - 1)) CRFS_BLOCK_SHIFT) |>
   else i) <| mtime := now |>.

Definition crfs_write (s : crfs) (fd : Z) (data : list Z) (now : Z) : option (crfs * Z) :=
  if bad_fd fd then Some (s, -1)
  else if negb (mounted s) then None
  else
    let f := (files s).[fd] in
    if (in_use f =? 0) || (finode f =? -1) then Some (s, -1)
    else if Z.land (flags f) (Z.lor O_WRONLY O_RDWR) =? 0 then Some (s, -1)
    else
      let s := fst (crfs_journal_begin s) in
      let p := finode f in
      let total := zlen data in
      match write_loop (io_fuel total) s p (offset f) data 0 with
      | None => None
      | Some s1 =>
          let s2 := mod_disk s1 p (grow now (u64 (offset f + total))) in
          let s3 := mod_file s2 fd (fun f => f <| offset := u64 (offset f + total) |>) in
          let s4 := set_dirty s3 p in
          let s5 := s4 <| write_bytes := u64 (write_bytes s4 + total) |> <| write_ops := u64 (write_ops s4 + 1) |> in
          Some (fst (crfs_journal_commit s5), total)
      end.

Definition crfs_close (s : crfs) (fd : Z) : option crfs :=
  if bad_fd fd then Some s
  else if negb (mounted s) then None
  else
    let f := (files s).[fd] in
    if in_use f =? 0 then Some s else
    let p := finode f in
    let s1 := if p =? -1 then s else
              let s1 := if dirty (inodes s).[p] =? 0 then s else crfs_write_inode s p in
              crfs_iput s1 p in
    Some (mod_file s1 fd (fun f => f <| in_use := 0 |> <| finode := -1 |>)).

(** * Format and mount *)

Definition new_sb (total now : Z) (id vol : list Z) : superblock :=
  let s := zero_sb
    <| sb_magic := CRFS_MAGIC |> <| version := CRFS_VERSION |> <| block_size := CRFS_BLOCK_SIZE |>
    <| seg_size := CRFS_SEG_SIZE |> <| total_segs := total |> <| used_segs := 4 |>
    <| free_segs := total - 4 |> <| checkpoint_offset := CRFS_SEG_SIZE |> <| checkpoint_seq := 1 |>
    <| inode_table_start := 3 |> <| root_inode_addr := 3 * CRFS_SEG_SIZE |>
    <| creation_time := now |> <| last_mount_time := now |>
    <| volume_name := str_field 64 63 vol |> <| uuid := id |> in
  s <| sb_checksum := crc32c (take 4288 (sb_bytes s)) |>.

Definition ROOT_DATA : Z := 4 * CRFS_SEG_SIZE.
(** [0755 | S_IFDIR] *)
Definition ROOT_MODE : Z := Z.lor 0x1ED S_IFDIR.

Definition new_root (now : Z) : inode_disk :=
  let i := zero_inode
    <| di_inode_no := CRFS_ROOT_INO |> <| di_type := CRFS_TYPE_DIR |> <| di_mode := ROOT_MODE |>
    <| size := CRFS_BLOCK_SIZE |> <| blocks := 1 |> <| atime := now |> <| mtime := now |> <| ctime := now |>
    <| nlink := 2 |> <| compression := CRFS_COMP_LZ4 |>
    <| direct := ROOT_DATA :: replicate 11 0 |> in
  i <| checksum := crc32c (take 4300 (inode_bytes i)) |>.

(** The records of ["."] and [".."] *)
Definition root_block : list Z :=
  le_bytes 4 CRFS_ROOT_INO ++ le_bytes 2 12 ++ [1; CRFS_TYPE_DIR; 46; 0; 0; 0] ++
  le_bytes 4 CRFS_ROOT_INO ++ le_bytes 2 (CRFS_BLOCK_SIZE - 12) ++ [2; CRFS_TYPE_DIR; 46; 46; 0] ++
  replicate 4073 0.

(** [id]: the bytes of the random number generator; [t1], [t2]: the two readings
    of the uptime *)
Definition crfs_format (d : D) (vol id : list Z) (t1 t2 : Z) : D * Z :=
  let total := bd_size d / CRFS_SEG_SIZE in
  if total <? 16 then (d, -1) else
  let s := new_sb total t1 id vol in
  let d1 := bd_write d 0 (sb_bytes s) in
  let d2 := bd_write d1 CRFS_BLOCK_SIZE (sb_bytes s) in
  let d3 := bd_write d2 (root_inode_addr s) (inode_bytes (new_root t2)) in
  let d4 := bd_write d3 ROOT_DATA root_block in
  let d5 := bd_write d4 (checkpoint_offset s) (sb_bytes s) in
  (bd_flush d5, 0).

(** The 4292 bytes copied out of the 4096-byte buffer the superblock is read into *)
Definition read_sb (d : D) : superblock :=
  sb_of_fields (unpack sb_layout (fun x => if x <? CRFS_BLOCK_SIZE then bd_byte d x else beyond x) 0).

(** [for (i = 0; i < 5; i++) seg_bitmap[i / 8] |= 1 << (i % 8)] *)
Definition mark_system (bm : list Z) : list Z :=
  foldl (fun bm i => bm.[i / 8 <- bit_set bm.[i / 8] (i mod 8)]) bm (seqZ 0 5).

Definition no_file : file := mkFile 0 0 0 (-1).

(** [mem_ok]: whether [kcalloc] succeeds (the bitmap is taken to get its memory);
    [block_in_seg] and [current_seg] are static and survive a mount *)
Definition crfs_mount (s0 : crfs) (mem_ok : bool) (now : Z) : crfs * Z :=
  if negb mem_ok then (s0 <| mounted := false |>, -1) else
  let d := dev s0 in
  let b := read_sb d in
  if negb (sb_magic b =? CRFS_MAGIC) then (s0 <| mounted := false |>, -1) else
  let b := b <| last_mount_time := now |> <| mount_count := u64 (mount_count b + 1) |> in
  let bitmap_segs := u64 (total_segs b + 7) / 8 in
  let bm := bd_read d (2 * CRFS_SEG_SIZE) bitmap_segs in
  (mkFs D true b (replicate 256 []) [] (replicate 1024 no_file) (mark_system bm) 5
     0 0 0 0 (block_in_seg s0) (current_seg s0) d, 0).

(** * Opening by path *)

Definition SLASH : Z := 47.

(** The walk along the directories of the path: the directory reached and the last
    component *)
Fixpoint walk_path (fuel : nat) (s : crfs) (p : Z) (token : list Z) : option (crfs * option (Z * list Z)) :=
  match first_idx SLASH token with
  | None => Some (s, Some (p, token))
  | Some n =>
      match fuel with
      | O => None
      | S f =>
          let name := take (Z.to_nat n) token in
          let rest := drop (Z.to_nat n + 1) token in
          if zlen name =? 0 then walk_path f s p rest else
          match crfs_dir_lookup s p name with
          | None => Some (crfs_iput s p, None)
          | Some child_ino =>
              let '(s1, c) := crfs_iget s child_ino in
              let s2 := crfs_iput s1 p in
              match c with
              | None => Some (s2, None)
              | Some c =>
                  if negb (di_type (idisk s2 c) =? CRFS_TYPE_DIR) then Some (crfs_iput s2 c, None)
                  else walk_path f s2 c rest
              end
          end
      end
  end.

Definition new_inode (no flags mode now : Z) : inode_disk :=
  let i := zero_inode
    <| di_inode_no := no |>
    <| di_type := (if Z.land flags O_DIRECTORY =? 0 then CRFS_TYPE_REG else CRFS_TYPE_DIR) |>
    <| di_mode := mode |> <| atime := now |> <| mtime := now |> <| ctime := now |>
    <| nlink := 1 |> <| compression := CRFS_COMP_LZ4 |> in
  i <| checksum := crc32c (take 4300 (inode_bytes i)) |>.

Definition new_ino (us : Z) : Z := let n := Z.land us 0xFFFFFFFF in if n <=? 1 then 2 else n.

(** The body of [if (flags & O_CREAT)]: the new inode number; the result of
    [crfs_dir_add] is not looked at *)
Definition create_file (s : crfs) (p : Z) (name : list Z) (flags mode us ms : Z) : option (crfs * Z) :=
  let no := new_ino us in
  let i := new_inode no flags mode ms in
  match crfs_alloc_block s with
  | (_, None) => None
  | (s1, Some a) =>
      let s2 := crfs_write_block s1 a (inode_bytes i) in
      match crfs_dir_add s2 p name no (u8 (di_type i)) with
      | None => None
      | Some (s3, _) => Some (s3, no)
      end
  end.

(** The tail of [crfs_open]: from the inode number to the descriptor *)
Definition open_inode (s : crfs) (no flags : Z) : crfs * Z :=
  match crfs_iget s no with
  | (s1, None) => (s1, -1)
  | (s1, Some c) =>
      let s2 := if negb (Z.land flags O_TRUNC =? 0) && (di_type (idisk s1 c) =? CRFS_TYPE_REG) then
                  set_dirty (mod_disk s1 c (fun i => i <| size := 0 |> <| blocks := 0 |>)) c
                else s1 in
      match find_from (fun i => in_use (files s2).[i] =? 0) 1024 0 with
      | Some i =>
          (mod_file s2 i (fun _ => mkFile 1 flags
             (if Z.land flags O_APPEND =? 0 then 0 else size (idisk s2 c)) c), i)
      | None => (crfs_iput s2 c, -1)
      end
  end.

Definition crfs_open (s : crfs) (path : list Z) (flags mode us ms : Z) : option (crfs * Z) :=
  if negb (mounted s) then Some (s, -1) else
  match crfs_iget s CRFS_ROOT_INO with
  | (s1, None) => Some (s1, -1)
  | (s1, Some dir) =>
      match walk_path 4096 s1 dir (take 4095 path) with
      | None => None
      | Some (s2, None) => Some (s2, -1)
      | Some (s2, Some (p, token)) =>
          if zlen token =? 0 then Some (crfs_iput s2 p, -1) else
          match crfs_dir_lookup s2 p token with
          | Some no => Some (open_inode (crfs_iput s2 p) no flags)
          | None =>
              if Z.land flags O_CREAT =? 0 then Some (crfs_iput s2 p, -1) else
              match create_file s2 p token flags mode us ms with
              | None => None
              | Some (s3, no) => Some (open_inode (crfs_iput s3 p) no flags)
              end
          end
      end
  end.

(** * Listing, checkpoint and placeholders *)

(** The inner loop of [crfs_readdir] over the block read to [block], storing the
    records to the array [entries] of 8-byte headers; memory and count *)
Fixpoint list_block (fuel : nat) (m : mem) (block entries max off count : Z) : mem * Z :=
  match fuel with
  | O => (m, count)
  | S f =>
      let de := block + off in
      if CRFS_BLOCK_SIZE <=? off then (m, count)
      else if de_inode_no m de =? 0 then (m, count)
      else if de_rec_len m de =? 0 then (m, count)
      else
        let e := entries + 8 * count in
        let m1 := memcpy m e de 8 in
        let m2 := strncpy (Z.to_nat (de_name_len m1 de)) m1 (de_name e) (de_name de) in
        let m3 := <[de_name e + de_name_len m2 de := 0]> m2 in
        if max <=? count + 1 then (m3, count + 1)
        else list_block f m3 block entries max (off + de_rec_len m3 de) (count + 1)
  end.

Definition load_block (m : mem) (a : Z) (bytes : list Z) : mem :=
  fun x => if in_range a (zlen bytes) x then bytes.[x - a] else m x.

Fixpoint list_blocks (n : nat) (s : crfs) (i : inode_disk) (m : mem) (block entries max b count : Z) : mem * Z :=
  match n with
  | O => (m, count)
  | S n' =>
      if max <=? count then (m, count) else
      let a := crfs_inode_get_block s i b in
      if a =? 0 then list_blocks n' s i m block entries max (b + 1) count else
      let '(m1, count1) := list_block 4096 (load_block m block (crfs_read_block s a)) block entries max 0 count in
      list_blocks n' s i m1 block entries max (b + 1) count1
  end.

(** [block]: the address of the local buffer *)
Definition crfs_readdir (s : crfs) (fd : Z) (m : mem) (block entries max : Z) : option (mem * Z) :=
  if bad_fd fd then Some (m, -1)
  else if negb (mounted s) then None
  else
    let f := (files s).[fd] in
    if (in_use f =? 0) || (finode f =? -1) || negb (di_type (idisk s (finode f)) =? CRFS_TYPE_DIR) then Some (m, -1)
    else
      let i := idisk s (finode f) in
      Some (list_blocks (Z.to_nat (blocks i)) s i m block entries max 0 0).

Definition crfs_unlink (s : crfs) (path : list Z) : crfs * Z := (s, 0).
Definition crfs_stat (s : crfs) (path : list Z) : inode_disk * Z := (zero_inode, 0).

Definition crfs_do_checkpoint (s : crfs) : crfs * Z :=
  let seq := u64 (checkpoint_seq (sb s) + 1) in
  let s1 := s <| sb := (sb s) <| checkpoint_seq := seq |>
                   <| checkpoint_offset := (if seq mod 2 =? 0 then 2 * CRFS_SEG_SIZE else CRFS_SEG_SIZE) |> |> in
  let s2 := crfs_write_block s1 0 (sb_bytes (sb s1)) in
  let n := u64 (total_segs (sb s2) + 7) / 8 in
  (s2 <| dev := bd_write (dev s2) (2 * CRFS_SEG_SIZE) (take (Z.to_nat n) (seg_bitmap s2)) |>, 0).

Definition crfs_sync (s : crfs) : crfs :=
  if negb (mounted s) then s else
  let s1 := fst (crfs_do_checkpoint s) in
  s1 <| dev := bd_flush (dev s1) |>.

Definition crfs_init : Z := 0.
End crfs.

(** * A RAM disk

    The simplest [BlockDevice]: the bytes that have been written, 0 elsewhere. *)
Record ramdisk := mkRam { ram_size : Z; ram : gmap Z Z }.

Fixpoint ram_store (m : gmap Z Z) (a : Z) (l : list Z) : gmap Z Z :=
  match l with [] => m | v :: l' => ram_store (<[a := v]> m) (a + 1) l' end.

Lemma ram_store_lookup m a l x :
  ram_store m a l !! x = if in_range a (zlen l) x then Some l.[x - a] else m !! x.
Proof.
  revert m a. induction l as [|v l IH]; intros m a; cbn [ram_store].
  - change (zlen (@nil Z)) with 0. destruct (in_range_spec a 0 x); [lia|done].
  - rewrite IH. unfold zlen in *. cbn [length].
    destruct (in_range_spec (a + 1) (Z.of_nat (length l)) x), (in_range_spec a (Z.of_nat (S (length l))) x); try lia.
    + f_equal. unfold aget. replace (Z.to_nat (x - a)) with (S (Z.to_nat (x - (a + 1)))) by lia. done.
    + replace x with a by lia. rewrite lookup_insert_eq. by rewrite Z.sub_diag.
    + by rewrite lookup_insert_ne by lia.
Qed.

#[export] Program Instance ramdisk_device : BlockDevice ramdisk := {
  bd_size d := ram_size d;
  bd_byte d x := u8 (default 0 (ram d !! x));
  bd_write d a l := mkRam (ram_size d) (ram_store (ram d) a l);
  bd_flush d := d
}.
Next Obligation. intros. apply u8_range. Qed.
Next Obligation. intros. cbn. rewrite ram_store_lookup. by destruct (in_range _ _ _). Qed.
Next Obligation. done. Qed.
Next Obligation. done. Qed.

(** * A small file system

    16 segments on a blank RAM disk, formatted and mounted; inode 5 open twice, for
    reading and writing, through descriptors 0 and 1. *)
Definition demo_dev : ramdisk := mkRam (16 * CRFS_SEG_SIZE) ∅.
Definition demo_format : ramdisk * Z := crfs_format demo_dev [97] (replicate 16 0) 0 0.
Definition demo_unmounted : fs ramdisk := mkFs ramdisk false zero_sb [] [] [] [] 0 0 0 0 0 0 0 (fst demo_format).
Definition demo_mounted : fs ramdisk := fst (crfs_mount (fun _ => 0) demo_unmounted true 0).
Definition demo_open (s : fs ramdisk) : fs ramdisk :=
  match crfs_open (fun _ => true) (fun _ => 0) s [97] (Z.lor O_CREAT O_RDWR) 0 5 0 with
  | Some (s', _) => s'
  | None => s
  end.
Definition demo_opened : fs ramdisk := demo_open (demo_open demo_mounted).
