(* ===== verification/CrfsMap.v ===== *)
(** The block allocator of CrimsonFS and the tree of block pointers of its inodes:
    blocks are handed out once and in increasing order, and [crfs_inode_set_block]
    and [crfs_inode_get_block] are the update and the look-up of a map from block
    numbers to addresses, for all inodes together. *)
From Stdlib Require Import Sorting.Sorted.
From S2P Require Import Prelude Pmm CString Crfs.

Lemma pair_eq_snd {A B} (x : A * B) b : snd x = b -> x = (fst x, b).
Proof. intros <-. by destruct x. Qed.

(** * Little-endian words *)

Lemma length_words l : length (flat_map (le_bytes 8) l) = (8 * length l)%nat.
Proof. induction l as [|v l IH]; [done|]. cbn [flat_map length]. rewrite length_app, length_le_bytes, IH. lia. Qed.

Lemma words_byte l q r :
  0 <= q < zlen l -> 0 <= r < 8 -> (flat_map (le_bytes 8) l).[8 * q + r] = (le_bytes 8 l.[q]).[r].
Proof.
  unfold zlen, aget. revert q. induction l as [|v l IH]; intros q Hq Hr; cbn [length] in Hq; [lia|].
  cbn [flat_map]. destruct (Z.eq_dec q 0) as [->|].
  - rewrite lookup_total_app_l by (rewrite length_le_bytes; lia). f_equal; lia.
  - rewrite lookup_total_app_r by (rewrite length_le_bytes; lia). rewrite length_le_bytes.
    replace (Z.to_nat (8 * q + r) - 8)%nat with (Z.to_nat (8 * (q - 1) + r)) by lia.
    rewrite (IH (q - 1)) by lia. do 2 f_equal.
    replace (Z.to_nat q) with (S (Z.to_nat (q - 1))) by lia. done.
Qed.

(** Two positions of a list without duplicates, as far as [P] holds *)
Lemma NoDup_filter_index (P : Z -> Prop) `{!forall x, Decision (P x)} (l : list Z) i j x :
  NoDup (filter P l) -> l !! i = Some x -> l !! j = Some x -> P x -> i = j.
Proof.
  revert i j. induction l as [|y l IH]; intros i j Hnd Hi Hj HP; [done|].
  rewrite filter_cons in Hnd.
  assert (Hnd' : NoDup (filter P l)) by (destruct (decide (P y)); [by apply NoDup_cons_1_2 in Hnd|done]).
  assert (Hx : forall k, l !! k = Some x -> y = x -> False).
  { intros k Hk ->. rewrite decide_True in Hnd by done. apply NoDup_cons_1_1 in Hnd. apply Hnd.
    apply list_elem_of_filter. split; [done|]. by eapply list_elem_of_lookup_2. }
  destruct i as [|i], j as [|j]; cbn in Hi, Hj; [done| | |f_equal; by apply IH].
  - injection Hi as Hi. by destruct (Hx j).
  - injection Hj as Hj. by destruct (Hx i).
Qed.

(** * Pointer blocks *)

Section map.
Context {D : Type} `{BD : BlockDevice D}.
Notation crfs := (fs D).
Implicit Types s : crfs.

Notation byte s x := (bd_byte (dev s) x).

(** The j-th pointer of the block at [a] *)
Definition ptr (d : D) (a j : Z) : Z := load64 (bd_byte d) (a + 8 * j).

Definition block_same (d d' : D) (a : Z) : Prop := forall x, a <= x < a + 4096 -> bd_byte d' x = bd_byte d x.

Lemma ptr_range d a j : 0 <= ptr d a j < 2 ^ 64.
Proof. apply (load_le_range 8). intros. apply bd_byte_range. Qed.

Lemma ptr_same d d' a j : block_same d d' a -> 0 <= j < 512 -> ptr d' a j = ptr d a j.
Proof. intros H Hj. apply load_le_ext. intros i Hi. apply H. lia. Qed.

Lemma read_ptrs_get s a j : 0 <= j < 512 -> (read_ptrs s a).[j] = ptr (dev s) a j.
Proof.
  intros Hj. unfold aget, read_ptrs.
  rewrite (list_lookup_total_correct _ _ (ptr (dev s) a j)); [done|].
  rewrite list_lookup_fmap, lookup_seqZ_lt by (unfold CRFS_PTRS_PER_BLOCK; lia).
  cbn [fmap option_fmap option_map]. unfold ptr. do 3 f_equal. lia.
Qed.

Lemma zlen_read_ptrs s a : zlen (read_ptrs s a) = 512.
Proof. unfold zlen, read_ptrs. by rewrite length_map, length_seqZ. Qed.

Lemma write_ptrs_other s a l x :
  zlen l = 512 -> ~ a <= x < a + 4096 -> byte (write_ptrs s a l) x = byte s x.
Proof.
  unfold zlen. intros Hl Hx. unfold write_ptrs. rec_simpl. rewrite bd_write_byte.
  destruct (in_range_spec a (zlen (flat_map (le_bytes 8) l)) x); [|done].
  unfold zlen in *. rewrite length_words in *. lia.
Qed.

Lemma ptr_write_ptrs s a l j :
  zlen l = 512 -> 0 <= j < 512 -> 0 <= l.[j] < 2 ^ 64 -> ptr (dev (write_ptrs s a l)) a j = l.[j].
Proof.
  unfold zlen. intros Hl Hj Hv. unfold ptr, load64.
  rewrite (load_le_bytes 8 _ _ l.[j]).
  - change (256 ^ Z.of_nat 8) with (2 ^ 64). apply Z.mod_small. lia.
  - intros i Hi. unfold write_ptrs. rec_simpl. rewrite bd_write_byte.
    destruct (in_range_spec a (zlen (flat_map (le_bytes 8) l)) (a + 8 * j + i)) as [|Hn].
    + replace (a + 8 * j + i - a) with (8 * j + i) by lia.
      rewrite words_byte by (unfold zlen; lia). apply u8_id, le_bytes_range.
    + unfold zlen in Hn. rewrite length_words in Hn. lia.
Qed.

Lemma ptr_zero_ptrs s a j : 0 <= j < 512 -> ptr (dev (write_ptrs s a zero_ptrs)) a j = 0.
Proof.
  intros Hj. assert (E : zero_ptrs.[j] = 0) by (apply (aget_replicate 512); lia).
  rewrite ptr_write_ptrs; rewrite ?E; done || lia.
Qed.

Lemma ptr_store_ptr s a idx v j :
  0 <= idx < 512 -> 0 <= j < 512 -> 0 <= v < 2 ^ 64 ->
  ptr (dev (store_ptr s a idx v)) a j = if j =? idx then v else ptr (dev s) a j.
Proof.
  intros Hi Hj Hv. unfold store_ptr.
  assert (E : (read_ptrs s a).[idx <- v].[j] = if j =? idx then v else ptr (dev s) a j).
  { rewrite aget_aset by (rewrite ?zlen_read_ptrs; lia). rewrite (Z.eqb_sym idx j).
    destruct (j =? idx); [done|]. by apply read_ptrs_get. }
  rewrite ptr_write_ptrs; rewrite ?zlen_aset, ?zlen_read_ptrs, ?E; try done.
  destruct (j =? idx); [done|]. apply ptr_range.
Qed.

Lemma store_ptr_other s a idx v x :
  ~ a <= x < a + 4096 -> byte (store_ptr s a idx v) x = byte s x.
Proof. intros. apply write_ptrs_other; [|done]. by rewrite zlen_aset, zlen_read_ptrs. Qed.

(** * The allocator *)

(** Everything the allocator leaves alone *)
Definition rest_same s s' : Prop :=
  dev s' = dev s /\ inodes s' = inodes s /\ files s' = files s /\ mounted s' = mounted s /\
  inode_cache s' = inode_cache s /\ total_segs (sb s') = total_segs (sb s) /\
  inode_table_start (sb s') = inode_table_start (sb s).

(** The first address that has not been handed out *)
Definition frontier s : Z :=
  if current_seg s =? 0 then next_seg s * CRFS_SEG_SIZE
  else current_seg s * CRFS_SEG_SIZE + block_in_seg s * CRFS_BLOCK_SIZE.

Definition free_segs_left s : list Z :=
  filter (fun i => seg_used s i = false) (seqZ (next_seg s) (total_segs (sb s) - next_seg s)).

(** The number of blocks that can still be handed out *)
Definition avail s : Z :=
  (if current_seg s =? 0 then 0 else CRFS_BLOCKS_PER_SEG - block_in_seg s) + 512 * zlen (free_segs_left s).

Record alloc_wf s : Prop := {
  aw_next : 0 < next_seg s;
  aw_total : total_segs (sb s) * CRFS_SEG_SIZE < 2 ^ 64;
  aw_block : 0 <= block_in_seg s <= CRFS_BLOCKS_PER_SEG;
  aw_cur : current_seg s = 0 \/
           0 < current_seg s /\ current_seg s + 1 = next_seg s /\ current_seg s < total_segs (sb s)
}.

Lemma seg_used_testbit s i : seg_used s i = Z.testbit (seg_bitmap s).[i / 8] (i mod 8).
Proof.
  unfold seg_used. set (w := (seg_bitmap s).[i / 8]).
  assert (0 <= i mod 8) by (apply Z.mod_pos_bound; lia).
  destruct (Z.testbit w (i mod 8)) eqn:E.
  - destruct (Z.eqb_spec (Z.land w (Z.shiftl 1 (i mod 8))) 0) as [H0|]; [|done].
    apply (f_equal (fun z => Z.testbit z (i mod 8))) in H0.
    rewrite Z.land_spec, testbit_shiftl_1, E, Z.eqb_refl, Z.testbit_0_l in H0 by lia. done.
  - replace (Z.land w (Z.shiftl 1 (i mod 8))) with 0; [done|]. symmetry. apply Z.bits_inj'. intros n Hn.
    rewrite Z.land_spec, testbit_shiftl_1, Z.testbit_0_l by lia.
    destruct (Z.eqb_spec n (i mod 8)) as [->|]; [by rewrite E|]. apply andb_false_r.
Qed.

(** Setting or clearing the bit of one segment leaves the others *)
Lemma seg_used_other s s' i j w :
  0 <= i -> 0 <= j -> i <> j ->
  seg_bitmap s' = (seg_bitmap s).[i / 8 <- w] ->
  (forall n, 0 <= n -> n <> i mod 8 -> Z.testbit w n = Z.testbit (seg_bitmap s).[i / 8] n) ->
  seg_used s' j = seg_used s j.
Proof.
  intros Hi Hj Hne E Hw. rewrite !seg_used_testbit, E.
  destruct (Z.eq_dec (i / 8) (j / 8)) as [Hd|Hd].
  - destruct (Z.lt_ge_cases (i / 8) (zlen (seg_bitmap s))).
    + rewrite Hd at 1. rewrite aget_aset_eq by lia.
      rewrite Hw by lia. by rewrite Hd.
    + unfold aset. unfold zlen in *. by rewrite list_insert_ge by lia.
  - by rewrite aget_aset_ne by lia.
Qed.

Lemma take_segment_other s i j : 0 <= i -> 0 <= j -> i <> j -> seg_used (take_segment s i) j = seg_used s j.
Proof.
  intros. apply (seg_used_other s _ i j (bit_set (seg_bitmap s).[i / 8] (i mod 8))); try done.
  intros n Hn Hni. rewrite testbit_bit_set by lia. destruct (Z.eqb_spec n (i mod 8)); [done|]. by destruct (Z.testbit _ _).
Qed.

Lemma filter_none (P : Z -> Prop) `{!forall x, Decision (P x)} l : (forall x, x ∈ l -> ~ P x) -> filter P l = [].
Proof.
  induction l as [|y l IH]; intros Hx; [done|].
  rewrite filter_cons_False by (apply Hx; apply list_elem_of_here).
  apply IH. intros x ?. apply Hx. by apply list_elem_of_further.
Qed.

Lemma filter_first (P : Z -> Prop) `{!forall x, Decision (P x)} a n i :
  a <= i < a + n -> P i -> (forall j, a <= j < i -> ~ P j) ->
  filter P (seqZ a n) = i :: filter P (seqZ (i + 1) (a + n - (i + 1))).
Proof.
  intros Hi HP Hn. replace n with ((i - a) + (1 + (a + n - (i + 1)))) at 1 by lia.
  rewrite seqZ_app, filter_app by lia.
  replace (filter P (seqZ a (i - a))) with (@nil Z).
  - rewrite seqZ_cons by lia. cbn [app].
    replace (a + (i - a)) with i by lia. rewrite filter_cons_True by done.
    repeat f_equal; lia.
  - symmetry. apply filter_none. intros x Hx%elem_of_seqZ. apply Hn. lia.
Qed.

Lemma alloc_segment_spec s :
  match crfs_alloc_segment s with
  | (s1, Some i) =>
      s1 = take_segment s i /\ next_seg s <= i < total_segs (sb s) /\
      free_segs_left s = i :: filter (fun j => seg_used s j = false) (seqZ (i + 1) (total_segs (sb s) - (i + 1)))
  | (s1, None) => s1 = s /\ free_segs_left s = []
  end.
Proof.
  unfold crfs_alloc_segment, free_segs_left.
  destruct (find_from _ _ _) as [i|] eqn:E.
  - apply find_from_Some in E as (Hi & Hp & Hmin). apply negb_true_iff in Hp.
    split; [done|]. split; [lia|].
    rewrite (filter_first _ (next_seg s) (total_segs (sb s) - next_seg s) i); [|lia|done|].
    + do 3 f_equal. lia.
    + intros j Hj. specialize (Hmin j Hj). apply negb_false_iff in Hmin. congruence.
  - split; [done|]. rewrite find_from_None in E. apply filter_none.
    intros x Hx%elem_of_seqZ. specialize (E x ltac:(lia)). apply negb_false_iff in E. congruence.
Qed.

(** One allocation: fails exactly when nothing is left, and otherwise moves the
    frontier past the block it hands out. *)
Lemma alloc_block_spec s :
  alloc_wf s ->
  match crfs_alloc_block s with
  | (s1, Some a) =>
      0 < avail s /\ avail s1 = avail s - 1 /\ alloc_wf s1 /\ rest_same s s1 /\
      frontier s <= a /\ 0 < a /\ a mod 4096 = 0 /\ frontier s1 = a + 4096 /\ next_seg s <= next_seg s1 /\
      a + 4096 <= total_segs (sb s) * CRFS_SEG_SIZE
  | (s1, None) => s1 = s /\ avail s = 0
  end.
Proof.
  intros [Hn Ht Hb Hc]. unfold crfs_alloc_block.
  assert (Hgo : forall s1, current_seg s1 <> 0 -> block_in_seg s1 < 512 -> alloc_wf s1 ->
    let '(s2, r) := alloc_in_seg s1 in
    r = Some (frontier s1) /\ avail s2 = avail s1 - 1 /\ alloc_wf s2 /\ rest_same s1 s2 /\
    0 < frontier s1 /\ frontier s1 mod 4096 = 0 /\ frontier s2 = frontier s1 + 4096 /\ next_seg s2 = next_seg s1
    /\ frontier s1 + 4096 <= total_segs (sb s1) * CRFS_SEG_SIZE).
  { intros s1 Hc1 Hb1 [Hn1 Ht1 Hbb1 Hcc1]. destruct Hcc1 as [?|(H1 & H2 & H3)]; [done|].
    unfold alloc_in_seg, frontier, avail, rest_same, free_segs_left, CRFS_BLOCKS_PER_SEG, CRFS_SEG_SIZE, CRFS_BLOCK_SIZE in *.
    rec_simpl. destruct (Z.eqb_spec (current_seg s1) 0); [done|].
    rewrite u64_id by lia. split; [done|]. split; [|split; [|repeat split; lia]].
    - change (seg_used (s1 <| block_in_seg := block_in_seg s1 + 1 |>)) with (seg_used s1). lia.
    - constructor; rec_simpl; unfold CRFS_BLOCKS_PER_SEG, CRFS_SEG_SIZE; lia. }
  destruct ((current_seg s =? 0) || (CRFS_BLOCKS_PER_SEG <=? block_in_seg s)) eqn:E.
  - assert (Hfs : frontier s = next_seg s * CRFS_SEG_SIZE /\
                  avail s = 512 * zlen (free_segs_left s)).
    { unfold frontier, avail, CRFS_BLOCKS_PER_SEG, CRFS_SEG_SIZE, CRFS_BLOCK_SIZE in *.
      destruct (Z.eqb_spec (current_seg s) 0); lia. }
    destruct Hfs as [Hf Ha].
    pose proof (alloc_segment_spec s) as Hs. destruct (crfs_alloc_segment s) as [s1 [i|]].
    + destruct Hs as (-> & Hi & Hl). set (s1 := (take_segment s i) <| current_seg := i |> <| block_in_seg := 0 |>).
      assert (Hnx : next_seg s1 = i + 1).
      { subst s1. unfold take_segment. rec_simpl. apply u64_id. unfold CRFS_SEG_SIZE in *. lia. }
      assert (Hav : avail s1 = avail s).
      { rewrite Ha, Hl. unfold avail. change (current_seg s1) with i. change (block_in_seg s1) with 0.
        destruct (Z.eqb_spec i 0); [lia|].
        replace (free_segs_left s1) with (filter (fun j => seg_used s j = false) (seqZ (i + 1) (total_segs (sb s) - (i + 1)))).
        - unfold zlen, CRFS_BLOCKS_PER_SEG. cbn [length]. lia.
        - unfold free_segs_left. rewrite Hnx. change (total_segs (sb s1)) with (total_segs (sb s)).
          apply filter_agree. intros j Hj%elem_of_seqZ.
          change (seg_used s1 j) with (seg_used (take_segment s i) j).
          by rewrite take_segment_other by lia. }
      assert (Hw1 : alloc_wf s1).
      { constructor; [lia|exact Ht|split; [|done]; done|]. right.
        change (current_seg s1) with i. change (total_segs (sb s1)) with (total_segs (sb s)). lia. }
      assert (Hf1 : frontier s1 = i * CRFS_SEG_SIZE).
      { unfold frontier. change (current_seg s1) with i. change (block_in_seg s1) with 0.
        destruct (Z.eqb_spec i 0); lia. }
      specialize (Hgo s1 ltac:(change (current_seg s1) with i; lia) ltac:(done) Hw1).
      destruct (alloc_in_seg s1) as [s2 r]. destruct Hgo as (-> & Hav2 & Hw2 & Hr & Hp & Hm & Hf2 & Hn2 & Hle).
      assert (0 < zlen (free_segs_left s)) by (rewrite Hl; unfold zlen; cbn [length]; lia).
      unfold CRFS_SEG_SIZE in *.
      split; [lia|]. split; [lia|]. split; [done|]. split; [done|].
      split; [lia|]. split; [done|]. split; [done|]. split; [done|]. split; [lia|]. done.
    + destruct Hs as [-> Hl]. split; [done|]. rewrite Ha, Hl. done.
  - apply orb_false_iff in E as [E1%Z.eqb_neq E2%Z.leb_gt].
    specialize (Hgo s E1 E2 ltac:(by constructor)).
    destruct (alloc_in_seg s) as [s2 r]. destruct Hgo as (-> & Hav2 & Hw2 & Hr & Hp & Hm & Hf2 & Hn2 & Hle).
    split; [|split; [done|]; split; [done|]; split; [done|]; split; [lia|]; split; [done|];
             split; [done|]; split; [done|]; split; [lia|done]].
    pose proof (zlen_nonneg (free_segs_left s)). unfold avail, CRFS_BLOCKS_PER_SEG in *.
    destruct (Z.eqb_spec (current_seg s) 0); lia.
Qed.

Lemma avail_nonneg s : alloc_wf s -> 0 <= avail s.
Proof.
  intros [Hn Ht Hb Hc]. pose proof (zlen_nonneg (free_segs_left s)). unfold avail.
  destruct (current_seg s =? 0); lia.
Qed.

(** Freeing a block of a segment that has been handed out gives nothing back *)
Lemma free_block_spec s a :
  alloc_wf s -> 0 <= a < next_seg s * CRFS_SEG_SIZE ->
  let s1 := crfs_free_block s a in
  alloc_wf s1 /\ avail s1 = avail s /\ frontier s1 = frontier s /\ rest_same s s1 /\ next_seg s1 = next_seg s.
Proof.
  intros [Hn Ht Hb Hc] Ha s1.
  split; [by constructor|]. split; [|done].
  unfold avail. change (current_seg s1) with (current_seg s). change (block_in_seg s1) with (block_in_seg s).
  do 2 f_equal. unfold free_segs_left. change (next_seg s1) with (next_seg s).
  change (total_segs (sb s1)) with (total_segs (sb s)). f_equal. apply filter_agree.
  intros j Hj%elem_of_seqZ. set (g := a / CRFS_SEG_SIZE).
  assert (g < next_seg s) by (apply Z.div_lt_upper_bound; unfold CRFS_SEG_SIZE in *; lia).
  assert (0 <= g) by (apply Z.div_pos; unfold CRFS_SEG_SIZE in *; lia).
  rewrite (seg_used_other s s1 g j (bit_clear (seg_bitmap s).[g / 8] (g mod 8))); [done|lia|lia|lia|done|].
  intros n Hn0 Hng. rewrite testbit_bit_clear by lia. destruct (Z.eqb_spec n (g mod 8)); [done|].
  done.
Qed.

(** * The pointers of an inode

    A slot is a place that holds a block address: a field of the inode, or an entry
    of one of its pointer blocks. *)

Inductive slot := Ind | Dind | L1 (j : Z) | Data (b : Z).
#[global] Instance slot_eq_dec : EqDecision slot.
Proof. solve_decision. Defined.

Definition MAX_BLOCKS : Z := 12 + 512 + 512 * 512.

Definition slot_ok (k : slot) : Prop :=
  match k with Ind | Dind => True | L1 j => 0 <= j < 512 | Data b => 0 <= b < MAX_BLOCKS end.
Definition is_meta (k : slot) : Prop := match k with Data _ => False | _ => True end.

(** The slot of the pointer block an entry is in, and its index there *)
Definition parent (k : slot) : option (slot * Z) :=
  match k with
  | Ind | Dind => None
  | L1 j => Some (Dind, j)
  | Data b => if b <? 12 then None else if b <? 524 then Some (Ind, b - 12)
              else Some (L1 ((b - 524) / 512), (b - 524) mod 512)
  end.
Definition field (i : inode_disk) (k : slot) : Z :=
  match k with Ind => indirect i | Dind => double_indirect i | L1 _ => 0 | Data b => (direct i).[b] end.

Definition entry (d : D) (a j : Z) : Z := if a =? 0 then 0 else ptr d a j.

Fixpoint slot_at (n : nat) (d : D) (i : inode_disk) (k : slot) : Z :=
  match parent k, n with
  | None, _ => field i k
  | Some (m, j), S n' => entry d (slot_at n' d i m) j
  | _, O => 0
  end.
Definition slot_addr (d : D) (i : inode_disk) (k : slot) : Z := slot_at 2 d i k.

Lemma slot_addr_parent d i k :
  slot_addr d i k = match parent k with None => field i k | Some (m, j) => entry d (slot_addr d i m) j end.
Proof.
  unfold slot_addr. destruct k as [| |j|b]; cbn; try done.
  destruct (b <? 12); [done|]. by destruct (b <? 524).
Qed.

Lemma parent_ok k m j : slot_ok k -> parent k = Some (m, j) -> slot_ok m /\ is_meta m /\ 0 <= j < 512.
Proof.
  destruct k as [| |j'|b]; cbn; try done.
  - by intros ? [= <- <-].
  - unfold MAX_BLOCKS. intros Hb.
    destruct (Z.ltb_spec b 12); [done|]. destruct (Z.ltb_spec b 524); intros [= <- <-]; cbn; lia.
Qed.

Lemma parent_inj k k' m j : slot_ok k -> slot_ok k' -> parent k = Some (m, j) -> parent k' = Some (m, j) -> k = k'.
Proof.
  destruct k as [| |j1|b1], k' as [| |j2|b2]; cbn; try done; intros H1 H2; unfold MAX_BLOCKS in *;
    repeat match goal with |- context [?x <? ?y] => destruct (Z.ltb_spec x y) end; try done; try congruence.
  - intros [= <- <-] [= Hd]. f_equal. lia.
  - intros [= <- <-] [= Hd Hm]. f_equal. lia.
Qed.

(** Induction on the depth of a slot in the tree *)
Lemma slot_tree_ind (P : slot -> Prop) :
  (forall k, (forall m j, parent k = Some (m, j) -> P m) -> P k) -> forall k, P k.
Proof.
  intros H. assert (P Ind) by (by apply H). assert (P Dind) by (by apply H).
  assert (HL : forall j, P (L1 j)) by (intros j; apply H; by intros ? ? [= <- <-]).
  intros [| |j|b]; auto. apply H. cbn. intros m j.
  destruct (b <? 12); [done|]. destruct (b <? 524); by intros [= <- <-].
Qed.

Lemma get_block_slot s i b :
  0 <= b < MAX_BLOCKS -> crfs_inode_get_block s i b = slot_addr (dev s) i (Data b).
Proof.
  intros Hb. unfold crfs_inode_get_block, slot_addr, CRFS_INDIRECT_BASE, CRFS_PTRS_PER_BLOCK, MAX_BLOCKS in *.
  cbn [slot_at parent field]. destruct (Z.ltb_spec b 12); [done|].
  destruct (Z.ltb_spec b 524), (Z.ltb_spec (b - 12) 512); try lia.
  - cbn [slot_at parent field entry]. unfold entry. destruct (indirect i =? 0); [done|]. apply read_ptrs_get. lia.
  - destruct (Z.ltb_spec (b - 12 - 512) (512 * 512)); [|lia].
    replace (b - 12 - 512) with (b - 524) by lia. cbn [slot_at parent field].
    unfold entry. destruct (double_indirect i =? 0); [done|].
    rewrite (read_ptrs_get s (double_indirect i)) by lia.
    destruct (ptr _ _ _ =? 0); [done|]. apply read_ptrs_get. lia.
Qed.

Lemma get_block_beyond s i b : MAX_BLOCKS <= b -> crfs_inode_get_block s i b = 0.
Proof.
  intros Hb. unfold crfs_inode_get_block, CRFS_INDIRECT_BASE, CRFS_PTRS_PER_BLOCK, MAX_BLOCKS in *.
  destruct (Z.ltb_spec b 12); [lia|]. destruct (Z.ltb_spec (b - 12) 512); [lia|].
  destruct (Z.ltb_spec (b - 12 - 512) (512 * 512)); [lia|done].
Qed.

(** * A file system whose blocks have one owner each *)

Definition addr s (p : Z) (k : slot) : Z := slot_addr (dev s) (idisk s p) k.
Definition is_inode s (p : Z) : Prop := 0 <= p < zlen (inodes s).
(** A block that has been handed out *)
Definition used s (a : Z) : Prop := 0 < a < frontier s /\ a mod 4096 = 0.

Record fs_ok s : Prop := {
  ok_alloc : alloc_wf s;
  ok_direct p : is_inode s p -> zlen (direct (idisk s p)) = 12;
  ok_used p k : is_inode s p -> slot_ok k -> addr s p k <> 0 -> used s (addr s p k);
  ok_owner p k p' k' :
    is_inode s p -> is_inode s p' -> slot_ok k -> slot_ok k' ->
    addr s p k <> 0 -> addr s p' k' = addr s p k -> p' = p /\ k' = k
}.

Lemma addr_parent s p k :
  addr s p k = match parent k with None => field (idisk s p) k | Some (m, j) => entry (dev s) (addr s p m) j end.
Proof. apply slot_addr_parent. Qed.

Lemma frontier_aligned s : frontier s mod 4096 = 0.
Proof. unfold frontier, CRFS_SEG_SIZE, CRFS_BLOCK_SIZE. destruct (current_seg s =? 0); lia. Qed.

Lemma used_below s a x : used s a -> a <= x < a + 4096 -> x < frontier s.
Proof. intros [Ha Hm] Hx. pose proof (frontier_aligned s). lia. Qed.

Lemma used_disjoint s a a' x : used s a -> used s a' -> a <= x < a + 4096 -> a' <= x < a' + 4096 -> a' = a.
Proof. intros [Ha Hm] [Ha' Hm'] Hx Hx'. lia. Qed.

(** Addresses depend on the inode and on its pointer blocks only *)
Lemma addr_frame s s' p k :
  idisk s' p = idisk s p -> slot_ok k ->
  (forall m, is_meta m -> slot_ok m -> addr s p m <> 0 -> block_same (dev s) (dev s') (addr s p m)) ->
  addr s' p k = addr s p k.
Proof.
  intros Hi Hk Hb. induction k as [k IH] using slot_tree_ind. rewrite (addr_parent s'), (addr_parent s).
  destruct (parent k) as [[m j]|] eqn:E; [|by rewrite Hi].
  destruct (parent_ok _ _ _ Hk E) as (Hm & Hmm & Hj).
  rewrite (IH m j eq_refl Hm). unfold entry. destruct (Z.eqb_spec (addr s p m) 0); [done|].
  apply ptr_same; [|done]. by apply Hb.
Qed.

(** One slot set to [v], in an inode field or in an entry of a pointer block *)
Lemma addr_set s s' p k v :
  slot_ok k ->
  (forall m j, parent k = Some (m, j) -> addr s p m <> 0) ->
  (is_meta k -> addr s p k = 0 /\ forall j, 0 <= j < 512 -> ptr (dev s') v j = 0) ->
  (forall p' k', is_inode s p' -> slot_ok k' -> parent k' = None ->
     field (idisk s' p') k' = if decide (p' = p /\ k' = k) then v else field (idisk s p') k') ->
  (forall p' k' m j, is_inode s p' -> slot_ok k' -> parent k' = Some (m, j) -> addr s p' m <> 0 ->
     ptr (dev s') (addr s p' m) j = if decide (p' = p /\ k' = k) then v else ptr (dev s) (addr s p' m) j) ->
  forall p' k', is_inode s p' -> slot_ok k' ->
  addr s' p' k' = if decide (p' = p /\ k' = k) then v else addr s p' k'.
Proof.
  intros Hk Hpar Hmeta Hroot Hent p' k' Hp' Hk'.
  induction k' as [k' IH] using slot_tree_ind.
  rewrite (addr_parent s'), (addr_parent s p' k').
  destruct (parent k') as [[m j]|] eqn:E; [|by apply Hroot].
  destruct (parent_ok _ _ _ Hk' E) as (Hm & Hmm & Hj).
  rewrite (IH m j eq_refl Hm). unfold entry at 1 2.
  destruct (decide (p' = p /\ m = k)) as [[-> ->]|Hne].
  - destruct (Hmeta Hmm) as [H0 Hz].
    destruct (decide (p = p /\ k' = k)) as [[_ ->]|_].
    { exfalso. clear -E. destruct k as [| |j'|b]; cbn in E; try done.
      repeat case_match; simplify_eq. }
    rewrite H0. cbn [Z.eqb]. destruct (Z.eqb_spec v 0); [done|]. by apply Hz.
  - destruct (Z.eqb_spec (addr s p' m) 0) as [H0|H0].
    + destruct (decide (p' = p /\ k' = k)) as [[-> ->]|]; [|done]. by specialize (Hpar _ _ E).
    + by apply (Hent p' k' m j).
Qed.

(** * Steps that keep every file *)

Definition attrs (i : inode_disk) : Z * Z * Z := (size i, blocks i, di_type i).

(** A block in use that holds no pointers *)
Definition data_block s (a : Z) : Prop :=
  used s a /\ forall p k, is_inode s p -> slot_ok k -> is_meta k -> addr s p k <> a.

Record prog s s' : Prop := {
  pr_ok : fs_ok s';
  pr_frontier : frontier s <= frontier s';
  pr_inodes : zlen (inodes s') = zlen (inodes s);
  pr_attrs p : is_inode s p -> attrs (idisk s' p) = attrs (idisk s p);
  pr_rest : files s' = files s /\ mounted s' = mounted s /\ total_segs (sb s') = total_segs (sb s);
  pr_data a : data_block s a -> data_block s' a /\ block_same (dev s) (dev s') a
}.

Lemma prog_refl s : fs_ok s -> prog s s.
Proof. intros. by constructor. Qed.

Lemma prog_trans s1 s2 s3 : prog s1 s2 -> prog s2 s3 -> prog s1 s3.
Proof.
  intros [A1 A2 A3 A4 (A5 & A6 & A7) A8] [B1 B2 B3 B4 (B5 & B6 & B7) B8]. constructor.
  - done.
  - lia.
  - congruence.
  - intros p Hp. rewrite B4, A4; [done|done|]. unfold is_inode in *. by rewrite A3.
  - repeat split; congruence.
  - intros a Ha. destruct (A8 a Ha) as [Ha2 E2]. destruct (B8 a Ha2) as [Ha3 E3].
    split; [done|]. intros x Hx. rewrite E3, E2 by done. done.
Qed.

Lemma is_inode_len s s' p : zlen (inodes s') = zlen (inodes s) -> is_inode s' p <-> is_inode s p.
Proof. unfold is_inode. by intros ->. Qed.

(** What setting slot [k] of inode [p] to the block [v] does to the whole *)
Lemma slot_update s s' p k v :
  fs_ok s -> is_inode s p -> slot_ok k ->
  (forall m j, parent k = Some (m, j) -> addr s p m <> 0) ->
  (is_meta k -> frontier s <= v /\ addr s p k = 0 /\ forall j, 0 <= j < 512 -> ptr (dev s') v j = 0) ->
  alloc_wf s' -> frontier s <= frontier s' -> used s' v ->
  (forall p' k', is_inode s p' -> slot_ok k' -> addr s p' k' <> v) ->
  zlen (inodes s') = zlen (inodes s) ->
  (forall p', is_inode s p' -> attrs (idisk s' p') = attrs (idisk s p') /\ zlen (direct (idisk s' p')) = 12) ->
  files s' = files s /\ mounted s' = mounted s /\ total_segs (sb s') = total_segs (sb s) ->
  (forall p' k', is_inode s p' -> slot_ok k' -> parent k' = None ->
     field (idisk s' p') k' = if decide (p' = p /\ k' = k) then v else field (idisk s p') k') ->
  (forall m j, parent k = Some (m, j) -> forall j', 0 <= j' < 512 ->
     ptr (dev s') (addr s p m) j' = if j' =? j then v else ptr (dev s) (addr s p m) j') ->
  (forall x, x < frontier s ->
     (forall m j, parent k = Some (m, j) -> ~ addr s p m <= x < addr s p m + 4096) ->
     bd_byte (dev s') x = bd_byte (dev s) x) ->
  prog s s' /\
  forall p' k', is_inode s p' -> slot_ok k' ->
    addr s' p' k' = if decide (p' = p /\ k' = k) then v else addr s p' k'.
Proof.
  intros Hok Hp Hk Hpar Hmeta Haw Hfr Huv Hun Hlen Hdir Hrest Hroot Hent Hother.
  assert (Hset : forall p' k', is_inode s p' -> slot_ok k' ->
    addr s' p' k' = if decide (p' = p /\ k' = k) then v else addr s p' k').
  { apply addr_set; [done|done|by intros Hm; destruct (Hmeta Hm) as (_ & ? & ?)|done|].
    intros p' k' m j Hp' Hk' E H0. destruct (parent_ok _ _ _ Hk' E) as (Hm & Hmm & Hj).
    destruct (parent k) as [[mk jk]|] eqn:Ek.
    - destruct (parent_ok _ _ _ Hk Ek) as (Hmk & Hmmk & Hjk).
      destruct (Z.eq_dec (addr s p' m) (addr s p mk)) as [Ea|Ea].
      + destruct (ok_owner s Hok p mk p' m) as [-> ->]; try done; [by apply (Hpar _ jk)|].
        rewrite (Hent _ _ eq_refl) by done.
        destruct (Z.eqb_spec j jk) as [->|].
        * rewrite decide_True; [done|]. split; [done|]. by apply (parent_inj k' k mk jk).
        * rewrite decide_False; [done|]. intros [_ ->]. congruence.
      + rewrite decide_False by (intros [-> ->]; congruence).
        apply ptr_same; [|done]. intros x Hx. apply Hother.
        * apply (used_below s (addr s p' m)); [by apply (ok_used s Hok)|done].
        * intros m2 j2 [= <- <-] Hx2. apply Ea.
          apply (used_disjoint s _ _ x); [by apply (ok_used s Hok), (Hpar _ _ eq_refl)|by apply (ok_used s Hok)|done|done].
    - rewrite decide_False by (intros [-> ->]; congruence).
      apply ptr_same; [|done]. intros x Hx. apply Hother; [|done].
      apply (used_below s (addr s p' m)); [by apply (ok_used s Hok)|done]. }
  split; [|done]. constructor; try done.
  - constructor.
    + done.
    + intros p' Hp'%(is_inode_len _ _ _ Hlen). by apply Hdir.
    + intros p' k' Hp'%(is_inode_len _ _ _ Hlen) Hk'. rewrite Hset by done.
      destruct (decide _); [done|]. intros H0. destruct (ok_used s Hok p' k' Hp' Hk' H0) as [? ?]. split; [lia|done].
    + intros p1 k1 p2 k2 Hp1%(is_inode_len _ _ _ Hlen) Hp2%(is_inode_len _ _ _ Hlen) Hk1 Hk2.
      rewrite !Hset by done. destruct (decide (p1 = p /\ k1 = k)) as [[-> ->]|Hn1].
      * destruct (decide _) as [[-> ->]|]; [done|]. intros _ E. by destruct (Hun p2 k2).
      * destruct (decide _) as [[-> ->]|]; [|by apply (ok_owner s Hok)].
        intros _ E. by destruct (Hun p1 k1).
  - intros p' Hp'. by apply Hdir.
  - intros a [[Ha1 Ha2] Ham]. split; [split|].
    + split; [lia|done].
    + intros p' k' Hp'%(is_inode_len _ _ _ Hlen) Hk' Hm'. rewrite Hset by done.
      destruct (decide _) as [[-> ->]|]; [|by apply Ham].
      destruct (Hmeta Hm') as [? _]. lia.
    + intros x Hx. apply Hother.
      * apply (used_below s a); [split; [lia|done]|done].
      * intros m j E Hx2. destruct (parent_ok _ _ _ Hk E) as (Hm & Hmm & _).
        apply (Ham p m); try done. symmetry.
        apply (used_disjoint s _ _ x); [apply (ok_used s Hok); try done; by apply (Hpar _ j)|by split; [lia|]|done|done].
Qed.

Definition ptrs_of (i : inode_disk) : list Z * Z * Z := (direct i, indirect i, double_indirect i).

Lemma addr_same s s' p k :
  dev s' = dev s -> ptrs_of (idisk s' p) = ptrs_of (idisk s p) -> addr s' p k = addr s p k.
Proof.
  unfold ptrs_of. intros Hd [= E1 E2 E3]. unfold addr. rewrite Hd. generalize (dev s) as d. intros d.
  induction k as [k IH] using slot_tree_ind. rewrite !slot_addr_parent.
  destruct (parent k) as [[m j]|] eqn:E; [by rewrite (IH m j)|].
  destruct k; cbn; congruence.
Qed.

(** Steps that touch neither the pointers nor the device *)
Lemma fs_ok_same s s' :
  fs_ok s -> dev s' = dev s -> alloc_wf s' -> frontier s' = frontier s -> zlen (inodes s') = zlen (inodes s) ->
  (forall p, is_inode s p -> ptrs_of (idisk s' p) = ptrs_of (idisk s p)) ->
  fs_ok s' /\ forall a, data_block s a -> data_block s' a.
Proof.
  intros Hok Hd Haw Hf Hl Hp.
  assert (HA : forall p k, is_inode s p -> addr s' p k = addr s p k) by (intros; apply addr_same; auto).
  assert (HU : forall a, used s' a <-> used s a) by (intros a; unfold used; by rewrite Hf).
  split; [constructor|].
  - done.
  - intros p Hi%(is_inode_len _ _ _ Hl). pose proof (Hp p Hi) as [= -> _ _]. by apply (ok_direct s Hok).
  - intros p k Hi%(is_inode_len _ _ _ Hl) Hk. rewrite HA, HU by done. by apply (ok_used s Hok).
  - intros p k p' k' Hi%(is_inode_len _ _ _ Hl) Hi'%(is_inode_len _ _ _ Hl) Hk Hk'. rewrite !HA by done.
    by apply (ok_owner s Hok).
  - intros a [Ha1 Ha2]. split; [by apply HU|].
    intros p k Hi%(is_inode_len _ _ _ Hl) Hk Hm. rewrite HA by done. by apply Ha2.
Qed.

Lemma idisk_mod_inode s p f p' :
  is_inode s p -> 0 <= p' -> idisk (mod_inode s p f) p' = if p' =? p then disk (f (inodes s).[p]) else idisk s p'.
Proof.
  intros Hp Hp'. unfold idisk, mod_inode. rec_simpl. rewrite aget_aset by (unfold is_inode in *; lia).
  rewrite (Z.eqb_sym p p'). by destruct (p' =? p).
Qed.

Lemma idisk_mod_disk s p f p' :
  is_inode s p -> 0 <= p' -> idisk (mod_disk s p f) p' = if p' =? p then f (idisk s p) else idisk s p'.
Proof. intros. unfold mod_disk. by rewrite idisk_mod_inode. Qed.

Lemma zlen_mod_inode s p f : zlen (inodes (mod_inode s p f)) = zlen (inodes s).
Proof. unfold mod_inode. rec_simpl. apply zlen_aset. Qed.

Lemma idisk_set_dirty s p p' : is_inode s p -> 0 <= p' -> idisk (set_dirty s p) p' = idisk s p'.
Proof.
  intros. unfold set_dirty. rewrite idisk_mod_inode by done. by destruct (Z.eqb_spec p' p) as [->|].
Qed.

Lemma prog_dirty s p : fs_ok s -> is_inode s p -> prog s (set_dirty s p).
Proof.
  intros Hok Hp. set (s1 := set_dirty s p).
  assert (HI : forall p', is_inode s p' -> idisk s1 p' = idisk s p').
  { intros p' [Hp' _]. by apply idisk_set_dirty. }
  assert (Hl : zlen (inodes s1) = zlen (inodes s)) by apply zlen_mod_inode.
  destruct (fs_ok_same s s1 Hok) as [H1 H2]; try done.
  { destruct (ok_alloc s Hok). by constructor. }
  { intros p' Hp'. by rewrite HI. }
  constructor; try done.
  - intros p' Hp'. by rewrite HI.
  - intros a Ha. split; [by apply H2|done].
Qed.

Lemma addr_set_dirty s p p' k : is_inode s p -> is_inode s p' -> addr (set_dirty s p) p' k = addr s p' k.
Proof. intros Hp [Hp' _]. apply addr_same; [done|]. by rewrite idisk_set_dirty. Qed.

(** * Allocating a pointer block *)

Lemma fs_ok_ptr_range s p k : fs_ok s -> is_inode s p -> slot_ok k -> addr s p k <> 0 -> 0 < addr s p k < frontier s.
Proof. intros Hok Hp Hk H0. by destruct (ok_used s Hok p k Hp Hk H0). Qed.

Lemma alloc_ptrs_spec s :
  fs_ok s ->
  match alloc_ptrs s with
  | (s1, Some a) =>
      0 < avail s /\ avail s1 = avail s - 1 /\ alloc_wf s1 /\
      (inodes s1 = inodes s /\ files s1 = files s /\ mounted s1 = mounted s /\ total_segs (sb s1) = total_segs (sb s)) /\
      frontier s <= frontier s1 /\ frontier s <= a /\ used s1 a /\ a < 2 ^ 64 /\
      (forall j, 0 <= j < 512 -> ptr (dev s1) a j = 0) /\
      (forall x, x < frontier s -> bd_byte (dev s1) x = bd_byte (dev s) x)
  | (s1, None) => s1 = s /\ avail s = 0
  end.
Proof.
  intros Hok. unfold alloc_ptrs. pose proof (alloc_block_spec s (ok_alloc s Hok)) as H.
  destruct (crfs_alloc_block s) as [s1 [a|]]; [|done].
  destruct H as (Hav & Hav1 & Hw & (Hd & Hi & Hf & Hm & _ & Ht & _) & Ha & Ha0 & Ham & Hf1 & Hn & Hle).
  pose proof (aw_total s (ok_alloc s Hok)).
  split; [done|]. split; [done|]. split; [destruct Hw; by constructor|]. split; [done|].
  change (frontier (write_ptrs s1 a zero_ptrs)) with (frontier s1).
  split; [lia|]. split; [done|].
  split; [split; [change (frontier (write_ptrs s1 a zero_ptrs)) with (frontier s1); lia|done]|].
  split; [lia|]. split.
  - intros j Hj. by apply ptr_zero_ptrs.
  - intros x Hx. rewrite write_ptrs_other by (done || lia). by rewrite Hd.
Qed.

Lemma unowned_fresh s a p k : fs_ok s -> frontier s <= a -> is_inode s p -> slot_ok k -> addr s p k <> a.
Proof.
  intros Hok Ha Hp Hk E. pose proof (ok_alloc s Hok) as [Hn _ Hb Hc].
  assert (0 < frontier s) by (unfold frontier, CRFS_SEG_SIZE, CRFS_BLOCK_SIZE; destruct (Z.eqb_spec (current_seg s) 0); lia).
  pose proof (fs_ok_ptr_range s p k Hok Hp Hk). lia.
Qed.

(** A step that only adds pointer blocks, at most [n] *)
Record grown (n : Z) s s' : Prop := {
  gr_prog : prog s s';
  gr_avail : avail s - n <= avail s' <= avail s;
  gr_slots p k : is_inode s p -> slot_ok k ->
    addr s' p k = addr s p k \/ is_meta k /\ addr s p k = 0 /\ frontier s <= addr s' p k
}.

Lemma grown_refl s : fs_ok s -> grown 0 s s.
Proof. intros. constructor; [by apply prog_refl|lia|]. intros. by left. Qed.

Lemma grown_trans n1 n2 s1 s2 s3 : grown n1 s1 s2 -> grown n2 s2 s3 -> grown (n1 + n2) s1 s3.
Proof.
  intros [A1 A2 A3] [B1 B2 B3]. constructor; [by eapply prog_trans|lia|].
  intros p k Hp Hk. pose proof (pr_frontier _ _ A1).
  destruct (B3 p k) as [E|(Hm & E & Hf)]; [by apply (is_inode_len _ _ _ (pr_inodes _ _ A1))|done|rewrite E; by apply A3|].
  right. split; [done|]. destruct (A3 p k Hp Hk) as [E1|(_ & E1 & ?)]; [|split; [done|lia]].
  rewrite <- E1. split; [done|lia].
Qed.

Lemma grown_data n s s' p b : grown n s s' -> is_inode s p -> slot_ok (Data b) -> addr s' p (Data b) = addr s p (Data b).
Proof. intros [_ _ H] Hp Hb. by destruct (H p (Data b) Hp Hb) as [|[? _]]. Qed.

Lemma grown_le n m s s' : n <= m -> grown n s s' -> grown m s s'.
Proof. intros Hn [A1 A2 A3]. constructor; [done|lia|done]. Qed.

Ltac root_case k' :=
  destruct k' as [| |j'|b']; cbn [field]; rec_simpl; try done;
  first [rewrite decide_True by done | rewrite decide_False by (intros [_ ?]; congruence)]; done.

(** The two fields of the inode that point to pointer blocks *)
Lemma ensure_field_spec s p k (get : inode_disk -> Z) (set : Z -> inode_disk -> inode_disk) :
  (k = Ind /\ get = indirect /\ set = (fun a i => i <| indirect := a |>)) \/
  (k = Dind /\ get = double_indirect /\ set = (fun a i => i <| double_indirect := a |>)) ->
  fs_ok s -> is_inode s p -> 0 < avail s ->
  exists s1, (if get (idisk s p) =? 0 then
    match alloc_ptrs s with
    | (s1, Some a) => (mod_disk s1 p (set a), true)
    | (s1, None) => (s1, false)
    end else (s, true)) = (s1, true) /\ grown 1 s s1 /\ addr s1 p k <> 0.
Proof.
  intros Hk Hok Hp Hav.
  assert (Hkk : parent k = None /\ slot_ok k /\ is_meta k /\ addr s p k = get (idisk s p)).
  { destruct Hk as [(-> & -> & ->)|(-> & -> & ->)]; done. }
  destruct Hkk as (Hpk & Hsk & Hmk & Hak).
  destruct (Z.eqb_spec (get (idisk s p)) 0) as [H0|H0].
  2: { exists s. split; [done|]. split; [|congruence]. apply (grown_le 0); [lia|by apply grown_refl]. }
  pose proof (alloc_ptrs_spec s Hok) as H. destruct (alloc_ptrs s) as [s1 [a|]]; [|lia].
  destruct H as (_ & Hav1 & Hw & (Hi & Hfi & Hmo & Hts) & Hfr & Hfa & Hua & Ha64 & Hz & Hby).
  assert (Hp1 : is_inode s1 p) by (unfold is_inode; by rewrite Hi).
  assert (Hid : forall p', idisk s1 p' = idisk s p') by (intros; unfold idisk; by rewrite Hi).
  set (s2 := mod_disk s1 p (set a)).
  assert (Hid2 : forall p', is_inode s p' -> idisk s2 p' = if p' =? p then set a (idisk s p) else idisk s p').
  { intros p' [Hp' _]. unfold s2. by rewrite idisk_mod_disk, !Hid. }
  destruct (slot_update s s2 p k a) as [Hprog Hset]; try done.
  - intros m j. congruence.
  - intros _. split; [done|]. split; [congruence|done].
  - destruct Hw. by constructor.
  - intros p' k'. by apply unowned_fresh.
  - unfold s2, mod_disk. by rewrite zlen_mod_inode, Hi.
  - intros p' Hp'. rewrite Hid2 by done. pose proof (ok_direct s Hok p' Hp').
    destruct (Z.eqb_spec p' p) as [->|]; [|done].
    by destruct Hk as [(-> & -> & ->)|(-> & -> & ->)].
  - intros p' k' Hp' Hk' Hr. rewrite Hid2 by done.
    destruct (Z.eqb_spec p' p) as [->|]; [|by rewrite decide_False by naive_solver].
    destruct Hk as [(-> & -> & ->)|(-> & -> & ->)]; root_case k'.
  - intros m j. congruence.
  - intros x Hx _. by apply Hby.
  - exists s2. split; [done|]. split; [|].
    + constructor; [done| |].
      * change (avail s2) with (avail s1). lia.
      * intros p' k' Hp' Hk'. rewrite Hset by done. destruct (decide _) as [[-> ->]|]; [|by left].
        right. split; [done|]. split; [congruence|done].
    + rewrite Hset by done. rewrite decide_True by done. destruct Hua. lia.
Qed.

Lemma ensure_indirect_spec s p :
  fs_ok s -> is_inode s p -> 0 < avail s ->
  exists s1, ensure_indirect s p = (s1, true) /\ grown 1 s s1 /\ addr s1 p Ind <> 0.
Proof. apply (ensure_field_spec s p Ind indirect (fun a i => i <| indirect := a |>)). by left. Qed.

Lemma ensure_double_spec s p :
  fs_ok s -> is_inode s p -> 0 < avail s ->
  exists s1, ensure_double s p = (s1, true) /\ grown 1 s s1 /\ addr s1 p Dind <> 0.
Proof. apply (ensure_field_spec s p Dind double_indirect (fun a i => i <| double_indirect := a |>)). by right. Qed.

(** [p] and [k] of a slot in a pointer block at [a], written through the buffer *)
Lemma store_entry s s1 p k m j v l :
  fs_ok s -> is_inode s p -> slot_ok k -> parent k = Some (m, j) -> addr s p m <> 0 ->
  (forall j', 0 <= j' < 512 -> l.[j'] = ptr (dev s) (addr s p m) j') -> zlen l = 512 -> 0 <= v < 2 ^ 64 ->
  (is_meta k -> frontier s <= v /\ addr s p k = 0 /\ forall j, 0 <= j < 512 -> ptr (dev s1) v j = 0) ->
  inodes s1 = inodes s -> files s1 = files s -> mounted s1 = mounted s -> total_segs (sb s1) = total_segs (sb s) ->
  alloc_wf s1 -> frontier s <= frontier s1 -> used s1 v ->
  (forall p' k', is_inode s p' -> slot_ok k' -> addr s p' k' <> v) ->
  (forall x, x < frontier s -> bd_byte (dev s1) x = bd_byte (dev s) x) ->
  let s2 := write_ptrs s1 (addr s p m) (l.[j <- v]) in
  prog s s2 /\
  forall p' k', is_inode s p' -> slot_ok k' ->
    addr s2 p' k' = if decide (p' = p /\ k' = k) then v else addr s p' k'.
Proof.
  intros Hok Hp Hk Hpar Ham Hl Hzl Hv Hmeta Hi Hf Hmo Hts Hw Hfr Hu Hun Hby s2.
  destruct (parent_ok _ _ _ Hk Hpar) as (Hm & Hmm & Hj).
  assert (Hzl2 : zlen (l.[j <- v]) = 512) by (by rewrite zlen_aset).
  pose proof (ok_used s Hok p m Hp Hm Ham) as Hum.
  assert (Hid : forall p', idisk s2 p' = idisk s p') by (intros; unfold idisk, s2, write_ptrs; rec_simpl; by rewrite Hi).
  apply slot_update; try done.
  - intros m' j'. congruence.
  - intros Hmk. destruct (Hmeta Hmk) as (Hfv & H0 & Hz). split; [done|]. split; [done|].
    intros j' Hj'. rewrite <- (Hz j' Hj'). apply ptr_same; [|done]. intros x Hx. apply write_ptrs_other; [done|].
    pose proof (used_below s _ x Hum). lia.
  - destruct Hw. by constructor.
  - unfold s2, write_ptrs. rec_simpl. by rewrite Hi.
  - intros p' Hp'. rewrite Hid. split; [done|]. by apply (ok_direct s Hok).
  - intros p' k' Hp' Hk' Hr. rewrite Hid. rewrite decide_False; [done|]. intros [-> ->]. congruence.
  - intros m' j0 E j' Hj'. rewrite Hpar in E. injection E as <- <-.
    assert (E : l.[j <- v].[j'] = if j' =? j then v else ptr (dev s) (addr s p m) j').
    { rewrite aget_aset by lia. rewrite (Z.eqb_sym j j'). destruct (j' =? j); [done|]. by apply Hl. }
    unfold s2. rewrite ptr_write_ptrs; rewrite ?E; try done.
    destruct (j' =? j); [done|apply ptr_range].
  - intros x Hx Hn. unfold s2. rewrite write_ptrs_other; [by apply Hby|done|by apply (Hn m j)].
Qed.

Lemma addr_L1 s p j : addr s p Dind <> 0 -> addr s p (L1 j) = ptr (dev s) (addr s p Dind) j.
Proof. intros H. rewrite addr_parent. cbn [parent]. unfold entry. by destruct (Z.eqb_spec (addr s p Dind) 0). Qed.

Lemma ensure_l1_spec s p j :
  fs_ok s -> is_inode s p -> 0 <= j < 512 -> addr s p Dind <> 0 -> 0 < avail s ->
  exists s1 a, ensure_l1 s p j = (s1, Some a) /\ grown 1 s s1 /\ addr s1 p (L1 j) = a /\ a <> 0.
Proof.
  intros Hok Hp Hj Hd Hav. unfold ensure_l1. change (double_indirect (idisk s p)) with (addr s p Dind).
  rewrite read_ptrs_get, <- addr_L1 by done.
  destruct (Z.eqb_spec (addr s p (L1 j)) 0) as [H0|H0].
  2: { exists s, (addr s p (L1 j)). split; [done|]. split; [|done]. apply (grown_le 0); [lia|by apply grown_refl]. }
  pose proof (alloc_ptrs_spec s Hok) as H. destruct (alloc_ptrs s) as [s1 [a|]]; [|lia].
  destruct H as (_ & Hav1 & Hw & (Hi & Hfi & Hmo & Hts) & Hfr & Hfa & Hua & Ha64 & Hz & Hby).
  destruct (store_entry s s1 p (L1 j) Dind j a (read_ptrs s (addr s p Dind))) as [Hprog Hset]; try done.
  - intros j' Hj'. by apply read_ptrs_get.
  - destruct Hua. lia.
  - intros p' k' Hp' Hk'. by apply unowned_fresh.
  - eexists _, a. split; [done|]. split; [|].
    + constructor; [done| |].
      * match goal with |- context [avail ?x] => change (avail x) with (avail s1) end. lia.
      * intros p' k' Hp' Hk'. rewrite Hset by done. destruct (decide _) as [[-> ->]|]; [|by left].
        right. done.
    + rewrite Hset by done. rewrite decide_True by done. split; [done|]. destruct Hua. lia.
Qed.

Definition data_set s s' (p b v : Z) : Prop :=
  forall p' b', is_inode s p' -> 0 <= b' < MAX_BLOCKS ->
  addr s' p' (Data b') = if decide (p' = p /\ b' = b) then v else addr s p' (Data b').

(** The last step of [crfs_inode_set_block]: the entry of a data block *)
Lemma store_data_spec s p b m j v :
  fs_ok s -> is_inode s p -> 0 <= b < MAX_BLOCKS -> parent (Data b) = Some (m, j) -> addr s p m <> 0 ->
  0 <= v < 2 ^ 64 -> used s v -> (forall p' k', is_inode s p' -> slot_ok k' -> addr s p' k' <> v) ->
  let s' := set_dirty (store_ptr s (addr s p m) j v) p in
  prog s s' /\ data_set s s' p b v /\ avail s' = avail s.
Proof.
  intros Hok Hp Hb Hpar Hm Hv Hu Hun s'.
  destruct (parent_ok (Data b) m j Hb Hpar) as (Hmo & Hmm & Hj).
  destruct (store_entry s s p (Data b) m j v (read_ptrs s (addr s p m))) as [Hprog Hset]; try done.
  - intros. by apply read_ptrs_get.
  - by apply ok_alloc.
  - set (s1 := write_ptrs s (addr s p m) ((read_ptrs s (addr s p m)).[j <- v])) in *.
    assert (Hp1 : is_inode s1 p) by done.
    split; [apply (prog_trans _ s1); [done|]; by apply (prog_dirty s1 p); [apply (pr_ok s)|]|].
    split; [|done]. intros p' b' Hp' Hb'.
    change s' with (set_dirty s1 p). rewrite addr_set_dirty, Hset by done.
    destruct (decide (p' = p /\ b' = b)) as [[-> ->]|]; [by rewrite decide_True|].
    rewrite decide_False; [done|]. intros [-> [= ->]]. naive_solver.
Qed.

Lemma set_direct_spec s p b v :
  fs_ok s -> is_inode s p -> 0 <= b < 12 -> used s v ->
  (forall p' k', is_inode s p' -> slot_ok k' -> addr s p' k' <> v) ->
  let s' := set_dirty (mod_disk s p (fun i => i <| direct := (direct i).[b <- v] |>)) p in
  prog s s' /\ data_set s s' p b v /\ avail s' = avail s.
Proof.
  intros Hok Hp Hb Hu Hun s'. set (s1 := mod_disk s p (fun i => i <| direct := (direct i).[b <- v] |>)).
  assert (Hid : forall p', is_inode s p' -> idisk s1 p' =
    if p' =? p then (idisk s p) <| direct := (direct (idisk s p)).[b <- v] |> else idisk s p').
  { intros p' [? _]. unfold s1. by rewrite idisk_mod_disk. }
  assert (Hbo : slot_ok (Data b)) by (cbn; unfold MAX_BLOCKS; lia).
  assert (Hpar : parent (Data b) = None) by (cbn; destruct (Z.ltb_spec b 12); [done|lia]).
  destruct (slot_update s s1 p (Data b) v) as [Hprog Hset]; try done.
  - intros m j. congruence.
  - by destruct (ok_alloc s Hok).
  - apply zlen_mod_inode.
  - intros p' Hp'. rewrite Hid by done. pose proof (ok_direct s Hok p' Hp').
    destruct (Z.eqb_spec p' p) as [->|]; [|done]. split; [done|]. rec_simpl. by rewrite zlen_aset.
  - intros p' k' Hp' Hk' Hr. rewrite Hid by done.
    destruct (Z.eqb_spec p' p) as [->|]; [|by rewrite decide_False by naive_solver].
    pose proof (ok_direct s Hok p Hp).
    destruct k' as [| |j'|b']; cbn [field]; rec_simpl; try (by rewrite decide_False by (intros [_ ?]; congruence)).
    cbn in Hk'. rewrite aget_aset by lia.
    destruct (Z.eqb_spec b b') as [->|]; [by rewrite decide_True|].
    rewrite decide_False; [done|]. intros [_ [= ->]]. done.
  - intros m j. congruence.
  - assert (Hp1 : is_inode s1 p) by (by apply (is_inode_len _ _ _ (pr_inodes _ _ Hprog))).
    split; [apply (prog_trans _ s1); [done|]; by apply (prog_dirty s1 p); [apply (pr_ok s)|]|].
    split; [|done]. intros p' b' Hp' Hb'.
    change s' with (set_dirty s1 p). rewrite addr_set_dirty, Hset; try done.
    + destruct (decide (p' = p /\ b' = b)) as [[-> ->]|]; [by rewrite decide_True|].
      rewrite decide_False; [done|]. intros [-> [= ->]]. naive_solver.
    + by apply (is_inode_len _ _ _ (pr_inodes _ _ Hprog)).
Qed.

(** After steps that only add pointer blocks, a block without owner has none yet *)
Lemma grown_unowned n s s1 v :
  grown n s s1 -> used s v -> (forall p k, is_inode s p -> slot_ok k -> addr s p k <> v) ->
  used s1 v /\ forall p k, is_inode s1 p -> slot_ok k -> addr s1 p k <> v.
Proof.
  intros Hg [Hu Hm] Hun. pose proof (pr_frontier _ _ (gr_prog _ _ _ Hg)). split; [split; [lia|done]|].
  intros p k Hp%(is_inode_len _ _ _ (pr_inodes _ _ (gr_prog _ _ _ Hg))) Hk.
  destruct (gr_slots _ _ _ Hg p k Hp Hk) as [->|(_ & _ & Hf)]; [by apply Hun|]. lia.
Qed.

Lemma grown_data_set n s s1 s2 p b v :
  grown n s s1 -> data_set s1 s2 p b v -> data_set s s2 p b v.
Proof.
  intros Hg Hs p' b' Hp' Hb'. rewrite Hs by (done || by apply (is_inode_len _ _ _ (pr_inodes _ _ (gr_prog _ _ _ Hg)))).
  destruct (decide _); [done|]. by eapply grown_data.
Qed.

Lemma set_block_spec s p b v :
  fs_ok s -> is_inode s p -> 0 <= b < MAX_BLOCKS -> used s v -> v < 2 ^ 64 ->
  (forall p' k', is_inode s p' -> slot_ok k' -> addr s p' k' <> v) -> 2 <= avail s ->
  exists s', crfs_inode_set_block s p b v = (s', 0) /\ prog s s' /\ data_set s s' p b v /\
             avail s - 2 <= avail s' <= avail s.
Proof.
  intros Hok Hp Hb Hu Hv Hun Hav. assert (0 <= v < 2 ^ 64) by (destruct Hu; lia).
  unfold crfs_inode_set_block, CRFS_INDIRECT_BASE, CRFS_PTRS_PER_BLOCK.
  destruct (Z.ltb_spec b 12).
  { destruct (set_direct_spec s p b v) as (HA & HB & HC); try done; [lia|].
    eexists. split; [done|]. split; [done|]. split; [done|lia]. }
  destruct (Z.ltb_spec (b - 12) 512).
  - destruct (ensure_indirect_spec s p) as (s1 & -> & Hg & Hn); [done|done|lia|].
    pose proof (gr_prog _ _ _ Hg) as Hpr.
    destruct (grown_unowned _ _ _ v Hg Hu Hun) as [Hu1 Hun1].
    assert (Hp1 : is_inode s1 p) by (by apply (is_inode_len _ _ _ (pr_inodes _ _ Hpr))).
    destruct (store_data_spec s1 p b Ind (b - 12) v) as (HA & HB & HC); try done; [by apply (pr_ok s)| |].
    { cbn. destruct (Z.ltb_spec b 12); [lia|]. by destruct (Z.ltb_spec b 524); [|lia]. }
    eexists. split; [done|]. split; [by eapply prog_trans|]. split; [by eapply grown_data_set|].
    change (indirect (idisk s1 p)) with (addr s1 p Ind). rewrite HC. pose proof (gr_avail _ _ _ Hg). lia.
  - destruct (Z.ltb_spec (b - 12 - 512) (512 * 512)); [|unfold MAX_BLOCKS in *; lia].
    replace (b - 12 - 512) with (b - 524) by lia.
    destruct (ensure_double_spec s p) as (s1 & -> & Hg & Hn); [done|done|lia|].
    pose proof (gr_prog _ _ _ Hg) as Hpr. pose proof (gr_avail _ _ _ Hg).
    assert (Hp1 : is_inode s1 p) by (by apply (is_inode_len _ _ _ (pr_inodes _ _ Hpr))).
    assert (0 <= (b - 524) / 512 < 512) by (unfold MAX_BLOCKS in *; lia).
    destruct (ensure_l1_spec s1 p ((b - 524) / 512)) as (s2 & l1 & -> & Hg2 & Hl1 & Hl0);
      [by apply (pr_ok s)|done|done|done|lia|].
    pose proof (grown_trans _ _ _ _ _ Hg Hg2) as Hg3. pose proof (gr_prog _ _ _ Hg3) as Hpr3.
    destruct (grown_unowned _ _ _ v Hg3 Hu Hun) as [Hu2 Hun2].
    assert (Hp2 : is_inode s2 p) by (by apply (is_inode_len _ _ _ (pr_inodes _ _ Hpr3))).
    destruct (store_data_spec s2 p b (L1 ((b - 524) / 512)) ((b - 524) mod 512) v) as (HA & HB & HC);
      try done; [by apply (pr_ok s)| |congruence|].
    { cbn. destruct (Z.ltb_spec b 12); [lia|]. by destruct (Z.ltb_spec b 524); [lia|]. }
    rewrite Hl1 in *.
    eexists. split; [done|]. split; [by eapply prog_trans|]. split; [by eapply grown_data_set|].
    rewrite HC. pose proof (gr_avail _ _ _ Hg3). lia.
Qed.

Lemma data_slot_block s p b :
  fs_ok s -> is_inode s p -> 0 <= b < MAX_BLOCKS -> addr s p (Data b) <> 0 -> data_block s (addr s p (Data b)).
Proof.
  intros Hok Hp Hb H0. split; [by apply (ok_used s Hok)|].
  intros p' k' Hp' Hk' Hm E. destruct (ok_owner s Hok p (Data b) p' k') as [_ ->]; done.
Qed.

(** A criterion for [fs_ok] that can be computed: no pointer blocks, and the direct
    blocks all different *)
Definition small_inode (i : inode) : bool :=
  (indirect (disk i) =? 0) && (double_indirect (disk i) =? 0) && (zlen (direct (disk i)) =? 12).
Definition all_direct s : list Z := flat_map (fun i => direct (disk i)) (inodes s).

Lemma all_direct_get (l : list inode) p b :
  (forall i, i ∈ l -> zlen (direct (disk i)) = 12) -> 0 <= p < zlen l -> 0 <= b < 12 ->
  (flat_map (fun i => direct (disk i)) l) !! Z.to_nat (12 * p + b) = Some (direct (disk l.[p])).[b].
Proof.
  revert p. induction l as [|i l IH]; intros p Hl Hp Hb; unfold zlen in *; cbn [length flat_map] in *; [lia|].
  pose proof (Hl i (list_elem_of_here i l)). destruct (Z.eq_dec p 0) as [->|].
  - rewrite lookup_app_l by lia. unfold aget. cbn [Z.to_nat lookup_total list_lookup_total].
    by rewrite list_lookup_lookup_total_lt by lia.
  - rewrite lookup_app_r by lia.
    replace (Z.to_nat (12 * p + b) - length (direct (disk i)))%nat with (Z.to_nat (12 * (p - 1) + b)) by lia.
    rewrite IH; [|by intros; apply Hl, list_elem_of_further|lia|lia].
    unfold aget. replace (Z.to_nat p) with (S (Z.to_nat (p - 1))) by lia. done.
Qed.

Lemma small_inode_ptrs s p :
  forallb small_inode (inodes s) = true -> is_inode s p ->
  indirect (idisk s p) = 0 /\ double_indirect (idisk s p) = 0 /\ zlen (direct (idisk s p)) = 12.
Proof.
  rewrite forallb_forall. intros Hs Hp.
  specialize (Hs (inodes s).[p] (proj1 (list_elem_of_In _ _) (aget_elem _ _ Hp))). unfold small_inode in Hs.
  rewrite !andb_true_iff, !Z.eqb_eq in Hs. tauto.
Qed.

Lemma addr_small s p k :
  forallb small_inode (inodes s) = true -> is_inode s p -> slot_ok k -> addr s p k <> 0 ->
  exists b, k = Data b /\ 0 <= b < 12 /\ all_direct s !! Z.to_nat (12 * p + b) = Some (addr s p k).
Proof.
  intros Hs Hp Hk. destruct (small_inode_ptrs s p Hs Hp) as (H1 & H2 & H3). unfold addr, slot_addr.
  destruct k as [| |j|b]; cbn [slot_at parent field]; unfold entry; rewrite ?H1, ?H2; try done.
  destruct (Z.ltb_spec b 12); cbn [slot_at parent field].
  - intros _. exists b. cbn in Hk. split; [done|]. split; [lia|]. apply all_direct_get; [|done|lia].
    intros i Hi%list_elem_of_In. rewrite forallb_forall in Hs. specialize (Hs i Hi). unfold small_inode in Hs.
    rewrite !andb_true_iff, !Z.eqb_eq in Hs. tauto.
  - destruct (b <? 524); cbn [slot_at parent field]; unfold entry; rewrite ?H1, ?H2; done.
Qed.

Lemma fs_ok_small s :
  alloc_wf s -> forallb small_inode (inodes s) = true ->
  NoDup (filter (fun a => a <> 0) (all_direct s)) ->
  Forall (fun a => a = 0 \/ (0 < a < frontier s /\ a mod 4096 = 0)) (all_direct s) -> fs_ok s.
Proof.
  intros Hw Hs Hnd Hu. constructor; [done| | |].
  - intros p Hp. by apply small_inode_ptrs.
  - intros p k Hp Hk H0. destruct (addr_small s p k Hs Hp Hk H0) as (b & -> & Hb & E).
    rewrite Forall_lookup in Hu. by destruct (Hu _ _ E).
  - intros p k p' k' Hp Hp' Hk Hk' H0 E.
    destruct (addr_small s p k Hs Hp Hk H0) as (b & -> & Hb & E1).
    destruct (addr_small s p' k' Hs Hp' Hk') as (b' & -> & Hb' & E2); [congruence|]. rewrite E in E2.
    assert (Hij : Z.to_nat (12 * p + b) = Z.to_nat (12 * p' + b')).
    { apply (NoDup_filter_index (fun a => a <> 0) (all_direct s) _ _ _ Hnd E1 E2 H0). }
    destruct Hp, Hp'. assert (p' = p /\ b' = b) as [-> ->] by lia. done.
Qed.

Lemma unowned_small s v p k :
  forallb small_inode (inodes s) = true -> v <> 0 -> v ∉ all_direct s -> is_inode s p -> slot_ok k -> addr s p k <> v.
Proof.
  intros Hs Hv Hn Hp Hk E. destruct (addr_small s p k Hs Hp Hk) as (b & _ & _ & El); [congruence|].
  apply Hn. rewrite <- E. by eapply list_elem_of_lookup_2.
Qed.

(** Any sequence of allocations and of releases of blocks handed out before; the
    list holds the addresses allocated *)
Inductive alloc_run : crfs -> list Z -> crfs -> Prop :=
| run_done s : alloc_run s [] s
| run_alloc s s1 a l s2 : crfs_alloc_block s = (s1, Some a) -> alloc_run s1 l s2 -> alloc_run s (a :: l) s2
| run_free s a l s2 : 0 <= a < next_seg s * CRFS_SEG_SIZE -> alloc_run (crfs_free_block s a) l s2 -> alloc_run s l s2.

Definition fresh_block s (f a : Z) : Prop :=
  f <= a /\ a mod 4096 = 0 /\ a + 4096 <= total_segs (sb s) * CRFS_SEG_SIZE.

Lemma alloc_run_spec s l s' :
  alloc_run s l s' -> alloc_wf s ->
  alloc_wf s' /\ StronglySorted Z.lt l /\ Forall (fresh_block s (frontier s)) l /\ avail s' = avail s - zlen l.
Proof.
  induction 1 as [s|s s1 a l s2 E _ IH|s a l s2 Ha _ IH]; intros Hw.
  - split; [done|]. split; [constructor|]. split; [constructor|]. unfold zlen. cbn. lia.
  - pose proof (alloc_block_spec s Hw) as H. rewrite E in H.
    destruct H as (_ & Hav & Hw1 & (_ & _ & _ & _ & _ & Ht & _) & Hf & _ & Hm & Hf1 & _ & Hle).
    destruct (IH Hw1) as (Hw2 & Hs & Hfr & Hav2). split; [done|].
    unfold fresh_block in *. rewrite Ht in Hfr. split; [|split].
    + constructor; [done|]. eapply Forall_impl; [exact Hfr|]. cbn. lia.
    + constructor; [done|]. eapply Forall_impl; [exact Hfr|]. cbn. lia.
    + unfold zlen in *. cbn [length]. lia.
  - destruct (free_block_spec s a Hw Ha) as (Hw1 & Hav & Hf & (_ & _ & _ & _ & _ & Ht & _) & _).
    destruct (IH Hw1) as (Hw2 & Hs & Hfr & Hav2). split; [done|]. split; [done|].
    unfold fresh_block in *. rewrite Ht, Hf in Hfr. split; [done|]. lia.
Qed.

Lemma seg_free_after_free s a : 0 <= a -> a / CRFS_SEG_SIZE / 8 < zlen (seg_bitmap s) ->
  seg_used (crfs_free_block s a) (a / CRFS_SEG_SIZE) = false.
Proof.
  intros Ha Hl. set (g := a / CRFS_SEG_SIZE) in *.
  assert (0 <= g) by (apply Z.div_pos; unfold CRFS_SEG_SIZE; lia).
  rewrite seg_used_testbit. unfold crfs_free_block. fold g. rec_simpl.
  rewrite aget_aset_eq by lia. rewrite testbit_bit_clear by lia. by rewrite Z.eqb_refl.
Qed.

(** Block allocation within one mount, for any sequence of allocations and of
    releases of blocks handed out: the addresses are strictly increasing (so no
    block is handed out twice), aligned to blocks, at or past the first free one and
    inside the device; [avail] counts exactly the blocks that can still be handed
    out, an allocation fails exactly when it is 0, and releasing blocks never raises
    it, because the search only moves forward.  Releasing one block clears the bit
    of its whole segment in the bitmap, whatever the other 511 blocks hold. *)
Theorem block_allocation s l s' :
  alloc_wf s -> alloc_run s l s' ->
  alloc_wf s' /\
  StronglySorted Z.lt l /\ Forall (fresh_block s (frontier s)) l /\
  avail s' = avail s - zlen l /\
  (snd (crfs_alloc_block s') = None <-> avail s' = 0) /\
  (forall a, 0 <= a -> a / CRFS_SEG_SIZE / 8 < zlen (seg_bitmap s') ->
     seg_used (crfs_free_block s' a) (a / CRFS_SEG_SIZE) = false).
Proof.
  intros Hw Hr. destruct (alloc_run_spec s l s' Hr Hw) as (Hw' & Hs & Hf & Ha).
  split; [done|]. split; [done|]. split; [done|]. split; [done|]. split; [|by intros; apply seg_free_after_free].
  pose proof (alloc_block_spec s' Hw') as H. destruct (crfs_alloc_block s') as [s1 [a|]]; cbn.
  - split; [done|]. destruct H. lia.
  - by destruct H as [_ ->].
Qed.

(** C8 Set and get on the block map of an inode (direct, indirect and
    double-indirect blocks): when two blocks are left for pointer blocks, setting
    block [b] to a block that has been handed out and has no owner succeeds;
    [crfs_inode_get_block] then returns it for [b] and the address it returned
    before for every other block of every open inode, whose contents are unchanged;
    every block still has one owner.  Past the last double-indirect block, the
    262668th, setting fails and getting returns 0: a file has at most about 1 GB. *)
Theorem block_map_get_set s p b v :
  fs_ok s -> is_inode s p -> 0 <= b < MAX_BLOCKS -> used s v -> v < 2 ^ 64 ->
  (forall p' k, is_inode s p' -> slot_ok k -> addr s p' k <> v) -> 2 <= avail s ->
  (exists s', crfs_inode_set_block s p b v = (s', 0) /\ fs_ok s' /\
    crfs_inode_get_block s' (idisk s' p) b = v /\
    (forall p' b', is_inode s p' -> 0 <= b' -> (p', b') <> (p, b) ->
       crfs_inode_get_block s' (idisk s' p') b' = crfs_inode_get_block s (idisk s p') b') /\
    (forall p' b', is_inode s p' -> 0 <= b' -> crfs_inode_get_block s (idisk s p') b' <> 0 ->
       block_same (dev s) (dev s') (crfs_inode_get_block s (idisk s p') b'))) /\
  (forall b', MAX_BLOCKS <= b' ->
     crfs_inode_set_block s p b' v = (s, -1) /\ crfs_inode_get_block s (idisk s p) b' = 0).
Proof.
  intros Hok Hp Hb Hu Hv Hun Hav. split.
  - destruct (set_block_spec s p b v) as (s' & E & Hpr & Hds & _); try done.
    exists s'. split; [done|]. split; [by apply (pr_ok s)|]. split; [|split].
    + rewrite get_block_slot by done. change (addr s' p (Data b) = v). rewrite Hds by done. by rewrite decide_True.
    + intros p' b' Hp' Hb' Hne. destruct (Z.lt_ge_cases b' MAX_BLOCKS); [|by rewrite !get_block_beyond].
      rewrite !get_block_slot by done. change (addr s' p' (Data b') = addr s p' (Data b')).
      rewrite Hds by done. rewrite decide_False; [done|]. intros [-> ->]. done.
    + intros p' b' Hp' Hb'. destruct (Z.lt_ge_cases b' MAX_BLOCKS); [|by rewrite get_block_beyond].
      rewrite get_block_slot by done. intros H0. apply (pr_data _ _ Hpr). by apply data_slot_block.
  - intros b' Hb'. split; [|by apply get_block_beyond].
    unfold crfs_inode_set_block, CRFS_INDIRECT_BASE, CRFS_PTRS_PER_BLOCK, MAX_BLOCKS in *.
    destruct (Z.ltb_spec b' 12); [lia|]. destruct (Z.ltb_spec (b' - 12) 512); [lia|].
    destruct (Z.ltb_spec (b' - 12 - 512) (512 * 512)); [lia|done].
Qed.
End map.

(** * Witnesses *)

Lemma demo_alloc_wf : alloc_wf demo_mounted.
Proof.
  constructor; [vm_compute; reflexivity|vm_compute; reflexivity|vm_compute; split; discriminate|].
  left. vm_compute. reflexivity.
Defined.

Definition demo_alloc1 : fs ramdisk := fst (crfs_alloc_block demo_mounted).
Definition demo_alloc2 : fs ramdisk := fst (crfs_alloc_block (crfs_free_block demo_alloc1 10485760)).

Lemma block_allocation_witness :
  StronglySorted Z.lt [10485760; 10489856] /\ avail demo_alloc2 = avail demo_mounted - 2.
Proof.
  assert (Hr : alloc_run demo_mounted [10485760; 10489856] demo_alloc2).
  { apply (run_alloc _ demo_alloc1).
    { apply (pair_eq_snd _ _). vm_compute. reflexivity. }
    apply (run_free _ 10485760); [vm_compute; split; [discriminate|reflexivity]|].
    apply (run_alloc _ demo_alloc2); [|constructor].
    apply (pair_eq_snd _ _). vm_compute. reflexivity. }
  destruct (block_allocation _ _ _ demo_alloc_wf Hr) as (_ & H1 & _ & H2 & _). split; [exact H1|exact H2].
Defined.

(** The criteria, computed *)
Definition small_ok (s : fs ramdisk) : bool :=
  forallb small_inode (inodes s) && bool_decide (NoDup (filter (fun a => a <> 0) (all_direct s)))
  && forallb (fun a => (a =? 0) || ((0 <? a) && (a <? frontier s) && (a mod 4096 =? 0))) (all_direct s)
  && (0 <? next_seg s) && (total_segs (sb s) * CRFS_SEG_SIZE <? 2 ^ 64)
  && (0 <=? block_in_seg s) && (block_in_seg s <=? CRFS_BLOCKS_PER_SEG)
  && (0 <? current_seg s) && (current_seg s + 1 =? next_seg s) && (current_seg s <? total_segs (sb s)).

Lemma small_ok_correct s : small_ok s = true -> fs_ok s.
Proof.
  unfold small_ok. rewrite !andb_true_iff, bool_decide_eq_true, !Z.ltb_lt, !Z.leb_le, Z.eqb_eq.
  intros (((((((((H1 & H2) & H3) & H4) & H5) & H6) & H7) & H8) & H9) & H10).
  apply fs_ok_small; [constructor; auto|done|done|].
  apply Forall_forall. intros a Ha%list_elem_of_In. rewrite forallb_forall in H3. specialize (H3 a Ha).
  rewrite orb_true_iff, !andb_true_iff, !Z.ltb_lt, !Z.eqb_eq in H3. tauto.
Qed.

Definition demo_data_block : fs ramdisk := fst (crfs_alloc_block demo_opened).

Lemma block_map_get_set_witness :
  exists s', crfs_inode_set_block demo_data_block 1 600 10498048 = (s', 0) /\
    crfs_inode_get_block s' (idisk s' 1) 600 = 10498048.
Proof.
  assert (Hok : fs_ok demo_data_block) by (apply small_ok_correct; vm_compute; reflexivity).
  assert (Hav : avail demo_data_block = 5628) by (vm_compute; reflexivity).
  assert (Hfr : frontier demo_data_block = 10502144) by (vm_compute; reflexivity).
  assert (Hsm : forallb small_inode (inodes demo_data_block) = true) by (vm_compute; reflexivity).
  assert (Hnot : 10498048 ∉ all_direct demo_data_block) by (apply (bool_decide_unpack _); vm_compute; exact I).
  destruct (block_map_get_set demo_data_block 1 600 10498048 Hok) as [(s' & E & _ & G & _) _].
  - vm_compute. split; [discriminate|reflexivity].
  - vm_compute. split; [discriminate|reflexivity].
  - split; [rewrite Hfr; lia|reflexivity].
  - reflexivity.
  - intros p' k. apply unowned_small; [exact Hsm|discriminate|exact Hnot].
  - rewrite Hav. lia.
  - exists s'. split; [exact E|exact G].
Defined.
