(* ===== verification/CrfsFiles.v ===== *)
(** The files of CrimsonFS as sequences of bytes: what [crfs_write] and [crfs_read]
    do to the contents of every open file, and what a freshly formatted file system
    lets one open. *)
From S2P Require Import Prelude Pmm CString Crfs CrfsMap.

Section files.
Context {D : Type} `{BD : BlockDevice D}.
Notation crfs := (fs D).
Implicit Types s : crfs.

Notation byte s x := (bd_byte (dev s) x).

(** Byte [x] of the file of inode [p]; what lies in a hole is 0 *)
Definition content s (p x : Z) : Z :=
  let a := crfs_inode_get_block s (idisk s p) (x / 4096) in
  if a =? 0 then 0 else byte s (a + x mod 4096).

Definition MAX_FILE : Z := MAX_BLOCKS * 4096.

Lemma content_addr s p x :
  0 <= x < MAX_FILE ->
  content s p x = if addr s p (Data (x / 4096)) =? 0 then 0 else byte s (addr s p (Data (x / 4096)) + x mod 4096).
Proof. intros Hx. unfold content. rewrite get_block_slot; [done|]. unfold MAX_FILE in Hx. lia. Qed.

Lemma content_beyond s p x : MAX_FILE <= x -> content s p x = 0.
Proof. intros Hx. unfold content. rewrite get_block_beyond; [done|]. unfold MAX_FILE in Hx. lia. Qed.

(** A step that allocates without giving the block an owner *)
Lemma prog_extend s s2 :
  fs_ok s -> alloc_wf s2 -> frontier s <= frontier s2 -> inodes s2 = inodes s ->
  files s2 = files s -> mounted s2 = mounted s -> total_segs (sb s2) = total_segs (sb s) ->
  (forall x, x < frontier s -> byte s2 x = byte s x) ->
  prog s s2 /\ forall p k, is_inode s p -> slot_ok k -> addr s2 p k = addr s p k.
Proof.
  intros Hok Hw Hf Hi Hfi Hm Ht Hby.
  assert (Hid : forall p, idisk s2 p = idisk s p) by (intros; unfold idisk; by rewrite Hi).
  assert (Hip : forall p, is_inode s2 p <-> is_inode s p) by (intros; apply is_inode_len; by rewrite Hi).
  assert (HA : forall p k, is_inode s p -> slot_ok k -> addr s2 p k = addr s p k).
  { intros p k Hp Hk. apply addr_frame; [done|done|]. intros m _ Hm0 H0 x Hx.
    apply Hby. by apply (used_below s (addr s p m)); [apply (ok_used s Hok)|]. }
  assert (HU : forall a, used s a -> used s2 a) by (intros a [? ?]; split; [lia|done]).
  split; [|done]. constructor; try done.
  - constructor; [done| | |].
    + intros p ?%Hip. rewrite Hid. by apply (ok_direct s Hok).
    + intros p k ?%Hip Hk. rewrite HA by done. intros. by apply HU, (ok_used s Hok).
    + intros p k p' k' ?%Hip ?%Hip ? ?. rewrite !HA by done. by apply (ok_owner s Hok).
  - by rewrite Hi.
  - intros p Hp. by rewrite Hid.
  - intros a [Hu Hn]. split; [split; [by apply HU|]|].
    + intros p k ?%Hip Hk Hmk. rewrite HA by done. by apply Hn.
    + intros x Hx. apply Hby. by apply (used_below s a).
Qed.

(** A step of the write loop, seen from all files: [upd] is what happens to the
    contents of inode [p] *)
Record file_step s s' (n p : Z) (upd : (Z -> Z) -> Z -> Z) : Prop := {
  fst_ok : fs_ok s';
  fst_inodes : zlen (inodes s') = zlen (inodes s);
  fst_attrs p' : is_inode s p' -> attrs (idisk s' p') = attrs (idisk s p');
  fst_rest : files s' = files s /\ mounted s' = mounted s /\ total_segs (sb s') = total_segs (sb s);
  fst_avail : avail s - n <= avail s' <= avail s;
  fst_content x : 0 <= x < MAX_FILE -> content s' p x = upd (content s p) x;
  fst_other p' x : is_inode s p' -> p' <> p -> 0 <= x < MAX_FILE -> content s' p' x = content s p' x
}.

Definition block_image (b bo : Z) (chunk : list Z) (old : Z -> Z) (x : Z) : Z :=
  if x / 4096 =? b then
    if in_range bo (zlen chunk) (x mod 4096) then chunk.[x mod 4096 - bo]
    else if bo =? 0 then 0 else old x
  else old x.

Lemma splice_get block off data i :
  0 <= off -> off + zlen data <= zlen block -> 0 <= i ->
  (splice block off data).[i] = if in_range off (zlen data) i then data.[i - off] else block.[i].
Proof.
  unfold splice, zlen, aget. intros Hoff Hlen Hi.
  destruct (in_range_spec off (Z.of_nat (length data)) i).
  - rewrite lookup_total_app_r by (rewrite length_take; lia).
    rewrite lookup_total_app_l by (rewrite length_take; lia). f_equal. rewrite length_take. lia.
  - destruct (Z.lt_ge_cases i off).
    + rewrite lookup_total_app_l by (rewrite length_take; lia). by rewrite lookup_total_take, decide_True by lia.
    + rewrite lookup_total_app_r by (rewrite length_take; lia).
      rewrite lookup_total_app_r by (rewrite length_take; lia).
      rewrite lookup_total_drop. f_equal. rewrite length_take. lia.
Qed.

Lemma zlen_splice block off data :
  0 <= off -> off + zlen data <= zlen block -> zlen (splice block off data) = zlen block.
Proof. unfold splice, zlen. intros. rewrite !length_app, length_take, length_drop. lia. Qed.

Lemma read_block_get s a i : 0 <= i < 4096 -> (crfs_read_block s a).[i] = byte s (a + i).
Proof.
  intros Hi. unfold crfs_read_block, bd_read, aget, CRFS_BLOCK_SIZE.
  rewrite (list_lookup_total_correct _ _ (byte s (a + i))); [done|].
  rewrite list_lookup_fmap, lookup_seqZ_lt by lia. cbn. do 2 f_equal. lia.
Qed.

Lemma zlen_read_block s a : zlen (crfs_read_block s a) = 4096.
Proof. unfold zlen, crfs_read_block, bd_read. by rewrite length_map, length_seqZ. Qed.

Lemma write_block_byte s a buf x :
  zlen buf = 4096 -> byte (crfs_write_block s a buf) x = if in_range a 4096 x then u8 buf.[x - a] else byte s x.
Proof.
  intros Hb. unfold crfs_write_block. rec_simpl. rewrite bd_write_byte.
  rewrite take_ge by (unfold zlen in Hb; lia). by rewrite Hb.
Qed.

Lemma frontier_next s : alloc_wf s -> frontier s <= next_seg s * CRFS_SEG_SIZE.
Proof.
  intros [Hn Ht Hb Hc]. unfold frontier, CRFS_SEG_SIZE, CRFS_BLOCK_SIZE, CRFS_BLOCKS_PER_SEG in *.
  destruct (Z.eqb_spec (current_seg s) 0); lia.
Qed.

(** Giving back a block touches neither the files nor the allocator's future *)
Lemma free_block_step s a :
  fs_ok s -> used s a ->
  let s' := crfs_free_block s a in
  fs_ok s' /\ avail s' = avail s /\ forall p x, content s' p x = content s p x.
Proof.
  intros Hok [Ha _] s'. pose proof (frontier_next s (ok_alloc s Hok)).
  destruct (free_block_spec s a (ok_alloc s Hok)) as (Hw & Hav & Hf & (Hd & Hi & _) & _); [lia|].
  split; [by apply (fs_ok_same s)|]. split; [exact Hav|]. intros p x. subst s'.
  unfold content, crfs_inode_get_block, read_ptrs, idisk. rewrite Hd, Hi. reflexivity.
Qed.

Lemma zeros_get i : 0 <= i < 4096 -> u8 (replicate 4096 0).[i] = 0.
Proof. intros. by rewrite (aget_replicate 4096) by lia. Qed.


(** The buffer of one round: the old block or zeros, with the chunk over it *)
Lemma write_block_spec s p b bo chunk :
  fs_ok s -> is_inode s p -> 0 <= b < MAX_BLOCKS -> 0 <= bo -> bo + zlen chunk <= 4096 ->
  Forall is_byte chunk -> 3 <= avail s ->
  exists s', write_block s p b bo chunk = Some s' /\ file_step s s' 3 p (block_image b bo chunk).
Proof.
  intros Hok Hp Hb Hbo Hlen Hby Hav. unfold write_block.
  rewrite get_block_slot by done. fold (addr s p (Data b)). set (old := addr s p (Data b)).
  set (buf0 := if negb (old =? 0) && negb (bo =? 0) then _ else _).
  assert (Hb0 : zlen buf0 = 4096) by (unfold buf0; case_match; [apply zlen_read_block|done]).
  pose proof (zlen_splice buf0 bo chunk Hbo ltac:(lia)) as Hsp. rewrite Hb0 in Hsp.
  pose proof (alloc_block_spec s (ok_alloc s Hok)) as H. destruct (crfs_alloc_block s) as [s1 [a|]]; [|lia].
  destruct H as (_ & Hav1 & Hw & (Hd & Hi & Hfi & Hmo & _ & Hts & _) & Hfa & Ha0 & Ham & Hf1 & Hn & Hle).
  pose proof (aw_total s (ok_alloc s Hok)) as Htot.
  set (s2 := crfs_write_block s1 a (splice buf0 bo chunk)).
  destruct (prog_extend s s2) as [Hpr HA]; try done.
  { destruct Hw. by constructor. }
  { change (frontier s2) with (frontier s1). lia. }
  { intros x Hx. unfold s2. rewrite write_block_byte by done.
    destruct (in_range_spec a 4096 x); [lia|]. by rewrite Hd. }
  assert (Hp2 : is_inode s2 p) by (by apply (is_inode_len _ _ _ (pr_inodes _ _ Hpr))).
  assert (Hu2 : used s2 a) by (split; [change (frontier s2) with (frontier s1); lia|done]).
  assert (Hun : forall p' k, is_inode s2 p' -> slot_ok k -> addr s2 p' k <> a).
  { intros p' k Hp'%(is_inode_len _ _ _ (pr_inodes _ _ Hpr)) Hk. rewrite HA by done. by apply unowned_fresh. }
  destruct (set_block_spec s2 p b a) as (s3 & -> & Hpr3 & Hds & Hav3); try done.
  { by apply (pr_ok s). } { lia. } { change (avail s2) with (avail s1). lia. }
  change (avail s2) with (avail s1) in Hav3.
  set (s4 := if old =? 0 then s3 else crfs_free_block s3 old).
  assert (Hfree : fs_ok s4 /\ avail s4 = avail s3 /\ inodes s4 = inodes s3 /\
    (files s4 = files s3 /\ mounted s4 = mounted s3 /\ total_segs (sb s4) = total_segs (sb s3)) /\
    forall p' x, content s4 p' x = content s3 p' x).
  { unfold s4. destruct (Z.eqb_spec old 0); [split; [by apply (pr_ok s2)|done]|].
    destruct (free_block_step s3 old) as (? & ? & ?); [by apply (pr_ok s2)| |done].
    assert (used s old) as [? ?] by (by apply (ok_used s Hok)).
    pose proof (pr_frontier _ _ Hpr). pose proof (pr_frontier _ _ Hpr3). split; [lia|done]. }
  destruct Hfree as (Hok4 & Hav4 & Hi4 & (Hfi4 & Hmo4 & Hts4) & Hc4).
  pose proof (prog_trans _ _ _ Hpr Hpr3) as [_ _ Hl Hat (Hfi3 & Hmo3 & Hts3) Hdat].
  (* contents of a data block of the old state are those of the new *)
  assert (Hkeep : forall p' x, is_inode s p' -> 0 <= x < MAX_FILE -> ~ (p' = p /\ x / 4096 = b) ->
    content s4 p' x = content s p' x).
  { intros p' x Hp' Hx Hne. rewrite Hc4, !content_addr by done.
    assert (Hbx : 0 <= x / 4096 < MAX_BLOCKS) by (unfold MAX_FILE in *; lia).
    rewrite Hds by (done || by apply (is_inode_len _ _ _ (pr_inodes _ _ Hpr))).
    rewrite decide_False by done. rewrite HA by done.
    destruct (Z.eqb_spec (addr s p' (Data (x / 4096))) 0) as [|H0]; [done|].
    destruct (Hdat _ (data_slot_block s p' (x / 4096) Hok Hp' Hbx H0)) as [_ Hsame]. apply Hsame. lia. }
  exists s4. split; [done|]. constructor; [exact Hok4|..].
  - by rewrite Hi4.
  - intros p' Hp'. unfold idisk. rewrite Hi4. by apply Hat.
  - split; [congruence|]. split; congruence.
  - lia.
  - intros x Hx. unfold block_image. destruct (Z.eqb_spec (x / 4096) b) as [Hxb|]; [|by apply Hkeep; naive_solver].
    rewrite Hc4, content_addr, Hxb, Hds by done. rewrite decide_True by done.
    destruct (Z.eqb_spec a 0); [lia|].
    assert (Hda : data_block s2 a) by (split; [done|]; intros; by apply Hun).
    destruct (pr_data _ _ Hpr3 a Hda) as [_ Hsame]. rewrite Hsame by lia.
    unfold s2. rewrite write_block_byte by done. destruct (in_range_spec a 4096 (a + x mod 4096)); [|lia].
    replace (a + x mod 4096 - a) with (x mod 4096) by lia.
    rewrite splice_get by lia. destruct (in_range_spec bo (zlen chunk) (x mod 4096)).
    + apply u8_id. apply (Forall_aget is_byte); [done|lia].
    + unfold buf0. destruct (Z.eqb_spec bo 0).
      * rewrite andb_false_r. by apply zeros_get; lia.
      * rewrite andb_true_r, content_addr, Hxb by done. fold old.
        destruct (Z.eqb_spec old 0); [by apply zeros_get; lia|].
        cbn [negb]. rewrite read_block_get by lia. apply u8_id, bd_byte_range.
  - intros p' x Hp' Hne Hx. apply Hkeep; [done|done|]. naive_solver.
Qed.

(** * The loops *)

Lemma pos_block pos : 0 <= pos < 2 ^ 44 -> u32 (Z.shiftr (u64 pos) CRFS_BLOCK_SHIFT) = pos / 4096.
Proof.
  intros H. rewrite u64_id by lia. unfold CRFS_BLOCK_SHIFT. rewrite Z.shiftr_div_pow2 by lia.
  change (2 ^ 12) with 4096. apply u32_id. lia.
Qed.

Lemma pos_offset pos : 0 <= pos < 2 ^ 44 -> Z.land (u64 pos) (CRFS_BLOCK_SIZE - 1) = pos mod 4096.
Proof.
  intros H. rewrite u64_id by lia. change (CRFS_BLOCK_SIZE - 1) with (Z.ones 12).
  rewrite Z.land_ones by lia. done.
Qed.

(** The contents after writing [data] at [pos]: the bytes past the end of the data
    in its last block are lost when that block is entered at its start *)
Definition write_image (pos : Z) (data : list Z) (old : Z -> Z) (x : Z) : Z :=
  let e := pos + zlen data in
  if in_range pos (zlen data) x then data.[x - pos]
  else if (pos <? e) && (x / 4096 =? (e - 1) / 4096) && (pos <=? x / 4096 * 4096) then 0
  else old x.

Lemma aget_app_take (l : list Z) n i :
  0 <= n <= zlen l -> 0 <= i -> l.[i] = if i <? n then (take (Z.to_nat n) l).[i] else (drop (Z.to_nat n) l).[i - n].
Proof.
  unfold zlen, aget. intros Hn Hi. destruct (Z.ltb_spec i n).
  - by rewrite lookup_total_take, decide_True by lia.
  - rewrite lookup_total_drop. f_equal. lia.
Qed.

Lemma write_image_split pos data k old old' x :
  0 <= pos -> 0 <= x -> 0 < k <= zlen data -> k <= 4096 - pos mod 4096 ->
  (k < zlen data -> k = 4096 - pos mod 4096) ->
  old' x = block_image (pos / 4096) (pos mod 4096) (take (Z.to_nat k) data) old x ->
  write_image (pos + k) (drop (Z.to_nat k) data) old' x = write_image pos data old x.
Proof.
  intros Hpos Hx Hk Hk2 Hfull E.
  assert (Hld : zlen (drop (Z.to_nat k) data) = zlen data - k) by (unfold zlen in *; rewrite length_drop; lia).
  assert (Hlt : zlen (take (Z.to_nat k) data) = k) by (unfold zlen in *; rewrite length_take; lia).
  unfold write_image. rewrite Hld, E. unfold block_image. rewrite Hlt. clear E old' Hld Hlt.
  destruct (in_range_spec pos (zlen data) x) as [Hin|Hout].
  - rewrite (aget_app_take data k (x - pos)) by lia.
    destruct (in_range_spec (pos + k) (zlen data - k) x).
    + destruct (Z.ltb_spec (x - pos) k); [lia|]. f_equal. lia.
    + destruct (Z.ltb_spec (x - pos) k); [|lia].
      destruct (Z.eqb_spec (x / 4096) (pos / 4096)); [|lia].
      destruct (in_range_spec (pos mod 4096) k (x mod 4096)); [|lia].
      replace (x mod 4096 - pos mod 4096) with (x - pos) by lia.
      destruct (Z.ltb_spec (pos + k) (pos + k + (zlen data - k))); [|done].
      destruct (Z.leb_spec (pos + k) (x / 4096 * 4096)); [lia|]. by rewrite andb_false_r.
  - destruct (in_range_spec (pos + k) (zlen data - k) x); [lia|].
    replace (pos + k + (zlen data - k)) with (pos + zlen data) by lia.
    destruct (Z.ltb_spec pos (pos + zlen data)); [|lia].
    destruct (Z.eqb_spec (x / 4096) (pos / 4096)) as [Hb|Hb].
    + destruct (in_range_spec (pos mod 4096) k (x mod 4096)); [lia|].
      destruct (Z.eqb_spec (pos mod 4096) 0).
      * destruct (Z.ltb_spec (pos + k) (pos + zlen data)); [lia|].
        destruct (Z.eqb_spec (x / 4096) ((pos + zlen data - 1) / 4096)); [|lia].
        destruct (Z.leb_spec pos (x / 4096 * 4096)); [done|lia].
      * destruct (Z.leb_spec (pos + k) (x / 4096 * 4096)); [lia|].
        destruct (Z.leb_spec pos (x / 4096 * 4096)); [lia|]. by rewrite !andb_false_r.
    + destruct (Z.ltb_spec (pos + k) (pos + zlen data)).
      * destruct (Z.eqb_spec (x / 4096) ((pos + zlen data - 1) / 4096)); [|done].
        destruct (Z.leb_spec (pos + k) (x / 4096 * 4096)), (Z.leb_spec pos (x / 4096 * 4096)); done || lia.
      * destruct (Z.eqb_spec (x / 4096) ((pos + zlen data - 1) / 4096)); [lia|done].
Qed.

Lemma file_step_refl s p pos : fs_ok s -> file_step s s 0 p (write_image pos []).
Proof.
  intros Hok. constructor; try done; [lia|].
  intros x _. unfold write_image. destruct (in_range_spec pos (zlen (@nil Z)) x); [unfold zlen in *; cbn in *; lia|].
  destruct (Z.ltb_spec pos (pos + zlen (@nil Z))); [unfold zlen in *; cbn in *; lia|done].
Qed.

Lemma write_loop_spec fuel s p off data total :
  fs_ok s -> is_inode s p -> Forall is_byte data -> 0 <= off -> 0 <= total ->
  off + total + zlen data <= MAX_FILE ->
  zlen data = 0 \/ zlen data + (off + total) mod 4096 <= 4096 * Z.of_nat fuel ->
  3 * Z.of_nat fuel <= avail s ->
  exists s', write_loop fuel s p off data total = Some s' /\
             file_step s s' (3 * Z.of_nat fuel) p (write_image (off + total) data).
Proof.
  revert s data total. induction fuel as [|fuel IH]; intros s data total Hok Hp Hby Ho Ht Hmax Hf Hav.
  { destruct data as [|v l]; [|unfold zlen in *; cbn [length] in *; lia].
    exists s. split; [done|]. by apply file_step_refl. }
  destruct data as [|v l].
  { exists s. split; [done|]. destruct (file_step_refl s p (off + total) Hok). constructor; try done. lia. }
  set (data := v :: l) in *. assert (Hd : 0 < zlen data) by (unfold zlen; cbn; lia).
  assert (HM : MAX_FILE < 2 ^ 44) by done.
  change (write_loop (S fuel) s p off data total) with
    (let pos := u64 (off + total) in
     let block_no := u32 (Z.shiftr pos CRFS_BLOCK_SHIFT) in
     let block_off := Z.land pos (CRFS_BLOCK_SIZE - 1) in
     let to_write := Z.min (CRFS_BLOCK_SIZE - block_off) (zlen data) in
     match write_block s p block_no block_off (take (Z.to_nat to_write) data) with
     | None => None
     | Some s1 => write_loop fuel s1 p off (drop (Z.to_nat to_write) data) (total + to_write)
     end).
  cbv zeta. rewrite pos_block, pos_offset by lia. set (pos := off + total) in *.
  change CRFS_BLOCK_SIZE with 4096. set (k := Z.min (4096 - pos mod 4096) (zlen data)).
  assert (Hk : 0 < k <= zlen data) by (unfold k; lia).
  destruct (write_block_spec s p (pos / 4096) (pos mod 4096) (take (Z.to_nat k) data)) as (s1 & -> & Hs1);
    [done|done|unfold MAX_FILE, MAX_BLOCKS in *; lia|lia| |by apply Forall_take|lia|].
  { unfold zlen. rewrite length_take. lia. }
  assert (Hld : zlen (drop (Z.to_nat k) data) = zlen data - k) by (unfold zlen in *; rewrite length_drop; lia).
  destruct Hs1 as [Hok1 Hi1 Ha1 (Hf1 & Hm1 & Ht1) Hav1 Hc1 Ho1].
  assert (Hip : forall p', is_inode s1 p' <-> is_inode s p') by (intros; by apply is_inode_len).
  destruct (IH s1 (drop (Z.to_nat k) data) (total + k)) as (s2 & E & Hs2);
    [done|by apply Hip|by apply Forall_drop|done|lia|lia| |lia|].
  { rewrite Hld. unfold k, pos in *. lia. }
  exists s2. split; [done|]. destruct Hs2 as [Hok2 Hi2 Ha2 (Hf2 & Hm2 & Ht2) Hav2 Hc2 Ho2].
  constructor; [done| | | |lia| |].
  - congruence.
  - intros p' Hp'. rewrite Ha2, Ha1 by (done || by apply Hip). done.
  - split; [congruence|]. split; congruence.
  - intros x Hx. rewrite Hc2 by done. replace (off + (total + k)) with (pos + k) by lia.
    apply write_image_split; [lia|lia|lia|unfold k; lia|unfold k; lia|]. by apply Hc1.
  - intros p' x Hp' Hne Hx. rewrite Ho2, Ho1; [done|done|done|done|by apply Hip|done|done].
Qed.

Lemma read_loop_spec fuel s p off count total :
  0 <= off -> 0 <= total -> off + count <= 2 ^ 44 -> 
  count <= total \/ count - total + (off + total) mod 4096 <= 4096 * Z.of_nat fuel ->
  read_loop fuel s (idisk s p) off count total = Some (map (content s p) (seqZ (off + total) (count - total))).
Proof.
  revert total. induction fuel as [|fuel IH]; intros total Ho Ht Hmax Hf; cbn [read_loop].
  - destruct (Z.leb_spec count total); [|lia]. by rewrite seqZ_nil by lia.
  - destruct (Z.leb_spec count total); [by rewrite seqZ_nil by lia|].
    rewrite pos_block, pos_offset by lia. set (pos := off + total) in *. change CRFS_BLOCK_SIZE with 4096.
    set (k := Z.min (4096 - pos mod 4096) (count - total)).
    rewrite IH by (unfold k, pos in *; lia). cbn [option_map]. f_equal.
    replace (count - total) with (k + (count - (total + k))) by lia.
    rewrite seqZ_app by (unfold k; lia). rewrite map_app.
    replace (off + (total + k)) with (pos + k) by lia. f_equal.
    apply list_eq_same_length with (Z.to_nat k).
    + by rewrite length_map, length_seqZ.
    + case_match; [by rewrite length_replicate|].
      rewrite length_take, length_drop. unfold crfs_read_block, bd_read.
      rewrite length_map, length_seqZ. unfold CRFS_BLOCK_SIZE, k. lia.
    + intros i x y Hi. rewrite list_lookup_fmap, lookup_seqZ_lt by lia. cbn. intros Hx [= <-].
      unfold content. replace ((pos + Z.of_nat i) / 4096) with (pos / 4096) by (unfold k in *; lia).
      destruct (crfs_inode_get_block s (idisk s p) (pos / 4096) =? 0) eqn:E.
      * apply lookup_replicate in Hx as [-> _]. done.
      * rewrite lookup_take, decide_True, lookup_drop in Hx by lia.
        unfold crfs_read_block, bd_read in Hx.
        rewrite list_lookup_fmap, lookup_seqZ_lt in Hx by (unfold CRFS_BLOCK_SIZE, k in *; lia).
        injection Hx as <-. f_equal. unfold k in *. lia.
Qed.

(** * Reading and writing through a descriptor *)

Definition fd_open s (fd p : Z) : Prop :=
  0 <= fd < zlen (files s) /\ zlen (files s) = CRFS_MAX_OPEN /\ mounted s = true /\
  in_use (files s).[fd] <> 0 /\ finode (files s).[fd] = p /\ is_inode s p.

Lemma bad_fd_open s fd p : fd_open s fd p -> bad_fd fd = false.
Proof.
  intros (H & E & _). unfold bad_fd. rewrite E in H. destruct (Z.ltb_spec fd 0), (Z.leb_spec CRFS_MAX_OPEN fd); done || lia.
Qed.

Lemma files_mod_file s fd f fd' :
  0 <= fd < zlen (files s) -> 0 <= fd' ->
  (files (mod_file s fd f)).[fd'] = if fd' =? fd then f (files s).[fd] else (files s).[fd'].
Proof.
  intros Hf Hf'. unfold mod_file. rec_simpl. rewrite aget_aset by lia.
  rewrite (Z.eqb_sym fd fd'). done.
Qed.

(** A step that leaves the device, the pointers and the allocator alone *)
Record quiet s s' : Prop := {
  qu_ok : fs_ok s -> fs_ok s';
  qu_inodes : zlen (inodes s') = zlen (inodes s);
  qu_avail : avail s' = avail s;
  qu_content p x : is_inode s p -> 0 <= x < MAX_FILE -> content s' p x = content s p x
}.

Lemma quiet_intro s s' :
  dev s' = dev s -> sb s' = sb s -> next_seg s' = next_seg s -> seg_bitmap s' = seg_bitmap s ->
  block_in_seg s' = block_in_seg s -> current_seg s' = current_seg s ->
  zlen (inodes s') = zlen (inodes s) ->
  (forall p, is_inode s p -> ptrs_of (idisk s' p) = ptrs_of (idisk s p)) -> quiet s s'.
Proof.
  intros Hd Hs Hn Hb Hbi Hc Hl Hp.
  assert (Hsu : forall i, seg_used s' i = seg_used s i) by (intros; unfold seg_used; by rewrite Hb).
  constructor; [|done| |].
  - intros Hok. destruct (ok_alloc s Hok) as [A1 A2 A3 A4]. apply (fs_ok_same s); try done.
    + constructor; rewrite ?Hn, ?Hs, ?Hbi, ?Hc; done.
    + unfold frontier. by rewrite Hn, Hc, Hbi.
  - unfold avail. rewrite Hc, Hbi. do 3 f_equal. unfold free_segs_left. rewrite Hn, Hs.
    apply filter_agree. intros i _. by rewrite Hsu.
  - intros p x Hip Hx. rewrite !content_addr by done. rewrite (addr_same s s') by auto. by rewrite Hd.
Qed.

Lemma grow_attrs now e i : size (grow now e i) = Z.max (size i) e.
Proof. unfold grow. destruct (Z.ltb_spec (size i) e); rec_simpl; lia. Qed.
Lemma grow_ptrs now e i : ptrs_of (grow now e i) = ptrs_of i.
Proof. unfold grow. by destruct (size i <? e). Qed.

Definition file_size s (p : Z) : Z := size (idisk s p).

Lemma crfs_write_spec s fd p data now :
  fs_ok s -> fd_open s fd p -> Z.land (flags (files s).[fd]) 3 <> 0 -> Forall is_byte data ->
  let off := offset (files s).[fd] in let n := zlen data in
  0 <= off -> off + n <= MAX_FILE -> 3 * (n / 4096 + 2) <= avail s ->
  exists s', crfs_write s fd data now = Some (s', n) /\ fs_ok s' /\
    zlen (inodes s') = zlen (inodes s) /\ mounted s' = true /\ zlen (files s') = zlen (files s) /\
    (forall x, 0 <= x < MAX_FILE -> content s' p x = write_image off data (content s p) x) /\
    file_size s' p = Z.max (file_size s p) (off + n) /\
    (forall fd', 0 <= fd' -> (files s').[fd'] =
       if fd' =? fd then (files s).[fd] <| offset := off + n |> else (files s).[fd']) /\
    (forall p', is_inode s p' -> p' <> p -> file_size s' p' = file_size s p' /\
       forall x, 0 <= x < MAX_FILE -> content s' p' x = content s p' x).
Proof.
  intros Hok Hopen Hfl Hby off n Ho Hmax Hav. pose proof (bad_fd_open s fd p Hopen) as Hbad.
  destruct Hopen as (Hfd & Hfl1 & Hmnt & Hiu & Hfi & Hp).
  assert (Hn : 0 <= n) by (unfold n, zlen; lia).
  destruct (write_loop_spec (io_fuel n) s p off data 0) as (s1 & E & Hs1); try done; [lia| | |].
  { unfold io_fuel, CRFS_BLOCK_SIZE. lia. } { unfold io_fuel, CRFS_BLOCK_SIZE. lia. }
  destruct Hs1 as [Hok1 Hi1 Ha1 (Hf1 & Hm1 & _) Hav1 Hc1 Ho1].
  unfold crfs_write. rewrite Hbad, Hmnt, Hfi. cbn [negb].
  destruct (Z.eqb_spec (in_use (files s).[fd]) 0); [done|].
  destruct (Z.eqb_spec p (-1)); [destruct Hp; lia|]. cbn [orb].
  change (Z.lor O_WRONLY O_RDWR) with 3. destruct (Z.eqb_spec (Z.land (flags (files s).[fd]) 3) 0); [done|].
  cbn [crfs_journal_begin fst]. fold off n. rewrite E. cbn [crfs_journal_commit fst].
  assert (Hu : u64 (off + n) = off + n) by (apply u64_id; unfold MAX_FILE, MAX_BLOCKS in *; lia). rewrite Hu.
  assert (Hp1 : is_inode s1 p) by (by apply (is_inode_len s)).
  set (s2 := mod_disk s1 p (grow now (off + n))).
  set (s3 := mod_file s2 fd (fun f => f <| offset := u64 (offset f + n) |>)).
  eexists. split; [done|]. set (s5 := _ <| write_ops := _ |>).
  assert (Hid : forall p', is_inode s p' -> idisk s5 p' = if p' =? p then grow now (off + n) (idisk s1 p) else idisk s1 p').
  { intros p' [Hp' _]. change (idisk s5 p') with (idisk (set_dirty s3 p) p').
    rewrite idisk_set_dirty; [|unfold is_inode, s3, mod_file, s2, mod_disk in *; rec_simpl; by rewrite zlen_mod_inode|done].
    change (idisk s3 p') with (idisk s2 p'). unfold s2. by rewrite idisk_mod_disk. }
  assert (Hl5 : zlen (inodes s5) = zlen (inodes s1)).
  { change (zlen (inodes s5)) with (zlen (inodes (mod_inode s3 p (fun i => i <| dirty := 1 |>)))).
    rewrite zlen_mod_inode. change (zlen (inodes s3)) with (zlen (inodes s2)). apply zlen_mod_inode. }
  assert (Hq : quiet s1 s5).
  { apply quiet_intro; try reflexivity; [done|].
    intros p' Hp'%(is_inode_len _ _ _ Hi1). rewrite Hid by done.
    destruct (Z.eqb_spec p' p) as [->|]; [apply grow_ptrs|done]. }
  split; [by apply (qu_ok _ _ Hq)|]. split; [by rewrite Hl5|].
  split; [transitivity (mounted s1); [done|by rewrite Hm1]|].
  split; [transitivity (zlen (files s1)); [apply zlen_aset|by rewrite Hf1]|].
  split; [|split; [|split]].
  - intros x Hx. rewrite (qu_content _ _ Hq) by done. replace off with (off + 0) by lia. by apply Hc1.
  - unfold file_size. rewrite Hid, Z.eqb_refl, grow_attrs by done.
    pose proof (Ha1 p Hp) as Hat. unfold attrs in Hat. injection Hat as -> _ _. done.
  - intros fd' Hfd'. change (files s5) with (files s3). unfold s3. rewrite files_mod_file;
      change (files s2) with (files s1); rewrite ?Hf1; [|done|done].
    destruct (fd' =? fd); [|done]. fold off. by rewrite Hu.
  - intros p' Hp' Hne. split.
    + unfold file_size. rewrite Hid by done. destruct (Z.eqb_spec p' p); [done|].
      pose proof (Ha1 p' Hp') as Hat. unfold attrs in Hat. by injection Hat as -> _ _.
    + intros x Hx. rewrite (qu_content _ _ Hq) by (done || by apply (is_inode_len s)). by apply Ho1.
Qed.

Lemma crfs_read_spec s fd p count now :
  fs_ok s -> fd_open s fd p -> 0 <= count < 2 ^ 63 ->
  let off := offset (files s).[fd] in
  let m := Z.max 0 (Z.min count (file_size s p - off)) in
  0 <= off -> file_size s p <= 2 ^ 44 ->
  exists s', crfs_read s fd count now = Some (s', map (content s p) (seqZ off m), m) /\
    (0 < count -> off < file_size s p -> offset (files s').[fd] = off + m) /\
    fs_ok s' /\ zlen (inodes s') = zlen (inodes s) /\
    (forall p', is_inode s p' -> file_size s' p' = file_size s p' /\
       forall x, 0 <= x < MAX_FILE -> content s' p' x = content s p' x).
Proof.
  intros Hok Hopen Hc off m Ho Hsz. pose proof (bad_fd_open s fd p Hopen) as Hbad.
  destruct Hopen as (Hfd & Hfl1 & Hmnt & Hiu & Hfi & Hp).
  unfold crfs_read. rewrite Hbad, Hmnt, Hfi. cbn [negb].
  destruct (Z.eqb_spec (in_use (files s).[fd]) 0); [done|].
  destruct (Z.eqb_spec p (-1)); [destruct Hp; lia|]. cbn [orb]. fold off. unfold file_size in *.
  destruct (Z.leb_spec (size (idisk s p)) off).
  { replace m with 0 by lia. exists s. rewrite seqZ_nil by lia. split; [done|]. split; [lia|]. done. }
  rewrite u64_id by lia.
  assert (Hm : (if size (idisk s p) <? off + count then size (idisk s p) - off else count) = m).
  { destruct (Z.ltb_spec (size (idisk s p)) (off + count)); lia. }
  rewrite Hm. rewrite read_loop_spec; [|lia|lia|lia|unfold io_fuel, CRFS_BLOCK_SIZE; lia].
  rewrite Z.add_0_r, Z.sub_0_r. eexists. split; [done|].
  set (s1 := mod_file s fd _). set (s3 := mod_disk _ p _).
  assert (Hid : forall p', is_inode s p' -> idisk s3 p' = if p' =? p then (idisk s p) <| atime := now |> else idisk s p').
  { intros p' [Hp' _]. unfold s3. by rewrite idisk_mod_disk. }
  assert (Hl : zlen (inodes s3) = zlen (inodes s)).
  { unfold s3, mod_disk. by rewrite zlen_mod_inode. }
  assert (Hq : quiet s s3).
  { apply quiet_intro; try reflexivity; [done|]. intros p' Hp'. rewrite Hid by done.
    by destruct (Z.eqb_spec p' p) as [->|]. }
  split; [|split; [by apply (qu_ok _ _ Hq)|split; [done|]]].
  - intros _ _. change (files s3) with (files s1). unfold s1. rewrite files_mod_file, Z.eqb_refl by lia.
    rec_simpl. fold off. apply u64_id. lia.
  - intros p' Hp'. split; [|by intros; apply (qu_content _ _ Hq)].
    rewrite Hid by done. by destruct (Z.eqb_spec p' p) as [->|].
Qed.

Lemma image_data pos data old : map (write_image pos data old) (seqZ pos (zlen data)) = data.
Proof.
  apply list_eq_same_length with (length data); [done|unfold zlen; rewrite length_map, length_seqZ; lia|].
  intros i x y Hi. unfold zlen. rewrite list_lookup_fmap, lookup_seqZ_lt by lia. cbn. intros [= <-] Hy.
  unfold write_image, zlen. destruct (in_range_spec pos (Z.of_nat (length data)) (pos + Z.of_nat i)); [|lia].
  unfold aget. replace (Z.to_nat (pos + Z.of_nat i - pos)) with i by lia. by apply list_lookup_total_correct.
Qed.

Lemma map_seqZ_ext (f g : Z -> Z) a n :
  (forall x, a <= x < a + n -> f x = g x) -> map f (seqZ a n) = map g (seqZ a n).
Proof. intros H. apply map_ext_in. intros x Hx%list_elem_of_In%elem_of_seqZ. by apply H. Qed.

(** C4 Files are byte sequences: in a file system whose blocks have one owner each,
    with three blocks left for every block written, [crfs_write] stores all of
    [data] at the descriptor's offset and moves the offset past it; the size becomes
    the larger of the old one and the end of the data; every other open file and
    descriptor is unchanged, and blocks still have one owner.  The contents are the
    old ones with the data in place, except that in the last block, when it is
    entered at its start, everything behind the data is zeroed ([write_image]), so
    overwriting the start of a file destroys what follows in that block.  [crfs_read]
    through another descriptor then returns those contents at its offset, cut off at
    the size, and from the same offset exactly the data written. *)
Theorem file_write_then_read s fd p data now :
  fs_ok s -> fd_open s fd p -> Z.land (flags (files s).[fd]) 3 <> 0 -> Forall is_byte data ->
  let off := offset (files s).[fd] in let n := zlen data in
  0 <= off -> off + n <= MAX_FILE -> file_size s p <= MAX_FILE -> 3 * (n / 4096 + 2) <= avail s ->
  exists s', crfs_write s fd data now = Some (s', n) /\ fs_ok s' /\
    (forall x, 0 <= x < MAX_FILE -> content s' p x = write_image off data (content s p) x) /\
    file_size s' p = Z.max (file_size s p) (off + n) /\
    (forall fd', 0 <= fd' -> (files s').[fd'] =
       if fd' =? fd then (files s).[fd] <| offset := off + n |> else (files s).[fd']) /\
    (forall p', is_inode s p' -> p' <> p -> file_size s' p' = file_size s p' /\
       forall x, 0 <= x < MAX_FILE -> content s' p' x = content s p' x) /\
    (forall fd2 count now2, fd2 <> fd -> fd_open s fd2 p -> 0 <= offset (files s).[fd2] -> 0 <= count < 2 ^ 63 ->
       let o := offset (files s).[fd2] in
       let m := Z.max 0 (Z.min count (file_size s' p - o)) in
       exists s'', crfs_read s' fd2 count now2 =
                     Some (s'', map (write_image off data (content s p)) (seqZ o m), m) /\
         (o = off -> count = n -> map (write_image off data (content s p)) (seqZ o m) = data) /\
         (forall p' x, is_inode s p' -> 0 <= x < MAX_FILE -> content s'' p' x = content s' p' x)).
Proof.
  intros Hok Hopen Hfl Hby off n Ho Hmax Hsz Hav.
  destruct (crfs_write_spec s fd p data now Hok Hopen Hfl Hby Ho Hmax Hav)
    as (s' & E & Hok' & Hi & Hm & Hzf & Hc & Hs & Hfd & Hoth). fold off n in E, Hc, Hs, Hfd.
  exists s'. split; [done|]. split; [done|]. split; [done|]. split; [done|]. split; [done|]. split; [done|].
  intros fd2 count now2 Hne (H2 & H2a & H2b & H2c & H2d & H2e) Ho2 Hcnt o m.
  assert (Ef : (files s').[fd2] = (files s).[fd2]).
  { rewrite Hfd by lia. by destruct (Z.eqb_spec fd2 fd). }
  assert (Hopen2 : fd_open s' fd2 p).
  { unfold fd_open. rewrite Ef, Hzf, (is_inode_len s s' p Hi). done. }
  assert (HM : MAX_FILE <= 2 ^ 44) by done. assert (Hn : 0 <= n) by (unfold n, zlen; lia).
  destruct (crfs_read_spec s' fd2 p count now2 Hok' Hopen2 Hcnt) as (s'' & Er & _ & _ & _ & Hc2);
    [by rewrite Ef|lia|]. rewrite Ef in Er. fold o m in Er.
  assert (Em : map (content s' p) (seqZ o m) = map (write_image off data (content s p)) (seqZ o m)).
  { apply map_seqZ_ext. intros x Hx. apply Hc. unfold o in *. lia. }
  exists s''. rewrite <- Em. split; [done|]. split.
  - rewrite Em. intros E1 E2. rewrite E1. replace m with n by lia. apply image_data.
  - intros p' x Hp' Hx. by apply Hc2; [apply (is_inode_len s)|].
Qed.

End files.

(** * Witness *)

(** 5000 bytes through descriptor 0, read back through descriptor 1 *)
Lemma file_write_then_read_witness :
  exists s' s'', crfs_write demo_opened 0 (replicate 5000 7) 3 = Some (s', 5000) /\
    crfs_read s' 1 5000 4 = Some (s'', replicate 5000 7, 5000).
Proof.
  assert (Hok : fs_ok demo_opened) by (apply small_ok_correct; vm_compute; reflexivity).
  assert (Hfd : forall fd, fd = 0 \/ fd = 1 -> fd_open demo_opened fd 1).
  { intros fd [-> | ->]; (split; [vm_compute; split; [discriminate|reflexivity]|]);
      (split; [vm_compute; reflexivity|]); (split; [vm_compute; reflexivity|]);
      (split; [vm_compute; discriminate|]); (split; [vm_compute; reflexivity|]);
      vm_compute; split; [discriminate|reflexivity|discriminate|reflexivity]. }
  assert (Ho0 : offset (files demo_opened).[0] = 0) by (vm_compute; reflexivity).
  assert (Ho1 : offset (files demo_opened).[1] = 0) by (vm_compute; reflexivity).
  assert (Hsz : file_size demo_opened 1 = 0) by (vm_compute; reflexivity).
  assert (Hav : 100 <= avail demo_opened) by (vm_compute; discriminate).
  assert (Hz : zlen (replicate 5000 7) = 5000) by (vm_compute; reflexivity).
  assert (Hb : Forall is_byte (replicate 5000 7)) by (apply Forall_replicate; split; [discriminate|reflexivity]).
  destruct (file_write_then_read demo_opened 0 1 (replicate 5000 7) 3 Hok (Hfd 0 (or_introl eq_refl)))
    as (s' & E & _ & _ & Hs & _ & _ & Hr); [vm_compute; discriminate|exact Hb| | | | |].
  - rewrite Ho0. discriminate.
  - rewrite Ho0, Hz. vm_compute. discriminate.
  - rewrite Hsz. vm_compute. discriminate.
  - rewrite Hz. transitivity 100; [vm_compute; discriminate|exact Hav].
  - rewrite Hz in E. destruct (Hr 1 5000 4) as (s'' & Er & Hd & _);
      [discriminate|apply Hfd; right; reflexivity|rewrite Ho1; discriminate|split; [discriminate|reflexivity]|].
    exists s', s''. split; [exact E|].
    rewrite Hs, Hsz, Ho0, Ho1, Hz in Er. rewrite Hs, Hsz, Ho0, Ho1, Hz in Hd.
    rewrite Hd in Er; [exact Er|reflexivity|reflexivity].
Defined.
