(* ===== verification/CrfsNames.v ===== *)
(** Opening files of CrimsonFS by name: what [crfs_format], [crfs_mount] and
    [crfs_open] make of a new file system.  The root inode is written to the first
    place of the inode table and looked for in the second. *)
From S2P Require Import Prelude Pmm CString Crfs CrfsMap CrfsFiles.

(** * Packed structures, read back *)

Lemma load_le_zero k m a : (forall x, a <= x -> m x = 0) -> load_le k m a = 0.
Proof.
  revert a. induction k as [|k IH]; intros a H; cbn [load_le]; [done|].
  rewrite H, IH by (lia || (intros; apply H; lia)). done.
Qed.

Lemma unpack_zero ws m a : (forall x, a <= x -> m x = 0) -> unpack ws m a = replicate (length ws) 0.
Proof.
  revert a. induction ws as [|w ws IH]; intros a H; cbn; [done|].
  rewrite load_le_zero by done. f_equal. apply IH. intros x Hx. apply H. lia.
Qed.

Section names.
Context {D : Type} `{BD : BlockDevice D}.
Context (kmalloc_ok : Z -> bool) (beyond : Z -> Z).
Notation crfs := (fs D).
Implicit Types s : crfs.

(** * Directories without blocks *)

Lemma lookup_no_blocks s p name : blocks (idisk s p) = 0 -> crfs_dir_lookup beyond s p name = None.
Proof. intros E. unfold crfs_dir_lookup. by rewrite E. Qed.

Lemma first_idx_bound c l i : first_idx c l = Some i -> 0 <= i < zlen l.
Proof.
  revert i. induction l as [|a l IH]; intros i; cbn; [done|]. unfold zlen in *. cbn [length].
  destruct (a =? c); [intros [= <-]; lia|].
  destruct (first_idx c l); [|done]. cbn. intros [= <-]. specialize (IH z eq_refl). lia.
Qed.

(** From a directory without blocks the walk gets nowhere *)
Lemma walk_no_blocks fuel s p token :
  blocks (idisk s p) = 0 -> zlen token <= Z.of_nat fuel ->
  exists s' r, walk_path kmalloc_ok beyond fuel s p token = Some (s', r) /\
    (r = None \/ exists tok, r = Some (p, tok) /\ s' = s).
Proof.
  intros Hb. revert token. induction fuel as [|fuel IH]; intros token Hl; cbn [walk_path];
    destruct (first_idx SLASH token) as [n|] eqn:E; try (eexists _, _; split; [done|]; right; by eexists).
  - apply first_idx_bound in E. lia.
  - apply first_idx_bound in E. destruct (zlen (take (Z.to_nat n) token) =? 0).
    + apply IH. unfold zlen in *. rewrite length_drop. lia.
    + rewrite lookup_no_blocks by done. eexists _, _. split; [done|]. by left.
Qed.

Lemma walk_last fuel s p token :
  first_idx SLASH token = None -> walk_path kmalloc_ok beyond fuel s p token = Some (s, Some (p, token)).
Proof. intros E. destruct fuel; cbn [walk_path]; by rewrite E. Qed.

(** Whatever path is opened, when the root directory has no blocks *)
Lemma open_no_root s s1 r path flags mode us ms :
  mounted s = true -> crfs_iget kmalloc_ok s CRFS_ROOT_INO = (s1, Some r) -> blocks (idisk s1 r) = 0 ->
  Z.land flags O_CREAT = 0 ->
  exists s', crfs_open kmalloc_ok beyond s path flags mode us ms = Some (s', -1).
Proof.
  intros Hm Hg Hb Hf. unfold crfs_open. rewrite Hm, Hg. cbn [negb].
  destruct (walk_no_blocks 4096 s1 r (take 4095 path)) as (s2 & w & -> & Hw); [done|unfold zlen; rewrite length_take; lia|].
  destruct Hw as [->|(tok & -> & ->)]; [by eexists|].
  destruct (zlen tok =? 0); [by eexists|]. rewrite lookup_no_blocks, Hf by done. by eexists.
Qed.

(** * A mounted new file system *)

(** The first eleven fields of the superblock *)
Definition sb_head : list nat := [8; 4; 4; 4; 8; 8; 8; 8; 8; 8; 8]%nat.

Definition head_fields (total : Z) : list Z :=
  [CRFS_MAGIC; CRFS_VERSION; CRFS_BLOCK_SIZE; CRFS_SEG_SIZE; total; 4; total - 4; CRFS_SEG_SIZE; 1; 3; 3 * CRFS_SEG_SIZE].

Lemma new_sb_head total now id vol :
  exists tail, sb_bytes (new_sb total now id vol) = pack sb_head (head_fields total) ++ tail.
Proof.
  unfold sb_bytes. set (s := new_sb total now id vol).
  assert (E : exists ws vs, sb_layout = sb_head ++ ws /\ sb_fields s = head_fields total ++ vs).
  { eexists _, _. split; [unfold sb_layout, sb_head; cbn [app]; reflexivity|].
    unfold sb_fields, head_fields. cbn [app]. reflexivity. }
  destruct E as (ws & vs & -> & ->). rewrite pack_app by done. by eexists.
Qed.

(** The empty place of inode 1 *)
Definition ROOT_PLACE : Z := 3 * CRFS_SEG_SIZE + INODE_SIZE.
Definition blank_root (d : D) : Prop := forall x, 0 <= x < 4096 -> bd_byte d (ROOT_PLACE + x) = 0.

Lemma format_bytes d vol id t1 t2 d' :
  crfs_format d vol id t1 t2 = (d', 0) -> blank_root d ->
  let total := bd_size d / CRFS_SEG_SIZE in
  blank_root d' /\
  forall i, 0 <= i < 76 -> bd_byte d' i = (pack sb_head (head_fields total)).[i].
Proof.
  intros E Hb total. unfold crfs_format in E. fold total in E. destruct (total <? 16); [done|].
  set (b := new_sb total t1 id vol) in E. cbv zeta in E. injection E as <-.
  destruct (new_sb_head total t1 id vol) as [tail Htail]. fold b in Htail.
  pose proof (zlen_pack_le sb_layout (sb_fields b)) as Hlb. fold (sb_bytes b) in Hlb. change (sum_widths sb_layout) with 4292 in Hlb.
  pose proof (zlen_pack_le inode_layout (inode_fields (new_root t2))) as Hlr.
  fold (inode_bytes (new_root t2)) in Hlr. change (sum_widths inode_layout) with 4304 in Hlr.
  change (root_inode_addr b) with (3 * CRFS_SEG_SIZE). change (checkpoint_offset b) with CRFS_SEG_SIZE.
  unfold blank_root, ROOT_PLACE, ROOT_DATA, CRFS_SEG_SIZE, CRFS_BLOCK_SIZE, INODE_SIZE in *. split.
  - intros x Hx. rewrite bd_flush_byte, !bd_write_byte.
    repeat match goal with |- context [in_range ?a ?n ?y] => destruct (in_range_spec a n y); [exfalso; lia|] end.
    by apply Hb.
  - intros i Hi. rewrite bd_flush_byte, !bd_write_byte.
    do 4 match goal with |- context [in_range ?a ?n ?y] => destruct (in_range_spec a n y); [exfalso; lia|] end.
    assert (H76 : zlen (pack sb_head (head_fields total)) = 76) by done.
    assert (Hz : zlen (sb_bytes b) = 76 + zlen tail) by (rewrite Htail, zlen_app, H76; done).
    destruct (in_range_spec 0 (zlen (sb_bytes b)) i); [|unfold zlen in *; lia].
    rewrite Z.sub_0_r, Htail. unfold aget. rewrite lookup_total_app_l by (unfold zlen in H76; lia).
    apply u8_id. apply (Forall_aget is_byte); [apply pack_bytes|unfold zlen in *; lia].
Qed.

(** What a mount makes of it *)
Record new_fs s (total : Z) : Prop := {
  nf_mounted : mounted s = true;
  nf_total : total_segs (sb s) = total;
  nf_table : inode_table_start (sb s) = 3;
  nf_cache : inode_cache s = replicate 256 [];
  nf_inodes : inodes s = [];
  nf_files : files s = replicate 1024 no_file;
  nf_alloc : alloc_wf s;
  nf_root : blank_root (dev s)
}.

Lemma read_sb_head d vol id t1 t2 d' :
  crfs_format d vol id t1 t2 = (d', 0) -> blank_root d -> 0 <= bd_size d < 2 ^ 63 ->
  let b := read_sb beyond d' in
  sb_magic b = CRFS_MAGIC /\ total_segs b = bd_size d / CRFS_SEG_SIZE /\ inode_table_start b = 3.
Proof.
  intros E Hb Hsz b. set (total := bd_size d / CRFS_SEG_SIZE).
  assert (Ht : 0 <= total < 2 ^ 63) by (unfold total, CRFS_SEG_SIZE; lia).
  destruct (format_bytes _ _ _ _ _ _ E Hb) as [_ Hby]. fold total in Hby.
  unfold b, read_sb. set (m := fun x => if x <? CRFS_BLOCK_SIZE then _ else _).
  assert (Ews : exists ws, sb_layout = sb_head ++ ws) by (eexists; unfold sb_layout, sb_head; cbn [app]; reflexivity).
  destruct Ews as [ws ->]. rewrite unpack_app, (unpack_pack sb_head (head_fields total)).
  - cbn [sb_head head_fields zip_with app sb_of_fields sb_magic total_segs inode_table_start].
    split; [done|]. split; [|done]. change (total mod 256 ^ Z.of_nat 8 = total). apply Z.mod_small.
    change (256 ^ Z.of_nat 8) with (2 ^ 64). lia.
  - done.
  - intros i Hi. change (zlen (pack sb_head (head_fields total))) with 76 in Hi. unfold m. rewrite Z.add_0_l.
    unfold CRFS_BLOCK_SIZE. destruct (Z.ltb_spec i 4096); [|lia]. by apply Hby.
Qed.

Lemma mount_new s0 d vol id t1 t2 now :
  crfs_format d vol id t1 t2 = (dev s0, 0) -> blank_root d -> 0 <= bd_size d < 2 ^ 63 ->
  current_seg s0 = 0 -> block_in_seg s0 = 0 ->
  exists s, crfs_mount beyond s0 true now = (s, 0) /\ new_fs s (bd_size d / CRFS_SEG_SIZE).
Proof.
  intros E Hb Hsz Hc0 Hb0. destruct (read_sb_head _ _ _ _ _ _ E Hb Hsz) as (H1 & H2 & H3).
  destruct (format_bytes _ _ _ _ _ _ E Hb) as [Hbr _].
  assert (Ht : total_segs (read_sb beyond (dev s0)) * CRFS_SEG_SIZE < 2 ^ 64).
  { rewrite H2. unfold CRFS_SEG_SIZE. lia. }
  rewrite <- H2. clear E Hb Hsz H2. unfold crfs_mount. cbn [negb]. revert H1 H3 Ht.
  generalize (read_sb beyond (dev s0)) as b. intros b H1 H3 Ht. rewrite H1, Z.eqb_refl. cbn [negb]. cbv zeta.
  generalize (mark_system (bd_read (dev s0) (2 * CRFS_SEG_SIZE)
    (u64 (total_segs (b <| last_mount_time := now |> <| mount_count := u64 (mount_count b + 1) |>) + 7) / 8))) as bm.
  intros bm. eexists. split; [reflexivity|].
  constructor; [reflexivity|reflexivity|exact H3|reflexivity|reflexivity|reflexivity| |exact Hbr].
  constructor; [done|exact Ht| |]; cbn [block_in_seg current_seg]; rewrite ?Hb0, ?Hc0.
  - unfold CRFS_BLOCKS_PER_SEG. lia.
  - by left.
Qed.

Lemma root_place s total : new_fs s total -> inode_addr s CRFS_ROOT_INO = ROOT_PLACE.
Proof. intros Hn. unfold inode_addr. rewrite (nf_table _ _ Hn). done. Qed.

(** The root directory as [crfs_iget] finds it: all zeros *)
Definition lost_root : inode := mkIn CRFS_ROOT_INO 1 0 zero_inode.

Lemma iget_root s total :
  new_fs s total -> kmalloc_ok 0 = true ->
  crfs_iget kmalloc_ok s CRFS_ROOT_INO =
    (s <| inodes := [lost_root] |> <| inode_cache := (replicate 256 []).[1 <- [0]] |>, Some 0).
Proof.
  intros Hn Hk. unfold crfs_iget. change (CRFS_ROOT_INO mod 256) with 1.
  rewrite (nf_cache _ _ Hn), (nf_inodes _ _ Hn). change ((replicate 256 []).[1]) with (@nil Z). cbn [List.find].
  change (zlen []) with 0. rewrite Hk. do 2 f_equal. unfold lost_root, crfs_read_inode, zero_inode.
  rewrite unpack_zero; [done|]. intros x Hx. unfold CRFS_BLOCK_SIZE. destruct (Z.ltb_spec x 4096); [|done].
  rewrite (root_place s total Hn). apply (nf_root _ _ Hn). lia.
Qed.

(** A file system whose root was lost: no path can be looked up *)
Definition root_lost s : Prop :=
  mounted s = true /\ inode_no (inodes s).[0] = 1 /\ blocks (idisk s 0) = 0 /\ 0 < zlen (inodes s) /\
  List.find (fun p => inode_no (inodes s).[p] =? 1) (inode_cache s).[1] = Some 0.

Lemma open_root_lost s path flags mode us ms :
  root_lost s -> Z.land flags O_CREAT = 0 ->
  exists s', crfs_open kmalloc_ok beyond s path flags mode us ms = Some (s', -1).
Proof.
  intros (Hm & Hno & Hb & Hl & Hf) Hfl.
  eapply (open_no_root s _ 0); [done| | |done].
  - unfold crfs_iget. change (CRFS_ROOT_INO mod 256) with 1. change CRFS_ROOT_INO with 1. rewrite Hf. reflexivity.
  - rewrite idisk_mod_inode by (unfold is_inode; lia). done.
Qed.

Lemma new_ino_range us : 2 <= new_ino us < 2 ^ 32.
Proof.
  unfold new_ino. change 0xFFFFFFFF with (Z.ones 32). rewrite Z.land_ones by lia.
  pose proof (Z.mod_pos_bound us (2 ^ 32)). destruct (Z.leb_spec (us mod 2 ^ 32) 1); lia.
Qed.

(** The record of a new name goes to the start of an empty block *)
Lemma add_block_empty block name no ty fuel :
  (forall i, 0 <= i < 4096 -> block.[i] = 0) -> zlen name <= 4087 ->
  exists b, add_block beyond (S fuel) block name no ty 0 = Some (Some b).
Proof.
  intros Hb Hl. cbn [add_block]. change (CRFS_BLOCK_SIZE <=? 0) with false. cbv iota.
  assert (E : de_inode_no (frame beyond block name) 0 = 0).
  { unfold de_inode_no. cbn [load_le].
    assert (H : forall x, 0 <= x < 4096 -> frame beyond block name x = 0).
    { intros x Hx. unfold frame, NAME, CRFS_BLOCK_SIZE. destruct (Z.leb_spec (2 ^ 40) x); [lia|].
      destruct (in_range_spec 0 4096 x); [by apply Hb|lia]. }
    rewrite !H by lia. done. }
  rewrite E, Z.eqb_refl. destruct (Z.ltb_spec CRFS_BLOCK_SIZE (0 + zlen (dirent_bytes no 0 ty name))); [|by eexists].
  exfalso. unfold dirent_bytes in *. rewrite !zlen_app in *. unfold zlen, CRFS_BLOCK_SIZE in *.
  rewrite !length_le_bytes in *. cbn in *. lia.
Qed.

(** The first file of a new file system: allocated, its record stored in a new
    block of the root directory, whose block count stays 0 *)
Lemma create_first s total name flags mode us ms :
  new_fs s total -> kmalloc_ok 0 = true -> zlen name <= 4087 -> 2 <= avail s ->
  exists s2, create_file beyond (fst (crfs_iget kmalloc_ok s CRFS_ROOT_INO)) 0 name flags mode us ms =
      Some (s2, new_ino us) /\
    mounted s2 = true /\ files s2 = files s /\ inode_cache s2 = (replicate 256 []).[1 <- [0]] /\
    exists r, inodes s2 = [r] /\ inode_no r = 1 /\ blocks (disk r) = 0.
Proof.
  intros Hn Hk Hl Hav. rewrite (iget_root s total Hn Hk). cbn [fst]. set (s0 := _ <| inode_cache := _ |>).
  unfold create_file. assert (Hw : alloc_wf s0) by (destruct (nf_alloc _ _ Hn); by constructor).
  pose proof (alloc_block_spec s0 Hw) as H. change (avail s0) with (avail s) in H.
  destruct (crfs_alloc_block s0) as [s1 [a|]]; [|lia].
  destruct H as (_ & Hav1 & Hw1 & (Hd & Hi & Hfi & Hmo & Hca & _) & _).
  set (s2 := crfs_write_block s1 a _).
  assert (Hw2 : alloc_wf s2) by (destruct Hw1; by constructor).
  unfold crfs_dir_add, crfs_inode_get_block.
  assert (Hid2 : idisk s2 0 = zero_inode) by (unfold idisk; change (inodes s2) with (inodes s1); by rewrite Hi).
  rewrite Hid2. change (Z.to_nat (Z.max 1 (blocks zero_inode))) with 1%nat. cbn [add_blocks]. unfold dir_block.
  rewrite Hid2. change (crfs_inode_get_block s2 zero_inode 0) with 0. cbn [Z.eqb].
  pose proof (alloc_block_spec s2 Hw2) as H. change (avail s2) with (avail s1) in H.
  destruct (crfs_alloc_block s2) as [s3 [b|]]; [|lia].
  destruct H as (_ & _ & _ & (Hd3 & Hi3 & Hfi3 & Hmo3 & Hca3 & _) & _). cbn [default]. change (id b) with b.
  change (crfs_inode_set_block s3 0 0 b) with
    (set_dirty (mod_disk s3 0 (fun i => i <| direct := (direct i).[0 <- b] |>)) 0, 0).
  cbn [fst snd]. set (s4 := set_dirty (D:=D) _ 0). set (s5 := crfs_write_block s4 b _).
  destruct (add_block_empty (crfs_read_block s5 b) name (new_ino us) (u8 (di_type (new_inode (new_ino us) flags mode ms))) 4096)
    as [blk ->]; [|done|].
  { intros i Hii. rewrite read_block_get by done. unfold s5. rewrite write_block_byte by done.
    destruct (in_range_spec b 4096 (b + i)); [|lia]. replace (b + i - b) with i by lia. by apply zeros_get. }
  eexists. split; [done|]. set (s6 := set_dirty (D:=D) _ 0).
  assert (Hi0 : inodes s3 = [lost_root]) by (rewrite Hi3; change (inodes s2) with (inodes s1); by rewrite Hi).
  split; [transitivity (mounted s3); [done|]; rewrite Hmo3; change (mounted s2) with (mounted s1); rewrite Hmo; apply (nf_mounted _ _ Hn)|].
  split; [transitivity (files s3); [done|]; rewrite Hfi3; change (files s2) with (files s1); by rewrite Hfi|].
  split; [transitivity (inode_cache s3); [done|]; rewrite Hca3; change (inode_cache s2) with (inode_cache s1); by rewrite Hca|].
  assert (E6 : inodes s6 = [lost_root <| disk := zero_inode <| direct := (direct zero_inode).[0 <- b] |> |> <| dirty := 1 |> <| dirty := 1 |>]).
  { unfold s6, set_dirty, mod_inode. rec_simpl.
    change (inodes (crfs_write_block s5 b blk)) with (inodes s4). unfold s4, set_dirty, mod_disk, mod_inode. rec_simpl.
    rewrite Hi0. done. }
  eexists. split; [exact E6|]. done.
Qed.

Lemma iput_single s r :
  inodes s = [r] ->
  mounted (crfs_iput s 0) = mounted s /\ files (crfs_iput s 0) = files s /\
  inode_cache (crfs_iput s 0) = inode_cache s /\
  exists r', inodes (crfs_iput s 0) = [r'] /\ inode_no r' = inode_no r /\ blocks (disk r') = blocks (disk r).
Proof.
  intros E. unfold crfs_iput. set (s1 := mod_inode s 0 _).
  assert (E1 : inodes s1 = [r <| ref_count := u32 (ref_count r - 1) |>]).
  { unfold s1, mod_inode. rec_simpl. rewrite E. done. }
  destruct (_ && _).
  - split; [done|]. split; [done|]. split; [done|]. eexists. split; [|split].
    + unfold crfs_write_inode. set (s2 := mod_disk s1 0 _). transitivity (inodes s2); [done|].
      unfold s2, mod_disk, mod_inode. rec_simpl. rewrite E1. reflexivity.
    + done.
    + done.
  - split; [done|]. split; [done|]. split; [done|]. eexists. split; [exact E1|]. done.
Qed.

(** Opening the inode of a file just created: the first descriptor, and the root
    stays lost *)
Lemma open_created s r no flags :
  mounted s = true -> files s = replicate 1024 no_file -> inode_cache s = (replicate 256 []).[1 <- [0]] ->
  inodes s = [r] -> inode_no r = 1 -> blocks (disk r) = 0 -> 2 <= no < 2 ^ 32 -> kmalloc_ok 1 = true ->
  exists s', open_inode kmalloc_ok s no flags = (s', 0) /\ root_lost s' /\
    finode (files s').[0] = 1 /\ inode_no (inodes s').[1] = no.
Proof.
  intros Hm Hf Hc Hi Hr Hb Hno Hk. unfold open_inode, crfs_iget.
  set (h := no mod 256). assert (Hh : 0 <= h < 256) by (unfold h; lia).
  assert (Eb : (inode_cache s).[h] = if h =? 1 then [0] else []).
  { rewrite Hc, aget_aset by (autorewrite with lens; lia). rewrite (Z.eqb_sym 1 h).
    destruct (h =? 1); [done|]. apply (aget_replicate 256). lia. }
  assert (En : List.find (fun p => inode_no (inodes s).[p] =? no) (inode_cache s).[h] = None).
  { rewrite Eb, Hi. destruct (h =? 1); [|done]. cbn [List.find]. change ([r].[0]) with r. rewrite Hr.
    destruct (Z.eqb_spec 1 no); [lia|done]. }
  rewrite En, Hi. change (zlen [r]) with 1. rewrite Hk. set (i := mkIn no 1 0 _). cbn [app].
  set (s1 := s <| inodes := [r; i] |> <| inode_cache := _ |>).
  assert (Hs2 : exists s2, (if negb (Z.land flags O_TRUNC =? 0) && (di_type (idisk s1 1) =? CRFS_TYPE_REG) then
      set_dirty (mod_disk s1 1 (fun i => i <| size := 0 |> <| blocks := 0 |>)) 1 else s1) = s2 /\
      mounted s2 = true /\ files s2 = replicate 1024 no_file /\ inode_cache s2 = inode_cache s1 /\
      exists i', inodes s2 = [r; i'] /\ inode_no i' = no).
  { destruct (_ && _); eexists; (split; [reflexivity|]); (split; [exact Hm|]); (split; [exact Hf|]);
      (split; [reflexivity|]); by eexists. }
  destruct Hs2 as (s2 & -> & Hm2 & Hf2 & Hc2 & i' & Hi2 & Hno2).
  rewrite (find_from_first _ 1024 0 0); [|lia|by rewrite Hf2|lia].
  eexists. split; [reflexivity|]. set (s3 := mod_file s2 0 _).
  change (inodes s3) with (inodes s2).
  assert (Ei : forall P : inode -> inode -> Prop, P r i' -> P (inodes s2).[0] (inodes s2).[1]) by (intros P HP; by rewrite Hi2).
  split; [|split; [unfold s3; by rewrite files_mod_file by (rewrite ?Hf2; done)|by rewrite Hi2]].
  split; [exact Hm2|]. unfold idisk. change (inodes s3) with (inodes s2). change (inode_cache s3) with (inode_cache s2).
  rewrite Hi2, Hc2. split; [exact Hr|]. split; [exact Hb|]. split; [done|].
  unfold s1. rec_simpl. rewrite aget_aset by (rewrite ?Hc; autorewrite with lens; lia).
  rewrite Eb. destruct (Z.eqb_spec h 1) as [Eh|Eh].
  - cbn [List.find]. change ([r; i'].[1]) with i'. change ([r; i'].[0]) with r. rewrite Hno2, Hr.
    destruct (Z.eqb_spec no 1); [lia|done].
  - rewrite Hc, aget_aset_eq by done. cbn [List.find]. change ([r; i'].[0]) with r. by rewrite Hr.
Qed.

(** Bug: [crfs_format] writes the root inode to the first place of the inode
    table, [crfs_iget] reads inode 1 from the second, which on a new device is
    blank.  So after format and mount (which succeed) opening any path without
    [O_CREAT] fails; opening a name with [O_CREAT] creates a file and gives the
    first descriptor, and after that every path, the one just created included, still
    cannot be opened without [O_CREAT].  [crfs_unlink] answers 0 for every path and
    changes nothing. *)
Theorem new_fs_finds_nothing s0 d vol id t1 t2 now name flags mode us ms :
  crfs_format d vol id t1 t2 = (dev s0, 0) -> blank_root d -> 0 <= bd_size d < 2 ^ 63 ->
  current_seg s0 = 0 -> block_in_seg s0 = 0 -> kmalloc_ok 0 = true -> kmalloc_ok 1 = true ->
  0 < zlen name <= 4087 -> first_idx SLASH name = None -> Z.land flags O_CREAT <> 0 ->
  exists s, crfs_mount beyond s0 true now = (s, 0) /\
    (forall path fl md u m, Z.land fl O_CREAT = 0 ->
       exists s', crfs_open kmalloc_ok beyond s path fl md u m = Some (s', -1)) /\
    (2 <= avail s ->
     exists s1, crfs_open kmalloc_ok beyond s name flags mode us ms = Some (s1, 0) /\
       finode (files s1).[0] = 1 /\ inode_no (inodes s1).[1] = new_ino us /\
       (forall path fl md u m, Z.land fl O_CREAT = 0 ->
          exists s', crfs_open kmalloc_ok beyond s1 path fl md u m = Some (s', -1)) /\
       (forall path, crfs_unlink s1 path = (s1, 0))).
Proof.
  intros E Hb Hsz Hc0 Hb0 Hk0 Hk1 Hname Hslash Hfl.
  destruct (mount_new s0 d vol id t1 t2 now E Hb Hsz Hc0 Hb0) as (s & Em & Hn).
  exists s. split; [done|]. pose proof (nf_mounted _ _ Hn) as Hm. pose proof (iget_root _ _ Hn Hk0) as Hg. split.
  { intros path fl md u m Hf. eapply (open_no_root s _ 0); [done|exact Hg|done|done]. }
  intros Hav. destruct (create_first s _ name flags mode us ms Hn Hk0) as (s2 & Ec & Hm2 & Hf2 & Hc2 & r & Hi2 & Hr & Hbl);
    [lia|done|].
  rewrite Hg in Ec. cbn [fst] in Ec.
  destruct (iput_single s2 r Hi2) as (Hm3 & Hf3 & Hc3 & r' & Hi3 & Hr' & Hbl').
  destruct (open_created (crfs_iput s2 0) r' (new_ino us) flags) as (s3 & Eo & Hlost & Hfin & Hino);
    [congruence|rewrite Hf3, Hf2; apply (nf_files _ _ Hn)|congruence|done|congruence|congruence|apply new_ino_range|done|].
  exists s3. split; [|split; [done|]; split; [done|]; split; [|done]].
  - unfold crfs_open. rewrite Hm, Hg. cbn [negb].
    rewrite take_ge by (unfold zlen in *; lia).
    rewrite walk_last by done. destruct (Z.eqb_spec (zlen name) 0); [lia|].
    rewrite lookup_no_blocks by done. destruct (Z.eqb_spec (Z.land flags O_CREAT) 0); [done|].
    rewrite Ec. f_equal. exact Eo.
  - intros path fl md u m Hf. by apply open_root_lost.
Qed.
End names.

(** * Witness *)

Lemma new_fs_finds_nothing_witness :
  exists s s1, crfs_mount (fun _ => 0) demo_unmounted true 0 = (s, 0) /\
    crfs_open (fun _ => true) (fun _ => 0) s [97] (Z.lor O_CREAT O_RDWR) 0 5 0 = Some (s1, 0) /\
    exists s2, crfs_open (fun _ => true) (fun _ => 0) s1 [97] O_RDWR 0 7 0 = Some (s2, -1).
Proof.
  assert (Hf : crfs_format demo_dev [97] (replicate 16 0) 0 0 = (dev demo_unmounted, 0)).
  { apply pair_eq_snd. vm_compute. reflexivity. }
  destruct (new_fs_finds_nothing (fun _ => true) (fun _ => 0) demo_unmounted demo_dev [97] (replicate 16 0) 0 0 0
              [97] (Z.lor O_CREAT O_RDWR) 0 5 0 Hf) as (s & Em & _ & Hc).
  - intros x _. reflexivity.
  - vm_compute. split; [discriminate|reflexivity].
  - reflexivity.
  - reflexivity.
  - reflexivity.
  - reflexivity.
  - vm_compute. split; [reflexivity|discriminate].
  - reflexivity.
  - vm_compute. discriminate.
  - destruct Hc as (s1 & Eo & _ & _ & Hn & _).
    + assert (Es : s = demo_mounted) by (unfold demo_mounted; rewrite Em; reflexivity).
      rewrite Es. vm_compute. discriminate.
    + exists s, s1. split; [exact Em|]. split; [exact Eo|]. apply Hn. reflexivity.
Defined.
