(* ===== verification/Vfs.v ===== *)
(** The virtual file system ([src/vfs.c], [src/fs.h]): a table of descriptors over a
    file system that is only known by the interface [FileBackend]; CrimsonFS
    implements it ([crfs_backend]).

    A path is the bytes of the string, or [None] for [NULL]; buffers are addresses
    in a memory [mem].  [None] as a result comes from the file system below (an
    undefined behaviour there).  The lock is held over each call's work. *)
From S2P Require Import Prelude Pmm CString Crfs CrfsMap CrfsFiles.

Definition FS_O_RDONLY : Z := 0x0000.
Definition FS_O_WRONLY : Z := 0x0001.
Definition FS_O_RDWR : Z := 0x0002.
Definition FS_O_CREAT : Z := 0x0040.
Definition FS_O_TRUNC : Z := 0x0200.
Definition FS_O_APPEND : Z := 0x0400.
Definition FS_SEEK_SET : Z := 0.
Definition FS_SEEK_CUR : Z := 1.
Definition FS_SEEK_END : Z := 2.
Definition FS_TYPE_REG : Z := 1.
Definition FS_TYPE_DIR : Z := 2.
Definition FS_MAX_OPEN : Z := 256.
Definition O_RDONLY : Z := 0x0000.

(** What the layer uses of a file system and what it may expect of the results;
    [clock] is the pair of clock readings (microseconds, milliseconds) of a call. *)
Class FileBackend (B : Type) := {
  be_open : B -> list Z -> Z -> Z -> Z * Z -> option (B * Z);
  be_close : B -> Z -> option B;
  be_read : B -> Z -> Z -> Z * Z -> option (B * list Z * Z);
  be_write : B -> Z -> list Z -> Z * Z -> option (B * Z);
  be_unlink : B -> list Z -> B * Z;
  be_open_result b path fl mode clock b' r :
    be_open b path fl mode clock = Some (b', r) -> r = -1 \/ 0 <= r < 2 ^ 31;
  be_read_result b fd n clock b' data r :
    0 <= n < 2 ^ 63 -> be_read b fd n clock = Some (b', data, r) ->
    r = -1 /\ data = [] \/ zlen data = r;
  be_write_result b fd data clock b' r :
    be_write b fd data clock = Some (b', r) -> r = -1 \/ r = zlen data
}.

(** [fs_file_t] *)
Record fs_file := mkFsFile { valid : Z; fd : Z; fl : Z; pos : Z; node : Z }.
#[export] Instance eta_fs_file : Eta fs_file := fun f => mkFsFile (valid f) (fd f) (fl f) (pos f) (node f).
#[export] Instance fs_file_inhabited : Inhabited fs_file := populate (mkFsFile 0 0 0 0 0).

(** [fs_stat_t] *)
Record stat := mkStat {
  st_size : Z; st_mode : Z; st_uid : Z; st_gid : Z; st_atime : Z; st_mtime : Z; st_ctime : Z; st_type : Z; st_nlink : Z
}.

Section vfs.
Context {B : Type} `{FB : FileBackend B}.

(** [fd_table], [vfs_initialized], and the file system below *)
Record vfs := mkVfs { fd_table : list fs_file; vfs_initialized : bool; below : B }.
#[local] Instance eta_vfs : Eta vfs := fun v => mkVfs (fd_table v) (vfs_initialized v) (below v).

Definition mod_fd (v : vfs) (i : Z) (f : fs_file -> fs_file) : vfs :=
  v <| fd_table := (fd_table v).[i <- f (fd_table v).[i]] |>.

Definition fs_init (v : vfs) : vfs * Z :=
  (v <| fd_table := map (fun i => mkFsFile 0 i 0 0 0) (seqZ 0 FS_MAX_OPEN) |> <| vfs_initialized := true |>, 0).

Definition alloc_fd (v : vfs) : vfs * Z :=
  match find_from (fun i => valid (fd_table v).[i] =? 0) (Z.to_nat (FS_MAX_OPEN - 3)) 3 with
  | Some i => (mod_fd v i (fun f => f <| valid := 1 |> <| pos := 0 |>), i)
  | None => (v, -1)
  end.

Definition free_fd (v : vfs) (i : Z) : vfs :=
  if (0 <=? i) && (i <? FS_MAX_OPEN) then
    mod_fd v i (fun f => f <| valid := 0 |> <| pos := 0 |> <| node := 0 |>)
  else v.

(** [if (flags & from) crfs_flags |= to;] *)
Definition convert (flags from to : Z) (crfs_flags : Z) : Z :=
  if Z.land flags from =? 0 then crfs_flags else Z.lor crfs_flags to.
Definition crfs_flags (flags : Z) : Z :=
  convert flags FS_O_APPEND O_APPEND (convert flags FS_O_TRUNC O_TRUNC (convert flags FS_O_CREAT O_CREAT
    (convert flags FS_O_RDWR O_RDWR (convert flags FS_O_WRONLY O_WRONLY (convert flags FS_O_RDONLY O_RDONLY 0))))).

Definition fs_open (v : vfs) (path : option (list Z)) (flags : Z) (clock : Z * Z) : option (vfs * Z) :=
  match path with
  | None => Some (v, -1)
  | Some path =>
      if negb (vfs_initialized v) then Some (v, -1) else
      let '(v1, i) := alloc_fd v in
      if i <? 0 then Some (v1, -1) else
      match be_open (below v1) path (crfs_flags flags) 0x1A4 clock with
      | None => None
      | Some (b, r) =>
          let v2 := v1 <| below := b |> in
          if r <? 0 then Some (free_fd v2 i, -1)
          else Some (mod_fd v2 i (fun f => f <| fl := flags |> <| pos := 0 |> <| node := u64 r |>), i)
      end
  end.

(** [fd < 0 || fd >= FS_MAX_OPEN || !fd_table[fd].valid] *)
Definition bad_desc (v : vfs) (i : Z) : bool :=
  (i <? 0) || (FS_MAX_OPEN <=? i) || (valid (fd_table v).[i] =? 0).

(** [(int)(uintptr_t)node] *)
Definition node_fd (v : vfs) (i : Z) : Z := s32 (node (fd_table v).[i]).

Definition fs_close (v : vfs) (i : Z) : option vfs :=
  if negb (vfs_initialized v) then Some v
  else if bad_desc v i then Some v
  else
    match be_close (below v) (node_fd v i) with
    | None => None
    | Some b => Some (free_fd (v <| below := b |>) i)
    end.

(** [if (n > 0) fd_table[fd].offset += n;] *)
Definition advance (v : vfs) (i n : Z) : vfs :=
  if 0 <? n then mod_fd v i (fun f => f <| pos := u64 (pos f + n) |>) else v.

Definition fs_read (v : vfs) (m : mem) (i buf count : Z) (clock : Z * Z) : option (vfs * mem * Z) :=
  if negb (vfs_initialized v) || (buf =? 0) then Some (v, m, -1)
  else if bad_desc v i then Some (v, m, -1)
  else
    match be_read (below v) (node_fd v i) count clock with
    | None => None
    | Some (b, data, n) => Some (advance (v <| below := b |>) i n, load_block m buf data, n)
    end.

Definition fs_write (v : vfs) (m : mem) (i buf count : Z) (clock : Z * Z) : option (vfs * Z) :=
  if negb (vfs_initialized v) || (buf =? 0) then Some (v, -1)
  else if bad_desc v i then Some (v, -1)
  else
    match be_write (below v) (node_fd v i) (map m (seqZ buf count)) clock with
    | None => None
    | Some (b, n) => Some (advance (v <| below := b |>) i n, n)
    end.

Definition seek_pos (old off whence : Z) : Z :=
  if whence =? FS_SEEK_SET then u64 off
  else if whence =? FS_SEEK_CUR then u64 (s64 old + off)
  else if whence =? FS_SEEK_END then u64 (if 0 <? off then off else 0)
  else old.

Definition fs_lseek (v : vfs) (i off whence : Z) : vfs * Z :=
  if negb (vfs_initialized v) then (v, -1)
  else if bad_desc v i then (v, -1)
  else
    let v1 := mod_fd v i (fun f => f <| pos := seek_pos (pos f) off whence |>) in
    (v1, s64 (pos (fd_table v1).[i])).

(** [Some st]: the structure filled in, result 0 *)
Definition fs_fstat (v : vfs) (i : Z) (st : bool) : option stat :=
  if negb (vfs_initialized v) || negb st then None
  else if bad_desc v i then None
  else Some (mkStat 0 0x1A4 0 0 0 0 0 0 0).

(** * Queries and changes by path

    [fs_stat] has [crfs_stat] fill a local variable at [frame]: to [vfs.c] it has
    the 72 bytes of the structure in [crfs.h], [crfs_stat] clears the 4304 bytes of
    the one in [crfs.c]. *)

Definition HEADER_INODE_SIZE : Z := 72.

(** [memset(out, 0, sizeof( *out ))] of [crfs_stat] *)
Definition crfs_stat_at (m : mem) (out : Z) : mem * Z := (fun x => if in_range out INODE_SIZE x then 0 else m x, 0).

Definition fs_stat (v : vfs) (m : mem) (path : option (list Z)) (st : bool) (frame : Z) : mem * option stat :=
  if negb (vfs_initialized v) || negb (bool_decide (is_Some path)) || negb st then (m, None) else
  let '(m1, r) := crfs_stat_at m frame in
  if r <? 0 then (m1, None) else
  let mode := load_le 4 m1 (frame + 8) in
  (m1, Some (mkStat (load_le 8 m1 (frame + 24)) mode (load_le 4 m1 (frame + 12)) (load_le 4 m1 (frame + 16)) 0 0 0
     (if Z.land mode S_IFDIR =? 0 then FS_TYPE_REG else FS_TYPE_DIR) (u32 (load_le 8 m1 (frame + 64))))).

Definition no_path (v : vfs) (path : option (list Z)) : bool := negb (vfs_initialized v) || negb (bool_decide (is_Some path)).

Definition fs_mkdir (v : vfs) (path : option (list Z)) (mode : Z) : vfs * Z := (v, if no_path v path then -1 else 0).

(** The loop over the copy of the path: [fs_mkdir] on every prefix that a slash ends *)
Fixpoint mkdir_prefixes (v : vfs) (pre rest : list Z) : vfs :=
  match rest with
  | [] => v
  | c :: rest' =>
      let v1 := if c =? 47 then fst (fs_mkdir v (Some pre) 0x1ED) else v in
      mkdir_prefixes v1 (pre ++ [c]) rest'
  end.

Definition fs_mkdir_recursive (v : vfs) (path : option (list Z)) : vfs * Z :=
  match path with
  | Some p =>
      if negb (vfs_initialized v) then (v, -1) else
      let tmp := take 255 p in
      (fst (fs_mkdir (mkdir_prefixes v (take 1 tmp) (drop 1 tmp)) (Some tmp) 0x1ED), 0)
  | None => (v, -1)
  end.

Definition fs_rmdir (v : vfs) (path : option (list Z)) : vfs * Z := (v, if no_path v path then -1 else 0).
Definition fs_rmdir_recursive (v : vfs) (path : option (list Z)) : vfs * Z := (v, if no_path v path then -1 else 0).
Definition fs_unlink (v : vfs) (path : option (list Z)) : vfs * Z :=
  match path with
  | Some p => if negb (vfs_initialized v) then (v, -1) else
              let '(b, r) := be_unlink (below v) p in (v <| below := b |>, r)
  | None => (v, -1)
  end.
Definition fs_rename (v : vfs) (oldpath newpath : option (list Z)) : vfs * Z := (v, -1).
Definition fs_chmod (v : vfs) (path : option (list Z)) (mode : Z) : vfs * Z := (v, if no_path v path then -1 else 0).
Definition fs_chown (v : vfs) (path : option (list Z)) (uid gid : Z) : vfs * Z := (v, if no_path v path then -1 else 0).

Definition fs_exists (v : vfs) (m : mem) (path : option (list Z)) (frame : Z) : bool :=
  if no_path v path then false else bool_decide (is_Some (snd (fs_stat v m path true frame))).
Definition fs_is_dir (v : vfs) (m : mem) (path : option (list Z)) (frame : Z) : bool :=
  if no_path v path then false else
  match snd (fs_stat v m path true frame) with None => false | Some st => st_type st =? FS_TYPE_DIR end.
Definition fs_is_file (v : vfs) (m : mem) (path : option (list Z)) (frame : Z) : bool :=
  if no_path v path then false else
  match snd (fs_stat v m path true frame) with None => false | Some st => st_type st =? FS_TYPE_REG end.

(** * The type of the descriptor table *)

Record entry_ok (i : Z) (f : fs_file) : Prop := {
  en_fd : fd f = i;
  en_valid : valid f = 0 \/ valid f = 1;
  en_free : valid f = 0 -> pos f = 0 /\ node f = 0;
  en_used : valid f = 1 -> 3 <= i /\ 0 <= node f < 2 ^ 31;
  en_pos : 0 <= pos f < 2 ^ 64
}.

Definition vfs_ok (v : vfs) : Prop :=
  vfs_initialized v = true /\ zlen (fd_table v) = FS_MAX_OPEN /\
  forall i, 0 <= i < FS_MAX_OPEN -> entry_ok i (fd_table v).[i].

Lemma mod_fd_get v i f j :
  0 <= i < zlen (fd_table v) -> 0 <= j ->
  (fd_table (mod_fd v i f)).[j] = if j =? i then f (fd_table v).[i] else (fd_table v).[j].
Proof. intros Hi Hj. unfold mod_fd. rec_simpl. rewrite aget_aset, (Z.eqb_sym i j) by lia. done. Qed.

(** Changing one entry to one that is well typed *)
Lemma mod_fd_ok v i f :
  vfs_ok v -> 0 <= i < FS_MAX_OPEN -> entry_ok i (f (fd_table v).[i]) -> vfs_ok (mod_fd v i f).
Proof.
  intros (Hi & Hl & He) Hr Hf. split; [done|]. split; [unfold mod_fd; rec_simpl; by rewrite zlen_aset|].
  intros j Hj. rewrite mod_fd_get by lia. destruct (Z.eqb_spec j i) as [->|]; [done|by apply He].
Qed.

Lemma below_ok v b : vfs_ok v -> vfs_ok (v <| below := b |>).
Proof. done. Qed.

Lemma bad_desc_false v i : bad_desc v i = false -> 0 <= i < FS_MAX_OPEN /\ valid (fd_table v).[i] <> 0.
Proof.
  unfold bad_desc. rewrite !orb_false_iff, Z.ltb_ge, Z.leb_gt, Z.eqb_neq. lia.
Qed.

Lemma advance_ok v i n : vfs_ok v -> 0 <= i < FS_MAX_OPEN -> valid (fd_table v).[i] <> 0 -> vfs_ok (advance v i n).
Proof.
  intros Hok Hi Hv. unfold advance. destruct (0 <? n); [|done]. apply mod_fd_ok; [done|done|].
  destruct Hok as (_ & _ & He). destruct (He i Hi) as [A1 A2 A3 A4 A5]. constructor; rec_simpl; try done.
  auto with crimson.
Qed.

Lemma fs_init_ok v : vfs_ok (fst (fs_init v)).
Proof.
  split; [done|]. split; [done|]. intros i Hi. cbn [fs_init fst]. rec_simpl.
  unfold aget. rewrite (list_lookup_total_correct _ _ (mkFsFile 0 i 0 0 0)).
  - constructor; cbn; lia.
  - rewrite list_lookup_fmap, lookup_seqZ_lt by lia. cbn. do 2 f_equal. lia.
Qed.

Lemma alloc_fd_spec v :
  vfs_ok v ->
  match alloc_fd v with
  | (v1, i) =>
      (i = -1 /\ v1 = v /\ forall j, 3 <= j < FS_MAX_OPEN -> valid (fd_table v).[j] = 1) \/
      (3 <= i < FS_MAX_OPEN /\ valid (fd_table v).[i] = 0 /\ v1 = mod_fd v i (fun f => f <| valid := 1 |> <| pos := 0 |>) /\
       vfs_ok v1 /\ forall j, 3 <= j < i -> valid (fd_table v).[j] = 1)
  end.
Proof.
  intros Hok. pose proof Hok as (_ & _ & He).
  assert (Hv : forall j, 3 <= j < FS_MAX_OPEN -> (valid (fd_table v).[j] =? 0) = false -> valid (fd_table v).[j] = 1).
  { intros j Hj Hn%Z.eqb_neq. destruct (He j) as [_ [?|?] _ _ _]; [lia|done|done]. }
  unfold alloc_fd. destruct (find_from _ _ _) as [i|] eqn:E.
  - right. apply find_from_Some in E as (Hi & Hf%Z.eqb_eq & Hmin). change (3 + Z.of_nat (Z.to_nat (FS_MAX_OPEN - 3))) with FS_MAX_OPEN in Hi.
    split; [done|]. split; [done|]. split; [done|]. split.
    + apply mod_fd_ok; [done|lia|]. destruct (He i) as [A1 A2 A3 A4 A5]; [lia|]. destruct (A3 Hf) as [? Hn].
      constructor; rec_simpl; lia.
    + intros j Hj. apply Hv; [lia|]. by apply Hmin.
  - left. split; [done|]. split; [done|]. intros j Hj. rewrite find_from_None in E.
    apply Hv; [done|]. apply E. unfold FS_MAX_OPEN in *. lia.
Qed.

Lemma vfs_ext v v' :
  vfs_initialized v' = vfs_initialized v -> below v' = below v -> fd_table v' = fd_table v -> v' = v.
Proof. destruct v, v'. cbn. congruence. Qed.

(** Taking a descriptor and giving it back leaves the table as it was *)
Lemma alloc_free_table v i b :
  vfs_ok v -> 3 <= i < FS_MAX_OPEN -> valid (fd_table v).[i] = 0 ->
  fd_table (free_fd ((mod_fd v i (fun f => f <| valid := 1 |> <| pos := 0 |>)) <| below := b |>) i) = fd_table v.
Proof.
  intros (_ & Hl & He) Hi H0. unfold free_fd. destruct ((0 <=? i) && (i <? FS_MAX_OPEN)) eqn:E.
  - destruct (He i) as [A1 A2 A3 A4 A5]; [lia|]. destruct (A3 H0) as [Hp Hn].
    unfold mod_fd. rec_simpl. rewrite aget_aset_eq by lia.
    assert (Ex : (fd_table v).[i] <| valid := 1 |> <| pos := 0 |> <| valid := 0 |> <| pos := 0 |> <| node := 0 |> = (fd_table v).[i]).
    { destruct ((fd_table v).[i]) eqn:Ef. cbn in H0, Hp, Hn. subst. reflexivity. }
    rewrite Ex. transitivity ((fd_table v).[i <- (fd_table v).[i]]); [apply list_insert_insert_eq|apply aset_same; lia].
  - rewrite andb_false_iff, Z.leb_gt, Z.ltb_ge in E. unfold FS_MAX_OPEN in *. lia.
Qed.

(** * Calls *)

Inductive vcall :=
| VOpen (path : option (list Z)) (flags : Z) (clock : Z * Z)
| VClose (i : Z)
| VRead (m : mem) (i buf n : Z) (clock : Z * Z)
| VWrite (m : mem) (i buf n : Z) (clock : Z * Z)
| VSeek (i off whence : Z)
| VUnlink (path : option (list Z)).

Definition vfs_call (v : vfs) (c : vcall) : option vfs :=
  match c with
  | VOpen path flags clock => option_map fst (fs_open v path flags clock)
  | VClose i => fs_close v i
  | VRead m i buf n clock => option_map (fun r => fst (fst r)) (fs_read v m i buf n clock)
  | VWrite m i buf n clock => option_map fst (fs_write v m i buf n clock)
  | VSeek i off whence => Some (fst (fs_lseek v i off whence))
  | VUnlink path => Some (fst (fs_unlink v path))
  end.

Inductive vfs_reachable : vfs -> Prop :=
| vr_init v : vfs_reachable (fst (fs_init v))
| vr_call v c v' : vfs_reachable v -> vfs_call v c = Some v' -> vfs_reachable v'.

Lemma free_fd_ok v i : vfs_ok v -> vfs_ok (free_fd v i).
Proof.
  intros Hok. unfold free_fd. destruct ((0 <=? i) && (i <? FS_MAX_OPEN)) eqn:E; [|done].
  rewrite andb_true_iff, Z.leb_le, Z.ltb_lt in E. apply mod_fd_ok; [done|done|].
  destruct Hok as (_ & _ & He). destruct (He i E) as [A1 A2 A3 A4 A5]. constructor; rec_simpl; lia.
Qed.

Lemma fs_open_spec v path flags clock :
  vfs_ok v ->
  match fs_open v (Some path) flags clock with
  | None => True
  | Some (v', r) => vfs_ok v' /\
      (r = -1 /\ fd_table v' = fd_table v \/
       3 <= r < FS_MAX_OPEN /\ valid (fd_table v).[r] = 0 /\ (forall j, 3 <= j < r -> valid (fd_table v).[j] = 1) /\
       exists b crfs_fd, be_open (below v) path (crfs_flags flags) 0x1A4 clock = Some (b, crfs_fd) /\
         below v' = b /\
         fd_table v' = (fd_table v).[r <- mkFsFile 1 r flags 0 crfs_fd])
  end.
Proof.
  intros Hok. pose proof Hok as (Hin & Hl & He). unfold fs_open. rewrite Hin. cbn [negb].
  pose proof (alloc_fd_spec v Hok) as H. destruct (alloc_fd v) as [v1 i].
  destruct H as [(-> & -> & Hall)|(Hi & H0 & -> & Hok1 & Hmin)].
  - cbn. split; [done|]. by left.
  - destruct (Z.ltb_spec i 0); [lia|]. set (v1 := mod_fd v i _) in *. change (below v1) with (below v).
    destruct (be_open (below v) path (crfs_flags flags) 0x1A4 clock) as [[b r]|] eqn:E; [|done].
    destruct (be_open_result _ _ _ _ _ _ _ E) as [->|Hr].
    + cbn. split; [by apply free_fd_ok|]. left. split; [done|]. by apply alloc_free_table.
    + destruct (Z.ltb_spec r 0); [lia|].
      assert (Eu : u64 r = r) by (apply u64_id; lia).
      assert (El : zlen (fd_table v1) = FS_MAX_OPEN) by (destruct Hok1 as (_ & ? & _); done).
      assert (E1 : (fd_table (v1 <| below := b |>)).[i] = (fd_table v).[i] <| valid := 1 |> <| pos := 0 |>).
      { change (fd_table (v1 <| below := b |>)) with (fd_table v1). unfold v1. rewrite mod_fd_get by lia. by rewrite Z.eqb_refl. }
      split.
      * apply mod_fd_ok; [done|lia|]. rewrite E1, Eu. destruct (He i) as [A1 A2 A3 A4 A5]; [lia|]. constructor; rec_simpl; lia.
      * right. split; [done|]. split; [done|]. split; [done|]. exists b, r. split; [done|]. split; [done|].
        unfold mod_fd at 1. rec_simpl. change (fd_table (v1 <| below := b |>)) with (fd_table v1) in *.
        rewrite E1, Eu. unfold v1, mod_fd. rec_simpl. unfold aset. rewrite list_insert_insert_eq. f_equal.
        destruct (He i) as [A1 _ _ _ _]; [lia|]. destruct ((fd_table v).[i]). cbn in A1. subst. reflexivity.
Qed.

Lemma vfs_call_ok v c v' : vfs_ok v -> vfs_call v c = Some v' -> vfs_ok v'.
Proof.
  intros Hok. pose proof Hok as (Hin & Hl & He). destruct c as [path flags clock|i|m i buf n clock|m i buf n clock|i off whence|path];
    cbn [vfs_call].
  - destruct path as [path|]; [|by intros [= <-]]. pose proof (fs_open_spec v path flags clock Hok) as H.
    destruct (fs_open _ _ _ _) as [[v1 r]|]; [|done]. intros [= <-]. by destruct H.
  - unfold fs_close. rewrite Hin. cbn [negb]. destruct (bad_desc v i); [by intros [= <-]|].
    destruct (be_close _ _) as [b|]; [|done]. intros [= <-]. by apply free_fd_ok.
  - unfold fs_read. rewrite Hin. cbn [negb orb]. destruct (buf =? 0); [by intros [= <-]|].
    destruct (bad_desc v i) eqn:E; [by intros [= <-]|]. apply bad_desc_false in E as [Hi Hv].
    destruct (be_read _ _ _ _) as [[[b data] r]|]; [|done]. intros [= <-]. by apply advance_ok.
  - unfold fs_write. rewrite Hin. cbn [negb orb]. destruct (buf =? 0); [by intros [= <-]|].
    destruct (bad_desc v i) eqn:E; [by intros [= <-]|]. apply bad_desc_false in E as [Hi Hv].
    destruct (be_write _ _ _ _) as [[b r]|]; [|done]. intros [= <-]. by apply advance_ok.
  - unfold fs_lseek. rewrite Hin. cbn [negb]. destruct (bad_desc v i) eqn:E; [by intros [= <-]|].
    apply bad_desc_false in E as [Hi Hv]. intros [= <-]. apply mod_fd_ok; [done|done|].
    destruct (He i Hi) as [A1 A2 A3 A4 A5]. constructor; rec_simpl; try done.
    unfold seek_pos. repeat case_match; auto with crimson.
  - destruct path as [path|]; cbn; [|by intros [= <-]]. rewrite Hin. cbn [negb].
    destruct (be_unlink _ _) as [b r]. by intros [= <-].
Qed.

Lemma vfs_reachable_ok v : vfs_reachable v -> vfs_ok v.
Proof. induction 1 as [v|v c v' _ IH E]; [apply fs_init_ok|]. by eapply vfs_call_ok. Qed.

Lemma convert_land flags b acc k : 0 <= k -> b = 2 ^ k -> convert flags b b acc = Z.lor acc (Z.land flags b).
Proof.
  intros Hk ->. unfold convert. destruct (Z.eqb_spec (Z.land flags (2 ^ k)) 0) as [->|H]; [by rewrite Z.lor_0_r|].
  f_equal. apply Z.bits_inj'. intros n Hn. rewrite Z.land_spec, Z.pow2_bits_eqb by done.
  destruct (Z.eqb_spec k n) as [->|]; [|by rewrite andb_false_r]. rewrite andb_true_r.
  destruct (Z.testbit flags n) eqn:E; [done|]. exfalso. apply H. apply Z.bits_inj'. intros m Hm.
  rewrite Z.land_spec, Z.pow2_bits_eqb, Z.bits_0 by done. destruct (Z.eqb_spec n m) as [->|]; [by rewrite E|apply andb_false_r].
Qed.

(** The bits of the flags that reach the file system *)
Lemma crfs_flags_land flags : crfs_flags flags = Z.land flags 0x643.
Proof.
  unfold crfs_flags. rewrite (convert_land flags _ _ 10), (convert_land flags _ _ 9), (convert_land flags _ _ 6),
    (convert_land flags _ _ 1), (convert_land flags _ _ 0) by done.
  unfold convert, FS_O_RDONLY. rewrite Z.land_0_r. cbn [Z.eqb]. rewrite Z.lor_0_l, <- !Z.land_lor_distr_r. done.
Qed.

Lemma advance_get v i n j :
  0 <= i < zlen (fd_table v) -> 0 <= j -> 0 <= pos (fd_table v).[i] < 2 ^ 64 -> 0 <= n \/ n = -1 ->
  pos (fd_table (advance v i n)).[j] = if j =? i then u64 (pos (fd_table v).[i] + Z.max 0 n) else pos (fd_table v).[j].
Proof.
  intros Hi Hj Hp Hn. unfold advance. destruct (Z.ltb_spec 0 n).
  - rewrite mod_fd_get by done. destruct (j =? i); [|done]. rec_simpl. by rewrite Z.max_r by lia.
  - rewrite Z.max_l, Z.add_0_r, u64_id by lia. by destruct (Z.eqb_spec j i) as [->|].
Qed.


Lemma fs_read_seek v i off whence m buf n clock :
  vfs_ok v ->
  match fs_read v m i buf n clock, fs_read (fst (fs_lseek v i off whence)) m i buf n clock with
  | Some (v1, m1, r1), Some (v2, m2, r2) => m1 = m2 /\ r1 = r2 /\ below v1 = below v2
  | None, None => True
  | _, _ => False
  end.
Proof.
  intros (Hin & Hl & He). unfold fs_lseek. rewrite Hin. cbn [negb].
  destruct (bad_desc v i) eqn:Eb.
  { cbn [fst]. by destruct (fs_read v m i buf n clock) as [[[? ?] ?]|]. }
  pose proof (bad_desc_false _ _ Eb) as [Hi Hv]. cbn [fst]. set (v1 := mod_fd v i _).
  assert (E1 : (fd_table v1).[i] = (fd_table v).[i] <| pos := seek_pos (pos (fd_table v).[i]) off whence |>).
  { unfold v1. rewrite mod_fd_get by lia. by rewrite Z.eqb_refl. }
  unfold fs_read. change (vfs_initialized v1) with (vfs_initialized v). rewrite Hin. cbn [negb orb].
  destruct (buf =? 0); [done|].
  assert (Eb1 : bad_desc v1 i = false) by (unfold bad_desc in *; rewrite E1; exact Eb).
  rewrite Eb, Eb1. unfold node_fd. rewrite E1. rec_simpl. change (below v1) with (below v).
  destruct (be_read _ _ _ _) as [[[b data] k]|]; [|done].
  split; [done|]. split; [done|]. unfold advance. by destruct (0 <? k).
Qed.

(** What does not work: [fs_lseek] answers and stores a position (for the end of
    the file it takes the offset alone, whatever the size), but the next read
    returns the same bytes, count and file-system state as without it, since the
    file system keeps an offset of its own.  [fs_stat] succeeds for every path with a
    size of 0 and the type of a regular file, so every path exists and none is a
    directory, and it clears the 4232 bytes behind its local variable.  Removing a
    file succeeds for every path over CrimsonFS and making, removing and changing
    directories do nothing. *)
Theorem seek_and_stat_have_no_effect v i off whence m buf n clock path frame :
  vfs_reachable v ->
  (match fs_read v m i buf n clock, fs_read (fst (fs_lseek v i off whence)) m i buf n clock with
   | Some (v1, m1, r1), Some (v2, m2, r2) => m1 = m2 /\ r1 = r2 /\ below v1 = below v2
   | None, None => True
   | _, _ => False
   end) /\
  (bad_desc v i = false -> 0 <= off < 2 ^ 63 -> snd (fs_lseek v i off FS_SEEK_SET) = off /\
     snd (fs_lseek v i off FS_SEEK_END) = off) /\
  snd (fs_stat v m (Some path) true frame) = Some (mkStat 0 0 0 0 0 0 0 FS_TYPE_REG 0) /\
  (forall x, frame + HEADER_INODE_SIZE <= x < frame + INODE_SIZE -> fst (fs_stat v m (Some path) true frame) x = 0) /\
  fs_exists v m (Some path) frame = true /\ fs_is_dir v m (Some path) frame = false /\
  fs_is_file v m (Some path) frame = true /\
  fs_mkdir v (Some path) 0x1ED = (v, 0) /\ fs_rmdir v (Some path) = (v, 0) /\ fs_mkdir_recursive v (Some path) = (v, 0).
Proof.
  intros Hr. pose proof (vfs_reachable_ok v Hr) as Hok. pose proof Hok as (Hin & Hl & He).
  split; [by apply fs_read_seek|].
  assert (Hst : fs_stat v m (Some path) true frame =
    (fst (crfs_stat_at m frame), Some (mkStat 0 0 0 0 0 0 0 FS_TYPE_REG 0))).
  { unfold fs_stat. rewrite Hin. cbn [negb orb bool_decide]. rewrite bool_decide_eq_true_2 by done. cbn [negb orb crfs_stat_at].
    assert (Hz : forall k a, frame <= a -> a + Z.of_nat k <= frame + INODE_SIZE ->
      load_le k (fun x => if in_range frame INODE_SIZE x then 0 else m x) a = 0).
    { induction k as [|k IH]; intros a Ha Hk; cbn [load_le]; [done|]. rewrite IH by lia.
      destruct (in_range_spec frame INODE_SIZE a); lia. }
    rewrite !Hz by (unfold INODE_SIZE; lia). done. }
  assert (Hnp : no_path v (Some path) = false) by (unfold no_path; by rewrite Hin, bool_decide_eq_true_2 by done).
  split.
  { intros Hb Hoff. apply bad_desc_false in Hb as Hi. destruct Hi as [Hi Hv]. unfold fs_lseek. rewrite Hin, Hb. cbn [negb snd].
    rewrite !mod_fd_get, Z.eqb_refl by lia. rec_simpl. unfold seek_pos. cbn [Z.eqb Pos.eqb FS_SEEK_SET FS_SEEK_END FS_SEEK_CUR].
    split; [rewrite u64_id, s64_id by lia; done|].
    destruct (Z.ltb_spec 0 off); [rewrite u64_id, s64_id by lia; done|]. replace off with 0 by lia. done. }
  split; [by rewrite Hst|]. split.
  { intros x Hx. rewrite Hst. cbn. unfold HEADER_INODE_SIZE in *. destruct (in_range_spec frame INODE_SIZE x); [done|lia]. }
  unfold fs_exists, fs_is_dir, fs_is_file. rewrite Hnp, Hst. cbn [snd st_type].
  split; [done|]. split; [done|]. split; [done|].
  unfold fs_mkdir, fs_rmdir. rewrite Hnp. split; [done|]. split; [done|].
  cbn [fs_mkdir_recursive]. rewrite Hin. cbn [negb fst fs_mkdir]. f_equal.
  generalize (take 1 (take 255 path)), (drop 1 (take 255 path)). intros l l'. revert l.
  induction l' as [|c l' IH]; intros l; cbn [mkdir_prefixes]; [done|]. destruct (c =? 47); apply IH.
Qed.
End vfs.

(** * CrimsonFS as the file system below *)

Section backend.
Context {D : Type} `{BD : BlockDevice D}.
Context (kmalloc_ok : Z -> bool) (beyond : Z -> Z).

Lemma open_inode_result (s : fs D) no fl s' r : open_inode kmalloc_ok s no fl = (s', r) -> r = -1 \/ 0 <= r < 2 ^ 31.
Proof.
  unfold open_inode. destruct (crfs_iget _ _ _) as [s1 [c|]]; [|intros [= <- <-]; by left].
  cbv zeta. destruct (find_from _ _ _) as [i|] eqn:E; intros [= <- <-]; [right|by left].
  apply find_from_Some in E as [Hi _]. lia.
Qed.

Lemma crfs_open_result (s : fs D) path fl mode us ms s' r :
  crfs_open kmalloc_ok beyond s path fl mode us ms = Some (s', r) -> r = -1 \/ 0 <= r < 2 ^ 31.
Proof.
  unfold crfs_open. destruct (negb _); [intros [= <- <-]; by left|].
  destruct (crfs_iget _ _ _) as [s1 [d|]]; [|intros [= <- <-]; by left].
  destruct (walk_path _ _ _ _ _ _) as [[s2 [[p token]|]]|]; [|intros [= <- <-]; by left|done].
  destruct (zlen token =? 0); [intros [= <- <-]; by left|].
  destruct (crfs_dir_lookup _ _ _ _) as [no|].
  - intros [= E]. by eapply open_inode_result.
  - destruct (_ =? 0); [intros [= <- <-]; by left|].
    destruct (create_file _ _ _ _ _ _ _ _) as [[s3 no]|]; [|done]. intros [= E]. by eapply open_inode_result.
Qed.

Lemma read_loop_length fuel (s : fs D) i off count total l :
  read_loop fuel s i off count total = Some l -> zlen l = Z.max 0 (count - total).
Proof.
  revert total l. induction fuel as [|fuel IH]; intros total l; cbn [read_loop];
    (destruct (Z.leb_spec count total); [intros [= <-]; unfold zlen; cbn; lia|]); [done|].
  change (CRFS_BLOCK_SIZE - 1) with (Z.ones 12). rewrite Z.land_ones by lia.
  set (bo := u64 (off + total) mod 2 ^ 12). assert (Hbo : 0 <= bo < 4096) by (apply Z.mod_pos_bound; lia).
  change CRFS_BLOCK_SIZE with 4096. set (k := Z.min (4096 - bo) (count - total)). assert (Hk : 0 < k <= count - total) by lia.
  set (chunk := if _ =? 0 then _ else _).
  destruct (read_loop fuel s i off count (total + k)) as [l'|] eqn:E; [|done]. intros [= <-]. apply IH in E.
  assert (Hc : zlen chunk = k).
  { unfold chunk. destruct (_ =? 0); [rewrite zlen_replicate; lia|].
    pose proof (zlen_read_block s (crfs_inode_get_block s i (u32 (Z.shiftr (u64 (off + total)) CRFS_BLOCK_SHIFT)))) as Hz.
    unfold zlen in *. rewrite length_take, length_drop. lia. }
  unfold zlen in *. rewrite length_app. lia.
Qed.

Lemma crfs_read_result (s : fs D) fd n now s' data r :
  0 <= n < 2 ^ 63 -> crfs_read s fd n now = Some (s', data, r) -> r = -1 /\ data = [] \/ zlen data = r.
Proof.
  intros Hn. unfold crfs_read. destruct (bad_fd fd); [intros [= <- <- <-]; by left|].
  destruct (negb _); [done|]. destruct (_ || _); [intros [= <- <- <-]; by left|].
  destruct (Z.leb_spec (size (idisk s (finode (files s).[fd]))) (offset (files s).[fd])); [intros [= <- <- <-]; by right|].
  set (c := if _ <? _ then _ else n).
  assert (Hc : 0 <= c) by (unfold c; destruct (_ <? _); lia).
  destruct (read_loop _ _ _ _ _ _) as [l|] eqn:E; [|done]. intros [= <- <- <-]. apply read_loop_length in E.
  right. lia.
Qed.

Lemma crfs_write_result (s : fs D) fd data now s' r : crfs_write s fd data now = Some (s', r) -> r = -1 \/ r = zlen data.
Proof.
  unfold crfs_write. destruct (bad_fd fd); [intros [= <- <-]; by left|].
  destruct (negb _); [done|]. destruct (_ || _); [intros [= <- <-]; by left|].
  destruct (_ =? 0); [intros [= <- <-]; by left|]. cbv zeta.
  destruct (write_loop _ _ _ _ _ _); [|done]. intros [= <- <-]. by right.
Qed.

Definition crfs_backend : FileBackend (fs D) := {|
  be_open s path fl mode clock := crfs_open kmalloc_ok beyond s path fl mode (fst clock) (snd clock);
  be_close s fd := crfs_close s fd;
  be_read s fd n clock := crfs_read s fd n (snd clock);
  be_write s fd data clock := crfs_write s fd data (snd clock);
  be_unlink s path := crfs_unlink s path;
  be_open_result s path fl mode clock s' r H := crfs_open_result s path fl mode (fst clock) (snd clock) s' r H;
  be_read_result s fd n clock s' data r Hn H := crfs_read_result s fd n (snd clock) s' data r Hn H;
  be_write_result s fd data clock s' r H := crfs_write_result s fd data (snd clock) s' r H
|}.
End backend.

(** * Witnesses *)

Definition demo_backend : FileBackend (fs ramdisk) := crfs_backend (fun _ => true) (fun _ => 0).
#[local] Existing Instance demo_backend.

(** The table over the small file system of [Crfs], one file open *)
Definition demo_vfs0 : vfs := fst (fs_init (mkVfs [] false demo_mounted)).
Definition demo_vfs : vfs :=
  match vfs_call demo_vfs0 (VOpen (Some [97]) 0x42 (5, 0)) with Some v => v | None => demo_vfs0 end.

Lemma demo_vfs_reachable : vfs_reachable demo_vfs.
Proof.
  apply (vr_call demo_vfs0 (VOpen (Some [97]) 0x42 (5, 0))); [apply (vr_init (mkVfs [] false demo_mounted))|].
  assert (E : match vfs_call demo_vfs0 (VOpen (Some [97]) 0x42 (5, 0)) with Some _ => True | None => False end)
    by (vm_compute; exact I).
  unfold demo_vfs. destruct (vfs_call demo_vfs0 _); [reflexivity|destruct E].
Qed.


Lemma seek_and_stat_have_no_effect_witness :
  bad_desc demo_vfs 3 = false /\ snd (fs_lseek demo_vfs 3 100 FS_SEEK_SET) = 100 /\
  fs_exists demo_vfs (fun _ => 0) (Some [98]) 0 = true.
Proof.
  destruct (seek_and_stat_have_no_effect demo_vfs 3 100 FS_SEEK_SET (fun _ => 0) 4096 10 (0, 0) [98] 0 demo_vfs_reachable)
    as (_ & H1 & _ & _ & H2 & _).
  assert (Hb : bad_desc demo_vfs 3 = false) by (vm_compute; reflexivity).
  assert (H100 : 0 <= 100 < 2 ^ 63) by (split; [discriminate|reflexivity]).
  destruct (H1 Hb H100) as [H3 _]. split; [exact Hb|]. split; [exact H3|exact H2].
Defined.
