(* ===== verification/Syscall.v ===== *)
(** The system call interface ([src/syscall.c]): the table, its statistics and the
    handlers, over the models of the file layer ([Vfs]), of processes ([Process]),
    of the scheduler ([Sched]) and of memory ([Pmm], [Heap]).

    A call is run by the process that is current on the CPU [c].  Memory is the byte
    memory of [CString], without a boundary between processes and kernel; the two
    tables are in it, at the addresses of [layout].  The device drivers and the network stack are known by
    the interface [Devices].  A call returns, or the CPU goes on with another process
    ([outcome]); [None] is undefined behaviour below: a [NULL] dereference, a string
    without end, or a loop of a lower layer without fuel.  All arguments are the
    64-bit registers, read as signed. *)
From S2P Require Import Prelude Pmm CString Heap Vmm Sched SchedRun Sync Process Crfs Vfs.

Definition NR_SYSCALLS : Z := 1100.
Definition SYS_read : Z := 63.
Definition SYS_write : Z := 64.
Definition SYS_open : Z := 56.
Definition SYS_close : Z := 57.
Definition SYS_lseek : Z := 62.
Definition SYS_mmap : Z := 222.
Definition SYS_munmap : Z := 215.
Definition SYS_brk : Z := 214.
Definition SYS_exit : Z := 93.
Definition SYS_kill : Z := 129.
Definition SYS_getpid : Z := 172.
Definition SYS_sched_yield : Z := 124.
Definition SYS_nanosleep : Z := 101.
Definition SYS_clone : Z := 220.
Definition SYS_wait4 : Z := 260.
Definition SYS_ioctl : Z := 29.
Definition SYS_cr_display_info : Z := 1024.
Definition SYS_cr_fb_blit : Z := 1025.
Definition SYS_cr_touch_read : Z := 1026.
Definition SYS_cr_audio_open : Z := 1027.
Definition SYS_cr_pm_get_battery : Z := 1030.
Definition SYS_cr_crypto_random : Z := 1032.
Definition SYS_cr_net_connect : Z := 1034.
Definition SYS_cr_proc_set_cap : Z := 1037.
Definition STATUS_ERROR : Z := 1.
Definition STATUS_UNIMPL : Z := 7.

(** What the handlers use of the drivers and of the network stack; the calls that
    are given a pointer may write to memory. *)
Class Devices (D : Type) := {
  display_get_info : D -> Z * Z * Z * Z;
  display_blit : D -> mem -> Z -> Z -> Z -> Z -> Z -> Z -> D;
  touch_read_event_nb : D -> mem -> Z -> D * mem * Z;
  audio_open_stream : D -> Z -> Z -> Z -> Z -> D * Z;
  pm_get_battery_status : D -> mem -> Z -> mem;
  rng_get_bytes : D -> mem -> Z -> Z -> D * mem;
  tcp_socket_create : D -> D * Z;
  tcp_connect : D -> Z -> Z -> Z -> D * Z;
  tcp_close : D -> Z -> D
}.

(** The string at [p], if it ends within [fuel] bytes. *)
Fixpoint string_at (fuel : nat) (m : mem) (p : Z) : option (list Z) :=
  match fuel with
  | O => None
  | S f => if m p =? 0 then Some [] else option_map (cons (m p)) (string_at f m (p + 1))
  end.

(** The functions the table can hold. *)
Inductive syscall_fn :=
| sys_read | sys_write | sys_open | sys_close | sys_lseek | sys_brk | sys_mmap | sys_munmap | sys_exit
| sys_getpid | sys_sched_yield | sys_nanosleep | sys_kill | sys_clone | sys_wait4 | sys_ioctl
| sys_cr_display_info | sys_cr_fb_blit | sys_cr_touch_read | sys_cr_audio_open | sys_cr_pm_get_battery
| sys_cr_crypto_random | sys_cr_net_connect | sys_cr_proc_set_cap.
#[export] Instance syscall_fn_eq_dec : EqDecision syscall_fn.
Proof. solve_decision. Defined.

Definition syscall_fns : list syscall_fn :=
  [sys_read; sys_write; sys_open; sys_close; sys_lseek; sys_brk; sys_mmap; sys_munmap; sys_exit; sys_getpid;
   sys_sched_yield; sys_nanosleep; sys_kill; sys_clone; sys_wait4; sys_ioctl; sys_cr_display_info; sys_cr_fb_blit;
   sys_cr_touch_read; sys_cr_audio_open; sys_cr_pm_get_battery; sys_cr_crypto_random; sys_cr_net_connect;
   sys_cr_proc_set_cap].

(** Where the linker puts [syscall_table], [syscall_count] and the functions. *)
Record layout := mk_layout { table_at : Z; count_at : Z; fn_addr : syscall_fn -> Z }.

Section syscall.
Context {B D : Type} `{FB : FileBackend B} `{DV : Devices D}.
(** The addresses, as above. *)
Context (L : layout).
(** Address of [process_table], [sizeof(struct process)], the CPU, the linker symbol
    [__heap_end], and the bound for strings and lists. *)
Context (process_table sizeof_process c heap_end : Z) (fuel : nat).

Record system := mk_system {
  sy_vfs : vfs (B := B);
  sy_ps : psys (M := kmem);
  sy_dev : D;
  uart_out : list Z;       (** characters sent by [uart_putc] *)
  user_heap_end : Z;
  delays : list Z          (** milliseconds waited in [timer_delay_ms] *)
}.
#[local] Instance eta_system : Eta system := fun s =>
  mk_system (sy_vfs s) (sy_ps s) (sy_dev s) (uart_out s)
    (user_heap_end s) (delays s).
#[local] Instance eta_psys_kmem : Eta (psys (M := kmem)) := fun s =>
  mkPsys (ps_sched s) (pid_bitmap s) (num_processes s) (zombie_list s) (fd_tables s) (ps_mem s).
#[local] Instance eta_kmem : Eta kmem := fun m => mkKmem (km_heap m) (km_words m).

(** How a call ends: with a value, or with another process on the CPU. *)
Inductive outcome :=
| Return (s : system) (r : Z)
| NoReturn (s : system)      (** the process has exited *)
| WaitRound (s : system).    (** it yielded in [process_wait], to look again later *)

(** The byte memory, and the page allocator. *)
Definition kheap (s : system) : heap := km_heap (ps_mem (sy_ps s)).
Definition set_kheap (s : system) (h : heap) : system :=
  s <| sy_ps := (sy_ps s) <| ps_mem := (ps_mem (sy_ps s)) <| km_heap := h |> |> |>.
Definition user_mem (s : system) : mem := hp_mem (kheap s).
Definition set_user_mem (s : system) (m : mem) : system := set_kheap s ((kheap s) <| hp_mem := m |>).
Definition pages (s : system) : pmm := hp_pmm (kheap s).
Definition set_pages (s : system) (p : pmm) : system := set_kheap s ((kheap s) <| hp_pmm := p |>).
Definition current (s : system) : Z := scheduler_get_current (ps_sched (sy_ps s)) c.

(** [syscall_table[n]] and [syscall_count[n]], 8 bytes each *)
Definition table_entry (s : system) (n : Z) : Z := load64 (user_mem s) (table_at L + 8 * n).
Definition set_table_entry (n v : Z) (s : system) : system :=
  set_user_mem s (store64 (user_mem s) (table_at L + 8 * n) v).
Definition call_count (s : system) (n : Z) : Z := load64 (user_mem s) (count_at L + 8 * n).
Definition set_call_count (n v : Z) (s : system) : system :=
  set_user_mem s (store64 (user_mem s) (count_at L + 8 * n) v).

(** The function at an address. *)
Definition fn_at (a : Z) : option syscall_fn := find (fun f => fn_addr L f =? a) syscall_fns.

Definition syscall_init (s : system) : system :=
  let s := set_user_mem s (memset (user_mem s) (table_at L) 0 (8 * NR_SYSCALLS)) in
  let s := set_user_mem s (memset (user_mem s) (count_at L) 0 (8 * NR_SYSCALLS)) in
  let s := set_table_entry SYS_read (fn_addr L sys_read) s in
  let s := set_table_entry SYS_write (fn_addr L sys_write) s in
  let s := set_table_entry SYS_open (fn_addr L sys_open) s in
  let s := set_table_entry SYS_close (fn_addr L sys_close) s in
  let s := set_table_entry SYS_lseek (fn_addr L sys_lseek) s in
  let s := set_table_entry SYS_brk (fn_addr L sys_brk) s in
  let s := set_table_entry SYS_mmap (fn_addr L sys_mmap) s in
  let s := set_table_entry SYS_munmap (fn_addr L sys_munmap) s in
  let s := set_table_entry SYS_exit (fn_addr L sys_exit) s in
  let s := set_table_entry SYS_getpid (fn_addr L sys_getpid) s in
  let s := set_table_entry SYS_sched_yield (fn_addr L sys_sched_yield) s in
  let s := set_table_entry SYS_nanosleep (fn_addr L sys_nanosleep) s in
  let s := set_table_entry SYS_kill (fn_addr L sys_kill) s in
  let s := set_table_entry SYS_clone (fn_addr L sys_clone) s in
  let s := set_table_entry SYS_wait4 (fn_addr L sys_wait4) s in
  let s := set_table_entry SYS_ioctl (fn_addr L sys_ioctl) s in
  let s := set_table_entry SYS_cr_display_info (fn_addr L sys_cr_display_info) s in
  let s := set_table_entry SYS_cr_fb_blit (fn_addr L sys_cr_fb_blit) s in
  let s := set_table_entry SYS_cr_touch_read (fn_addr L sys_cr_touch_read) s in
  let s := set_table_entry SYS_cr_audio_open (fn_addr L sys_cr_audio_open) s in
  let s := set_table_entry SYS_cr_pm_get_battery (fn_addr L sys_cr_pm_get_battery) s in
  let s := set_table_entry SYS_cr_crypto_random (fn_addr L sys_cr_crypto_random) s in
  let s := set_table_entry SYS_cr_net_connect (fn_addr L sys_cr_net_connect) s in
  set_table_entry SYS_cr_proc_set_cap (fn_addr L sys_cr_proc_set_cap) s.

(** * Files *)

Definition do_read (s : system) (clock : Z * Z) (fd buf count : Z) : option outcome :=
  if fd =? 0 then Some (Return s 0) else
  '(v, m, r) ← fs_read (sy_vfs s) (user_mem s) (s32 fd) (u64 buf) (u64 count) clock;
  Some (Return (set_user_mem (s <| sy_vfs := v |>) m) r).

Definition do_write (s : system) (clock : Z * Z) (fd buf count : Z) : option outcome :=
  if (fd =? 1) || (fd =? 2) then
    Some (Return (s <| uart_out := uart_out s ++ map (user_mem s) (seqZ (u64 buf) count) |>) count)
  else
  '(v, r) ← fs_write (sy_vfs s) (user_mem s) (s32 fd) (u64 buf) (u64 count) clock;
  Some (Return (s <| sy_vfs := v |>) r).

Definition do_open (s : system) (clock : Z * Z) (path flags : Z) : option outcome :=
  name ← (if u64 path =? NULL then Some None else option_map Some (string_at fuel (user_mem s) (u64 path)));
  '(v, r) ← fs_open (sy_vfs s) name (u32 flags) clock;
  Some (Return (s <| sy_vfs := v |>) r).

Definition do_close (s : system) (fd : Z) : option outcome :=
  v ← fs_close (sy_vfs s) (s32 fd); Some (Return (s <| sy_vfs := v |>) 0).

Definition do_lseek (s : system) (fd offset whence : Z) : option outcome :=
  let '(v, r) := fs_lseek (sy_vfs s) (s32 fd) offset (s32 whence) in
  Some (Return (s <| sy_vfs := v |>) r).

(** * Memory *)

(** [for (i = 0; i < pages; i++) { pmm_alloc ...; user_heap_end += PAGE_SIZE; }] *)
Fixpoint brk_loop (n : nat) (s : system) : system :=
  match n with
  | O => s
  | S n' =>
      let '(p, paddr) := pmm_alloc (pages s) in
      let s := set_pages s p in
      if paddr =? 0 then s
      else brk_loop n' (s <| user_heap_end := u64 (user_heap_end s + PAGE_SIZE) |>)
  end.

Definition do_brk (s : system) (addr : Z) : option outcome :=
  let s := if user_heap_end s =? 0 then s <| user_heap_end := heap_end |> else s in
  let s :=
    if addr =? 0 then s
    else if user_heap_end s <? u64 addr then
      let need := u64 addr - user_heap_end s in
      brk_loop (Z.to_nat (u64 (need + PAGE_SIZE - 1) / PAGE_SIZE)) s
    else s in
  Some (Return s (s64 (user_heap_end s))).

Definition page_count (len : Z) : Z := u64 (u64 len + PAGE_SIZE - 1) / PAGE_SIZE.

Definition do_mmap (s : system) (len : Z) : option outcome :=
  let n := page_count len in
  '(p, paddr) ← pmm_alloc_n (pages s) n;
  let s := set_pages s p in
  if paddr =? 0 then Some (Return s (- STATUS_NOMEM)) else
  Some (Return (set_user_mem s (memset (user_mem s) paddr 0 (u64 (n * PAGE_SIZE)))) (s64 paddr)).

(** [for (i = 0; i < pages; i++) pmm_free(addr + i * PAGE_SIZE);] *)
Fixpoint munmap_loop (n : nat) (p : pmm) (addr : Z) : pmm :=
  match n with
  | O => p
  | S n' => munmap_loop n' (pmm_free p (u64 addr)) (addr + PAGE_SIZE)
  end.
Definition do_munmap (s : system) (addr len : Z) : option outcome :=
  Some (Return (set_pages s (munmap_loop (Z.to_nat (page_count len)) (pages s) (u64 addr))) 0).

(** * Processes and time *)

Definition do_exit (s : system) (code : Z) : option outcome :=
  ps ← process_exit fuel (sy_ps s) c (s32 code); Some (NoReturn (s <| sy_ps := ps |>)).

Definition do_getpid (s : system) : option outcome :=
  let p := current s in
  Some (Return s (if p =? NULL then 0 else pid (pr (sy_ps s) p))).

Definition do_sched_yield (s : system) : option outcome :=
  sc ← scheduler_yield (ps_sched (sy_ps s)) c;
  Some (Return (s <| sy_ps := (sy_ps s) <| ps_sched := sc |> |>) 0).

Definition do_nanosleep (s : system) (req : Z) : option outcome :=
  if u64 req =? NULL then Some (Return s 0) else
  let tv_sec := s64 (load64 (user_mem s) (u64 req)) in
  let tv_nsec := s64 (load64 (user_mem s) (u64 req + 8)) in
  let ms := u64 (tv_sec * 1000 + tv_nsec ÷ 1000000) in
  Some (Return (s <| delays := delays s ++ [u32 ms] |>) 0).

Definition do_kill (s : system) (pid sig : Z) : option outcome :=
  '(ps, r) ← process_kill process_table sizeof_process (sy_ps s) c (s32 pid) (s32 sig);
  Some (Return (s <| sy_ps := ps |>) r).

Definition do_wait4 (s : system) (pid status options : Z) : option outcome :=
  '(ps, r) ← process_wait fuel (sy_ps s) c (s32 pid) (s32 options);
  let s := s <| sy_ps := ps |> in
  match r with
  | Reaped cpid stat =>
      let s := if negb (u64 status =? NULL) && (0 <? cpid)
               then set_user_mem s (store_le 4 (user_mem s) (u64 status) (u32 stat)) else s in
      Some (Return s cpid)
  | WaitReturn r => Some (Return s r)
  | WaitAgain =>
      sc ← scheduler_yield (ps_sched (sy_ps s)) c;
      Some (WaitRound (s <| sy_ps := (sy_ps s) <| ps_sched := sc |> |>))
  end.

(** * Devices *)

Definition poke (k : nat) (s : system) (p v : Z) : system :=
  if u64 p =? NULL then s else set_user_mem s (store_le k (user_mem s) (u64 p) v).

Definition do_display_info (s : system) (w h pitch fb : Z) : option outcome :=
  let '(rw, rh, rp, rfb) := display_get_info (sy_dev s) in
  Some (Return (poke 8 (poke 4 (poke 4 (poke 4 s w rw) h rh) pitch rp) fb rfb) 0).

Definition do_fb_blit (s : system) (dst_x dst_y w h src : Z) : option outcome :=
  Some (Return (s <| sy_dev := display_blit (sy_dev s) (user_mem s) (u32 dst_x) (u32 dst_y) (u32 w) (u32 h)
                       (u64 src) (u32 (u32 w * 4)) |>) 0).

Definition do_touch_read (s : system) (ev : Z) : option outcome :=
  if u64 ev =? NULL then Some (Return s (- STATUS_INVAL)) else
  let '(d, m, r) := touch_read_event_nb (sy_dev s) (user_mem s) (u64 ev) in
  Some (Return (set_user_mem (s <| sy_dev := d |>) m) r).

Definition do_audio_open (s : system) (type rate ch fmt : Z) : option outcome :=
  let '(d, r) := audio_open_stream (sy_dev s) (u32 type) (u32 rate) (u32 ch) (u32 fmt) in
  Some (Return (s <| sy_dev := d |>) (s64 r)).

Definition do_pm_get_battery (s : system) (bat : Z) : option outcome :=
  Some (Return (if u64 bat =? NULL then s
                else set_user_mem s (pm_get_battery_status (sy_dev s) (user_mem s) (u64 bat))) 0).

Definition do_crypto_random (s : system) (buf len : Z) : option outcome :=
  let '(d, m) := rng_get_bytes (sy_dev s) (user_mem s) (u64 buf) (u64 len) in
  Some (Return (set_user_mem (s <| sy_dev := d |>) m) 0).

Definition do_net_connect (s : system) (ip port : Z) : option outcome :=
  let '(d, fd) := tcp_socket_create (sy_dev s) in
  if fd <? 0 then Some (Return (s <| sy_dev := d |>) (- STATUS_NOMEM)) else
  let '(d, ret) := tcp_connect d fd (u32 ip) (u16 port) in
  if ret <? 0 then Some (Return (s <| sy_dev := tcp_close d fd |>) ret)
  else Some (Return (s <| sy_dev := d |>) fd).

Definition do_proc_set_cap (s : system) (bit enable : Z) : option outcome :=
  let p := current s in
  if p =? NULL then Some (Return s (- STATUS_ERROR)) else
  if (bit <? 0) || (64 <=? bit) then Some (Return s (- STATUS_INVAL)) else
  let upd w := if negb (enable =? 0) then bit_set w bit else bit_clear w bit in
  Some (Return (s <| sy_ps := mod_pr (sy_ps s) p (fun b => b <| cap := (cap b).[0 <- upd (cap b).[0]] |>) |>) 0).

(** * Dispatch *)

Record args := mk_args { arg0 : Z; arg1 : Z; arg2 : Z; arg3 : Z; arg4 : Z; arg5 : Z }.

Definition handler (f : syscall_fn) (s : system) (clock : Z * Z) (a : args) : option outcome :=
  let '(mk_args a0 a1 a2 a3 a4 a5) := a in
  match f with
  | sys_read => do_read s clock a0 a1 a2
  | sys_write => do_write s clock a0 a1 a2
  | sys_open => do_open s clock a0 a1
  | sys_close => do_close s a0
  | sys_lseek => do_lseek s a0 a1 a2
  | sys_brk => do_brk s a0
  | sys_mmap => do_mmap s a1
  | sys_munmap => do_munmap s a0 a1
  | sys_exit => do_exit s a0
  | sys_getpid => do_getpid s
  | sys_sched_yield => do_sched_yield s
  | sys_nanosleep => do_nanosleep s a0
  | sys_kill => do_kill s a0 a1
  | sys_clone => Some (Return s (- STATUS_UNIMPL))
  | sys_wait4 => do_wait4 s a0 a1 a2
  | sys_ioctl => Some (Return s (- STATUS_UNIMPL))
  | sys_cr_display_info => do_display_info s a0 a1 a2 a3
  | sys_cr_fb_blit => do_fb_blit s a0 a1 a2 a3 a4
  | sys_cr_touch_read => do_touch_read s a0
  | sys_cr_audio_open => do_audio_open s a0 a1 a2 a3
  | sys_cr_pm_get_battery => do_pm_get_battery s a0
  | sys_cr_crypto_random => do_crypto_random s a0 a1
  | sys_cr_net_connect => do_net_connect s a0 a1
  | sys_cr_proc_set_cap => do_proc_set_cap s a0 a1
  end.

(** The entry is read again for the call; at an address where no function is, what
    runs is unknown. *)
Definition syscall_dispatch (s : system) (clock : Z * Z) (num : Z) (a : args) : option outcome :=
  if (num <? 0) || (NR_SYSCALLS <=? num) || (table_entry s num =? 0) then Some (Return s (- STATUS_UNIMPL)) else
  let s := set_call_count num (u64 (call_count s num + 1)) s in
  f ← fn_at (table_entry s num);
  handler f s clock a.

(** The total that [syscall_get_stats] prints. *)
Definition syscall_get_stats (s : system) : Z :=
  foldl (fun total i => if 0 <? call_count s i then u64 (total + call_count s i) else total) 0 (seqZ 0 NR_SYSCALLS).
End syscall.

#[export] Instance eta_system_ {B D} : Eta (system (B := B) (D := D)) := fun s =>
  mk_system (sy_vfs s) (sy_ps s) (sy_dev s) (uart_out s)
    (user_heap_end s) (delays s).

(** * Lemmas: the table and the statistics *)

Definition implemented : list (Z * syscall_fn) :=
  [(SYS_read, sys_read); (SYS_write, sys_write); (SYS_open, sys_open); (SYS_close, sys_close);
   (SYS_lseek, sys_lseek); (SYS_brk, sys_brk); (SYS_mmap, sys_mmap); (SYS_munmap, sys_munmap);
   (SYS_exit, sys_exit); (SYS_getpid, sys_getpid); (SYS_sched_yield, sys_sched_yield);
   (SYS_nanosleep, sys_nanosleep); (SYS_kill, sys_kill); (SYS_clone, sys_clone); (SYS_wait4, sys_wait4);
   (SYS_ioctl, sys_ioctl); (SYS_cr_display_info, sys_cr_display_info); (SYS_cr_fb_blit, sys_cr_fb_blit);
   (SYS_cr_touch_read, sys_cr_touch_read); (SYS_cr_audio_open, sys_cr_audio_open);
   (SYS_cr_pm_get_battery, sys_cr_pm_get_battery); (SYS_cr_crypto_random, sys_cr_crypto_random);
   (SYS_cr_net_connect, sys_cr_net_connect); (SYS_cr_proc_set_cap, sys_cr_proc_set_cap)].

(** The function that serves a number. *)
Definition served (n : Z) : option syscall_fn := snd <$> find (fun x => fst x =? n) implemented.

(** How often [n] was called in [ns], if it is served. *)
Definition calls_of (n : Z) (ns : list Z) : Z :=
  if served n then zlen (filter (fun k => k = n) ns) else 0.

(** The calls that may write to memory through an address of their caller. *)
Definition writes_memory (f : syscall_fn) : bool :=
  match f with
  | sys_read | sys_mmap | sys_wait4 | sys_cr_display_info | sys_cr_touch_read
  | sys_cr_pm_get_battery | sys_cr_crypto_random => true
  | _ => false
  end.

Record layout_ok (L : layout) : Prop := {
  lo_apart : table_at L + 8 * NR_SYSCALLS <= count_at L \/ count_at L + 8 * NR_SYSCALLS <= table_at L;
  lo_fn : forall f, 0 < fn_addr L f < 2 ^ 64;
  lo_inj : Inj (=) (=) (fn_addr L)
}.

Lemma le_bytes_nth k v i : 0 <= i < Z.of_nat k -> (le_bytes k v).[i] = (v / 256 ^ i) mod 256.
Proof.
  revert v i. induction k as [|k IH]; intros v i Hi; [lia|]. cbn [le_bytes].
  destruct (decide (i = 0)) as [->|Hne].
  - by rewrite Z.pow_0_r, Z.div_1_r.
  - specialize (IH (v / 256) (i - 1) ltac:(lia)). rewrite Z.div_div, <- Z.pow_succ_r in IH by lia.
    replace (Z.succ (i - 1)) with i in IH by lia. rewrite <- IH. unfold aget.
    replace (Z.to_nat i) with (S (Z.to_nat (i - 1))) by lia. done.
Qed.

Lemma load_store64 m a v : load64 (store64 m a v) a = u64 v.
Proof.
  unfold load64, store64. rewrite (load_le_bytes 8 _ a v); [done|]. intros i Hi.
  rewrite store_le_read, le_bytes_nth by lia. mem_cases. do 3 f_equal. lia.
Qed.

Lemma load_store64_ne m a v b : b + 8 <= a \/ a + 8 <= b -> load64 (store64 m a v) b = load64 m b.
Proof.
  intros H. apply load_le_ext. intros i Hi. unfold store64. rewrite store_le_read. by mem_cases.
Qed.

Lemma load64_zero m a : (forall i, 0 <= i < 8 -> m (a + i) = 0) -> load64 m a = 0.
Proof.
  intros H. unfold load64. rewrite (load_le_bytes 8 _ a 0); [done|]. intros i Hi.
  rewrite le_bytes_nth, H by lia. by rewrite Z.div_0_l by lia.
Qed.

Section dispatch.
Context {B D : Type} `{FB : FileBackend B} `{DV : Devices D}.
Context (L : layout) (HL : layout_ok L) (pt sz c heap_end : Z) (fuel : nat).
Notation system := (system (B := B) (D := D)).
Implicit Types (s : system).
Notation dispatch := (syscall_dispatch L pt sz c heap_end fuel).
Notation table_entry := (table_entry L).
Notation call_count := (call_count L).

Definition final (o : outcome (B := B) (D := D)) : system :=
  match o with Return s _ => s | NoReturn s => s | WaitRound s => s end.

(** The bytes of the two tables. *)
Definition in_tables (x : Z) : Prop :=
  table_at L <= x < table_at L + 8 * NR_SYSCALLS \/ count_at L <= x < count_at L + 8 * NR_SYSCALLS.
Definition tables_kept s s' : Prop := forall x, in_tables x -> user_mem s' x = user_mem s x.
(** [p] is [NULL], or no byte of the [k] at [p] is in a table. *)
Definition spared (p k : Z) : Prop := u64 p = NULL \/ forall x, u64 p <= x < u64 p + k -> ~ in_tables x.

Lemma entry_kept s s' n : tables_kept s s' -> 0 <= n < NR_SYSCALLS -> table_entry s' n = table_entry s n.
Proof. intros H Hn. apply load_le_ext. intros i Hi. apply H. left. lia. Qed.
Lemma count_kept s s' n : tables_kept s s' -> 0 <= n < NR_SYSCALLS -> call_count s' n = call_count s n.
Proof. intros H Hn. apply load_le_ext. intros i Hi. apply H. right. lia. Qed.

Lemma mem_kept s s' : user_mem s' = user_mem s -> tables_kept s s'.
Proof. intros E x _. by rewrite E. Qed.

Lemma brk_loop_mem n s : user_mem (brk_loop n s) = user_mem s.
Proof.
  revert s. induction n as [|n IH]; intros s; cbn [brk_loop]; [done|].
  destruct (pmm_alloc (pages s)) as [p paddr]. destruct (paddr =? 0); [done|]. by rewrite IH.
Qed.

Lemma kfree_mem h p : hp_mem (kfree h p) = hp_mem h.
Proof. unfold kfree. cbn zeta. by repeat case_match. Qed.

Lemma cleanup_mem (ps : psys (M := kmem)) p : hp_mem (km_heap (ps_mem (process_cleanup ps p))) = hp_mem (km_heap (ps_mem ps)).
Proof.
  unfold process_cleanup. destruct (p =? NULL); [done|]. cbn zeta.
  set (s1 := if negb (stack_base _ =? 0) then _ else _).
  assert (E1 : hp_mem (km_heap (ps_mem s1)) = hp_mem (km_heap (ps_mem ps))).
  { unfold s1. case_match; [apply kfree_mem|done]. }
  set (s2 := if negb (pgd _ =? NULL) then _ else _).
  assert (E2 : hp_mem (km_heap (ps_mem s2)) = hp_mem (km_heap (ps_mem s1))) by (unfold s2; by case_match).
  set (s3 := if negb (Sched.fd_table _ =? NULL) then _ else _).
  assert (E3 : hp_mem (km_heap (ps_mem s3)) = hp_mem (km_heap (ps_mem s2))).
  { unfold s3. case_match; [apply kfree_mem|done]. }
  transitivity (hp_mem (km_heap (ps_mem s3))); [|congruence]. unfold mod_pr, free_pid. by case_match.
Qed.

Lemma reparent_mem n (ps ps' : psys (M := kmem)) q : reparent n ps q = Some ps' -> ps_mem ps' = ps_mem ps.
Proof.
  revert ps q. induction n as [|n IH]; intros ps q; cbn [reparent]; [done|].
  destruct (q =? NULL); [by intros [= <-]|]. intros E. by rewrite (IH _ _ E).
Qed.

Lemma exit_mem (ps ps' : psys (M := kmem)) code : process_exit fuel ps c code = Some ps' -> ps_mem ps' = ps_mem ps.
Proof.
  unfold process_exit. cbn zeta. intros E. case_match; [done|].
  destruct (reparent _ _ _) as [s1|] eqn:Er; [|done]. apply reparent_mem in Er.
  destruct (scheduler_yield _ _); [|done]. case_match; [done|]. injection E as <-. exact Er.
Qed.

Lemma kill_mem (ps ps' : psys (M := kmem)) id sig r :
  process_kill pt sz ps c id sig = Some (ps', r) -> ps_mem ps' = ps_mem ps.
Proof. unfold process_kill. cbn zeta. intros E. repeat case_match; try discriminate; by injection E as <- <-. Qed.

Lemma wait_mem (ps ps' : psys (M := kmem)) id options r :
  process_wait fuel ps c id options = Some (ps', r) ->
  hp_mem (km_heap (ps_mem ps')) = hp_mem (km_heap (ps_mem ps)).
Proof.
  unfold process_wait. intros E. repeat case_match; try discriminate; injection E as <- <-; try done;
    by rewrite cleanup_mem.
Qed.

Lemma poke_kept k s0 s p v : spared p (Z.of_nat k) -> tables_kept s0 s -> tables_kept s0 (poke k s p v).
Proof.
  intros Hp Hs. unfold poke. destruct (Z.eqb_spec (u64 p) NULL) as [|Hne]; [done|].
  destruct Hp as [?|Hp]; [done|]. intros x Hx. change (store_le k (user_mem s) (u64 p) v x = user_mem s0 x).
  rewrite store_le_read. specialize (Hp x). mem_cases; [tauto|]. by apply Hs.
Qed.

Ltac open_call :=
  repeat (match goal with
    | H : _ ≫= _ = Some _ |- _ => apply bind_Some in H as (? & ? & H)
    | x : _ * _ |- _ => destruct x
    | H : Some _ = Some _ |- _ => injection H as <-
    | _ => case_match
    end; try discriminate).

(** A call that is given no address to write to leaves the memory as it is. *)
Lemma handler_kept f s clock a o :
  writes_memory f = false -> handler pt sz c heap_end fuel f s clock a = Some o -> user_mem (final o) = user_mem s.
Proof.
  destruct a as [a0 a1 a2 a3 a4 a5]. intros Hf E. destruct f; try discriminate Hf; clear Hf; cbn [handler] in E;
    try (progress unfold do_write, do_open, do_close, do_lseek, do_munmap, do_exit,
      do_getpid, do_sched_yield, do_nanosleep, do_kill, do_fb_blit,
      do_audio_open, do_net_connect, do_proc_set_cap in E);
    try (open_call; reflexivity).
  - unfold do_brk in E. injection E as <-. cbn [final].
    repeat case_match; try done; by rewrite brk_loop_mem.
  - apply bind_Some in E as (ps & Ep & [= <-]). apply exit_mem in Ep. cbn [final].
    unfold user_mem, kheap. rec_simpl. by rewrite Ep.
  - apply bind_Some in E as ([ps r] & Ep & [= <-]). apply kill_mem in Ep. cbn [final].
    unfold user_mem, kheap. rec_simpl. by rewrite Ep.
Qed.

(** Where [sys_wait4] and [sys_cr_display_info] write is in their arguments. *)
Lemma wait4_kept s pid st options o :
  spared st 4 -> do_wait4 c fuel s pid st options = Some o -> tables_kept s (final o).
Proof.
  intros Hp E. apply bind_Some in E as ([ps r] & Ep & E). apply wait_mem in Ep.
  assert (K : tables_kept s (s <| sy_ps := ps |>)) by (apply mem_kept; exact Ep).
  destruct r as [cpid stat|r|].
  - injection E as <-. cbn [final]. case_match eqn:Eb; [|exact K]. apply andb_true_iff in Eb as [Eb _].
    apply negb_true_iff in Eb. pose proof (poke_kept 4 s (s <| sy_ps := ps |>) st (u32 stat) Hp K) as H.
    unfold poke in H. by rewrite Eb in H.
  - by injection E as <-.
  - apply bind_Some in E as (sc & _ & [= <-]). exact K.
Qed.

Lemma display_info_kept s w h pitch fb o :
  spared w 4 -> spared h 4 -> spared pitch 4 -> spared fb 8 ->
  do_display_info s w h pitch fb = Some o -> tables_kept s (final o).
Proof.
  intros H1 H2 H3 H4 E. unfold do_display_info in E. destruct (display_get_info _) as [[[? ?] ?] ?].
  injection E as <-. cbn [final]. by repeat (apply poke_kept; [done|]).
Qed.

(** The addresses a call is given to write to are outside of the tables; for the
    calls where other layers write, this is said of what they have written. *)
Definition spares (f : syscall_fn) s (a : args) s' : Prop :=
  match f with
  | sys_wait4 => spared (arg1 a) 4
  | sys_cr_display_info => spared (arg0 a) 4 /\ spared (arg1 a) 4 /\ spared (arg2 a) 4 /\ spared (arg3 a) 8
  | _ => writes_memory f = true -> tables_kept s s'
  end.

Lemma handler_spares f s clock a o :
  spares f s a (final o) -> handler pt sz c heap_end fuel f s clock a = Some o -> tables_kept s (final o).
Proof.
  intros Hs E. destruct (writes_memory f) eqn:Ef; [|by apply mem_kept, (handler_kept f s clock a)].
  destruct a as [a0 a1 a2 a3 a4 a5]. destruct f; try discriminate Ef; try (by apply Hs).
  - by apply (wait4_kept s a0 a1 a2).
  - destruct Hs as (? & ? & ? & ?). by apply (display_info_kept s a0 a1 a2 a3).
Qed.

(** Runs of the kernel: system calls that spare the tables, and anything else that does. *)
Inductive calls (s0 : system) : list Z -> system -> Prop :=
| calls_boot : calls s0 [] (syscall_init L s0)
| calls_call ns s clock n a o :
    calls s0 ns s -> dispatch s clock n a = Some o ->
    (forall f, served n = Some f -> spares f (set_call_count L n (u64 (call_count s n + 1)) s) a (final o)) ->
    calls s0 (ns ++ [n]) (final o)
| calls_other ns s s' : calls s0 ns s -> tables_kept s s' -> calls s0 ns s'.

Lemma table_entry_set s k v n : table_entry (set_table_entry L k v s) n = if n =? k then u64 v else table_entry s n.
Proof.
  unfold Syscall.table_entry, set_table_entry. change (user_mem (set_user_mem s ?m)) with m.
  destruct (Z.eqb_spec n k) as [->|]; [apply load_store64|apply load_store64_ne; lia].
Qed.

Lemma count_set_entry s k v n : 0 <= k < NR_SYSCALLS -> 0 <= n < NR_SYSCALLS -> call_count (set_table_entry L k v s) n = call_count s n.
Proof.
  intros Hk Hn. unfold Syscall.call_count, set_table_entry. change (user_mem (set_user_mem s ?m)) with m.
  apply load_store64_ne. pose proof (lo_apart L HL). lia.
Qed.

Lemma entry_set_count s k v n : 0 <= k < NR_SYSCALLS -> 0 <= n < NR_SYSCALLS -> table_entry (set_call_count L k v s) n = table_entry s n.
Proof.
  intros Hk Hn. unfold Syscall.table_entry, set_call_count. change (user_mem (set_user_mem s ?m)) with m.
  apply load_store64_ne. pose proof (lo_apart L HL). lia.
Qed.

Lemma count_set s k v n : call_count (set_call_count L k v s) n = if n =? k then u64 v else call_count s n.
Proof.
  unfold Syscall.call_count, set_call_count. change (user_mem (set_user_mem s ?m)) with m.
  destruct (Z.eqb_spec n k) as [->|]; [apply load_store64|apply load_store64_ne; lia].
Qed.

Definition fill (l : list (Z * syscall_fn)) s : system :=
  foldl (fun s x => set_table_entry L (fst x) (fn_addr L (snd x)) s) s l.

(** What the table holds for a number. *)
Definition addr_of (f : option syscall_fn) : Z := match f with Some f => fn_addr L f | None => 0 end.

Lemma fill_entry l s n :
  NoDup (map fst l) ->
  table_entry (fill l s) n = match find (fun x => fst x =? n) l with Some x => fn_addr L (snd x) | None => table_entry s n end.
Proof.
  revert s. induction l as [|[k f] l IH]; intros s; cbn [map fst]; [done|].
  intros [Hk Hl]%NoDup_cons. change (fill ((k, f) :: l) s) with (fill l (set_table_entry L k (fn_addr L f) s)). rewrite IH by done. cbn [find fst snd].
  rewrite table_entry_set. destruct (Z.eqb_spec n k) as [->|Hne].
  - rewrite Z.eqb_refl. destruct (find _ l) as [[k' f']|] eqn:E.
    + apply find_some in E as [Hin E]. apply Z.eqb_eq in E. cbn [fst] in E. subst k'. destruct Hk.
      apply list_elem_of_In. change k with (fst (k, f')). by apply in_map.
    + pose proof (lo_fn L HL f). by rewrite u64_id by lia.
  - destruct (Z.eqb_spec k n); [congruence|done].
Qed.

Lemma fill_count l s n :
  Forall (fun x => 0 <= fst x < NR_SYSCALLS) l -> 0 <= n < NR_SYSCALLS -> call_count (fill l s) n = call_count s n.
Proof.
  intros Hl Hn. revert s. induction Hl as [|x l Hx Hl IH]; intros s; [done|].
  change (fill (x :: l) s) with (fill l (set_table_entry L (fst x) (fn_addr L (snd x)) s)). rewrite IH. by apply count_set_entry.
Qed.

Lemma implemented_range : Forall (fun x => 0 <= fst x < NR_SYSCALLS) implemented.
Proof. repeat constructor; done. Qed.
Lemma implemented_nodup : NoDup (map fst implemented).
Proof. apply (bool_decide_eq_true _). vm_compute. reflexivity. Qed.

Lemma served_range n f : served n = Some f -> 0 <= n < NR_SYSCALLS.
Proof.
  unfold served. destruct (find _ _) as [[k g]|] eqn:E; [|done]. intros _.
  apply find_some in E as [Hin Hk]. apply Z.eqb_eq in Hk. cbn [fst] in Hk. subst k.
  apply list_elem_of_In in Hin. pose proof implemented_range as H. rewrite Forall_forall in H. exact (H _ Hin).
Qed.

(** The state at the start of [syscall_init], both tables cleared. *)
Definition cleared s : system :=
  let s := set_user_mem s (memset (user_mem s) (table_at L) 0 (8 * NR_SYSCALLS)) in
  set_user_mem s (memset (user_mem s) (count_at L) 0 (8 * NR_SYSCALLS)).

Lemma cleared_read s x : in_tables x -> user_mem (cleared s) x = 0.
Proof.
  intros Hx. unfold cleared. cbn zeta. change (user_mem (set_user_mem _ ?m)) with m.
  rewrite memset_read by (unfold NR_SYSCALLS; lia). unfold filled. mem_cases; [done|].
  change (user_mem (set_user_mem _ ?m)) with m. rewrite memset_read by (unfold NR_SYSCALLS; lia).
  unfold filled. mem_cases; [done|]. destruct Hx; tauto.
Qed.

Lemma init_tables s n :
  0 <= n < NR_SYSCALLS -> table_entry (syscall_init L s) n = addr_of (served n) /\ call_count (syscall_init L s) n = 0.
Proof.
  intros Hn. change (syscall_init L s) with (fill implemented (cleared s)). split.
  - rewrite fill_entry by apply implemented_nodup. unfold served. destruct (find _ implemented); [done|].
    apply load64_zero. intros i Hi. apply cleared_read. left. lia.
  - rewrite fill_count by (apply implemented_range || done).
    apply load64_zero. intros i Hi. apply cleared_read. right. lia.
Qed.

Lemma fn_at_addr f : fn_at L (fn_addr L f) = Some f.
Proof.
  unfold fn_at. destruct (find _ _) as [g|] eqn:E.
  - apply find_some in E as [_ E]. apply Z.eqb_eq in E. f_equal. by apply (lo_inj L HL).
  - apply find_none with (x := f) in E; [by rewrite Z.eqb_refl in E|]. apply list_elem_of_In.
    destruct f; repeat (apply list_elem_of_here || apply list_elem_of_further).
Qed.

Lemma zlen_filter_snoc (n k : Z) ns :
  zlen (filter (fun k => k = n) (ns ++ [k])) = zlen (filter (fun k => k = n) ns) + (if k =? n then 1 else 0).
Proof.
  rewrite filter_app, zlen_app. f_equal. rewrite filter_cons. destruct (Z.eqb_spec k n) as [->|].
  - by rewrite decide_True.
  - by rewrite decide_False.
Qed.

(** The invariant of the table and the counters. *)
Definition stats_ok (ns : list Z) s : Prop :=
  forall n, 0 <= n < NR_SYSCALLS -> table_entry s n = addr_of (served n) /\ call_count s n = u64 (calls_of n ns).

Definition bump (n : Z) s : system := set_call_count L n (u64 (call_count s n + 1)) s.

Lemma dispatch_unserved ns s clock n a :
  stats_ok ns s -> served n = None -> dispatch s clock n a = Some (Return s (- STATUS_UNIMPL)).
Proof.
  intros Ht Hn. unfold syscall_dispatch. destruct (Z.ltb_spec n 0), (Z.leb_spec NR_SYSCALLS n); try done.
  cbn [orb]. destruct (Ht n ltac:(lia)) as [-> _]. by rewrite Hn.
Qed.

Lemma dispatch_served ns s clock n a f :
  stats_ok ns s -> served n = Some f ->
  dispatch s clock n a = handler pt sz c heap_end fuel f (bump n s) clock a.
Proof.
  intros Ht Hn. pose proof (served_range n f Hn) as Hr. unfold syscall_dispatch.
  destruct (Z.ltb_spec n 0), (Z.leb_spec NR_SYSCALLS n); try lia. cbn [orb].
  rewrite entry_set_count by done. destruct (Ht n Hr) as [-> _]. rewrite Hn. cbn [addr_of].
  pose proof (lo_fn L HL f). destruct (Z.eqb_spec (fn_addr L f) 0); [lia|]. by rewrite fn_at_addr.
Qed.

Lemma calls_stats s0 ns s : calls s0 ns s -> stats_ok ns s.
Proof.
  induction 1 as [|ns s clock n a o Hc IH Hd Hs|ns s s' Hc IH Hk]; intros k Hk'.
  - destruct (init_tables s0 k Hk') as [-> ->]. split; [done|]. unfold calls_of. by destruct (served k).
  - destruct (IH k Hk') as [He Hcnt]. destruct (served n) as [f|] eqn:Ef.
    + rewrite (dispatch_served ns s clock n a f IH Ef) in Hd. apply handler_spares in Hd; [|by apply Hs].
      pose proof (served_range n f Ef) as Hn.
      rewrite (entry_kept _ _ k Hd Hk'), (count_kept _ _ k Hd Hk'). unfold bump.
      rewrite entry_set_count, count_set by done. split; [done|]. unfold calls_of. rewrite zlen_filter_snoc.
      rewrite (Z.eqb_sym n k). destruct (Z.eqb_spec k n) as [->|Hne].
      * rewrite Hcnt, Ef. unfold calls_of. rewrite Ef. unfold u64. by rewrite Z.mod_mod, Zplus_mod_idemp_l by lia.
      * rewrite Hcnt. unfold calls_of. destruct (served k); [|done]. by rewrite Z.add_0_r.
    + rewrite (dispatch_unserved ns s clock n a IH Ef) in Hd. injection Hd as <-. cbn [final].
      split; [done|]. rewrite Hcnt. unfold calls_of.
      destruct (served k) eqn:Ek; [|done]. rewrite zlen_filter_snoc.
      destruct (Z.eqb_spec n k) as [->|]; [congruence|]. by rewrite Z.add_0_r.
  - rewrite (entry_kept s s' k Hk Hk'), (count_kept s s' k Hk Hk'). by apply IH.
Qed.

(** Bug: no address a process passes is checked.  With [sys_cr_display_info] any process
    replaces the entry of any number by the address of the frame buffer, and
    [sys_cr_fb_blit] writes there: the next call of the number runs, in the kernel,
    what the process has drawn. *)
Theorem process_rewrites_the_table s clock n a w h pitch rfb
  (s' := set_table_entry L n rfb s) :
  0 <= n < NR_SYSCALLS -> display_get_info (sy_dev s) = (w, h, pitch, rfb) ->
  0 < table_at L /\ table_at L + 8 * NR_SYSCALLS < 2 ^ 64 -> 0 < rfb < 2 ^ 64 -> fn_at L rfb = None ->
  do_display_info s 0 0 0 (table_at L + 8 * n) = Some (Return s' 0) /\
  table_entry s' n = rfb /\ dispatch s' clock n a = None.
Proof.
  intros Hn Hd Ht Hr Hf.
  assert (He : table_entry s' n = rfb) by (unfold s'; rewrite table_entry_set, Z.eqb_refl; apply u64_id; lia).
  split; [|split; [exact He|]].
  - unfold do_display_info. rewrite Hd. unfold poke. change (u64 0 =? NULL) with true. cbv iota.
    rewrite u64_id by lia. destruct (Z.eqb_spec (table_at L + 8 * n) NULL) as [E|]; [unfold NULL in E; lia|]. done.
  - unfold syscall_dispatch. rewrite He. destruct (Z.ltb_spec n 0), (Z.leb_spec NR_SYSCALLS n), (Z.eqb_spec rfb 0); try lia.
    cbn [orb]. by rewrite entry_set_count, He, Hf by done.
Qed.
End dispatch.

(** * Lemmas: memory *)

Section memory.
Context {B D : Type}.
Notation system := (system (B := B) (D := D)).
Implicit Types (s : system).

Lemma alloc_free_pages p p' a :
  pmm_wf p -> 0 < phys_base p -> pmm_alloc p = (p', a) ->
  (free_pages p = 0 /\ a = 0 /\ p' = p) \/
  (0 < free_pages p /\ a <> 0 /\ free_pages p' = free_pages p - 1 /\ pmm_wf p' /\ same_region p p' /\
   free_set p' ⊆ free_set p).
Proof.
  intros Hwf Hb E. destruct (pmm_alloc_cases p Hwf) as [[He Ha]|(k & Hk & _ & Ha)]; rewrite Ha in E;
    injection E as <- <-.
  - left. split; [by apply free_list_empty|done].
  - right. pose proof (free_count_le p Hwf) as Hc.
    assert (free_pages p <> 0).
    { intros E%free_list_empty; [|done]. rewrite E in Hk. set_solver. }
    destruct (clear_page_wf p k Hwf Hk) as [Hwf' Hfs]. split; [lia|].
    pose proof Hk as [Hkr _]%elem_of_free_set. split; [unfold page_addr, PAGE_SIZE; lia|].
    pose proof (total_lt p Hwf). split.
    { rec_simpl. rewrite u64_id; lia. }
    split; [done|]. split; [done|]. rewrite Hfs. set_solver.
Qed.

Lemma brk_loop_spec n s :
  pmm_wf (pages s) -> 0 < phys_base (pages s) ->
  0 <= user_heap_end s -> user_heap_end s + PAGE_SIZE * Z.of_nat n < 2 ^ 64 ->
  let s' := brk_loop n s in
  let k := Z.min (Z.of_nat n) (free_pages (pages s)) in
  user_heap_end s' = user_heap_end s + PAGE_SIZE * k /\ free_pages (pages s') = free_pages (pages s) - k /\
  pmm_wf (pages s') /\ free_set (pages s') ⊆ free_set (pages s) /\ user_mem s' = user_mem s.
Proof.
  revert s. induction n as [|n IH]; intros s Hwf Hb Hu Hov; cbn [brk_loop].
  - pose proof (free_count_le _ Hwf). cbn zeta. rewrite Z.min_l by lia. rewrite Z.mul_0_r, Z.add_0_r, Z.sub_0_r.
    done.
  - destruct (pmm_alloc (pages s)) as [p a] eqn:E.
    destruct (alloc_free_pages _ _ _ Hwf Hb E) as [(Hf & -> & ->)|(Hf & Ha & Hfp & Hwf' & [Hr1 Hr2] & Hfs)].
    + cbn [Z.eqb]. assert (Es : pages (set_pages s (pages s)) = pages s) by done.
      cbn zeta. rewrite Es, Hf, Z.min_r by lia. rewrite Z.mul_0_r, Z.add_0_r, Z.sub_0_r. done.
    + destruct (Z.eqb_spec a 0); [done|]. unfold PAGE_SIZE in *.
      set (s1 := (set_pages s p) <| user_heap_end := u64 (user_heap_end (set_pages s p) + 4096) |>).
      assert (E1 : pages s1 = p) by done. assert (E2 : user_mem s1 = user_mem s) by done.
      assert (E3 : user_heap_end s1 = user_heap_end s + 4096).
      { change (user_heap_end s1) with (u64 (user_heap_end s + 4096)). rewrite u64_id; lia. }
      destruct (IH s1) as (H1 & H2 & H3 & H4 & H5); rewrite ?E1, ?E3; [done|lia|lia|lia|].
      rewrite E1, E2, E3 in *. cbn zeta. rewrite H1, H2, H5, Hfp. split; [lia|]. split; [lia|].
      split; [done|]. split; [set_solver|done].
Qed.
End memory.

Lemma u64_s64 x : u64 (s64 x) = u64 x.
Proof. unfold u64, s64. lia. Qed.

Section memory_calls.
Context {B D : Type}.
Notation system := (system (B := B) (D := D)).
Implicit Types (s : system) (p : pmm).

(** What a call may change: the page allocator, bytes of memory, the break. *)
Lemma pages_set s p : pages (set_pages s p) = p.
Proof. done. Qed.

Lemma set_pages_same s : set_pages s (pages s) = s.
Proof. destruct s as [? [? ? ? ? ? [[] ?]] ? ? ? ?]. done. Qed.

(** What stays through the frees of [sys_munmap], whatever is freed. *)
Definition region_ok p : Prop :=
  zlen (page_bitmap p) = bitmap_words p /\ 0 <= phys_base p /\ phys_base p + total_pages p * PAGE_SIZE <= 2 ^ 64.

Lemma wf_region_ok p : pmm_wf p -> region_ok p.
Proof. intros H. destruct (wf_base p H). split; [apply (wf_len p H)|]. split; [done|apply (wf_end p H)]. Qed.

Lemma pmm_free_page p a (k := (a - phys_base p) / PAGE_SIZE) :
  region_ok p -> 0 <= a ->
  let p' := pmm_free p a in
  let m := if bool_decide (0 <= k < total_pages p) then 1 else 0 in
  region_ok p' /\ same_region p p' /\
  (forall i, i ∈ free_set p' <-> i ∈ free_set p \/ (0 <= i < total_pages p /\ i = k)) /\
  u64 (free_pages p') = u64 (free_pages p + m) /\
  (pmm_wf p -> k ∉ free_set p -> pmm_wf p').
Proof.
  intros (Hl & Hb & He) Ha. cbn zeta. destruct (bool_decide_reflect (0 <= k < total_pages p)) as [Hk|Hk]; cycle 1.
  { rewrite pmm_free_outside by (unfold k, PAGE_SIZE in *; lia). rewrite Z.add_0_r.
    split; [done|]. split; [done|]. split; [|done]. intros i. split; [by left|]. intros [?|[? ->]]; [done|]. lia. }
  assert (Ea : a = page_addr p k + (a - phys_base p) mod PAGE_SIZE) by (unfold page_addr, k, PAGE_SIZE; lia).
  assert (Hoff : 0 <= (a - phys_base p) mod PAGE_SIZE < PAGE_SIZE) by (unfold PAGE_SIZE; lia).
  split; [|split; [|split; [|split]]].
  - rewrite Ea, pmm_free_set_page by done. split; [|done]. unfold set_page. rec_simpl. by rewrite zlen_aset.
  - by rewrite Ea, pmm_free_set_page.
  - intros i. rewrite Ea, pmm_free_set_page by done. rewrite !elem_of_free_set.
    set (p' := _ <| free_pages := _ |>). change (total_pages p') with (total_pages p).
    destruct (decide (0 <= i)); [|naive_solver lia].
    change (page_free p' i) with (page_free (set_page p k) i).
    rewrite page_free_set by (lia || (rewrite Hl; unfold bitmap_words; lia)).
    destruct (Z.eqb_spec i k) as [->|]; naive_solver.
  - rewrite Ea, pmm_free_set_page by done. rec_simpl. unfold u64. by rewrite Z.mod_mod by lia.
  - intros Hwf Hn. rewrite Ea. by apply pmm_free_used.
Qed.

(** [sys_munmap] frees every page of the range, whoever holds it; what is outside
    of the managed memory is left alone. *)
Lemma munmap_loop_spec n p a (k := (a - phys_base p) / PAGE_SIZE) :
  region_ok p -> 0 <= a -> a + Z.of_nat n * PAGE_SIZE <= 2 ^ 64 ->
  let p' := munmap_loop n p a in
  same_region p p' /\
  (forall i, i ∈ free_set p' <-> i ∈ free_set p \/ (0 <= i < total_pages p /\ k <= i < k + Z.of_nat n)) /\
  u64 (free_pages p') =
    u64 (free_pages p + Z.max 0 (Z.min (k + Z.of_nat n) (total_pages p) - Z.max k 0)) /\
  (pmm_wf p -> (forall i, k <= i < k + Z.of_nat n -> i ∉ free_set p) -> pmm_wf p').
Proof.
  revert p a k. induction n as [|n IH]; intros p a k Hp Ha Hw; cbn [munmap_loop].
  - split; [done|]. split; [intros i; split; [by left|]; intros [?|[? ?]]; [done|lia]|]. split; [|done]. f_equal. lia.
  - unfold PAGE_SIZE in Hw. rewrite (u64_id a) by lia.
    destruct (pmm_free_page p a Hp Ha) as (Hp1 & [Hr1 Hr2] & Hs1 & Hc1 & Hw1). fold k in Hs1, Hc1, Hw1.
    set (p1 := pmm_free p a) in *.
    destruct (IH p1 (a + PAGE_SIZE) Hp1) as ([Hq1 Hq2] & Hs & Hc & Hwf); [unfold PAGE_SIZE; lia..|].
    assert (Ek : (a + PAGE_SIZE - phys_base p1) / PAGE_SIZE = k + 1) by (rewrite Hr1; unfold k, PAGE_SIZE; lia).
    rewrite Ek, Hr2 in *. cbn zeta.
    split; [split; congruence|]. split; [|split].
    + intros i. rewrite Hs, Hs1. split; [intros [[?|[? ->]]|[? ?]]|intros [?|[? ?]]]; try tauto; [right; lia|right; lia|].
      destruct (decide (i = k)) as [->|]; [tauto|]. right. lia.
    + rewrite Hc. unfold u64 in *. rewrite <- Zplus_mod_idemp_l, Hc1, Zplus_mod_idemp_l. f_equal.
      destruct (bool_decide_reflect (0 <= k < total_pages p)); lia.
    + intros Hwf0 Hu. apply Hwf; [apply Hw1; [done|apply Hu; lia]|].
      intros i Hi. rewrite Hs1. intros [Hin|[? ->]]; [|lia]. revert Hin. apply Hu. lia.
Qed.

(** [sys_mmap]: the lowest run of [n] free pages, or none. *)
Lemma pmm_alloc_n_any p n :
  pmm_wf p -> 1 <= n <= total_pages p -> 
  exists p' a r, pmm_alloc_n p n = Some (p', a) /\
    alloc_n_spec n (free_set p) r (free_set p') /\
    a = match r with Some k => page_addr p k | None => 0 end /\ pmm_wf p' /\ same_region p p'.
Proof.
  intros Hwf Hn. destruct (decide (n = 1)) as [->|]; [|apply pmm_alloc_n_refine; [done|lia]].
  unfold pmm_alloc_n. cbn [Z.eqb Pos.eqb]. destruct (pmm_alloc p) as [p' a] eqn:E.
  destruct (pmm_alloc_refine p p' a Hwf E) as (r & Hs & Ha & Hwf' & Hr). exists p', a, r.
  assert (H1 : forall j, run_of j 1 = {[j]}).
  { intros j. apply set_eq. intros i. rewrite elem_of_run_of, elem_of_singleton. lia. }
  split; [done|]. split; [|done]. inversion Hs as [He|k Hk Hm].
  - apply alloc_n_none. intros k. rewrite H1, He. set_solver.
  - rewrite <- (H1 k). apply alloc_n_run; [rewrite H1; set_solver|]. intros j. rewrite H1. intros Hj.
    apply Hm. set_solver.
Qed.

(** What [sys_mmap] of [n] pages does. *)
Definition mapped (n : Z) s s' (r : Z) : Prop :=
  exists k, run_of k n ⊆ free_set (pages s) /\ (forall j, run_of j n ⊆ free_set (pages s) -> k <= j) /\
    r = s64 (page_addr (pages s) k) /\
    free_set (pages s') = free_set (pages s) ∖ run_of k n /\
    pmm_wf (pages s') /\ same_region (pages s) (pages s') /\
    user_heap_end s' = user_heap_end s /\
    forall x, user_mem s' x = if in_range (page_addr (pages s) k) (n * PAGE_SIZE) x then 0 else user_mem s x.

Lemma do_mmap_spec s len (n := page_count len) :
  pmm_wf (pages s) -> 0 < phys_base (pages s) -> 1 <= n <= total_pages (pages s) ->
  exists s' r, do_mmap s len = Some (Return s' r) /\
    ((r = - STATUS_NOMEM /\ (forall k, ~ run_of k n ⊆ free_set (pages s)) /\
      free_set (pages s') = free_set (pages s) /\ user_mem s' = user_mem s) \/ mapped n s s' r).
Proof.
  intros Hwf Hb Hn. unfold do_mmap. fold n.
  destruct (pmm_alloc_n_any (pages s) n Hwf Hn) as (p' & a & r & -> & Hs & Ha & Hwf' & Hr). cbn [mbind option_bind].
  pose proof (total_lt _ Hwf).
  destruct r as [k|].
  - assert (Hk : k ∈ free_set (pages s)).
    { inversion Hs as [|k' Hin]; subst. apply Hin, elem_of_run_of. lia. }
    apply elem_of_free_set in Hk as [Hk _].
    destruct (Z.eqb_spec a 0) as [Ea|_]; [rewrite Ha in Ea; unfold page_addr, PAGE_SIZE in Ea; lia|].
    eexists _, _. split; [done|]. right. inversion Hs as [|k' Hin Hmin Ek Efs]; subst k'. exists k.
    split; [done|]. split; [done|]. split; [by rewrite Ha|].
    split; [by rewrite Efs|]. split; [done|]. split; [done|]. split; [done|]. intros x.
    change (user_mem (set_user_mem _ _) x) with (memset (user_mem s) a 0 (u64 (n * PAGE_SIZE)) x).
    pose proof (wf_end _ Hwf). unfold PAGE_SIZE in *. rewrite u64_id by lia. rewrite memset_read by lia. rewrite Ha. done.
  - rewrite Ha. cbn [Z.eqb]. eexists _, _. split; [done|]. left. inversion Hs as [Hnone E|].
    split; [done|]. split; [done|]. split; [done|]. done.
Qed.
End memory_calls.

(** C21 Functional: the memory calls.  [sys_brk] never lowers the break; it raises it
    page by page until [addr] is covered or the pages run out, and every page it
    takes is used up (it is neither mapped nor zeroed: memory is as before); this is
    said for addresses at least two pages below [2 ^ 64].
    [sys_mmap] of at most as many pages as are managed takes the lowest run of free
    pages that is long enough, fills exactly that run with zeros and returns its
    physical address; it fails with [-STATUS_NOMEM], and takes nothing, only when there
    is no such run, or for the length zero.  Asked for more pages than there are, it
    fails or hands out a range that leaves the managed memory.
    [sys_munmap] of a range below [2 ^ 64], aligned or not, makes every managed page
    of the range free, whoever holds it, and nothing else; the counter goes up by the
    number of these pages, so it stays the number of free pages if none was free
    before.  After an [sys_mmap] of at most the managed pages, [sys_munmap]
    restores the free pages. *)
Theorem brk_mmap_munmap {B D} (heap_end : Z) (s : system (B := B) (D := D))
  (Hwf : pmm_wf (pages s)) (Hb : 0 < phys_base (pages s)) :
  (forall addr (E := if user_heap_end s =? 0 then heap_end else user_heap_end s),
    0 <= E -> u64 addr + 2 * PAGE_SIZE < 2 ^ 64 -> E + 2 * PAGE_SIZE < 2 ^ 64 ->
    exists s', do_brk heap_end s addr = Some (Return s' (s64 (user_heap_end s'))) /\
      let need := Z.max 0 ((u64 addr - E + PAGE_SIZE - 1) / PAGE_SIZE) in
      let k := Z.min need (free_pages (pages s)) in
      user_heap_end s' = E + PAGE_SIZE * k /\
      (u64 addr <= user_heap_end s' \/ free_pages (pages s') = 0) /\
      free_pages (pages s') = free_pages (pages s) - k /\ pmm_wf (pages s') /\
      free_set (pages s') ⊆ free_set (pages s) /\ user_mem s' = user_mem s) /\
  (forall len (n := page_count len), 1 <= n <= total_pages (pages s) ->
    exists s' r, do_mmap s len = Some (Return s' r) /\
      ((r = - STATUS_NOMEM /\ (forall k, ~ run_of k n ⊆ free_set (pages s)) /\
        free_set (pages s') = free_set (pages s) /\ user_mem s' = user_mem s) \/ mapped n s s' r)) /\
  (forall len, page_count len = 0 -> do_mmap s len = Some (Return s (- STATUS_NOMEM))) /\
  (forall len s' r (n := page_count len), total_pages (pages s) < n -> do_mmap s len = Some (Return s' r) ->
    (r = - STATUS_NOMEM /\ user_mem s' = user_mem s) \/
    exists k, 0 <= k /\ r = s64 (page_addr (pages s) k) /\ total_pages (pages s) < k + n) /\
  (forall addr len (n := page_count len) (k := (u64 addr - phys_base (pages s)) / PAGE_SIZE),
    u64 addr + n * PAGE_SIZE <= 2 ^ 64 ->
    exists s', do_munmap s addr len = Some (Return s' 0) /\ user_mem s' = user_mem s /\
      same_region (pages s) (pages s') /\
      (forall i, i ∈ free_set (pages s') <->
        i ∈ free_set (pages s) \/ (0 <= i < total_pages (pages s) /\ k <= i < k + n)) /\
      u64 (free_pages (pages s')) =
        u64 (free_pages (pages s) + Z.max 0 (Z.min (k + n) (total_pages (pages s)) - Z.max k 0)) /\
      ((forall i, k <= i < k + n -> i ∉ free_set (pages s)) -> pmm_wf (pages s'))) /\
  (forall len s1 r s2 (n := page_count len), 1 <= n <= total_pages (pages s) ->
    do_mmap s len = Some (Return s1 r) -> r <> - STATUS_NOMEM -> do_munmap s1 r len = Some (Return s2 0) ->
    free_set (pages s2) = free_set (pages s)).
Proof.
  pose proof (free_count_le _ Hwf) as Hfc. pose proof (total_lt _ Hwf) as Ht. split; [|split; [|split; [|split; [|split]]]].
  - intros addr E HE Ha HE2. unfold do_brk.
    set (s0 := if user_heap_end s =? 0 then _ else s).
    assert (Es0 : user_heap_end s0 = E /\ pages s0 = pages s /\ user_mem s0 = user_mem s)
      by (unfold s0, E; by destruct (_ =? 0)).
    destruct Es0 as (E1 & E2 & E3). rewrite E1. unfold PAGE_SIZE in *.
    assert (Hu : 0 <= u64 addr) by (unfold u64; lia).
    destruct (Z.eqb_spec addr 0) as [->|Hne]; [|destruct (Z.ltb_spec E (u64 addr)) as [Hlt|Hge]].
    + exists s0. split; [by rewrite E1|]. cbn zeta. change (u64 0) with 0 in *.
      rewrite E1, E2, E3, Z.max_l, Z.min_l by lia. split; [lia|]. split; [lia|]. split; [lia|]. done.
    + set (n := Z.to_nat _). eexists. split; [reflexivity|].
      assert (En : Z.of_nat n = (u64 addr - E + 4096 - 1) / 4096).
      { unfold n. rewrite u64_id by lia. rewrite Z2Nat.id; [done|]. apply Z.div_pos; lia. }
      destruct (brk_loop_spec n s0) as (H1 & H2 & H3 & H4 & H5); rewrite ?E1, ?E2; [done|done|lia|unfold PAGE_SIZE; lia|].
      rewrite E1, E2, E3, En in *. unfold PAGE_SIZE in H1. cbn zeta. rewrite H1, H2, Z.max_r by (apply Z.div_pos; lia).
      split; [done|]. split; [lia|]. done.
    + exists s0. split; [by rewrite E1|]. cbn zeta.
      rewrite E1, E2, E3, Z.max_l, Z.min_l by lia. split; [lia|]. split; [lia|]. split; [lia|]. done.
  - intros len n Hn. exact (do_mmap_spec s len Hwf Hb Hn).
  - intros len E. unfold do_mmap, pmm_alloc_n. rewrite E. cbn [Z.eqb mbind option_bind].
    by rewrite set_pages_same.
  - intros len s' r n Hn E. unfold do_mmap in E. fold n in E.
    apply bind_Some in E as ([p a] & Ea & E). cbv beta iota in E.
    destruct (pmm_alloc_n_excess _ _ _ _ Hwf Hn Ea) as [[-> ->]|(k & Hk & -> & Hkn)].
    + rewrite set_pages_same in E. injection E as <- <-. by left.
    + destruct (Z.eqb_spec (u64 (page_addr (pages s) k)) 0) as [E0|]; injection E as <- <-.
      * by left.
      * right. exists k. split; [done|]. split; [|done]. unfold s64, u64. lia.
  - intros addr len n k Hn. assert (Hn0 : 0 <= n) by (unfold n, page_count, u64, PAGE_SIZE; lia).
    eexists. split; [reflexivity|]. split; [done|]. rewrite pages_set. fold n.
    assert (Ha : 0 <= u64 addr) by (unfold u64; lia).
    destruct (munmap_loop_spec (Z.to_nat n) (pages s) (u64 addr) (wf_region_ok _ Hwf) Ha) as (H1 & H2 & H3 & H4);
      rewrite ?Z2Nat.id in * by done; [done|]. auto.
  - intros len s1 r s2 n Hn E1 Hr E2. destruct (do_mmap_spec s len Hwf Hb Hn) as (s1' & r' & E1' & Hm).
    rewrite E1 in E1'. injection E1' as <- <-. destruct Hm as [(Hf & _)|(k & Hin & _ & Hrk & Hfs & Hwf1 & Hreg & _)]; [done|].
    assert (Hk : forall i, k <= i < k + n -> 0 <= i < total_pages (pages s)).
    { intros i Hi. assert (i ∈ free_set (pages s)) as [? _]%elem_of_free_set; [|done]. apply Hin, elem_of_run_of. lia. }
    pose proof (Hk k ltac:(lia)). pose proof (Hk (k + n - 1) ltac:(lia)).
    pose proof (wf_end _ Hwf). pose proof (wf_base _ Hwf) as [? _].
    unfold do_munmap in E2. injection E2 as <-. rewrite pages_set.
    assert (Eu : u64 r = page_addr (pages s) k) by (rewrite Hrk, u64_s64, u64_id; unfold page_addr, PAGE_SIZE in *; lia).
    rewrite Eu. fold n. destruct Hreg as [Hb1 Ht1].
    destruct (munmap_loop_spec (Z.to_nat n) (pages s1) (page_addr (pages s) k) (wf_region_ok _ Hwf1)) as (_ & H3 & _);
      rewrite ?Z2Nat.id in * by lia; [unfold page_addr, PAGE_SIZE in *; lia..|].
    assert (Ek : (page_addr (pages s) k - phys_base (pages s1)) / PAGE_SIZE = k) by (rewrite Hb1; unfold page_addr, PAGE_SIZE; lia).
    rewrite Ek, Ht1 in H3. apply set_eq. intros i. rewrite H3, Hfs, elem_of_difference, elem_of_run_of.
    destruct (decide (k <= i < k + n)) as [Hi|Hi]; [|tauto]. split; [|auto].
    intros _. apply Hin, elem_of_run_of. done.
Qed.

(** * The total of the statistics *)

Definition sum_of (f : Z -> Z) (l : list Z) : Z := foldr (fun i a => f i + a) 0 l.

Lemma sum_cons (f : Z -> Z) i l : sum_of f (i :: l) = f i + sum_of f l.
Proof. done. Qed.

Lemma total_foldl (f : Z -> Z) l acc :
  (forall i, i ∈ l -> 0 <= f i) ->
  foldl (fun total i => if 0 <? f i then u64 (total + f i) else total) (u64 acc) l = u64 (acc + sum_of f l).
Proof.
  revert acc. induction l as [|i l IH]; intros acc Hf; [cbn; by rewrite Z.add_0_r|]. cbn [foldl]. rewrite sum_cons.
  assert (E : (if 0 <? f i then u64 (u64 acc + f i) else u64 acc) = u64 (acc + f i)).
  { pose proof (Hf i ltac:(left)). destruct (Z.ltb_spec 0 (f i)).
    - unfold u64. by rewrite Zplus_mod_idemp_l.
    - by replace (f i) with 0 by lia; rewrite Z.add_0_r. }
  rewrite E, IH by (intros j Hj; apply Hf; by right). by rewrite Z.add_assoc.
Qed.

Lemma sum_mod (f g : Z -> Z) l :
  (forall i, i ∈ l -> f i = u64 (g i)) -> u64 (sum_of f l) = u64 (sum_of g l).
Proof.
  induction l as [|i l IH]; intros E; [done|]. rewrite !sum_cons.
  rewrite (E i ltac:(left)). specialize (IH (fun j Hj => E j ltac:(by right))). unfold u64 in *.
  by rewrite Zplus_mod_idemp_l, <- Zplus_mod_idemp_r, IH, Zplus_mod_idemp_r.
Qed.

Lemma sum_calls_app ns ns' l :
  sum_of (fun n => calls_of n (ns ++ ns')) l =
  sum_of (fun n => calls_of n ns) l + sum_of (fun n => calls_of n ns') l.
Proof.
  induction l as [|i l IH]; [done|]. rewrite !sum_cons, IH. unfold calls_of.
  rewrite filter_app, zlen_app. destruct (served i); lia.
Qed.

Lemma sum_calls_one k l :
  NoDup l -> sum_of (fun n => calls_of n [k]) l = if decide (k ∈ l /\ is_Some (served k)) then 1 else 0.
Proof.
  induction 1 as [|i l Hi Hl IH].
  - rewrite decide_False; [done|]. intros [H%not_elem_of_nil _]. done.
  - rewrite sum_cons, IH. unfold calls_of.
    rewrite filter_cons, filter_nil. destruct (decide (k = i)) as [->|Hne].
    + rewrite (decide_False (P := i ∈ l /\ _)) by naive_solver. destruct (served i).
      * rewrite decide_True; [done|]. split; [by left|done].
      * rewrite decide_False; [done|]. intros [_ [? ?]]. done.
    + destruct (decide (k ∈ l /\ _)) as [[Hk Hs]|Hk].
      * rewrite decide_True; [by destruct (served i)|]. split; [by right|done].
      * rewrite decide_False; [by destruct (served i)|]. intros [[?|?]%elem_of_cons ?]; [done|]. tauto.
Qed.

Lemma sum_calls ns :
  sum_of (fun n => calls_of n ns) (seqZ 0 NR_SYSCALLS) = zlen (filter (fun n => is_Some (served n)) ns).
Proof.
  induction ns as [|k ns IH] using rev_ind.
  - rewrite filter_nil. assert (E : forall l, sum_of (fun n => calls_of n []) l = 0); [|apply E].
    induction l as [|i l IH]; [done|]. rewrite !sum_cons, IH. unfold calls_of. by destruct (served i).
  - rewrite sum_calls_app, IH, sum_calls_one, filter_app, zlen_app by apply NoDup_seqZ. f_equal.
    rewrite filter_cons, filter_nil. destruct (decide (is_Some (served k))) as [[f Hf]|Hn].
    + rewrite decide_True; [done|]. split; [|by eexists]. apply elem_of_seqZ. pose proof (served_range k f Hf). lia.
    + rewrite decide_False; [done|]. tauto.
Qed.

Lemma stats_total {B D} (L : layout) ns (s : system (B := B) (D := D)) :
  stats_ok L ns s -> syscall_get_stats L s = u64 (zlen (filter (fun n => is_Some (served n)) ns)).
Proof.
  intros Hc. unfold syscall_get_stats. change 0 with (u64 0) at 2.
  assert (Hr : forall i, i ∈ seqZ 0 NR_SYSCALLS -> call_count L s i = u64 (calls_of i ns)).
  { intros i Hi%elem_of_seqZ. apply Hc. lia. }
  rewrite (total_foldl (call_count L s)).
  - rewrite Z.add_0_l. etransitivity; [exact (sum_mod _ (fun n => calls_of n ns) _ Hr)|]. by rewrite sum_calls.
  - intros i Hi. rewrite (Hr i Hi). unfold u64. lia.
Qed.


(** Bug: [sys_cr_proc_set_cap] asks for no permission.  Whatever process calls it, it
    gets the capability it names. *)
Theorem any_process_grants_itself {B D} (c : Z) (s : system (B := B) (D := D)) (bit : Z)
  (b := pr (sy_ps s) (current c s)) :
  current c s <> NULL -> 0 <= bit < 64 -> 0 < zlen (cap b) ->
  exists s', do_proc_set_cap c s bit 1 = Some (Return s' 0) /\
    Z.testbit (cap (pr (sy_ps s') (current c s))).[0] bit = true.
Proof.
  intros Hc Hb Hl. assert (Hl' : 0 < zlen (cap (procs (ps_sched (sy_ps s)) (current c s)))) by exact Hl.
  unfold do_proc_set_cap. destruct (Z.eqb_spec (current c s) NULL); [done|].
  destruct (Z.ltb_spec bit 0), (Z.leb_spec 64 bit); try lia. cbn [orb Z.eqb negb].
  eexists. split; [reflexivity|]. unfold pr, mod_pr. rec_simpl. unfold mod_proc. rec_simpl.
  rewrite fn_lookup_insert. rec_simpl. rewrite aget_aset by lia. rewrite Z.eqb_refl. rewrite testbit_bit_set by lia.
  by rewrite Z.eqb_refl.
Qed.

(** * Concrete runs *)

(** Devices that do nothing. *)
#[local] Instance no_devices : Devices unit := {|
  display_get_info _ := (0, 0, 0, 0);
  display_blit d _ _ _ _ _ _ _ := d;
  touch_read_event_nb d m _ := (d, m, 0);
  audio_open_stream d _ _ _ _ := (d, 0);
  pm_get_battery_status _ m _ := m;
  rng_get_bytes d m _ _ := (d, m);
  tcp_socket_create d := (d, 0);
  tcp_connect d _ _ _ := (d, 0);
  tcp_close d _ := d
|}.
#[local] Existing Instance demo_backend.

(** The tables at [0x2000] and [0x6000], the functions 16 bytes apart from [0x80000]. *)
Definition fn_number (f : syscall_fn) : Z :=
  match f with
  | sys_read => 0 | sys_write => 1 | sys_open => 2 | sys_close => 3 | sys_lseek => 4 | sys_brk => 5 | sys_mmap => 6
  | sys_munmap => 7 | sys_exit => 8 | sys_getpid => 9 | sys_sched_yield => 10 | sys_nanosleep => 11 | sys_kill => 12
  | sys_clone => 13 | sys_wait4 => 14 | sys_ioctl => 15 | sys_cr_display_info => 16 | sys_cr_fb_blit => 17
  | sys_cr_touch_read => 18 | sys_cr_audio_open => 19 | sys_cr_pm_get_battery => 20 | sys_cr_crypto_random => 21
  | sys_cr_net_connect => 22 | sys_cr_proc_set_cap => 23
  end.
Definition demo_layout : layout := mk_layout 0x2000 0x6000 (fun f => 0x80000 + 16 * fn_number f).

Lemma demo_layout_ok : layout_ok demo_layout.
Proof.
  split; cbn [table_at count_at fn_addr demo_layout].
  - unfold NR_SYSCALLS. lia.
  - intros f. assert (0 <= fn_number f < 24) by (destruct f; cbn; lia). lia.
  - intros f g E. cbn in E. assert (En : fn_number f = fn_number g) by lia. clear E. destruct f, g; try done; discriminate.
Qed.

Definition demo_sys0 : system (B := fs ramdisk) (D := unit) := mk_system demo_vfs demo_started tt [] 0 [].

(** [sys_getpid] looks at the scheduler only. *)
Lemma getpid_sched {B D} (c : Z) (s s' : system (B := B) (D := D)) r :
  ps_sched (sy_ps s') = ps_sched (sy_ps s) -> do_getpid c s = Some (Return s r) -> do_getpid c s' = Some (Return s' r).
Proof.
  unfold do_getpid, current, pr. cbn zeta. intros -> E. injection E as <-. reflexivity.
Qed.

Lemma demo_pid : do_getpid 0 demo_sys0 = Some (Return demo_sys0 1).
Proof. reflexivity. Qed.

Lemma init_sched {B D} L (s : system (B := B) (D := D)) : ps_sched (sy_ps (syscall_init L s)) = ps_sched (sy_ps s).
Proof. reflexivity. Qed.

Lemma set_count_sched {B D} L n v (s : system (B := B) (D := D)) : ps_sched (sy_ps (set_call_count L n v s)) = ps_sched (sy_ps s).
Proof. reflexivity. Qed.


Definition demo_pages_sys : system (B := unit) (D := unit) :=
  mk_system (mkVfs [] true tt) (mkPsys (ps_sched demo_started) [] 0 0 (fun _ => (0, 0))
    (mkKmem (mkHeap (fun _ => mkBlock 0 0 NULL NULL) 0 0 (fun _ => 1) demo_pmm) (fun _ => 0)))
    tt [] 0 [].

Lemma brk_mmap_munmap_witness :
  pmm_wf demo_pmm /\
  exists s' r, do_mmap demo_pages_sys 8000 = Some (Return s' r) /\ r <> - STATUS_NOMEM /\ user_mem s' r = 0.
Proof.
  split; [exact demo_pmm_wf|].
  destruct (brk_mmap_munmap 0 demo_pages_sys demo_pmm_wf eq_refl) as (_ & H & _).
  assert (Ep : page_count 8000 = 2) by (vm_compute; reflexivity).
  destruct (H 8000) as (s' & r & E & [(_ & Hno & _)|Hm]).
  { rewrite Ep. vm_compute. split; discriminate. }
  - exfalso. rewrite Ep in Hno. apply (Hno 1). intros i Hi. apply elem_of_run_of in Hi.
    apply elem_of_free_set. assert (i = 1 \/ i = 2) as [->| ->] by lia; clear; vm_compute; (split; [split; [discriminate|reflexivity]|reflexivity]).
  - exists s', r. split; [exact E|]. destruct Hm as (k & Hin & _ & Hr & _ & _ & _ & _ & Hx).
    assert (Hk : k ∈ free_set (pages demo_pages_sys)) by (apply Hin, elem_of_run_of; rewrite Ep; lia).
    apply elem_of_free_set in Hk as [Hk _]. change (total_pages (pages demo_pages_sys)) with 8 in Hk.
    unfold page_addr in Hr. change (phys_base (pages demo_pages_sys)) with 4096 in Hr. unfold PAGE_SIZE in Hr.
    rewrite s64_id in Hr by lia. split; [unfold STATUS_NOMEM; lia|]. rewrite Hx, Ep, Hr. unfold page_addr, PAGE_SIZE.
    change (phys_base (pages demo_pages_sys)) with 4096. unfold in_range.
    destruct (Z.leb_spec (4096 + k * 4096) (4096 + k * 4096)), (Z.ltb_spec (4096 + k * 4096) (4096 + k * 4096 + 2 * 4096));
      try lia; reflexivity.
Defined.
