(* ===== verification/Net.v ===== *)
(** The network stack ([src/net.c], [src/net.h]): ARP, IPv4, ICMP, the UDP and DNS
    client, TCP sockets and the DHCP discovery, with every function of the file;
    then theorems about checksums, the ARP cache and the IPv4 input.  [Tcp] and
    [Dns] hold the theorems about those two.

    A packet that comes in lies in memory at an address; a packet that goes out is
    the list of its bytes, appended to [sent] with the interface it leaves by (the
    drivers' [transmit] is not modelled).  Packed structs are [pack]ed little endian,
    so fields in network order are written with [htons] and [htonl] as in the code.
    A socket or interface pointer is an index or an address; the byte memory and
    [kmalloc] are the interface [NetMemory], which [Heap] implements.  [ms] and [us]
    are the uptime.  [None] is a dereferenced [NULL] pointer, a buffer overrun, or a
    string without end.  A loop that waits for another process is split: a first
    part, and a test ([..._wait]) which is made again after each [scheduler_yield]. *)
From S2P Require Import Prelude Pmm CString Heap.

(** * Constants *)

Definition ETH_ALEN : Z := 6.
Definition ETH_P_IP : Z := 0x0800.
Definition ETH_P_ARP : Z := 0x0806.
Definition ETH_P_VLAN : Z := 0x8100.
Definition ETH_HDR_LEN : Z := 14.
Definition ETH_VLAN_HDR_LEN : Z := 18.
Definition ARP_HDR_LEN : Z := 28.
Definition ARP_REQUEST : Z := 1.
Definition ARP_REPLY : Z := 2.
Definition ARP_CACHE_SIZE : Z := 64.
Definition IP_PROTO_ICMP : Z := 1.
Definition IP_PROTO_TCP : Z := 6.
Definition IP_PROTO_UDP : Z := 17.
Definition MAX_IP_FRAGS : Z := 16.
Definition ICMP_ECHO_REPLY : Z := 0.
Definition ICMP_ECHO_REQUEST : Z := 8.
Definition TCP_FLAG_FIN : Z := 0x01.
Definition TCP_FLAG_SYN : Z := 0x02.
Definition TCP_FLAG_PSH : Z := 0x08.
Definition TCP_FLAG_ACK : Z := 0x10.
Definition TCP_MAX_SOCKETS : Z := 256.
Definition TCP_RX_BUF_SIZE : Z := 65536.
Definition TCP_TX_BUF_SIZE : Z := 65536.
Definition TCP_MSS : Z := 1460.
Definition TCP_DEFAULT_WINDOW : Z := 65536.
Definition MAX_NET_IFS : Z := 8.
Definition DHCP_STATE_INIT : Z := 0.
Definition DHCP_STATE_SELECTING : Z := 1.
Definition DNS_MAX_QUERIES : Z := 32.
Definition DNS_PORT : Z := 53.

(** [sizeof] of the packed headers *)
Definition IP_HDR : Z := 20.
Definition ICMP_HDR : Z := 8.
Definition UDP_HDR : Z := 8.
Definition TCP_HDR : Z := 20.

Definition htons (v : Z) : Z := Z.lor (Z.shiftl (Z.land v 0xFF) 8) (Z.land (Z.shiftr v 8) 0xFF).
Definition ntohs (v : Z) : Z := htons v.
Definition htonl (v : Z) : Z :=
  Z.lor (Z.lor (Z.lor (Z.shiftl (Z.land v 0xFF) 24) (Z.shiftl (Z.land v 0xFF00) 8))
    (Z.land (Z.shiftr v 8) 0xFF00)) (Z.land (Z.shiftr v 24) 0xFF).
Definition ntohl (v : Z) : Z := htonl v.

(** * State *)

Record arp_entry := mk_arp { ae_ip : Z; ae_mac : list Z; ae_timestamp : Z; ae_valid : Z }.
#[export] Instance eta_arp : Eta arp_entry := fun e => mk_arp (ae_ip e) (ae_mac e) (ae_timestamp e) (ae_valid e).
Definition zero_arp : arp_entry := mk_arp 0 [0; 0; 0; 0; 0; 0] 0 0.
#[export] Instance arp_inhabited : Inhabited arp_entry := populate zero_arp.

Record ip_frag := mk_frag {
  fr_src : Z; fr_dst : Z; fr_id : Z; fr_protocol : Z;
  fr_buf : mem;             (** 65536 bytes *)
  fr_received : Z; fr_total : Z; fr_timestamp : Z; fr_active : Z
}.
#[export] Instance eta_frag : Eta ip_frag := fun f =>
  mk_frag (fr_src f) (fr_dst f) (fr_id f) (fr_protocol f) (fr_buf f) (fr_received f) (fr_total f)
    (fr_timestamp f) (fr_active f).
Definition zero_frag : ip_frag := mk_frag 0 0 0 0 (fun _ => 0) 0 0 0 0.
#[export] Instance frag_inhabited : Inhabited ip_frag := populate zero_frag.

Inductive tcp_state :=
| TCP_CLOSED | TCP_LISTEN | TCP_SYN_SENT | TCP_SYN_RECEIVED | TCP_ESTABLISHED | TCP_FIN_WAIT_1
| TCP_FIN_WAIT_2 | TCP_CLOSE_WAIT | TCP_CLOSING | TCP_LAST_ACK | TCP_TIME_WAIT.
#[export] Instance tcp_state_eq_dec : EqDecision tcp_state.
Proof. solve_decision. Defined.

(** [tcp_cc_t]; [rwnd] is never used *)
Record tcp_cc := mk_cc {
  cwnd : Z; ssthresh : Z; flight_size : Z; dup_acks : Z; rto : Z; rtt_sum : Z; rtt_count : Z
}.
#[export] Instance eta_cc : Eta tcp_cc := fun c =>
  mk_cc (cwnd c) (ssthresh c) (flight_size c) (dup_acks c) (rto c) (rtt_sum c) (rtt_count c).

(** [tcp_socket_t]; its lock and the options that are never used are left out *)
Record tcp_socket := mk_sock {
  local_ip : Z; local_port : Z; remote_ip : Z; remote_port : Z;
  sk_state : tcp_state;
  snd_una : Z; snd_nxt : Z; snd_wnd : Z; rcv_nxt : Z; rcv_wnd : Z; iss : Z; irs : Z;
  rx_buf : Z; rx_head : Z; rx_tail : Z; rx_count : Z;
  tx_buf : Z; tx_head : Z; tx_tail : Z; tx_count : Z;
  cc : tcp_cc;
  last_activity : Z; keepalive_probes : Z; mss : Z; in_use : Z
}.
#[export] Instance eta_sock : Eta tcp_socket := fun s =>
  mk_sock (local_ip s) (local_port s) (remote_ip s) (remote_port s) (sk_state s)
    (snd_una s) (snd_nxt s) (snd_wnd s) (rcv_nxt s) (rcv_wnd s) (iss s) (irs s)
    (rx_buf s) (rx_head s) (rx_tail s) (rx_count s) (tx_buf s) (tx_head s) (tx_tail s) (tx_count s)
    (cc s) (last_activity s) (keepalive_probes s) (mss s) (in_use s).
Definition zero_sock : tcp_socket :=
  mk_sock 0 0 0 0 TCP_CLOSED 0 0 0 0 0 0 0 0 0 0 0 0 0 0 0 (mk_cc 0 0 0 0 0 0 0) 0 0 0 0.
#[export] Instance sock_inhabited : Inhabited tcp_socket := populate zero_sock.

(** [net_if_t] without its functions *)
Record net_if := mk_if {
  if_mac : list Z; ip_addr : Z; netmask : Z; gateway : Z; dns1 : Z; if_name : list Z;
  rx_bytes : Z; tx_bytes : Z; rx_packets : Z; tx_packets : Z; rx_errors : Z
}.
#[export] Instance eta_if : Eta net_if := fun d =>
  mk_if (if_mac d) (ip_addr d) (netmask d) (gateway d) (dns1 d) (if_name d) (rx_bytes d) (tx_bytes d)
    (rx_packets d) (tx_packets d) (rx_errors d).

(** [dns_query_t]; the name, type and class are never used *)
Record dns_query := mk_query { dq_id : Z; result_ip : Z; dq_timestamp : Z; resolved : Z; dq_in_use : Z }.
#[export] Instance eta_query : Eta dns_query := fun q =>
  mk_query (dq_id q) (result_ip q) (dq_timestamp q) (resolved q) (dq_in_use q).
#[export] Instance query_inhabited : Inhabited dns_query := populate (mk_query 0 0 0 0 0).

(** Byte memory and [kmalloc]. *)
Class NetMemory (M : Type) := {
  nm_bytes : M -> mem;
  nm_store : M -> mem -> M;
  nm_kmalloc : M -> Z -> option (M * Z);
  nm_kfree : M -> Z -> M
}.
Class NetMemoryLaws (M : Type) `{NM : NetMemory M} := {
  nm_bytes_store m b : nm_bytes (nm_store m b) = b;
  nm_bytes_kmalloc m n m' p : nm_kmalloc m n = Some (m', p) -> nm_bytes m' = nm_bytes m;
  nm_bytes_kfree m p : nm_bytes (nm_kfree m p) = nm_bytes m
}.

Section net.
Context {M : Type} `{NM : NetMemory M}.

Record net := mk_net {
  arp_cache : list arp_entry;
  ip_frags : list ip_frag;
  tcp_sockets : list tcp_socket;
  next_ephemeral_port : Z;
  net_ifs : list Z;            (** addresses of interfaces *)
  num_net_ifs : Z;
  devs : Z -> net_if;          (** the interface at an address *)
  dhcp_state : Z;
  dhcp_xid : Z;
  dns_queries : list dns_query;
  dns_next_id : Z;
  net_mem : M;
  sent : list (Z * list Z)     (** the calls of [dev->transmit] *)
}.
#[local] Instance eta_net : Eta net := fun s =>
  mk_net (arp_cache s) (ip_frags s) (tcp_sockets s) (next_ephemeral_port s) (net_ifs s) (num_net_ifs s)
    (devs s) (dhcp_state s) (dhcp_xid s) (dns_queries s) (dns_next_id s) (net_mem s) (sent s).

Definition bytes (s : net) : mem := nm_bytes (net_mem s).
Definition set_bytes (s : net) (m : mem) : net := s <| net_mem := nm_store (net_mem s) m |>.
Definition sock (s : net) (i : Z) : tcp_socket := (tcp_sockets s).[i].
Definition mod_sock (s : net) (i : Z) (f : tcp_socket -> tcp_socket) : net :=
  s <| tcp_sockets := (tcp_sockets s).[i <- f (sock s i)] |>.
Definition mod_dev (s : net) (d : Z) (f : net_if -> net_if) : net := s <| devs := <[d := f (devs s d)]> (devs s) |>.
Definition transmit (s : net) (dev : Z) (data : list Z) : net := s <| sent := sent s ++ [(dev, data)] |>.

(** The [n] bytes at [p]. *)
Definition bytes_at (m : mem) (p n : Z) : list Z := map m (seqZ p n).

(** [memset] of the tables, and the boot values of the variables; the timer that calls
    [tcp_timer_callback] is made by [Timer]. *)
Definition net_init (s : net) : net :=
  s <| arp_cache := replicate (Z.to_nat ARP_CACHE_SIZE) zero_arp |>
    <| tcp_sockets := replicate (Z.to_nat TCP_MAX_SOCKETS) zero_sock |>
    <| ip_frags := replicate (Z.to_nat MAX_IP_FRAGS) zero_frag |>
    <| dns_queries := replicate (Z.to_nat DNS_MAX_QUERIES) (mk_query 0 0 0 0 0) |>.

Definition net_register_if (s : net) (dev : Z) : net :=
  if MAX_NET_IFS <=? num_net_ifs s then s
  else s <| net_ifs := (net_ifs s).[num_net_ifs s <- dev] |> <| num_net_ifs := num_net_ifs s + 1 |>.

(** * Checksum *)

(** [while (len > 1) { sum += *p++; len -= 2; } if (len == 1) sum += *p;] *)
Fixpoint sum_words (n : nat) (m : mem) (p sum : Z) : Z :=
  match n with
  | O => sum
  | S n' => sum_words n' m (p + 2) (u32 (sum + load_le 2 m p))
  end.

(** [while (sum >> 16) sum = (sum & 0xFFFF) + (sum >> 16);] *)
Fixpoint fold_carries (fuel : nat) (sum : Z) : option Z :=
  match fuel with
  | O => None
  | S f =>
      if Z.shiftr sum 16 =? 0 then Some sum
      else fold_carries f (u32 (Z.land sum 0xFFFF + Z.shiftr sum 16))
  end.

Definition ip_checksum (m : mem) (data len : Z) : option Z :=
  let sum := sum_words (Z.to_nat (len / 2)) m data 0 in
  let sum := if len mod 2 =? 1 then u32 (sum + m (data + len - 1)) else sum in
  sum ← fold_carries 4 sum; Some (u16 (Z.lnot sum)).

(** * ARP *)

Definition eth_hdr (dst src : list Z) (type : Z) : list Z := dst ++ src ++ le_bytes 2 type.

Definition arp_pkt (opcode : Z) (sender_mac : list Z) (sender_ip : Z) (target_mac : list Z) (target_ip : Z) : list Z :=
  pack [2; 2; 1; 1; 2]%nat [htons 1; htons ETH_P_IP; 6; 4; opcode] ++ sender_mac ++ le_bytes 4 sender_ip ++
  target_mac ++ le_bytes 4 target_ip.

(** The place for a reply: the entry of this address, else the first unused one. *)
Fixpoint arp_slot (n : nat) (cache : list arp_entry) (ip i slot : Z) : Z :=
  match n with
  | O => slot
  | S n' =>
      if ae_ip cache.[i] =? ip then i
      else arp_slot n' cache ip (i + 1)
             (if (ae_valid cache.[i] =? 0) && (slot <? 0) then i else slot)
  end.

Definition arp_rx (s : net) (dev pkt ms : Z) : net :=
  let m := bytes s in
  let arp := pkt + ETH_HDR_LEN in
  if negb (ntohs (load_le 2 m arp) =? 1) || negb (ntohs (load_le 2 m (arp + 2)) =? ETH_P_IP) then s else
  let opcode := ntohs (load_le 2 m (arp + 6)) in
  let sender_mac := bytes_at m (arp + 8) ETH_ALEN in
  let sender_ip := load_le 4 m (arp + 14) in
  let target_ip := load_le 4 m (arp + 24) in
  if opcode =? ARP_REQUEST then
    if target_ip =? ip_addr (devs s dev) then
      transmit s dev (eth_hdr sender_mac (if_mac (devs s dev)) (htons ETH_P_ARP) ++
        arp_pkt (htons ARP_REPLY) (if_mac (devs s dev)) (ip_addr (devs s dev)) sender_mac sender_ip)
    else s
  else if opcode =? ARP_REPLY then
    let slot := arp_slot (Z.to_nat ARP_CACHE_SIZE) (arp_cache s) sender_ip 0 (-1) in
    if 0 <=? slot then s <| arp_cache := (arp_cache s).[slot <- mk_arp sender_ip sender_mac ms 1] |> else s
  else s.

Definition arp_request (s : net) (dev target_ip : Z) : net :=
  let mac := if_mac (devs s dev) in
  transmit s dev (eth_hdr (replicate 6 0xFF) mac (htons ETH_P_ARP) ++
    arp_pkt (htons ARP_REQUEST) mac (ip_addr (devs s dev)) (replicate 6 0) target_ip).

Definition arp_hit (s : net) (ip i : Z) : bool :=
  negb (ae_valid (arp_cache s).[i] =? 0) && (ae_ip (arp_cache s).[i] =? ip).

(** The MAC address of the next hop, or nothing yet: then a request is sent. *)
Definition arp_lookup (s : net) (ip : Z) : option (net * option (list Z)) :=
  let d := (net_ifs s).[0] in
  if d =? NULL then None else
  let ip := if negb (Z.land ip (netmask (devs s d)) =? Z.land (ip_addr (devs s d)) (netmask (devs s d)))
            then gateway (devs s d) else ip in
  match find_from (arp_hit s ip) (Z.to_nat ARP_CACHE_SIZE) 0 with
  | Some i => Some (s, Some (ae_mac (arp_cache s).[i]))
  | None => Some (arp_request s d ip, None)
  end.

(** * IPv4 output *)

Definition ip_fields (len id proto checksum src dst : Z) : list Z :=
  pack [1; 1; 2; 2; 2; 1; 1; 2; 4; 4]%nat [0x45; 0; htons (u16 len); id; 0; 64; proto; checksum; src; dst].

(** A header: its checksum is computed over the header with a zero there. *)
Definition ip_hdr (len id proto src dst : Z) : option (list Z) :=
  sum ← ip_checksum (fun a => (ip_fields len id proto 0 src dst).[a]) 0 IP_HDR;
  Some (ip_fields len id proto sum src dst).

(** * TCP output *)

Definition tcp_hdr (sk : tcp_socket) (flags : Z) : list Z :=
  pack [2; 2; 4; 4; 1; 1; 2; 2; 2]%nat
    [htons (local_port sk); htons (remote_port sk); htonl (snd_nxt sk);
     (if negb (Z.land flags TCP_FLAG_ACK =? 0) then htonl (rcv_nxt sk) else 0);
     TCP_HDR / 4 * 16; flags; htons (if 65535 <? rcv_wnd sk then 65535 else u16 (rcv_wnd sk)); 0; 0].

Definition tcp_send_segment (s : net) (i flags : Z) (data : list Z) : option net :=
  let dev := (net_ifs s).[0] in
  if dev =? NULL then Some s else
  let pkt_len := u32 (ETH_HDR_LEN + IP_HDR + TCP_HDR + zlen data) in
  '(m, pkt) ← nm_kmalloc (net_mem s) pkt_len;
  let s := s <| net_mem := m |> in
  if pkt =? NULL then Some s else
  let sk := sock s i in
  '(s, mac) ← arp_lookup s (remote_ip sk);
  match mac with
  | None => Some (s <| net_mem := nm_kfree (net_mem s) pkt |>)
  | Some dst_mac =>
      ip ← ip_hdr (IP_HDR + TCP_HDR + zlen data) 0 IP_PROTO_TCP (local_ip sk) (remote_ip sk);
      let s := transmit s dev (eth_hdr dst_mac (if_mac (devs s dev)) (htons ETH_P_IP) ++ ip ++
                               tcp_hdr sk flags ++ data) in
      let s := mod_dev s dev (fun d => d <| tx_packets := u64 (tx_packets d + 1) |>
                                         <| tx_bytes := u64 (tx_bytes d + pkt_len) |>) in
      let s := mod_sock s i (fun sk => sk <| snd_nxt := u32 (snd_nxt sk + zlen data) |>) in
      Some (s <| net_mem := nm_kfree (net_mem s) pkt |>)
  end.

(** * TCP input *)

(** [tcp_retransmit] only prints a line. *)
Definition tcp_process_ack (sk : tcp_socket) (ack : Z) : tcp_socket :=
  let c := cc sk in
  if snd_una sk <? ack then
    let acked := ack - snd_una sk in
    let sk := sk <| snd_una := ack |> in
    let c := c <| flight_size := u32 (flight_size c - acked) |> in
    let c :=
      if cwnd c <? ssthresh c then c <| cwnd := u32 (cwnd c + TCP_MSS) |>
      else
        let w := u32 (cwnd c + TCP_MSS * TCP_MSS / cwnd c) in
        c <| cwnd := if w <? TCP_MSS then TCP_MSS else w |> in
    sk <| cc := c <| dup_acks := 0 |> |>
  else if ack =? snd_una sk then
    let c := c <| dup_acks := u32 (dup_acks c + 1) |> in
    let c :=
      if dup_acks c =? 3 then
        let t := cwnd c / 2 in
        let t := if t <? 2 * TCP_MSS then 2 * TCP_MSS else t in
        c <| ssthresh := t |> <| cwnd := u32 (t + 3 * TCP_MSS) |>
      else c in
    sk <| cc := c |>
  else sk.

Definition tcp_update_rtt (sk : tcp_socket) (rtt : Z) : tcp_socket :=
  let c := cc sk in
  let c := c <| rtt_sum := u64 (rtt_sum c + rtt) |> <| rtt_count := u32 (rtt_count c + 1) |> in
  if 8 <=? rtt_count c then
    let r := u32 (u32 (rtt_sum c / rtt_count c) * 2) in
    let r := if r <? 200 then 200 else r in
    let r := if 60000 <? r then 60000 else r in
    sk <| cc := c <| rto := r |> <| rtt_sum := 0 |> <| rtt_count := 0 |> |>
  else sk <| cc := c |>.

(** The copy loops of [tcp_rx] and [tcp_send]: [n] bytes from [src] into a ring. *)
Fixpoint ring_write (n : nat) (m : mem) (buf cap head src : Z) : mem * Z :=
  match n with
  | O => (m, head)
  | S n' => ring_write n' (<[buf + head := m src]> m) buf cap ((head + 1) mod cap) (src + 1)
  end.
(** The copy loop of [tcp_recv]: [n] bytes from a ring to [dst]. *)
Fixpoint ring_read (n : nat) (m : mem) (buf cap tail dst : Z) : mem * Z :=
  match n with
  | O => (m, tail)
  | S n' => ring_read n' (<[dst := m (buf + tail)]> m) buf cap ((tail + 1) mod cap) (dst + 1)
  end.

Definition find_sock (s : net) (src src_port dst_port : Z) : option Z :=
  find_from (fun i =>
    let sk := sock s i in
    negb (in_use sk =? 0) &&
    ((local_port sk =? dst_port) && (remote_port sk =? src_port) && (remote_ip sk =? src) ||
     bool_decide (sk_state sk = TCP_LISTEN) && (local_port sk =? dst_port)))
    (Z.to_nat TCP_MAX_SOCKETS) 0.

Definition has_flag (flags f : Z) : bool := negb (Z.land flags f =? 0).

(** The segment's data, if it is the next: taken as far as there is room. *)
Definition tcp_rx_data (s : net) (i data tcp_hlen payload_len seq : Z) : option net :=
  let sk := sock s i in
  if (0 <? payload_len) && (seq =? rcv_nxt sk) then
    let space := u32 (TCP_RX_BUF_SIZE - rx_count sk) in
    let payload_len := if space <? payload_len then u16 space else payload_len in
    let '(m, head) := ring_write (Z.to_nat payload_len) (bytes s) (rx_buf sk) TCP_RX_BUF_SIZE (rx_head sk)
                        (data + tcp_hlen) in
    let s := set_bytes s m in
    let s := mod_sock s i (fun sk => sk <| rx_head := head |> <| rx_count := u32 (rx_count sk + payload_len) |>
                                       <| rcv_nxt := u32 (rcv_nxt sk + payload_len) |>) in
    tcp_send_segment s i TCP_FLAG_ACK []
  else Some s.

Definition tcp_rx_fin (s : net) (i : Z) : option net :=
  let s := mod_sock s i (fun sk => sk <| rcv_nxt := u32 (rcv_nxt sk + 1) |>) in
  s ← tcp_send_segment s i TCP_FLAG_ACK [];
  Some (mod_sock s i (fun sk => sk <| sk_state :=
    match sk_state sk with
    | TCP_ESTABLISHED => TCP_CLOSE_WAIT
    | TCP_FIN_WAIT_1 => TCP_CLOSING
    | TCP_FIN_WAIT_2 => TCP_TIME_WAIT
    | st => st
    end |>)).

(** The switch over the states. *)
Definition tcp_input (s : net) (i src src_port data len tcp_hlen seq ack flags window us : Z) : option net :=
  match sk_state (sock s i) with
  | TCP_SYN_SENT =>
      if has_flag flags TCP_FLAG_SYN then
        let s := mod_sock s i (fun sk => sk <| irs := seq |> <| rcv_nxt := u32 (seq + 1) |>) in
        let s := if has_flag flags TCP_FLAG_ACK
                 then mod_sock s i (fun sk => tcp_process_ack (sk <| snd_una := ack |>) ack) else s in
        let s := mod_sock s i (fun sk => sk <| snd_wnd := window |>) in
        s ← tcp_send_segment s i (Z.lor TCP_FLAG_SYN TCP_FLAG_ACK) [];
        Some (mod_sock s i (fun sk => sk <| snd_nxt := u32 (iss sk + 1) |> <| sk_state := TCP_SYN_RECEIVED |>))
      else Some s
  | TCP_SYN_RECEIVED =>
      if has_flag flags TCP_FLAG_ACK then
        Some (mod_sock s i (fun sk => (tcp_process_ack (sk <| snd_una := ack |>) ack) <| sk_state := TCP_ESTABLISHED |>))
      else Some s
  | TCP_LISTEN =>
      if has_flag flags TCP_FLAG_SYN then
        let s := mod_sock s i (fun sk => sk <| irs := seq |> <| rcv_nxt := u32 (seq + 1) |> <| iss := u32 us |>) in
        let s := mod_sock s i (fun sk => sk <| snd_una := iss sk |> <| snd_nxt := u32 (iss sk + 1) |>
                                            <| remote_ip := src |> <| remote_port := src_port |>) in
        s ← tcp_send_segment s i (Z.lor TCP_FLAG_SYN TCP_FLAG_ACK) [];
        Some (mod_sock s i (fun sk => sk <| sk_state := TCP_SYN_RECEIVED |>))
      else Some s
  | TCP_ESTABLISHED | TCP_FIN_WAIT_1 | TCP_FIN_WAIT_2 =>
      let s := if has_flag flags TCP_FLAG_ACK
               then mod_sock s i (fun sk => (tcp_process_ack sk ack) <| snd_wnd := window |>) else s in
      s ← tcp_rx_data s i data tcp_hlen (u16 (len - tcp_hlen)) seq;
      if has_flag flags TCP_FLAG_FIN then tcp_rx_fin s i else Some s
  | TCP_LAST_ACK =>
      if has_flag flags TCP_FLAG_ACK
      then Some (mod_sock s i (fun sk => sk <| sk_state := TCP_CLOSED |> <| in_use := 0 |>)) else Some s
  | TCP_CLOSING =>
      if has_flag flags TCP_FLAG_ACK
      then Some (mod_sock s i (fun sk => sk <| sk_state := TCP_TIME_WAIT |>)) else Some s
  | TCP_CLOSED | TCP_CLOSE_WAIT | TCP_TIME_WAIT => Some s
  end.

Definition tcp_rx (s : net) (ip data len ms us : Z) : option net :=
  let m := bytes s in
  let src_port := ntohs (load_le 2 m data) in
  let dst_port := ntohs (load_le 2 m (data + 2)) in
  let tcp_hlen := Z.shiftr (m (data + 12)) 4 * 4 in
  let seq := ntohl (load_le 4 m (data + 4)) in
  let ack := ntohl (load_le 4 m (data + 8)) in
  let flags := m (data + 13) in
  let window := ntohs (load_le 2 m (data + 14)) in
  let src := load_le 4 m (ip + 12) in
  match find_sock s src src_port dst_port with
  | None => Some s
  | Some i =>
      let s := mod_sock s i (fun sk => sk <| last_activity := ms |>) in
      tcp_input s i src src_port data len tcp_hlen seq ack flags window us
  end.

(** One round of the loop of [tcp_timer_callback]. *)
Definition tcp_timer_one (now : Z) (s : net) (i : Z) : option net :=
  if in_use (sock s i) =? 0 then Some s else
  let idle sk := u64 (now - last_activity sk) in
  let s := if (0 <? flight_size (cc (sock s i))) && (rto (cc (sock s i)) <? idle (sock s i))
           then mod_sock s i (fun sk => sk <| cc := (cc sk) <| ssthresh := cwnd (cc sk) / 2 |> <| cwnd := TCP_MSS |> |>)
           else s in
  s ← (if bool_decide (sk_state (sock s i) = TCP_ESTABLISHED) && (7200000 <? idle (sock s i)) then
         s ← tcp_send_segment s i TCP_FLAG_ACK [];
         let s := mod_sock s i (fun sk => sk <| keepalive_probes := u32 (keepalive_probes sk + 1) |>) in
         Some (if 9 <? keepalive_probes (sock s i)
               then mod_sock s i (fun sk => sk <| sk_state := TCP_CLOSED |> <| in_use := 0 |>) else s)
       else Some s);
  Some (if bool_decide (sk_state (sock s i) = TCP_TIME_WAIT) && (120000 <? idle (sock s i))
        then mod_sock s i (fun sk => sk <| sk_state := TCP_CLOSED |> <| in_use := 0 |>) else s).
Fixpoint tcp_timer_loop (now : Z) (n : nat) (i : Z) (s : net) : option net :=
  match n with
  | O => Some s
  | S n' => s ← tcp_timer_one now s i; tcp_timer_loop now n' (i + 1) s
  end.
Definition tcp_timer_callback (s : net) (ms : Z) : option net :=
  tcp_timer_loop ms (Z.to_nat TCP_MAX_SOCKETS) 0 s.

(** * UDP and DNS *)

Definition udp_send_raw (s : net) (dst_ip src_port dst_port : Z) (payload : list Z) (us : Z) : option (net * Z) :=
  if num_net_ifs s =? 0 then Some (s, -1) else
  let dev := (net_ifs s).[0] in
  let pkt_len := ETH_HDR_LEN + IP_HDR + UDP_HDR + zlen payload in
  '(m, pkt) ← nm_kmalloc (net_mem s) pkt_len;
  let s := s <| net_mem := m |> in
  if pkt =? NULL then Some (s, -1) else
  '(s, mac) ← arp_lookup s dst_ip;
  match mac with
  | None => Some (s <| net_mem := nm_kfree (net_mem s) pkt |>, -1)
  | Some dst_mac =>
      ip ← ip_hdr (IP_HDR + UDP_HDR + zlen payload) (htons (u16 us)) IP_PROTO_UDP (ip_addr (devs s dev)) dst_ip;
      let udp := pack [2; 2; 2; 2]%nat [htons src_port; htons dst_port; htons (u16 (UDP_HDR + zlen payload)); 0] in
      let s := transmit s dev (eth_hdr dst_mac (if_mac (devs s dev)) (htons ETH_P_IP) ++ ip ++ udp ++ payload) in
      Some (s <| net_mem := nm_kfree (net_mem s) pkt |>, 0)
  end.

Definition be16 (m : mem) (p : Z) : Z := Z.lor (Z.shiftl (m p) 8) (m (p + 1)).

(** [while (off < plen && payload[off] != 0) { ... off += 1 + payload[off]; }]: over the
    labels of a name, up to a zero or past a compression pointer. *)
Fixpoint skip_labels (fuel : nat) (m : mem) (payload plen off : Z) : option Z :=
  match fuel with
  | O => None
  | S f =>
      if (off <? plen) && negb (m (payload + off) =? 0) then
        if Z.land (m (payload + off)) 0xC0 =? 0xC0 then Some (off + 2)
        else skip_labels f m payload plen (off + (1 + m (payload + off)))
      else Some off
  end.
Definition skip_name (m : mem) (payload plen off : Z) : option Z :=
  off ← skip_labels (S (Z.to_nat (plen - off))) m payload plen off;
  Some (if (off <? plen) && (m (payload + off) =? 0) then off + 1 else off).

Fixpoint skip_questions (n : nat) (m : mem) (payload plen off : Z) : option Z :=
  match n with
  | O => Some off
  | S n' =>
      if off <? plen then
        off ← skip_name m payload plen off; skip_questions n' m payload plen (off + 4)
      else Some off
  end.

(** The first answer that is an A record with four bytes. *)
Fixpoint find_answer (n : nat) (m : mem) (payload plen off : Z) : option (option Z) :=
  match n with
  | O => Some None
  | S n' =>
      if off + 10 <? plen then
        off ← (if Z.land (m (payload + off)) 0xC0 =? 0xC0 then Some (off + 2) else skip_name m payload plen off);
        if plen <? off + 10 then Some None else
        let rtype := be16 m (payload + off) in
        let rclass := be16 m (payload + off + 2) in
        let rdlen := be16 m (payload + off + 8) in
        let off := off + 10 in
        if (rtype =? 1) && (rclass =? 1) && (rdlen =? 4) && (off + 4 <=? plen) then
          Some (Some (Z.lor (Z.lor (Z.lor (Z.shiftl (m (payload + off)) 24) (Z.shiftl (m (payload + off + 1)) 16))
                        (Z.shiftl (m (payload + off + 2)) 8)) (m (payload + off + 3))))
        else find_answer n' m payload plen (off + rdlen)
      else Some None
  end.

Definition udp_rx (s : net) (data len : Z) : option net :=
  let m := bytes s in
  if len <? UDP_HDR then Some s else
  let src_port := ntohs (load_le 2 m data) in
  let payload := data + UDP_HDR in
  let plen := ntohs (load_le 2 m (data + 4)) in
  if plen <? UDP_HDR then Some s else
  let plen := plen - UDP_HDR in
  if (src_port =? DNS_PORT) && (12 <=? plen) then
    let dns_id := be16 m payload in
    let flags := be16 m (payload + 2) in
    let qdcount := be16 m (payload + 4) in
    let ancount := be16 m (payload + 6) in
    if (Z.land flags 0x8000 =? 0) || negb (Z.land flags 0x000F =? 0) then Some s else
    match find_from (fun i => let q := (dns_queries s).[i] in
            negb (dq_in_use q =? 0) && (resolved q =? 0) && (dq_id q =? dns_id)) (Z.to_nat DNS_MAX_QUERIES) 0 with
    | None => Some s
    | Some i =>
        off ← skip_questions (Z.to_nat qdcount) m payload plen 12;
        answer ← find_answer (Z.to_nat ancount) m payload plen off;
        Some (match answer with
              | Some ip => s <| dns_queries := (dns_queries s).[i <-
                  (dns_queries s).[i] <| result_ip := ip |> <| resolved := 1 |>] |>
              | None => s
              end)
    end
  else Some s.

(** * IPv4 and Ethernet input *)

Definition icmp_rx (s : net) (dev ip data : Z) : option net :=
  let m := bytes s in
  if m data =? ICMP_ECHO_REQUEST then
    '(s, mac) ← arp_lookup s (load_le 4 m (ip + 12));
    match mac with
    | None => Some s
    | Some dst_mac =>
        h ← ip_hdr (IP_HDR + ICMP_HDR) 0 IP_PROTO_ICMP (load_le 4 m (ip + 16)) (load_le 4 m (ip + 12));
        let icmp c := pack [1; 1; 2; 2; 2]%nat [ICMP_ECHO_REPLY; 0; c; load_le 2 m (data + 4); load_le 2 m (data + 6)] in
        c ← ip_checksum (fun a => (icmp 0).[a]) 0 ICMP_HDR;
        Some (transmit s dev (eth_hdr dst_mac (if_mac (devs s dev)) (htons ETH_P_IP) ++ h ++ icmp c))
    end
  else Some s.

(** The entry for a fragment: the first that is free or of the same datagram. *)
Definition frag_slot (s : net) (src dst id protocol : Z) : option Z :=
  find_from (fun i => let f := (ip_frags s).[i] in
    (fr_active f =? 0) ||
    (fr_src f =? src) && (fr_dst f =? dst) && (fr_id f =? id) && (fr_protocol f =? protocol))
    (Z.to_nat MAX_IP_FRAGS) 0.

(** The size of the array [buf] of an entry. *)
Definition IP_FRAG_BUF_SIZE : Z := 65536.

(** [memcpy(buf + offset, src, n)] into an array of [cap] bytes: a byte past its end is
    outside of the object, which is undefined behaviour ([None]). *)
Definition copy_into (cap : Z) (buf : mem) (offset : Z) (m : mem) (src n : Z) : option mem :=
  if cap <? offset + n then None
  else Some (fun x => if in_range offset n x then m (src + (x - offset)) else buf x).

Definition ip_rx_frag (s : net) (ip ihl total_len frag_off ms : Z) : option net :=
  let m := bytes s in
  let src := load_le 4 m (ip + 12) in
  let dst := load_le 4 m (ip + 16) in
  let id := ntohs (load_le 2 m (ip + 4)) in
  let protocol := m (ip + 9) in
  match frag_slot s src dst id protocol with
  | None => Some s
  | Some i =>
      let f := (ip_frags s).[i] in
      let f := if fr_active f =? 0 then
                 f <| fr_active := 1 |> <| fr_src := src |> <| fr_dst := dst |> <| fr_id := id |>
                   <| fr_protocol := protocol |> <| fr_received := 0 |> <| fr_timestamp := ms |>
               else f in
      let offset := u16 (Z.land frag_off 0x1FFF * 8) in
      let payload_len := u16 (total_len - ihl) in
      buf ← copy_into IP_FRAG_BUF_SIZE (fr_buf f) offset m (ip + ihl) payload_len;
      let f := f <| fr_buf := buf |> in
      let f := f <| fr_received := u16 (fr_received f + payload_len) |> in
      let f := if Z.land frag_off 0x2000 =? 0 then f <| fr_total := u16 (offset + payload_len) |> else f in
      Some (s <| ip_frags := (ip_frags s).[i <- f] |>)
  end.

Definition ip_rx (s : net) (dev pkt len ms us : Z) : option net :=
  let m := bytes s in
  if len <? ETH_HDR_LEN + IP_HDR then Some s else
  let ip := pkt + ETH_HDR_LEN in
  let ihl := u8 (Z.land (m ip) 0x0F * 4) in
  let total_len := ntohs (load_le 2 m (ip + 2)) in
  if negb (Z.shiftr (m ip) 4 =? 4) then Some s else
  sum ← ip_checksum m ip ihl;
  if negb (sum =? 0) then Some s else
  let frag_off := ntohs (load_le 2 m (ip + 6)) in
  if negb (Z.land frag_off 0x3FFF =? 0) then ip_rx_frag s ip ihl total_len frag_off ms else
  let payload := ip + ihl in
  let payload_len := u16 (total_len - ihl) in
  let protocol := m (ip + 9) in
  if protocol =? IP_PROTO_ICMP then icmp_rx s dev ip payload
  else if protocol =? IP_PROTO_UDP then udp_rx s payload payload_len
  else if protocol =? IP_PROTO_TCP then tcp_rx s ip payload payload_len ms us
  else Some s.

Definition count_rx (s : net) (dev len : Z) : net :=
  mod_dev s dev (fun d => d <| rx_bytes := u64 (rx_bytes d + len) |> <| rx_packets := u64 (rx_packets d + 1) |>).

Definition net_rx_frame (s : net) (dev data len ms us : Z) : option net :=
  if (dev =? NULL) || (len <? ETH_HDR_LEN) then Some s else
  let s := count_rx s dev len in
  let type := ntohs (load_le 2 (bytes s) (data + 12)) in
  if type =? ETH_P_ARP then Some (arp_rx s dev data ms)
  else if type =? ETH_P_IP then ip_rx s dev data len ms us
  else Some s.

Definition net_rx_packet (s : net) (dev pkt len ms us : Z) : option net :=
  let s := count_rx s dev len in
  if len <? ETH_HDR_LEN then Some (mod_dev s dev (fun d => d <| rx_errors := u64 (rx_errors d + 1) |>)) else
  let type := ntohs (load_le 2 (bytes s) (pkt + 12)) in
  if (type =? ETH_P_VLAN) && (len <? ETH_VLAN_HDR_LEN) then Some s else
  let type := if type =? ETH_P_VLAN then ntohs (load_le 2 (bytes s) (pkt + 16)) else type in
  if type =? ETH_P_ARP then Some (arp_rx s dev pkt ms)
  else if type =? ETH_P_IP then ip_rx s dev pkt len ms us
  else Some s.

(** * TCP sockets *)

Definition tcp_socket_create (s : net) : option (net * Z) :=
  match find_from (fun i => in_use (sock s i) =? 0) (Z.to_nat TCP_MAX_SOCKETS) 0 with
  | None => Some (s, -1)
  | Some i =>
      '(m, rx) ← nm_kmalloc (net_mem s) TCP_RX_BUF_SIZE;
      '(m, tx) ← nm_kmalloc m TCP_TX_BUF_SIZE;
      let sk := zero_sock <| rx_buf := rx |> <| tx_buf := tx |> <| rcv_wnd := TCP_DEFAULT_WINDOW |>
                  <| mss := TCP_MSS |> <| in_use := 1 |>
                  <| cc := (mk_cc 0 0 0 0 0 0 0) <| cwnd := TCP_MSS |> <| ssthresh := 65535 |> <| rto := 1000 |> |> in
      Some (mod_sock (s <| net_mem := m |>) i (fun _ => sk), i)
  end.

Definition bad_sock (s : net) (fd : Z) : bool :=
  (fd <? 0) || (TCP_MAX_SOCKETS <=? fd) || (in_use (sock s fd) =? 0).

(** [next_ephemeral_port++] *)
Definition ephemeral (s : net) : net * Z :=
  (s <| next_ephemeral_port := u16 (next_ephemeral_port s + 1) |>, next_ephemeral_port s).

Definition tcp_bind (s : net) (fd ip port : Z) : net * Z :=
  if bad_sock s fd then (s, -1) else
  let '(s, port) := if negb (port =? 0) then (s, port) else ephemeral s in
  (mod_sock s fd (fun sk => sk <| local_ip := ip |> <| local_port := port |> <| sk_state := TCP_CLOSED |>), 0).

(** Up to the wait for the handshake; [Some (s, -1)] is the early return. *)
Definition tcp_connect (s : net) (fd ip port ms us : Z) : option (net * Z) :=
  if bad_sock s fd then Some (s, -1) else
  let '(s, lport) := ephemeral s in
  let s := mod_sock s fd (fun sk => sk <| remote_ip := ip |> <| remote_port := port |> <| local_port := lport |>
             <| iss := u32 us |> <| snd_una := u32 us |> <| snd_nxt := u32 (u32 us + 1) |>
             <| sk_state := TCP_SYN_SENT |> <| last_activity := ms |>) in
  s ← tcp_send_segment s fd TCP_FLAG_SYN []; Some (s, 0).
(** [None]: wait on. *)
Definition tcp_connect_wait (s : net) (fd : Z) : option Z :=
  match sk_state (sock s fd) with
  | TCP_SYN_SENT => None
  | TCP_ESTABLISHED => Some 0
  | _ => Some (-1)
  end.

Definition tcp_listen (s : net) (fd : Z) : net * Z :=
  if bad_sock s fd then (s, -1) else (mod_sock s fd (fun sk => sk <| sk_state := TCP_LISTEN |>), 0).

(** A round of the wait, and what follows it: the result and the address it stores;
    [None]: wait on. *)
Definition tcp_accept_wait (s : net) (fd : Z) : option (Z * option (Z * Z)) :=
  match sk_state (sock s fd) with
  | TCP_LISTEN => None
  | TCP_ESTABLISHED => Some (fd, Some (remote_ip (sock s fd), remote_port (sock s fd)))
  | _ => Some (-1, None)
  end.

Definition tcp_accept (s : net) (fd : Z) : option (Z * option (Z * Z)) :=
  if bad_sock s fd then Some (-1, None) else tcp_accept_wait s fd.

(** What [tcp_send] sends at once of what is in the ring. *)
Definition tcp_push (s : net) (fd to_copy : Z) : option net :=
  let sk := sock s fd in
  if (snd_una sk =? snd_nxt sk) || (mss sk <=? to_copy) then
    let room := u32 (cwnd (cc sk) - flight_size (cc sk)) in
    let payload := tx_count sk in
    let payload := if room <? payload then room else payload in
    let payload := if mss sk <? payload then mss sk else payload in
    if 0 <? payload then
      let seg := map (fun i => bytes s (tx_buf sk + (tx_tail sk + i) mod TCP_TX_BUF_SIZE)) (seqZ 0 payload) in
      s ← tcp_send_segment s fd (Z.lor TCP_FLAG_ACK TCP_FLAG_PSH) seg;
      Some (mod_sock s fd (fun sk => sk
        <| tx_tail := (tx_tail sk + payload) mod TCP_TX_BUF_SIZE |> <| tx_count := u32 (tx_count sk - payload) |>
        <| cc := (cc sk) <| flight_size := u32 (flight_size (cc sk) + payload) |> |>))
    else Some s
  else Some s.

(** How a stretch of [tcp_send] without a [scheduler_yield] ends: the call returns, or
    the ring is full and it yields, to look at the ring again, with [done] bytes taken. *)
Inductive send_end := SendReturn (r : Z) | SendYield (done : Z).

(** The loop of [tcp_send] from where [done] bytes are taken ([sent] there), at its start
    or after a yield.  Each round takes a byte, so [len - done] and one more rounds are enough. *)
Fixpoint tcp_send_loop (fuel : nat) (s : net) (fd data len done : Z) : option (net * send_end) :=
  match fuel with
  | O => None
  | S f =>
      if len <=? done then Some (s, SendReturn done) else
      let sk := sock s fd in
      let space := u32 (TCP_TX_BUF_SIZE - tx_count sk) in
      if space =? 0 then Some (s, SendYield done) else
      let to_copy := if space <? len - done then space else len - done in
      let '(m, head) := ring_write (Z.to_nat to_copy) (bytes s) (tx_buf sk) TCP_TX_BUF_SIZE (tx_head sk) (data + done) in
      let s := set_bytes s m in
      let s := mod_sock s fd (fun sk => sk <| tx_head := head |> <| tx_count := u32 (tx_count sk + to_copy) |>) in
      s ← tcp_push s fd to_copy;
      tcp_send_loop f s fd data len (done + to_copy)
  end.
Definition tcp_send (s : net) (fd data len : Z) : option (net * send_end) :=
  if bad_sock s fd || negb (bool_decide (sk_state (sock s fd) = TCP_ESTABLISHED)) then Some (s, SendReturn (-1))
  else tcp_send_loop (S (Z.to_nat len)) s fd data len 0.

(** A round of the wait, and what follows it; [None] as result: wait on. *)
Definition tcp_recv_wait (s : net) (fd buf len : Z) : option (net * option Z) :=
  let sk := sock s fd in
  if (rx_count sk =? 0) && bool_decide (sk_state sk = TCP_ESTABLISHED) then Some (s, None) else
  let to_read := if rx_count sk <? len then rx_count sk else len in
  let '(m, tail) := ring_read (Z.to_nat to_read) (bytes s) (rx_buf sk) TCP_RX_BUF_SIZE (rx_tail sk) buf in
  let s := set_bytes s m in
  let s := mod_sock s fd (fun sk => sk <| rx_tail := tail |> <| rx_count := u32 (rx_count sk - to_read) |>
             <| rcv_wnd := u32 (TCP_DEFAULT_WINDOW - (rx_count sk - to_read)) |>) in
  s ← (if 0 <? to_read then tcp_send_segment s fd TCP_FLAG_ACK [] else Some s);
  Some (s, Some to_read).
Definition tcp_recv (s : net) (fd buf len : Z) : option (net * option Z) :=
  if bad_sock s fd then Some (s, Some (-1)) else tcp_recv_wait s fd buf len.

Definition tcp_close (s : net) (fd : Z) : option net :=
  if bad_sock s fd then Some s else
  match sk_state (sock s fd) with
  | TCP_ESTABLISHED =>
      tcp_send_segment (mod_sock s fd (fun sk => sk <| sk_state := TCP_FIN_WAIT_1 |>)) fd (Z.lor TCP_FLAG_FIN TCP_FLAG_ACK) []
  | TCP_CLOSE_WAIT =>
      tcp_send_segment (mod_sock s fd (fun sk => sk <| sk_state := TCP_LAST_ACK |>)) fd (Z.lor TCP_FLAG_FIN TCP_FLAG_ACK) []
  | _ => Some s
  end.
(** [None]: wait on; otherwise the slot and its buffers are given back. *)
Definition tcp_close_wait (s : net) (fd : Z) : option net :=
  match sk_state (sock s fd) with
  | TCP_CLOSED | TCP_TIME_WAIT =>
      let s := mod_sock s fd (fun sk => sk <| in_use := 0 |>) in
      let s := if rx_buf (sock s fd) =? NULL then s else s <| net_mem := nm_kfree (net_mem s) (rx_buf (sock s fd)) |> in
      let s := if tx_buf (sock s fd) =? NULL then s else s <| net_mem := nm_kfree (net_mem s) (tx_buf (sock s fd)) |> in
      Some s
  | _ => None
  end.

(** * DHCP *)

Definition dhcp_packet (mac : list Z) (xid : Z) : list Z :=
  replicate 34 0 ++ pack [2; 2; 2; 2]%nat [htons 68; htons 67; htons (576 - ETH_HDR_LEN - IP_HDR); 0] ++
  [1; 1; 6; 0] ++ le_bytes 4 (htonl xid) ++ replicate 20 0 ++ mac ++ replicate 202 0 ++
  [0x63; 0x82; 0x53; 0x63] ++ [53; 1; 1; 55; 4; 1; 3; 6; 15; 61; 7; 1] ++ mac ++ [255] ++ replicate 275 0.

Definition dhcp_start (s : net) (dev us : Z) : net :=
  let s := s <| dhcp_state := DHCP_STATE_INIT |> <| dhcp_xid := u32 us |> in
  let s := transmit s dev (dhcp_packet (if_mac (devs s dev)) (dhcp_xid s)) in
  s <| dhcp_state := DHCP_STATE_SELECTING |>.

(** * The DNS client *)

(** [while ( *p) { if ( *p != '.' && ( *p < '0' || *p > '9')) ... }] *)
Fixpoint all_digits (fuel : nat) (m : mem) (p : Z) : option bool :=
  match fuel with
  | O => None
  | S f =>
      if m p =? 0 then Some true
      else if negb (m p =? 46) && ((m p <? 48) || (57 <? m p)) then Some false
      else all_digits f m (p + 1)
  end.
(** [while ( *q >= '0' && *q <= '9') { a = a*10 + ( *q - '0'); q++; }] *)
Fixpoint parse_number (fuel : nat) (m : mem) (q a : Z) : option (Z * Z) :=
  match fuel with
  | O => None
  | S f =>
      if (48 <=? m q) && (m q <=? 57) then parse_number f m (q + 1) (u32 (u32 (a * 10) + (m q - 48)))
      else Some (a, q)
  end.
Definition parse_dotted (fuel : nat) (m : mem) (q : Z) : option Z :=
  '(a, q) ← parse_number fuel m q 0;
  '(b, q) ← parse_number fuel m (q + 1) 0;
  '(c, q) ← parse_number fuel m (q + 1) 0;
  '(d, q) ← parse_number fuel m (q + 1) 0;
  Some (Z.lor (Z.lor (Z.lor (u32 (Z.shiftl a 24)) (u32 (Z.shiftl b 16))) (u32 (Z.shiftl c 8))) d).

(** [while ( *dot && *dot != '.') dot++;] *)
Fixpoint find_dot (fuel : nat) (m : mem) (dot : Z) : option Z :=
  match fuel with
  | O => None
  | S f => if (m dot =? 0) || (m dot =? 46) then Some dot else find_dot f m (dot + 1)
  end.
(** The labels of a name: a length and the characters, each. *)
Fixpoint encode_labels (fuel : nat) (m : mem) (h : Z) : option (list Z) :=
  match fuel with
  | O => None
  | S f =>
      if m h =? 0 then Some [] else
      dot ← find_dot (S f) m h;
      let llen := u8 (dot - h) in
      rest ← encode_labels f m (if m dot =? 46 then dot + 1 else dot);
      Some (llen :: bytes_at m h llen ++ rest)
  end.

Definition dns_packet (qid : Z) (labels : list Z) : list Z :=
  [Z.shiftr qid 8; u8 qid; 1; 0; 0; 1; 0; 0; 0; 0; 0; 0] ++ labels ++ [0; 0; 1; 0; 1].

Definition mod_query (s : net) (i : Z) (f : dns_query -> dns_query) : net :=
  s <| dns_queries := (dns_queries s).[i <- f (dns_queries s).[i]] |>.

(** What is decided before the query is sent: the result, or the slot, the server
    and the packet. *)
Inductive dns_first := DnsDone (ip : Z) | DnsQuery (slot srv_net : Z) (pkt : list Z).

Definition dns_start (fuel : nat) (s : net) (hostname ms : Z) : option (net * dns_first) :=
  let m := bytes s in
  if (hostname =? NULL) || (num_net_ifs s =? 0) then Some (s, DnsDone 0) else
  digits ← all_digits fuel m hostname;
  if (digits : bool) then ip ← parse_dotted fuel m hostname; Some (s, DnsDone ip) else
  let d := (net_ifs s).[0] in
  if d =? NULL then None else
  let srv_ip := if negb (dns1 (devs s d) =? 0) then dns1 (devs s d) else 0x08080808 in
  match find_from (fun i => dq_in_use (dns_queries s).[i] =? 0) (Z.to_nat DNS_MAX_QUERIES) 0 with
  | None => Some (s, DnsDone 0)
  | Some slot =>
      let qid := dns_next_id s in
      let s := s <| dns_next_id := u16 (qid + 1) |> in
      let s := mod_query s slot (fun _ => mk_query qid 0 ms 0 1) in
      labels ← encode_labels fuel m hostname;
      if 512 <? zlen (dns_packet qid labels) then None     (* past [pkt] *)
      else Some (s, DnsQuery slot (htonl srv_ip) (dns_packet qid labels))
  end.

(** The retry loop: [waits] are the microseconds at each try and what happens during
    the delay after it. *)
Fixpoint dns_send (waits : list (Z * (net -> option net))) (s : net) (slot srv_net : Z) (pkt : list Z) : option net :=
  match waits with
  | [] => Some s
  | (us, meanwhile) :: waits' =>
      '(s, r) ← udp_send_raw s srv_net (u16 (1024 + slot)) DNS_PORT pkt us;
      if r =? 0 then Some s else s ← meanwhile s; dns_send waits' s slot srv_net pkt
  end.

(** The wait for the answer: [rounds] are the milliseconds at each round and what the
    poll of the device and interrupts do in it; [None] as result: not over yet. *)
Fixpoint dns_wait (rounds : list (Z * (net -> option net))) (deadline : Z) (s : net) (slot : Z) : option (net * option Z) :=
  match rounds with
  | [] => Some (s, None)
  | (now, meanwhile) :: rounds' =>
      if now <? deadline then
        s ← meanwhile s;
        if negb (resolved (dns_queries s).[slot] =? 0)
        then Some (mod_query s slot (fun q => q <| dq_in_use := 0 |>), Some (result_ip (dns_queries s).[slot]))
        else dns_wait rounds' deadline s slot
      else Some (mod_query s slot (fun q => q <| dq_in_use := 0 |>), Some 0)
  end.

Definition net_dns_resolve (fuel : nat) (s : net) (hostname ms ms' : Z)
  (waits rounds : list (Z * (net -> option net))) : option (net * option Z) :=
  '(s, first) ← dns_start fuel s hostname ms;
  match first with
  | DnsDone ip => Some (s, Some ip)
  | DnsQuery slot srv_net pkt =>
      s ← dns_send (take 3 waits) s slot srv_net pkt;
      dns_wait rounds (u64 (ms' + 3000)) s slot
  end.
End net.
#[export] Instance eta_net_ {M} : Eta (net (M := M)) := fun s =>
  mk_net (arp_cache s) (ip_frags s) (tcp_sockets s) (next_ephemeral_port s) (net_ifs s) (num_net_ifs s)
    (devs s) (dhcp_state s) (dhcp_xid s) (dns_queries s) (dns_next_id s) (net_mem s) (sent s).

(** The kernel heap is such a memory: 1000 rounds over its blocks, 30 of growth. *)
#[export] Instance heap_net_memory : NetMemory heap := {|
  nm_bytes h := hp_mem h;
  nm_store h m := h <| hp_mem := m |>;
  nm_kmalloc h n := kmalloc 30 1000 h n;
  nm_kfree h p := kfree h p
|}.

(** The variables at boot. *)
Definition net_boot {M} (m : M) : net (M := M) :=
  mk_net [] [] [] 49152 (replicate (Z.to_nat MAX_NET_IFS) NULL) 0 (fun _ => mk_if [] 0 0 0 0 [] 0 0 0 0 0)
    0 0xDEADBEEF [] 0x1234 m [].

Example dhcp_packet_length : zlen (dhcp_packet [1; 2; 3; 4; 5; 6] 7) = 576.
Proof. reflexivity. Qed.

(** * Lemmas: byte order *)

Lemma lor_shiftl_low a b n : 0 <= n -> 0 <= b < 2 ^ n -> Z.lor (Z.shiftl a n) b = a * 2 ^ n + b.
Proof.
  intros Hn Hb. rewrite <- Z.shiftl_mul_pow2 by done.
  pose proof (Z.add_lor_land (Z.shiftl a n) b) as E.
  assert (H0 : Z.land (Z.shiftl a n) b = 0).
  { apply Z.bits_inj'. intros i Hi. rewrite Z.land_spec, Z.bits_0. destruct (Z.lt_ge_cases i n).
    - by rewrite Z.shiftl_spec_low.
    - rewrite (testbit_high b n i) by lia. apply andb_false_r. }
  lia.
Qed.

Lemma land_byte v : Z.land v 0xFF = v mod 256.
Proof. exact (Z.land_ones v 8 ltac:(lia)). Qed.

Lemma land_second_byte v : Z.land v 0xFF00 = v / 256 mod 256 * 256.
Proof.
  change (v / 256) with (v / 2 ^ 8). rewrite <- Z.shiftr_div_pow2, <- land_byte by lia.
  change (Z.land (Z.shiftr v 8) 255 * 256) with (Z.land (Z.shiftr v 8) 255 * 2 ^ 8).
  rewrite <- Z.shiftl_mul_pow2, Z.shiftl_land by lia.
  apply Z.bits_inj'. intros i Hi. rewrite !Z.land_spec. change (Z.shiftl 255 8) with 0xFF00.
  destruct (Z.lt_ge_cases i 8).
  - rewrite (Z.shiftl_spec_low _ _ i) by lia.
    assert (i = 0 \/ i = 1 \/ i = 2 \/ i = 3 \/ i = 4 \/ i = 5 \/ i = 6 \/ i = 7) as Hc by lia.
    replace (Z.testbit 0xFF00 i) with false; [by rewrite andb_false_r|].
    by destruct Hc as [->|[->|[->|[->|[->|[->|[->| ->]]]]]]].
  - rewrite Z.shiftl_spec_high, Z.shiftr_spec by lia. by replace (i - 8 + 8) with i by lia.
Qed.

Lemma htons_eq v : htons v = v mod 256 * 256 + v / 256 mod 256.
Proof.
  unfold htons. rewrite !land_byte, Z.shiftr_div_pow2 by lia. rewrite lor_shiftl_low; [done|lia|lia].
Qed.

Lemma htonl_eq v :
  htonl v = v mod 256 * 2 ^ 24 + v / 256 mod 256 * 2 ^ 16 + v / 2 ^ 16 mod 256 * 2 ^ 8 + v / 2 ^ 24 mod 256.
Proof.
  unfold htonl. rewrite !land_byte, !land_second_byte, !Z.shiftr_div_pow2 by lia.
  rewrite <- !Z.lor_assoc. rewrite (Z.mul_comm _ 256), <- (Z.mul_comm _ 256).
  change (v / 2 ^ 8 / 256 mod 256 * 256) with (v / 2 ^ 8 / 256 mod 256 * 2 ^ 8).
  rewrite <- (Z.shiftl_mul_pow2 (v / 2 ^ 8 / 256 mod 256) 8) by lia.
  rewrite (lor_shiftl_low (v / 2 ^ 8 / 256 mod 256) _ 8) by lia.
  change (v / 256 mod 256 * 256) with (v / 256 mod 256 * 2 ^ 8).
  rewrite <- (Z.shiftl_mul_pow2 (v / 256 mod 256) 8), Z.shiftl_shiftl by lia. change (8 + 8) with 16.
  rewrite (lor_shiftl_low (v / 256 mod 256) _ 16) by lia.
  rewrite (lor_shiftl_low (v mod 256) _ 24) by lia.
  change (2 ^ 8) with 256. rewrite Z.div_div by lia. change (256 * 256) with (2 ^ 16). lia.
Qed.

Lemma htons_range v : 0 <= htons v < 2 ^ 16.
Proof. rewrite htons_eq. lia. Qed.

Lemma htonl_range v : 0 <= htonl v < 2 ^ 32.
Proof. rewrite htonl_eq. lia. Qed.

Lemma ntohs_htons v : 0 <= v < 2 ^ 16 -> ntohs (htons v) = v.
Proof. intros Hv. unfold ntohs. rewrite !htons_eq. lia. Qed.

Lemma ntohl_htonl v : 0 <= v < 2 ^ 32 -> ntohl (htonl v) = v.
Proof.
  intros Hv. unfold ntohl. rewrite !htonl_eq.
  assert (E : v = v mod 256 + 256 * (v / 256 mod 256) + 2 ^ 16 * (v / 2 ^ 16 mod 256) + 2 ^ 24 * (v / 2 ^ 24 mod 256)) by lia.
  revert E. generalize (Z.mod_pos_bound v 256 ltac:(lia)), (Z.mod_pos_bound (v / 256) 256 ltac:(lia)),
    (Z.mod_pos_bound (v / 2 ^ 16) 256 ltac:(lia)), (Z.mod_pos_bound (v / 2 ^ 24) 256 ltac:(lia)).
  generalize (v mod 256), (v / 256 mod 256), (v / 2 ^ 16 mod 256), (v / 2 ^ 24 mod 256). intros a b c d Ha Hb Hc Hd ->.
  set (w := a * 2 ^ 24 + b * 2 ^ 16 + c * 2 ^ 8 + d).
  assert (E0 : w mod 256 = d) by (unfold w; lia). assert (E1 : w / 256 mod 256 = c) by (unfold w; lia).
  assert (E2 : w / 2 ^ 16 mod 256 = b) by (unfold w; lia). assert (E3 : w / 2 ^ 24 mod 256 = a) by (unfold w; lia).
  rewrite E0, E1, E2, E3. lia.
Qed.

(** * Lemmas: the checksum *)

(** The sum of the 16-bit words, as a number. *)
Fixpoint words_sum (n : nat) (m : mem) (p : Z) : Z :=
  match n with
  | O => 0
  | S n' => load_le 2 m p + words_sum n' m (p + 2)
  end.

Lemma word_range2 m p : bytes_ok m -> 0 <= load_le 2 m p <= 65535.
Proof. intros Hm. pose proof (load_le_range 2 m p Hm) as H. change (256 ^ Z.of_nat 2) with 65536 in H. lia. Qed.

Lemma words_sum_range n m p : bytes_ok m -> 0 <= words_sum n m p <= 65535 * Z.of_nat n.
Proof.
  intros Hm. revert p. induction n as [|n IH]; intros p; cbn [words_sum]; [lia|].
  pose proof (word_range2 m p Hm). specialize (IH (p + 2)). lia.
Qed.

Lemma sum_words_eq n m p sum :
  bytes_ok m -> 0 <= sum -> sum + 65535 * Z.of_nat n < 2 ^ 32 -> sum_words n m p sum = sum + words_sum n m p.
Proof.
  intros Hm. revert p sum. induction n as [|n IH]; intros p sum Hs Hb; cbn [sum_words words_sum]; [lia|].
  pose proof (word_range2 m p Hm). rewrite u32_id by lia. rewrite IH by lia. lia.
Qed.

Lemma words_sum_ext n m m' p p' :
  (forall i, 0 <= i < 2 * Z.of_nat n -> m (p + i) = m' (p' + i)) -> words_sum n m p = words_sum n m' p'.
Proof.
  revert p p'. induction n as [|n IH]; intros p p' H; cbn [words_sum]; [done|].
  rewrite (load_le_ext 2 m m' p p') by (intros i Hi; apply H; lia).
  rewrite (IH (p + 2) (p' + 2)); [done|]. intros i Hi. rewrite <- !Z.add_assoc. apply H. lia.
Qed.

(** Replacing the word at an even offset. *)
Lemma words_sum_replace n m p k m' :
  (k < n)%nat -> (forall i, 0 <= i < 2 * Z.of_nat n -> i <> 2 * Z.of_nat k -> i <> 2 * Z.of_nat k + 1 -> m' (p + i) = m (p + i)) ->
  words_sum n m' p = words_sum n m p - load_le 2 m (p + 2 * Z.of_nat k) + load_le 2 m' (p + 2 * Z.of_nat k).
Proof.
  revert p k. induction n as [|n IH]; intros p k Hk He; [lia|]. cbn [words_sum]. destruct k as [|k].
  - change (2 * Z.of_nat 0) with 0 in *. rewrite Z.add_0_r.
    rewrite (words_sum_ext n m' m (p + 2) (p + 2)); [lia|]. intros i Hi. rewrite <- !Z.add_assoc. apply He; lia.
  - rewrite (load_le_ext 2 m' m p p) by (intros i Hi; apply He; lia).
    rewrite (IH (p + 2) k) by (try lia; intros i Hi H1 H2; rewrite <- !Z.add_assoc; apply He; lia).
    replace (p + 2 + 2 * Z.of_nat k) with (p + 2 * Z.of_nat (S k)) by lia. lia.
Qed.

(** The folded sum is below [2 ^ 16], is the sum modulo 65535, and is 0 only for 0. *)
Lemma fold_carries_spec sum :
  0 <= sum < 2 ^ 32 ->
  exists r, fold_carries 4 sum = Some r /\ 0 <= r <= 65535 /\ r mod 65535 = sum mod 65535 /\ (r = 0 <-> sum = 0).
Proof.
  intros Hs.
  assert (Hstep : forall f x, 0 <= x < 2 ^ 32 -> fold_carries (S f) x =
    if x / 65536 =? 0 then Some x else fold_carries f (x mod 65536 + x / 65536)).
  { intros f x Hx. cbn [fold_carries]. rewrite (Z.shiftr_div_pow2 x 16) by lia. change (2 ^ 16) with 65536.
    change 0xFFFF with (Z.ones 16). rewrite Z.land_ones by lia. change (2 ^ 16) with 65536.
    rewrite u32_id by lia. done. }
  rewrite Hstep by done. destruct (Z.eqb_spec (sum / 65536) 0) as [E0|E0]; [exists sum; split; [done|lia]|].
  set (s1 := sum mod 65536 + sum / 65536).
  assert (H1 : 0 < s1 <= 131070 /\ s1 mod 65535 = sum mod 65535) by (unfold s1; lia).
  destruct H1 as [H1 M1]. generalize dependent s1. intros s1 H1 M1.
  rewrite Hstep by lia. destruct (Z.eqb_spec (s1 / 65536) 0) as [E1|E1]; [exists s1; split; [done|lia]|].
  assert (Hq : s1 / 65536 = 1) by lia. rewrite Hstep by lia.
  destruct (Z.eqb_spec ((s1 mod 65536 + s1 / 65536) / 65536) 0) as [E2|E2].
  - eexists. split; [done|]. lia.
  - assert (s1 mod 65536 = 65535) by lia. assert (s1 = 131071) by lia. lia.
Qed.

Lemma u16_lnot r : 0 <= r <= 65535 -> u16 (Z.lnot r) = 65535 - r.
Proof. intros Hr. unfold u16, Z.lnot. lia. Qed.

(** The checksum of an even number of bytes: the complement of the sum of the words
    in one's complement arithmetic. *)
Lemma ip_checksum_spec m p n :
  bytes_ok m -> Z.of_nat n <= 65536 ->
  exists c, ip_checksum m p (2 * Z.of_nat n) = Some c /\ 0 <= c <= 65535 /\
    (65535 - c) mod 65535 = words_sum n m p mod 65535 /\ (c = 65535 <-> words_sum n m p = 0).
Proof.
  intros Hm Hn. unfold ip_checksum. replace (2 * Z.of_nat n / 2) with (Z.of_nat n) by lia. rewrite Nat2Z.id.
  pose proof (words_sum_range n m p Hm) as Hr. rewrite sum_words_eq by (done || lia). rewrite Z.add_0_l.
  destruct (Z.eqb_spec ((2 * Z.of_nat n) mod 2) 1); [lia|].
  destruct (fold_carries_spec (words_sum n m p)) as (r & -> & Hr2 & Hmod & H0); [lia|]. cbn [mbind option_bind].
  rewrite u16_lnot by done. exists (65535 - r). split; [done|]. split; [lia|].
  replace (65535 - (65535 - r)) with r by lia. split; [done|]. lia.
Qed.

Lemma checksum_zero m p n :
  bytes_ok m -> Z.of_nat n <= 65536 ->
  ip_checksum m p (2 * Z.of_nat n) = Some 0 <-> words_sum n m p mod 65535 = 0 /\ words_sum n m p <> 0.
Proof.
  intros Hm Hn. destruct (ip_checksum_spec m p n Hm Hn) as (c & -> & Hc & Hmod & H0).
  pose proof (words_sum_range n m p Hm). split.
  - intros [= ->]. split; [rewrite <- Hmod; done|]. lia.
  - intros [E Hne]. rewrite E in Hmod. f_equal.
    assert (c = 0 \/ c = 65535) as [?|?]; [|done|tauto].
    apply Z.mod_divide in Hmod as [k Hk]; [|lia]. lia.
Qed.

(** A list of bytes as a memory, and a list stored at an address. *)
Definition of_list (l : list Z) : mem := fun a => l.[a].
Definition stored_at (m : mem) (p : Z) (l : list Z) : Prop := forall i, 0 <= i < zlen l -> m (p + i) = l.[i].

Lemma of_list_stored l : stored_at (of_list l) 0 l.
Proof. intros i Hi. done. Qed.

Lemma of_list_bytes l : Forall is_byte l -> bytes_ok (of_list l).
Proof.
  intros Hl a. unfold of_list, aget. rewrite list_lookup_total_alt.
  destruct (l !! Z.to_nat a) as [b|] eqn:E; cbn; [|lia].
  rewrite Forall_forall in Hl. apply Hl. by eapply list_elem_of_lookup_2.
Qed.

Lemma stored_app m p l1 l2 : stored_at m p (l1 ++ l2) <-> stored_at m p l1 /\ stored_at m (p + zlen l1) l2.
Proof.
  pose proof (zlen_nonneg l1). pose proof (zlen_nonneg l2). unfold stored_at. rewrite zlen_app. split.
  - intros H1. split.
    + intros i Hi. rewrite H1 by lia. unfold aget. apply lookup_total_app_l. unfold zlen in *. lia.
    + intros i Hi. rewrite <- Z.add_assoc, H1 by lia. unfold aget, zlen in *.
      rewrite lookup_total_app_r by lia. f_equal. lia.
  - intros [H1 H2] i Hi. unfold aget, zlen in *. destruct (Z.lt_ge_cases i (Z.of_nat (length l1))).
    + rewrite H1 by lia. unfold aget. symmetry. apply lookup_total_app_l. lia.
    + replace (p + i) with (p + Z.of_nat (length l1) + (i - Z.of_nat (length l1))) by lia.
      rewrite H2 by lia. unfold aget. rewrite lookup_total_app_r by lia. f_equal. lia.
Qed.

Lemma load_stored k m p v : stored_at m p (le_bytes k v) -> load_le k m p = v mod 256 ^ Z.of_nat k.
Proof. intros H. apply load_le_bytes. intros i Hi. apply H. unfold zlen. by rewrite length_le_bytes. Qed.

Lemma load1 m a : load_le 1 m a = m a.
Proof. cbn [load_le]. lia. Qed.

(** The fields of a stored packed structure. *)
Lemma stored_fields ws vs m p : length ws = length vs -> stored_at m p (pack ws vs) ->
  unpack ws m p = zip_with (fun w v => v mod 256 ^ Z.of_nat w) ws vs.
Proof. intros E H. apply unpack_pack; [done|]. exact H. Qed.

Lemma list_cons_eq {A} (x y : A) l k : x :: l = y :: k <-> x = y /\ l = k.
Proof. split; [by intros [= -> ->]|by intros [-> ->]]. Qed.

Lemma zlen_le_bytes k v : zlen (le_bytes k v) = Z.of_nat k.
Proof. unfold zlen. by rewrite length_le_bytes. Qed.

Lemma le_bytes_bytes k v : Forall is_byte (le_bytes k v).
Proof. pose proof (pack_bytes [k] [v]) as H. cbn in H. by rewrite app_nil_r in H. Qed.

(** Filling in the checksum makes the sum right. *)
Lemma checksum_filled A B k n :
  Forall is_byte A -> Forall is_byte B -> zlen A = 2 * Z.of_nat k -> zlen A + 2 + zlen B = 2 * Z.of_nat n ->
  Z.of_nat n <= 65536 ->
  exists c, ip_checksum (of_list (A ++ [0; 0] ++ B)) 0 (2 * Z.of_nat n) = Some c /\ 0 <= c <= 65535 /\
    forall m p, bytes_ok m -> stored_at m p (A ++ le_bytes 2 c ++ B) ->
      ip_checksum m p (2 * Z.of_nat n) = Some 0.
Proof.
  intros HA HB Ek En Hn. pose proof (zlen_nonneg B).
  assert (Hz : bytes_ok (of_list (A ++ [0; 0] ++ B))).
  { apply of_list_bytes. apply Forall_app. split; [done|]. apply Forall_app. split; [|done].
    repeat constructor; done. }
  destruct (ip_checksum_spec _ 0 n Hz Hn) as (c & Ec & Hc & Hmod & H0). exists c. split; [done|]. split; [done|].
  intros m p Hm Hs. apply checksum_zero; [done|done|].
  pose proof (proj1 (stored_app m p A _) Hs) as [HsA HsR].
  pose proof (proj1 (stored_app m _ (le_bytes 2 c) B) HsR) as [Hsc HsB]. rewrite zlen_le_bytes in HsB.
  pose proof (proj1 (stored_app _ 0 A _) (of_list_stored (A ++ [0; 0] ++ B))) as [HzA HzR].
  pose proof (proj1 (stored_app _ _ [0; 0] B) HzR) as [Hzc HzB].
  change (Z.of_nat 2) with 2 in *. change (zlen [0; 0]) with 2 in HzB.
  assert (E : words_sum n m p = words_sum n (of_list (A ++ [0; 0] ++ B)) 0 + c).
  { rewrite (words_sum_ext n m (fun a => m (p + a)) p 0) by (intros i Hi; by rewrite Z.add_0_l).
    rewrite (words_sum_replace n (of_list (A ++ [0; 0] ++ B)) 0 k); [|lia|]; cycle 1.
    { intros i Hi H1 H2. rewrite !Z.add_0_l. destruct (Z.lt_ge_cases i (zlen A)).
      - rewrite HsA, <- HzA by lia. by rewrite Z.add_0_l.
      - replace (p + i) with (p + zlen A + 2 + (i - zlen A - 2)) by lia. rewrite HsB by lia.
        replace i with (0 + zlen A + 2 + (i - zlen A - 2)) at 2 by lia. by rewrite HzB by lia. }
    rewrite !Z.add_0_l, <- Ek.
    assert (E1 : load_le 2 (of_list (A ++ [0; 0] ++ B)) (zlen A) = 0).
    { cbn [load_le]. pose proof (Hzc 0) as H1. pose proof (Hzc 1) as H2.
      rewrite Z.add_0_l in *. rewrite Z.add_0_r in H1. change (zlen [0; 0]) with 2 in *.
      rewrite H1, H2 by lia. done. }
    assert (E2 : load_le 2 (fun a => m (p + a)) (zlen A) = c).
    { rewrite (load_le_ext 2 _ m (zlen A) (p + zlen A)) by (intros i Hi; f_equal; lia).
      rewrite (load_stored 2 m _ c Hsc). change (256 ^ Z.of_nat 2) with 65536. lia. }
    rewrite E1, E2. lia. }
  pose proof (words_sum_range n _ 0 Hz) as HS. rewrite E. clear E. revert HS Hmod H0 Hc. clear.
  generalize (words_sum n (of_list (A ++ [0; 0] ++ B)) 0). intros S HS Hmod H0 Hc. split; lia.
Qed.

Lemma ip_hdr_ok len id proto src dst :
  exists h, ip_hdr len id proto src dst = Some h /\ zlen h = IP_HDR /\ Forall is_byte h /\
    (exists c, h = ip_fields len id proto c src dst /\ 0 <= c <= 65535) /\
    forall m p, bytes_ok m -> stored_at m p h -> ip_checksum m p IP_HDR = Some 0.
Proof.
  set (A := pack [1; 1; 2; 2; 2; 1; 1]%nat [0x45; 0; htons (u16 len); id; 0; 64; proto]).
  set (B := pack [4; 4]%nat [src; dst]).
  assert (Ef : forall c, ip_fields len id proto c src dst = A ++ le_bytes 2 c ++ B) by done.
  destruct (checksum_filled A B 5 10) as (c & Ec & Hc & Hm);
    [apply pack_bytes|apply pack_bytes|done|done|lia|].
  change (A ++ [0; 0] ++ B) with (A ++ le_bytes 2 0 ++ B) in Ec. rewrite <- Ef in Ec.
  exists (ip_fields len id proto c src dst). unfold ip_hdr.
  change (ip_checksum _ 0 IP_HDR) with (ip_checksum (of_list (ip_fields len id proto 0 src dst)) 0 (2 * Z.of_nat 10)).
  rewrite Ec. split; [done|]. split; [done|]. split; [apply pack_bytes|]. split; [by exists c|].
  intros m p Hb Hs. rewrite Ef in Hs. by apply (Hm m p).
Qed.

(** Sums of constants in addresses are computed. *)
Ltac offsets :=
  rewrite <- ?Z.add_assoc in *;
  repeat match goal with
  | |- context [Zpos ?a + Zpos ?b] => let v := eval vm_compute in (Zpos a + Zpos b) in change (Zpos a + Zpos b) with v
  | H : context [Zpos ?a + Zpos ?b] |- _ =>
      let v := eval vm_compute in (Zpos a + Zpos b) in change (Zpos a + Zpos b) with v in H
  end.

(** * Lemmas: the ARP cache *)

Section arp.
Context {M : Type} `{NM : NetMemory M}.
Notation net := (net (M := M)).
Implicit Types (s : net).

(** The entries in use are the first ones, for different addresses; the others are
    as [net_init] left them. *)
Definition arp_entries (L : list (Z * list Z * Z)) : list arp_entry :=
  map (fun e => mk_arp e.1.1 e.1.2 e.2 1) L ++ replicate (64 - length L) zero_arp.
Definition arp_ok s : Prop := exists L,
  arp_cache s = arp_entries L /\ (length L <= 64)%nat /\ NoDup (map (fun e => e.1.1) L).

(** The MAC address kept for an IP address, and the number of addresses. *)
Definition arp_get s (ip : Z) : option (list Z) :=
  (fun i => ae_mac (arp_cache s).[i]) <$> find_from (arp_hit s ip) (Z.to_nat ARP_CACHE_SIZE) 0.
Definition arp_used s : Z := zlen (filter (fun e => ae_valid e <> 0) (arp_cache s)).

Definition assoc (ip : Z) (L : list (Z * list Z * Z)) : option (list Z) :=
  (fun e => e.1.2) <$> find (fun e => e.1.1 =? ip) L.

Lemma entries_lookup L i : (length L <= 64)%nat -> 0 <= i < 64 ->
  (arp_entries L).[i] = match L !! Z.to_nat i with Some e => mk_arp e.1.1 e.1.2 e.2 1 | None => zero_arp end.
Proof.
  intros Hl Hi. unfold arp_entries, aget. destruct (L !! Z.to_nat i) as [e|] eqn:E.
  - rewrite lookup_total_app_l by (rewrite length_map; by eapply lookup_lt_Some).
    rewrite list_lookup_total_alt, list_lookup_fmap, E. done.
  - apply lookup_ge_None in E. rewrite lookup_total_app_r by (rewrite length_map; lia).
    rewrite length_map. apply lookup_total_replicate_2. lia.
Qed.

Lemma find_from_list {A} (p : A -> bool) (L : list A) (q : Z -> bool) :
  forall start, (forall j e, L !! j = Some e -> q (start + Z.of_nat j) = p e) ->
  match find_from q (length L) start with
  | Some i => exists j e, i = start + Z.of_nat j /\ L !! j = Some e /\ p e = true /\ find p L = Some e
  | None => find p L = None
  end.
Proof.
  induction L as [|e L IH]; intros start H; cbn [length find_from find]; [done|].
  pose proof (H 0%nat e eq_refl) as H0. rewrite Z.add_0_r in H0. rewrite H0. destruct (p e) eqn:Ep.
  - exists 0%nat, e. rewrite Z.add_0_r. done.
  - specialize (IH (start + 1)). destruct (find_from q (length L) (start + 1)) as [i|].
    + destruct IH as (j & e' & -> & Hj & Hp & Hf).
      { intros j e' Hj. rewrite <- Z.add_assoc. replace (1 + Z.of_nat j) with (Z.of_nat (S j)) by lia. by apply H. }
      exists (S j), e'. split; [lia|done].
    + apply IH. intros j e' Hj. rewrite <- Z.add_assoc. replace (1 + Z.of_nat j) with (Z.of_nat (S j)) by lia. by apply H.
Qed.

Lemma find_from_app (q : Z -> bool) n k start :
  find_from q (n + k) start =
  match find_from q n start with Some i => Some i | None => find_from q k (start + Z.of_nat n) end.
Proof.
  revert start. induction n as [|n IH]; intros start; cbn [find_from Nat.add]; [by rewrite Z.add_0_r|].
  destruct (q start); [done|]. rewrite IH. replace (start + 1 + Z.of_nat n) with (start + Z.of_nat (S n)) by lia. done.
Qed.

Lemma find_from_never (q : Z -> bool) n start :
  (forall i, start <= i < start + Z.of_nat n -> q i = false) -> find_from q n start = None.
Proof. intros H. apply find_from_None. exact H. Qed.

Lemma arp_get_assoc s L ip :
  arp_cache s = arp_entries L -> (length L <= 64)%nat -> arp_get s ip = assoc ip L.
Proof.
  intros E Hl. unfold arp_get, assoc, ARP_CACHE_SIZE. replace (Z.to_nat 64) with (length L + (64 - length L))%nat by lia.
  rewrite find_from_app.
  pose proof (find_from_list (fun e => e.1.1 =? ip) L (arp_hit s ip) 0) as H.
  assert (Hq : forall j e, L !! j = Some e -> arp_hit s ip (0 + Z.of_nat j) = (e.1.1 =? ip)).
  { intros j e Hj. unfold arp_hit. pose proof (lookup_lt_Some _ _ _ Hj).
    rewrite Z.add_0_l, E, entries_lookup, Nat2Z.id, Hj by lia. done. }
  specialize (H Hq). destruct (find_from _ (length L) 0) as [i|].
  - destruct H as (j & e & -> & Hj & _ & ->). cbn [fmap option_fmap option_map]. pose proof (lookup_lt_Some _ _ _ Hj).
    rewrite Z.add_0_l, E, entries_lookup, Nat2Z.id, Hj by lia. done.
  - rewrite H, find_from_never; [done|]. intros i Hi. unfold arp_hit. rewrite E, entries_lookup by lia.
    rewrite (proj2 (lookup_ge_None L (Z.to_nat i))) by lia. done.
Qed.

Lemma arp_used_entries s L : arp_cache s = arp_entries L -> arp_used s = zlen L.
Proof.
  intros E. unfold arp_used. rewrite E. unfold arp_entries. rewrite filter_app, zlen_app.
  assert (E1 : forall L, zlen (filter (fun e => ae_valid e <> 0) (map (fun e : Z * list Z * Z => mk_arp e.1.1 e.1.2 e.2 1) L)) = zlen L).
  { clear. induction L as [|e L IH]; [done|]. cbn [map]. rewrite filter_cons_True by done. rewrite !zlen_cons, IH. done. }
  assert (E2 : forall n, filter (fun e => ae_valid e <> 0) (replicate n zero_arp) = []).
  { clear. induction n as [|n IH]; [done|]. cbn [replicate]. rewrite filter_cons_False; [done|]. by intros []. }
  rewrite E1, E2. change (zlen []) with 0. lia.
Qed.

(** Where a reply goes. *)
Lemma arp_slot_spec n cache ip i slot :
  0 <= i ->
  let r := arp_slot n cache ip i slot in
  match find_from (fun k => ae_ip cache.[k] =? ip) n i with
  | Some k => r = k
  | None => r = if slot <? 0 then default slot (find_from (fun k => ae_valid cache.[k] =? 0) n i) else slot
  end.
Proof.
  revert i slot. induction n as [|n IH]; intros i slot Hi; cbn [arp_slot find_from].
  - by destruct (slot <? 0).
  - destruct (ae_ip cache.[i] =? ip); [done|]. cbn zeta in *.
    specialize (IH (i + 1) (if (ae_valid cache.[i] =? 0) && (slot <? 0) then i else slot) ltac:(lia)).
    destruct (find_from _ n (i + 1)) as [k|]; [exact IH|]. rewrite IH.
    destruct (ae_valid cache.[i] =? 0), (Z.ltb_spec slot 0); cbn [andb default from_option id]; try done.
    all: repeat match goal with |- context [?a <? ?b] => destruct (Z.ltb_spec a b) end; first [done | lia].
Qed.

(** Recording an address: in its own entry, else in the first unused one. *)
Definition arp_put (cache : list arp_entry) (ip : Z) (mac : list Z) (ms : Z) : list arp_entry :=
  let slot := arp_slot (Z.to_nat ARP_CACHE_SIZE) cache ip 0 (-1) in
  if 0 <=? slot then cache.[slot <- mk_arp ip mac ms 1] else cache.

Definition upsert (L : list (Z * list Z * Z)) (ip : Z) (mac : list Z) (ms : Z) : list (Z * list Z * Z) :=
  match list_find (fun e => e.1.1 = ip) L with
  | Some (j, _) => <[j := (ip, mac, ms)]> L
  | None => if decide (length L < 64)%nat then L ++ [(ip, mac, ms)] else L
  end.

Lemma find_known L ip j e k :
  list_find (fun e : Z * list Z * Z => e.1.1 = ip) L = Some (j, e) -> (length L <= 64)%nat ->
  find_from (fun i => ae_ip (arp_entries L).[i] =? ip) 64 0 = Some k -> k = Z.of_nat j.
Proof.
  intros (Hj & He & Hlt)%list_find_Some Hl (Hk & Hp & Hmin)%find_from_Some.
  pose proof (lookup_lt_Some _ _ _ Hj). rewrite entries_lookup in Hp by lia.
  destruct (Z.lt_trichotomy k (Z.of_nat j)) as [?|[?|?]]; [|done|].
  - destruct (lookup_lt_is_Some_2 L (Z.to_nat k) ltac:(lia)) as [e' E']. rewrite E' in Hp. apply Z.eqb_eq in Hp.
    cbn [ae_ip] in Hp. exfalso. exact (Hlt (Z.to_nat k) e' E' ltac:(lia) Hp).
  - exfalso. specialize (Hmin (Z.of_nat j) ltac:(lia)). rewrite entries_lookup, Nat2Z.id, Hj in Hmin by lia.
    apply Z.eqb_neq in Hmin. done.
Qed.

Lemma arp_slot_entries L ip :
  (length L <= 64)%nat ->
  arp_slot 64 (arp_entries L) ip 0 (-1) =
  match list_find (fun e => e.1.1 = ip) L with
  | Some (j, _) => Z.of_nat j
  | None => if decide (length L < 64)%nat then zlen L else -1
  end.
Proof.
  intros Hl. pose proof (arp_slot_spec 64 (arp_entries L) ip 0 (-1) ltac:(lia)) as H. cbn zeta in H.
  generalize dependent (arp_slot 64 (arp_entries L) ip 0 (-1)). intros r H.
  destruct (list_find _ L) as [[j e]|] eqn:Ef.
  - destruct (find_from (fun k => ae_ip (arp_entries L).[k] =? ip) 64 0) as [k|] eqn:Ek; [rewrite H; exact (find_known L ip j e k Ef Hl Ek)|].
    exfalso. apply list_find_Some in Ef as (Hj & He & _). pose proof (lookup_lt_Some _ _ _ Hj).
    rewrite find_from_None in Ek. specialize (Ek (Z.of_nat j) ltac:(lia)).
    rewrite entries_lookup, Nat2Z.id, Hj in Ek by lia. apply Z.eqb_neq in Ek. done.
  - assert (Hin : forall i, 0 <= i < zlen L -> (ae_ip (arp_entries L).[i] =? ip) = false /\ ae_valid (arp_entries L).[i] = 1).
    { intros i Hi. unfold zlen in Hi. rewrite entries_lookup by lia.
      destruct (lookup_lt_is_Some_2 L (Z.to_nat i) ltac:(lia)) as [e Ee]. rewrite Ee. split; [|done].
      apply Z.eqb_neq. intros E. apply list_find_None in Ef. rewrite Forall_forall in Ef.
      apply (Ef e); [by eapply list_elem_of_lookup_2|done]. }
    assert (Hout : forall i, zlen L <= i < 64 -> (arp_entries L).[i] = zero_arp).
    { intros i Hi. unfold zlen in Hi. rewrite entries_lookup by lia. by rewrite (proj2 (lookup_ge_None L (Z.to_nat i))) by lia. }
    destruct (decide (length L < 64)%nat) as [Hlt|Hge].
    + destruct (find_from (fun k => ae_ip (arp_entries L).[k] =? ip) 64 0) as [k|] eqn:Ek.
      * rewrite H. apply find_from_Some in Ek as (Hk & Hp & Hmin).
        destruct (Z.lt_trichotomy k (zlen L)) as [?|[?|?]]; [|done|].
        { destruct (Hin k ltac:(lia)) as [E _]. congruence. }
        pose proof (zlen_nonneg L). specialize (Hmin (zlen L) ltac:(lia)).
        assert (H64 : zlen L < 64) by (unfold zlen; lia).
        rewrite Hout in Hmin by lia. rewrite Hout in Hp by lia. congruence.
      * rewrite H. cbn [Z.ltb Z.compare]. rewrite (find_from_first _ 64 0 (zlen L)); [done|unfold zlen; lia| |].
        { rewrite Hout by (unfold zlen; lia). done. }
        intros k Hk. destruct (Hin k Hk) as [_ ->]. done.
    + assert (El : zlen L = 64) by (unfold zlen; lia).
      destruct (find_from (fun k => ae_ip (arp_entries L).[k] =? ip) 64 0) as [k|] eqn:Ek.
      * apply find_from_Some in Ek as (Hk & Hp & _). destruct (Hin k ltac:(lia)) as [E _]. congruence.
      * rewrite H. cbn [Z.ltb Z.compare]. rewrite find_from_never; [done|]. intros i Hi.
        destruct (Hin i ltac:(lia)) as [_ ->]. done.
Qed.

Lemma aset_app_r {A} (l1 l2 : list A) x y : (l1 ++ y :: l2).[zlen l1 <- x] = l1 ++ x :: l2.
Proof. unfold aset, zlen. rewrite Nat2Z.id. by rewrite insert_app_r_alt, Nat.sub_diag by lia. Qed.

Lemma arp_put_entries L ip mac ms :
  (length L <= 64)%nat -> arp_put (arp_entries L) ip mac ms = arp_entries (upsert L ip mac ms).
Proof.
  intros Hl. unfold arp_put, upsert. change (Z.to_nat ARP_CACHE_SIZE) with 64%nat. rewrite arp_slot_entries by done.
  destruct (list_find _ L) as [[j e]|] eqn:Ef.
  - apply list_find_Some in Ef as (Hj & _ & _). pose proof (lookup_lt_Some _ _ _ Hj).
    destruct (Z.leb_spec 0 (Z.of_nat j)); [|lia]. unfold aset, arp_entries. rewrite Nat2Z.id, length_insert.
    rewrite insert_app_l by (rewrite length_map; lia). f_equal. symmetry.
    exact (list_fmap_insert (fun e => mk_arp e.1.1 e.1.2 e.2 1) L j (ip, mac, ms)).
  - destruct (decide _); [|done]. destruct (Z.leb_spec 0 (zlen L)); [|unfold zlen in *; lia].
    unfold arp_entries. rewrite map_app, length_app. cbn [map length].
    replace (64 - length L)%nat with (S (64 - (length L + 1))) by lia. cbn [replicate].
    rewrite <- app_assoc. replace (zlen L) with (zlen (map (fun e : Z * list Z * Z => mk_arp e.1.1 e.1.2 e.2 1) L))
      by (unfold zlen; by rewrite length_map).
    apply aset_app_r.
Qed.

Lemma upsert_length L ip mac ms :
  (length L <= 64)%nat -> (length (upsert L ip mac ms) <= 64)%nat.
Proof.
  intros Hl. unfold upsert. destruct (list_find _ L) as [[j e]|]; [by rewrite length_insert|].
  destruct (decide _); [rewrite length_app; cbn; lia|done].
Qed.

Lemma upsert_NoDup L ip mac ms :
  NoDup (map (fun e => e.1.1) L) -> NoDup (map (fun e => e.1.1) (upsert L ip mac ms)).
Proof.
  intros Hn. unfold upsert. destruct (list_find _ L) as [[j e]|] eqn:Ef.
  - apply list_find_Some in Ef as (Hj & He & _). replace (map _ (<[j:=(ip, mac, ms)]> L)) with (<[j:=ip]> (map (fun e => e.1.1) L))
      by (symmetry; exact (list_fmap_insert (fun e : Z * list Z * Z => e.1.1) L j (ip, mac, ms))).
    rewrite list_insert_id; [done|]. by rewrite list_lookup_fmap, Hj, <- He.
  - destruct (decide _); [|done]. rewrite map_app. apply NoDup_app. split; [done|]. split; [|apply NoDup_singleton].
    intros x Hx ->%list_elem_of_singleton. apply list_elem_of_fmap in Hx as (e & Ee & Hin).
    apply list_find_None in Ef. rewrite Forall_forall in Ef. by apply (Ef e Hin).
Qed.

Lemma assoc_upsert L ip mac ms ip' :
  assoc ip' (upsert L ip mac ms) =
  if (ip' =? ip) && (bool_decide (assoc ip L <> None) || bool_decide (length L < 64)%nat) then Some mac else assoc ip' L.
Proof.
  unfold upsert, assoc. destruct (list_find _ L) as [[j e]|] eqn:Ef.
  - assert (Hk : bool_decide ((fun e => e.1.2) <$> find (fun e => e.1.1 =? ip) L <> None) = true).
    { apply bool_decide_eq_true. destruct (find _ L) eqn:E; [done|]. apply list_find_Some in Ef as (Hj & He & _).
      apply find_none with (x := e) in E; [apply Z.eqb_neq in E; done|].
      apply list_elem_of_In. by eapply list_elem_of_lookup_2. }
    rewrite Hk, andb_true_r. clear Hk. revert j Ef. induction L as [|x L IH]; intros j Ef; [done|].
    cbn [list_find] in Ef. destruct (decide (x.1.1 = ip)) as [Ex|Ex].
    + injection Ef as <- <-. cbn [list_insert insert find fst]. rewrite Ex.
      destruct (Z.eqb_spec ip ip'), (Z.eqb_spec ip' ip); try lia; done.
    + apply fmap_Some in Ef as ([j' e'] & Ef & [= -> ->]). cbn [prod_map]. cbn [insert list_insert find].
      specialize (IH j' Ef). destruct (Z.eqb_spec x.1.1 ip') as [Exi|Exi].
      * destruct (Z.eqb_spec ip' ip); [lia|]. done.
      * exact IH.
  - assert (Hk : bool_decide ((fun e => e.1.2) <$> find (fun e => e.1.1 =? ip) L <> None) = false).
    { apply bool_decide_eq_false. intros H. apply H. destruct (find _ L) eqn:E; [|done].
      apply find_some in E as [Hin E]. apply Z.eqb_eq in E. apply list_find_None in Ef.
      rewrite Forall_forall in Ef. exfalso. apply (Ef p); [by apply list_elem_of_In|done]. }
    rewrite Hk. cbn [orb]. clear Hk. destruct (decide (length L < 64)%nat) as [Hl|Hl].
    + rewrite bool_decide_true, andb_true_r by done. clear Hl. induction L as [|x L IH].
      * cbn. destruct (Z.eqb_spec ip ip'), (Z.eqb_spec ip' ip); try lia; done.
      * cbn [list_find] in Ef. destruct (decide (x.1.1 = ip)) as [Ex|Ex]; [done|]. cbn [app find].
        destruct (Z.eqb_spec x.1.1 ip'); [destruct (Z.eqb_spec ip' ip); [lia|done]|].
        apply IH. by destruct (list_find _ L) as [[? ?]|].
    + rewrite bool_decide_false, andb_false_r by done. done.
Qed.

Lemma upsert_count L ip mac ms :
  Z.of_nat (length (upsert L ip mac ms)) = Z.of_nat (length L) +
  (if bool_decide (assoc ip L = None) && (bool_decide (assoc ip L <> None) || bool_decide (length L < 64)%nat) then 1 else 0).
Proof.
  unfold upsert, assoc. destruct (list_find _ L) as [[j e]|] eqn:Ef.
  - rewrite length_insert. rewrite bool_decide_false; [cbn [andb]; lia|].
    destruct (find _ L) eqn:E; [done|]. apply list_find_Some in Ef as (Hj & He & _).
    apply find_none with (x := e) in E; [apply Z.eqb_neq in E; done|].
    apply list_elem_of_In. by eapply list_elem_of_lookup_2.
  - assert (E : find (fun e => e.1.1 =? ip) L = None).
    { destruct (find _ L) eqn:E; [|done]. apply find_some in E as [Hin E]. apply Z.eqb_eq in E.
      apply list_find_None in Ef. rewrite Forall_forall in Ef. exfalso. apply (Ef p); [by apply list_elem_of_In|done]. }
    rewrite E. cbn [fmap option_fmap option_map]. rewrite (bool_decide_eq_true_2 (None = None)) by done.
    rewrite (bool_decide_eq_false_2 (None <> None)) by tauto. cbn [andb orb].
    destruct (decide (length L < 64)%nat) as [Hl|Hl].
    + rewrite bool_decide_eq_true_2, length_app by done. cbn [length]. lia.
    + rewrite bool_decide_eq_false_2 by done. lia.
Qed.

(** The fields of an ARP packet that lies at [pkt] with its Ethernet header. *)
Definition arp_is (opcode : Z) (m : mem) (pkt : Z) : bool :=
  (ntohs (load_le 2 m (pkt + 14)) =? 1) && (ntohs (load_le 2 m (pkt + 16)) =? ETH_P_IP) &&
  (ntohs (load_le 2 m (pkt + 20)) =? opcode).
Definition arp_sender_mac (m : mem) (pkt : Z) : list Z := bytes_at m (pkt + 22) ETH_ALEN.
Definition arp_sender_ip (m : mem) (pkt : Z) : Z := load_le 4 m (pkt + 28).
Definition arp_target_ip (m : mem) (pkt : Z) : Z := load_le 4 m (pkt + 38).

Lemma arp_rx_cases s dev pkt ms :
  arp_rx s dev pkt ms =
  if arp_is ARP_REPLY (bytes s) pkt then
    s <| arp_cache := arp_put (arp_cache s) (arp_sender_ip (bytes s) pkt) (arp_sender_mac (bytes s) pkt) ms |>
  else if arp_is ARP_REQUEST (bytes s) pkt && (arp_target_ip (bytes s) pkt =? ip_addr (devs s dev)) then
    transmit s dev (eth_hdr (arp_sender_mac (bytes s) pkt) (if_mac (devs s dev)) (htons ETH_P_ARP) ++
      arp_pkt (htons ARP_REPLY) (if_mac (devs s dev)) (ip_addr (devs s dev)) (arp_sender_mac (bytes s) pkt)
        (arp_sender_ip (bytes s) pkt))
  else s.
Proof.
  unfold arp_rx, arp_is, arp_sender_mac, arp_sender_ip, arp_target_ip, ETH_HDR_LEN, arp_put. rewrite <- !Z.add_assoc.
  change (14 + 2) with 16. change (14 + 6) with 20. change (14 + 8) with 22. change (14 + 14) with 28. change (14 + 24) with 38.
  destruct (ntohs (load_le 2 (bytes s) (pkt + 14)) =? 1), (ntohs (load_le 2 (bytes s) (pkt + 16)) =? ETH_P_IP);
    try done. cbn [negb orb andb].
  generalize (ntohs (load_le 2 (bytes s) (pkt + 20))). intros op. unfold ARP_REQUEST, ARP_REPLY.
  destruct (Z.eqb_spec op 1) as [->|]; [done|]. destruct (op =? 2); [|done].
  generalize (arp_slot (Z.to_nat ARP_CACHE_SIZE) (arp_cache s) (load_le 4 (bytes s) (pkt + 28)) 0 (-1)). intros r.
  destruct (0 <=? r); [done|]. by destruct s.
Qed.

Lemma bytes_at_stored m p l : stored_at m p l -> bytes_at m p (zlen l) = l.
Proof.
  intros H. unfold bytes_at, zlen. apply (list_eq_same_length _ _ (length l)); rewrite ?length_map, ?length_seqZ; [lia|lia|].
  intros i x y Hi Hx Hy. rewrite list_lookup_fmap, lookup_seqZ_lt in Hx by lia. cbn in Hx. injection Hx as <-.
  rewrite H by (unfold zlen; lia). unfold aget. rewrite Nat2Z.id. by apply list_lookup_total_correct.
Qed.

Lemma cons_eq_inv {A} (x y : A) l k : x :: l = y :: k -> x = y /\ l = k.
Proof. by intros [= -> ->]. Qed.

(** An ARP packet of this stack, read back. *)
Lemma arp_pkt_fields m pkt dst src op smac sip tmac tip :
  zlen dst = 6 -> zlen src = 6 -> zlen smac = 6 -> zlen tmac = 6 ->
  0 <= op < 2 ^ 16 -> 0 <= sip < 2 ^ 32 -> 0 <= tip < 2 ^ 32 ->
  stored_at m pkt (eth_hdr dst src (htons ETH_P_ARP) ++ arp_pkt (htons op) smac sip tmac tip) ->
  (forall o, arp_is o m pkt = (op =? o)) /\ arp_sender_mac m pkt = smac /\ arp_sender_ip m pkt = sip /\
  arp_target_ip m pkt = tip.
Proof.
  intros H1 H2 H3 H4 Hop Hs Ht. unfold eth_hdr, arp_pkt. rewrite <- !app_assoc.
  set (head := pack _ _). intros (_ & Hst)%stored_app. apply stored_app in Hst as (_ & Hst).
  apply stored_app in Hst as (_ & Hst). apply stored_app in Hst as (Hhead & Hst).
  change (zlen head) with 8 in Hst.
  apply stored_app in Hst as (Hsm & Hst). apply stored_app in Hst as (Hsip & Hst). apply stored_app in Hst as (_ & Htip).
  rewrite H1, H2, zlen_le_bytes in *. rewrite H3 in *. rewrite H4, ?zlen_le_bytes in *. change (Z.of_nat 2) with 2 in *.
  change (Z.of_nat 4) with 4 in *. offsets.
  unfold arp_is, arp_sender_mac, arp_sender_ip, arp_target_ip, ETH_ALEN.
  assert (Eh : unpack [2; 2; 1; 1; 2]%nat m (pkt + 14) = [htons 1; htons ETH_P_IP; 6; 4; htons op]).
  { rewrite (unpack_pack _ [htons 1; htons ETH_P_IP; 6; 4; htons op] m (pkt + 14)); [|done|exact Hhead].
    cbn [zip_with]. change (256 ^ Z.of_nat 2) with (2 ^ 16). pose proof (htons_range op).
    rewrite (Z.mod_small (htons op)) by lia. done. }
  cbn [unpack] in Eh. change (Z.of_nat 2) with 2 in Eh. change (Z.of_nat 1) with 1 in Eh. offsets.
  apply cons_eq_inv in Eh as [E1 Eh]. apply cons_eq_inv in Eh as [E2 Eh]. apply cons_eq_inv in Eh as [_ Eh].
  apply cons_eq_inv in Eh as [_ Eh]. apply cons_eq_inv in Eh as [E5 _].
  split; [|split; [|split]].
  - intros o. rewrite E1, E2, E5, (ntohs_htons op) by done. reflexivity.
  - rewrite <- H3. by apply bytes_at_stored.
  - rewrite (load_stored 4 m _ sip Hsip). apply Z.mod_small. exact Hs.
  - rewrite (load_stored 4 m _ tip Htip). apply Z.mod_small. exact Ht.
Qed.
End arp.

(** * Lemmas: the map behind the ARP cache *)

Section arp_properties.
Context {M : Type} `{NM : NetMemory M}.
Implicit Types (s : net (M := M)).

(** The address asked for: of the host, or of the gateway when it is not on the network. *)
Definition next_hop s (ip : Z) : Z :=
  let d := devs s (net_ifs s).[0] in
  if Z.land ip (netmask d) =? Z.land (ip_addr d) (netmask d) then ip else gateway d.

Lemma arp_rx_map s dev pkt ms :
  arp_ok s -> let s' := arp_rx s dev pkt ms in
  let ip := arp_sender_ip (bytes s) pkt in
  let room := bool_decide (arp_get s ip <> None) || (arp_used s <? 64) in
  arp_ok s' /\
  if arp_is ARP_REPLY (bytes s) pkt then
    (forall ip', arp_get s' ip' =
      if (ip' =? ip) && room then Some (arp_sender_mac (bytes s) pkt) else arp_get s ip') /\
    arp_used s' = arp_used s + (if bool_decide (arp_get s ip = None) && room then 1 else 0)
  else arp_cache s' = arp_cache s.
Proof.
  intros (L & E & Hl & Hn) s' ip room. unfold s'. rewrite arp_rx_cases.
  destruct (arp_is ARP_REPLY (bytes s) pkt).
  + fold ip. set (mac := arp_sender_mac (bytes s) pkt). set (L' := upsert L ip mac ms).
    assert (E' : arp_cache (s <| arp_cache := arp_put (arp_cache s) ip mac ms |>) = arp_entries L').
    { rec_simpl. rewrite E. by apply arp_put_entries. }
    assert (Hl' : (length L' <= 64)%nat) by (by apply upsert_length).
    split; [exists L'; split; [done|split; [done|by apply upsert_NoDup]]|].
    assert (Hroom : room = bool_decide (assoc ip L <> None) || bool_decide (length L < 64)%nat).
    { unfold room. rewrite (arp_get_assoc s L ip E Hl), (arp_used_entries s L E). f_equal.
      destruct (Z.ltb_spec (zlen L) 64); unfold zlen in *; [by rewrite bool_decide_true by lia|by rewrite bool_decide_false by lia]. }
    split.
    * intros ip'. rewrite (arp_get_assoc _ L' ip' E' Hl'), (arp_get_assoc s L ip' E Hl), Hroom. apply assoc_upsert.
    * rewrite (arp_used_entries _ L' E'), (arp_used_entries s L E), (arp_get_assoc s L ip E Hl), Hroom.
      unfold L', zlen. apply upsert_count.
  + destruct (_ && _); (split; [by exists L|done]).
Qed.

Lemma arp_lookup_map s ip :
  (net_ifs s).[0] <> NULL ->
  arp_lookup s ip = Some match arp_get s (next_hop s ip) with
    | Some mac => (s, Some mac)
    | None => (arp_request s (net_ifs s).[0] (next_hop s ip), None)
    end.
Proof.
  intros Hd. unfold arp_lookup, arp_get, next_hop. destruct (Z.eqb_spec (net_ifs s).[0] NULL); [done|].
  destruct (Z.land ip _ =? _); cbn [negb]; (destruct (find_from _ _ 0); done).
Qed.
End arp_properties.

(** * Properties *)

(** Round trip and error detection: [ip_checksum] always returns (below 128 KiB; its
    carry loop ends after at most three rounds).  Every header the stack
    builds, for TCP, UDP or ICMP, has a checksum that [ip_rx] accepts wherever the header
    lies in memory.  Conversely, when one 16-bit word of an accepted header is changed,
    the header is refused, unless the word changes between 0 and 0xFFFF. *)
Theorem ip_header_checksum :
  (forall m p len, bytes_ok m -> 0 <= len < 2 ^ 17 -> exists c, ip_checksum m p len = Some c /\ 0 <= c <= 65535) /\
  (forall len id proto src dst, exists h, ip_hdr len id proto src dst = Some h /\ zlen h = IP_HDR /\
    forall m p, bytes_ok m -> stored_at m p h -> ip_checksum m p IP_HDR = Some 0) /\
  (forall m m' p n k, bytes_ok m -> bytes_ok m' -> Z.of_nat n <= 65536 -> (k < n)%nat ->
    let w := load_le 2 m (p + 2 * Z.of_nat k) in
    let w' := load_le 2 m' (p + 2 * Z.of_nat k) in
    (forall i, 0 <= i < 2 * Z.of_nat n -> i <> 2 * Z.of_nat k -> i <> 2 * Z.of_nat k + 1 -> m' (p + i) = m (p + i)) ->
    w <> w' -> ~ (w = 0 /\ w' = 65535) -> ~ (w = 65535 /\ w' = 0) ->
    ip_checksum m p (2 * Z.of_nat n) = Some 0 -> ip_checksum m' p (2 * Z.of_nat n) <> Some 0).
Proof.
  split; [|split].
  - intros m p len Hm Hl. unfold ip_checksum.
    pose proof (words_sum_range (Z.to_nat (len / 2)) m p Hm) as Hw. rewrite sum_words_eq by (done || lia).
    set (sum := if _ =? _ then _ else _).
    assert (Hs : 0 <= sum < 2 ^ 32).
    { pose proof (Hm (p + len - 1)). unfold sum. destruct (_ =? 1); [unfold u32|]; lia. }
    destruct (fold_carries_spec sum Hs) as (r & -> & Hr & _). cbn [mbind option_bind]. rewrite u16_lnot by done.
    exists (65535 - r). split; [done|lia].
  - intros len id proto src dst. destruct (ip_hdr_ok len id proto src dst) as (h & E & Hl & _ & _ & Hc).
    by exists h.
  - intros m m' p n k Hm Hm' Hn Hk w w' He Hw H1 H2 Hc%(checksum_zero m p n Hm Hn) Hc'%(checksum_zero m' p n Hm' Hn).
    rewrite (words_sum_replace n m p k m' Hk He) in Hc'. fold w w' in Hc'.
    pose proof (word_range2 m (p + 2 * Z.of_nat k) Hm). pose proof (word_range2 m' (p + 2 * Z.of_nat k) Hm').
    fold w in H. fold w' in H0. clearbody w w'. lia.
Qed.

(** C15 Refinement: the ARP cache is a partial map from IP addresses to MAC addresses
    with room for 64.  [net_init] empties it; a reply records the sender's address,
    whatever was recorded before, and nothing else, unless the map is full and the
    address unknown: then it is ignored (entries never grow old); other packets leave the
    map alone.  [arp_lookup] answers from the map for the next hop, and sends one
    request when there is no answer. *)
Theorem arp_cache_is_a_map {M} `{NM : NetMemory M} (s : net (M := M)) :
  (arp_ok (net_init s) /\ arp_used (net_init s) = 0 /\ forall ip, arp_get (net_init s) ip = None) /\
  (arp_ok s -> forall dev pkt ms (s' := arp_rx s dev pkt ms)
      (ip := arp_sender_ip (bytes s) pkt) (room := bool_decide (arp_get s ip <> None) || (arp_used s <? 64)),
    arp_ok s' /\
    if arp_is ARP_REPLY (bytes s) pkt then
      (forall ip', arp_get s' ip' =
        if (ip' =? ip) && room then Some (arp_sender_mac (bytes s) pkt) else arp_get s ip') /\
      arp_used s' = arp_used s + (if bool_decide (arp_get s ip = None) && room then 1 else 0)
    else arp_cache s' = arp_cache s) /\
  (forall ip, (net_ifs s).[0] <> NULL ->
    arp_lookup s ip = Some match arp_get s (next_hop s ip) with
      | Some mac => (s, Some mac)
      | None => (arp_request s (net_ifs s).[0] (next_hop s ip), None)
      end).
Proof.
  split; [|split].
  - assert (E : arp_cache (net_init s) = arp_entries []) by done.
    split; [exists []; split; [done|split; [cbn; lia|constructor]]|].
    split; [by rewrite (arp_used_entries _ [] E)|]. intros ip. rewrite (arp_get_assoc _ [] ip E) by (cbn; lia). done.
  - intros Hok dev pkt ms. by apply arp_rx_map.
  - intros ip Hd. by apply arp_lookup_map.
Qed.

(** Functional: address resolution between two hosts.  A host that does not know
    [ip] sends one broadcast request; every host but the owner of [ip] ignores it; the
    owner sends one reply, whatever else its state is; and the reply records the
    owner's MAC address with the first host, as long as its cache has room. *)
Theorem arp_resolves {M} `{NM : NetMemory M} (a : net (M := M)) (ip : Z) (da := (net_ifs a).[0])
  (Hda : da <> NULL) (Hno : arp_get a ip = None) (Hhop : next_hop a ip = ip)
  (Hmac : zlen (if_mac (devs a da)) = 6) (Hip : 0 <= ip < 2 ^ 32) (Hown : 0 <= ip_addr (devs a da) < 2 ^ 32) :
  exists f, arp_lookup a ip = Some (transmit a da f, None) /\ zlen f = ETH_HDR_LEN + ARP_HDR_LEN /\
    (forall (b : net (M := M)) db p ms, stored_at (bytes b) p f -> ip_addr (devs b db) <> ip -> arp_rx b db p ms = b) /\
    (forall (b : net (M := M)) db p ms,
      stored_at (bytes b) p f -> ip_addr (devs b db) = ip -> zlen (if_mac (devs b db)) = 6 ->
      exists r, arp_rx b db p ms = transmit b db r /\ zlen r = ETH_HDR_LEN + ARP_HDR_LEN /\
        forall (a' : net (M := M)) da' q ms', arp_ok a' -> arp_used a' < 64 -> stored_at (bytes a') q r ->
          arp_get (arp_rx a' da' q ms') ip = Some (if_mac (devs b db))).
Proof.
  set (f := eth_hdr (replicate 6 0xFF) (if_mac (devs a da)) (htons ETH_P_ARP) ++
    arp_pkt (htons ARP_REQUEST) (if_mac (devs a da)) (ip_addr (devs a da)) (replicate 6 0) ip).
  exists f. split.
  { rewrite (arp_lookup_map a ip Hda), Hhop, Hno. done. }
  assert (Hlen : forall d sm op sip tm tip, zlen d = 6 -> zlen sm = 6 -> zlen tm = 6 ->
    zlen (eth_hdr d sm (htons ETH_P_ARP) ++ arp_pkt op sm sip tm tip) = ETH_HDR_LEN + ARP_HDR_LEN).
  { intros d sm op sip tm tip H1 H2 H3. unfold eth_hdr, arp_pkt. rewrite !zlen_app, !zlen_le_bytes, H1, H2, H3.
    reflexivity. }
  split; [by apply Hlen|].
  assert (Hf : forall (b : net (M := M)) p, stored_at (bytes b) p f ->
    (forall o, arp_is o (bytes b) p = (ARP_REQUEST =? o)) /\ arp_sender_mac (bytes b) p = if_mac (devs a da) /\
    arp_sender_ip (bytes b) p = ip_addr (devs a da) /\ arp_target_ip (bytes b) p = ip).
  { intros b p Hs. by apply (arp_pkt_fields (bytes b) p (replicate 6 0xFF) (if_mac (devs a da)) ARP_REQUEST
      (if_mac (devs a da)) (ip_addr (devs a da)) (replicate 6 0) ip). }
  split.
  - intros b db p ms Hs Hne. destruct (Hf b p Hs) as (H1 & _ & _ & H4). rewrite arp_rx_cases, !H1, H4.
    change (ARP_REQUEST =? ARP_REPLY) with false. destruct (Z.eqb_spec ip (ip_addr (devs b db))); [congruence|].
    by rewrite andb_false_r.
  - intros b db p ms Hs He Hm. destruct (Hf b p Hs) as (H1 & H2 & H3 & H4). rewrite arp_rx_cases, !H1, H2, H3, H4, He.
    change (ARP_REQUEST =? ARP_REPLY) with false. change (ARP_REQUEST =? ARP_REQUEST) with true.
    rewrite Z.eqb_refl. cbn [andb]. eexists. split; [reflexivity|]. split; [by apply Hlen|].
    intros a' da' q ms' Hok Hroom Hr.
    destruct (arp_pkt_fields (bytes a') q _ _ ARP_REPLY _ _ _ _ Hmac Hm Hm Hmac ltac:(done) Hip Hown Hr) as (K1 & K2 & K3 & _).
    destruct (arp_rx_map a' da' q ms' Hok) as [_ H'].
    rewrite K1, K2, K3 in H'. change (ARP_REPLY =? ARP_REPLY) with true in H'. destruct H' as [H' _].
    rewrite H', Z.eqb_refl. destruct (Z.ltb_spec (arp_used a') 64); [|lia]. by rewrite orb_true_r.
Qed.

Lemma kmalloc_bytes rounds fuel h n h' p : kmalloc rounds fuel h n = Some (h', p) -> hp_mem h' = hp_mem h.
Proof.
  revert h n. induction rounds as [|r IH]; intros h n; cbn [kmalloc]; [done|].
  destruct (n =? 0); [by intros [= <- <-]|]. destruct (heap_scan _ _ _ _) as [a|a| |]; try done.
  - intros [= <- <-]. unfold heap_take. by destruct (_ <=? _).
  - by intros [= <- <-].
  - destruct (pmm_alloc_n _ _) as [[p' np]|]; [|done]. destruct (np =? 0); [by intros [= <- <-]|].
    intros E. apply IH in E. by rewrite E.
Qed.

Lemma kfree_bytes h p : hp_mem (kfree h p) = hp_mem h.
Proof. unfold kfree. cbn zeta. by repeat case_match. Qed.

#[export] Instance heap_net_laws : NetMemoryLaws heap :=
  Build_NetMemoryLaws heap heap_net_memory (fun m b => eq_refl)
    (fun m n m' p E => kmalloc_bytes 30 1000 m n m' p E) kfree_bytes.

(** A frame of 34 bytes: an IPv4 header that says 60 bytes, the last fragment, at the
    highest offset, with a right checksum. *)
Definition evil_header : list Z :=
  [0x45; 0; 0; 60; 0; 1; 0x1F; 0xFF; 64; 17; 0x46; 0xAF; 10; 0; 0; 1; 10; 0; 0; 2].
Definition evil_frame : list Z := eth_hdr (replicate 6 1) (replicate 6 2) (htons ETH_P_IP) ++ evil_header.

Example evil_frame_checks :
  zlen evil_frame = 34 /\ ip_checksum (of_list evil_header) 0 20 = Some 0.
Proof. vm_compute. split; reflexivity. Qed.

(** Reading inside a stored list. *)
Lemma load_inside k m p l off :
  stored_at m p l -> 0 <= off -> off + Z.of_nat k <= zlen l -> load_le k m (p + off) = load_le k (of_list l) off.
Proof. intros H H0 Hk. apply load_le_ext. intros i Hi. rewrite <- Z.add_assoc. apply H. lia. Qed.

Lemma sum_words_ext n m m' p p' sum :
  (forall i, 0 <= i < 2 * Z.of_nat n -> m (p + i) = m' (p' + i)) -> sum_words n m p sum = sum_words n m' p' sum.
Proof.
  revert p p' sum. induction n as [|n IH]; intros p p' sum H; cbn [sum_words]; [done|].
  rewrite (load_le_ext 2 m m' p p') by (intros i Hi; apply H; lia). apply IH.
  intros i Hi. rewrite <- !Z.add_assoc. apply H. lia.
Qed.

Lemma ip_checksum_ext m m' p p' n :
  (forall i, 0 <= i < 2 * Z.of_nat n -> m (p + i) = m' (p' + i)) ->
  ip_checksum m p (2 * Z.of_nat n) = ip_checksum m' p' (2 * Z.of_nat n).
Proof.
  intros H. unfold ip_checksum. replace (2 * Z.of_nat n / 2) with (Z.of_nat n) by lia. rewrite Nat2Z.id.
  rewrite (sum_words_ext n m m' p p' 0 H). by destruct (Z.eqb_spec ((2 * Z.of_nat n) mod 2) 1); [lia|].
Qed.

Lemma frag_slot_spec {M} `{NM : NetMemory M} (s : net (M := M)) src dst id protocol i :
  frag_slot s src dst id protocol = Some i ->
  0 <= i < 16 /\ (fr_active (ip_frags s).[i] <> 0 ->
    fr_src (ip_frags s).[i] = src /\ fr_dst (ip_frags s).[i] = dst /\ fr_id (ip_frags s).[i] = id /\
    fr_protocol (ip_frags s).[i] = protocol).
Proof.
  intros (Hi & Hp & _)%find_from_Some. split; [exact Hi|]. intros Ha. cbn beta zeta in Hp.
  destruct (Z.eqb_spec (fr_active (ip_frags s).[i]) 0); [done|]. cbn [orb] in Hp.
  repeat (apply andb_true_iff in Hp as [Hp ?%Z.eqb_eq]). by apply Z.eqb_eq in Hp.
Qed.

(** What happens to IPv4 fragments.  A fragment is copied into the entry
    of its datagram; the copy leaves the 64 KiB buffer exactly when the offset plus the
    length the header claims (the length of the frame is not looked at) exceeds it,
    and one frame of 34 bytes from anyone does that.  Otherwise a fragment changes
    nothing but the table: no datagram is ever put together and delivered, an entry in
    use keeps its key for ever (nothing uses [timestamp]), and once all 16 are in use for
    other datagrams fragments are dropped. *)
Theorem ip_fragments_pile_up {M} `{NM : NetMemory M} (s : net (M := M)) (Hl : zlen (ip_frags s) = MAX_IP_FRAGS) :
  (forall ip ihl total_len frag_off ms,
    let slot := frag_slot s (load_le 4 (bytes s) (ip + 12)) (load_le 4 (bytes s) (ip + 16))
                  (ntohs (load_le 2 (bytes s) (ip + 4))) (bytes s (ip + 9)) in
    let last := u16 (Z.land frag_off 0x1FFF * 8) + u16 (total_len - ihl) in
    (ip_rx_frag s ip ihl total_len frag_off ms = None <-> is_Some slot /\ 65536 < last) /\
    (slot = None -> ip_rx_frag s ip ihl total_len frag_off ms = Some s) /\
    forall s', ip_rx_frag s ip ihl total_len frag_off ms = Some s' ->
      s' = s <| ip_frags := ip_frags s' |> /\
      forall i, 0 <= i -> fr_active (ip_frags s).[i] <> 0 ->
        let f := (ip_frags s).[i] in let f' := (ip_frags s').[i] in
        fr_active f' <> 0 /\ fr_src f' = fr_src f /\ fr_dst f' = fr_dst f /\ fr_id f' = fr_id f /\
        fr_protocol f' = fr_protocol f) /\
  (forall dev pkt ms us, dev <> NULL -> stored_at (bytes s) pkt evil_frame -> fr_active (ip_frags s).[0] = 0 ->
    net_rx_frame s dev pkt (zlen evil_frame) ms us = None).
Proof.
  split.
  - intros ip ihl total_len frag_off ms slot last. unfold ip_rx_frag, copy_into, IP_FRAG_BUF_SIZE. fold slot.
    destruct slot as [i|] eqn:Es; [|split; [split; [done|by intros [[? ?] _]]|split; [done|]]].
    2: { intros s' [= <-]. split; [by destruct s|done]. }
    destruct (frag_slot_spec _ _ _ _ _ _ Es) as [Hi Hkey].
    set (f1 := if fr_active (ip_frags s).[i] =? 0 then _ else _). fold last.
    destruct (Z.ltb_spec 65536 last) as [Hgt|Hle].
    { split; [split; [intros _; split; [by eexists|lia]|done]|]. split; [done|done]. }
    split; [split; [done|intros [_ ?]; lia]|]. split; [done|]. intros s' [= <-].
    split; [by destruct s|]. intros j Hj Ha. rec_simpl. unfold MAX_IP_FRAGS in Hl.
    rewrite aget_aset by lia. destruct (Z.eqb_spec i j) as [<-|]; [|done].
    assert (E1 : f1 = (ip_frags s).[i]) by (unfold f1; destruct (Z.eqb_spec (fr_active (ip_frags s).[i]) 0); done).
    rewrite E1. destruct (Z.land frag_off 0x2000 =? 0); rec_simpl; (split; [exact Ha|done]).
  - intros dev pkt ms us Hd Hs Ha. unfold net_rx_frame.
    destruct (Z.eqb_spec dev NULL); [done|]. change (zlen evil_frame <? ETH_HDR_LEN) with false. cbn [orb].
    set (s1 := count_rx s dev (zlen evil_frame)). change (bytes s1) with (bytes s).
    assert (L : forall k off, 0 <= off -> off + Z.of_nat k <= 34 ->
      load_le k (bytes s) (pkt + off) = load_le k (of_list evil_frame) off).
    { intros k off H0 Hk. by apply load_inside. }
    rewrite (L 2%nat 12) by lia. change (ntohs (load_le 2 (of_list evil_frame) 12)) with ETH_P_IP. cbn [Z.eqb Pos.eqb ETH_P_IP ETH_P_ARP].
    unfold ip_rx. change (bytes s1) with (bytes s). change (zlen evil_frame <? ETH_HDR_LEN + IP_HDR) with false. cbn iota.
    unfold ETH_HDR_LEN. rewrite (Hs 14) by (change (zlen evil_frame) with 34; lia).
    change (evil_frame.[14]) with 0x45. change (u8 (Z.land 0x45 0x0F * 4)) with (2 * Z.of_nat 10).
    rewrite (ip_checksum_ext (bytes s) (of_list evil_frame) (pkt + 14) 14 10)
      by (intros i Hi; rewrite <- Z.add_assoc; apply Hs; change (zlen evil_frame) with 34; lia).
    change (ip_checksum (of_list evil_frame) 14 (2 * Z.of_nat 10)) with (Some 0). cbn [mbind option_bind].
    rewrite <- !Z.add_assoc, !L by lia. change (Z.shiftr 69 4 =? 4) with true. cbn [negb].
    change (ntohs (load_le 2 (of_list evil_frame) (14 + 6))) with 0x1FFF. change (Z.land 0x1FFF 0x3FFF =? 0) with false.
    cbn [negb]. unfold ip_rx_frag, copy_into, IP_FRAG_BUF_SIZE.
    assert (Ef : forall a b c d, frag_slot s1 a b c d = Some 0).
    { intros a b c d. apply find_from_first; [unfold MAX_IP_FRAGS; lia| |intros; lia].
      cbn beta zeta. change (ip_frags s1) with (ip_frags s). rewrite Ha. reflexivity. }
    rewrite Ef. change (ntohs (load_le 2 (of_list evil_frame) (14 + 2))) with 60. done.
Qed.

(** * Concrete runs *)

(** A memory whose [kmalloc] never fails and never reuses a block. *)
#[export] Instance flat_memory : NetMemory (mem * Z) := {|
  nm_bytes m := fst m;
  nm_store m b := (b, snd m);
  nm_kmalloc m n := Some ((fst m, snd m + n), snd m);
  nm_kfree m p := m
|}.
#[export] Instance flat_laws : NetMemoryLaws (mem * Z).
Proof. split; [done| |done]. by intros m n m' p [= <- <-]. Defined.

(** A host with one interface, at address 1, and a packet [l] at address 100. *)
Definition demo_host (ip : Z) (mac l : list Z) : net (M := mem * Z) :=
  let s := net_init (net_boot (fun a => (replicate 100 0 ++ l).[a], 0x10000)) in
  let s := s <| devs := <[1 := mk_if mac ip 0x00FFFFFF 0 0 [] 0 0 0 0 0]> (devs s) |> in
  net_register_if s 1.
Definition demo_mac (n : Z) : list Z := [2; 0; 0; 0; 0; n].

Lemma ip_header_checksum_witness :
  ip_checksum (of_list evil_header) 0 20 = Some 0 /\
  ip_checksum (of_list (<[8%nat := 63]> evil_header)) 0 20 <> Some 0.
Proof.
  assert (E : ip_checksum (of_list evil_header) 0 (2 * Z.of_nat 10) = Some 0) by (vm_compute; reflexivity).
  split; [exact E|]. destruct ip_header_checksum as (_ & _ & H).
  apply (H (of_list evil_header) (of_list (<[8%nat := 63]> evil_header)) 0 10%nat 4%nat).
  - apply of_list_bytes. repeat (constructor; [split; [discriminate|reflexivity]|]). constructor.
  - apply of_list_bytes. cbn. repeat (constructor; [split; [discriminate|reflexivity]|]). constructor.
  - discriminate.
  - lia.
  - intros i Hi H1 H2. unfold of_list, aget. cbn [Z.add] in *. apply list_lookup_total_insert_ne. lia.
  - vm_compute. discriminate.
  - vm_compute. intros [? ?]. discriminate.
  - vm_compute. intros [? ?]. discriminate.
  - exact E.
Defined.

Definition demo_reply : list Z :=
  eth_hdr (demo_mac 1) (demo_mac 2) (htons ETH_P_ARP) ++
  arp_pkt (htons ARP_REPLY) (demo_mac 2) 0x0200000A (demo_mac 1) 0x0100000A.

Lemma arp_cache_is_a_map_witness :
  arp_get (arp_rx (demo_host 0x0100000A (demo_mac 1) demo_reply) 1 100 5) 0x0200000A = Some (demo_mac 2).
Proof.
  destruct (arp_cache_is_a_map (demo_host 0x0100000A (demo_mac 1) demo_reply)) as (_ & H & _).
  assert (Hok : arp_ok (demo_host 0x0100000A (demo_mac 1) demo_reply)).
  { exists []. split; [reflexivity|]. split; [cbn; lia|constructor]. }
  destruct (H Hok 1 100 5) as [_ H'].
  assert (E : arp_is ARP_REPLY (bytes (demo_host 0x0100000A (demo_mac 1) demo_reply)) 100 = true) by (vm_compute; reflexivity).
  rewrite E in H'. destruct H' as [H' _]. rewrite H'. vm_compute. reflexivity.
Defined.

Lemma arp_resolves_witness :
  exists f, arp_lookup (demo_host 0x0100000A (demo_mac 1) []) 0x0200000A =
    Some (transmit (demo_host 0x0100000A (demo_mac 1) []) 1 f, None) /\ zlen f = 42.
Proof.
  destruct (arp_resolves (demo_host 0x0100000A (demo_mac 1) []) 0x0200000A) as (f & E & Hl & _);
    [vm_compute; discriminate|vm_compute; reflexivity|vm_compute; reflexivity|vm_compute; reflexivity|lia|
     vm_compute; split; [discriminate|reflexivity]|].
  exists f. split; [exact E|exact Hl].
Defined.

Lemma ip_fragments_pile_up_witness :
  zlen (ip_frags (demo_host 0x0100000A (demo_mac 1) evil_frame)) = MAX_IP_FRAGS /\
  net_rx_frame (demo_host 0x0100000A (demo_mac 1) evil_frame) 1 100 34 5 5 = None.
Proof.
  assert (Hl : zlen (ip_frags (demo_host 0x0100000A (demo_mac 1) evil_frame)) = MAX_IP_FRAGS) by (vm_compute; reflexivity).
  split; [exact Hl|]. destruct (ip_fragments_pile_up (demo_host 0x0100000A (demo_mac 1) evil_frame) Hl) as [_ H].
  apply (H 1 100 5 5); [discriminate| |reflexivity].
  intros i Hi. change (zlen evil_frame) with 34 in Hi. unfold bytes. cbn [demo_host net_register_if].
  change (nm_bytes _) with (fun a => (replicate 100 0 ++ evil_frame).[a]). unfold aget.
  rewrite lookup_total_app_r by (rewrite length_replicate; lia). f_equal. rewrite length_replicate. lia.
Defined.
