(* ===== verification/Tcp.v ===== *)
(** The TCP sockets of [Net]: what the state machine does on every segment, that the
    bytes an application receives are a prefix of the peer's stream, how the bytes it
    sends are cut into segments, and the congestion window. *)
From S2P Require Import Prelude Pmm CString Net.

(** * Lemmas: sockets *)

Section sockets.
Context {M : Type} `{NM : NetMemory M} `{NL : !NetMemoryLaws M}.
Implicit Types (s : net (M := M)).

Definition socks_ok s : Prop := zlen (tcp_sockets s) = TCP_MAX_SOCKETS.
Definition is_fd (i : Z) : Prop := 0 <= i < TCP_MAX_SOCKETS.

Lemma sock_mod s i f j : socks_ok s -> is_fd i -> 0 <= j ->
  sock (mod_sock s i f) j = if i =? j then f (sock s i) else sock s j.
Proof. intros Hs Hi Hj. unfold sock, mod_sock. rec_simpl. apply aget_aset; [by rewrite Hs|done]. Qed.

Lemma socks_ok_mod s i f : socks_ok s -> socks_ok (mod_sock s i f).
Proof. unfold socks_ok, mod_sock. rec_simpl. by rewrite zlen_aset. Qed.

(** What only one socket, the memory, the interfaces and [sent] may differ in. *)
Definition only_sock (i : Z) s s' : Prop :=
  socks_ok s' /\ (forall j, 0 <= j -> j <> i -> sock s' j = sock s j) /\
  arp_cache s' = arp_cache s /\ ip_frags s' = ip_frags s /\ dns_queries s' = dns_queries s /\
  net_ifs s' = net_ifs s /\ num_net_ifs s' = num_net_ifs s /\
  (forall d, if_mac (devs s' d) = if_mac (devs s d) /\ ip_addr (devs s' d) = ip_addr (devs s d) /\
             netmask (devs s' d) = netmask (devs s d) /\ gateway (devs s' d) = gateway (devs s d)).

Lemma only_refl i s : socks_ok s -> only_sock i s s.
Proof. done. Qed.

Lemma only_trans i s1 s2 s3 : only_sock i s1 s2 -> only_sock i s2 s3 -> only_sock i s1 s3.
Proof.
  intros (A1 & B1 & C1 & D1 & E1 & F1 & G1 & H1) (A2 & B2 & C2 & D2 & E2 & F2 & G2 & H2).
  split; [done|]. split; [intros j Hj Hi; by rewrite B2, B1|]. repeat (split; [congruence|]).
  intros d. destruct (H1 d) as (-> & -> & -> & ->) || destruct (H1 d) as (<- & <- & <- & <-). apply H2.
Qed.

Lemma only_mod i s f : socks_ok s -> is_fd i -> only_sock i s (mod_sock s i f).
Proof.
  intros Hs Hi. split; [by apply socks_ok_mod|]. split; [|done]. intros j Hj Hne.
  rewrite sock_mod by done. destruct (Z.eqb_spec i j); [lia|done].
Qed.

Lemma only_bytes i s m : socks_ok s -> only_sock i s (set_bytes s m).
Proof. done. Qed.

Lemma bytes_mod s i f : bytes (mod_sock s i f) = bytes s.
Proof. done. Qed.

Lemma bytes_set s m : bytes (set_bytes s m) = m.
Proof. unfold bytes, set_bytes. rec_simpl. apply nm_bytes_store. Qed.

(** The frame that carries a segment. *)
Definition segment (sk : tcp_socket) (flags : Z) (data : list Z) (dst_mac mac : list Z) : option (list Z) :=
  ip ← ip_hdr (IP_HDR + TCP_HDR + zlen data) 0 IP_PROTO_TCP (local_ip sk) (remote_ip sk);
  Some (eth_hdr dst_mac mac (htons ETH_P_IP) ++ ip ++ tcp_hdr sk flags ++ data).

Definition segment_size (data : list Z) : Z := u32 (ETH_HDR_LEN + IP_HDR + TCP_HDR + zlen data).

(** Sending a segment: it leaves, and [snd_nxt] moves past its data; or nothing leaves
    but, perhaps, an ARP request, and the socket is as before. *)
Definition is_sent s s' (i flags : Z) (data : list Z) : Prop :=
  exists mac f, arp_get s (next_hop s (remote_ip (sock s i))) = Some mac /\
    segment (sock s i) flags data mac (if_mac (devs s (net_ifs s).[0])) = Some f /\
    sent s' = sent s ++ [((net_ifs s).[0], f)] /\
    sock s' i = (sock s i) <| snd_nxt := u32 (snd_nxt (sock s i) + zlen data) |>.
Definition not_sent s s' (i : Z) (data : list Z) : Prop :=
  sock s' i = sock s i /\
  (sent s' = sent s /\ ((net_ifs s).[0] = NULL \/ exists m', nm_kmalloc (net_mem s) (segment_size data) = Some (m', NULL)) \/
   arp_get s (next_hop s (remote_ip (sock s i))) = None /\
   exists ip, sent s' = sent (arp_request s (net_ifs s).[0] ip)).

Lemma send_segment_cases s i flags data s' :
  socks_ok s -> is_fd i -> tcp_send_segment s i flags data = Some s' ->
  only_sock i s s' /\ bytes s' = bytes s /\ (is_sent s s' i flags data \/ not_sent s s' i data) /\
  (net_mem s' = net_mem s \/ exists m p, nm_kmalloc (net_mem s) (segment_size data) = Some (m, p) /\
    (p <> NULL -> net_mem s' = nm_kfree m p)).
Proof.
  intros Hs Hi. unfold tcp_send_segment. destruct (Z.eqb_spec (net_ifs s).[0] NULL) as [|Hd].
  { intros [= <-]. split; [done|]. split; [done|]. split; [|by left]. right. split; [done|]. left. split; [done|by left]. }
  destruct (nm_kmalloc _ _) as [[m pkt]|] eqn:Em; [|done]. cbn [mbind option_bind].
  pose proof (nm_bytes_kmalloc _ _ _ _ Em) as Hm.
  destruct (Z.eqb_spec pkt NULL) as [->|].
  { intros [= <-]. split; [done|]. split; [done|]. split; [right; split; [done|]; left; split; [done|]; right; by eexists|]. right. by exists m, NULL. }
  set (s1 := s <| net_mem := m |>). rewrite (arp_lookup_map s1) by done.
  change (sock s1 i) with (sock s i). change (next_hop s1) with (next_hop s). change (arp_get s1) with (arp_get s).
  destruct (arp_get s _) as [mac|] eqn:Ea; cbv [mbind option_bind].
  - destruct (ip_hdr_ok (IP_HDR + TCP_HDR + zlen data) 0 IP_PROTO_TCP (local_ip (sock s i)) (remote_ip (sock s i)))
      as (h & Eh & _ & _ & _ & _). rewrite Eh. intros [= <-].
    match goal with |- only_sock _ _ ?s' /\ _ => set (s2 := s') end.
    assert (Es : forall j, 0 <= j -> sock s2 j =
      if i =? j then (sock s i) <| snd_nxt := u32 (snd_nxt (sock s i) + zlen data) |> else sock s j).
    { intros j Hj. unfold sock, s2, mod_sock, mod_dev, transmit. rec_simpl. apply aget_aset; [by rewrite Hs|done]. }
    split; [|split; [|split; [|right; by exists m, pkt]]].
    + split; [unfold socks_ok, s2, mod_sock; rec_simpl; by rewrite zlen_aset|]. split.
      * intros j Hj Hne. rewrite Es by done. destruct (Z.eqb_spec i j); [lia|done].
      * repeat (split; [done|]). intros d. unfold s2, mod_sock, mod_dev, transmit. rec_simpl.
        destruct (decide (d = (net_ifs s).[0])) as [->|Hne]; [rewrite fn_lookup_insert; done|].
        by rewrite fn_lookup_insert_ne.
    + unfold bytes, s2, mod_sock, mod_dev, transmit. rec_simpl. by rewrite nm_bytes_kfree.
    + left. exists mac. eexists. split; [exact Ea|]. split; [unfold segment; by rewrite Eh|].
      split; [done|]. rewrite Es by (unfold is_fd in Hi; lia). by rewrite Z.eqb_refl.
  - intros [= <-]. split; [done|]. split; [unfold bytes, arp_request, transmit; rec_simpl; by rewrite nm_bytes_kfree|].
    split; [|right; by exists m, pkt]. right. split; [done|]. right. split; [done|by eexists].
Qed.
End sockets.

(** * Lemmas: rings in memory *)

(** The [n] bytes of a ring from index [tail] on. *)
Definition ring (m : mem) (buf cap tail n : Z) : list Z := map (fun k => m (buf + (tail + k) mod cap)) (seqZ 0 n).
Definition apart (a n b k : Z) : Prop := a + n <= b \/ b + k <= a.

Lemma ring_write_spec n m buf cap head src :
  0 < cap -> 0 <= head < cap -> Z.of_nat n <= cap -> apart src (Z.of_nat n) buf cap ->
  let r := ring_write n m buf cap head src in
  r.2 = (head + Z.of_nat n) mod cap /\
  (forall x, x < buf \/ buf + cap <= x -> r.1 x = m x) /\
  (forall k, 0 <= k < Z.of_nat n -> r.1 (buf + (head + k) mod cap) = m (src + k)) /\
  (forall k, Z.of_nat n <= k < cap -> r.1 (buf + (head + k) mod cap) = m (buf + (head + k) mod cap)).
Proof.
  intros Hc. revert m head src. induction n as [|n IH]; intros m head src Hh Hn Ha; cbn [ring_write].
  - cbn zeta. cbn [fst snd]. rewrite Z.add_0_r, (Z.mod_small head) by lia. split; [done|]. split; [done|].
    split; [intros k Hk; lia|done].
  - set (m1 := <[buf + head := m src]> m).
    pose proof (Z.mod_pos_bound (head + 1) cap Hc) as Hm.
    destruct (IH m1 ((head + 1) mod cap) (src + 1)) as (H2 & Ho & Hw & Hk); [exact Hm|lia|unfold apart in *; lia|].
    assert (Hpos : forall k, ((head + 1) mod cap + k) mod cap = (head + (1 + k)) mod cap).
    { intros k. rewrite Z.add_mod_idemp_l by lia. f_equal. lia. }
    assert (Hne : forall k, 0 < k < cap -> (head + k) mod cap <> head).
    { intros k Hk' E. pose proof (Z.div_mod (head + k) cap ltac:(lia)) as Hd. rewrite E in Hd.
      revert Hd Hk'. clear. generalize ((head + k) / cap). intros q Hd Hk'. assert (q <= 0 \/ 1 <= q) as [?|?] by lia; nia. }
    cbn zeta in *. rewrite H2, Hpos. split; [f_equal; lia|]. split; [|split].
    + intros x Hx. rewrite Ho by done. unfold m1. apply fn_lookup_insert_ne. lia.
    + intros k Hk'. destruct (decide (k = 0)) as [->|].
      * replace (head + 0) with (head + (1 + (cap - 1)) + (-1) * cap) by lia. rewrite Z.mod_add by lia.
        rewrite <- Hpos, Hk, Hpos by lia. replace (head + (1 + (cap - 1))) with (head + 1 * cap) by lia.
        rewrite Z.mod_add, Z.mod_small by lia. unfold m1. rewrite fn_lookup_insert. f_equal. lia.
      * replace k with (1 + (k - 1)) by lia. rewrite <- Hpos, Hw by lia. unfold m1.
        rewrite fn_lookup_insert_ne by (unfold apart in *; lia). f_equal. lia.
    + intros k Hk'. replace k with (1 + (k - 1)) by lia. rewrite <- Hpos, Hk, Hpos by lia. unfold m1.
      apply fn_lookup_insert_ne. pose proof (Hne (1 + (k - 1)) ltac:(lia)). lia.
Qed.

Lemma ring_read_spec n m buf cap tail dst :
  0 < cap -> 0 <= tail < cap -> apart dst (Z.of_nat n) buf cap ->
  let r := ring_read n m buf cap tail dst in
  r.2 = (tail + Z.of_nat n) mod cap /\
  forall x, r.1 x = if in_range dst (Z.of_nat n) x then m (buf + (tail + (x - dst)) mod cap) else m x.
Proof.
  intros Hc. revert m tail dst. induction n as [|n IH]; intros m tail dst Ht Ha; cbn [ring_read].
  - cbn zeta. cbn [fst snd]. rewrite Z.add_0_r, (Z.mod_small tail) by lia. split; [done|]. intros x.
    destruct (in_range_spec dst (Z.of_nat 0) x); [lia|done].
  - pose proof (Z.mod_pos_bound (tail + 1) cap Hc) as Hm.
    destruct (IH (<[dst := m (buf + tail)]> m) ((tail + 1) mod cap) (dst + 1)) as (H2 & Hx); [exact Hm|unfold apart in *; lia|].
    cbn zeta in *. rewrite H2, Z.add_mod_idemp_l by lia. split; [f_equal; lia|]. intros x. rewrite Hx.
    destruct (in_range_spec (dst + 1) (Z.of_nat n) x), (in_range_spec dst (Z.of_nat (S n)) x); try lia.
    + rewrite Z.add_mod_idemp_l by lia. replace (tail + 1 + (x - (dst + 1))) with (tail + (x - dst)) by lia.
      apply fn_lookup_insert_ne. pose proof (Z.mod_pos_bound (tail + (x - dst)) cap Hc). unfold apart in *. lia.
    + assert (x = dst) as -> by lia. rewrite fn_lookup_insert. f_equal. rewrite Z.sub_diag, Z.add_0_r.
      by rewrite Z.mod_small by lia.
    + apply fn_lookup_insert_ne. lia.
Qed.

Lemma zlen_ring m buf cap tail n : 0 <= n -> zlen (ring m buf cap tail n) = n.
Proof. intros Hn. unfold ring, zlen. rewrite length_map, length_seqZ. lia. Qed.

Lemma ring_ext m m' buf cap tail n :
  (forall k, 0 <= k < n -> m' (buf + (tail + k) mod cap) = m (buf + (tail + k) mod cap)) ->
  ring m' buf cap tail n = ring m buf cap tail n.
Proof. intros H. apply map_ext_in. intros k [Hk1 Hk2]%list_elem_of_In%elem_of_seqZ. apply H. lia. Qed.

Lemma map_seqZ_app {A} (f : Z -> A) a n k :
  0 <= n -> 0 <= k -> map f (seqZ a (n + k)) = map f (seqZ a n) ++ map (fun i => f (n + i)) (seqZ a k).
Proof.
  intros Hn Hk. rewrite seqZ_app, map_app by lia. f_equal.
  apply (list_eq_same_length _ _ (Z.to_nat k)); rewrite ?length_map, ?length_seqZ; [done..|].
  intros i x y Hi Hx Hy. rewrite list_lookup_fmap, lookup_seqZ_lt in Hx, Hy by lia. cbn in *. congruence || (injection Hx as <-; injection Hy as <-; f_equal; lia).
Qed.

Lemma ring_app m buf cap tail n k :
  0 < cap -> 0 <= n -> 0 <= k ->
  ring m buf cap tail (n + k) = ring m buf cap tail n ++ ring m buf cap ((tail + n) mod cap) k.
Proof.
  intros Hc Hn Hk. unfold ring. rewrite map_seqZ_app by done. f_equal. apply map_ext. intros i.
  rewrite Z.add_mod_idemp_l by lia. f_equal. f_equal. f_equal. lia.
Qed.

Lemma bytes_at_offsets m p n : bytes_at m p n = map (fun k => m (p + k)) (seqZ 0 n).
Proof.
  unfold bytes_at. destruct (Z.le_gt_cases 0 n) as [Hn|Hn]; [|by rewrite !seqZ_nil by lia].
  apply (list_eq_same_length _ _ (Z.to_nat n)); rewrite ?length_map, ?length_seqZ; [done..|].
  intros i x y Hi Hx Hy. rewrite list_lookup_fmap, lookup_seqZ_lt in Hx, Hy by lia. cbn in *.
  injection Hx as <-. injection Hy as <-. by rewrite Z.add_0_l.
Qed.

(** Writing behind the last byte of a ring. *)
Lemma ring_write_queue n m buf cap tail count src :
  0 < cap -> 0 <= tail < cap -> 0 <= count -> count + Z.of_nat n <= cap -> apart src (Z.of_nat n) buf cap ->
  let r := ring_write n m buf cap ((tail + count) mod cap) src in
  r.2 = (tail + (count + Z.of_nat n)) mod cap /\
  ring r.1 buf cap tail (count + Z.of_nat n) = ring m buf cap tail count ++ bytes_at m src (Z.of_nat n) /\
  (forall x, x < buf \/ buf + cap <= x -> r.1 x = m x).
Proof.
  intros Hc Ht Hn Hcn Ha. pose proof (Z.mod_pos_bound (tail + count) cap Hc) as Hh.
  destruct (ring_write_spec n m buf cap ((tail + count) mod cap) src Hc Hh ltac:(lia) Ha) as (H2 & Ho & Hw & Hk).
  cbn zeta in *. set (r := ring_write _ _ _ _ _ _) in *. clearbody r. rewrite H2, Z.add_mod_idemp_l by lia.
  split; [f_equal; lia|]. split; [|done]. rewrite ring_app by lia. f_equal.
  - apply ring_ext. intros k Hk'.
    replace ((tail + k) mod cap) with (((tail + count) mod cap + (cap - count + k)) mod cap).
    { apply Hk. lia. }
    rewrite Z.add_mod_idemp_l by lia. replace (tail + count + (cap - count + k)) with (tail + k + 1 * cap) by lia.
    by rewrite Z.mod_add by lia.
  - rewrite bytes_at_offsets. apply map_ext_in. intros k [Hk1 Hk2]%list_elem_of_In%elem_of_seqZ. apply Hw. lia.
Qed.

(** * Lemmas: receiving *)

Section receive.
Context {M : Type} `{NM : NetMemory M} `{NL : !NetMemoryLaws M}.
Implicit Types (s : net (M := M)).

Record rx_ok (sk : tcp_socket) : Prop := {
  rx_tail_range : 0 <= rx_tail sk < TCP_RX_BUF_SIZE;
  rx_count_range : 0 <= rx_count sk <= TCP_RX_BUF_SIZE;
  rx_head_place : rx_head sk = (rx_tail sk + rx_count sk) mod TCP_RX_BUF_SIZE;
  rcv_nxt_range : 0 <= rcv_nxt sk < 2 ^ 32
}.

(** The received bytes that wait for the application. *)
Definition rx_queue s (i : Z) : list Z :=
  ring (bytes s) (rx_buf (sock s i)) TCP_RX_BUF_SIZE (rx_tail (sock s i)) (rx_count (sock s i)).

(** Equal but for [snd_nxt]. *)
Definition same_but_nxt (sk sk' : tcp_socket) : Prop := exists v, sk' = sk <| snd_nxt := v |>.

Lemma send_same s i flags data s' :
  socks_ok s -> is_fd i -> tcp_send_segment s i flags data = Some s' ->
  only_sock i s s' /\ bytes s' = bytes s /\ same_but_nxt (sock s i) (sock s' i).
Proof.
  intros Hs Hi E. destruct (send_segment_cases s i flags data s' Hs Hi E) as (H1 & H2 & [H3|[H3 _]] & _).
  - split; [done|]. split; [done|]. destruct H3 as (mac & f & _ & _ & _ & ->). by eexists.
  - split; [done|]. split; [done|]. rewrite H3. exists (snd_nxt (sock s i)). by destruct (sock s i).
Qed.

(** The fields of a socket that sending a segment keeps. *)
Ltac use_nxt H := let v := fresh "v" in destruct H as [v H]; rewrite H; rec_simpl.

Definition taken s (i seq payload_len : Z) : Z :=
  if (0 <? payload_len) && (seq =? rcv_nxt (sock s i))
  then Z.min payload_len (TCP_RX_BUF_SIZE - rx_count (sock s i)) else 0.

Lemma tcp_rx_data_spec s i data hlen pl seq s' :
  socks_ok s -> is_fd i -> rx_ok (sock s i) -> 0 <= pl < 2 ^ 16 ->
  apart (data + hlen) pl (rx_buf (sock s i)) TCP_RX_BUF_SIZE ->
  tcp_rx_data s i data hlen pl seq = Some s' ->
  let n := taken s i seq pl in
  only_sock i s s' /\
  (exists h v, sock s' i = (sock s i) <| rx_head := h |> <| rx_count := rx_count (sock s i) + n |>
     <| rcv_nxt := u32 (rcv_nxt (sock s i) + n) |> <| snd_nxt := v |>) /\
  rx_ok (sock s' i) /\
  rx_queue s' i = rx_queue s i ++ bytes_at (bytes s) (data + hlen) n /\
  (forall x, x < rx_buf (sock s i) \/ rx_buf (sock s i) + TCP_RX_BUF_SIZE <= x -> bytes s' x = bytes s x).
Proof.
  intros Hs Hi [Ht Hc Hh Hn] Hpl Ha. unfold tcp_rx_data, taken.
  destruct ((0 <? pl) && (seq =? rcv_nxt (sock s i))) eqn:Etake; cycle 1.
  { intros [= <-]. cbn zeta. split; [by apply only_refl|]. split; [|split; [by constructor|split; [|done]]].
    - exists (rx_head (sock s i)), (snd_nxt (sock s i)). rewrite !Z.add_0_r, u32_id by done. by destruct (sock s i).
    - unfold bytes_at. cbn. by rewrite app_nil_r. }
  apply andb_true_iff in Etake as [Hp%Z.ltb_lt _].
  unfold TCP_RX_BUF_SIZE in *. rewrite (u32_id (65536 - _)) by lia.
  set (n := Z.min pl (65536 - rx_count (sock s i))).
  assert (En : (if 65536 - rx_count (sock s i) <? pl then u16 (65536 - rx_count (sock s i)) else pl) = n).
  { unfold n. destruct (Z.ltb_spec (65536 - rx_count (sock s i)) pl); [rewrite u16_id by lia|]; lia. }
  rewrite En. assert (Hn0 : 0 <= n /\ rx_count (sock s i) + n <= 65536 /\ n <= pl) by (unfold n; lia).
  clearbody n. clear En.
  destruct (ring_write_queue (Z.to_nat n) (bytes s) (rx_buf (sock s i)) 65536 (rx_tail (sock s i)) (rx_count (sock s i))
    (data + hlen)) as (H2 & Hq & Ho); [lia|done|lia|lia|unfold apart in *; lia|].
  rewrite <- Hh in H2, Hq, Ho. cbn zeta in *. destruct (ring_write _ _ _ _ _ _) as [m h]. cbn [fst snd] in *.
  rewrite Z2Nat.id in * by lia.
  set (s1 := set_bytes s m). set (s2 := mod_sock s1 i _). intros E.
  assert (Hs1 : socks_ok s1) by done.
  destruct (send_same s2 i TCP_FLAG_ACK [] s' ltac:(by apply socks_ok_mod) Hi E) as (Hof & Hb & v & Hsk).
  assert (E2 : sock s2 i = (sock s i) <| rx_head := h |> <| rx_count := rx_count (sock s i) + n |>
     <| rcv_nxt := u32 (rcv_nxt (sock s i) + n) |>).
  { unfold s2. rewrite sock_mod by (done || (unfold is_fd in Hi; lia)). rewrite Z.eqb_refl.
    change (sock s1 i) with (sock s i). by rewrite (u32_id (rx_count _ + n)) by lia. }
  rewrite E2 in Hsk. split; [|split; [|split; [|split]]].
  - eapply only_trans; [|exact Hof]. apply (only_mod i s1 _ Hs1 Hi).
  - exists h, v. exact Hsk.
  - rewrite Hsk. constructor; rec_simpl; [exact Ht|unfold TCP_RX_BUF_SIZE; lia|exact H2|apply u32_range].
  - unfold rx_queue. rewrite Hb, Hsk. rec_simpl. unfold s2. rewrite bytes_mod. unfold s1. rewrite bytes_set. exact Hq.
  - intros x Hx. rewrite Hb. unfold s2. rewrite bytes_mod. unfold s1. rewrite bytes_set. by apply Ho.
Qed.

Lemma ring_split m buf cap tail n k :
  0 < cap -> 0 <= k <= n -> take (Z.to_nat k) (ring m buf cap tail n) = ring m buf cap tail k /\
    drop (Z.to_nat k) (ring m buf cap tail n) = ring m buf cap ((tail + k) mod cap) (n - k).
Proof.
  intros Hc Hk. replace n with (k + (n - k)) at 1 2 by lia. rewrite ring_app by lia.
  assert (El : length (ring m buf cap tail k) = Z.to_nat k) by (pose proof (zlen_ring m buf cap tail k ltac:(lia)); unfold zlen in *; lia).
  rewrite <- El. by rewrite take_app_length, drop_app_length.
Qed.

Lemma bad_sock_false s fd : bad_sock s fd = false <-> is_fd fd /\ in_use (sock s fd) <> 0.
Proof.
  unfold bad_sock, is_fd.
  destruct (Z.ltb_spec fd 0), (Z.leb_spec TCP_MAX_SOCKETS fd), (Z.eqb_spec (in_use (sock s fd)) 0); cbn [orb];
    (split; [done || lia|]); lia || done.
Qed.

(** A round of [tcp_recv] waits exactly when nothing is there and more may come; otherwise it
    takes the oldest bytes. *)
Lemma tcp_recv_spec s fd buf len s' r :
  socks_ok s -> is_fd fd -> in_use (sock s fd) <> 0 -> rx_ok (sock s fd) -> 0 <= len ->
  apart buf len (rx_buf (sock s fd)) TCP_RX_BUF_SIZE ->
  tcp_recv_wait s fd buf len = Some (s', r) ->
  if (rx_count (sock s fd) =? 0) && bool_decide (sk_state (sock s fd) = TCP_ESTABLISHED) then r = None /\ s' = s
  else let n := Z.min len (rx_count (sock s fd)) in
    r = Some n /\ only_sock fd s s' /\
    (exists v, sock s' fd = (sock s fd) <| rx_tail := (rx_tail (sock s fd) + n) mod TCP_RX_BUF_SIZE |>
      <| rx_count := rx_count (sock s fd) - n |> <| rcv_wnd := TCP_DEFAULT_WINDOW - (rx_count (sock s fd) - n) |>
      <| snd_nxt := v |>) /\ rx_ok (sock s' fd) /\
    bytes_at (bytes s') buf n = take (Z.to_nat n) (rx_queue s fd) /\
    rx_queue s' fd = drop (Z.to_nat n) (rx_queue s fd) /\
    (forall x, x < buf \/ buf + n <= x -> bytes s' x = bytes s x).
Proof.
  intros Hs Hi Hu [Ht Hc Hh Hn] Hl Ha. unfold tcp_recv_wait. cbn zeta.
  destruct ((rx_count (sock s fd) =? 0) && _); [by intros [= <- <-]|].
  unfold TCP_RX_BUF_SIZE, TCP_DEFAULT_WINDOW in *.
  set (n := Z.min len (rx_count (sock s fd))).
  assert (En : (if rx_count (sock s fd) <? len then rx_count (sock s fd) else len) = n).
  { unfold n. destruct (Z.ltb_spec (rx_count (sock s fd)) len); lia. }
  rewrite En. assert (Hn0 : 0 <= n <= rx_count (sock s fd) /\ n <= len) by (unfold n; lia).
  clearbody n. clear En.
  destruct (ring_read_spec (Z.to_nat n) (bytes s) (rx_buf (sock s fd)) 65536 (rx_tail (sock s fd)) buf) as (H2 & Hx);
    [lia|done|unfold apart in *; lia|]. cbn zeta in *. rewrite Z2Nat.id in * by lia.
  destruct (ring_read _ _ _ _ _ _) as [m t]. cbn [fst snd] in *.
  set (s1 := set_bytes s m). set (s2 := mod_sock s1 fd _). intros E.
  assert (E2 : sock s2 fd = (sock s fd) <| rx_tail := t |> <| rx_count := rx_count (sock s fd) - n |>
    <| rcv_wnd := 65536 - (rx_count (sock s fd) - n) |>).
  { unfold s2. rewrite sock_mod by (done || (unfold is_fd in Hi; lia)). rewrite Z.eqb_refl.
    change (sock s1 fd) with (sock s fd). by rewrite !u32_id by lia. }
  assert (Hs2 : socks_ok s2) by (by apply socks_ok_mod).
  assert (Hres : r = Some n /\ only_sock fd s s' /\ bytes s' = m /\ same_but_nxt (sock s2 fd) (sock s' fd)).
  { assert (H12 : only_sock fd s s2) by exact (only_mod fd s1 _ Hs Hi).
    assert (Hb2 : bytes s2 = m) by (unfold s2; rewrite bytes_mod; apply bytes_set).
    destruct (0 <? n).
    - destruct (tcp_send_segment s2 fd TCP_FLAG_ACK []) as [s3|] eqn:E3; [|done]. injection E as <- <-.
      destruct (send_same s2 fd TCP_FLAG_ACK [] s3 Hs2 Hi E3) as (Hof & Hb & Hv).
      split; [done|]. split; [by eapply only_trans|]. split; [congruence|done].
    - injection E as <- <-. split; [done|]. split; [done|]. split; [done|]. exists (snd_nxt (sock s2 fd)). by destruct (sock s2 fd). }
  destruct Hres as (-> & Hof & Hb & v & Hsk). rewrite E2 in Hsk. cbn zeta.
  destruct (ring_split (bytes s) (rx_buf (sock s fd)) 65536 (rx_tail (sock s fd)) (rx_count (sock s fd)) n) as [Htk Hdr]; [lia|lia|].
  split; [done|]. split; [done|]. split; [exists v; rewrite Hsk, H2; reflexivity|]. split; [|split; [|split]].
  - rewrite Hsk. constructor; rec_simpl; unfold TCP_RX_BUF_SIZE.
    + rewrite H2. by apply Z.mod_pos_bound.
    + lia.
    + rewrite Hh, H2, Z.add_mod_idemp_l by lia. f_equal. lia.
    + done.
  - unfold rx_queue. unfold TCP_RX_BUF_SIZE. rewrite Htk, Hb, bytes_at_offsets.
    apply map_ext_in. intros k [Hk1 Hk2]%list_elem_of_In%elem_of_seqZ. rewrite Hx.
    destruct (in_range_spec buf n (buf + k)); [|lia]. by replace (buf + k - buf) with k by lia.
  - unfold rx_queue. unfold TCP_RX_BUF_SIZE. rewrite Hdr, Hb, Hsk. rec_simpl. rewrite H2. apply ring_ext. intros k Hk.
    rewrite Hx. pose proof (Z.mod_pos_bound ((rx_tail (sock s fd) + n) mod 65536 + k) 65536 ltac:(lia)).
    destruct (in_range_spec buf n (rx_buf (sock s fd) + ((rx_tail (sock s fd) + n) mod 65536 + k) mod 65536)); [|done].
    unfold apart in Ha. lia.
  - intros x Hout. rewrite Hb, Hx. destruct (in_range_spec buf n x); [lia|done].
Qed.
End receive.

(** * The received stream *)

Section stream.
Context {M : Type} `{NM : NetMemory M} `{NL : !NetMemoryLaws M}.
Implicit Types (s : net (M := M)).

(** What other activity leaves alone while a connection lives. *)
Definition rx_kept (i : Z) s s' : Prop :=
  socks_ok s' /\ in_use (sock s' i) = in_use (sock s i) /\ rx_buf (sock s' i) = rx_buf (sock s i) /\
  rx_tail (sock s' i) = rx_tail (sock s i) /\ rx_head (sock s' i) = rx_head (sock s i) /\
  rx_count (sock s' i) = rx_count (sock s i) /\ rcv_nxt (sock s' i) = rcv_nxt (sock s i) /\
  forall k, 0 <= k < TCP_RX_BUF_SIZE -> bytes s' (rx_buf (sock s i) + k) = bytes s (rx_buf (sock s i) + k).

(** Runs of a connection whose peer sends the stream [D], from sequence number [r0]
    on: segments of it arrive in any order, any number of times, or never; the
    application reads, at once or after a wait; anything else happens.  The list is what the application got. *)
Inductive rx_run (D : list Z) (r0 i : Z) : net (M := M) -> list Z -> Prop :=
| rx_start s :
    socks_ok s -> in_use (sock s i) <> 0 -> rx_ok (sock s i) -> rx_count (sock s i) = 0 ->
    rcv_nxt (sock s i) = u32 r0 -> rx_run D r0 i s []
| rx_segment s got data hlen pl seq off s' :
    rx_run D r0 i s got -> 0 <= pl < 2 ^ 16 -> 0 <= off -> off + pl <= zlen D -> seq = u32 (r0 + off) ->
    bytes_at (bytes s) (data + hlen) pl = take (Z.to_nat pl) (drop (Z.to_nat off) D) ->
    apart (data + hlen) pl (rx_buf (sock s i)) TCP_RX_BUF_SIZE ->
    tcp_rx_data s i data hlen pl seq = Some s' -> rx_run D r0 i s' got
| rx_read s got buf len n s' :
    rx_run D r0 i s got -> 0 <= len -> apart buf len (rx_buf (sock s i)) TCP_RX_BUF_SIZE ->
    tcp_recv s i buf len = Some (s', Some n) \/ tcp_recv_wait s i buf len = Some (s', Some n) ->
    rx_run D r0 i s' (got ++ bytes_at (bytes s') buf n)
| rx_other s got s' : rx_run D r0 i s got -> rx_kept i s s' -> rx_run D r0 i s' got.

Definition rx_inv (D : list Z) (r0 i : Z) s (got : list Z) : Prop :=
  socks_ok s /\ in_use (sock s i) <> 0 /\ rx_ok (sock s i) /\
  rcv_nxt (sock s i) = u32 (r0 + zlen got + rx_count (sock s i)) /\
  zlen got + rx_count (sock s i) <= zlen D /\
  got ++ rx_queue s i = take (Z.to_nat (zlen got + rx_count (sock s i))) D.

Lemma bytes_at_take m p n k : 0 <= k <= n -> bytes_at m p k = take (Z.to_nat k) (bytes_at m p n).
Proof.
  intros Hk. unfold bytes_at. replace n with (k + (n - k)) by lia. rewrite seqZ_app, map_app by lia.
  rewrite take_app_length'; [done|]. rewrite length_map, length_seqZ. done.
Qed.

Lemma rx_run_inv D r0 i s got :
  is_fd i -> zlen D < 2 ^ 32 -> rx_run D r0 i s got -> rx_inv D r0 i s got.
Proof.
  intros Hi HD. induction 1 as
    [s Hs Hu Hok Hc Hn|s got data hlen pl seq off s' Hrun IH Hpl Hoff Hle -> Hb Ha E|s got buf len n s' Hrun IH Hl Ha E|s got s' Hrun IH Hk].
  - split; [done|]. split; [done|]. split; [done|]. rewrite Hc. change (zlen []) with 0. pose proof (zlen_nonneg D).
    split; [rewrite Hn; f_equal; lia|]. split; [lia|]. unfold rx_queue. rewrite Hc. done.
  - destruct IH as (Hs & Hu & Hok & Hn & Hlen & Hq).
    destruct (tcp_rx_data_spec s i data hlen pl _ s' Hs Hi Hok Hpl Ha E) as (Hof & (h & v & Hsk) & Hok' & Hq' & _).
    pose proof (rx_count_range _ Hok) as Hc. cbn zeta in *. set (n := taken s i (u32 (r0 + off)) pl) in *.
    assert (Hc' : rx_count (sock s' i) = rx_count (sock s i) + n) by (rewrite Hsk; reflexivity).
    assert (Hn' : rcv_nxt (sock s' i) = u32 (rcv_nxt (sock s i) + n)) by (rewrite Hsk; reflexivity).
    assert (Hu' : in_use (sock s' i) = in_use (sock s i)) by (rewrite Hsk; reflexivity).
    pose proof (zlen_nonneg got) as Hg.
    assert (Hcase : n = 0 \/ off = zlen got + rx_count (sock s i) /\ 0 <= n <= pl).
    { unfold n, taken, TCP_RX_BUF_SIZE in *. destruct (Z.ltb_spec 0 pl), (Z.eqb_spec (u32 (r0 + off)) (rcv_nxt (sock s i))) as [Eq|];
        cbn [andb]; [right|by left..]. split; [|lia]. rewrite Hn in Eq. unfold u32 in Eq. lia. }
    split; [apply Hof|]. split; [by rewrite Hu'|]. split; [done|]. rewrite Hc', Hn', Hn.
    split; [unfold u32; rewrite Zplus_mod_idemp_l; f_equal; lia|].
    destruct Hcase as [E0|[Eoff Hnp]].
    + rewrite E0 in *. rewrite Hq', Z.add_0_r. unfold bytes_at. cbn. by rewrite app_nil_r.
    + split; [lia|]. rewrite Hq', app_assoc, Hq, (bytes_at_take _ _ pl n), Hb, take_take by lia.
      rewrite Nat.min_l by lia. rewrite Eoff.
      replace (Z.to_nat (zlen got + (rx_count (sock s i) + n))) with
        (Z.to_nat (zlen got + rx_count (sock s i)) + Z.to_nat n)%nat by lia.
      apply take_take_drop.
  - destruct IH as (Hs & Hu & Hok & Hn & Hlen & Hq).
    assert (E' : tcp_recv_wait s i buf len = Some (s', Some n)).
    { destruct E as [E|E]; [|exact E]. unfold tcp_recv in E. rewrite (proj2 (bad_sock_false s i) (conj Hi Hu)) in E. exact E. }
    pose proof (tcp_recv_spec s i buf len s' (Some n) Hs Hi Hu Hok Hl Ha E') as H.
    destruct (_ && _); [by destruct H|]. cbn zeta in H.
    destruct H as ([= ->] & Hof & (v & Hsk) & Hok' & Hgot & Hq' & _).
    pose proof (rx_count_range _ Hok) as Hc. set (n := Z.min len (rx_count (sock s i))) in *.
    assert (Hc' : rx_count (sock s' i) = rx_count (sock s i) - n) by (rewrite Hsk; reflexivity).
    assert (Hn' : rcv_nxt (sock s' i) = rcv_nxt (sock s i)) by (rewrite Hsk; reflexivity).
    assert (Hu' : in_use (sock s' i) = in_use (sock s i)) by (rewrite Hsk; reflexivity).
    assert (Hz : zlen (bytes_at (bytes s') buf n) = n).
    { unfold bytes_at, zlen. rewrite length_map, length_seqZ. lia. }
    split; [apply Hof|]. split; [by rewrite Hu'|]. split; [done|]. rewrite Hc', Hn', Hn, zlen_app, Hz.
    split; [f_equal; lia|]. split; [lia|]. rewrite Hgot, Hq', <- app_assoc, take_drop, Hq. f_equal. lia.
  - destruct IH as (Hs & Hu & Hok & Hn & Hlen & Hq). destruct Hk as (Hs' & Ku & Kb & Kt & Kh & Kc & Kn & Km).
    destruct Hok as [Ht Hc Hh Hr]. split; [done|]. split; [by rewrite Ku|].
    split; [constructor; congruence|]. rewrite Kc, Kn. split; [done|]. split; [done|]. rewrite <- Hq. f_equal.
    unfold rx_queue. rewrite Kb, Kt, Kc. apply ring_ext. intros k Hk. apply Km. apply Z.mod_pos_bound. done.
Qed.
End stream.

(** * The state machine *)

Section machine.
Context {M : Type} `{NM : NetMemory M} `{NL : !NetMemoryLaws M}.
Implicit Types (s : net (M := M)).

(** The state after a segment with these flags. *)
Definition next_state (st : tcp_state) (flags : Z) : tcp_state :=
  match st with
  | TCP_LISTEN | TCP_SYN_SENT => if has_flag flags TCP_FLAG_SYN then TCP_SYN_RECEIVED else st
  | TCP_SYN_RECEIVED => if has_flag flags TCP_FLAG_ACK then TCP_ESTABLISHED else st
  | TCP_ESTABLISHED => if has_flag flags TCP_FLAG_FIN then TCP_CLOSE_WAIT else st
  | TCP_FIN_WAIT_1 => if has_flag flags TCP_FLAG_FIN then TCP_CLOSING else st
  | TCP_FIN_WAIT_2 => if has_flag flags TCP_FLAG_FIN then TCP_TIME_WAIT else st
  | TCP_CLOSING => if has_flag flags TCP_FLAG_ACK then TCP_TIME_WAIT else st
  | TCP_LAST_ACK => if has_flag flags TCP_FLAG_ACK then TCP_CLOSED else st
  | TCP_CLOSED | TCP_CLOSE_WAIT | TCP_TIME_WAIT => st
  end.

(** [s'] differs from [s] in socket [i] only, which is in this state, used or not. *)
Definition moved (i : Z) s s' (st : tcp_state) (u : Z) : Prop :=
  only_sock i s s' /\ sk_state (sock s' i) = st /\ in_use (sock s' i) = u.

Lemma moved_refl i s : socks_ok s -> moved i s s (sk_state (sock s i)) (in_use (sock s i)).
Proof. done. Qed.

Lemma then_mod i s0 s f st u st' u' :
  is_fd i -> moved i s0 s st u ->
  (forall sk, sk_state sk = st -> in_use sk = u -> sk_state (f sk) = st' /\ in_use (f sk) = u') ->
  moved i s0 (mod_sock s i f) st' u'.
Proof.
  intros Hi (Ho & Es & Eu) Hf. split; [eapply only_trans; [exact Ho|]; apply only_mod; [apply Ho|done]|].
  rewrite sock_mod by (done || (unfold is_fd in Hi; lia) || apply Ho). rewrite Z.eqb_refl. by apply Hf.
Qed.

Lemma then_keep i s0 s f st u :
  is_fd i -> (forall sk, sk_state (f sk) = sk_state sk /\ in_use (f sk) = in_use sk) -> moved i s0 s st u ->
  moved i s0 (mod_sock s i f) st u.
Proof. intros Hi Hf Hm. apply (then_mod i s0 s f st u st u); [done..|]. intros sk <- <-. apply Hf. Qed.

Lemma then_set i s0 s f st st' u :
  is_fd i -> (forall sk, sk_state (f sk) = st' /\ in_use (f sk) = in_use sk) -> moved i s0 s st u ->
  moved i s0 (mod_sock s i f) st' u.
Proof. intros Hi Hf Hm. apply (then_mod i s0 s f st u st' u); [done..|]. intros sk _ <-. apply Hf. Qed.

Lemma then_send i s0 s flags data s' st u :
  is_fd i -> moved i s0 s st u -> tcp_send_segment s i flags data = Some s' -> moved i s0 s' st u.
Proof.
  intros Hi (Ho & Es & Eu) E. destruct (send_same s i flags data s' (proj1 Ho) Hi E) as (H & _ & v & Hv).
  split; [by eapply only_trans|]. by rewrite Hv.
Qed.

Lemma then_bytes i s0 s m st u : moved i s0 s st u -> moved i s0 (set_bytes s m) st u.
Proof. done. Qed.

Lemma process_ack_core sk ack :
  sk_state (tcp_process_ack sk ack) = sk_state sk /\ in_use (tcp_process_ack sk ack) = in_use sk.
Proof. unfold tcp_process_ack. cbn zeta. by repeat case_match. Qed.

Lemma then_data i s0 s data hlen pl seq s' st u :
  is_fd i -> moved i s0 s st u -> tcp_rx_data s i data hlen pl seq = Some s' -> moved i s0 s' st u.
Proof.
  intros Hi Hm. unfold tcp_rx_data. destruct ((0 <? pl) && (seq =? rcv_nxt (sock s i))); [|by intros [= <-]].
  destruct (ring_write _ _ _ _ _ _) as [m h]. intros E. eapply then_send; [done| |exact E].
  by apply (then_mod i s0 (set_bytes s m) _ st u); [|apply then_bytes|].
Qed.

Definition after_fin (st : tcp_state) : tcp_state :=
  match st with
  | TCP_ESTABLISHED => TCP_CLOSE_WAIT | TCP_FIN_WAIT_1 => TCP_CLOSING | TCP_FIN_WAIT_2 => TCP_TIME_WAIT
  | st => st
  end.

Lemma then_fin i s0 s s' st u :
  is_fd i -> moved i s0 s st u -> tcp_rx_fin s i = Some s' -> moved i s0 s' (after_fin st) u.
Proof.
  intros Hi Hm. unfold tcp_rx_fin. set (s1 := mod_sock s i _).
  assert (H1 : moved i s0 s1 st u) by (by apply (then_mod i s0 s _ st u)).
  destruct (tcp_send_segment s1 i TCP_FLAG_ACK []) as [s2|] eqn:E; [|done]. intros [= <-].
  apply (then_mod i s0 s2 _ st u); [done|by eapply then_send|]. intros sk Es Eu. cbn beta. rec_simpl.
  rewrite Es. by split; [destruct st|].
Qed.

Lemma then_data_fin i s0 s data hlen pl seq (fin : bool) s' st u :
  is_fd i -> moved i s0 s st u ->
  (s1 ← tcp_rx_data s i data hlen pl seq; if fin then tcp_rx_fin s1 i else Some s1) = Some s' ->
  moved i s0 s' (if fin then after_fin st else st) u.
Proof.
  intros Hi Hm. destruct (tcp_rx_data s i data hlen pl seq) as [s1|] eqn:E; [|done]. cbv [mbind option_bind].
  pose proof (then_data i s0 s data hlen pl seq s1 st u Hi Hm E). destruct fin; [|by intros [= <-]].
  by apply then_fin.
Qed.

Ltac core := intros ?; cbn beta; rec_simpl; rewrite ?(proj1 (process_ack_core _ _)), ?(proj2 (process_ack_core _ _)); done.

(** What a segment does to the socket it is for. *)
Lemma tcp_input_moved s i src src_port data len hlen seq ack flags window us s' :
  socks_ok s -> is_fd i ->
  tcp_input s i src src_port data len hlen seq ack flags window us = Some s' ->
  moved i s s' (next_state (sk_state (sock s i)) flags)
    (if bool_decide (sk_state (sock s i) = TCP_LAST_ACK) && has_flag flags TCP_FLAG_ACK then 0 else in_use (sock s i)).
Proof.
  intros Hs Hi. pose proof (moved_refl i s Hs) as H0. unfold tcp_input, next_state.
  destruct (sk_state (sock s i)) eqn:Est.
  all: rewrite ?bool_decide_eq_false_2 by done; rewrite ?bool_decide_eq_true_2 by done; cbn [andb].
  - by intros [= <-].
  - destruct (has_flag flags TCP_FLAG_SYN); [|by intros [= <-]].
    destruct (tcp_send_segment _ _ _ _) as [s1|] eqn:E; [|done]. intros [= <-].
    eapply then_set; [done|core|]. eapply then_send; [done| |exact E]. do 2 (apply then_keep; [done|core|]). exact H0.
  - destruct (has_flag flags TCP_FLAG_SYN); [|by intros [= <-]].
    destruct (tcp_send_segment _ _ _ _) as [s1|] eqn:E; [|done]. intros [= <-].
    eapply then_set; [done|core|]. eapply then_send; [done| |exact E]. apply then_keep; [done|core|].
    destruct (has_flag flags TCP_FLAG_ACK); do 2 (try (apply then_keep; [done|core|])); exact H0.
  - destruct (has_flag flags TCP_FLAG_ACK); intros [= <-]; [|done]. by eapply then_set; [|core|].
  - intros E. eapply (then_data_fin i s) in E; [exact E|done|].
    destruct (has_flag flags TCP_FLAG_ACK); [apply then_keep; [done|core|]|]; exact H0.
  - intros E. eapply (then_data_fin i s) in E; [exact E|done|].
    destruct (has_flag flags TCP_FLAG_ACK); [apply then_keep; [done|core|]|]; exact H0.
  - intros E. eapply (then_data_fin i s) in E; [exact E|done|].
    destruct (has_flag flags TCP_FLAG_ACK); [apply then_keep; [done|core|]|]; exact H0.
  - by intros [= <-].
  - destruct (has_flag flags TCP_FLAG_ACK); intros [= <-]; [|done]. by eapply then_set; [|core|].
  - destruct (has_flag flags TCP_FLAG_ACK); intros [= <-]; [|done]. by eapply then_mod.
  - by intros [= <-].
Qed.
End machine.

(** * Soundness of the sockets *)

Lemma ring_write_head n m buf cap head src :
  0 < cap -> 0 <= head < cap -> (ring_write n m buf cap head src).2 = (head + Z.of_nat n) mod cap.
Proof.
  intros Hc. revert m head src. induction n as [|n IH]; intros m head src Hh; cbn [ring_write].
  - cbn [snd]. by rewrite Z.add_0_r, Z.mod_small.
  - rewrite IH by (by apply Z.mod_pos_bound). rewrite Z.add_mod_idemp_l by lia. f_equal. lia.
Qed.

Lemma ring_read_tail n m buf cap tail dst :
  0 < cap -> 0 <= tail < cap -> (ring_read n m buf cap tail dst).2 = (tail + Z.of_nat n) mod cap.
Proof.
  intros Hc. revert m tail dst. induction n as [|n IH]; intros m tail dst Hh; cbn [ring_read].
  - cbn [snd]. by rewrite Z.add_0_r, Z.mod_small.
  - rewrite IH by (by apply Z.mod_pos_bound). rewrite Z.add_mod_idemp_l by lia. f_equal. lia.
Qed.

Record tx_ok (sk : tcp_socket) : Prop := {
  tx_tail_range : 0 <= tx_tail sk < TCP_TX_BUF_SIZE;
  tx_count_range : 0 <= tx_count sk <= TCP_TX_BUF_SIZE;
  tx_head_place : tx_head sk = (tx_tail sk + tx_count sk) mod TCP_TX_BUF_SIZE
}.

(** A socket in use: its rings are well formed, its segment size is the one [tcp_send]
    has a buffer for, and its window is at least that. *)
Record good (sk : tcp_socket) : Prop := {
  good_rx : rx_ok sk;
  good_tx : tx_ok sk;
  good_mss : mss sk = TCP_MSS;
  good_cwnd : TCP_MSS <= cwnd (cc sk) < 2 ^ 32;
  good_ssthresh : 0 <= ssthresh (cc sk) < 2 ^ 31;
  good_state : sk_state sk <> TCP_FIN_WAIT_2
}.
Definition sound (sk : tcp_socket) : Prop := in_use sk <> 0 -> good sk.

(** The fields [good] speaks of, but for the state. *)
Definition vitals (sk : tcp_socket) :=
  (rx_tail sk, rx_count sk, rx_head sk, tx_tail sk, tx_count sk, tx_head sk, mss sk, cwnd (cc sk), ssthresh (cc sk)).

Lemma good_vitals sk sk' :
  good sk -> vitals sk' = vitals sk -> 0 <= rcv_nxt sk' < 2 ^ 32 -> sk_state sk' <> TCP_FIN_WAIT_2 -> good sk'.
Proof.
  intros [[Ht Hc Hh Hn] [Kt Kc Kh] Hm Hw Hss _] E Hn' Hst. unfold vitals in E. injection E as E1 E2 E3 E4 E5 E6 E7 E8 E9.
  constructor; [constructor; congruence|constructor; congruence|congruence|congruence|congruence|done].
Qed.

Lemma sound_vitals sk sk' :
  sound sk -> in_use sk' = in_use sk -> vitals sk' = vitals sk -> rcv_nxt sk' = rcv_nxt sk ->
  (sk_state sk' = sk_state sk \/ sk_state sk' <> TCP_FIN_WAIT_2) -> sound sk'.
Proof.
  intros H Eu Ev En Est Hu. assert (Hu' : in_use sk <> 0) by congruence. specialize (H Hu').
  eapply good_vitals; [exact H|exact Ev|rewrite En; apply H|].
  destruct Est as [->|?]; [apply H|done].
Qed.

Definition window_ok (c : tcp_cc) : Prop := TCP_MSS <= cwnd c < 2 ^ 32 /\ 0 <= ssthresh c < 2 ^ 31.

(** An acknowledgement moves [snd_una] and the congestion state, and keeps the window. *)
Lemma process_ack_shape sk ack :
  window_ok (cc sk) ->
  exists a c, tcp_process_ack sk ack = sk <| snd_una := a |> <| cc := c |> /\ window_ok c.
Proof.
  unfold window_ok, TCP_MSS. intros [Hw Hss]. unfold tcp_process_ack, TCP_MSS.
  destruct (snd_una sk <? ack); [|destruct (ack =? snd_una sk)].
  - eexists _, _. split; [reflexivity|]. rec_simpl.
    destruct (Z.ltb_spec (cwnd (cc sk)) (ssthresh (cc sk))); rec_simpl.
    + rewrite u32_id; lia.
    + pose proof (u32_range (cwnd (cc sk) + 1460 * 1460 / cwnd (cc sk))).
      destruct (Z.ltb_spec (u32 (cwnd (cc sk) + 1460 * 1460 / cwnd (cc sk))) 1460); lia.
  - eexists (snd_una sk), _. split; [destruct sk; reflexivity|]. rec_simpl.
    destruct (u32 (dup_acks (cc sk) + 1) =? 3); rec_simpl; [|done].
    destruct (Z.ltb_spec (cwnd (cc sk) / 2) (2 * 1460)); (split; [rewrite u32_id; lia|lia]).
  - exists (snd_una sk), (cc sk). split; [by destruct sk|done].
Qed.

Lemma process_ack_good sk ack : good sk -> good (tcp_process_ack sk ack).
Proof.
  intros [[? ? ? ?] [? ? ?] ? Hw Hss ?]. destruct (process_ack_shape sk ack (conj Hw Hss)) as (a & c & -> & Hw' & Hss').
  by constructor.
Qed.

Section sound.
Context {M : Type} `{NM : NetMemory M} `{NL : !NetMemoryLaws M}.
Implicit Types (s : net (M := M)).

Definition all_sound s : Prop := socks_ok s /\ forall j, 0 <= j -> sound (sock s j).

Lemma all_mod s i f : all_sound s -> is_fd i -> sound (f (sock s i)) -> all_sound (mod_sock s i f).
Proof.
  intros [Hs Hj] Hi Hf. split; [by apply socks_ok_mod|]. intros j H0. rewrite sock_mod by done.
  destruct (i =? j); [done|by apply Hj].
Qed.

Lemma all_send s i flags data s' :
  all_sound s -> is_fd i -> tcp_send_segment s i flags data = Some s' -> all_sound s'.
Proof.
  intros [Hs Hj] Hi E. destruct (send_same s i flags data s' Hs Hi E) as (Ho & _ & v & Hv).
  split; [apply Ho|]. intros j H0. destruct (decide (j = i)) as [->|Hne]; [|rewrite (proj1 (proj2 Ho)) by done; by apply Hj].
  rewrite Hv. apply (sound_vitals (sock s i)); [by apply Hj|done|done|done|by left].
Qed.

Lemma all_socks s s' : all_sound s -> tcp_sockets s' = tcp_sockets s -> all_sound s'.
Proof. unfold all_sound, socks_ok, sock. by intros H ->. Qed.

Lemma all_at s i : all_sound s -> is_fd i -> sound (sock s i).
Proof. intros [_ H] Hi. apply H. unfold is_fd in Hi. lia. Qed.

(** A change that does not touch what [good] speaks of. *)
Lemma all_vitals s i f :
  all_sound s -> is_fd i -> 
  (forall sk, in_use (f sk) = in_use sk /\ vitals (f sk) = vitals sk /\ rcv_nxt (f sk) = rcv_nxt sk /\
    (sk_state (f sk) = sk_state sk \/ sk_state (f sk) <> TCP_FIN_WAIT_2)) ->
  all_sound (mod_sock s i f).
Proof.
  intros H Hi Hf. apply all_mod; [done|done|]. destruct (Hf (sock s i)) as (? & ? & ? & ?).
  by apply (sound_vitals (sock s i)); [apply all_at| | | |].
Qed.

Lemma all_ack s i ack f :
  all_sound s -> is_fd i ->
  (forall sk, good sk -> good (f sk)) -> (forall sk, in_use (f sk) = in_use sk) ->
  all_sound (mod_sock s i (fun sk => f (tcp_process_ack sk ack))).
Proof.
  intros H Hi Hf Hu. apply all_mod; [done|done|]. intros Hn. apply Hf, process_ack_good, (all_at s i H Hi).
  by rewrite Hu, (proj2 (process_ack_core _ _)) in Hn.
Qed.

Lemma all_data s i data hlen pl seq s' :
  all_sound s -> is_fd i -> in_use (sock s i) <> 0 -> 0 <= pl < 2 ^ 16 ->
  tcp_rx_data s i data hlen pl seq = Some s' -> all_sound s'.
Proof.
  intros H Hi Hu Hpl. unfold tcp_rx_data. destruct ((0 <? pl) && (seq =? rcv_nxt (sock s i))); [|by intros [= <-]].
  destruct (all_at s i H Hi Hu) as [[Ht Hc Hh Hn] [? ? ?] Hm Hw Hss Hst]. unfold TCP_RX_BUF_SIZE in *.
  set (n := if u32 (65536 - rx_count (sock s i)) <? pl then _ else pl).
  assert (Hn0 : 0 <= n /\ rx_count (sock s i) + n <= 65536).
  { unfold n. rewrite u32_id by lia. destruct (Z.ltb_spec (65536 - rx_count (sock s i)) pl); [|lia]. unfold u16. lia. }
  clearbody n.
  pose proof (ring_write_head (Z.to_nat n) (bytes s) (rx_buf (sock s i)) 65536 (rx_head (sock s i)) (data + hlen)) as Hr.
  destruct (ring_write _ _ _ _ _ _) as [m h]. cbn [snd] in Hr. intros E. eapply all_send; [|exact Hi|exact E].
  apply all_mod; [done|done|]. intros _. change (sock (set_bytes s m) i) with (sock s i).
  rewrite Hr, Hh, Z.add_mod_idemp_l, Z2Nat.id by (lia || (rewrite Hh; apply Z.mod_pos_bound; lia)).
  constructor; rec_simpl; try done. constructor; rec_simpl; unfold TCP_RX_BUF_SIZE.
  - done.
  - rewrite u32_id; lia.
  - rewrite u32_id by lia. f_equal. lia.
  - apply u32_range.
Qed.

Lemma all_fin s i s' : all_sound s -> is_fd i -> tcp_rx_fin s i = Some s' -> all_sound s'.
Proof.
  intros H Hi. unfold tcp_rx_fin. set (s1 := mod_sock s i _).
  assert (H1 : all_sound s1).
  { apply all_mod; [done|done|]. intros Hn. pose proof (all_at s i H Hi Hn) as Hg.
    apply (good_vitals (sock s i)); [done|done|apply u32_range|apply Hg]. }
  destruct (tcp_send_segment s1 i TCP_FLAG_ACK []) as [s2|] eqn:E; [|done]. intros [= <-].
  pose proof (all_send _ _ _ _ _ H1 Hi E) as H2. apply all_mod; [done|done|]. intros Hn.
  pose proof (all_at s2 i H2 Hi Hn) as Hg. apply (good_vitals (sock s2 i)); [done|done|apply Hg|].
  rec_simpl. pose proof (good_state _ Hg). by destruct (sk_state (sock s2 i)).
Qed.

Lemma all_data_fin s i data hlen pl seq (fin : bool) s' :
  all_sound s -> is_fd i -> in_use (sock s i) <> 0 -> 0 <= pl < 2 ^ 16 ->
  (s1 ← tcp_rx_data s i data hlen pl seq; if fin then tcp_rx_fin s1 i else Some s1) = Some s' -> all_sound s'.
Proof.
  intros H Hi Hu Hpl. destruct (tcp_rx_data s i data hlen pl seq) as [s1|] eqn:E; [|done]. cbv [mbind option_bind].
  pose proof (all_data s i data hlen pl seq s1 H Hi Hu Hpl E). destruct fin; [|by intros [= <-]]. by apply all_fin.
Qed.

Ltac vital := intros ?; cbn beta; rec_simpl; repeat split; auto; right; discriminate.

Lemma all_input s i src src_port data len hlen seq ack flags window us s' :
  all_sound s -> is_fd i -> in_use (sock s i) <> 0 ->
  tcp_input s i src src_port data len hlen seq ack flags window us = Some s' -> all_sound s'.
Proof.
  intros H Hi Hu.
  assert (Hack : all_sound (if has_flag flags TCP_FLAG_ACK
    then mod_sock s i (fun sk => (tcp_process_ack sk ack) <| snd_wnd := window |>) else s)).
  { destruct (has_flag flags TCP_FLAG_ACK); [|done].
    apply (all_ack s i ack (fun sk => sk <| snd_wnd := window |>)); [done|done| |done].
    intros sk [[? ? ? ?] [? ? ?] ? ? ? ?]. by constructor. }
  assert (Hack' : in_use (sock (if has_flag flags TCP_FLAG_ACK
    then mod_sock s i (fun sk => (tcp_process_ack sk ack) <| snd_wnd := window |>) else s) i) <> 0).
  { destruct (has_flag flags TCP_FLAG_ACK); [|done]. rewrite sock_mod by (apply H || done || (unfold is_fd in Hi; lia)).
    rewrite Z.eqb_refl. rec_simpl. by rewrite (proj2 (process_ack_core _ _)). }
  assert (Hrcv : forall s f, all_sound s -> (forall sk, in_use (f sk) = in_use sk /\ vitals (f sk) = vitals sk /\
    0 <= rcv_nxt (f sk) < 2 ^ 32 /\ sk_state (f sk) = sk_state sk) -> all_sound (mod_sock s i f)).
  { intros s1 f H1 Hf. apply all_mod; [done|done|]. destruct (Hf (sock s1 i)) as (Eu & Ev & Er & Es). intros Hn.
    rewrite Eu in Hn. pose proof (all_at s1 i H1 Hi Hn) as Hg.
    apply (good_vitals (sock s1 i)); [done|done|done|rewrite Es; apply Hg]. }
  unfold tcp_input. destruct (sk_state (sock s i)).
  - by intros [= <-].
  - destruct (has_flag flags TCP_FLAG_SYN); [|by intros [= <-]].
    destruct (tcp_send_segment _ _ _ _) as [s1|] eqn:E; [|done]. intros [= <-].
    apply all_vitals; [|done|vital]. eapply all_send; [|done|exact E].
    apply all_vitals; [|done|vital]. apply Hrcv; [done|]. intros sk. rec_simpl. repeat split; apply u32_range.
  - destruct (has_flag flags TCP_FLAG_SYN); [|by intros [= <-]].
    destruct (tcp_send_segment _ _ _ _) as [s1|] eqn:E; [|done]. intros [= <-].
    apply all_vitals; [|done|vital]. eapply all_send; [|done|exact E]. apply all_vitals; [|done|vital].
    set (s2 := mod_sock s i _). assert (H2 : all_sound s2).
    { apply Hrcv; [done|]. intros sk. rec_simpl. repeat split; apply u32_range. }
    destruct (has_flag flags TCP_FLAG_ACK); [|done].
    apply all_mod; [done|done|]. rewrite (proj2 (process_ack_core _ _)) || idtac. intros Hn.
    rewrite (proj2 (process_ack_core _ _)) in Hn. apply process_ack_good.
    apply (good_vitals (sock s2 i)); [by apply all_at|done|apply (all_at s2 i H2 Hi Hn)|apply (all_at s2 i H2 Hi Hn)].
  - destruct (has_flag flags TCP_FLAG_ACK); intros [= <-]; [|done].
    apply all_mod; [done|done|]. intros Hn. rec_simpl. rewrite (proj2 (process_ack_core _ _)) in Hn.
    pose proof (all_at s i H Hi Hn) as Hg.
    assert (Hg' : good (tcp_process_ack ((sock s i) <| snd_una := ack |>) ack)).
    { apply process_ack_good. apply (good_vitals (sock s i)); [done|done|apply Hg|apply Hg]. }
    apply (good_vitals (tcp_process_ack ((sock s i) <| snd_una := ack |>) ack)); [done|done|apply Hg'|discriminate].
  - apply all_data_fin; [done|done|done|apply u16_range].
  - apply all_data_fin; [done|done|done|apply u16_range].
  - apply all_data_fin; [done|done|done|apply u16_range].
  - by intros [= <-].
  - destruct (has_flag flags TCP_FLAG_ACK); intros [= <-]; [|done]. apply all_vitals; [done|done|vital].
  - destruct (has_flag flags TCP_FLAG_ACK); intros [= <-]; [|done]. apply all_mod; [done|done|]. intros Hn. by rec_simpl.
  - by intros [= <-].
Qed.

Lemma find_sock_spec s src sp dp i : find_sock s src sp dp = Some i -> is_fd i /\ in_use (sock s i) <> 0.
Proof.
  intros (Hi & Hp & _)%find_from_Some. split; [exact Hi|]. intros E. cbn beta zeta in Hp. by rewrite E in Hp.
Qed.

Lemma all_rx s ip data len ms us s' : all_sound s -> tcp_rx s ip data len ms us = Some s' -> all_sound s'.
Proof.
  intros H. unfold tcp_rx. cbn zeta. destruct (find_sock _ _ _ _) as [i|] eqn:Ef; [|by intros [= <-]].
  destruct (find_sock_spec _ _ _ _ _ Ef) as [Hi Hu]. apply all_input; [apply all_vitals; [done|done|vital]|done|].
  rewrite sock_mod by (apply H || done || (unfold is_fd in Hi; lia)). by rewrite Z.eqb_refl.
Qed.

(** Calls that do not touch the sockets. *)
Lemma arp_lookup_socks s ip s' r : arp_lookup s ip = Some (s', r) -> tcp_sockets s' = tcp_sockets s.
Proof.
  unfold arp_lookup. destruct (_ =? NULL); [done|]. destruct (find_from _ _ _); by intros [= <- _].
Qed.

Lemma arp_rx_socks s dev pkt ms : tcp_sockets (arp_rx s dev pkt ms) = tcp_sockets s.
Proof. rewrite arp_rx_cases. destruct (arp_is ARP_REPLY (bytes s) pkt); [done|]. by destruct (_ && _). Qed.

Lemma icmp_rx_socks s dev ip data s' : icmp_rx s dev ip data = Some s' -> tcp_sockets s' = tcp_sockets s.
Proof.
  unfold icmp_rx. cbn zeta. destruct (_ =? ICMP_ECHO_REQUEST); [|by intros [= <-]].
  destruct (arp_lookup _ _) as [[s1 mac]|] eqn:E; [|done]. cbv [mbind option_bind]. apply arp_lookup_socks in E.
  destruct mac; [|by intros [= <-]]. destruct (ip_hdr _ _ _ _ _); [|done]. destruct (ip_checksum _ _ _); [|done].
  by intros [= <-].
Qed.

Lemma udp_rx_socks s data len s' : udp_rx s data len = Some s' -> tcp_sockets s' = tcp_sockets s.
Proof.
  unfold udp_rx. cbn zeta. destruct (len <? UDP_HDR); [by intros [= <-]|]. destruct (_ <? UDP_HDR); [by intros [= <-]|].
  destruct (_ && _); [|by intros [= <-]]. destruct (_ || _); [by intros [= <-]|].
  destruct (find_from _ _ _); [|by intros [= <-]]. destruct (skip_questions _ _ _ _ _); [|done].
  cbv [mbind option_bind]. destruct (find_answer _ _ _ _ _) as [[ip|]|]; [| |done]; by intros [= <-].
Qed.

Lemma frag_socks s ip ihl tl fo ms s' : ip_rx_frag s ip ihl tl fo ms = Some s' -> tcp_sockets s' = tcp_sockets s.
Proof.
  unfold ip_rx_frag, copy_into. cbn zeta. destruct (frag_slot _ _ _ _ _); [|by intros [= <-]].
  destruct (IP_FRAG_BUF_SIZE <? _); [done|]. by intros [= <-].
Qed.

Lemma all_ip s dev pkt len ms us s' : all_sound s -> ip_rx s dev pkt len ms us = Some s' -> all_sound s'.
Proof.
  intros H. unfold ip_rx. cbn zeta. destruct (_ <? _); [by intros [= <-]|]. destruct (negb _); [by intros [= <-]|].
  destruct (ip_checksum _ _ _); [|done]. cbv [mbind option_bind]. destruct (negb _); [by intros [= <-]|].
  destruct (negb _); [intros E%frag_socks; by apply (all_socks s)|].
  destruct (_ =? IP_PROTO_ICMP); [intros E%icmp_rx_socks; by apply (all_socks s)|].
  destruct (_ =? IP_PROTO_UDP); [intros E%udp_rx_socks; by apply (all_socks s)|].
  destruct (_ =? IP_PROTO_TCP); [by apply all_rx|by intros [= <-]].
Qed.

Lemma all_count s dev len : all_sound s -> all_sound (count_rx s dev len).
Proof. intros H. by apply (all_socks s). Qed.

Lemma all_frame s dev data len ms us s' : all_sound s -> net_rx_frame s dev data len ms us = Some s' -> all_sound s'.
Proof.
  intros H%(fun H => all_count s dev len H). unfold net_rx_frame. destruct (_ || _); [intros [= <-]; by apply (all_socks (count_rx s dev len))|].
  cbn zeta. destruct (_ =? ETH_P_ARP); [intros [= <-]; apply (all_socks _ _ H), arp_rx_socks|].
  destruct (_ =? ETH_P_IP); [by apply all_ip|by intros [= <-]].
Qed.

Lemma all_packet s dev data len ms us s' : all_sound s -> net_rx_packet s dev data len ms us = Some s' -> all_sound s'.
Proof.
  intros H%(fun H => all_count s dev len H). unfold net_rx_packet. cbn zeta.
  destruct (len <? ETH_HDR_LEN); [intros [= <-]; by apply (all_socks _ _ H)|].
  destruct (_ && _); [by intros [= <-]|].
  generalize (if ntohs (load_le 2 (bytes (count_rx s dev len)) (data + 12)) =? ETH_P_VLAN
    then ntohs (load_le 2 (bytes (count_rx s dev len)) (data + 16)) else ntohs (load_le 2 (bytes (count_rx s dev len)) (data + 12))).
  intros type. destruct (type =? ETH_P_ARP); [intros [= <-]; apply (all_socks _ _ H), arp_rx_socks|].
  destruct (type =? ETH_P_IP); [by apply all_ip|by intros [= <-]].
Qed.

Lemma all_close_sock s i : all_sound s -> is_fd i ->
  all_sound (mod_sock s i (fun sk => sk <| sk_state := TCP_CLOSED |> <| in_use := 0 |>)).
Proof. intros H Hi. apply all_mod; [done|done|]. intros Hn. by rec_simpl. Qed.

Lemma all_timer_one now s i s' : all_sound s -> is_fd i -> tcp_timer_one now s i = Some s' -> all_sound s'.
Proof.
  intros H Hi. unfold tcp_timer_one. destruct (_ =? 0); [by intros [= <-]|]. cbn zeta.
  set (s1 := if _ && _ then _ else s).
  assert (H1 : all_sound s1).
  { unfold s1. destruct (_ && _); [|done]. apply all_mod; [done|done|]. intros Hn.
    destruct (all_at s i H Hi Hn) as [[? ? ? ?] [? ? ?] ? Hw Hss ?].
    constructor; rec_simpl; [by constructor|by constructor|done|unfold TCP_MSS; lia| |done].
    unfold TCP_MSS in *. lia. }
  clearbody s1.
  destruct (bool_decide (sk_state (sock s1 i) = TCP_ESTABLISHED) && _).
  - destruct (tcp_send_segment s1 i TCP_FLAG_ACK []) as [s2|] eqn:E; [|done]. cbv [mbind option_bind].
    pose proof (all_send _ _ _ _ _ H1 Hi E) as H2.
    set (s3 := mod_sock s2 i _). assert (H3 : all_sound s3) by (apply all_vitals; [done|done|vital]).
    set (s4 := if 9 <? _ then _ else s3).
    assert (H4 : all_sound s4) by (unfold s4; destruct (9 <? _); [by apply all_close_sock|done]).
    intros [= <-]. destruct (_ && _); [by apply all_close_sock|done].
  - cbv [mbind option_bind]. intros [= <-]. destruct (_ && _); [by apply all_close_sock|done].
Qed.

Lemma all_timer s ms s' : all_sound s -> tcp_timer_callback s ms = Some s' -> all_sound s'.
Proof.
  intros H. unfold tcp_timer_callback.
  assert (Hloop : forall n i s, 0 <= i -> i + Z.of_nat n <= TCP_MAX_SOCKETS -> all_sound s ->
    tcp_timer_loop ms n i s = Some s' -> all_sound s').
  { induction n as [|n IH]; intros i s0 H0 Hn Hs; cbn [tcp_timer_loop]; [by intros [= <-]|].
    destruct (tcp_timer_one ms s0 i) as [s1|] eqn:E; [|done]. cbv [mbind option_bind].
    apply IH; [lia|lia|]. eapply all_timer_one; [exact Hs| |exact E]. unfold is_fd. lia. }
  apply Hloop; [lia|unfold TCP_MAX_SOCKETS; lia|done].
Qed.
End sound.

(** * Lemmas: sending *)

Section send.
Context {M : Type} `{NM : NetMemory M} `{NL : !NetMemoryLaws M}.
Implicit Types (s : net (M := M)).

(** Memory that lasts: a set of its states in which a block for a frame can be had,
    and which giving it back and writing do not leave. *)
Record lasting (G : M -> Prop) : Prop := {
  lasting_store m b : G m -> G (nm_store m b);
  lasting_block m n : G m -> 0 < n <= 1514 -> exists m' p, nm_kmalloc m n = Some (m', p) /\ p <> NULL /\ G (nm_kfree m' p)
}.
Definition lasts s s' : Prop := forall G, lasting G -> G (net_mem s) -> G (net_mem s').

Lemma segment_size_range (data : list Z) : zlen data <= TCP_MSS -> 0 < segment_size data <= 1514.
Proof.
  intros H. pose proof (zlen_nonneg data). unfold segment_size, ETH_HDR_LEN, IP_HDR, TCP_HDR, TCP_MSS in *. rewrite u32_id; lia.
Qed.

Lemma send_lasts s fd flags data s' :
  socks_ok s -> is_fd fd -> zlen data <= TCP_MSS -> tcp_send_segment s fd flags data = Some s' -> lasts s s'.
Proof.
  intros Hs Hi Hz E G HG H. destruct (send_segment_cases _ _ _ _ _ Hs Hi E) as (_ & _ & _ & [->|(m & p & Ek & Hm)]); [done|].
  destruct (lasting_block G HG _ _ H (segment_size_range data Hz)) as (m' & p' & Ek' & Hp & H').
  assert (m' = m /\ p' = p) as [-> ->] by (split; congruence). by rewrite Hm.
Qed.

Lemma lasting_not_null G s (data : list Z) m' :
  lasting G -> G (net_mem s) -> zlen data <= TCP_MSS -> nm_kmalloc (net_mem s) (segment_size data) <> Some (m', NULL).
Proof.
  intros HG H Hz E. destruct (lasting_block G HG _ _ H (segment_size_range data Hz)) as (m & p & Ek & Hp & _). congruence.
Qed.

(** The bytes the application gave that are not sent yet. *)
Definition tx_queue s (i : Z) : list Z :=
  ring (bytes s) (tx_buf (sock s i)) TCP_TX_BUF_SIZE (tx_tail (sock s i)) (tx_count (sock s i)).

Definition dequeued (p : Z) (sk : tcp_socket) : tcp_socket :=
  sk <| tx_tail := (tx_tail sk + p) mod TCP_TX_BUF_SIZE |> <| tx_count := u32 (tx_count sk - p) |>
     <| cc := (cc sk) <| flight_size := u32 (flight_size (cc sk) + p) |> |>.

(** How much [tcp_push] sends. *)
Definition push_size (sk : tcp_socket) (to_copy : Z) : Z :=
  if (snd_una sk =? snd_nxt sk) || (mss sk <=? to_copy)
  then Z.min (mss sk) (Z.min (u32 (cwnd (cc sk) - flight_size (cc sk))) (tx_count sk)) else 0.

Lemma seg_ring (m : mem) buf tail p :
  map (fun i => m (buf + (tail + i) mod TCP_TX_BUF_SIZE)) (seqZ 0 p) = ring m buf TCP_TX_BUF_SIZE tail p.
Proof. done. Qed.

Lemma tcp_push_eq s fd k :
  0 <= mss (sock s fd) -> 0 <= tx_count (sock s fd) ->
  tcp_push s fd k =
  let p := push_size (sock s fd) k in
  if p =? 0 then Some s else
  s1 ← tcp_send_segment s fd (Z.lor TCP_FLAG_ACK TCP_FLAG_PSH)
         (ring (bytes s) (tx_buf (sock s fd)) TCP_TX_BUF_SIZE (tx_tail (sock s fd)) p);
  Some (mod_sock s1 fd (dequeued p)).
Proof.
  intros Hm Hc. unfold tcp_push, push_size. cbn zeta.
  destruct ((snd_una (sock s fd) =? snd_nxt (sock s fd)) || (mss (sock s fd) <=? k)); [|done].
  pose proof (u32_range (cwnd (cc (sock s fd)) - flight_size (cc (sock s fd)))) as Hr.
  generalize dependent (u32 (cwnd (cc (sock s fd)) - flight_size (cc (sock s fd)))). intros room Hr.
  set (p := if mss (sock s fd) <? _ then _ else _).
  assert (Ep : p = Z.min (mss (sock s fd)) (Z.min room (tx_count (sock s fd)))).
  { unfold p. destruct (Z.ltb_spec room (tx_count (sock s fd))).
    - destruct (Z.ltb_spec (mss (sock s fd)) room); lia.
    - destruct (Z.ltb_spec (mss (sock s fd)) (tx_count (sock s fd))); lia. }
  rewrite <- Ep. assert (0 <= p) by lia. clearbody p. rewrite seg_ring.
  destruct (Z.ltb_spec 0 p), (Z.eqb_spec p 0); try lia; done.
Qed.

Lemma push_size_range sk k : 0 <= mss sk -> 0 <= tx_count sk -> 0 <= push_size sk k <= tx_count sk /\ push_size sk k <= mss sk.
Proof.
  intros Hm Hc. unfold push_size. pose proof (u32_range (cwnd (cc sk) - flight_size (cc sk))).
  destruct (_ || _); lia.
Qed.

Lemma dequeued_tx p sk : tx_ok sk -> 0 <= p <= tx_count sk -> tx_ok (dequeued p sk).
Proof.
  intros [Ht Hc Hh] Hp. unfold TCP_TX_BUF_SIZE in *. constructor; unfold dequeued; rec_simpl; unfold TCP_TX_BUF_SIZE.
  - by apply Z.mod_pos_bound.
  - rewrite u32_id; lia.
  - rewrite u32_id by lia. rewrite Hh, Z.add_mod_idemp_l by lia. f_equal. lia.
Qed.

(** What one [tcp_push] does: the first [push_size] bytes leave the ring; they are sent
    as one segment, or lost. *)
Lemma tcp_push_spec s fd k s' (p := push_size (sock s fd) k) (chunk := take (Z.to_nat p) (tx_queue s fd)) :
  socks_ok s -> is_fd fd -> tx_ok (sock s fd) -> mss (sock s fd) = TCP_MSS -> tcp_push s fd k = Some s' ->
  only_sock fd s s' /\ bytes s' = bytes s /\ lasts s s' /\ zlen chunk = p /\ 0 <= p <= TCP_MSS /\
  tx_queue s fd = chunk ++ tx_queue s' fd /\
  (p = 0 /\ s' = s \/
   0 < p /\ exists s1, (is_sent s s1 fd (Z.lor TCP_FLAG_ACK TCP_FLAG_PSH) chunk \/ not_sent s s1 fd chunk) /\
     sent s' = sent s1 /\ sock s' fd = dequeued p (sock s1 fd)).
Proof.
  intros Hs Hi Htx Hm. pose proof Htx as [Ht Hc _]. rewrite tcp_push_eq by (rewrite ?Hm; unfold TCP_MSS; lia).
  cbn zeta. fold p. pose proof (push_size_range (sock s fd) k ltac:(rewrite Hm; unfold TCP_MSS; lia) ltac:(lia)) as [Hp Hpm].
  fold p in Hp, Hpm. rewrite Hm in Hpm.
  assert (Hch : chunk = ring (bytes s) (tx_buf (sock s fd)) TCP_TX_BUF_SIZE (tx_tail (sock s fd)) p /\
    drop (Z.to_nat p) (tx_queue s fd) =
      ring (bytes s) (tx_buf (sock s fd)) TCP_TX_BUF_SIZE ((tx_tail (sock s fd) + p) mod TCP_TX_BUF_SIZE) (tx_count (sock s fd) - p))
    by (apply ring_split; [done|lia]).
  destruct Hch as [Hch Hdr].
  assert (Hz : zlen chunk = p) by (rewrite Hch; apply zlen_ring; lia).
  destruct (Z.eqb_spec p 0) as [E0|Hne].
  - intros [= <-]. split; [by apply only_refl|]. split; [done|]. split; [by intros G|]. split; [done|]. split; [lia|]. split; [|by left].
    rewrite (nil_length_inv chunk) by (unfold zlen in Hz; lia). done.
  - destruct (tcp_send_segment s fd _ _) as [s1|] eqn:E; [|done]. cbv [mbind option_bind]. intros [= <-].
    rewrite <- Hch in E. destruct (send_segment_cases _ _ _ _ _ Hs Hi E) as (Ho & Hb & Hcase & _).
    destruct (send_same _ _ _ _ _ Hs Hi E) as (_ & _ & v & Hv).
    assert (Hsk : sock (mod_sock s1 fd (dequeued p)) fd = dequeued p (sock s1 fd)).
    { rewrite sock_mod by (apply Ho || done || (unfold is_fd in Hi; lia)). by rewrite Z.eqb_refl. }
    split; [eapply only_trans; [exact Ho|]; apply only_mod; [apply Ho|done]|]. split; [done|].
    split; [exact (send_lasts s fd _ chunk s1 Hs Hi (eq_ind_r (fun z => z <= TCP_MSS) Hpm Hz) E)|]. split; [done|].
    split; [lia|]. split; [|right; split; [lia|]; exists s1; split; [done|split; [done|exact Hsk]]].
    rewrite <- (take_drop (Z.to_nat p) (tx_queue s fd)) at 1. f_equal. rewrite Hdr. unfold tx_queue. rewrite Hsk.
    unfold dequeued. rewrite Hv. rec_simpl. rewrite bytes_mod, Hb. f_equal. unfold TCP_TX_BUF_SIZE in *. rewrite u32_id; lia.
Qed.

(** What a segment shows of its socket besides [snd_nxt]. *)
Definition wire (sk : tcp_socket) := (local_ip sk, local_port sk, remote_ip sk, remote_port sk, rcv_nxt sk, rcv_wnd sk).

Lemma segment_wire sk sk' flags data mac dmac :
  wire sk' = wire sk -> snd_nxt sk' = snd_nxt sk -> segment sk' flags data mac dmac = segment sk flags data mac dmac.
Proof.
  unfold wire. intros [= E1 E2 E3 E4 E5 E6] E7. unfold segment, tcp_hdr. by rewrite E1, E2, E3, E4, E5, E6, E7.
Qed.

(** The frames for these pieces of data, with consecutive sequence numbers from [n]. *)
Inductive seg_run (sk : tcp_socket) (mac dmac : list Z) : Z -> list (list Z) -> list (list Z) -> Prop :=
| seg_nil n : seg_run sk mac dmac n [] []
| seg_cons n c cs f fs :
    segment (sk <| snd_nxt := n |>) (Z.lor TCP_FLAG_ACK TCP_FLAG_PSH) c mac dmac = Some f ->
    seg_run sk mac dmac (u32 (n + zlen c)) cs fs -> seg_run sk mac dmac n (c :: cs) (f :: fs).

Lemma seg_run_wire sk sk' mac dmac n cs fs :
  wire sk' = wire sk -> seg_run sk' mac dmac n cs fs -> seg_run sk mac dmac n cs fs.
Proof.
  intros Hw. induction 1 as [|n c cs f fs E _ IH]; constructor; [|done].
  rewrite <- E. symmetry. by apply segment_wire.
Qed.

(** [tcp_push] and [tcp_send] keep these. *)
Definition send_kept fd s s' : Prop :=
  only_sock fd s s' /\ wire (sock s' fd) = wire (sock s fd) /\ tx_buf (sock s' fd) = tx_buf (sock s fd) /\
  mss (sock s' fd) = mss (sock s fd) /\ in_use (sock s' fd) = in_use (sock s fd).

Lemma send_kept_trans fd s1 s2 s3 : send_kept fd s1 s2 -> send_kept fd s2 s3 -> send_kept fd s1 s3.
Proof. intros (A & ? & ? & ? & ?) (B & ? & ? & ? & ?). split; [by eapply only_trans|]. repeat split; congruence. Qed.

Lemma only_next_hop fd s s' ip : only_sock fd s s' -> next_hop s' ip = next_hop s ip.
Proof.
  intros (_ & _ & _ & _ & _ & E & _ & Hd). unfold next_hop. rewrite E.
  destruct (Hd (net_ifs s).[0]) as (_ & E1 & E2 & E3). by rewrite E1, E2, E3.
Qed.

Lemma only_arp_get fd s s' ip : only_sock fd s s' -> arp_get s' ip = arp_get s ip.
Proof. intros (_ & _ & E & _). unfold arp_get, arp_hit. by rewrite E. Qed.

(** The frames that leave during a send: the segments, when the next hop's address is
    known and memory lasts; only ARP requests, and [snd_nxt] stays, when it is not. *)
Definition flow (fd : Z) (cs : list (list Z)) s s' : Prop :=
  let dev := (net_ifs s).[0] in
  let known := arp_get s (next_hop s (remote_ip (sock s fd))) in
  (forall mac G, known = Some mac -> dev <> NULL -> lasting G -> G (net_mem s) ->
    exists fs, seg_run (sock s fd) mac (if_mac (devs s dev)) (snd_nxt (sock s fd)) cs fs /\
      sent s' = sent s ++ map (pair dev) fs /\ snd_nxt (sock s' fd) = u32 (snd_nxt (sock s fd) + zlen (concat cs))) /\
  (known = None -> snd_nxt (sock s' fd) = snd_nxt (sock s fd) /\
    exists reqs, sent s' = sent s ++ reqs /\ Forall (fun f => zlen f.2 = ETH_HDR_LEN + ARP_HDR_LEN) reqs).

Lemma flow_nil fd s s' :
  0 <= snd_nxt (sock s fd) < 2 ^ 32 -> sent s' = sent s -> snd_nxt (sock s' fd) = snd_nxt (sock s fd) -> flow fd [] s s'.
Proof.
  intros Hn Es E. split.
  - intros mac G _ _ _ _. exists []. split; [constructor|]. split; [by rewrite Es, app_nil_r|].
    rewrite E. cbn. by rewrite Z.add_0_r, u32_id.
  - intros _. split; [done|]. exists []. rewrite Es, app_nil_r. done.
Qed.

Lemma zlen_concat_cons (c : list Z) cs : zlen (concat (c :: cs)) = zlen c + zlen (concat cs).
Proof. cbn [concat]. apply zlen_app. Qed.

Lemma flow_cons fd c cs s s1 s2 s' :
  send_kept fd s s2 -> (is_sent s s1 fd (Z.lor TCP_FLAG_ACK TCP_FLAG_PSH) c \/ not_sent s s1 fd c) -> zlen c <= TCP_MSS -> lasts s s2 ->
  zlen (if_mac (devs s (net_ifs s).[0])) = 6 ->
  sent s2 = sent s1 -> snd_nxt (sock s2 fd) = snd_nxt (sock s1 fd) ->
  flow fd cs s2 s' -> flow fd (c :: cs) s s'.
Proof.
  intros (Ho & Hw & _) Hc Hz Hl Hmac Es2 En2 [F1 F2].
  assert (Er : remote_ip (sock s2 fd) = remote_ip (sock s fd)) by (unfold wire in Hw; congruence).
  rewrite Er, (only_next_hop fd s s2 _ Ho), (only_arp_get fd s s2 _ Ho) in F1, F2.
  pose proof (proj1 (proj2 (proj2 (proj2 (proj2 (proj2 Ho)))))) as Ed. rewrite Ed in F1.
  pose proof (proj2 (proj2 (proj2 (proj2 (proj2 (proj2 (proj2 Ho)))))) (net_ifs s).[0]) as (Em & Ei & _).
  rewrite Em in F1. split.
  - intros mac G Hk Hd HG HGs. destruct (F1 mac G Hk Hd HG (Hl G HG HGs)) as (fs & Hrun & Hs & Hn).
    destruct Hc as [(mac' & f & Hk' & Hf & Hs1 & Hsk)|(_ & [(_ & [?|(m' & E)])|(Hk' & _)])]; [|done|by apply (lasting_not_null G) in E|congruence].
    assert (mac' = mac) by congruence. subst mac'.
    assert (En1 : snd_nxt (sock s1 fd) = u32 (snd_nxt (sock s fd) + zlen c)) by (rewrite Hsk; reflexivity).
    exists (f :: fs). split; [constructor|split].
    + rewrite <- Hf. apply segment_wire; done.
    + rewrite <- En1, <- En2. by eapply seg_run_wire.
    + rewrite Hs, Es2, Hs1. cbn [map]. rewrite <- (app_assoc (sent s)). done.
    + rewrite Hn, En2, En1, zlen_concat_cons. unfold u32. rewrite Zplus_mod_idemp_l. f_equal. lia.
  - intros Hk. destruct (F2 Hk) as (Hn & reqs & Hs & Hreq).
    destruct Hc as [(mac' & f & Hk' & _)|(Hsk & Hs1)]; [congruence|]. split; [congruence|].
    destruct Hs1 as [(Hs1 & _)|(_ & ip & Hs1)]; [exists reqs; split; [congruence|done]|].
    exists ([((net_ifs s).[0], eth_hdr (replicate 6 0xFF) (if_mac (devs s (net_ifs s).[0])) (htons ETH_P_ARP) ++
      arp_pkt (htons ARP_REQUEST) (if_mac (devs s (net_ifs s).[0])) (ip_addr (devs s (net_ifs s).[0])) (replicate 6 0) ip)] ++ reqs).
    split; [rewrite Hs, Es2, Hs1, app_assoc; done|]. apply Forall_app. split; [|done]. constructor; [|done].
    cbn [snd]. unfold eth_hdr, arp_pkt. rewrite !zlen_app, !zlen_le_bytes, Hmac. reflexivity.
Qed.

Lemma flow_pre fd cs s s1 s' :
  send_kept fd s s1 -> lasts s s1 -> sent s1 = sent s -> snd_nxt (sock s1 fd) = snd_nxt (sock s fd) -> flow fd cs s1 s' -> flow fd cs s s'.
Proof.
  intros (Ho & Hw & _) Hl Es En [F1 F2].
  assert (Er : remote_ip (sock s1 fd) = remote_ip (sock s fd)) by (unfold wire in Hw; congruence).
  rewrite Er, (only_next_hop fd s s1 _ Ho), (only_arp_get fd s s1 _ Ho) in F1, F2.
  pose proof (proj1 (proj2 (proj2 (proj2 (proj2 (proj2 Ho)))))) as Ed. rewrite Ed in F1.
  pose proof (proj1 (proj2 (proj2 (proj2 (proj2 (proj2 (proj2 (proj2 Ho)))))) (net_ifs s).[0])) as Em.
  rewrite Em, En, Es in F1. rewrite En, Es in F2. split; [|done].
  intros mac G Hk Hd HG HGs. destruct (F1 mac G Hk Hd HG (Hl G HG HGs)) as (fs & Hrun & H). exists fs. split; [|done].
  by eapply seg_run_wire.
Qed.

Lemma send_segment_total s fd flags data :
  nm_kmalloc (net_mem s) (segment_size data) <> None -> exists s', tcp_send_segment s fd flags data = Some s'.
Proof.
  intros Hk. unfold tcp_send_segment. destruct (Z.eqb_spec (net_ifs s).[0] NULL) as [|Hd]; [by eexists|].
  fold (segment_size data).
  destruct (nm_kmalloc _ _) as [[m pkt]|]; [|done]. cbv [mbind option_bind].
  destruct (pkt =? NULL); [by eexists|]. set (s1 := s <| net_mem := m |>). rewrite (arp_lookup_map s1) by done.
  cbv [mbind option_bind]. destruct (arp_get s1 _) as [mac|]; [|by eexists].
  destruct (ip_hdr_ok (IP_HDR + TCP_HDR + zlen data) 0 IP_PROTO_TCP (local_ip (sock s1 fd)) (remote_ip (sock s1 fd)))
    as (h & Eh & _). change (sock s fd) with (sock s1 fd). rewrite Eh. by eexists.
Qed.

(** What [tcp_send] has done so far: from [s], [d] more bytes are in the ring or
    cut into the segments [cs]. *)
Definition sending fd (cs : list (list Z)) (new : list Z) s s' : Prop :=
  send_kept fd s s' /\ tx_ok (sock s' fd) /\ lasts s s' /\ Forall (fun c => 0 < zlen c <= TCP_MSS) cs /\
  tx_queue s fd ++ new = concat cs ++ tx_queue s' fd /\ flow fd cs s s' /\
  (forall x, x < tx_buf (sock s fd) \/ tx_buf (sock s fd) + TCP_TX_BUF_SIZE <= x -> bytes s' x = bytes s x).

Definition send_ready s (fd data len : Z) : Prop :=
  socks_ok s /\ is_fd fd /\ tx_ok (sock s fd) /\ mss (sock s fd) = TCP_MSS /\ 0 <= snd_nxt (sock s fd) < 2 ^ 32 /\
  zlen (if_mac (devs s (net_ifs s).[0])) = 6 /\ apart data len (tx_buf (sock s fd)) TCP_TX_BUF_SIZE.

Lemma send_ready_kept s s' fd data len :
  send_ready s fd data len -> send_kept fd s s' -> tx_ok (sock s' fd) -> 0 <= snd_nxt (sock s' fd) < 2 ^ 32 ->
  send_ready s' fd data len.
Proof.
  intros (_ & Hi & _ & Hm & _ & Hmac & Ha) (Ho & _ & Eb & Em & _) Htx Hn.
  split; [apply Ho|]. split; [done|]. split; [done|]. split; [congruence|]. split; [done|].
  rewrite (proj1 (proj2 (proj2 (proj2 (proj2 (proj2 Ho)))))), (proj1 (proj2 (proj2 (proj2 (proj2 (proj2 (proj2 (proj2 Ho)))))) (net_ifs s).[0])), Eb.
  done.
Qed.

(** The copy into the ring. *)
Definition enqueue s fd (src n : Z) : net :=
  let '(m, head) := ring_write (Z.to_nat n) (bytes s) (tx_buf (sock s fd)) TCP_TX_BUF_SIZE (tx_head (sock s fd)) src in
  mod_sock (set_bytes s m) fd (fun sk => sk <| tx_head := head |> <| tx_count := u32 (tx_count sk + n) |>).

Lemma tx_enqueue_spec s fd src n :
  socks_ok s -> is_fd fd -> tx_ok (sock s fd) -> 0 <= n -> tx_count (sock s fd) + n <= TCP_TX_BUF_SIZE ->
  apart src n (tx_buf (sock s fd)) TCP_TX_BUF_SIZE ->
  let s' := enqueue s fd src n in
  send_kept fd s s' /\ lasts s s' /\ tx_ok (sock s' fd) /\ sent s' = sent s /\ snd_nxt (sock s' fd) = snd_nxt (sock s fd) /\
  tx_queue s' fd = tx_queue s fd ++ bytes_at (bytes s) src n /\
  (forall x, x < tx_buf (sock s fd) \/ tx_buf (sock s fd) + TCP_TX_BUF_SIZE <= x -> bytes s' x = bytes s x).
Proof.
  intros Hs Hi [Ht Hc Hh] Hn Hle Ha. unfold enqueue. unfold TCP_TX_BUF_SIZE in *. rewrite Hh.
  destruct (ring_write_queue (Z.to_nat n) (bytes s) (tx_buf (sock s fd)) 65536 (tx_tail (sock s fd)) (tx_count (sock s fd)) src)
    as (H2 & Hq & Hout); [lia|done|lia|lia|by rewrite Z2Nat.id|]. cbn zeta in *. rewrite Z2Nat.id in * by lia.
  destruct (ring_write _ _ _ _ _ _) as [m h]. cbn [fst snd] in *.
  set (s1 := set_bytes s m). set (s2 := mod_sock s1 fd _).
  assert (E2 : sock s2 fd = (sock s fd) <| tx_head := h |> <| tx_count := tx_count (sock s fd) + n |>).
  { unfold s2. rewrite sock_mod by (done || (unfold is_fd in Hi; lia)). rewrite Z.eqb_refl.
    change (sock s1 fd) with (sock s fd). by rewrite u32_id by lia. }
  assert (Hb : bytes s2 = m) by (unfold s2; rewrite bytes_mod; apply bytes_set).
  split; [|split; [|split; [|split; [|split; [|split]]]]].
  - split; [exact (only_mod fd s1 _ Hs Hi)|]. by rewrite E2.
  - intros G HG H. by apply (lasting_store G HG).
  - rewrite E2. constructor; rec_simpl; unfold TCP_TX_BUF_SIZE; [done|lia|]. rewrite H2. done.
  - done.
  - by rewrite E2.
  - unfold tx_queue. rewrite E2, Hb. rec_simpl. exact Hq.
  - intros x Hx. rewrite Hb. by apply Hout.
Qed.

Lemma sending_trans fd cs1 new s s1 s2 cs2 new2 :
  sending fd cs1 new s s1 -> sending fd cs2 new2 s1 s2 -> flow fd (cs1 ++ cs2) s s2 ->
  sending fd (cs1 ++ cs2) (new ++ new2) s s2.
Proof.
  intros (K1 & _ & L1 & C1 & Q1 & _ & O1) (K2 & T2 & L2 & C2 & Q2 & _ & O2) F.
  split; [by eapply send_kept_trans|]. split; [done|]. split; [intros G HG H; by apply L2, L1|]. split; [by apply Forall_app|].
  split; [rewrite app_assoc, Q1, <- app_assoc, Q2, concat_app, <- app_assoc; done|]. split; [done|].
  intros x Hx. rewrite O2, O1; [done|done|]. destruct K1 as (_ & _ & -> & _). done.
Qed.

Lemma bytes_at_app m p n k : 0 <= n -> 0 <= k -> bytes_at m p (n + k) = bytes_at m p n ++ bytes_at m (p + n) k.
Proof. intros Hn Hk. unfold bytes_at. by rewrite seqZ_app, map_app. Qed.

Lemma bytes_at_ext m m' p n : (forall i, 0 <= i < n -> m (p + i) = m' (p + i)) -> bytes_at m p n = bytes_at m' p n.
Proof.
  intros H. apply map_ext_in. intros x [H1 H2]%list_elem_of_In%elem_of_seqZ. replace x with (p + (x - p)) by lia. apply H. lia.
Qed.

(** One round: the copy and the push. *)
Lemma round_spec s fd data len src n k s' :
  send_ready s fd data len -> 0 <= n -> tx_count (sock s fd) + n <= TCP_TX_BUF_SIZE ->
  data <= src -> src + n <= data + len -> tcp_push (enqueue s fd src n) fd k = Some s' ->
  exists cs, sending fd cs (bytes_at (bytes s) src n) s s' /\ send_ready s' fd data len /\
    (forall cs' s2, flow fd cs' s' s2 -> flow fd (cs ++ cs') s s2).
Proof.
  intros Hr Hn Hle Hd1 Hd2 E. pose proof Hr as (Hs & Hi & Htx & Hm & Hnx & Hmac & Ha).
  destruct (tx_enqueue_spec s fd src n) as (K1 & L1 & T1 & S1 & N1 & Q1 & O1); [done..|unfold apart in *; lia|].
  cbn zeta in *. set (s1 := enqueue s fd src n) in *.
  assert (Hr1 : send_ready s1 fd data len) by (apply (send_ready_kept s); [done..|by rewrite N1]).
  pose proof Hr1 as (Hs1 & _ & _ & Hm1 & Hnx1 & Hmac1 & _).
  destruct (tcp_push_spec s1 fd k s' Hs1 Hi T1 Hm1 E) as (Ho & Hb & Hl & Hz & Hp & Hq & Hcase).
  set (p := push_size (sock s1 fd) k) in *. set (chunk := take (Z.to_nat p) (tx_queue s1 fd)) in *.
  pose proof (push_size_range (sock s1 fd) k ltac:(rewrite Hm1; unfold TCP_MSS; lia) ltac:(destruct T1; lia)) as [Hpc _].
  fold p in Hpc.
  destruct Hcase as [[E0 ->]|(Hp0 & s2 & Hc & Es & Ek)].
  - exists []. split; [|split; [done|]].
    + split; [done|]. split; [done|]. split; [done|]. split; [constructor|]. split; [by rewrite Q1|]. split; [|done].
      apply flow_nil; [done|done|done].
    + intros cs' s2 F. by eapply flow_pre.
  - assert (Hsk : wire (sock s2 fd) = wire (sock s1 fd) /\ tx_buf (sock s2 fd) = tx_buf (sock s1 fd) /\
      mss (sock s2 fd) = mss (sock s1 fd) /\ in_use (sock s2 fd) = in_use (sock s1 fd) /\
      tx_ok (sock s2 fd) /\ tx_count (sock s2 fd) = tx_count (sock s1 fd) /\ 0 <= snd_nxt (sock s2 fd) < 2 ^ 32).
    { destruct Hc as [(mac & f & _ & _ & _ & Esk)|(Esk & _)]; rewrite Esk.
      - split; [done|]. split; [done|]. split; [done|]. split; [done|]. split; [by destruct T1; constructor|].
        split; [done|]. apply u32_range.
      - done. }
    destruct Hsk as (W2 & B2 & M2 & U2 & T2 & C2 & N2).
    assert (Hkept : send_kept fd s1 s').
    { split; [done|]. rewrite Ek. done. }
    assert (Ht' : tx_ok (sock s' fd)) by (rewrite Ek; apply dequeued_tx; [done|rewrite C2; done]).
    assert (N' : snd_nxt (sock s' fd) = snd_nxt (sock s2 fd)) by (by rewrite Ek).
    assert (Hflow : forall cs' s3, flow fd cs' s' s3 -> flow fd (chunk :: cs') s s3).
    { intros cs' s3 F. apply (flow_pre _ _ s s1); [done..|].
      eapply (flow_cons fd chunk cs' s1 s2 s' s3); try done. lia. }
    exists [chunk]. split; [|split; [|done]].
    + split; [by eapply send_kept_trans|]. split; [done|]. split; [intros G HG H; by apply Hl, L1|].
      split; [constructor; [lia|constructor]|].
      split; [cbn [concat]; by rewrite app_nil_r, <- Hq, Q1|]. split; [|intros x Hx; by rewrite Hb, O1].
      apply Hflow, flow_nil; [by rewrite N'|done|done].
    + apply (send_ready_kept s1); [done..|by rewrite N'].
Qed.

Lemma send_loop_spec fuel s fd data len d s' r :
  send_ready s fd data len -> 0 <= d <= len -> len < 2 ^ 32 ->
  tcp_send_loop fuel s fd data len d = Some (s', r) ->
  exists cs d', sending fd cs (bytes_at (bytes s) (data + d) (d' - d)) s s' /\ d <= d' <= len /\
    (r = SendReturn d' /\ d' = len \/ r = SendYield d' /\ d' < len /\ tx_count (sock s' fd) = TCP_TX_BUF_SIZE).
Proof.
  revert s d. induction fuel as [|fuel IH]; intros s d Hr Hd Hlen; cbn [tcp_send_loop]; [done|].
  pose proof Hr as (Hs & Hi & Htx & Hm & Hnx & Hmac & Ha).
  assert (Hend : exists cs, sending fd cs (bytes_at (bytes s) (data + d) (d - d)) s s).
  { exists []. split; [split; [by apply only_refl|done]|]. split; [done|]. split; [by intros G|]. split; [constructor|].
    rewrite Z.sub_diag. unfold bytes_at. rewrite seqZ_nil by lia. split; [by rewrite app_nil_r|]. split; [|done]. by apply flow_nil. }
  destruct (Z.leb_spec len d) as [|Hlt].
  { intros [= <- <-]. destruct Hend as [cs Hcs]. exists cs, d. split; [done|]. split; [lia|]. left. split; [done|lia]. }
  pose proof (tx_count_range _ Htx) as Hc. unfold TCP_TX_BUF_SIZE in Hc. cbn zeta. unfold TCP_TX_BUF_SIZE. rewrite u32_id by lia.
  destruct (Z.eqb_spec (65536 - tx_count (sock s fd)) 0) as [E0|Hne].
  { intros [= <- <-]. destruct Hend as [cs Hcs]. exists cs, d. split; [done|]. split; [lia|]. right. unfold TCP_TX_BUF_SIZE. split; [done|lia]. }
  set (n := if 65536 - tx_count (sock s fd) <? len - d then _ else _).
  assert (Hn : 0 < n <= len - d /\ tx_count (sock s fd) + n <= 65536).
  { unfold n. destruct (Z.ltb_spec (65536 - tx_count (sock s fd)) (len - d)); lia. }
  clearbody n.
  pose proof (round_spec s fd data len (data + d) n n) as Hround. unfold enqueue, TCP_TX_BUF_SIZE in Hround.
  destruct (ring_write _ _ _ _ _ _) as [m h]. destruct (tcp_push _ fd n) as [s1|]; [|done]. cbv [mbind option_bind].
  destruct (Hround s1) as (cs1 & S1 & Hr1 & Hflow); [done|lia|lia|lia|lia|done|]. intros E.
  destruct (IH s1 (d + n) Hr1 ltac:(lia) Hlen E) as (cs2 & d' & S2 & Hd' & Hfin).
  exists (cs1 ++ cs2), d'. split; [|split; [lia|done]].
  replace (d' - d) with (n + (d' - (d + n))) by lia. rewrite bytes_at_app by lia.
  replace (data + d + n) with (data + (d + n)) by lia.
  rewrite <- (bytes_at_ext (bytes s1) (bytes s) (data + (d + n))).
  - eapply sending_trans; [exact S1|exact S2|]. apply Hflow, S2.
  - intros i Hi'. apply S1. unfold apart in Ha. lia.
Qed.

Lemma push_total s fd k G : lasting G -> G (net_mem s) -> mss (sock s fd) = TCP_MSS -> 0 <= tx_count (sock s fd) ->
  exists s', tcp_push s fd k = Some s'.
Proof.
  intros HG H Hm Hc. rewrite tcp_push_eq by (rewrite ?Hm; unfold TCP_MSS; lia). cbn zeta.
  pose proof (push_size_range (sock s fd) k ltac:(rewrite Hm; unfold TCP_MSS; lia) Hc) as [Hp Hpm].
  destruct (Z.eqb_spec (push_size (sock s fd) k) 0); [by eexists|].
  match goal with |- context [tcp_send_segment s fd ?f ?d] => destruct (send_segment_total s fd f d) as [s1 ->]; [|by eexists] end.
  match goal with |- nm_kmalloc _ (segment_size ?d) <> _ => assert (Hz : zlen d <= TCP_MSS) by (rewrite zlen_ring; lia);
    destruct (lasting_block G HG _ _ H (segment_size_range d Hz)) as (m & p & -> & _) end. done.
Qed.

Lemma send_loop_total fuel s fd data len d G :
  lasting G -> G (net_mem s) -> send_ready s fd data len -> 0 <= d <= len -> len < 2 ^ 32 ->
  len - d < Z.of_nat fuel -> exists r, tcp_send_loop fuel s fd data len d = Some r.
Proof.
  intros HG. revert s d. induction fuel as [|fuel IH]; intros s d HGs Hr Hd Hlen Hf; cbn [tcp_send_loop]; [lia|].
  destruct (Z.leb_spec len d) as [|Hlt]; [by eexists|].
  pose proof Hr as (Hs & Hi & Htx & Hm & Hnx & Hmac & Ha).
  pose proof (tx_count_range _ Htx) as Hc. unfold TCP_TX_BUF_SIZE in Hc. cbn zeta. unfold TCP_TX_BUF_SIZE. rewrite u32_id by lia.
  destruct (Z.eqb_spec (65536 - tx_count (sock s fd)) 0) as [E0|Hne]; [by eexists|].
  set (n := if 65536 - tx_count (sock s fd) <? len - d then _ else _).
  assert (Hn : 0 < n <= len - d /\ tx_count (sock s fd) + n <= 65536).
  { unfold n. destruct (Z.ltb_spec (65536 - tx_count (sock s fd)) (len - d)); lia. }
  clearbody n.
  pose proof (round_spec s fd data len (data + d) n n) as Hround.
  destruct (tx_enqueue_spec s fd (data + d) n) as (K1 & L1 & T1 & _); [done|done|done|lia|unfold TCP_TX_BUF_SIZE; lia|unfold apart in *; lia|].
  destruct (push_total (enqueue s fd (data + d) n) fd n G HG (L1 G HG HGs)) as [s1 E].
  { by rewrite (proj1 (proj2 (proj2 (proj2 K1)))). }
  { destruct T1. lia. }
  destruct (Hround s1) as (cs1 & S1 & Hr1 & Hflow); [done|lia|unfold TCP_TX_BUF_SIZE; lia|lia|lia|exact E|].
  unfold enqueue, TCP_TX_BUF_SIZE in E. destruct (ring_write _ _ _ _ _ _) as [m h]. rewrite E. cbv [mbind option_bind].
  apply IH; [by apply S1|done|lia|done|lia].
Qed.
End send.

(** * Lemmas: the socket calls keep soundness *)

Section calls.
Context {M : Type} `{NM : NetMemory M} `{NL : !NetMemoryLaws M}.
Implicit Types (s : net (M := M)).

Ltac vital := intros ?; cbn beta; rec_simpl; repeat split; auto; right; discriminate.

Lemma all_create s s' r : all_sound s -> tcp_socket_create s = Some (s', r) -> all_sound s'.
Proof.
  intros H. unfold tcp_socket_create. destruct (find_from _ _ _) as [i|] eqn:E; [|by intros [= <- <-]].
  apply find_from_Some in E as (Hi & _). destruct (nm_kmalloc _ _) as [[m rx]|]; [|done]. cbv [mbind option_bind].
  destruct (nm_kmalloc m _) as [[m' tx]|]; [|done]. intros [= <- <-].
  apply all_mod; [by apply (all_socks s)|exact Hi|]. intros _.
  constructor; rec_simpl; [constructor; cbn; unfold TCP_RX_BUF_SIZE; lia || done|constructor; cbn; unfold TCP_TX_BUF_SIZE; lia || done|
    done|unfold TCP_MSS; cbn; lia|cbn; lia|done].
Qed.

Lemma all_bind s fd ip port : all_sound s -> all_sound (tcp_bind s fd ip port).1.
Proof.
  intros H. unfold tcp_bind, ephemeral. destruct (bad_sock s fd) eqn:Eb; [done|]. apply bad_sock_false in Eb as [Hi _].
  destruct (negb (port =? 0)); (apply all_vitals; [try done; by apply (all_socks s)|done|vital]).
Qed.

Lemma all_listen s fd : all_sound s -> all_sound (tcp_listen s fd).1.
Proof.
  intros H. unfold tcp_listen. destruct (bad_sock s fd) eqn:Eb; [done|]. apply bad_sock_false in Eb as [Hi _].
  apply all_vitals; [done|done|vital].
Qed.

Lemma all_connect s fd ip port ms us s' r : all_sound s -> tcp_connect s fd ip port ms us = Some (s', r) -> all_sound s'.
Proof.
  intros H. unfold tcp_connect, ephemeral. destruct (bad_sock s fd) eqn:Eb; [by intros [= <- <-]|].
  apply bad_sock_false in Eb as [Hi _]. destruct (tcp_send_segment _ _ _ _) as [s1|] eqn:E; [|done]. intros [= <- <-].
  eapply all_send; [|exact Hi|exact E]. apply all_vitals; [by apply (all_socks s)|done|vital].
Qed.

Lemma all_close s fd s' : all_sound s -> tcp_close s fd = Some s' -> all_sound s'.
Proof.
  intros H. unfold tcp_close. destruct (bad_sock s fd) eqn:Eb; [by intros [= <-]|]. apply bad_sock_false in Eb as [Hi _].
  destruct (sk_state (sock s fd)); try (by intros [= <-]); intros E; (eapply all_send; [|exact Hi|exact E]);
    (apply all_vitals; [done|done|vital]).
Qed.

Lemma all_close_wait s fd s' : all_sound s -> is_fd fd -> tcp_close_wait s fd = Some s' -> all_sound s'.
Proof.
  intros H Hi. unfold tcp_close_wait. cbn zeta. set (s1 := mod_sock s fd _).
  assert (H1 : all_sound s1) by (apply all_mod; [done|done|]; intros Hn; by rec_simpl).
  set (s2 := if rx_buf (sock s1 fd) =? NULL then s1 else _).
  assert (H2 : all_sound s2) by (unfold s2; destruct (_ =? NULL); [done|by apply (all_socks s1)]). clearbody s2.
  set (s3 := if tx_buf (sock s2 fd) =? NULL then s2 else _).
  assert (H3 : all_sound s3) by (unfold s3; destruct (_ =? NULL); [done|by apply (all_socks s2)]). clearbody s3.
  destruct (sk_state (sock s fd)); try done; by intros [= <-].
Qed.

Lemma unused_sound sk : in_use sk = 0 -> sound sk.
Proof. intros E Hn. congruence. Qed.

Lemma all_recv_wait s fd buf len s' r :
  all_sound s -> is_fd fd -> 0 <= len -> tcp_recv_wait s fd buf len = Some (s', r) -> all_sound s'.
Proof.
  intros H Hi Hl. unfold tcp_recv_wait. cbn zeta.
  destruct ((rx_count (sock s fd) =? 0) && _); [by intros [= <- <-]|].
  set (n := if rx_count (sock s fd) <? len then _ else len).
  pose proof (ring_read_tail (Z.to_nat n) (bytes s) (rx_buf (sock s fd)) TCP_RX_BUF_SIZE (rx_tail (sock s fd)) buf ltac:(done)) as Hr.
  destruct (ring_read _ _ _ _ _ _) as [m t]. cbn [snd] in Hr.
  set (s1 := mod_sock (set_bytes s m) fd _).
  assert (H1 : all_sound s1).
  { apply all_mod; [by apply (all_socks s)|done|]. change (sock (set_bytes s m) fd) with (sock s fd). intros Hu.
    change (in_use (sock s fd) <> 0) in Hu. destruct (all_at s fd H Hi Hu) as [[Ht Hc Hh Hn] Htx Hm Hw Hss Hst].
    assert (Hn0 : 0 <= n <= rx_count (sock s fd)) by (unfold n; destruct (Z.ltb_spec (rx_count (sock s fd)) len); lia).
    specialize (Hr Ht). clearbody n. unfold TCP_RX_BUF_SIZE in *. rewrite Z2Nat.id in Hr by lia.
    constructor; rec_simpl; try done; [|by destruct Htx]. constructor; rec_simpl; unfold TCP_RX_BUF_SIZE.
    - rewrite Hr. by apply Z.mod_pos_bound.
    - rewrite u32_id; lia.
    - rewrite Hh, Hr, u32_id, Z.add_mod_idemp_l by lia. f_equal. lia.
    - done. }
  destruct (0 <? n); [|by intros [= <- <-]].
  destruct (tcp_send_segment s1 fd TCP_FLAG_ACK []) as [s2|] eqn:E; [|done]. intros [= <- <-]. by eapply all_send.
Qed.

Lemma all_recv s fd buf len s' r :
  all_sound s -> 0 <= len -> tcp_recv s fd buf len = Some (s', r) -> all_sound s'.
Proof.
  intros H Hl. unfold tcp_recv. destruct (bad_sock s fd) eqn:Eb; [by intros [= <- <-]|].
  apply bad_sock_false in Eb as [Hi _]. by apply all_recv_wait.
Qed.

Lemma all_push s fd k s' : all_sound s -> is_fd fd -> tcp_push s fd k = Some s' -> all_sound s' /\ in_use (sock s' fd) = in_use (sock s fd).
Proof.
  intros H Hi.
  assert (Hsend : forall s1 fl d, tcp_send_segment s fd fl d = Some s1 -> all_sound s1 /\
    exists v, sock s1 fd = (sock s fd) <| snd_nxt := v |>).
  { intros s1 fl d E. split; [by eapply all_send|]. apply (send_same s fd fl d s1 (proj1 H) Hi E). }
  destruct (decide (in_use (sock s fd) = 0)) as [E0|Hu].
  - unfold tcp_push. cbn zeta. destruct (_ || _); [|by intros [= <-]]. destruct (0 <? _); [|by intros [= <-]].
    destruct (tcp_send_segment _ _ _ _) as [s1|] eqn:E; [|done]. intros [= <-].
    destruct (Hsend _ _ _ E) as (H1 & v & Ev). rewrite sock_mod by (apply H1 || done || (unfold is_fd in Hi; lia)).
    rewrite Z.eqb_refl, Ev. split; [|done]. apply all_mod; [done|done|]. apply unused_sound. rec_simpl. by rewrite Ev.
  - destruct (all_at s fd H Hi Hu) as [Hrx Htx Hm Hw Hss Hst]. pose proof Htx as [Ht Hc _].
    rewrite tcp_push_eq by (rewrite ?Hm; unfold TCP_MSS; lia). cbn zeta.
    pose proof (push_size_range (sock s fd) k ltac:(rewrite Hm; unfold TCP_MSS; lia) ltac:(lia)) as [Hp _].
    set (p := push_size (sock s fd) k) in *. destruct (p =? 0); [by intros [= <-]|].
    destruct (tcp_send_segment _ _ _ _) as [s1|] eqn:E; [|done]. intros [= <-].
    destruct (Hsend _ _ _ E) as (H1 & v & Ev). rewrite sock_mod by (apply H1 || done || (unfold is_fd in Hi; lia)).
    rewrite Z.eqb_refl, Ev. split; [|done]. apply all_mod; [done|done|]. rewrite Ev. intros _.
    assert (Ht' : tx_ok (dequeued p (sock s fd))) by (by apply dequeued_tx).
    destruct Hrx, Ht'. by constructor.
Qed.

Lemma all_send_loop fuel s fd data len d s' r :
  all_sound s -> is_fd fd -> tcp_send_loop fuel s fd data len d = Some (s', r) -> all_sound s'.
Proof.
  revert s d. induction fuel as [|fuel IH]; intros s d H Hi; cbn [tcp_send_loop]; [done|].
  destruct (Z.leb_spec len d) as [|Hlt]; [by intros [= <- <-]|]. cbn zeta.
  destruct (u32 (TCP_TX_BUF_SIZE - tx_count (sock s fd)) =? 0) eqn:Esp; [by intros [= <- <-]|].
  set (n := if _ <? len - d then _ else _).
  assert (Hn : in_use (sock s fd) <> 0 -> 0 < n /\ tx_count (sock s fd) + n <= 65536).
  { intros Hu. destruct (good_tx _ (all_at s fd H Hi Hu)) as [_ Hc _]. unfold TCP_TX_BUF_SIZE in *.
    apply Z.eqb_neq in Esp. rewrite u32_id in Esp by lia. unfold n. rewrite u32_id by lia.
    destruct (Z.ltb_spec (65536 - tx_count (sock s fd)) (len - d)); lia. }
  clearbody n.
  pose proof (ring_write_head (Z.to_nat n) (bytes s) (tx_buf (sock s fd)) TCP_TX_BUF_SIZE (tx_head (sock s fd)) (data + d)) as Hr.
  destruct (ring_write _ _ _ _ _ _) as [m h]. cbn [snd] in Hr.
  set (s1 := mod_sock (set_bytes s m) fd _).
  assert (H1 : all_sound s1).
  { apply all_mod; [by apply (all_socks s)|done|]. intros Hu. change (sock (set_bytes s m) fd) with (sock s fd) in *.
    specialize (Hn Hu). destruct (all_at s fd H Hi Hu) as [Hrx [Ht Hc Hh] Hm Hw Hss Hst]. unfold TCP_TX_BUF_SIZE in *.
    destruct Hrx. constructor; rec_simpl; try done; constructor; rec_simpl; unfold TCP_TX_BUF_SIZE; try done.
    - rewrite u32_id; lia.
    - rewrite Hr, Hh, Z.add_mod_idemp_l, Z2Nat.id, u32_id by (lia || (rewrite Hh; apply Z.mod_pos_bound; lia)). f_equal. lia. }
  destruct (tcp_push s1 fd n) as [s2|] eqn:E; [|done]. cbv [mbind option_bind].
  apply IH; [|done]. by eapply all_push.
Qed.

Lemma all_tcp_send s fd data len s' r : all_sound s -> tcp_send s fd data len = Some (s', r) -> all_sound s'.
Proof.
  intros H. unfold tcp_send. destruct (bad_sock s fd) eqn:Eb; [by intros [= <- <-]|]. apply bad_sock_false in Eb as [Hi _].
  cbn [orb]. destruct (negb _); [by intros [= <- <-]|]. by apply all_send_loop.
Qed.
End calls.

(** * Lemmas: parsing a segment *)

Lemma tcp_hdr_fields m p sk flags : stored_at m p (tcp_hdr sk flags) ->
  load_le 2 m p = htons (local_port sk) mod 2 ^ 16 /\ load_le 2 m (p + 2) = htons (remote_port sk) mod 2 ^ 16 /\
  load_le 4 m (p + 4) = htonl (snd_nxt sk) mod 2 ^ 32 /\
  load_le 4 m (p + 8) = (if negb (Z.land flags TCP_FLAG_ACK =? 0) then htonl (rcv_nxt sk) else 0) mod 2 ^ 32 /\
  m (p + 12) = 0x50 /\ m (p + 13) = flags mod 256 /\
  load_le 2 m (p + 14) = htons (if 65535 <? rcv_wnd sk then 65535 else u16 (rcv_wnd sk)) mod 2 ^ 16.
Proof.
  intros H. apply stored_fields in H; [|done]. cbn [unpack zip_with] in H. change (TCP_HDR / 4 * 16) with 0x50 in H.
  rewrite <- !Z.add_assoc in H. cbn [Z.of_nat Pos.of_succ_nat Pos.succ Z.add Pos.add Pos.add_carry] in H.
  rewrite !list_cons_eq in H. destruct H as (H1 & H2 & H3 & H4 & H5 & H6 & H7 & _). rewrite load1 in H5, H6.
  split; [exact H1|]. split; [exact H2|]. split; [exact H3|]. split; [exact H4|]. split; [exact H5|]. split; [exact H6|exact H7].
Qed.

Lemma ip_hdr_fields m p len id proto c src dst : stored_at m p (ip_fields len id proto c src dst) ->
  m p = 0x45 /\ load_le 2 m (p + 2) = htons (u16 len) mod 2 ^ 16 /\ load_le 2 m (p + 6) = 0 /\
  m (p + 9) = proto mod 256 /\ load_le 4 m (p + 12) = src mod 2 ^ 32.
Proof.
  intros H. apply stored_fields in H; [|done]. cbn [unpack zip_with] in H.
  rewrite <- !Z.add_assoc in H. cbn [Z.of_nat Pos.of_succ_nat Pos.succ Z.add Pos.add Pos.add_carry] in H.
  rewrite !list_cons_eq in H. destruct H as (H1 & _ & H3 & _ & H5 & _ & H7 & _ & H9 & _). rewrite load1 in H1, H7.
  split; [exact H1|]. split; [exact H3|]. split; [exact H5|]. split; [exact H7|exact H9].
Qed.

Lemma stored_ip_checksum m p h len id proto src dst :
  ip_hdr len id proto src dst = Some h -> stored_at m p h -> ip_checksum m p IP_HDR = Some 0.
Proof.
  intros E Hs. destruct (ip_hdr_ok len id proto src dst) as (h' & E' & Hz & Hb & _ & Hsum).
  assert (h' = h) by congruence. subst h'. rewrite <- (Hsum (of_list h) 0 (of_list_bytes h Hb) (of_list_stored h)).
  apply (ip_checksum_ext m (of_list h) p 0 10). intros i Hi. rewrite Hs by (rewrite Hz; unfold IP_HDR; lia). done.
Qed.

Section received.
Context {M : Type} `{NM : NetMemory M}.
Implicit Types (s : net (M := M)).

Lemma tcp_rx_stored s ip data len ms us sk flags :
  stored_at (bytes s) data (tcp_hdr sk flags) -> load_le 4 (bytes s) (ip + 12) = local_ip sk ->
  0 <= local_port sk < 2 ^ 16 -> 0 <= remote_port sk < 2 ^ 16 -> 0 <= snd_nxt sk < 2 ^ 32 ->
  0 <= rcv_nxt sk < 2 ^ 32 -> 0 <= rcv_wnd sk -> 0 <= flags < 256 ->
  tcp_rx s ip data len ms us =
  match find_sock s (local_ip sk) (local_port sk) (remote_port sk) with
  | None => Some s
  | Some i => tcp_input (mod_sock s i (fun sk => sk <| last_activity := ms |>)) i (local_ip sk) (local_port sk) data len
      TCP_HDR (snd_nxt sk) (if has_flag flags TCP_FLAG_ACK then rcv_nxt sk else 0) flags (Z.min (rcv_wnd sk) 65535) us
  end.
Proof.
  intros Hs Hip Hp1 Hp2 Hn Hr Hw Hf. destruct (tcp_hdr_fields _ _ _ _ Hs) as (E1 & E2 & E3 & E4 & E5 & E6 & E7).
  unfold tcp_rx. cbn zeta. rewrite E1, E2, E3, E4, E5, E6, E7, Hip.
  rewrite !Z.mod_small by (apply htons_range || apply htonl_range || lia || (destruct (negb _); [apply htonl_range|lia])).
  rewrite !ntohs_htons by (lia || (destruct (65535 <? rcv_wnd sk); [lia|apply u16_range])). rewrite ntohl_htonl by lia.
  assert (Ea : ntohl (if negb (Z.land flags TCP_FLAG_ACK =? 0) then htonl (rcv_nxt sk) else 0) =
    if has_flag flags TCP_FLAG_ACK then rcv_nxt sk else 0).
  { unfold has_flag. destruct (negb _); [by apply ntohl_htonl|done]. }
  assert (Ew : (if 65535 <? rcv_wnd sk then 65535 else u16 (rcv_wnd sk)) = Z.min (rcv_wnd sk) 65535).
  { unfold u16. destruct (Z.ltb_spec 65535 (rcv_wnd sk)); lia. }
  rewrite Ea, Ew. reflexivity.
Qed.

Lemma ip_rx_stored s dev pkt len ms us sk (data h : list Z) :
  ip_hdr (IP_HDR + TCP_HDR + zlen data) 0 IP_PROTO_TCP (local_ip sk) (remote_ip sk) = Some h ->
  stored_at (bytes s) (pkt + ETH_HDR_LEN) h -> 54 + zlen data <= len -> IP_HDR + TCP_HDR + zlen data < 2 ^ 16 ->
  0 <= local_ip sk < 2 ^ 32 ->
  ip_rx s dev pkt len ms us = tcp_rx s (pkt + ETH_HDR_LEN) (pkt + ETH_HDR_LEN + IP_HDR) (TCP_HDR + zlen data) ms us /\
  load_le 4 (bytes s) (pkt + ETH_HDR_LEN + 12) = local_ip sk.
Proof.
  intros E Hs Hlen Htot Hip. pose proof (stored_ip_checksum _ _ _ _ _ _ _ _ E Hs) as Hsum.
  destruct (ip_hdr_ok (IP_HDR + TCP_HDR + zlen data) 0 IP_PROTO_TCP (local_ip sk) (remote_ip sk)) as (h' & E' & _ & _ & (c & Eh & _) & _).
  assert (h = ip_fields (IP_HDR + TCP_HDR + zlen data) 0 IP_PROTO_TCP c (local_ip sk) (remote_ip sk)) as -> by congruence.
  destruct (ip_hdr_fields _ _ _ _ _ _ _ _ Hs) as (E1 & E2 & E3 & E4 & E5). pose proof (zlen_nonneg data).
  split; [|by rewrite E5, Z.mod_small].
  unfold ip_rx. cbn zeta. unfold ETH_HDR_LEN, IP_HDR, TCP_HDR in *.
  destruct (Z.ltb_spec len (14 + 20)); [lia|]. rewrite E1, E2, E3, E4.
  change (u8 (Z.land 69 15 * 4)) with 20. rewrite Hsum. cbv [mbind option_bind].
  rewrite (Z.mod_small (htons _)) by apply htons_range. rewrite ntohs_htons by apply u16_range.
  change (ntohs 0) with 0. change (Z.land 0 0x3FFF) with 0. change (Z.shiftr 69 4) with 4. cbn [Z.eqb Pos.eqb negb].
  change (IP_PROTO_TCP mod 256 =? IP_PROTO_ICMP) with false. change (IP_PROTO_TCP mod 256 =? IP_PROTO_UDP) with false.
  change (IP_PROTO_TCP mod 256 =? IP_PROTO_TCP) with true. cbn iota. f_equal.
  unfold u16. rewrite Z.mod_small; lia.
Qed.
End received.

Section frame.
Context {M : Type} `{NM : NetMemory M}.
Implicit Types (s : net (M := M)).

Lemma count_rx_bytes s dev len : bytes (count_rx s dev len) = bytes s.
Proof. done. Qed.

Lemma find_sock_count s dev len src sp dp : find_sock (count_rx s dev len) src sp dp = find_sock s src sp dp.
Proof. unfold find_sock, sock. change (tcp_sockets (count_rx s dev len)) with (tcp_sockets s). reflexivity. Qed.

Lemma segment_inv sk flags data dmac mac f : segment sk flags data dmac mac = Some f ->
  exists h, ip_hdr (IP_HDR + TCP_HDR + zlen data) 0 IP_PROTO_TCP (local_ip sk) (remote_ip sk) = Some h /\
    zlen h = IP_HDR /\ f = eth_hdr dmac mac (htons ETH_P_IP) ++ h ++ tcp_hdr sk flags ++ data.
Proof.
  unfold segment.
  destruct (ip_hdr_ok (IP_HDR + TCP_HDR + zlen data) 0 IP_PROTO_TCP (local_ip sk) (remote_ip sk)) as (h & E & Hz & _).
  rewrite E. intros Ef. exists h. split; [reflexivity|]. split; [exact Hz|]. apply (inj Some). symmetry. exact Ef.
Qed.

(** The parts of a stored frame that carries a segment. *)
Lemma segment_stored m pkt sk flags data dmac mac f :
  segment sk flags data dmac mac = Some f -> zlen dmac = 6 -> zlen mac = 6 -> stored_at m pkt f ->
  zlen f = 54 + zlen data /\ load_le 2 m (pkt + 12) = htons ETH_P_IP mod 256 ^ Z.of_nat 2 /\
  (exists h, ip_hdr (IP_HDR + TCP_HDR + zlen data) 0 IP_PROTO_TCP (local_ip sk) (remote_ip sk) = Some h /\
    stored_at m (pkt + ETH_HDR_LEN) h) /\
  stored_at m (pkt + ETH_HDR_LEN + IP_HDR) (tcp_hdr sk flags) /\ stored_at m (pkt + 54) data.
Proof.
  intros (h & E & Hz & ->)%segment_inv Hd Hm Hs.
  assert (Het : zlen (eth_hdr dmac mac (htons ETH_P_IP)) = ETH_HDR_LEN)
    by (unfold eth_hdr; rewrite !zlen_app, zlen_le_bytes, Hd, Hm; reflexivity).
  assert (Htt : zlen (tcp_hdr sk flags) = 20) by reflexivity. revert Htt Hs. generalize (tcp_hdr sk flags). intros T Htt Hs.
  destruct (proj1 (stored_app _ _ _ _) Hs) as [Hse Hs1]. destruct (proj1 (stored_app _ _ _ _) Hs1) as [Hsh Hs2].
  destruct (proj1 (stored_app _ _ _ _) Hs2) as [Hst Hsd].
  rewrite Het in Hsh, Hst, Hsd. rewrite Hz in Hst, Hsd. rewrite Htt in Hsd.
  split; [rewrite !zlen_app, Het, Hz, Htt; unfold ETH_HDR_LEN, IP_HDR; lia|]. split; [|split; [by exists h|split; [done|]]].
  - unfold eth_hdr in Hse. destruct (proj1 (stored_app _ _ _ _) Hse) as [_ Hse1].
    destruct (proj1 (stored_app _ _ _ _) Hse1) as [_ Hse2]. apply load_stored in Hse2. rewrite Hd, Hm in Hse2.
    rewrite <- Hse2. f_equal. lia.
  - replace (pkt + 54) with (pkt + ETH_HDR_LEN + IP_HDR + 20) by (unfold ETH_HDR_LEN, IP_HDR; lia). done.
Qed.

(** A frame with a segment reaches the socket it is for. *)
Lemma segment_received s dev pkt ms us sk flags data dmac mac f :
  segment sk flags data dmac mac = Some f -> zlen dmac = 6 -> zlen mac = 6 ->
  IP_HDR + TCP_HDR + zlen data < 2 ^ 16 -> 0 <= local_ip sk < 2 ^ 32 ->
  0 <= local_port sk < 2 ^ 16 -> 0 <= remote_port sk < 2 ^ 16 -> 0 <= snd_nxt sk < 2 ^ 32 ->
  0 <= rcv_nxt sk < 2 ^ 32 -> 0 <= rcv_wnd sk -> 0 <= flags < 256 ->
  dev <> NULL -> stored_at (bytes s) pkt f ->
  bytes_at (bytes s) (pkt + 54) (zlen data) = data /\
  net_rx_frame s dev pkt (zlen f) ms us =
  match find_sock s (local_ip sk) (local_port sk) (remote_port sk) with
  | None => Some (count_rx s dev (zlen f))
  | Some i => tcp_input (mod_sock (count_rx s dev (zlen f)) i (fun sk => sk <| last_activity := ms |>)) i
      (local_ip sk) (local_port sk) (pkt + 34) (TCP_HDR + zlen data) TCP_HDR (snd_nxt sk)
      (if has_flag flags TCP_FLAG_ACK then rcv_nxt sk else 0) flags (Z.min (rcv_wnd sk) 65535) us
  end.
Proof.
  intros Ef Hd Hm Hlen Hip Hp1 Hp2 Hn Hr Hw Hfl Hdev Hs.
  destruct (segment_stored _ _ _ _ _ _ _ _ Ef Hd Hm Hs) as (Hz & Hse & (h & Eh & Hsh) & Hst & Hsd).
  split; [by apply bytes_at_stored|]. rewrite Hz. pose proof (zlen_nonneg data).
  set (n := 54 + zlen data). assert (Hn0 : n = 54 + zlen data) by done. clearbody n.
  pose proof (find_sock_count s dev n) as Hf. pose proof (count_rx_bytes s dev n) as Hb.
  unfold net_rx_frame. set (s1 := count_rx s dev n) in *. clearbody s1. rewrite <- Hf, Hb, Hse.
  destruct (Z.eqb_spec dev NULL); [done|]. unfold ETH_HDR_LEN at 1. destruct (Z.ltb_spec n 14); [lia|]. cbn [orb].
  change (ntohs (htons ETH_P_IP mod 256 ^ Z.of_nat 2)) with ETH_P_IP. change (ETH_P_IP =? ETH_P_ARP) with false.
  rewrite Z.eqb_refl. cbn iota. rewrite <- Hb in Hsh, Hst.
  destruct (ip_rx_stored s1 dev pkt n ms us sk data h Eh Hsh) as [-> E4]; [lia|exact Hlen|exact Hip|].
  replace (pkt + 34) with (pkt + ETH_HDR_LEN + IP_HDR) by (unfold ETH_HDR_LEN, IP_HDR; lia).
  by apply tcp_rx_stored.
Qed.
End frame.

(** * Steps of the stack *)

Section steps.
Context {M : Type} `{NM : NetMemory M}.
Implicit Types (s : net (M := M)).

(** What can happen: frames, the timer, the socket calls in any order, a wait that
    ends, and everything that leaves the sockets alone (ARP, DNS, DHCP, memory). *)
Inductive net_step : net (M := M) -> net (M := M) -> Prop :=
| step_frame s dev data len ms us s' : net_rx_frame s dev data len ms us = Some s' -> net_step s s'
| step_packet s dev pkt len ms us s' : net_rx_packet s dev pkt len ms us = Some s' -> net_step s s'
| step_timer s ms s' : tcp_timer_callback s ms = Some s' -> net_step s s'
| step_create s s' r : tcp_socket_create s = Some (s', r) -> net_step s s'
| step_bind s fd ip port : net_step s (tcp_bind s fd ip port).1
| step_listen s fd : net_step s (tcp_listen s fd).1
| step_connect s fd ip port ms us s' r : tcp_connect s fd ip port ms us = Some (s', r) -> net_step s s'
| step_send s fd data len s' r : tcp_send s fd data len = Some (s', r) -> net_step s s'
| step_send_on s fuel fd data len done s' r :
    is_fd fd -> tcp_send_loop fuel s fd data len done = Some (s', r) -> net_step s s'
| step_recv s fd buf len s' r : 0 <= len -> tcp_recv s fd buf len = Some (s', r) -> net_step s s'
| step_recv_on s fd buf len s' r :
    is_fd fd -> 0 <= len -> tcp_recv_wait s fd buf len = Some (s', r) -> net_step s s'
| step_close s fd s' : tcp_close s fd = Some s' -> net_step s s'
| step_closed s fd s' : is_fd fd -> tcp_close_wait s fd = Some s' -> net_step s s'
| step_else s s' : tcp_sockets s' = tcp_sockets s -> net_step s s'.

Inductive net_reachable : net (M := M) -> Prop :=
| net_reach_boot m : net_reachable (net_init (net_boot m))
| net_reach_step s s' : net_reachable s -> net_step s s' -> net_reachable s'.
End steps.

(** * A full ring stays full *)

Section full.
Context {M : Type} `{NM : NetMemory M} `{NL : !NetMemoryLaws M}.
Implicit Types (s : net (M := M)).

(** Steps that leave the socket [fd] in use. *)
Definition step_in_use (fd : Z) s s' : Prop := net_step s s' /\ in_use (sock s' fd) <> 0.

(** The sockets are there, and the count of [fd]'s send ring is as it was. *)
Definition tx_kept (fd : Z) s s' : Prop := socks_ok s' /\ tx_count (sock s' fd) = tx_count (sock s fd).

Lemma tx_kept_refl fd s : socks_ok s -> tx_kept fd s s.
Proof. done. Qed.

Lemma kept_mod fd s0 s i f :
  is_fd fd -> is_fd i -> (forall sk, tx_count (f sk) = tx_count sk) -> tx_kept fd s0 s -> tx_kept fd s0 (mod_sock s i f).
Proof.
  intros Hfd Hi Hf [Hs Hk]. split; [by apply socks_ok_mod|]. rewrite sock_mod by (done || (unfold is_fd in Hfd; lia)).
  destruct (Z.eqb_spec i fd) as [->|]; [by rewrite Hf|done].
Qed.

Lemma kept_socks fd s0 s s' : tx_kept fd s0 s -> tcp_sockets s' = tcp_sockets s -> tx_kept fd s0 s'.
Proof. unfold tx_kept, socks_ok, sock. by intros H ->. Qed.

Lemma kept_send fd s0 s i flags data s' :
  is_fd fd -> is_fd i -> tx_kept fd s0 s -> tcp_send_segment s i flags data = Some s' -> tx_kept fd s0 s'.
Proof.
  intros Hfd Hi [Hs Hk] E. destruct (send_same s i flags data s' Hs Hi E) as (Ho & _ & v & Hv).
  split; [apply Ho|]. rewrite <- Hk. destruct (decide (fd = i)) as [->|Hne]; [by rewrite Hv|].
  rewrite (proj1 (proj2 Ho)); [done|unfold is_fd in Hfd; lia|done].
Qed.

Lemma process_ack_tx sk ack : tx_count (tcp_process_ack sk ack) = tx_count sk.
Proof. unfold tcp_process_ack. cbn zeta. by repeat case_match. Qed.

(** A chain of changes and sends, from the last to the first. *)
Ltac kept :=
  repeat match goal with
  | H : None = Some _ |- _ => discriminate H
  | H : Some _ = Some _ |- _ => injection H as <-
  | H : _ ≫= _ = Some _ |- _ => apply bind_Some in H as (? & ? & H)
  | H : tcp_send_segment _ _ _ _ = Some ?s |- tx_kept _ _ ?s => refine (kept_send _ _ _ _ _ _ _ _ _ _ H); [done|done|clear H]
  | |- tx_kept _ _ (mod_sock _ _ _) => apply kept_mod; [done|done|intros ?; cbn beta; rec_simpl; rewrite ?process_ack_tx; reflexivity|]
  | |- tx_kept _ _ (if ?b then _ else _) => destruct b
  | H : tx_kept ?fd ?s0 ?s |- tx_kept ?fd ?s0 ?s => exact H
  end.

Lemma kept_data fd s0 s i data hlen pl seq s' :
  is_fd fd -> is_fd i -> tx_kept fd s0 s -> tcp_rx_data s i data hlen pl seq = Some s' -> tx_kept fd s0 s'.
Proof.
  intros Hfd Hi H E. unfold tcp_rx_data in E. cbn zeta in E. destruct (_ && _); [|by kept].
  destruct (ring_write _ _ _ _ _ _) as [m h]. kept. by apply (kept_socks fd s0 s).
Qed.

Lemma kept_fin fd s0 s i s' :
  is_fd fd -> is_fd i -> tx_kept fd s0 s -> tcp_rx_fin s i = Some s' -> tx_kept fd s0 s'.
Proof. intros Hfd Hi H E. unfold tcp_rx_fin in E. cbn zeta in E. kept. Qed.

Lemma kept_input fd s0 s i src sp data len hlen seq ack flags w us s' :
  is_fd fd -> is_fd i -> tx_kept fd s0 s ->
  tcp_input s i src sp data len hlen seq ack flags w us = Some s' -> tx_kept fd s0 s'.
Proof.
  intros Hfd Hi H E. unfold tcp_input in E. cbn zeta in E.
  destruct (sk_state (sock s i)); try (by kept);
    try (destruct (has_flag flags TCP_FLAG_SYN); by kept); try (destruct (has_flag flags TCP_FLAG_ACK); by kept).
  all: apply bind_Some in E as (s1 & E1 & E); apply (kept_data fd s0) in E1; [|done|done|kept];
    destruct (has_flag flags TCP_FLAG_FIN); [by eapply kept_fin|by kept].
Qed.

Lemma kept_ip fd s0 s dev pkt len ms us s' :
  is_fd fd -> tx_kept fd s0 s -> ip_rx s dev pkt len ms us = Some s' -> tx_kept fd s0 s'.
Proof.
  intros Hfd H. unfold ip_rx. cbn zeta. destruct (_ <? _); [by intros [= <-]|]. destruct (negb _); [by intros [= <-]|].
  destruct (ip_checksum _ _ _); [|done]. cbv [mbind option_bind]. destruct (negb _); [by intros [= <-]|].
  destruct (negb _); [intros E%frag_socks; by apply (kept_socks fd s0 s)|].
  destruct (_ =? IP_PROTO_ICMP); [intros E%icmp_rx_socks; by apply (kept_socks fd s0 s)|].
  destruct (_ =? IP_PROTO_UDP); [intros E%udp_rx_socks; by apply (kept_socks fd s0 s)|].
  destruct (_ =? IP_PROTO_TCP); [|by intros [= <-]]. unfold tcp_rx. cbn zeta.
  destruct (find_sock _ _ _ _) as [i|] eqn:Ef; [|by intros [= <-]]. destruct (find_sock_spec _ _ _ _ _ Ef) as [Hi _].
  apply kept_input; [done|done|]. by apply kept_mod.
Qed.

Lemma kept_timer fd s0 s ms s' :
  is_fd fd -> tx_kept fd s0 s -> tcp_timer_callback s ms = Some s' -> tx_kept fd s0 s'.
Proof.
  intros Hfd. unfold tcp_timer_callback.
  assert (Hloop : forall n i s, 0 <= i -> i + Z.of_nat n <= TCP_MAX_SOCKETS -> tx_kept fd s0 s ->
    tcp_timer_loop ms n i s = Some s' -> tx_kept fd s0 s'); [|apply Hloop; [lia|unfold TCP_MAX_SOCKETS; lia]].
  clear s. induction n as [|n IH]; intros i s H0 Hn H; cbn [tcp_timer_loop]; [by intros [= <-]|].
  intros E. apply bind_Some in E as (s1 & E1 & E). revert E. apply IH; [lia|lia|].
  assert (Hi : is_fd i) by (unfold is_fd; lia). unfold tcp_timer_one in E1. cbn zeta in E1.
  destruct (in_use (sock s i) =? 0); [by kept|].
  set (s2 := if (0 <? flight_size _) && _ then _ else s) in *.
  assert (H2 : tx_kept fd s0 s2) by (unfold s2; kept). clearbody s2. apply bind_Some in E1 as (s3 & E3 & E1).
  assert (H3 : tx_kept fd s0 s3) by (destruct (_ && _) in E3; kept). kept.
Qed.

(** Calls on another socket, or on one with room for nothing. *)
Definition full (fd : Z) s : Prop := socks_ok s /\ in_use (sock s fd) <> 0 /\ tx_count (sock s fd) = TCP_TX_BUF_SIZE.

Lemma full_ring_yields fuel s fd data len d :
  full fd s -> d < len -> tcp_send_loop (S fuel) s fd data len d = Some (s, SendYield d).
Proof.
  intros (_ & _ & Hc) Hd. cbn [tcp_send_loop]. destruct (Z.leb_spec len d); [lia|]. cbn zeta. by rewrite Hc.
Qed.

Lemma kept_send_loop fuel fd i s data len d s' r :
  is_fd fd -> is_fd i -> full fd s -> tcp_send_loop fuel s i data len d = Some (s', r) -> tx_kept fd s s'.
Proof.
  intros Hfd Hi Hful. destruct (decide (i = fd)) as [->|Hne].
  - destruct fuel as [|fuel]; [done|]. destruct (Z.lt_ge_cases d len) as [Hlt|Hge].
    + rewrite full_ring_yields by done. intros [= <- <-]. by apply tx_kept_refl, Hful.
    + cbn [tcp_send_loop]. destruct (Z.leb_spec len d); [|lia]. intros [= <- <-]. by apply tx_kept_refl, Hful.
  - assert (Hmod : forall s1 f, tx_kept fd s s1 -> tx_kept fd s (mod_sock s1 i f)).
    { intros s1 f [Hs1 Hk]. split; [by apply socks_ok_mod|]. rewrite sock_mod by (done || (unfold is_fd in Hfd; lia)).
      destruct (Z.eqb_spec i fd); [done|exact Hk]. }
    assert (Hk0 : tx_kept fd s s) by apply tx_kept_refl, Hful. revert Hk0. generalize s at 2 3 as s1. clear Hful.
    revert d. induction fuel as [|fuel IH]; intros d s1 H; cbn [tcp_send_loop]; [done|].
    destruct (len <=? d); [by intros [= <- <-]|]. cbn zeta. destruct (_ =? 0); [by intros [= <- <-]|].
    set (n := if _ <? len - d then _ else _). destruct (ring_write _ _ _ _ _ _) as [m h].
    set (s2 := mod_sock (set_bytes s1 m) i _).
    assert (H2 : tx_kept fd s s2) by (apply Hmod; by apply (kept_socks fd s s1)). clearbody s2.
    intros E. apply bind_Some in E as (s3 & E3 & E). revert E. apply IH.
    unfold tcp_push in E3. cbn zeta in E3. destruct (_ || _); [|by injection E3 as <-].
    destruct (0 <? _); [|by injection E3 as <-]. apply bind_Some in E3 as (s4 & E4 & [= <-]).
    apply Hmod. by eapply kept_send.
Qed.

Lemma kept_recv_wait fd s i buf len s' r :
  is_fd fd -> is_fd i -> socks_ok s -> tcp_recv_wait s i buf len = Some (s', r) -> tx_kept fd s s'.
Proof.
  intros Hfd Hi Hs. pose proof (tx_kept_refl fd s Hs) as H. unfold tcp_recv_wait. cbn zeta.
  destruct (_ && _); [by intros [= <- <-]|]. destruct (ring_read _ _ _ _ _ _) as [m t].
  intros E. apply bind_Some in E as (s2 & E2 & [= <- <-]).
  destruct (0 <? _); kept; by apply (kept_socks fd s s).
Qed.

Lemma bad_sock_is s i : bad_sock s i = false -> is_fd i.
Proof. by intros [? _]%bad_sock_false. Qed.

(** Nothing but closing the socket empties a full ring. *)
Lemma full_ring_step fd s s' : is_fd fd -> full fd s -> step_in_use fd s s' -> full fd s'.
Proof.
  intros Hfd Hful [Hst Hu]. pose proof Hful as (Hs & Hu0 & Hc).
  enough (H : tx_kept fd s s') by (destruct H as [Hs' Hk]; split; [done|]; split; [done|congruence]).
  pose proof (tx_kept_refl fd s Hs) as H0. clear Hu.
  assert (Hcount : forall dev len, tx_kept fd s (count_rx s dev len)) by (intros; by apply (kept_socks fd s s)).
  destruct Hst as [s dev data len ms us s' E|s dev pkt len ms us s' E|s ms s' E|s s' r E|s i ip port|s i|s i ip port ms us s' r E|
    s i data len s' r E|s fuel i data len d s' r Hi E|s i buf len s' r Hl E|s i buf len s' r Hi Hl E|s i s' E|s i s' Hi E|s s' E].
  - unfold net_rx_frame in E. destruct (_ || _) in E; [injection E as <-; by apply (kept_socks fd s (count_rx s dev len))|].
    cbn zeta in E. destruct (_ =? ETH_P_ARP) in E; [injection E as <-; by apply (kept_socks fd s (count_rx s dev len)), arp_rx_socks|].
    destruct (_ =? ETH_P_IP) in E; [eapply kept_ip; [done|apply Hcount|exact E]|injection E as <-; apply Hcount].
  - unfold net_rx_packet in E. cbn zeta in E. destruct (len <? ETH_HDR_LEN); [injection E as <-; by apply (kept_socks fd s (count_rx s dev len))|].
    destruct (_ && _) in E; [injection E as <-; apply Hcount|].
    revert E. generalize (if ntohs (load_le 2 (bytes (count_rx s dev len)) (pkt + 12)) =? ETH_P_VLAN
      then ntohs (load_le 2 (bytes (count_rx s dev len)) (pkt + 16)) else ntohs (load_le 2 (bytes (count_rx s dev len)) (pkt + 12))).
    intros type E. destruct (type =? ETH_P_ARP); [injection E as <-; by apply (kept_socks fd s (count_rx s dev len)), arp_rx_socks|].
    destruct (type =? ETH_P_IP); [eapply kept_ip; [done|apply Hcount|exact E]|injection E as <-; apply Hcount].
  - eapply kept_timer; [done|exact H0|exact E].
  - unfold tcp_socket_create in E. destruct (find_from _ _ _) as [i|] eqn:Ef; [|by injection E as <- <-].
    apply find_from_Some in Ef as (Hi & Hf & _). cbn beta in Hf. apply Z.eqb_eq in Hf.
    apply bind_Some in E as ([m rx] & _ & E). apply bind_Some in E as ([m' tx] & _ & E). injection E as <- <-.
    split; [by apply socks_ok_mod|]. rewrite sock_mod by (done || (unfold is_fd in Hfd; lia)).
    destruct (Z.eqb_spec i fd) as [->|]; [congruence|done].
  - unfold tcp_bind, ephemeral. destruct (bad_sock s i) eqn:Eb; [done|]. apply bad_sock_is in Eb.
    destruct (negb (port =? 0)); cbn [fst]; apply kept_mod; [done|done|done|done|done|done|done|]. by apply (kept_socks fd s s).
  - unfold tcp_listen. destruct (bad_sock s i) eqn:Eb; [done|]. apply bad_sock_is in Eb. cbn [fst]. kept.
  - unfold tcp_connect, ephemeral in E. destruct (bad_sock s i) eqn:Eb; [by injection E as <- <-|]. apply bad_sock_is in Eb.
    apply bind_Some in E as (s1 & E1 & [= <- <-]). kept. by apply (kept_socks fd s s).
  - unfold tcp_send in E. destruct (bad_sock s i) eqn:Eb; [by injection E as <- <-|]. apply bad_sock_is in Eb. cbn [orb] in E.
    destruct (negb _) in E; [by injection E as <- <-|]. eapply kept_send_loop; [done..|exact E].
  - eapply kept_send_loop; [done..|exact E].
  - unfold tcp_recv in E. destruct (bad_sock s i) eqn:Eb; [by injection E as <- <-|]. apply bad_sock_is in Eb. eapply kept_recv_wait; [done..|exact E].
  - eapply kept_recv_wait; [done..|exact E].
  - unfold tcp_close in E. destruct (bad_sock s i) eqn:Eb; [by injection E as <-|]. apply bad_sock_is in Eb.
    destruct (sk_state (sock s i)); kept.
  - unfold tcp_close_wait in E. cbn zeta in E. set (s1 := mod_sock s i _) in *. assert (H1 : tx_kept fd s s1) by (unfold s1; kept).
    set (s2 := if rx_buf (sock s1 i) =? NULL then s1 else _) in *.
    assert (H2 : tx_kept fd s s2) by (unfold s2; destruct (rx_buf (sock s1 i) =? NULL); [exact H1|by apply (kept_socks fd s s1)]). clearbody s2.
    set (s3 := if tx_buf (sock s2 i) =? NULL then s2 else _) in *.
    assert (H3 : tx_kept fd s s3) by (unfold s3; destruct (tx_buf (sock s2 i) =? NULL); [exact H2|by apply (kept_socks fd s s2)]). clearbody s3.
    destruct (sk_state (sock s i)); try done; by injection E as <-.
  - by apply (kept_socks fd s s).
Qed.

Lemma full_ring_stays fd s s' : rtc (step_in_use fd) s s' -> is_fd fd -> full fd s -> full fd s'.
Proof. intros Hr Hfd. induction Hr as [|s s1 s' Hst _ IH]; [done|]. intros H. by apply IH, (full_ring_step fd s). Qed.
End full.

(** C14 Invariant: in every state the network stack can reach from boot, by frames with any
    contents, timer ticks and socket calls in any order, every socket in use has well
    formed rings (indices inside the 64 KiB buffers, counts at most their size, the
    head [count] after the tail), the segment size 1460 and a congestion window of at
    least that, so that the division by [cwnd] is safe and a segment fits [tcp_send]'s
    buffer; and it is never in [TCP_FIN_WAIT_2], which no transition enters. *)
Theorem tcp_sockets_sound {M} `{NM : NetMemory M} `{NL : !NetMemoryLaws M} (s : net (M := M)) (i : Z) :
  net_reachable s -> 0 <= i < TCP_MAX_SOCKETS -> in_use (sock s i) <> 0 -> good (sock s i).
Proof.
  intros H Hi Hu. enough (Hs : all_sound s) by exact (all_at s i Hs Hi Hu). clear Hu.
  induction H as [m|s s' _ IH Hst]; [|destruct Hst].
  - split; [done|]. intros j Hj Hn. destruct Hn. unfold sock, aget.
    destruct (decide (j < 256)).
    + change (tcp_sockets (net_init (net_boot m))) with (replicate 256 zero_sock).
      by rewrite lookup_total_replicate_2 by lia.
    + rewrite list_lookup_total_alt, lookup_ge_None_2; [done|].
      change (length (tcp_sockets (net_init (net_boot m)))) with 256%nat. lia.
  - eapply all_frame; eassumption.
  - eapply all_packet; eassumption.
  - eapply all_timer; eassumption.
  - eapply all_create; eassumption.
  - by apply all_bind.
  - by apply all_listen.
  - eapply all_connect; eassumption.
  - eapply all_tcp_send; eassumption.
  - eapply all_send_loop; [exact IH| |eassumption]; done.
  - eapply all_recv; [exact IH| |eassumption]; done.
  - eapply all_recv_wait; [exact IH| | |eassumption]; done.
  - eapply all_close; eassumption.
  - eapply all_close_wait; [exact IH| |eassumption]; done.
  - eapply all_socks; eassumption.
Qed.

(** C26 Functional: a segment changes one socket only, the one [find_sock] finds by the ports
    and the peer's address (or a listening one), and that one as the table [next_state]
    says; when none is found it changes nothing.  The table shows where the machine leaves
    the protocol: a SYN with ACK answered to [tcp_connect] leads to [TCP_SYN_RECEIVED] (and is
    answered with another SYN), so that [tcp_connect], which stops waiting there, fails on
    the answer it waits for, as [tcp_accept] does on the SYN; a FIN is taken whatever its sequence number; and an ACK in
    [TCP_FIN_WAIT_1] leads nowhere. *)
Theorem tcp_state_machine {M} `{NM : NetMemory M} `{NL : !NetMemoryLaws M} (s : net (M := M)) ip data len ms us s' :
  socks_ok s -> tcp_rx s ip data len ms us = Some s' ->
  let flags := bytes s (data + 13) in
  match find_sock s (load_le 4 (bytes s) (ip + 12)) (ntohs (load_le 2 (bytes s) data)) (ntohs (load_le 2 (bytes s) (data + 2))) with
  | None => s' = s
  | Some i =>
      only_sock i s s' /\ in_use (sock s i) <> 0 /\ sk_state (sock s' i) = next_state (sk_state (sock s i)) flags /\
      (in_use (sock s' i) <> 0 <-> ~ (sk_state (sock s i) = TCP_LAST_ACK /\ has_flag flags TCP_FLAG_ACK = true)) /\
      (sk_state (sock s i) = TCP_SYN_SENT -> tcp_connect_wait s' i = None \/ tcp_connect_wait s' i = Some (-1)) /\
      (sk_state (sock s i) = TCP_LISTEN -> tcp_accept_wait s' i = None \/ tcp_accept_wait s' i = Some (-1, None))
  end.
Proof.
  intros Hs E. cbn zeta. unfold tcp_rx in E. cbn zeta in E.
  destruct (find_sock _ _ _ _) as [i|] eqn:Ef; [|by injection E].
  destruct (find_sock_spec _ _ _ _ _ Ef) as [Hi Hu].
  apply tcp_input_moved in E as (Ho & Est & Eu); [|by apply socks_ok_mod|done].
  rewrite sock_mod in Est, Eu by (done || (unfold is_fd in Hi; lia)). rewrite Z.eqb_refl in Est, Eu.
  cbn [sk_state in_use] in Est, Eu. rewrite Est, Eu.
  split; [eapply only_trans; [by apply only_mod|exact Ho]|]. split; [done|]. split; [done|].
  assert (Est' : sk_state (sock s' i) = next_state (sk_state (sock s i)) (bytes s (data + 13))) by exact Est.
  split; [|split].
  - rewrite <- (bool_decide_spec (sk_state (sock s i) = TCP_LAST_ACK)).
    destruct (bool_decide _), (has_flag _ _); cbn [andb]; naive_solver.
  - intros Ec. unfold tcp_connect_wait. rewrite Est', Ec. cbn [next_state].
    destruct (has_flag (bytes s (data + 13)) TCP_FLAG_SYN); [by right|by left].
  - intros Ec. unfold tcp_accept_wait. rewrite Est', Ec. cbn [next_state].
    destruct (has_flag (bytes s (data + 13)) TCP_FLAG_SYN); [by right|by left].
Qed.

(** C13 Refinement: whatever segments of a stream arrive, in any order, repeated or never, and
    whenever the application reads, what it has read is a prefix of the stream, and so is
    that followed by the bytes that wait in the ring; and the segment that is next in
    order is taken whole when there is room for it. *)
Theorem tcp_delivers_prefix {M} `{NM : NetMemory M} `{NL : !NetMemoryLaws M} (D : list Z) (r0 i : Z) (s : net (M := M)) (got : list Z) :
  is_fd i -> zlen D < 2 ^ 32 -> rx_run D r0 i s got ->
  got `prefix_of` D /\ got ++ rx_queue s i `prefix_of` D /\
  let off := zlen got + rx_count (sock s i) in
  forall data hlen pl s', 0 < pl < 2 ^ 16 -> off + pl <= zlen D -> pl <= TCP_RX_BUF_SIZE - rx_count (sock s i) ->
    bytes_at (bytes s) (data + hlen) pl = take (Z.to_nat pl) (drop (Z.to_nat off) D) ->
    apart (data + hlen) pl (rx_buf (sock s i)) TCP_RX_BUF_SIZE ->
    tcp_rx_data s i data hlen pl (u32 (r0 + off)) = Some s' ->
    got ++ rx_queue s' i = take (Z.to_nat (off + pl)) D.
Proof.
  intros Hi HD Hrun. destruct (rx_run_inv D r0 i s got Hi HD Hrun) as (Hs & Hu & Hok & Hn & Hle & Hq).
  assert (Hpre : got ++ rx_queue s i `prefix_of` D) by (rewrite Hq; apply prefix_take).
  split; [etrans; [|exact Hpre]; by apply prefix_app_r|]. split; [exact Hpre|]. cbn zeta.
  intros data hlen pl s' Hpl Hoff Hroom Hb Ha E. pose proof (rx_count_range _ Hok) as Hc. pose proof (zlen_nonneg got).
  destruct (tcp_rx_data_spec s i data hlen pl _ s' Hs Hi Hok ltac:(lia) Ha E) as (_ & _ & _ & Hq' & _).
  assert (Et : taken s i (u32 (r0 + (zlen got + rx_count (sock s i)))) pl = pl).
  { unfold taken. rewrite Hn, Z.add_assoc, Z.eqb_refl. destruct (Z.ltb_spec 0 pl); cbn [andb]; lia. }
  rewrite Et in Hq'. rewrite Hq', app_assoc, Hq, Hb.
  replace (Z.to_nat (zlen got + rx_count (sock s i) + pl)) with
    (Z.to_nat (zlen got + rx_count (sock s i)) + Z.to_nat pl)%nat by lia.
  apply take_take_drop.
Qed.

(** C25 Functional: what [tcp_send] does up to its return or to the point where the ring is
    full.  It returns exactly when it has taken all of the data.  Otherwise the
    64 KiB ring is full, and it yields and looks again for ever: nothing that can
    happen makes room, as long as the socket stays in use.  Either way the bytes that waited
    before and the ones it took are,
    in order, the segments it cuts, of 1 to 1460 bytes, and the bytes that wait now; no
    memory but the ring changes.  When the next hop's address is known and memory lasts
    the segments leave as frames with consecutive sequence numbers; when it is not
    known, the segments are lost: only ARP requests leave, and [snd_nxt] stays. *)
Theorem tcp_send_stream {M} `{NM : NetMemory M} `{NL : !NetMemoryLaws M} (s : net (M := M)) (fd data len : Z) :
  send_ready s fd data len -> in_use (sock s fd) <> 0 -> sk_state (sock s fd) = TCP_ESTABLISHED -> 0 <= len < 2 ^ 32 ->
  (forall G, lasting G -> G (net_mem s) -> exists r, tcp_send s fd data len = Some r) /\
  forall s' r, tcp_send s fd data len = Some (s', r) ->
    exists n cs, 0 <= n <= len /\
      (r = SendReturn n /\ n = len \/
       r = SendYield n /\ n < len /\ tx_count (sock s' fd) = TCP_TX_BUF_SIZE /\
       forall s2, rtc (step_in_use fd) s' s2 -> forall fuel, tcp_send_loop (S fuel) s2 fd data len n = Some (s2, SendYield n)) /\
      Forall (fun c => 0 < zlen c <= TCP_MSS) cs /\
      tx_queue s fd ++ bytes_at (bytes s) data n = concat cs ++ tx_queue s' fd /\ flow fd cs s s' /\
      (forall x, x < tx_buf (sock s fd) \/ tx_buf (sock s fd) + TCP_TX_BUF_SIZE <= x -> bytes s' x = bytes s x).
Proof.
  intros Hr Hu Hst Hlen. pose proof Hr as (_ & Hi & _).
  assert (E : tcp_send s fd data len = tcp_send_loop (S (Z.to_nat len)) s fd data len 0).
  { unfold tcp_send. by rewrite (proj2 (bad_sock_false s fd) (conj Hi Hu)), bool_decide_eq_true_2. }
  rewrite E. split.
  - intros G HG HGs. apply (send_loop_total _ _ _ _ _ _ G); [done|done|done|lia|lia|lia].
  - intros s' r E'. assert (H0 : 0 <= 0 <= len) by lia.
    destruct (send_loop_spec _ _ _ _ _ _ _ _ Hr H0 (proj2 Hlen) E') as (cs & n & Hsend & Hn & Hfin).
    rewrite Z.add_0_r, Z.sub_0_r in Hsend. pose proof Hsend as ([Hof Hk] & _ & _ & H). exists n, cs.
    split; [lia|]. split; [|exact H]. destruct Hfin as [Hfin|(-> & Hlt & Hc)]; [by left|]. right.
    split; [done|]. split; [done|]. split; [done|]. intros s2 Hrun fuel.
    apply full_ring_yields; [|done]. eapply full_ring_stays; [exact Hrun|exact Hi|].
    split; [apply Hof|]. split; [|exact Hc].
    destruct Hk as (_ & _ & _ & Hk). by rewrite Hk.
Qed.

(** C16 Round trip: the frame [tcp_send_segment] sends is one that any host with this code
    accepts: past Ethernet, the IPv4 header and its checksum, to the socket for these ports
    and that address, with the sender's sequence number, acknowledgement, flags,
    window (at most 65535) and data. *)
Theorem tcp_segment_received {M} `{NM : NetMemory M} `{NL : !NetMemoryLaws M} {M'} `{NM' : NetMemory M'}
    (a : net (M := M)) (fd flags : Z) (data dmac : list Z) (sk := sock a fd) (dev := (net_ifs a).[0]) :
  (exists m p, nm_kmalloc (net_mem a) (segment_size data) = Some (m, p) /\ p <> NULL) ->
  socks_ok a -> is_fd fd -> dev <> NULL -> zlen dmac = 6 -> zlen (if_mac (devs a dev)) = 6 ->
  arp_get a (next_hop a (remote_ip sk)) = Some dmac -> IP_HDR + TCP_HDR + zlen data < 2 ^ 16 -> 0 <= flags < 256 ->
  0 <= local_ip sk < 2 ^ 32 -> 0 <= local_port sk < 2 ^ 16 -> 0 <= remote_port sk < 2 ^ 16 ->
  0 <= snd_nxt sk < 2 ^ 32 -> 0 <= rcv_nxt sk < 2 ^ 32 -> 0 <= rcv_wnd sk ->
  exists a' f, tcp_send_segment a fd flags data = Some a' /\ sent a' = sent a ++ [(dev, f)] /\
    forall (b : net (M := M')) devb pkt ms us, devb <> NULL -> stored_at (bytes b) pkt f ->
      bytes_at (bytes b) (pkt + 54) (zlen data) = data /\
      let b1 := count_rx b devb (zlen f) in
      net_rx_frame b devb pkt (zlen f) ms us =
      match find_sock b (local_ip sk) (local_port sk) (remote_port sk) with
      | None => Some b1
      | Some i => tcp_input (mod_sock b1 i (fun sk => sk <| last_activity := ms |>)) i
          (local_ip sk) (local_port sk) (pkt + 34) (TCP_HDR + zlen data) TCP_HDR (snd_nxt sk)
          (if has_flag flags TCP_FLAG_ACK then rcv_nxt sk else 0) flags (Z.min (rcv_wnd sk) 65535) us
      end.
Proof.
  intros (m & p & Ek & Hp) Hs Hi Hd Hdm Hm Hget Hlen Hf Hip Hp1 Hp2 Hn Hr Hw.
  destruct (send_segment_total a fd flags data) as [a' E]; [by rewrite Ek|].
  destruct (send_segment_cases a fd flags data a' Hs Hi E) as (_ & _ & Hcase & _).
  destruct Hcase as [(mac & f & Hget' & Hseg & Hsent & _)|(_ & [(_ & [?|(m' & Ek')])|(Hnone & _)])].
  - fold sk in Hget'. assert (mac = dmac) as -> by congruence. exists a', f. split; [exact E|]. split; [exact Hsent|].
    intros b devb pkt ms us Hdb Hst. cbn zeta. by eapply segment_received.
  - done.
  - congruence.
  - fold sk in Hnone. congruence.
Qed.

(** The SYN of [tcp_connect] and the first byte of data have the same sequence number,
    and the host that listens takes only the next one: this data it never takes. *)
Theorem tcp_syn_overlaps_data {M} `{NM : NetMemory M} `{NL : !NetMemoryLaws M} (a b : net (M := M)) fd ip port ms us a' i src sp data len hlen ack w us' b' :
  socks_ok a -> socks_ok b -> is_fd i -> tcp_connect a fd ip port ms us = Some (a', 0) ->
  let n := snd_nxt (sock a' fd) in
  sk_state (sock b i) = TCP_LISTEN -> tcp_input b i src sp data len hlen n ack TCP_FLAG_SYN w us' = Some b' ->
  n = u32 (u32 us + 1) /\ rcv_nxt (sock b' i) <> n /\ forall data' hlen' pl, tcp_rx_data b' i data' hlen' pl n = Some b'.
Proof.
  intros Ha Hb Hi Ec n Hl Ei.
  assert (Hn : n = u32 (u32 us + 1)).
  { unfold n. unfold tcp_connect, ephemeral in Ec. destruct (bad_sock a fd) eqn:Eb; [by injection Ec|].
    apply bad_sock_false in Eb as [Hfd _]. destruct (tcp_send_segment _ _ _ _) as [a1|] eqn:E; [|done]. injection Ec as <-.
    match type of E with tcp_send_segment (mod_sock ?x fd ?g) _ _ _ = _ =>
      destruct (send_segment_cases _ _ _ _ _ (socks_ok_mod x fd g Ha) Hfd E) as (_ & _ & Hc & _) end.
    assert (Hf0 : 0 <= fd) by (unfold is_fd in Hfd; lia).
    destruct Hc as [(mac & f & _ & _ & _ & ->)|(-> & _)]; rewrite sock_mod, Z.eqb_refl by done; cbn; [|done].
    rewrite Z.add_0_r. apply u32_id, u32_range. }
  assert (Hr : rcv_nxt (sock b' i) = u32 (n + 1)).
  { unfold tcp_input in Ei. rewrite Hl in Ei. change (has_flag TCP_FLAG_SYN TCP_FLAG_SYN) with true in Ei. cbn iota in Ei.
    destruct (tcp_send_segment _ _ _ _) as [b1|] eqn:E; [|done]. injection Ei as <-.
    assert (Hi0 : 0 <= i) by (unfold is_fd in Hi; lia).
    destruct (send_same _ _ _ _ _ (socks_ok_mod _ i _ (socks_ok_mod _ i _ Hb)) Hi E) as (Ho & _ & v & Hv).
    rewrite sock_mod by (apply Ho || done). rewrite Z.eqb_refl, Hv. cbn [rcv_nxt].
    rewrite sock_mod, Z.eqb_refl by (done || by apply socks_ok_mod). rewrite sock_mod, Z.eqb_refl by done. reflexivity. }
  split; [exact Hn|]. rewrite Hr. assert (Hne : u32 (n + 1) <> n) by (rewrite Hn; unfold u32; lia).
  split; [exact Hne|]. intros data' hlen' pl. unfold tcp_rx_data. rewrite Hr.
  destruct (Z.eqb_spec n (u32 (n + 1))); [congruence|]. by rewrite andb_false_r.
Qed.

(** * Concrete runs *)

(** The sockets of an established connection and of its peer. *)
Definition demo_socket : tcp_socket :=
  zero_sock <| local_ip := 0x0100000A |> <| local_port := 80 |> <| remote_ip := 0x0200000A |> <| remote_port := 5000 |>
    <| sk_state := TCP_ESTABLISHED |> <| rcv_nxt := 10 |> <| snd_nxt := 7 |> <| snd_una := 7 |> <| rcv_wnd := 65536 |>
    <| rx_buf := 0x20000 |> <| tx_buf := 0x40000 |> <| mss := TCP_MSS |> <| in_use := 1 |>
    <| cc := mk_cc 1460 65535 0 0 1000 0 0 |>.
Definition demo_peer : tcp_socket :=
  zero_sock <| local_ip := 0x0200000A |> <| local_port := 5000 |> <| remote_ip := 0x0100000A |> <| remote_port := 80 |>
    <| sk_state := TCP_ESTABLISHED |> <| snd_nxt := 10 |> <| rcv_nxt := 7 |>.
Definition demo_conn (l : list Z) : net (M := mem * Z) :=
  let s := demo_host 0x0100000A (demo_mac 1) l in
  mod_sock (s <| arp_cache := mk_arp 0x0200000A (demo_mac 2) 0 1 :: replicate 63 zero_arp |>) 0 (fun _ => demo_socket).

(** An IPv4 packet from the peer with the end of its stream. *)
Definition demo_fin : list Z :=
  ip_fields 40 0 IP_PROTO_TCP 0 0x0200000A 0x0100000A ++ tcp_hdr demo_peer (Z.lor TCP_FLAG_FIN TCP_FLAG_ACK).

Lemma flat_lasting : lasting (fun m : mem * Z => 0 < snd m).
Proof.
  split; [done|]. intros m n Hm Hn. exists (fst m, snd m + n), (snd m). split; [done|]. split; [unfold NULL; lia|]. cbn. lia.
Qed.

Lemma tcp_sockets_sound_witness :
  exists s : net (M := mem * Z), net_reachable s /\ in_use (sock s 0) <> 0 /\ good (sock s 0).
Proof.
  assert (E : exists s r, tcp_socket_create (net_init (net_boot ((fun _ => 0, 0x10000) : mem * Z))) = Some (s, r) /\
    in_use (sock s 0) = 1) by (eexists _, _; split; vm_compute; reflexivity).
  destruct E as (s & r & E & Hu). exists s.
  assert (Hr : net_reachable s) by (eapply net_reach_step; [apply net_reach_boot|eapply step_create; exact E]).
  assert (Hu' : in_use (sock s 0) <> 0) by (rewrite Hu; discriminate).
  split; [exact Hr|]. split; [exact Hu'|]. apply (tcp_sockets_sound s 0 Hr); [split; [lia|reflexivity]|exact Hu'].
Defined.

Lemma tcp_state_machine_witness :
  exists s', tcp_rx (demo_conn demo_fin) 100 120 20 5 5 = Some s' /\ sk_state (sock s' 0) = TCP_CLOSE_WAIT.
Proof.
  destruct (tcp_rx (demo_conn demo_fin) 100 120 20 5 5) as [s'|] eqn:E; [|vm_compute in E; discriminate].
  exists s'. split; [reflexivity|].
  assert (Hs : socks_ok (demo_conn demo_fin)) by (vm_compute; reflexivity).
  pose proof (tcp_state_machine (demo_conn demo_fin) 100 120 20 5 5 s' Hs E) as H. cbn zeta in H.
  assert (Ef : find_sock (demo_conn demo_fin) (load_le 4 (bytes (demo_conn demo_fin)) (100 + 12))
    (ntohs (load_le 2 (bytes (demo_conn demo_fin)) 120)) (ntohs (load_le 2 (bytes (demo_conn demo_fin)) (120 + 2))) = Some 0)
    by (vm_compute; reflexivity).
  rewrite Ef in H. destruct H as (_ & _ & H & _). rewrite H. vm_compute. reflexivity.
Defined.

Lemma tcp_delivers_prefix_witness :
  exists (s : net (M := mem * Z)) got, rx_run [1; 2; 3] 10 0 s got /\ got = [1; 2] /\ got `prefix_of` [1; 2; 3].
Proof.
  assert (E1 : exists s1, tcp_rx_data (demo_conn [1; 2]) 0 100 0 2 (u32 (10 + 0)) = Some s1 /\
    rx_buf (sock s1 0) = 0x20000 /\ exists s2, tcp_recv s1 0 0x70000 5 = Some (s2, Some 2) /\ bytes_at (bytes s2) 0x70000 2 = [1; 2]).
  { eexists. split; [vm_compute; reflexivity|]. split; [vm_compute; reflexivity|].
    eexists. split; vm_compute; reflexivity. }
  destruct E1 as (s1 & E1 & Hb & s2 & E2 & Hgot).
  assert (H0 : rx_run [1; 2; 3] 10 0 (demo_conn [1; 2]) []).
  { apply rx_start; [vm_compute; reflexivity|vm_compute; discriminate| |vm_compute; reflexivity|vm_compute; reflexivity].
    constructor; vm_compute; [split; [discriminate|reflexivity]|split; discriminate|reflexivity|split; [discriminate|reflexivity]]. }
  assert (H1 : rx_run [1; 2; 3] 10 0 s1 []).
  { apply (rx_segment _ _ _ (demo_conn [1; 2]) [] 100 0 2 (u32 (10 + 0)) 0 s1 H0);
      [lia|lia|vm_compute; discriminate|reflexivity|vm_compute; reflexivity|left; vm_compute; discriminate|exact E1]. }
  assert (H2 : rx_run [1; 2; 3] 10 0 s2 ([] ++ bytes_at (bytes s2) 0x70000 2)).
  { apply (rx_read _ _ _ s1 [] 0x70000 5 2 s2 H1); [lia|right; rewrite Hb; vm_compute; discriminate|left; exact E2]. }
  rewrite Hgot in H2. exists s2, ([] ++ [1; 2]). split; [exact H2|]. split; [reflexivity|].
  apply (tcp_delivers_prefix [1; 2; 3] 10 0 s2 ([] ++ [1; 2])); [split; [lia|reflexivity]|reflexivity|exact H2].
Defined.

Lemma demo_ready l : send_ready (demo_conn l) 0 100 3.
Proof.
  split; [done|]. split; [split; [lia|reflexivity]|]. split; [constructor; vm_compute; [split; [discriminate|reflexivity]|split; discriminate|reflexivity]|].
  split; [reflexivity|]. split; [vm_compute; split; [discriminate|reflexivity]|]. split; [reflexivity|left; vm_compute; discriminate].
Qed.

Lemma tcp_send_stream_witness :
  exists s' n, tcp_send (demo_conn [4; 5; 6]) 0 100 3 = Some (s', SendReturn n) /\ n = 3 /\ length (sent s') = 1%nat.
Proof.
  destruct (tcp_send_stream (demo_conn [4; 5; 6]) 0 100 3) as [Ht H];
    [apply demo_ready|vm_compute; discriminate|vm_compute; reflexivity|lia|].
  destruct (Ht _ flat_lasting) as [[s' r] E]; [reflexivity|].
  destruct (H s' r E) as (n & cs & _ & Hfin & _).
  assert (Ec : option_map (fun r => (length (sent r.1), match r.2 with SendReturn _ => true | SendYield _ => false end))
    (tcp_send (demo_conn [4; 5; 6]) 0 100 3) = Some (1%nat, true)) by (vm_compute; reflexivity).
  rewrite E in Ec. cbn [option_map fst snd] in Ec.
  destruct Hfin as [[-> Hn]|[-> _]]; [|discriminate Ec]. injection Ec as Hl.
  exists s', n. split; [exact E|]. split; [exact Hn|exact Hl].
Defined.

Lemma tcp_segment_received_witness :
  exists a' f, tcp_send_segment (demo_conn []) 0 TCP_FLAG_ACK [1; 2; 3] = Some a' /\
    sent a' = [(1, f)] /\ zlen f = 57.
Proof.
  destruct (tcp_segment_received (M' := mem * Z) (demo_conn []) 0 TCP_FLAG_ACK [1; 2; 3] (demo_mac 2)) as (a' & f & E & Hs & _).
  - eexists _, _. split; [vm_compute; reflexivity|discriminate].
  - vm_compute. reflexivity.
  - split; [lia|reflexivity].
  - discriminate.
  - reflexivity.
  - reflexivity.
  - vm_compute. reflexivity.
  - reflexivity.
  - split; [discriminate|reflexivity].
  - split; [discriminate|reflexivity].
  - split; [discriminate|reflexivity].
  - split; [discriminate|reflexivity].
  - split; [discriminate|reflexivity].
  - split; [discriminate|reflexivity].
  - discriminate.
  - exists a', f. split; [exact E|].
    assert (Es : option_map (fun s => map (fun e => zlen e.2) (sent s)) (tcp_send_segment (demo_conn []) 0 TCP_FLAG_ACK [1; 2; 3]) = Some [57])
      by (vm_compute; reflexivity).
    rewrite E in Es. cbn [option_map] in Es. rewrite Hs in Es. change (sent (demo_conn [])) with (@nil (Z * list Z)) in Es.
    cbn [app map snd] in Es. split; [exact Hs|]. injection Es as Es. exact Es.
Defined.

Lemma tcp_syn_overlaps_data_witness :
  exists (a' b' : net (M := mem * Z)), sk_state (sock b' 0) = TCP_SYN_RECEIVED /\ rcv_nxt (sock b' 0) <> snd_nxt (sock a' 0).
Proof.
  set (b := mod_sock (demo_conn []) 0 (fun sk => sk <| sk_state := TCP_LISTEN |>)).
  assert (E : exists a', tcp_connect (demo_conn []) 0 0x0200000A 80 5 5 = Some (a', 0) /\
    exists b', tcp_input b 0 0x0100000A 49152 0 20 20 (snd_nxt (sock a' 0)) 0 TCP_FLAG_SYN 65535 9 = Some b' /\
      sk_state (sock b' 0) = TCP_SYN_RECEIVED).
  { eexists. split; [vm_compute; reflexivity|]. eexists. split; vm_compute; reflexivity. }
  destruct E as (a' & Ea & b' & Eb & Hst). exists a', b'. split; [exact Hst|].
  destruct (tcp_syn_overlaps_data (demo_conn []) b 0 0x0200000A 80 5 5 a' 0 0x0100000A 49152 0 20 20 0 65535 9 b') as (_ & H & _);
    [vm_compute; reflexivity|vm_compute; reflexivity|split; [lia|reflexivity]|exact Ea|vm_compute; reflexivity|exact Eb|].
  exact H.
Defined.
