(* ===== verification/Dns.v ===== *)
(** The DNS client of [Net]: names that are addresses, the query for any other name, and
    the answer to it; and that every packet that claims to be an answer is read to an
    end inside it. *)
From S2P Require Import Prelude Pmm CString Net.

(** * Names *)

Definition char_ok (c : Z) : Prop := is_byte c /\ c <> 0 /\ c <> 46.
(** A label of a name. *)
Definition label_ok (l : list Z) : Prop := 0 < zlen l <= 63 /\ Forall char_ok l.

(** The text of a name: its labels with dots between them. *)
Fixpoint join (L : list (list Z)) : list Z :=
  match L with
  | [] => []
  | [l] => l
  | l :: L' => l ++ 46 :: join L'
  end.
(** Its form in a packet, without the final zero. *)
Definition enc (L : list (list Z)) : list Z := concat (map (fun l => zlen l :: l) L).

Definition digit_or_dot (c : Z) : bool := (c =? 46) || (48 <=? c) && (c <=? 57).

(** The decimal digits of a byte, and the value [parse_number] gives digits. *)
Definition decimal (n : Z) : list Z :=
  if n <? 10 then [48 + n] else if n <? 100 then [48 + n / 10; 48 + n mod 10]
  else [48 + n / 100; 48 + n / 10 mod 10; 48 + n mod 10].
Definition value (a : Z) (l : list Z) : Z := fold_left (fun a c => u32 (u32 (a * 10) + (c - 48))) l a.

(** The answer of a server that repeats the question and adds one address, with the
    name as a pointer to the question. *)
Definition dns_reply (qid : Z) (question ttl : list Z) (ip : Z) : list Z :=
  [qid / 256; qid mod 256; 0x81; 0x80; 0; 1; 0; 1; 0; 0; 0; 0] ++ question ++
  [0xC0; 12; 0; 1; 0; 1] ++ ttl ++ [0; 4; ip / 2 ^ 24; ip / 2 ^ 16 mod 256; ip / 2 ^ 8 mod 256; ip mod 256].
Definition udp_datagram (src_port dst_port : Z) (payload : list Z) : list Z :=
  pack [2; 2; 2; 2]%nat [htons src_port; htons dst_port; htons (UDP_HDR + zlen payload); 0] ++ payload.

(** A query as it has to be on the wire: identifier, flags (recursion desired) and counts, the
    name, its root label, type A and class IN. *)
Definition be2 (v : Z) : list Z := [v / 256; v mod 256].
Definition query_bytes (qid : Z) (L : list (list Z)) : list Z :=
  be2 qid ++ [1; 0] ++ be2 1 ++ be2 0 ++ be2 0 ++ be2 0 ++ enc L ++ [0] ++ be2 1 ++ be2 1.
(** The IPv4 header of a UDP packet of [n] bytes, and the frame around a query: Ethernet with
    IPv4, IPv4 with UDP, UDP to port 53. *)
Definition query_ip (n ident checksum src dst : Z) : list Z :=
  [0x45; 0] ++ be2 (28 + n) ++ be2 ident ++ [0; 0; 64; 17] ++ le_bytes 2 checksum ++ le_bytes 4 src ++ le_bytes 4 dst.
Definition query_frame (dst_mac src_mac ip : list Z) (slot : Z) (pkt : list Z) : list Z :=
  dst_mac ++ src_mac ++ [8; 0] ++ ip ++ be2 (1024 + slot) ++ be2 53 ++ be2 (8 + zlen pkt) ++ [0; 0] ++ pkt.

(** * Lemmas: reading names *)

Lemma stored_cons m p x l : stored_at m p (x :: l) <-> m p = x /\ stored_at m (p + 1) l.
Proof.
  change (x :: l) with ([x] ++ l). rewrite stored_app. change (zlen [x]) with 1. split; intros [H1 H2]; (split; [|exact H2]).
  - specialize (H1 0 ltac:(change (zlen [x]) with 1; lia)). by rewrite Z.add_0_r in H1.
  - intros i Hi. change (zlen [x]) with 1 in Hi. assert (i = 0) as -> by lia. by rewrite Z.add_0_r.
Qed.

Lemma zlen_cons_ {A} (x : A) l : zlen (x :: l) = 1 + zlen l.
Proof. unfold zlen. cbn [length]. lia. Qed.

Lemma all_digits_spec l fuel m p :
  stored_at m p (l ++ [0]) -> Forall (fun c => c <> 0) l -> (length l < fuel)%nat ->
  all_digits fuel m p = Some (forallb digit_or_dot l).
Proof.
  revert fuel p. induction l as [|c l IH]; intros [|fuel] p Hs Hl Hf; cbn [length] in *; try lia.
  - apply stored_cons in Hs as [Hs _]. cbn [all_digits]. by rewrite Hs.
  - apply stored_cons in Hs as [Hc Hs]. apply Forall_cons in Hl as [Hc0 Hl]. cbn [all_digits forallb]. rewrite Hc.
    destruct (Z.eqb_spec c 0); [done|]. unfold digit_or_dot at 1.
    rewrite (IH fuel (p + 1) Hs Hl ltac:(lia)).
    destruct (Z.eqb_spec c 46), (Z.ltb_spec c 48), (Z.ltb_spec 57 c), (Z.leb_spec 48 c), (Z.leb_spec c 57); cbn; done || lia.
Qed.

Lemma parse_number_spec l c fuel m p a :
  stored_at m p (l ++ [c]) -> Forall (fun x => 48 <= x <= 57) l -> c < 48 -> (length l < fuel)%nat ->
  parse_number fuel m p a = Some (value a l, p + zlen l).
Proof.
  revert fuel p a. induction l as [|x l IH]; intros [|fuel] p a Hs Hl Hc Hf; cbn [length] in *; try lia.
  - apply stored_cons in Hs as [Hs _]. cbn [parse_number]. rewrite Hs. destruct (Z.leb_spec 48 c); [lia|].
    cbn. by rewrite Z.add_0_r.
  - apply stored_cons in Hs as [Hx Hs]. apply Forall_cons in Hl as [Hx0 Hl]. cbn [parse_number]. rewrite Hx.
    destruct (Z.leb_spec 48 x), (Z.leb_spec x 57); try lia. cbn [andb].
    rewrite (IH fuel (p + 1) _ Hs Hl Hc ltac:(lia)), zlen_cons_. unfold value. cbn [fold_left]. f_equal. f_equal. lia.
Qed.

Lemma decimal_spec n : 0 <= n < 256 ->
  Forall (fun x => 48 <= x <= 57) (decimal n) /\ value 0 (decimal n) = n /\ (length (decimal n) <= 3)%nat.
Proof.
  intros Hn. unfold decimal, value, u32.
  destruct (Z.ltb_spec n 10); [|destruct (Z.ltb_spec n 100)]; cbn [fold_left length];
    (split; [repeat (constructor; [lia|]); constructor|]); (split; [lia|lia]).
Qed.

Lemma find_dot_spec l c fuel m p :
  stored_at m p (l ++ [c]) -> Forall char_ok l -> c = 0 \/ c = 46 -> (length l < fuel)%nat ->
  find_dot fuel m p = Some (p + zlen l).
Proof.
  revert fuel p. induction l as [|x l IH]; intros [|fuel] p Hs Hl Hc Hf; cbn [length] in *; try lia.
  - apply stored_cons in Hs as [Hs _]. cbn [find_dot]. rewrite Hs. replace ((c =? 0) || (c =? 46)) with true by (destruct Hc as [-> | ->]; done).
    cbn. by rewrite Z.add_0_r.
  - apply stored_cons in Hs as [Hx Hs]. apply Forall_cons in Hl as [(_ & H0 & H46) Hl]. cbn [find_dot]. rewrite Hx.
    destruct (Z.eqb_spec x 0), (Z.eqb_spec x 46); try done. cbn [orb].
    rewrite (IH fuel (p + 1) Hs Hl Hc ltac:(lia)), zlen_cons_. f_equal. lia.
Qed.

Lemma enc_cons l L : enc (l :: L) = zlen l :: l ++ enc L.
Proof. done. Qed.

Lemma zlen_enc L : L <> [] -> zlen (enc L) = zlen (join L) + 1.
Proof.
  induction L as [|l L IH]; [done|]. intros _. rewrite enc_cons, zlen_cons_, zlen_app. destruct L as [|l' L].
  - cbn. unfold zlen. cbn. lia.
  - rewrite IH by done. change (join (l :: l' :: L)) with (l ++ 46 :: join (l' :: L)). rewrite zlen_app, zlen_cons_. lia.
Qed.

Lemma encode_labels_spec L fuel m h :
  Forall label_ok L -> stored_at m h (join L ++ [0]) -> (length (join L) < fuel)%nat -> encode_labels fuel m h = Some (enc L).
Proof.
  revert fuel h. induction L as [|l L IH]; intros [|fuel] h HL Hs Hf; try (cbn in Hf; lia).
  - apply stored_cons in Hs as [Hs _]. cbn [encode_labels]. by rewrite Hs.
  - apply Forall_cons in HL as [[Hlen Hl] HL].
    assert (Hsplit : exists c, stored_at m h (l ++ [c]) /\
      (c = 46 /\ stored_at m (h + zlen l + 1) (join L ++ [0]) /\ (length (join L) < fuel)%nat \/ c = 0 /\ L = [])).
    { destruct L as [|l' L].
      - exists 0. split; [exact Hs|by right].
      - exists 46. change (join (l :: l' :: L)) with (l ++ 46 :: join (l' :: L)) in *.
        rewrite length_app in Hf. cbn [length] in Hf.
        replace ((l ++ 46 :: join (l' :: L)) ++ [0]) with ((l ++ [46]) ++ join (l' :: L) ++ [0]) in Hs by (by rewrite <- !app_assoc).
        apply stored_app in Hs as [H1 H2]. split; [done|]. left. split; [done|]. split; [|lia].
        rewrite zlen_app in H2. by rewrite Z.add_assoc in H2. }
    destruct Hsplit as (c & Hsl & Hrest).
    assert (Hc : c = 0 \/ c = 46) by (destruct Hrest as [[? _]|[? _]]; auto).
    assert (Hh : m h <> 0).
    { destruct l as [|x l]; [unfold zlen in Hlen; cbn in Hlen; lia|]. apply stored_cons in Hsl as [-> _]. apply Forall_cons in Hl as [(_ & ? & _) _]. done. }
    assert (Hfl : (length l < S fuel)%nat).
    { destruct L as [|l0 L]; [change (join [l]) with l in Hf; lia|]. change (join (l :: l0 :: L)) with (l ++ 46 :: join (l0 :: L)) in Hf. rewrite length_app in Hf. lia. }
    cbn [encode_labels]. destruct (Z.eqb_spec (m h) 0); [done|].
    rewrite (find_dot_spec l c (S fuel) m h Hsl Hl Hc Hfl). cbv [mbind option_bind].
    pose proof (proj1 (stored_app _ _ _ _) Hsl) as [Hl1 Hc1]. apply stored_cons in Hc1 as [Hc1 _]. rewrite Hc1.
    replace (u8 (h + zlen l - h)) with (zlen l) by (unfold u8; rewrite Z.mod_small; lia).
    rewrite (bytes_at_stored m h l Hl1), enc_cons. destruct Hrest as [(-> & Hs' & Hf')|(-> & ->)]; cbn [Z.eqb Pos.eqb].
    + by rewrite (IH fuel _ HL Hs' Hf').
    + destruct fuel as [|fuel]; [unfold zlen in Hlen; lia|]. cbn [encode_labels]. by rewrite Hc1.
Qed.

(** * Lemmas: reading packets *)

Lemma small_label v : 0 <= v < 64 -> Z.land v 0xC0 = 0.
Proof.
  intros Hv. assert (H : forallb (fun v => Z.land v 0xC0 =? 0) (seqZ 0 64) = true) by (vm_compute; reflexivity).
  rewrite forallb_forall in H. apply Z.eqb_eq, H. apply list_elem_of_In, elem_of_seqZ. lia.
Qed.

Lemma skip_labels_spec L fuel m payload plen off :
  Forall label_ok L -> stored_at m (payload + off) (enc L ++ [0]) -> off + zlen (enc L) < plen ->
  zlen (enc L) < Z.of_nat fuel -> skip_labels fuel m payload plen off = Some (off + zlen (enc L)).
Proof.
  revert fuel off. induction L as [|l L IH]; intros fuel off HL Hs Hlt Hf;
    (destruct fuel as [|fuel]; [match type of Hf with zlen ?x < _ => pose proof (zlen_nonneg x) end; lia|]).
  - apply stored_cons in Hs as [Hs _]. cbn [skip_labels]. rewrite Hs. change (zlen (enc [])) with 0. rewrite andb_false_r. f_equal. lia.
  - apply Forall_cons in HL as [[Hlen Hl] HL]. rewrite enc_cons in *. rewrite zlen_cons_, zlen_app in *.
    change ((zlen l :: l ++ enc L) ++ [0]) with (zlen l :: (l ++ enc L) ++ [0]) in Hs. rewrite <- app_assoc in Hs.
    apply stored_cons in Hs as [Hb Hs]. apply stored_app in Hs as [_ Hs]. pose proof (zlen_nonneg (enc L)).
    cbn [skip_labels]. rewrite Hb. destruct (Z.ltb_spec off plen), (Z.eqb_spec (zlen l) 0); try lia. cbn [andb negb].
    rewrite (small_label (zlen l)) by lia. cbn [Z.eqb].
    rewrite (IH fuel (off + (1 + zlen l))); [f_equal; lia|done| |lia|lia].
    replace (payload + (off + (1 + zlen l))) with (payload + off + 1 + zlen l) by lia. done.
Qed.

(** Whatever the bytes are, the walk over the labels ends. *)
Lemma skip_labels_total n m payload plen off :
  bytes_ok m -> plen - off <= Z.of_nat n -> exists off', skip_labels (S n) m payload plen off = Some off' /\ off <= off'.
Proof.
  intros Hm. revert off. induction n as [|n IH]; intros off Hf.
  - cbn [skip_labels]. destruct (Z.ltb_spec off plen); [lia|]. exists off. split; [done|lia].
  - cbn [skip_labels]. pose proof (Hm (payload + off)).
    destruct (Z.ltb_spec off plen); cbn [andb]; [|exists off; split; [done|lia]].
    destruct (negb _); [|exists off; split; [done|lia]].
    destruct (_ =? 0xC0); [exists (off + 2); split; [done|lia]|].
    destruct (IH (off + (1 + m (payload + off)))) as (off' & E & ?); [lia|]. exists off'. split; [exact E|lia].
Qed.

Lemma skip_name_total m payload plen off :
  bytes_ok m -> exists off', skip_name m payload plen off = Some off' /\ off <= off'.
Proof.
  intros Hm. unfold skip_name. destruct (skip_labels_total (Z.to_nat (plen - off)) m payload plen off Hm ltac:(lia)) as (off' & -> & H).
  cbv [mbind option_bind]. destruct (_ && _); eexists; (split; [done|lia]).
Qed.

Lemma skip_questions_total n m payload plen off :
  bytes_ok m -> exists off', skip_questions n m payload plen off = Some off'.
Proof.
  intros Hm. revert off. induction n as [|n IH]; intros off; cbn [skip_questions]; [by eexists|].
  destruct (off <? plen); [|by eexists]. destruct (skip_name_total m payload plen off Hm) as (off' & -> & _).
  cbv [mbind option_bind]. apply IH.
Qed.

Lemma find_answer_total n m payload plen off :
  bytes_ok m -> exists r, find_answer n m payload plen off = Some r.
Proof.
  intros Hm. revert off. induction n as [|n IH]; intros off; cbn [find_answer]; [by eexists|].
  destruct (off + 10 <? plen); [|by eexists].
  assert (H : exists off', (if Z.land (m (payload + off)) 0xC0 =? 0xC0 then Some (off + 2) else skip_name m payload plen off) = Some off').
  { destruct (_ =? 0xC0); [by eexists|]. destruct (skip_name_total m payload plen off Hm) as (off' & -> & _). by eexists. }
  destruct H as (off' & ->). cbv [mbind option_bind]. destruct (plen <? off' + 10); [by eexists|]. cbn zeta.
  destruct (_ && _); [by eexists|]. apply IH.
Qed.

Lemma lor4 a b c d : 0 <= b < 256 -> 0 <= c < 256 -> 0 <= d < 256 ->
  Z.lor (Z.lor (Z.lor (Z.shiftl a 24) (Z.shiftl b 16)) (Z.shiftl c 8)) d = a * 2 ^ 24 + b * 2 ^ 16 + c * 2 ^ 8 + d.
Proof.
  intros Hb Hc Hd. rewrite <- !Z.lor_assoc. rewrite (lor_shiftl_low c d 8), (lor_shiftl_low b _ 16), (lor_shiftl_low a _ 24) by lia. lia.
Qed.

Lemma be16_eq m p : 0 <= m (p + 1) < 256 -> be16 m p = m p * 256 + m (p + 1).
Proof. intros H. unfold be16. rewrite lor_shiftl_low by lia. lia. Qed.

Definition answer_record (ttl : list Z) (ip : Z) : list Z :=
  [0xC0; 12; 0; 1; 0; 1] ++ ttl ++ [0; 4; ip / 2 ^ 24; ip / 2 ^ 16 mod 256; ip / 2 ^ 8 mod 256; ip mod 256].

Lemma find_answer_spec n m payload plen off ttl ip :
  stored_at m (payload + off) (answer_record ttl ip) -> zlen ttl = 4 -> 0 <= ip < 2 ^ 32 -> off + 16 <= plen ->
  find_answer (S n) m payload plen off = Some (Some ip).
Proof.
  intros Hs Ht Hip Hle. destruct ttl as [|t0 [|t1 [|t2 [|t3 [|]]]]]; try (unfold zlen in Ht; cbn [length] in Ht; lia).
  assert (H : forall k v, 0 <= k < 16 -> (answer_record [t0; t1; t2; t3] ip).[k] = v -> m (payload + off + k) = v).
  { intros k v Hk <-. apply Hs. exact Hk. }
  pose proof (H 0 0xC0 ltac:(lia) eq_refl) as H0. rewrite Z.add_0_r in H0.
  pose proof (H 2 0 ltac:(lia) eq_refl) as H2. pose proof (H 3 1 ltac:(lia) eq_refl) as H3.
  pose proof (H 4 0 ltac:(lia) eq_refl) as H4. pose proof (H 5 1 ltac:(lia) eq_refl) as H5.
  pose proof (H 10 0 ltac:(lia) eq_refl) as H10. pose proof (H 11 4 ltac:(lia) eq_refl) as H11.
  pose proof (H 12 _ ltac:(lia) eq_refl) as H12. pose proof (H 13 _ ltac:(lia) eq_refl) as H13.
  pose proof (H 14 _ ltac:(lia) eq_refl) as H14. pose proof (H 15 _ ltac:(lia) eq_refl) as H15. clear H.
  cbn [find_answer]. destruct (Z.ltb_spec (off + 10) plen); [|lia]. rewrite H0. change (Z.land 0xC0 0xC0 =? 0xC0) with true.
  cbv [mbind option_bind]. destruct (Z.ltb_spec plen (off + 2 + 10)); [lia|]. cbn zeta.
  assert (Hb : forall k j, off + 2 + k = off + j -> m (payload + (off + 2) + k) = m (payload + off + j)) by (intros; f_equal; lia).
  unfold be16. offsets.
  rewrite H2, H3, H4, H5, H10, H11. change (Z.lor (Z.shiftl 0 8) 1 =? 1) with true. change (Z.lor (Z.shiftl 0 8) 4 =? 4) with true.
  destruct (Z.leb_spec (off + 16) plen); [|lia]. cbn [andb]. rewrite H12, H13, H14, H15. rewrite lor4 by (apply (Z.mod_pos_bound _ 256); lia).
  f_equal. f_equal. clear - Hip.
  change (ip / 2 ^ 24 * 2 ^ 24 + ip / 2 ^ 16 mod 256 * 2 ^ 16 + ip / 2 ^ 8 mod 256 * 2 ^ 8 + ip mod 256 = ip). lia.
Qed.

Lemma skip_question_spec m payload plen L rest :
  Forall label_ok L -> stored_at m (payload + 12) ((enc L ++ [0; 0; 1; 0; 1]) ++ rest) -> 12 + zlen (enc L) + 5 <= plen ->
  skip_questions 1 m payload plen 12 = Some (12 + zlen (enc L) + 5).
Proof.
  intros HL Hs Hle. pose proof (zlen_nonneg (enc L)). cbn [skip_questions]. destruct (Z.ltb_spec 12 plen); [|lia].
  assert (Hs' : stored_at m (payload + 12) (enc L ++ [0])).
  { replace ((enc L ++ [0; 0; 1; 0; 1]) ++ rest) with ((enc L ++ [0]) ++ [0; 1; 0; 1] ++ rest) in Hs by (by rewrite <- !app_assoc).
    by apply stored_app in Hs as [Hs _]. }
  unfold skip_name. rewrite (skip_labels_spec L) by (done || lia). cbv [mbind option_bind].
  apply stored_app in Hs' as [_ Hend]. apply stored_cons in Hend as [Hend _].
  replace (payload + (12 + zlen (enc L))) with (payload + 12 + zlen (enc L)) by lia. rewrite Hend.
  destruct (Z.ltb_spec (12 + zlen (enc L)) plen); [|lia]. cbn [andb Z.eqb]. f_equal. lia.
Qed.

(** * The query and its answer *)

Section client.
Context {M : Type} `{NM : NetMemory M}.
Implicit Types (s : net (M := M)).

Lemma zlen_reply qid L ttl ip : zlen ttl = 4 -> zlen (dns_reply qid (enc L ++ [0; 0; 1; 0; 1]) ttl ip) = zlen (enc L) + 33.
Proof. intros Ht. unfold dns_reply. rewrite !zlen_app, Ht. change (zlen [0; 0; 1; 0; 1]) with 5. unfold zlen. cbn [length]. lia. Qed.

Definition waiting s (id i : Z) : bool :=
  let q := (dns_queries s).[i] in negb (dq_in_use q =? 0) && (resolved q =? 0) && (dq_id q =? id).

Lemma udp_rx_reply s data port qid L ttl ip slot :
  stored_at (bytes s) data (udp_datagram DNS_PORT port (dns_reply qid (enc L ++ [0; 0; 1; 0; 1]) ttl ip)) ->
  Forall label_ok L -> zlen (enc L) <= 495 -> zlen ttl = 4 -> 0 <= ip < 2 ^ 32 -> 0 <= qid < 2 ^ 16 ->
  0 <= slot < DNS_MAX_QUERIES -> waiting s qid slot = true -> (forall j, 0 <= j < slot -> waiting s qid j = false) ->
  udp_rx s data (zlen (udp_datagram DNS_PORT port (dns_reply qid (enc L ++ [0; 0; 1; 0; 1]) ttl ip))) =
  Some (s <| dns_queries := (dns_queries s).[slot <- (dns_queries s).[slot] <| result_ip := ip |> <| resolved := 1 |>] |>).
Proof.
  intros Hs HL Hle Ht Hip Hq Hslot Hw Hfirst. pose proof (zlen_nonneg (enc L)) as H0.
  pose proof (zlen_reply qid L ttl ip Ht) as Hz. unfold udp_datagram in *. rewrite zlen_app, Hz in *.
  apply stored_app in Hs as [Hh Hp]. apply stored_fields in Hh; [|done]. cbn [unpack zip_with] in Hh.
  change (Z.of_nat 2) with 2 in Hh. offsets.
  rewrite !list_cons_eq in Hh. destruct Hh as (E1 & _ & E3 & _).
  change (zlen (pack _ _)) with 8 in *. unfold UDP_HDR in *.
  set (n := zlen (enc L)) in *.
  assert (Hc : forall k v, 0 <= k < 12 -> [qid / 256; qid mod 256; 0x81; 0x80; 0; 1; 0; 1; 0; 0; 0; 0].[k] = v -> bytes s (data + 8 + k) = v).
  { unfold dns_reply in Hp. apply stored_app in Hp as [Hc _]. intros k v Hk <-. apply Hc. exact Hk. }
  assert (Hq' : stored_at (bytes s) (data + 8 + 12) ((enc L ++ [0; 0; 1; 0; 1]) ++ answer_record ttl ip)).
  { unfold dns_reply in Hp. apply stored_app in Hp as [_ Hp]. exact Hp. }
  unfold udp_rx. cbn zeta. unfold UDP_HDR. destruct (Z.ltb_spec (8 + (n + 33)) 8); [lia|]. rewrite E1, E3.
  change (ntohs (htons DNS_PORT mod 256 ^ 2)) with DNS_PORT.
  change (256 ^ 2) with (2 ^ 16). rewrite Z.mod_small by apply htons_range. rewrite ntohs_htons by lia.
  destruct (Z.ltb_spec (8 + (n + 33)) 8); [lia|]. rewrite Z.eqb_refl.
  replace (8 + (n + 33) - 8) with (n + 33) by lia. destruct (Z.leb_spec 12 (n + 33)); [|lia]. cbn [andb].
  pose proof (Hc 0 (qid / 256) ltac:(lia) eq_refl) as B0. pose proof (Hc 1 (qid mod 256) ltac:(lia) eq_refl) as B1.
  pose proof (Hc 2 0x81 ltac:(lia) eq_refl) as B2. pose proof (Hc 3 0x80 ltac:(lia) eq_refl) as B3.
  pose proof (Hc 4 0 ltac:(lia) eq_refl) as B4. pose proof (Hc 5 1 ltac:(lia) eq_refl) as B5.
  pose proof (Hc 6 0 ltac:(lia) eq_refl) as B6. pose proof (Hc 7 1 ltac:(lia) eq_refl) as B7. rewrite Z.add_0_r in B0.
  assert (Eid : be16 (bytes s) (data + 8) = qid).
  { rewrite be16_eq; rewrite B1; [rewrite B0; lia|apply Z.mod_pos_bound; lia]. }
  rewrite Eid. unfold be16. offsets.
  rewrite B2, B3, B4, B5, B6, B7.
  change (Z.land (Z.lor (Z.shiftl 129 8) 128) 32768 =? 0) with false. change (Z.land (Z.lor (Z.shiftl 129 8) 128) 15 =? 0) with true.
  cbn [negb orb].
  change (find_from _ _ 0) with (find_from (waiting s qid) (Z.to_nat DNS_MAX_QUERIES) 0).
  rewrite (find_from_first (waiting s qid) (Z.to_nat DNS_MAX_QUERIES) 0 slot); [|unfold DNS_MAX_QUERIES in *; lia|exact Hw|intros j Hj; apply Hfirst; lia].
  change (Z.to_nat (Z.lor (Z.shiftl 0 8) 1)) with 1%nat.
  rewrite (skip_question_spec _ _ _ L (answer_record ttl ip)); [|done|offsets; exact Hq'|fold n; lia]. cbv [mbind option_bind].
  rewrite (find_answer_spec 0 _ _ _ _ ttl ip); [done| |done|done|fold n; lia].
  apply stored_app in Hq' as [_ Hq']. rewrite zlen_app in Hq'. change (zlen [0; 0; 1; 0; 1]) with 5 in Hq'. fold n in Hq' |- *.
  match type of Hq' with stored_at _ ?a _ => match goal with |- stored_at _ ?b _ => replace b with a by lia end end. exact Hq'.
Qed.

Lemma zlen_dns_packet qid labels : zlen (dns_packet qid labels) = zlen labels + 17.
Proof. unfold dns_packet. rewrite !zlen_app. unfold zlen. cbn [length]. lia. Qed.

Lemma start_query fuel s hostname ms L slot :
  num_net_ifs s <> 0 -> hostname <> NULL -> (net_ifs s).[0] <> NULL -> L <> [] -> Forall label_ok L ->
  stored_at (bytes s) hostname (join L ++ [0]) -> (length (join L) < fuel)%nat -> forallb digit_or_dot (join L) = false ->
  0 <= slot < DNS_MAX_QUERIES -> dq_in_use (dns_queries s).[slot] = 0 ->
  (forall j, 0 <= j < slot -> dq_in_use (dns_queries s).[j] <> 0) ->
  let qid := dns_next_id s in
  let d := devs s (net_ifs s).[0] in
  dns_start fuel s hostname ms =
    if 494 <? zlen (join L) then None else
    Some (mod_query (s <| dns_next_id := u16 (qid + 1) |>) slot (fun _ => mk_query qid 0 ms 0 1),
          DnsQuery slot (htonl (if dns1 d =? 0 then 0x08080808 else dns1 d)) (dns_packet qid (enc L))).
Proof.
  intros Hn Hh Hd HL0 HL Hs Hf Hdig Hslot Hfree Hused qid d. unfold dns_start. cbn zeta.
  destruct (Z.eqb_spec hostname NULL), (Z.eqb_spec (num_net_ifs s) 0); try done. cbn [orb].
  assert (Hnz : Forall (fun c => c <> 0) (join L)).
  { clear - HL. induction L as [|l L IH]; [constructor|]. apply Forall_cons in HL as [[_ Hl] HL]. specialize (IH HL).
    assert (Hl' : Forall (fun c => c <> 0) l) by (eapply Forall_impl; [exact Hl|]; intros c (_ & ? & _); done).
    destruct L; [exact Hl'|]. apply Forall_app. split; [exact Hl'|]. constructor; [done|exact IH]. }
  rewrite (all_digits_spec (join L) fuel _ _ Hs Hnz Hf), Hdig. cbv [mbind option_bind].
  destruct (Z.eqb_spec (net_ifs s).[0] NULL); [done|].
  rewrite (find_from_first _ (Z.to_nat DNS_MAX_QUERIES) 0 slot).
  - rewrite (encode_labels_spec L fuel _ hostname HL Hs Hf), zlen_dns_packet, zlen_enc by done.
    unfold d, qid.
    replace (if negb (dns1 (devs s (net_ifs s).[0]) =? 0) then dns1 (devs s (net_ifs s).[0]) else 0x08080808)
      with (if dns1 (devs s (net_ifs s).[0]) =? 0 then 0x08080808 else dns1 (devs s (net_ifs s).[0])) by (by destruct (_ =? 0)).
    destruct (Z.ltb_spec 512 (zlen (join L) + 1 + 17)), (Z.ltb_spec 494 (zlen (join L))); try lia; reflexivity.
  - unfold DNS_MAX_QUERIES in *. lia.
  - by apply Z.eqb_eq.
  - intros j Hj. apply Z.eqb_neq, Hused. lia.
Qed.

Lemma le_htons v : 0 <= v < 2 ^ 16 -> le_bytes 2 (htons v) = be2 v.
Proof.
  intros Hv. rewrite htons_eq. unfold be2. cbn [le_bytes]. f_equal; [|f_equal]; lia.
Qed.

Lemma dns_packet_bytes qid L : 0 <= qid < 2 ^ 16 -> dns_packet qid (enc L) = query_bytes qid L.
Proof.
  intros Hq. unfold dns_packet, query_bytes, be2, u8. by rewrite Z.shiftr_div_pow2 by lia.
Qed.

Lemma query_ip_fields n ident c src dst :
  0 <= n <= 512 -> 0 <= ident < 2 ^ 16 ->
  ip_fields (IP_HDR + UDP_HDR + n) (htons ident) IP_PROTO_UDP c src dst = query_ip n ident c src dst.
Proof.
  intros Hn Hi. change (ip_fields (IP_HDR + UDP_HDR + n) (htons ident) IP_PROTO_UDP c src dst) with
    ([0x45; 0] ++ le_bytes 2 (htons (u16 (28 + n))) ++ le_bytes 2 (htons ident) ++ [0; 0; 64; 17] ++ le_bytes 2 c ++
     le_bytes 4 src ++ le_bytes 4 dst ++ []).
  by rewrite (u16_id (28 + n)), !le_htons, app_nil_r by lia.
Qed.

Lemma query_udp slot n :
  0 <= slot < DNS_MAX_QUERIES -> 0 <= n <= 512 ->
  pack [2; 2; 2; 2]%nat [htons (u16 (1024 + slot)); htons DNS_PORT; htons (u16 (UDP_HDR + n)); 0] =
  be2 (1024 + slot) ++ be2 53 ++ be2 (8 + n) ++ [0; 0].
Proof.
  unfold DNS_MAX_QUERIES. intros Hs Hn.
  change (pack [2; 2; 2; 2]%nat [htons (u16 (1024 + slot)); htons DNS_PORT; htons (u16 (UDP_HDR + n)); 0]) with
    (le_bytes 2 (htons (u16 (1024 + slot))) ++ le_bytes 2 (htons DNS_PORT) ++ le_bytes 2 (htons (u16 (8 + n))) ++ [0; 0]).
  by rewrite (u16_id (1024 + slot)), (u16_id (8 + n)), !le_htons by (unfold DNS_PORT; lia).
Qed.

(** With the address of the next hop known, the first try sends the query and is the last. *)
Lemma dns_send_found us meanwhile waits s slot srv (pkt : list Z) m p mac :
  num_net_ifs s <> 0 -> (net_ifs s).[0] <> NULL -> 0 <= slot < DNS_MAX_QUERIES -> zlen pkt <= 512 ->
  nm_kmalloc (net_mem s) (42 + zlen pkt) = Some (m, p) -> p <> NULL ->
  arp_get s (next_hop s srv) = Some mac ->
  let d := (net_ifs s).[0] in
  exists checksum, let ip := query_ip (zlen pkt) (u16 us) checksum (ip_addr (devs s d)) srv in
    (forall m p, bytes_ok m -> stored_at m p ip -> ip_checksum m p 20 = Some 0) /\
    dns_send ((us, meanwhile) :: waits) s slot srv pkt = Some (s <| net_mem := nm_kfree m p |>
      <| sent := sent s ++ [(d, query_frame mac (if_mac (devs s d)) ip slot pkt)] |>).
Proof.
  intros Hn Hd Hsl Hp Hk Hnp Hmac d. pose proof (zlen_nonneg pkt) as H0.
  destruct (ip_hdr_ok (IP_HDR + UDP_HDR + zlen pkt) (htons (u16 us)) IP_PROTO_UDP (ip_addr (devs s d)) srv)
    as (h & Eh & _ & _ & (c & -> & _) & Hsum).
  rewrite query_ip_fields in * by (lia || apply u16_range).
  exists c. split; [exact Hsum|]. cbn [dns_send]. unfold udp_send_raw. cbn zeta.
  destruct (Z.eqb_spec (num_net_ifs s) 0); [done|].
  change (ETH_HDR_LEN + IP_HDR + UDP_HDR) with 42. rewrite Hk. cbv [mbind option_bind]. cbv beta iota.
  destruct (Z.eqb_spec p NULL); [done|].
  rewrite arp_lookup_map by done. change (arp_get _ _) with (arp_get s (next_hop s srv)). rewrite Hmac.
  change (ip_hdr _ _ _ _ _) with (ip_hdr (IP_HDR + UDP_HDR + zlen pkt) (htons (u16 us)) IP_PROTO_UDP (ip_addr (devs s d)) srv).
  rewrite Eh. rewrite query_udp by (done || lia). cbn [Z.eqb].
  unfold transmit, query_frame, eth_hdr. rewrite le_htons by (unfold ETH_P_IP; lia).
  rewrite <- !app_assoc. reflexivity.
Qed.

Lemma bytes_query s slot f id : bytes (mod_query (s <| dns_next_id := id |>) slot f) = bytes s.
Proof. done. Qed.
End client.

(** Functional: a name of four decimal numbers below 256 is resolved to that address,
    without a packet and without a change of the state. *)
Theorem dotted_name_is_its_address {M} `{NM : NetMemory M} (s : net (M := M)) (fuel : nat) hostname ms ms' waits rounds a b c d :
  num_net_ifs s <> 0 -> hostname <> NULL -> (15 < fuel)%nat ->
  0 <= a < 256 -> 0 <= b < 256 -> 0 <= c < 256 -> 0 <= d < 256 ->
  stored_at (bytes s) hostname (join [decimal a; decimal b; decimal c; decimal d] ++ [0]) ->
  net_dns_resolve fuel s hostname ms ms' waits rounds = Some (s, Some (a * 2 ^ 24 + b * 2 ^ 16 + c * 2 ^ 8 + d)).
Proof.
  intros Hn Hh Hf Ha Hb Hc Hd Hs.
  destruct (decimal_spec a Ha) as (Da & Va & La), (decimal_spec b Hb) as (Db & Vb & Lb),
    (decimal_spec c Hc) as (Dc & Vc & Lc), (decimal_spec d Hd) as (Dd & Vd & Ld).
  revert Hs Da Va La Db Vb Lb Dc Vc Lc Dd Vd Ld.
  generalize (decimal a) (decimal b) (decimal c) (decimal d). intros A B C D Hs Da Va La Db Vb Lb Dc Vc Lc Dd Vd Ld.
  assert (Hj : join [A; B; C; D] = A ++ 46 :: B ++ 46 :: C ++ 46 :: D) by done. rewrite Hj in Hs.
  assert (Hdig : forall l, Forall (fun x => 48 <= x <= 57) l -> forallb digit_or_dot l = true /\ Forall (fun x => x <> 0) l).
  { intros l Hl. split; [|eapply Forall_impl; [exact Hl|]; cbn; lia]. apply forallb_forall. intros x Hx%list_elem_of_In.
    rewrite Forall_forall in Hl. specialize (Hl x Hx). unfold digit_or_dot.
    destruct (Z.leb_spec 48 x), (Z.leb_spec x 57); lia. }
  destruct (Hdig A Da) as [GA NA], (Hdig B Db) as [GB NB], (Hdig C Dc) as [GC NC], (Hdig D Dd) as [GD ND]. clear Hdig.
  unfold net_dns_resolve, dns_start. cbn zeta.
  destruct (Z.eqb_spec hostname NULL), (Z.eqb_spec (num_net_ifs s) 0); try done. cbn [orb].
  rewrite (all_digits_spec _ fuel _ _ Hs).
  2: { repeat (apply Forall_app; split; [done|]; constructor; [done|]). done. }
  2: { rewrite length_app; cbn [length]; rewrite length_app; cbn [length]; rewrite length_app; cbn [length]. lia. }
  rewrite forallb_app. cbn [forallb]. rewrite forallb_app. cbn [forallb]. rewrite forallb_app. cbn [forallb].
  rewrite GA, GB, GC, GD. cbn [andb digit_or_dot Z.eqb Pos.eqb orb]. cbv [mbind option_bind].
  set (m := bytes s) in *. rewrite <- !app_assoc in Hs. cbn [app] in Hs. rewrite <- !app_assoc in Hs. cbn [app] in Hs.
  rewrite <- !app_assoc in Hs. cbn [app] in Hs.
  assert (Hpart : forall l x r p, stored_at m p (l ++ x :: r) -> stored_at m p (l ++ [x]) /\ stored_at m (p + zlen l + 1) r).
  { intros l x r p H. apply stored_app in H as [H1 H2]. apply stored_cons in H2 as [H2 H3]. split; [|exact H3].
    apply stored_app. split; [exact H1|]. apply stored_cons. split; [exact H2|]. intros i Hi. unfold zlen in Hi. cbn in Hi. lia. }
  destruct (Hpart _ _ _ _ Hs) as [SA Hs1]. destruct (Hpart _ _ _ _ Hs1) as [SB Hs2]. destruct (Hpart _ _ _ _ Hs2) as [SC SD].
  unfold parse_dotted. rewrite (parse_number_spec A 46 fuel m hostname 0 SA Da ltac:(lia) ltac:(lia)).
  cbv [mbind option_bind]. rewrite (parse_number_spec B 46 fuel m _ 0 SB Db ltac:(lia) ltac:(lia)).
  rewrite (parse_number_spec C 46 fuel m _ 0 SC Dc ltac:(lia) ltac:(lia)), (parse_number_spec D 0 fuel m _ 0 SD Dd ltac:(lia) ltac:(lia)).
  rewrite Va, Vb, Vc, Vd. rewrite (u32_id (Z.shiftl a 24)), (u32_id (Z.shiftl b 16)), (u32_id (Z.shiftl c 8))
    by (rewrite Z.shiftl_mul_pow2 by lia; lia).
  rewrite lor4 by lia. reflexivity.
Qed.

(** C17 Round trip: any other name of labels of 1 to 63 characters, up to 494 bytes, is
    sent as a query in the first free slot (a longer one overruns the packet).  The packet is
    exactly the standard query for the name's address ([query_bytes]); it goes to the
    interface's server or, without one, to 8.8.8.8, and once the address of the next hop is known
    it is put on the wire in a frame whose every byte is fixed ([query_frame]), from port
    1024 + slot to port 53, with a checksum that is right.  A server
    that repeats its identifier and question and appends an address has the slot
    resolved to that address, whenever its datagram arrives while no earlier slot
    waits for the same identifier, and the wait returns that address and frees the slot;
    when the time is over, it returns 0 and frees the slot. *)
Theorem dns_query_is_answered {M} `{NM : NetMemory M} (s : net (M := M)) (fuel : nat) hostname ms L slot :
  num_net_ifs s <> 0 -> hostname <> NULL -> (net_ifs s).[0] <> NULL -> L <> [] -> Forall label_ok L ->
  stored_at (bytes s) hostname (join L ++ [0]) -> (length (join L) < fuel)%nat -> forallb digit_or_dot (join L) = false ->
  zlen (dns_queries s) = DNS_MAX_QUERIES -> 0 <= slot < DNS_MAX_QUERIES -> dq_in_use (dns_queries s).[slot] = 0 ->
  (forall j, 0 <= j < slot -> dq_in_use (dns_queries s).[j] <> 0) -> 0 <= dns_next_id s < 2 ^ 16 ->
  let qid := dns_next_id s in
  let d := (net_ifs s).[0] in
  let srv := htonl (if dns1 (devs s d) =? 0 then 0x08080808 else dns1 (devs s d)) in
  let pkt := query_bytes qid L in
  let s1 := s <| dns_next_id := u16 (qid + 1) |> <| dns_queries := (dns_queries s).[slot <- mk_query qid 0 ms 0 1] |> in
  (494 < zlen (join L) -> dns_start fuel s hostname ms = None) /\
  (zlen (join L) <= 494 ->
    dns_start fuel s hostname ms = Some (s1, DnsQuery slot srv pkt) /\ zlen pkt <= 512 /\
    (forall us meanwhile waits m p mac, nm_kmalloc (net_mem s1) (42 + zlen pkt) = Some (m, p) -> p <> NULL ->
      arp_get s1 (next_hop s1 srv) = Some mac ->
      exists checksum, let ip := query_ip (zlen pkt) (u16 us) checksum (ip_addr (devs s d)) srv in
        (forall m p, bytes_ok m -> stored_at m p ip -> ip_checksum m p 20 = Some 0) /\
        dns_send ((us, meanwhile) :: waits) s1 slot srv pkt = Some (s1 <| net_mem := nm_kfree m p |>
          <| sent := sent s ++ [(d, query_frame mac (if_mac (devs s d)) ip slot pkt)] |>)) /\
    (forall (s2 : net (M := M)) data port ttl ip, zlen ttl = 4 -> 0 <= ip < 2 ^ 32 ->
      waiting s2 qid slot = true -> (forall j, 0 <= j < slot -> waiting s2 qid j = false) ->
      zlen (dns_queries s2) = DNS_MAX_QUERIES ->
      let answer := udp_datagram DNS_PORT port (dns_reply qid (drop 12 pkt) ttl ip) in
      stored_at (bytes s2) data answer ->
      forall now deadline rounds, now < deadline -> exists s3,
        dns_wait ((now, fun s => udp_rx s data (zlen answer)) :: rounds) deadline s2 slot = Some (s3, Some ip) /\
        dq_in_use (dns_queries s3).[slot] = 0 /\ forall j, 0 <= j -> j <> slot -> (dns_queries s3).[j] = (dns_queries s2).[j]) /\
    (forall (s2 : net (M := M)) now meanwhile rounds deadline, deadline <= now ->
      dns_wait ((now, meanwhile) :: rounds) deadline s2 slot =
        Some (mod_query s2 slot (fun q => q <| dq_in_use := 0 |>), Some 0))).
Proof.
  intros Hn Hh Hd HL0 HL Hs Hf Hdig Hlen Hslot Hfree Hused Hq qid d srv pkt s1.
  pose proof (start_query fuel s hostname ms L slot Hn Hh Hd HL0 HL Hs Hf Hdig Hslot Hfree Hused) as E. cbn zeta in E. fold qid d in E. rewrite E.
  rewrite (dns_packet_bytes qid L Hq). fold pkt srv.
  assert (Es1 : mod_query (s <| dns_next_id := u16 (qid + 1) |>) slot (fun _ => mk_query qid 0 ms 0 1) = s1) by reflexivity.
  rewrite Es1. clear Es1.
  assert (Hz : zlen (join L) <= 494 -> zlen pkt <= 512).
  { unfold pkt. rewrite <- dns_packet_bytes, zlen_dns_packet, zlen_enc by done. lia. }
  split; intros Hle; (destruct (Z.ltb_spec 494 (zlen (join L))); [|]); try lia; [done|].
  split; [reflexivity|]. split; [by apply Hz|].
  split; [|split].
  - intros us meanwhile waits m p mac Hk Hp Hmac.
    exact (dns_send_found us meanwhile waits s1 slot srv pkt m p mac Hn Hd Hslot (Hz Hle) Hk Hp Hmac).
  - intros s2 data port ttl ip Ht Hip Hw Hfirst Hlen2. change (drop 12 pkt) with (enc L ++ [0; 0; 1; 0; 1]).
    intros answer Hst now deadline rounds Hnow. unfold answer in *. cbn [dns_wait]. destruct (Z.ltb_spec now deadline); [|lia]. unfold DNS_MAX_QUERIES in *.
    rewrite (udp_rx_reply s2 data port qid L ttl ip slot); try done; [|rewrite zlen_enc by done; lia].
    cbv [mbind option_bind]. unfold mod_query. rec_simpl. rewrite !(aget_aset _ slot slot) by lia. rewrite Z.eqb_refl. cbn [resolved result_ip Z.eqb negb].
    eexists. split; [reflexivity|]. rec_simpl. split.
    + rewrite aget_aset by (rewrite ?zlen_aset; lia). by rewrite Z.eqb_refl.
    + intros j Hj Hne. rewrite !aget_aset by (rewrite ?zlen_aset; lia). destruct (Z.eqb_spec slot j); [lia|done].
  - intros s2 now meanwhile rounds deadline Hnow. cbn [dns_wait]. destruct (Z.ltb_spec now deadline); [lia|done].
Qed.

(** Termination: whatever bytes a UDP packet holds, and whatever lengths and counts it
    claims, [udp_rx] returns; and it changes at most the first query that waits for the
    identifier in the packet, which it resolves to the address [find_answer] reads, and only for a packet from port 53 that
    says it is an answer without error. *)
Theorem dns_answers_are_read {M} `{NM : NetMemory M} (s : net (M := M)) data len :
  bytes_ok (bytes s) -> zlen (dns_queries s) = DNS_MAX_QUERIES ->
  exists s', udp_rx s data len = Some s' /\
  (s' = s \/ exists i ip, 0 <= i < DNS_MAX_QUERIES /\ waiting s (be16 (bytes s) (data + UDP_HDR)) i = true /\
    (forall j, 0 <= j < i -> waiting s (be16 (bytes s) (data + UDP_HDR)) j = false) /\
    ntohs (load_le 2 (bytes s) data) = DNS_PORT /\ Z.land (be16 (bytes s) (data + UDP_HDR + 2)) 0x800F = 0x8000 /\
    s' = mod_query s i (fun q => q <| result_ip := ip |> <| resolved := 1 |>)).
Proof.
  intros Hm Hlen. unfold udp_rx. cbn zeta.
  destruct (len <? UDP_HDR); [exists s; by auto|]. destruct (_ <? UDP_HDR); [exists s; by auto|].
  destruct (Z.eqb_spec (ntohs (load_le 2 (bytes s) data)) DNS_PORT) as [Ep|]; cbn [andb]; [|exists s; by auto].
  destruct (12 <=? _); [|exists s; by auto].
  set (flags := be16 (bytes s) (data + UDP_HDR + 2)).
  destruct (Z.eqb_spec (Z.land flags 0x8000) 0) as [|E1]; cbn [orb]; [exists s; by auto|].
  destruct (Z.eqb_spec (Z.land flags 0x000F) 0) as [E2|]; cbn [negb]; [|exists s; by auto].
  destruct (find_from _ _ _) as [i|] eqn:Ef; [|exists s; by auto].
  apply find_from_Some in Ef as (Hi & Hw & Hfst).
  match goal with |- context [skip_questions ?n ?m ?p ?l ?o] => destruct (skip_questions_total n m p l o Hm) as (off & ->) end.
  cbv [mbind option_bind].
  match goal with |- context [find_answer ?n ?m ?p ?l ?o] => destruct (find_answer_total n m p l o Hm) as (r & ->) end.
  destruct r as [ip|]; [|exists s; by auto]. eexists. split; [reflexivity|]. right. exists i, ip. split; [exact Hi|].
  split; [exact Hw|]. split; [intros j Hj; apply Hfst; lia|]. split; [exact Ep|]. split; [|reflexivity].
  change 0x800F with (Z.lor 0x8000 0x000F). rewrite Z.land_lor_distr_r, E2, Z.lor_0_r.
  change 0x8000 with (2 ^ 15) in *. apply Z.bits_inj'. intros k Hk. rewrite Z.land_spec, !Z.pow2_bits_eqb by lia.
  destruct (Z.eqb_spec 15 k) as [<-|]; [|by rewrite andb_false_r].
  destruct (Z.testbit flags 15) eqn:Et; [done|]. exfalso. apply E1. apply Z.bits_inj'. intros j Hj.
  rewrite Z.land_spec, Z.pow2_bits_eqb, Z.bits_0 by lia. destruct (Z.eqb_spec 15 j) as [<-|]; [by rewrite Et|by rewrite andb_false_r].
Qed.

(** * Concrete runs *)

(** a.bc as labels, and a host that has this name at address 100. *)
Definition demo_labels : list (list Z) := [[97]; [98; 99]].
Definition demo_resolver (l : list Z) : net (M := mem * Z) := demo_host 0x0100000A (demo_mac 1) l.

Lemma demo_stored ip mac l : stored_at (bytes (demo_host ip mac l)) 100 l.
Proof.
  intros i Hi. change (bytes (demo_host ip mac l) (100 + i)) with ((replicate 100 0 ++ l).[100 + i]). unfold aget.
  rewrite lookup_total_app_r by (rewrite length_replicate; lia). f_equal. rewrite length_replicate. lia.
Qed.

Lemma demo_labels_ok : Forall label_ok demo_labels.
Proof.
  repeat (constructor; [split; [vm_compute; split; [reflexivity|discriminate]|repeat (constructor; [split; [split; [discriminate|reflexivity]|split; discriminate]|]); constructor]|]).
  constructor.
Qed.

Lemma dotted_name_is_its_address_witness :
  net_dns_resolve 20 (demo_resolver (join [decimal 10; decimal 0; decimal 0; decimal 255] ++ [0])) 100 5 5 [] [] =
  Some (demo_resolver (join [decimal 10; decimal 0; decimal 0; decimal 255] ++ [0]), Some 0x0A0000FF).
Proof.
  apply (dotted_name_is_its_address (demo_resolver (join [decimal 10; decimal 0; decimal 0; decimal 255] ++ [0])) 20 100 5 5 [] [] 10 0 0 255);
    [discriminate|discriminate|lia|lia|lia|lia|lia|apply demo_stored].
Defined.

Lemma dns_query_is_answered_witness :
  query_bytes 0x1234 demo_labels =
    [0x12; 0x34; 1; 0; 0; 1; 0; 0; 0; 0; 0; 0; 1; 97; 2; 98; 99; 0; 0; 1; 0; 1] /\
  exists s1 srv_net, dns_start 20 (demo_resolver (join demo_labels ++ [0])) 100 5 =
    Some (s1, DnsQuery 0 srv_net (query_bytes 0x1234 demo_labels)).
Proof.
  split; [reflexivity|].
  destruct (dns_query_is_answered (demo_resolver (join demo_labels ++ [0])) 20 100 5 demo_labels 0) as [_ H];
    [discriminate|discriminate|discriminate|discriminate|exact demo_labels_ok|apply demo_stored|cbn; lia|reflexivity|reflexivity|
     split; [lia|reflexivity]|reflexivity|intros j Hj; lia|vm_compute; split; [discriminate|reflexivity]|].
  destruct H as (E & _); [vm_compute; discriminate|].
  eexists _, _. exact E.
Defined.

Lemma dns_answers_are_read_witness :
  exists s', udp_rx (demo_resolver [0; 53; 0; 0; 0; 255; 0; 0]) 100 20 = Some s'.
Proof.
  destruct (dns_answers_are_read (demo_resolver [0; 53; 0; 0; 0; 255; 0; 0]) 100 20) as (s' & E & _);
    [|reflexivity|exists s'; exact E].
  intros a. change (bytes (demo_resolver [0; 53; 0; 0; 0; 255; 0; 0]) a) with (of_list (replicate 100 0 ++ [0; 53; 0; 0; 0; 255; 0; 0]) a).
  apply of_list_bytes. apply Forall_app. split.
  - apply Forall_replicate. split; [discriminate|reflexivity].
  - repeat (constructor; [split; [discriminate|reflexivity]|]). constructor.
Defined.

(** A short name is read behind its end: 7 is followed by whatever lies there. *)
Example short_dotted_name_reads_on :
  option_map snd (net_dns_resolve 20 (demo_resolver [55; 0; 49; 46; 50; 46; 51]) 100 5 5 [] []) = Some (Some 0x07010203).
Proof. vm_compute. reflexivity. Qed.

(** The datagram a server sends for the demo's query resolves it. *)
Example demo_answer :
  let reply := udp_datagram DNS_PORT 1024 (dns_reply 0x1234 (enc demo_labels ++ [0; 0; 1; 0; 1]) [0; 0; 0; 60] 0x0A0B0C0D) in
  option_map (fun s => map result_ip (dns_queries s))
    (udp_rx (mod_query (demo_resolver reply) 3 (fun _ => mk_query 0x1234 0 5 0 1)) 100 (zlen reply)) =
  Some ([0; 0; 0; 0x0A0B0C0D] ++ replicate 28 0).
Proof. vm_compute. reflexivity. Qed.
