(* ===== verification/Gfx.v ===== *)
(** Drawing into a frame buffer ([src/gui_graphics.c]): colours, rectangles, lines,
    circles, triangles, gradients, text in the built-in font, and copies, with every
    function of the file; and the theorems that nothing is drawn outside the clip
    rectangle, what is drawn by the rectangle operations, and that the loops end.

    A graphics context holds the pixels by their index ([y * width + x]).  Coordinates
    are [int32_t] or [uint32_t] as in the code and wrap at their width ([s32], [u32]); a
    conversion from one to the other is written out.  A context is never [NULL] here (the
    functions then return at once); source pictures and gradients may be ([None]).
    Counted loops are [for_range]; the others take fuel.  [None] as a result is a
    division by zero, a string without end, or a write through a [NULL] frame buffer. *)
From S2P Require Import Prelude Pmm CString.

(** * The font *)

Definition FONT_W : Z := 8.
Definition FONT_H : Z := 16.

(** 95 characters of 16 rows of 8 pixels; a character is written as one number, its
    16 bytes from the first row to the last. *)
Definition glyph_rows (g : Z) : list Z := (fun row => Z.land (Z.shiftr g (8 * (15 - row))) 0xFF) <$> seqZ 0 16.
Definition font_8x16 : list (list Z) := glyph_rows <$> [
  0x00000000000000000000000000000000; 0x00001818181818181818001818000000;
  0x00666666000000000000000000000000; 0x00006C6C6CFE6C6C6CFE6C6C6C000000;
  0x0010103C565250301814125274101000; 0x000062660C0C18183030606646000000;
  0x0000386C6C3870DACEC6C66C3A000000; 0x00181818300000000000000000000000;
  0x000C183060606060606030180C000000; 0x0030180C0606060606060C1830000000;
  0x00000000663CFF3C6600000000000000; 0x00000000181818FF1818180000000000;
  0x00000000000000000000181818300000; 0x00000000000000FE0000000000000000;
  0x00000000000000000000181800000000; 0x000002060C183060C080000000000000;
  0x00003C66C3C3C3C3C3C3663C00000000; 0x00001878181818181818187E00000000;
  0x00003C66C303060C183060FF00000000; 0x0000FF060C183C060303C37E00000000;
  0x0000060E1E3666C6FF06060600000000; 0x0000FFC0C0FC06030303C37E00000000;
  0x00003C66C0C0FCC6C3C3663C00000000; 0x0000FF0306060C0C1818303000000000;
  0x00007EC3C3663C66C3C3C37E00000000; 0x00003C66C3C3C3673B03063C00000000;
  0x00000000001818000000181800000000; 0x00000000001818000000181830000000;
  0x0000060C1830606030180C0600000000; 0x0000000000FE000000FE000000000000;
  0x00006030180C06060C18306000000000; 0x00003C66C303060C1818001818000000;
  0x00007EC3C3CFDBDBCFC0C37E00000000; 0x0000183C66C3C3FFC3C3C3C300000000;
  0x0000FCC6C6C6FCC6C3C3C6FC00000000; 0x00003C66C3C0C0C0C0C3663C00000000;
  0x0000FCC6C3C3C3C3C3C3C6FC00000000; 0x0000FFC0C0C0FCC0C0C0C0FF00000000;
  0x0000C0C0C0C0FCC0C0C0C0FF00000000; 0x00003E66C0C0C0CFC3C3663E00000000;
  0x0000C3C3C3C3FFC3C3C3C3C300000000; 0x00007E18181818181818187E00000000;
  0x00007E181818181818181818D8F00000; 0x0000C3C6CCD8F0D8CCC6C3C300000000;
  0x0000FFC0C0C0C0C0C0C0C0C000000000; 0x0000C3E7FFDBC3C3C3C3C3C300000000;
  0x0000C3E3F3FBDBCFC7C3C3C300000000; 0x00007EC3C3C3C3C3C3C3C37E00000000;
  0x0000FCC6C3C3C6FCC0C0C0C000000000; 0x00007EC3C3C3C3C3DBCF663D00000000;
  0x0000FCC6C3C3C6FCCCC6C3C300000000; 0x00007EC3C0C07E030303C37E00000000;
  0x0000FF18181818181818181800000000; 0x0000C3C3C3C3C3C3C3C3663C00000000;
  0x0000C3C3C3C3C3C3663C181800000000; 0x0000C3C3C3C3DBDBFFE7C34200000000;
  0x0000C3663C1818183C66C3C300000000; 0x0000C3C3C3663C181818181800000000;
  0x0000FF03060C183060C0C0FF00000000; 0x00007860606060606060607800000000;
  0x000080C06030180C0603010000000000; 0x00001E06060606060606061E00000000;
  0x0000183C66C300000000000000000000; 0x00000000000000000000000000FF0000;
  0x00003030180C00000000000000000000; 0x00000000007E037FC3C3673B00000000;
  0x0000C0C0C0FCC6C3C3C3C6FC00000000; 0x00000000007EC3C0C0C0C37E00000000;
  0x00000303037FC3C3C3C3663C00000000; 0x00000000007EC3C3FFC0C37E00000000;
  0x00000E18187E18181818181800000000; 0x00000000007FC3C3C3C3673B03067C00;
  0x0000C0C0C0FCC6C3C3C3C3C300000000; 0x00001818007818181818187E00000000;
  0x00000C0C003C0C0C0C0C0C0CCC780000; 0x0000C0C0C0C6CCD8F0D8CCC600000000;
  0x00007818181818181818187E00000000; 0x0000000000FC66666666666600000000;
  0x0000000000FCC6C3C3C3C3C300000000; 0x00000000007EC3C3C3C3C37E00000000;
  0x0000000000FCC6C3C3C3C6FCC0C0C000; 0x00000000007FC3C3C3C3663E06060600;
  0x0000000000FCC6C0C0C0C0C000000000; 0x00000000007EC0C07E0303FE00000000;
  0x00001818187E18181818180E00000000; 0x0000000000C3C3C3C3C3663C00000000;
  0x0000000000C3C3C3C3663C1800000000; 0x0000000000C3C3DBDBFF666600000000;
  0x0000000000C3663C183C66C300000000; 0x0000000000C3C3C3C3673B0303067C00;
  0x0000000000FF060C183060FF00000000; 0x00000E18181830181818180E00000000;
  0x00001818181818181818181818181800; 0x0000701818180C181818187000000000;
  0x0000000073DBCE000000000000000000
].

(** * Contexts *)

Definition BLEND_ALPHA : Z := 1.

(** [gfx_ctx_t]; [fb] is the address, [pixels] what it points to *)
Record gfx_ctx := mk_ctx {
  fb : Z; pixels : Z -> Z;
  width : Z; height : Z; pitch : Z;
  clip_x : Z; clip_y : Z; clip_x2 : Z; clip_y2 : Z;
  blend_mode : Z
}.
#[export] Instance eta_ctx : Eta gfx_ctx := fun c =>
  mk_ctx (fb c) (pixels c) (width c) (height c) (pitch c) (clip_x c) (clip_y c) (clip_x2 c) (clip_y2 c) (blend_mode c).

Record gradient := mk_gradient { color1 : Z; color2 : Z; vertical : Z }.

Definition put (ctx : gfx_ctx) (i c : Z) : gfx_ctx := ctx <| pixels := <[i := c]> (pixels ctx) |>.

(** [for (k = a; k < b; k++) s = body(k, s);] *)
Definition for_range {S} (a b : Z) (body : Z -> S -> S) (s : S) : S :=
  fold_left (fun s k => body k s) (seqZ a (b - a)) s.

Definition gfx_reset_clip (ctx : gfx_ctx) : gfx_ctx :=
  ctx <| clip_x := 0 |> <| clip_y := 0 |> <| clip_x2 := width ctx |> <| clip_y2 := height ctx |>.

Definition gfx_set_clip (ctx : gfx_ctx) (x y w h : Z) : gfx_ctx :=
  let x2 := u32 (x + w) in
  let y2 := u32 (y + h) in
  ctx <| clip_x := x |> <| clip_y := y |>
      <| clip_x2 := if width ctx <? x2 then width ctx else x2 |>
      <| clip_y2 := if height ctx <? y2 then height ctx else y2 |>.

(** The static context, filled in; [px] is what the frame buffer shows. *)
Definition gfx_create_context (fb : Z) (px : Z -> Z) (w h : Z) : gfx_ctx :=
  gfx_reset_clip (mk_ctx fb px w h (u32 (w * 4)) 0 0 0 0 BLEND_ALPHA).

Definition clip_test (ctx : gfx_ctx) (x y : Z) : bool :=
  (s32 (clip_x ctx) <=? x) && (x <? s32 (clip_x2 ctx)) && (s32 (clip_y ctx) <=? y) && (y <? s32 (clip_y2 ctx)).
Definition clip_test_u (ctx : gfx_ctx) (x y : Z) : bool :=
  (clip_x ctx <=? x) && (x <? clip_x2 ctx) && (clip_y ctx <=? y) && (y <? clip_y2 ctx).

(** * Colours *)

(** [(c >> k) & 0xFF] *)
Definition channel (c k : Z) : Z := Z.land (Z.shiftr c k) 0xFF.
(** [0xFF000000 | (r << 16) | (g << 8) | b] *)
Definition opaque (r g b : Z) : Z := u32 (Z.lor (Z.lor (Z.lor 0xFF000000 (Z.shiftl r 16)) (Z.shiftl g 8)) b).

Definition blend_channel (s d sa da : Z) : Z := u8 (s * sa / 255 + d * da / 255).
Definition gfx_blend (dst src : Z) : Z :=
  let sa := u8 (Z.shiftr src 24) in
  if sa =? 0 then dst else
  if sa =? 255 then src else
  let da := u8 (255 - sa) in
  opaque (blend_channel (channel src 16) (channel dst 16) sa da)
         (blend_channel (channel src 8) (channel dst 8) sa da)
         (blend_channel (channel src 0) (channel dst 0) sa da).

(** The division of C rounds towards zero. *)
Definition lerp_channel (a b t : Z) : Z := a + (b - a) * t ÷ 255.
Definition gfx_color_lerp (a b t : Z) : Z :=
  opaque (lerp_channel (channel a 16) (channel b 16) t) (lerp_channel (channel a 8) (channel b 8) t)
         (lerp_channel (channel a 0) (channel b 0) t).

Definition darken_channel (v amt : Z) : Z := u8 (v * (255 - amt) / 255).
Definition gfx_darken (c amt : Z) : Z :=
  opaque (darken_channel (channel c 16) amt) (darken_channel (channel c 8) amt) (darken_channel (channel c 0) amt).

Definition lighten_channel (v amt : Z) : Z := u8 (v + amt * (255 - v) / 255).
Definition gfx_lighten (c amt : Z) : Z :=
  opaque (lighten_channel (channel c 16) amt) (lighten_channel (channel c 8) amt) (lighten_channel (channel c 0) amt).

(** * Pixels, rectangles, lines *)

Definition gfx_putpixel (ctx : gfx_ctx) (x y c : Z) : gfx_ctx :=
  if fb ctx =? NULL then ctx else
  if (x <? 0) || (y <? 0) || (s32 (width ctx) <=? x) || (s32 (height ctx) <=? y) then ctx else
  if negb (clip_test ctx x y) then ctx else
  let i := u32 (y * width ctx + x) in
  if Z.shiftr c 24 =? 0xFF then put ctx i c
  else if negb (Z.shiftr c 24 =? 0) then put ctx i (gfx_blend (pixels ctx i) c)
  else ctx.

(** The corners of a rectangle cut to the clip rectangle: x0, y0, x1, y1. *)
Definition clipped (ctx : gfx_ctx) (x y w h : Z) : Z * Z * Z * Z :=
  let x1 := s32 (x + s32 w) in
  let y1 := s32 (y + s32 h) in
  (if x <? s32 (clip_x ctx) then s32 (clip_x ctx) else x,
   if y <? s32 (clip_y ctx) then s32 (clip_y ctx) else y,
   if s32 (clip_x2 ctx) <? x1 then s32 (clip_x2 ctx) else x1,
   if s32 (clip_y2 ctx) <? y1 then s32 (clip_y2 ctx) else y1).

Definition gfx_fill_rect (ctx : gfx_ctx) (x y w h c : Z) : gfx_ctx :=
  if (fb ctx =? NULL) || (w =? 0) || (h =? 0) then ctx else
  let '(x0, y0, x1, y1) := clipped ctx x y w h in
  if (x1 <=? x0) || (y1 <=? y0) then ctx else
  let cw := u32 (x1 - x0) in
  let a := u8 (Z.shiftr c 24) in
  if a =? 0xFF then
    for_range y0 y1 (fun row ctx =>
      let p := u32 (row * width ctx + x0) in
      for_range 0 cw (fun i ctx => put ctx (p + i) c) ctx) ctx
  else if negb (a =? 0) then
    for_range y0 y1 (fun row ctx =>
      let p := u32 (row * width ctx + x0) in
      for_range 0 cw (fun i ctx => put ctx (p + i) (gfx_blend (pixels ctx (p + i)) c)) ctx) ctx
  else ctx.

Definition gfx_rect (ctx : gfx_ctx) (x y w h c : Z) : gfx_ctx :=
  if (w =? 0) || (h =? 0) then ctx else
  let ctx := gfx_fill_rect ctx x y w 1 c in
  let ctx := gfx_fill_rect ctx x (s32 (y + h - 1)) w 1 c in
  let ctx := gfx_fill_rect ctx x y 1 h c in
  gfx_fill_rect ctx (s32 (x + w - 1)) y 1 h c.

(** [while (1)] of [gfx_line] *)
Fixpoint line_loop (fuel : nat) (ctx : gfx_ctx) (x0 y0 x1 y1 dx dy sx sy err c : Z) : option gfx_ctx :=
  match fuel with
  | O => None
  | S f =>
      let ctx := gfx_putpixel ctx x0 y0 c in
      if (x0 =? x1) && (y0 =? y1) then Some ctx else
      let e2 := s32 (2 * err) in
      let '(err, x0) := if - dy <? e2 then (s32 (err - dy), s32 (x0 + sx)) else (err, x0) in
      let '(err, y0) := if e2 <? dx then (s32 (err + dx), s32 (y0 + sy)) else (err, y0) in
      line_loop f ctx x0 y0 x1 y1 dx dy sx sy err c
  end.
Definition gfx_line (fuel : nat) (ctx : gfx_ctx) (x0 y0 x1 y1 c : Z) : option gfx_ctx :=
  let dx := if x0 <? x1 then s32 (x1 - x0) else s32 (x0 - x1) in
  let dy := if y0 <? y1 then s32 (y1 - y0) else s32 (y0 - y1) in
  line_loop fuel ctx x0 y0 x1 y1 dx dy (if x0 <? x1 then 1 else -1) (if y0 <? y1 then 1 else -1) (s32 (dx - dy)) c.

(** * Circles and rounded rectangles *)

Fixpoint sqrt_loop (fuel : nat) (x res nx : Z) : option Z :=
  match fuel with
  | O => None
  | S f => if nx <? res then sqrt_loop f x nx (s32 (nx + x ÷ nx) ÷ 2) else Some res
  end.
Definition sqrt_int (fuel : nat) (x : Z) : option Z :=
  if x <=? 0 then Some 0 else sqrt_loop fuel x x (s32 (x + x ÷ x) ÷ 2).

(** The midpoint loop, shared by [gfx_fill_circle] and [gfx_circle]. *)
Fixpoint midpoint (fuel : nat) (draw : Z -> Z -> gfx_ctx -> gfx_ctx) (x y d : Z) (ctx : gfx_ctx) : option gfx_ctx :=
  match fuel with
  | O => None
  | S f =>
      if y <=? x then
        let ctx := draw x y ctx in
        let y := s32 (y + 1) in
        if d <? 0 then midpoint f draw x y (s32 (d + (2 * y + 1))) ctx
        else let x := s32 (x - 1) in midpoint f draw x y (s32 (d + (2 * (y - x) + 1))) ctx
      else Some ctx
  end.

(** The rows, and the points, drawn in one round. *)
Definition disc_rows (cx cy c x y : Z) (ctx : gfx_ctx) : gfx_ctx :=
  let ctx := gfx_fill_rect ctx (s32 (cx - x)) (s32 (cy + y)) (u32 (2 * x + 1)) 1 c in
  let ctx := gfx_fill_rect ctx (s32 (cx - x)) (s32 (cy - y)) (u32 (2 * x + 1)) 1 c in
  let ctx := gfx_fill_rect ctx (s32 (cx - y)) (s32 (cy + x)) (u32 (2 * y + 1)) 1 c in
  gfx_fill_rect ctx (s32 (cx - y)) (s32 (cy - x)) (u32 (2 * y + 1)) 1 c.
Definition circle_points (cx cy c x y : Z) (ctx : gfx_ctx) : gfx_ctx :=
  let ctx := gfx_putpixel ctx (s32 (cx + x)) (s32 (cy + y)) c in
  let ctx := gfx_putpixel ctx (s32 (cx + y)) (s32 (cy + x)) c in
  let ctx := gfx_putpixel ctx (s32 (cx - y)) (s32 (cy + x)) c in
  let ctx := gfx_putpixel ctx (s32 (cx - x)) (s32 (cy + y)) c in
  let ctx := gfx_putpixel ctx (s32 (cx - x)) (s32 (cy - y)) c in
  let ctx := gfx_putpixel ctx (s32 (cx - y)) (s32 (cy - x)) c in
  let ctx := gfx_putpixel ctx (s32 (cx + y)) (s32 (cy - x)) c in
  gfx_putpixel ctx (s32 (cx + x)) (s32 (cy - y)) c.

Definition gfx_fill_circle (fuel : nat) (ctx : gfx_ctx) (cx cy r c : Z) : option gfx_ctx :=
  if r =? 0 then Some ctx else midpoint fuel (disc_rows cx cy c) (s32 r) 0 (s32 (1 - s32 r)) ctx.
Definition gfx_circle (fuel : nat) (ctx : gfx_ctx) (cx cy r c : Z) : option gfx_ctx :=
  if r =? 0 then Some ctx else midpoint fuel (circle_points cx cy c) (s32 r) 0 (s32 (1 - s32 r)) ctx.

(** [if (r > h/2) r = h/2; if (r > w/2) r = w/2;] *)
Definition corner_radius (w h r : Z) : Z :=
  let r := if h / 2 <? r then h / 2 else r in
  if w / 2 <? r then w / 2 else r.

Definition gfx_fill_rounded (fuel : nat) (ctx : gfx_ctx) (x y w h r c : Z) : option gfx_ctx :=
  if (w =? 0) || (h =? 0) then Some ctx else
  if r =? 0 then Some (gfx_fill_rect ctx x y w h c) else
  let r := corner_radius w h r in
  let ctx := gfx_fill_rect ctx (s32 (x + r)) y (u32 (w - 2 * r)) h c in
  let ctx := gfx_fill_rect ctx x (s32 (y + r)) w (u32 (h - 2 * r)) c in
  ctx ← gfx_fill_circle fuel ctx (s32 (x + r)) (s32 (y + r)) r c;
  ctx ← gfx_fill_circle fuel ctx (s32 (x + w - r - 1)) (s32 (y + r)) r c;
  ctx ← gfx_fill_circle fuel ctx (s32 (x + r)) (s32 (y + h - r - 1)) r c;
  gfx_fill_circle fuel ctx (s32 (x + w - r - 1)) (s32 (y + h - r - 1)) r c.

(** The eight points of one step of the corner arcs. *)
Definition arc_points (ctx : gfx_ctx) (x y w h r0 cx_off cy_off c : Z) : gfx_ctx :=
  let ctx := gfx_putpixel ctx (s32 (x + r0 - cx_off)) (s32 (y + r0 - cy_off)) c in
  let ctx := gfx_putpixel ctx (s32 (x + r0 - cy_off)) (s32 (y + r0 - cx_off)) c in
  let ctx := gfx_putpixel ctx (s32 (x + w - r0 + cx_off - 1)) (s32 (y + r0 - cy_off)) c in
  let ctx := gfx_putpixel ctx (s32 (x + w - r0 + cy_off - 1)) (s32 (y + r0 - cx_off)) c in
  let ctx := gfx_putpixel ctx (s32 (x + r0 - cx_off)) (s32 (y + h - r0 + cy_off - 1)) c in
  let ctx := gfx_putpixel ctx (s32 (x + r0 - cy_off)) (s32 (y + h - r0 + cx_off - 1)) c in
  let ctx := gfx_putpixel ctx (s32 (x + w - r0 + cx_off - 1)) (s32 (y + h - r0 + cy_off - 1)) c in
  gfx_putpixel ctx (s32 (x + w - r0 + cy_off - 1)) (s32 (y + h - r0 + cx_off - 1)) c.

(** [for (cx_off = 0; cx_off <= r0; cx_off++)], [n] rounds from [cx_off] on *)
Fixpoint arcs (fuel n : nat) (cx_off : Z) (ctx : gfx_ctx) (x y w h r0 c : Z) : option gfx_ctx :=
  match n with
  | O => Some ctx
  | S n' =>
      cy_off ← sqrt_int fuel (s32 (r0 * r0 - cx_off * cx_off));
      arcs fuel n' (cx_off + 1) (arc_points ctx x y w h r0 cx_off cy_off c) x y w h r0 c
  end.

Definition gfx_rounded_rect (fuel : nat) (ctx : gfx_ctx) (x y w h r c : Z) : option gfx_ctx :=
  if (w =? 0) || (h =? 0) then Some ctx else
  if r =? 0 then Some (gfx_rect ctx x y w h c) else
  let r := corner_radius w h r in
  ctx ← gfx_line fuel ctx (s32 (x + r)) y (s32 (x + w - r)) y c;
  ctx ← gfx_line fuel ctx (s32 (x + r)) (s32 (y + h - 1)) (s32 (x + w - r)) (s32 (y + h - 1)) c;
  ctx ← gfx_line fuel ctx x (s32 (y + r)) x (s32 (y + h - r)) c;
  ctx ← gfx_line fuel ctx (s32 (x + w - 1)) (s32 (y + r)) (s32 (x + w - 1)) (s32 (y + h - r)) c;
  arcs fuel (Z.to_nat (s32 r + 1)) 0 ctx x y w h (s32 r) c.

(** * Triangles and gradients *)

(** [x + (dx * (y - y0)) / dy], or [x] for a horizontal edge *)
Definition edge_x (x dx dy k : Z) : Z := if dy =? 0 then x else s32 (x + s32 (dx * k) ÷ dy).
Definition span (ctx : gfx_ctx) (x_left x_right y c : Z) : gfx_ctx :=
  let '(l, r) := if x_right <? x_left then (x_right, x_left) else (x_left, x_right) in
  gfx_fill_rect ctx l y (u32 (r - l + 1)) 1 c.

Definition gfx_fill_triangle (ctx : gfx_ctx) (x0 y0 x1 y1 x2 y2 c : Z) : gfx_ctx :=
  let '(x0, y0, x1, y1) := if y1 <? y0 then (x1, y1, x0, y0) else (x0, y0, x1, y1) in
  let '(x0, y0, x2, y2) := if y2 <? y0 then (x2, y2, x0, y0) else (x0, y0, x2, y2) in
  let '(x1, y1, x2, y2) := if y2 <? y1 then (x2, y2, x1, y1) else (x1, y1, x2, y2) in
  let dx01 := s32 (x1 - x0) in let dy01 := s32 (y1 - y0) in
  let dx02 := s32 (x2 - x0) in let dy02 := s32 (y2 - y0) in
  let dx12 := s32 (x2 - x1) in let dy12 := s32 (y2 - y1) in
  let ctx := for_range y0 (y1 + 1) (fun y ctx =>
    span ctx (edge_x x0 dx01 dy01 (s32 (y - y0))) (edge_x x0 dx02 dy02 (s32 (y - y0))) y c) ctx in
  for_range y1 (y2 + 1) (fun y ctx =>
    span ctx (edge_x x1 dx12 dy12 (s32 (y - y1))) (edge_x x0 dx02 dy02 (s32 (y - y0))) y c) ctx.

Definition gfx_gradient_rect (ctx : gfx_ctx) (x y w h : Z) (grad : option gradient) : option gfx_ctx :=
  match grad with
  | None => Some ctx
  | Some g =>
      if (w =? 0) || (h =? 0) then Some ctx else
      if negb (vertical g =? 0) then
        if h =? 1 then None                          (* division by [h - 1] *)
        else Some (for_range 0 h (fun row ctx =>
          let c := gfx_color_lerp (color1 g) (color2 g) (u8 (u32 (row * 255) / (h - 1))) in
          gfx_fill_rect ctx x (s32 (y + s32 row)) w 1 c) ctx)
      else
        if w =? 1 then None
        else Some (for_range 0 w (fun col ctx =>
          let c := gfx_color_lerp (color1 g) (color2 g) (u8 (u32 (col * 255) / (w - 1))) in
          gfx_fill_rect ctx (s32 (x + s32 col)) y 1 h c) ctx)
  end.

Definition gfx_gradient_rounded (ctx : gfx_ctx) (x y w h r : Z) (grad : option gradient) : option gfx_ctx :=
  gfx_gradient_rect ctx x y w h grad.

(** * Text *)

Definition draw_glyph (ctx : gfx_ctx) (glyph : list Z) (cx y color scale : Z) : gfx_ctx :=
  for_range 0 FONT_H (fun row ctx =>
    for_range 0 FONT_W (fun col ctx =>
      if negb (Z.land glyph.[row] (Z.shiftr 0x80 col) =? 0) then
        if scale =? 1 then gfx_putpixel ctx (s32 (cx + col)) (s32 (y + row)) color
        else gfx_fill_rect ctx (s32 (cx + col * scale)) (s32 (y + row * scale)) scale scale color
      else ctx) ctx) ctx.

Fixpoint text_loop (fuel : nat) (ctx : gfx_ctx) (m : mem) (p cx y color scale : Z) : option gfx_ctx :=
  match fuel with
  | O => None
  | S f =>
      if m p =? 0 then Some ctx else
      let ch := if (m p <? 32) || (126 <? m p) then 63 else m p in
      text_loop f (draw_glyph ctx font_8x16.[ch - 32] cx y color scale) m (p + 1)
        (s32 (cx + s32 (FONT_W * scale))) y color scale
  end.
Definition gfx_draw_text (fuel : nat) (ctx : gfx_ctx) (m : mem) (x y str color scale : Z) : option gfx_ctx :=
  if (str =? NULL) || (scale =? 0) then Some ctx else
  text_loop fuel ctx m str x y color (if 4 <? scale then 4 else scale).

Definition gfx_text_width (fuel : nat) (m : mem) (str scale : Z) : option Z :=
  if (str =? NULL) || (scale =? 0) then Some 0 else
  len ← strlen fuel m str; Some (u32 (u32 len * FONT_W * scale)).

Definition gfx_draw_text_center (fuel : nat) (ctx : gfx_ctx) (m : mem) (cx y str color scale : Z) : option gfx_ctx :=
  tw ← gfx_text_width fuel m str scale;
  gfx_draw_text fuel ctx m (s32 (cx - s32 (tw / 2))) y str color scale.
Definition gfx_draw_text_right (fuel : nat) (ctx : gfx_ctx) (m : mem) (rx y str color scale : Z) : option gfx_ctx :=
  tw ← gfx_text_width fuel m str scale;
  gfx_draw_text fuel ctx m (s32 (rx - s32 tw)) y str color scale.

(** * Copies *)

Definition gfx_blit (ctx : gfx_ctx) (x y w h : Z) (src : option (Z -> Z)) : option gfx_ctx :=
  match src with
  | None => Some ctx
  | Some src =>
      if (w =? 0) || (h =? 0) then Some ctx else
      let '(x0, y0, x1, y1) := clipped ctx x y w h in
      let sx := if x <? s32 (clip_x ctx) then s32 (s32 (clip_x ctx) - x) else 0 in
      let sy := if y <? s32 (clip_y ctx) then s32 (s32 (clip_y ctx) - y) else 0 in
      if (x1 <=? x0) || (y1 <=? y0) then Some ctx else
      if fb ctx =? NULL then None else
      Some (for_range y0 y1 (fun row ctx =>
        let dst := u32 (row * width ctx + x0) in
        let s := u32 ((sy + (row - y0)) * w + sx) in
        for_range 0 (u32 (x1 - x0)) (fun i ctx => put ctx (dst + i) (src (s + i))) ctx) ctx)
  end.

(** The loops of the copies that draw pixel by pixel. *)
Definition blit_loop (ctx : gfx_ctx) (x y w h : Z) (pick : Z -> Z -> option Z) : gfx_ctx :=
  for_range 0 h (fun row ctx =>
    for_range 0 w (fun col ctx =>
      match pick row col with
      | Some c => gfx_putpixel ctx (s32 (x + s32 col)) (s32 (y + s32 row)) c
      | None => ctx
      end) ctx) ctx.

Definition gfx_blit_alpha (ctx : gfx_ctx) (x y w h : Z) (src : option (Z -> Z)) : gfx_ctx :=
  match src with
  | None => ctx
  | Some src =>
      if (w =? 0) || (h =? 0) then ctx else
      blit_loop ctx x y w h (fun row col =>
        let c := src (u32 (row * w + col)) in if negb (Z.shiftr c 24 =? 0) then Some c else None)
  end.
Definition gfx_blit_key (ctx : gfx_ctx) (x y w h : Z) (src : option (Z -> Z)) (key : Z) : gfx_ctx :=
  match src with
  | None => ctx
  | Some src =>
      if (w =? 0) || (h =? 0) then ctx else
      blit_loop ctx x y w h (fun row col =>
        let c := src (u32 (row * w + col)) in if negb (c =? key) then Some c else None)
  end.
Definition gfx_blit_scaled (ctx : gfx_ctx) (dx dy dw dh : Z) (src : option (Z -> Z)) (sw sh : Z) : gfx_ctx :=
  match src with
  | None => ctx
  | Some src =>
      if (dw =? 0) || (dh =? 0) || (sw =? 0) || (sh =? 0) then ctx else
      blit_loop ctx dx dy dw dh (fun y x =>
        let sy := u32 (y * sh) / dh in
        let sx := u32 (x * sw) / dw in
        let c := src (u32 (sy * sw + sx)) in if negb (Z.shiftr c 24 =? 0) then Some c else None)
  end.

(** * Lemmas: loops over pixels *)

Definition in_clip (ctx : gfx_ctx) (px py : Z) : Prop :=
  clip_x ctx <= px < clip_x2 ctx /\ clip_y ctx <= py < clip_y2 ctx.
#[export] Instance in_clip_dec ctx px py : Decision (in_clip ctx px py).
Proof. apply _. Defined.

(** A context whose clip rectangle lies in its frame, and whose frame has fewer than
    2^31 pixels. *)
Record frame_ok (ctx : gfx_ctx) : Prop := {
  frame_width : 0 <= width ctx < 2 ^ 31;
  frame_height : 0 <= height ctx < 2 ^ 31;
  frame_size : width ctx * height ctx <= 2 ^ 31;
  frame_clip_x : 0 <= clip_x ctx < 2 ^ 31;
  frame_clip_y : 0 <= clip_y ctx < 2 ^ 31;
  frame_clip_x2 : 0 <= clip_x2 ctx <= width ctx;
  frame_clip_y2 : 0 <= clip_y2 ctx <= height ctx
}.

(** Equal but for the pixels. *)
Definition same_frame (ctx ctx' : gfx_ctx) : Prop := exists px, ctx' = ctx <| pixels := px |>.

Lemma same_refl ctx : same_frame ctx ctx.
Proof. exists (pixels ctx). by destruct ctx. Qed.
Lemma same_trans c1 c2 c3 : same_frame c1 c2 -> same_frame c2 c3 -> same_frame c1 c3.
Proof. intros [p ->] [q ->]. by exists q. Qed.
Lemma same_put ctx i c : same_frame ctx (put ctx i c).
Proof. by eexists. Qed.

(** Only pixels of the clip rectangle change. *)
Definition drawn (ctx ctx' : gfx_ctx) : Prop :=
  same_frame ctx ctx' /\
  forall k, pixels ctx' k = pixels ctx k \/ exists px py, in_clip ctx px py /\ k = py * width ctx + px.

Lemma drawn_refl ctx : drawn ctx ctx.
Proof. split; [apply same_refl|]. intros k. by left. Qed.

Lemma drawn_trans c1 c2 c3 : drawn c1 c2 -> drawn c2 c3 -> drawn c1 c3.
Proof.
  intros [[p ->] H1] [S2 H2]. split; [eapply same_trans; [by exists p|done]|]. intros k.
  destruct (H2 k) as [E2|?]; [|by right]. destruct (H1 k) as [E1|?]; [|by right]. left. by rewrite E2.
Qed.

Lemma drawn_ok ctx ctx' : drawn ctx ctx' -> frame_ok ctx -> frame_ok ctx'.
Proof. intros [[p ->] _] []. by constructor. Qed.

Lemma for_range_nil {S} a b (f : Z -> S -> S) s : b <= a -> for_range a b f s = s.
Proof. intros H. unfold for_range. by rewrite seqZ_nil by lia. Qed.

Lemma for_range_snoc {S} a b (f : Z -> S -> S) s : a <= b -> for_range a (b + 1) f s = f b (for_range a b f s).
Proof.
  intros H. unfold for_range. replace (b + 1 - a) with ((b - a) + 1) by lia.
  rewrite seqZ_app by lia. rewrite fold_left_app. replace (a + (b - a)) with b by lia. done.
Qed.

Lemma for_range_ind {S} (P : S -> Prop) a b (f : Z -> S -> S) s :
  (forall k s, a <= k < b -> P s -> P (f k s)) -> P s -> P (for_range a b f s).
Proof.
  intros Hf Hs. destruct (Z.le_gt_cases b a) as [|Hlt]; [by rewrite for_range_nil|].
  assert (H : forall n, (Z.of_nat n <= b - a) -> P (for_range a (a + Z.of_nat n) f s)).
  { induction n as [|n IH]; intros Hn; [rewrite for_range_nil by lia; done|].
    replace (a + Z.of_nat (Datatypes.S n)) with (a + Z.of_nat n + 1) by lia. rewrite for_range_snoc by lia.
    apply Hf; [lia|]. apply IH. lia. }
  specialize (H (Z.to_nat (b - a)) ltac:(lia)). by replace (a + Z.of_nat (Z.to_nat (b - a))) with b in H by lia.
Qed.

Lemma drawn_range ctx0 a b f ctx :
  frame_ok ctx0 -> drawn ctx0 ctx -> (forall k c, a <= k < b -> frame_ok c -> drawn c (f k c)) ->
  drawn ctx0 (for_range a b f ctx).
Proof.
  intros Hok H0 Hf. apply (for_range_ind (drawn ctx0)); [|done]. intros k c Hk Hc.
  eapply drawn_trans; [exact Hc|]. apply Hf; [done|]. by eapply drawn_ok.
Qed.

(** A run of pixels, each computed from what it was. *)
Lemma run_pixels p n (g : Z -> Z -> Z) ctx :
  let ctx' := for_range 0 n (fun i ctx => put ctx (p + i) (g i (pixels ctx (p + i)))) ctx in
  same_frame ctx ctx' /\ forall k, pixels ctx' k = if (p <=? k) && (k <? p + n) then g (k - p) (pixels ctx k) else pixels ctx k.
Proof.
  cbn zeta. destruct (Z.le_gt_cases n 0) as [Hn|Hn].
  { rewrite for_range_nil by done. split; [apply same_refl|]. intros k. destruct (Z.leb_spec p k), (Z.ltb_spec k (p + n)); done || lia. }
  rewrite <- (Z2Nat.id n) by lia. generalize (Z.to_nat n). clear n Hn. intros n. induction n as [|n [IHs IH]].
  { rewrite for_range_nil by lia. split; [apply same_refl|]. intros k. destruct (Z.leb_spec p k), (Z.ltb_spec k (p + Z.of_nat 0)); done || lia. }
  rewrite Nat2Z.inj_succ, <- Z.add_1_r, for_range_snoc by lia.
  set (c1 := for_range 0 (Z.of_nat n) _ ctx) in *. split; [eapply same_trans; [exact IHs|apply same_put]|].
  intros k. unfold put. rec_simpl. destruct (decide (k = p + Z.of_nat n)) as [->|Hne].
  - rewrite fn_lookup_insert, IH. destruct (Z.leb_spec p (p + Z.of_nat n)), (Z.ltb_spec (p + Z.of_nat n) (p + Z.of_nat n)),
      (Z.ltb_spec (p + Z.of_nat n) (p + (Z.of_nat n + 1))); try lia. cbn [andb]. f_equal. lia.
  - rewrite fn_lookup_insert_ne by done. rewrite IH.
    destruct (Z.leb_spec p k), (Z.ltb_spec k (p + Z.of_nat n)), (Z.ltb_spec k (p + (Z.of_nat n + 1))); cbn [andb]; done || lia.
Qed.

(** A rectangle of them. *)
Definition fill_area (ctx : gfx_ctx) (x0 y0 x1 y1 : Z) (g : Z -> Z -> Z -> Z) : gfx_ctx :=
  for_range y0 y1 (fun row ctx =>
    let p := u32 (row * width ctx + x0) in
    for_range 0 (u32 (x1 - x0)) (fun i ctx => put ctx (p + i) (g row i (pixels ctx (p + i)))) ctx) ctx.

Definition in_area (x0 y0 x1 y1 px py : Z) : bool := (x0 <=? px) && (px <? x1) && (y0 <=? py) && (py <? y1).

Lemma row_body ctx row x0 n g W :
  width ctx = W -> 0 <= row * W + x0 < 2 ^ 32 ->
  let p := u32 (row * width ctx + x0) in
  let ctx' := for_range 0 n (fun i ctx => put ctx (p + i) (g i (pixels ctx (p + i)))) ctx in
  same_frame ctx ctx' /\
  forall k, pixels ctx' k = if (row * W + x0 <=? k) && (k <? row * W + x0 + n) then g (k - (row * W + x0)) (pixels ctx k) else pixels ctx k.
Proof. intros HW Hp. cbn zeta. rewrite HW, u32_id by done. apply run_pixels. Qed.

Lemma area_pixels ctx x0 y0 x1 y1 g :
  0 <= x0 < x1 -> 0 <= y0 -> x1 <= width ctx -> y1 * width ctx <= 2 ^ 31 -> width ctx < 2 ^ 31 ->
  let ctx' := fill_area ctx x0 y0 x1 y1 g in
  same_frame ctx ctx' /\
  forall px py, 0 <= px < width ctx -> pixels ctx' (py * width ctx + px) =
    if in_area x0 y0 x1 y1 px py then g py (px - x0) (pixels ctx (py * width ctx + px)) else pixels ctx (py * width ctx + px).
Proof.
  intros Hx Hy HW HH Hw. cbn zeta. unfold fill_area. rewrite u32_id by lia.
  destruct (Z.le_gt_cases y1 y0) as [Hn|Hn].
  { rewrite for_range_nil by done. split; [apply same_refl|]. intros px py Hpx. unfold in_area.
    destruct (Z.leb_spec y0 py), (Z.ltb_spec py y1); rewrite ?andb_false_r; done || lia. }
  replace y1 with (y0 + Z.of_nat (Z.to_nat (y1 - y0))) in * by lia. revert HH. generalize (Z.to_nat (y1 - y0)). clear y1 Hn. intros n.
  induction n as [|n IH]; intros HH.
  { rewrite for_range_nil by lia. split; [apply same_refl|]. intros px py Hpx. unfold in_area.
    destruct (Z.leb_spec y0 py), (Z.ltb_spec py (y0 + Z.of_nat 0)); rewrite ?andb_false_r; done || lia. }
  rewrite Nat2Z.inj_succ, <- Z.add_1_r, Z.add_assoc, for_range_snoc in * by lia.
  destruct IH as [IHs IH]; [nia|]. set (c1 := for_range y0 (y0 + Z.of_nat n) _ ctx) in *. clearbody c1.
  assert (HW1 : width c1 = width ctx) by (destruct IHs as [q ->]; done).
  destruct (row_body c1 (y0 + Z.of_nat n) x0 (x1 - x0) (g (y0 + Z.of_nat n)) (width ctx) HW1) as [Hs Hk]; [nia|]. cbn zeta in Hs, Hk.
  split; [eapply same_trans; [exact IHs|exact Hs]|]. intros px py Hpx. rewrite Hk, (IH px py Hpx). unfold in_area.
  set (row := y0 + Z.of_nat n) in *. assert (Hrow : y0 <= row) by lia. clearbody row.
  destruct (decide (py = row)) as [->|Hne].
  - destruct (Z.ltb_spec row row); [lia|]. destruct (Z.ltb_spec row (row + 1)); [|lia]. rewrite !andb_false_r, andb_true_r.
    destruct (Z.leb_spec (row * width ctx + x0) (row * width ctx + px)), (Z.leb_spec x0 px); try lia;
    destruct (Z.ltb_spec (row * width ctx + px) (row * width ctx + x0 + (x1 - x0))), (Z.ltb_spec px x1); try lia; cbn [andb]; try done.
    destruct (Z.leb_spec y0 row); [|lia]. f_equal. lia.
  - assert (E : (row * width ctx + x0 <=? py * width ctx + px) && (py * width ctx + px <? row * width ctx + x0 + (x1 - x0)) = false).
    { apply andb_false_iff. destruct (Z.lt_ge_cases py row); [left; apply Z.leb_gt; nia|right; apply Z.ltb_ge; nia]. }
    rewrite E. destruct (Z.ltb_spec py row), (Z.ltb_spec py (row + 1)); done || lia.
Qed.

(** * Lemmas: what is drawn *)

Lemma area_drawn ctx x0 y0 x1 y1 g :
  frame_ok ctx -> clip_x ctx <= x0 < x1 -> clip_y ctx <= y0 -> x1 <= clip_x2 ctx -> y1 <= clip_y2 ctx ->
  drawn ctx (fill_area ctx x0 y0 x1 y1 g).
Proof.
  intros [Hw Hh Hs Hx Hy Hx2 Hy2] H0 H1 H2 H3.
  assert (HW : 0 < width ctx) by lia.
  destruct (area_pixels ctx x0 y0 x1 y1 g) as [Hf Hp]; [lia|lia|lia|nia|lia|]. split; [exact Hf|]. intros k.
  pose proof (Z.div_mod k (width ctx) ltac:(lia)) as Hk. pose proof (Z.mod_pos_bound k (width ctx) HW) as Hm.
  replace k with (k / width ctx * width ctx + k mod width ctx) by lia. revert Hm. generalize (k / width ctx) (k mod width ctx).
  clear k Hk. intros py px Hm. rewrite (Hp px py Hm). unfold in_area.
  destruct (Z.leb_spec x0 px), (Z.ltb_spec px x1), (Z.leb_spec y0 py), (Z.ltb_spec py y1); cbn [andb]; try (by left).
  right. exists px, py. split; [split; lia|done].
Qed.

Lemma s32_small x : 0 <= x < 2 ^ 31 -> s32 x = x.
Proof. intros H. apply s32_id. lia. Qed.

Lemma clipped_range ctx x y w h x0 y0 x1 y1 :
  frame_ok ctx -> clipped ctx x y w h = (x0, y0, x1, y1) ->
  x0 = Z.max x (clip_x ctx) /\ y0 = Z.max y (clip_y ctx) /\
  x1 = Z.min (s32 (x + s32 w)) (clip_x2 ctx) /\ y1 = Z.min (s32 (y + s32 h)) (clip_y2 ctx).
Proof.
  intros [Hw Hh Hs Hx Hy Hx2 Hy2]. unfold clipped. rewrite !(s32_small (clip_x _)), !(s32_small (clip_y _)), !(s32_small (clip_x2 _)), !(s32_small (clip_y2 _)) by lia.
  generalize (s32 (x + s32 w)) (s32 (y + s32 h)). intros a b [= <- <- <- <-].
  destruct (Z.ltb_spec x (clip_x ctx)), (Z.ltb_spec y (clip_y ctx)), (Z.ltb_spec (clip_x2 ctx) a), (Z.ltb_spec (clip_y2 ctx) b); lia.
Qed.

(** How a colour is painted over another: [gfx_blend] does the opaque and the
    transparent case too. *)
Lemma blend_cases old c : 0 <= c < 2 ^ 32 ->
  gfx_blend old c = if Z.shiftr c 24 =? 0xFF then c else if negb (Z.shiftr c 24 =? 0) then gfx_blend old c else old.
Proof.
  intros Hc. assert (E : u8 (Z.shiftr c 24) = Z.shiftr c 24) by (rewrite Z.shiftr_div_pow2 by lia; unfold u8; rewrite Z.mod_small; lia).
  destruct (Z.eqb_spec (Z.shiftr c 24) 0xFF) as [H|H]; [|destruct (Z.eqb_spec (Z.shiftr c 24) 0) as [H0|H0]; cbn [negb]; [|done]];
    unfold gfx_blend; cbn zeta; rewrite E; rewrite ?H, ?H0; done.
Qed.

Lemma fill_rect_area ctx x y w h c x0 y0 x1 y1 :
  0 <= c < 2 ^ 32 -> fb ctx <> NULL -> w <> 0 -> h <> 0 -> clipped ctx x y w h = (x0, y0, x1, y1) -> x0 < x1 -> y0 < y1 ->
  gfx_fill_rect ctx x y w h c =
    if Z.shiftr c 24 =? 0xFF then fill_area ctx x0 y0 x1 y1 (fun _ _ _ => c)
    else if negb (Z.shiftr c 24 =? 0) then fill_area ctx x0 y0 x1 y1 (fun _ _ old => gfx_blend old c) else ctx.
Proof.
  intros Hc Hf Hw Hh E Hx Hy. unfold gfx_fill_rect.
  destruct (Z.eqb_spec (fb ctx) NULL), (Z.eqb_spec w 0), (Z.eqb_spec h 0); try done. cbn [orb]. rewrite E.
  destruct (Z.leb_spec x1 x0), (Z.leb_spec y1 y0); try lia. cbn [orb]. cbn zeta.
  assert (Ea : u8 (Z.shiftr c 24) = Z.shiftr c 24) by (rewrite Z.shiftr_div_pow2 by lia; unfold u8; rewrite Z.mod_small; lia).
  rewrite Ea. unfold fill_area. reflexivity.
Qed.

Lemma fill_rect_none ctx x y w h c x0 y0 x1 y1 :
  clipped ctx x y w h = (x0, y0, x1, y1) -> x1 <= x0 \/ y1 <= y0 -> gfx_fill_rect ctx x y w h c = ctx.
Proof.
  intros E H. unfold gfx_fill_rect. destruct (_ || _); [done|]. rewrite E.
  destruct (Z.leb_spec x1 x0), (Z.leb_spec y1 y0); cbn [orb]; done || lia.
Qed.

Lemma fill_rect_drawn ctx x y w h c : frame_ok ctx -> drawn ctx (gfx_fill_rect ctx x y w h c).
Proof.
  intros Hok. destruct (clipped ctx x y w h) as [[[x0 y0] x1] y1] eqn:E.
  destruct (clipped_range ctx x y w h x0 y0 x1 y1 Hok E) as (H1 & H2 & H3 & H4).
  destruct (Z.le_gt_cases x1 x0); [rewrite (fill_rect_none _ _ _ _ _ _ _ _ _ _ E) by auto; apply drawn_refl|].
  destruct (Z.le_gt_cases y1 y0); [rewrite (fill_rect_none _ _ _ _ _ _ _ _ _ _ E) by auto; apply drawn_refl|].
  unfold gfx_fill_rect. destruct (_ || _); [apply drawn_refl|]. rewrite E. destruct (_ || _); [apply drawn_refl|]. cbn zeta.
  destruct (_ =? 0xFF); [|destruct (negb _); [|apply drawn_refl]].
  - apply (area_drawn ctx x0 y0 x1 y1 (fun _ _ _ => c) Hok); lia.
  - apply (area_drawn ctx x0 y0 x1 y1 (fun _ _ old => gfx_blend old c) Hok); lia.
Qed.

Lemma putpixel_spec ctx x y c : frame_ok ctx -> 0 <= c < 2 ^ 32 -> fb ctx <> NULL ->
  gfx_putpixel ctx x y c =
    if bool_decide (in_clip ctx x y) then
      if Z.shiftr c 24 =? 0 then ctx else put ctx (y * width ctx + x) (gfx_blend (pixels ctx (y * width ctx + x)) c)
    else ctx.
Proof.
  intros [Hw Hh Hs Hx Hy Hx2 Hy2] Hc Hf. unfold gfx_putpixel, clip_test.
  destruct (Z.eqb_spec (fb ctx) NULL); [done|]. rewrite !s32_small by lia.
  destruct (bool_decide_reflect (in_clip ctx x y)) as [[H1 H2]|Hn].
  - destruct (Z.ltb_spec x 0), (Z.ltb_spec y 0), (Z.leb_spec (width ctx) x), (Z.leb_spec (height ctx) y); try lia. cbn [orb].
    destruct (Z.leb_spec (clip_x ctx) x), (Z.ltb_spec x (clip_x2 ctx)), (Z.leb_spec (clip_y ctx) y), (Z.ltb_spec y (clip_y2 ctx)); try lia.
    cbn [andb negb]. cbn zeta. rewrite u32_id by nia. rewrite (blend_cases _ c Hc).
    destruct (Z.eqb_spec (Z.shiftr c 24) 0xFF) as [->|]; [done|]. by destruct (Z.shiftr c 24 =? 0).
  - destruct (_ || _); [done|].
    destruct (Z.leb_spec (clip_x ctx) x), (Z.ltb_spec x (clip_x2 ctx)), (Z.leb_spec (clip_y ctx) y), (Z.ltb_spec y (clip_y2 ctx)); try done.
    exfalso. apply Hn. split; lia.
Qed.

Lemma putpixel_drawn ctx x y c : frame_ok ctx -> drawn ctx (gfx_putpixel ctx x y c).
Proof.
  intros Hok. destruct (Hok) as [Hw Hh Hs Hx Hy Hx2 Hy2]. unfold gfx_putpixel, clip_test.
  destruct (_ =? NULL); [apply drawn_refl|]. rewrite !s32_small by lia. destruct (_ || _); [apply drawn_refl|].
  destruct (Z.leb_spec (clip_x ctx) x), (Z.ltb_spec x (clip_x2 ctx)), (Z.leb_spec (clip_y ctx) y), (Z.ltb_spec y (clip_y2 ctx));
    cbn [andb negb]; try apply drawn_refl. cbn zeta. rewrite u32_id by nia.
  assert (Hput : forall v, drawn ctx (put ctx (y * width ctx + x) v)).
  { intros v. split; [apply same_put|]. intros k. unfold put. rec_simpl. destruct (decide (k = y * width ctx + x)) as [->|Hne].
    - right. exists x, y. split; [split; lia|done].
    - left. by apply fn_lookup_insert_ne. }
  destruct (_ =? 0xFF); [apply Hput|]. destruct (negb _); [apply Hput|apply drawn_refl].
Qed.

Lemma drawn_step ctx f g : frame_ok ctx -> drawn ctx f -> (frame_ok f -> drawn f g) -> drawn ctx g.
Proof. intros Hok H1 H2. eapply drawn_trans; [exact H1|]. apply H2. by eapply drawn_ok. Qed.

(** A sequence of rectangles and pixels. *)
Ltac draw_seq := cbn zeta; repeat first
  [ apply fill_rect_drawn; assumption | apply putpixel_drawn; assumption | apply drawn_refl
  | eapply drawn_step; [assumption| |intros ?; first [apply fill_rect_drawn; assumption | apply putpixel_drawn; assumption]] ].

Lemma rect_drawn ctx x y w h c : frame_ok ctx -> drawn ctx (gfx_rect ctx x y w h c).
Proof. intros Hok. unfold gfx_rect. destruct (_ || _); [apply drawn_refl|]. draw_seq. Qed.

Lemma line_drawn fuel ctx x0 y0 x1 y1 dx dy sx sy err c ctx' :
  frame_ok ctx -> line_loop fuel ctx x0 y0 x1 y1 dx dy sx sy err c = Some ctx' -> drawn ctx ctx'.
Proof.
  revert ctx x0 y0 err. induction fuel as [|fuel IH]; intros ctx x0 y0 err Hok; cbn [line_loop]; [done|].
  pose proof (putpixel_drawn ctx x0 y0 c Hok) as H. destruct (_ && _); [by intros [= <-]|]. cbn zeta.
  destruct (if - dy <? s32 (2 * err) then _ else _) as [e1 a]. destruct (if s32 (2 * err) <? dx then _ else _) as [e2 b].
  intros E. eapply drawn_trans; [exact H|]. eapply IH; [|exact E]. by eapply drawn_ok.
Qed.

Lemma midpoint_drawn fuel draw x y d ctx ctx' :
  (forall x y c, frame_ok c -> drawn c (draw x y c)) -> frame_ok ctx -> midpoint fuel draw x y d ctx = Some ctx' -> drawn ctx ctx'.
Proof.
  intros Hd. revert ctx x y d. induction fuel as [|fuel IH]; intros ctx x y d Hok; cbn [midpoint]; [done|].
  destruct (y <=? x); [|intros [= <-]; apply drawn_refl]. pose proof (Hd x y ctx Hok) as H. cbn zeta.
  assert (Hok' : frame_ok (draw x y ctx)) by (by eapply drawn_ok).
  destruct (d <? 0); intros E; (eapply drawn_trans; [exact H|]); by eapply IH.
Qed.

Lemma bind_drawn ctx (o : option gfx_ctx) k ctx' :
  frame_ok ctx -> (forall c, o = Some c -> drawn ctx c) ->
  (forall c, frame_ok c -> k c = Some ctx' -> drawn c ctx') -> (c ← o; k c) = Some ctx' -> drawn ctx ctx'.
Proof.
  intros Hok Ho Hk. destruct o as [c|]; [|done]. cbv [mbind option_bind]. intros E. specialize (Ho c eq_refl).
  eapply drawn_trans; [exact Ho|]. apply Hk; [by eapply drawn_ok|done].
Qed.

Lemma fill_circle_drawn fuel ctx cx cy r c ctx' : frame_ok ctx -> gfx_fill_circle fuel ctx cx cy r c = Some ctx' -> drawn ctx ctx'.
Proof.
  intros Hok. unfold gfx_fill_circle. destruct (r =? 0); [intros [= <-]; apply drawn_refl|]. intros E.
  eapply midpoint_drawn; [|exact Hok|exact E]. clear. intros x y ctx Hok. unfold disc_rows, circle_points. draw_seq.
Qed.

Lemma circle_drawn fuel ctx cx cy r c ctx' : frame_ok ctx -> gfx_circle fuel ctx cx cy r c = Some ctx' -> drawn ctx ctx'.
Proof.
  intros Hok. unfold gfx_circle. destruct (r =? 0); [intros [= <-]; apply drawn_refl|]. intros E.
  eapply midpoint_drawn; [|exact Hok|exact E]. clear. intros x y ctx Hok. unfold disc_rows, circle_points. draw_seq.
Qed.

Lemma gfx_line_drawn fuel ctx x0 y0 x1 y1 c ctx' : frame_ok ctx -> gfx_line fuel ctx x0 y0 x1 y1 c = Some ctx' -> drawn ctx ctx'.
Proof. intros Hok E. by eapply line_drawn. Qed.

Lemma fill_rounded_drawn fuel ctx x y w h r c ctx' : frame_ok ctx -> gfx_fill_rounded fuel ctx x y w h r c = Some ctx' -> drawn ctx ctx'.
Proof.
  intros Hok. unfold gfx_fill_rounded. destruct (_ || _); [intros [= <-]; apply drawn_refl|].
  destruct (r =? 0); [intros [= <-]; by apply fill_rect_drawn|]. cbn zeta. set (r' := corner_radius w h r).
  set (c1 := gfx_fill_rect ctx _ _ _ _ _). set (c2 := gfx_fill_rect c1 _ _ _ _ _).
  assert (H2 : drawn ctx c2) by (unfold c2, c1; draw_seq). assert (Hok2 : frame_ok c2) by (by eapply drawn_ok).
  clearbody c2. clear c1. intros E. eapply drawn_trans; [exact H2|]. revert E.
  apply bind_drawn; [done|intros; by eapply fill_circle_drawn|]. intros c3 Hok3.
  apply bind_drawn; [done|intros; by eapply fill_circle_drawn|]. intros c4 Hok4.
  apply bind_drawn; [done|intros; by eapply fill_circle_drawn|]. intros c5 Hok5. by apply fill_circle_drawn.
Qed.

Lemma arcs_drawn fuel n cx_off ctx x y w h r0 c ctx' : frame_ok ctx -> arcs fuel n cx_off ctx x y w h r0 c = Some ctx' -> drawn ctx ctx'.
Proof.
  revert cx_off ctx. induction n as [|n IH]; intros cx_off ctx Hok; cbn [arcs]; [intros [= <-]; apply drawn_refl|].
  destruct (sqrt_int _ _) as [q|]; [|done]. cbv [mbind option_bind]. intros E.
  assert (H : drawn ctx (arc_points ctx x y w h r0 cx_off q c)) by (unfold arc_points; draw_seq).
  eapply drawn_trans; [exact H|]. eapply IH; [|exact E]. by eapply drawn_ok.
Qed.

Lemma rounded_rect_drawn fuel ctx x y w h r c ctx' : frame_ok ctx -> gfx_rounded_rect fuel ctx x y w h r c = Some ctx' -> drawn ctx ctx'.
Proof.
  intros Hok. unfold gfx_rounded_rect. destruct (_ || _); [intros [= <-]; apply drawn_refl|].
  destruct (r =? 0); [intros [= <-]; by apply rect_drawn|]. cbn zeta. set (r' := corner_radius w h r).
  apply bind_drawn; [done|intros; by eapply gfx_line_drawn|]. intros c3 Hok3.
  apply bind_drawn; [done|intros; by eapply gfx_line_drawn|]. intros c4 Hok4.
  apply bind_drawn; [done|intros; by eapply gfx_line_drawn|]. intros c5 Hok5.
  apply bind_drawn; [done|intros; by eapply gfx_line_drawn|]. intros c6 Hok6. by apply arcs_drawn.
Qed.

Lemma span_drawn ctx l r y c : frame_ok ctx -> drawn ctx (span ctx l r y c).
Proof. intros Hok. unfold span. destruct (r <? l); by apply fill_rect_drawn. Qed.

Lemma triangle_drawn ctx x0 y0 x1 y1 x2 y2 c : frame_ok ctx -> drawn ctx (gfx_fill_triangle ctx x0 y0 x1 y1 x2 y2 c).
Proof.
  intros Hok. unfold gfx_fill_triangle.
  destruct (if y1 <? y0 then _ else _) as [[[a0 b0] a1] b1]. destruct (if y2 <? b0 then _ else _) as [[[d0 e0] a2] b2].
  destruct (if b2 <? b1 then _ else _) as [[[d1 e1] d2] e2]. cbn zeta.
  apply drawn_range; [done| |intros; by apply span_drawn]. apply drawn_range; [done|apply drawn_refl|intros; by apply span_drawn].
Qed.

Lemma gradient_drawn ctx x y w h g ctx' : frame_ok ctx -> gfx_gradient_rect ctx x y w h g = Some ctx' -> drawn ctx ctx'.
Proof.
  intros Hok. unfold gfx_gradient_rect. destruct g as [g|]; [|intros [= <-]; apply drawn_refl].
  destruct (_ || _); [intros [= <-]; apply drawn_refl|]. destruct (negb _).
  - destruct (h =? 1); [done|]. intros [= <-]. apply drawn_range; [done|apply drawn_refl|]. intros. by apply fill_rect_drawn.
  - destruct (w =? 1); [done|]. intros [= <-]. apply drawn_range; [done|apply drawn_refl|]. intros. by apply fill_rect_drawn.
Qed.

Lemma glyph_drawn ctx glyph cx y color scale : frame_ok ctx -> drawn ctx (draw_glyph ctx glyph cx y color scale).
Proof.
  intros Hok. unfold draw_glyph. apply drawn_range; [done|apply drawn_refl|]. intros row c1 _ Hok1.
  apply drawn_range; [done|apply drawn_refl|]. intros col c2 _ Hok2. destruct (negb _); [|apply drawn_refl].
  destruct (scale =? 1); draw_seq.
Qed.

Lemma text_drawn fuel ctx m p cx y color scale ctx' : frame_ok ctx -> text_loop fuel ctx m p cx y color scale = Some ctx' -> drawn ctx ctx'.
Proof.
  revert ctx p cx. induction fuel as [|fuel IH]; intros ctx p cx Hok; cbn [text_loop]; [done|].
  destruct (m p =? 0); [intros [= <-]; apply drawn_refl|]. cbn zeta. intros E.
  match type of E with context [draw_glyph ctx ?g cx y color scale] => pose proof (glyph_drawn ctx g cx y color scale Hok) as H end.
  eapply drawn_trans; [exact H|]. eapply IH; [|exact E]. by eapply drawn_ok.
Qed.

Lemma draw_text_drawn fuel ctx m x y str color scale ctx' :
  frame_ok ctx -> gfx_draw_text fuel ctx m x y str color scale = Some ctx' -> drawn ctx ctx'.
Proof.
  intros Hok. unfold gfx_draw_text. destruct (_ || _); [intros [= <-]; apply drawn_refl|]. by apply text_drawn.
Qed.

Lemma blit_loop_drawn ctx x y w h pick : frame_ok ctx -> drawn ctx (blit_loop ctx x y w h pick).
Proof.
  intros Hok. unfold blit_loop. apply drawn_range; [done|apply drawn_refl|]. intros row c1 _ Hok1.
  apply drawn_range; [done|apply drawn_refl|]. intros col c2 _ Hok2. destruct (pick row col); draw_seq.
Qed.

Lemma blit_drawn ctx x y w h src ctx' : frame_ok ctx -> gfx_blit ctx x y w h src = Some ctx' -> drawn ctx ctx'.
Proof.
  intros Hok. unfold gfx_blit. destruct src as [src|]; [|intros [= <-]; apply drawn_refl].
  destruct (_ || _); [intros [= <-]; apply drawn_refl|]. destruct (clipped ctx x y w h) as [[[x0 y0] x1] y1] eqn:E.
  destruct (clipped_range ctx x y w h x0 y0 x1 y1 Hok E) as (H1 & H2 & H3 & H4). cbn zeta.
  destruct (Z.leb_spec x1 x0), (Z.leb_spec y1 y0); cbn [orb]; try (intros [= <-]; apply drawn_refl).
  destruct (_ =? NULL); [done|]. intros [= <-].
  set (sx := if x <? _ then _ else 0). set (sy := if y <? _ then _ else 0).
  apply (area_drawn ctx x0 y0 x1 y1 (fun row i _ => src (u32 ((sy + (row - y0)) * w + sx) + i)) Hok); lia.
Qed.

(** * Calls *)

(** One call of the drawing functions. *)
Inductive draws (fuel : nat) : gfx_ctx -> gfx_ctx -> Prop :=
| d_putpixel ctx x y c : draws fuel ctx (gfx_putpixel ctx x y c)
| d_fill_rect ctx x y w h c : draws fuel ctx (gfx_fill_rect ctx x y w h c)
| d_rect ctx x y w h c : draws fuel ctx (gfx_rect ctx x y w h c)
| d_line ctx x0 y0 x1 y1 c ctx' : gfx_line fuel ctx x0 y0 x1 y1 c = Some ctx' -> draws fuel ctx ctx'
| d_fill_rounded ctx x y w h r c ctx' : gfx_fill_rounded fuel ctx x y w h r c = Some ctx' -> draws fuel ctx ctx'
| d_rounded_rect ctx x y w h r c ctx' : gfx_rounded_rect fuel ctx x y w h r c = Some ctx' -> draws fuel ctx ctx'
| d_fill_circle ctx cx cy r c ctx' : gfx_fill_circle fuel ctx cx cy r c = Some ctx' -> draws fuel ctx ctx'
| d_circle ctx cx cy r c ctx' : gfx_circle fuel ctx cx cy r c = Some ctx' -> draws fuel ctx ctx'
| d_triangle ctx x0 y0 x1 y1 x2 y2 c : draws fuel ctx (gfx_fill_triangle ctx x0 y0 x1 y1 x2 y2 c)
| d_gradient ctx x y w h r g ctx' : gfx_gradient_rounded ctx x y w h r g = Some ctx' -> draws fuel ctx ctx'
| d_text ctx m x y str color scale ctx' : gfx_draw_text fuel ctx m x y str color scale = Some ctx' -> draws fuel ctx ctx'
| d_text_center ctx m x y str color scale ctx' :
    gfx_draw_text_center fuel ctx m x y str color scale = Some ctx' -> draws fuel ctx ctx'
| d_text_right ctx m x y str color scale ctx' :
    gfx_draw_text_right fuel ctx m x y str color scale = Some ctx' -> draws fuel ctx ctx'
| d_blit ctx x y w h src ctx' : gfx_blit ctx x y w h src = Some ctx' -> draws fuel ctx ctx'
| d_blit_alpha ctx x y w h src : draws fuel ctx (gfx_blit_alpha ctx x y w h src)
| d_blit_key ctx x y w h src key : draws fuel ctx (gfx_blit_key ctx x y w h src key)
| d_blit_scaled ctx dx dy dw dh src sw sh : draws fuel ctx (gfx_blit_scaled ctx dx dy dw dh src sw sh).

(** A context in use: drawing, and clip rectangles with a corner below 2^31. *)
Inductive gfx_reachable (fuel : nat) (a : Z) (px : Z -> Z) (w h : Z) : gfx_ctx -> Prop :=
| gfx_new : gfx_reachable fuel a px w h (gfx_create_context a px w h)
| gfx_draws ctx ctx' : gfx_reachable fuel a px w h ctx -> draws fuel ctx ctx' -> gfx_reachable fuel a px w h ctx'
| gfx_clips ctx x y cw ch :
    gfx_reachable fuel a px w h ctx -> 0 <= x < 2 ^ 31 -> 0 <= y < 2 ^ 31 -> gfx_reachable fuel a px w h (gfx_set_clip ctx x y cw ch)
| gfx_unclips ctx : gfx_reachable fuel a px w h ctx -> gfx_reachable fuel a px w h (gfx_reset_clip ctx).

Lemma draws_drawn fuel ctx ctx' : frame_ok ctx -> draws fuel ctx ctx' -> drawn ctx ctx'.
Proof.
  intros Hok H. destruct H.
  - by apply putpixel_drawn.
  - by apply fill_rect_drawn.
  - by apply rect_drawn.
  - by eapply gfx_line_drawn.
  - by eapply fill_rounded_drawn.
  - by eapply rounded_rect_drawn.
  - by eapply fill_circle_drawn.
  - by eapply circle_drawn.
  - by apply triangle_drawn.
  - by eapply gradient_drawn.
  - by eapply draw_text_drawn.
  - unfold gfx_draw_text_center in H. destruct (gfx_text_width _ _ _ _); [|done]. by eapply draw_text_drawn.
  - unfold gfx_draw_text_right in H. destruct (gfx_text_width _ _ _ _); [|done]. by eapply draw_text_drawn.
  - by eapply blit_drawn.
  - unfold gfx_blit_alpha. destruct src; [|apply drawn_refl]. destruct (_ || _); [apply drawn_refl|by apply blit_loop_drawn].
  - unfold gfx_blit_key. destruct src; [|apply drawn_refl]. destruct (_ || _); [apply drawn_refl|by apply blit_loop_drawn].
  - unfold gfx_blit_scaled. destruct src; [|apply drawn_refl]. destruct (_ || _); [apply drawn_refl|by apply blit_loop_drawn].
Qed.

Definition frame_inv (px : Z -> Z) (w h : Z) (ctx : gfx_ctx) : Prop :=
  frame_ok ctx /\ width ctx = w /\ height ctx = h /\ forall k, ~ (0 <= k < w * h) -> pixels ctx k = px k.

Lemma frame_inv_draws fuel px w h ctx ctx' : frame_inv px w h ctx -> draws fuel ctx ctx' -> frame_inv px w h ctx'.
Proof.
  intros (Hok & Hw & Hh & Hp) Hd. pose proof (draws_drawn fuel ctx ctx' Hok Hd) as Hdr.
  destruct (Hok) as [Hw' Hh' Hs' Hx Hy Hx2 Hy2]. split; [by eapply drawn_ok|]. destruct Hdr as [[q ->] Hk]. rec_simpl.
  split; [done|]. split; [done|]. intros k Hout. destruct (Hk k) as [->|(a & b & [Ha Hb] & ->)]; [by apply Hp|].
  exfalso. apply Hout. rewrite <- Hw, <- Hh. nia.
Qed.

Lemma gfx_reachable_inv fuel a px w h ctx :
  0 <= w < 2 ^ 31 -> 0 <= h < 2 ^ 31 -> w * h <= 2 ^ 31 -> gfx_reachable fuel a px w h ctx -> frame_inv px w h ctx.
Proof.
  intros Hw Hh Hs. induction 1 as [|ctx ctx' _ IH Hd|ctx x y cw ch _ IH Hx Hy|ctx _ IH].
  - split; [constructor; rec_simpl; cbn; lia|done].
  - by eapply frame_inv_draws.
  - destruct IH as ([? ? ? ? ? ? ?] & Ew & Eh & Hp). split; [|done]. pose proof (u32_range (x + cw)). pose proof (u32_range (y + ch)).
    unfold gfx_set_clip. constructor; rec_simpl; try done.
    + destruct (Z.ltb_spec (width ctx) (u32 (x + cw))); lia.
    + destruct (Z.ltb_spec (height ctx) (u32 (y + ch))); lia.
  - destruct IH as ([? ? ? ? ? ? ?] & Ew & Eh & Hp). split; [|done]. constructor; unfold gfx_reset_clip; rec_simpl; lia.
Qed.

(** * Lemmas: which colour each pixel gets *)

(** Painting with a colour, or leaving the pixel. *)
Definition paint (o : option Z) (old : Z) : Z :=
  match o with Some c => gfx_blend old c | None => old end.

(** The pixel is in the rectangle and in the clip rectangle. *)
Definition visible (ctx : gfx_ctx) (x y w h px py : Z) : bool :=
  bool_decide (in_clip ctx px py) && in_area x y (x + w) (y + h) px py.

Definition colour (c : Z) : Prop := 0 <= c < 2 ^ 32.
(** A rectangle whose corners are [int32_t]. *)
Definition rect_fits (x y w h : Z) : Prop :=
  - 2 ^ 31 <= x /\ - 2 ^ 31 <= y /\ 0 <= w < 2 ^ 31 /\ 0 <= h < 2 ^ 31 /\ x + w < 2 ^ 31 /\ y + h < 2 ^ 31.

Lemma blend_transparent old c : colour c -> Z.shiftr c 24 = 0 -> gfx_blend old c = old.
Proof. intros Hc H. rewrite (blend_cases old c Hc), H. done. Qed.

(** The index of a pixel determines it. *)
Lemma pixel_index W px py qx qy : 0 <= px < W -> 0 <= qx < W -> py * W + px = qy * W + qx -> px = qx /\ py = qy.
Proof.
  intros Hp Hq E. assert (py = qy) as ->; [|lia].
  destruct (Z.lt_trichotomy py qy) as [|[|]]; [exfalso|done|exfalso]; nia.
Qed.

Lemma putpixel_frame ctx x y c : same_frame ctx (gfx_putpixel ctx x y c).
Proof.
  unfold gfx_putpixel. destruct (_ =? NULL); [apply same_refl|]. destruct (_ || _); [apply same_refl|].
  destruct (negb _); [apply same_refl|]. cbn zeta. destruct (_ =? _); [apply same_put|].
  destruct (negb _); [apply same_put|apply same_refl].
Qed.

Lemma putpixel_pixel ctx x y c px py : frame_ok ctx -> colour c -> fb ctx <> NULL -> 0 <= px < width ctx ->
  pixels (gfx_putpixel ctx x y c) (py * width ctx + px) =
    (if bool_decide (in_clip ctx px py) && ((px =? x) && (py =? y)) then gfx_blend (pixels ctx (py * width ctx + px)) c
     else pixels ctx (py * width ctx + px)).
Proof.
  intros Hok Hc Hf Hpx. rewrite putpixel_spec by done. destruct Hok as [Hw Hh Hs Hx Hy Hx2 Hy2].
  destruct (bool_decide_reflect (in_clip ctx x y)) as [[H1 H2]|Hn].
  - destruct (decide (px = x /\ py = y)) as [[-> ->]|Hne].
    + rewrite bool_decide_true by (split; lia). rewrite !Z.eqb_refl. cbn [andb].
      destruct (Z.eqb_spec (Z.shiftr c 24) 0) as [E|_]; [by rewrite blend_transparent|].
      unfold put. rec_simpl. by rewrite fn_lookup_insert.
    + replace ((px =? x) && (py =? y)) with false.
      2: { symmetry. apply andb_false_iff. rewrite !Z.eqb_neq. lia. }
      rewrite andb_false_r. destruct (_ =? 0); [done|]. unfold put. rec_simpl. rewrite fn_lookup_insert_ne; [done|].
      intros E. apply Hne. apply pixel_index in E; [lia|lia|lia].
  - destruct (bool_decide_reflect (in_clip ctx px py)); [|done].
    destruct (Z.eqb_spec px x) as [->|], (Z.eqb_spec py y) as [->|]; done.
Qed.

(** What does not depend on the pixels. *)
Lemma same_frame_facts c1 c2 : same_frame c1 c2 ->
  (frame_ok c1 -> frame_ok c2) /\ width c2 = width c1 /\ fb c2 = fb c1 /\ forall px py, in_clip c2 px py <-> in_clip c1 px py.
Proof. intros [q ->]. split; [intros []; by constructor|done]. Qed.

Lemma plot_row ctx x y n pick :
  frame_ok ctx -> fb ctx <> NULL -> (forall i c, pick i = Some c -> colour c) -> - 2 ^ 31 <= x -> 0 <= n < 2 ^ 31 -> x + n < 2 ^ 31 ->
  let ctx' := for_range 0 n (fun col ctx =>
    match pick col with Some c => gfx_putpixel ctx (s32 (x + s32 col)) y c | None => ctx end) ctx in
  same_frame ctx ctx' /\ forall px py, 0 <= px < width ctx ->
    pixels ctx' (py * width ctx + px) =
      (if bool_decide (in_clip ctx px py) && ((x <=? px) && (px <? x + n) && (py =? y))
       then paint (pick (px - x)) (pixels ctx (py * width ctx + px)) else pixels ctx (py * width ctx + px)).
Proof.
  intros Hok Hf Hpick Hx Hn Hxn. cbn zeta. rewrite <- (Z2Nat.id n) in * by lia. revert Hn Hxn. generalize (Z.to_nat n). clear n. intros n.
  induction n as [|n IH]; intros Hn Hxn.
  { rewrite for_range_nil by lia. split; [apply same_refl|]. intros px py Hpx.
    destruct (Z.leb_spec x px), (Z.ltb_spec px (x + Z.of_nat 0)); rewrite ?andb_false_r; done || lia. }
  rewrite Nat2Z.inj_succ, <- Z.add_1_r, for_range_snoc in * by lia. destruct IH as [Hs IH]; [lia|lia|].
  set (c1 := for_range 0 (Z.of_nat n) _ ctx) in *. clearbody c1. destruct (same_frame_facts _ _ Hs) as (Hok1 & HW & HF & Hcl).
  assert (Ecl : forall px py, bool_decide (in_clip c1 px py) = bool_decide (in_clip ctx px py)) by (intros; by apply bool_decide_ext).
  rewrite (s32_small (Z.of_nat n)), s32_id by lia. split.
  { destruct (pick (Z.of_nat n)); [|done]. eapply same_trans; [exact Hs|apply putpixel_frame]. }
  intros px py Hpx. specialize (IH px py Hpx). destruct (decide (px = x + Z.of_nat n)) as [->|Hne].
  - replace (x + Z.of_nat n - x) with (Z.of_nat n) in * by lia.
    destruct (Z.leb_spec x (x + Z.of_nat n)), (Z.ltb_spec (x + Z.of_nat n) (x + Z.of_nat n)), (Z.ltb_spec (x + Z.of_nat n) (x + (Z.of_nat n + 1)));
      try lia. cbn [andb] in *. rewrite andb_false_r in IH. destruct (pick (Z.of_nat n)) as [c|] eqn:E; cbn [paint].
    + rewrite <- HW, putpixel_pixel, Ecl, HW, IH, Z.eqb_refl by (try rewrite HW; eauto; congruence). done.
    + rewrite IH. by destruct (_ && _).
  - assert (E : (px <? x + (Z.of_nat n + 1)) = (px <? x + Z.of_nat n)) by (destruct (Z.ltb_spec px (x + (Z.of_nat n + 1))), (Z.ltb_spec px (x + Z.of_nat n)); done || lia).
    rewrite E, <- IH. destruct (pick (Z.of_nat n)) as [c|] eqn:Ep; [|done].
    rewrite <- HW, putpixel_pixel by (try rewrite HW; eauto; congruence). destruct (Z.eqb_spec px (x + Z.of_nat n)); [done|]. by rewrite andb_false_r.
Qed.

Lemma blit_loop_pixels ctx x y w h pick :
  frame_ok ctx -> fb ctx <> NULL -> rect_fits x y w h -> (forall r i c, pick r i = Some c -> colour c) ->
  same_frame ctx (blit_loop ctx x y w h pick) /\ forall px py, 0 <= px < width ctx ->
    pixels (blit_loop ctx x y w h pick) (py * width ctx + px) =
      (if visible ctx x y w h px py then paint (pick (py - y) (px - x)) (pixels ctx (py * width ctx + px))
       else pixels ctx (py * width ctx + px)).
Proof.
  intros Hok Hf (Hx & Hy & Hw & Hh & Hxw & Hyh) Hpick. unfold blit_loop. rewrite <- (Z2Nat.id h) in * by lia.
  revert Hh Hyh. generalize (Z.to_nat h). clear h. intros n. unfold visible, in_area. induction n as [|n IH]; intros Hh Hyh.
  { rewrite (for_range_nil 0 (Z.of_nat 0)) by lia. split; [apply same_refl|]. intros px py Hpx.
    destruct (Z.leb_spec y py), (Z.ltb_spec py (y + Z.of_nat 0)); rewrite ?andb_false_r; done || lia. }
  rewrite Nat2Z.inj_succ, <- Z.add_1_r, (for_range_snoc 0 (Z.of_nat n)) in * by lia. destruct IH as [Hs IH]; [lia|lia|].
  set (c1 := for_range 0 (Z.of_nat n) _ ctx) in *. clearbody c1. destruct (same_frame_facts _ _ Hs) as (Hok1 & HW & HF & Hcl).
  assert (Ecl : forall px py, bool_decide (in_clip c1 px py) = bool_decide (in_clip ctx px py)) by (intros; by apply bool_decide_ext).
  rewrite (s32_small (Z.of_nat n)), s32_id by lia.
  destruct (plot_row c1 x (y + Z.of_nat n) w (pick (Z.of_nat n))) as [Hs2 Hr]; [auto|congruence|eauto|lia|lia|lia|]. cbn zeta in Hs2, Hr.
  split; [eapply same_trans; [exact Hs|exact Hs2]|]. intros px py Hpx. specialize (IH px py Hpx). rewrite <- HW, Hr by congruence.
  rewrite HW, Ecl, IH. destruct (Z.eqb_spec py (y + Z.of_nat n)) as [->|Hne].
  - destruct (Z.leb_spec y (y + Z.of_nat n)), (Z.ltb_spec (y + Z.of_nat n) (y + Z.of_nat n)), (Z.ltb_spec (y + Z.of_nat n) (y + (Z.of_nat n + 1)));
      try lia. rewrite !andb_false_r, !andb_true_r. by replace (y + Z.of_nat n - y) with (Z.of_nat n) by lia.
  - rewrite !andb_false_r. destruct (Z.ltb_spec py (y + (Z.of_nat n + 1))), (Z.ltb_spec py (y + Z.of_nat n)); try done; lia.
Qed.

(** The same for the fast paths. *)
Lemma visible_clipped ctx x y w h x0 y0 x1 y1 px py :
  frame_ok ctx -> rect_fits x y w h -> clipped ctx x y w h = (x0, y0, x1, y1) ->
  visible ctx x y w h px py = in_area x0 y0 x1 y1 px py.
Proof.
  intros Hok (Hx & Hy & Hw & Hh & Hxw & Hyh) E. destruct (clipped_range _ _ _ _ _ _ _ _ _ Hok E) as (-> & -> & -> & ->).
  rewrite !(s32_small w), !(s32_small h), !s32_id by lia. unfold visible, in_area.
  destruct (bool_decide_reflect (in_clip ctx px py)) as [[H1 H2]|Hn]; cbn [andb];
    destruct (Z.leb_spec (Z.max x (clip_x ctx)) px), (Z.ltb_spec px (Z.min (x + w) (clip_x2 ctx))),
      (Z.leb_spec (Z.max y (clip_y ctx)) py), (Z.ltb_spec py (Z.min (y + h) (clip_y2 ctx))); cbn [andb];
    destruct (Z.leb_spec x px), (Z.ltb_spec px (x + w)), (Z.leb_spec y py), (Z.ltb_spec py (y + h)); cbn [andb]; try lia; try done;
    exfalso; apply Hn; split; lia.
Qed.

Lemma rows_fit ctx y1 : frame_ok ctx -> y1 <= height ctx -> y1 * width ctx <= 2 ^ 31.
Proof. intros [Hw Hh Hs _ _ _ _] Hy. transitivity (height ctx * width ctx); [apply Z.mul_le_mono_nonneg_r; lia|lia]. Qed.

Lemma fill_rect_pixels ctx x y w h c :
  frame_ok ctx -> fb ctx <> NULL -> rect_fits x y w h -> colour c -> forall px py, 0 <= px < width ctx ->
    pixels (gfx_fill_rect ctx x y w h c) (py * width ctx + px) =
      (if visible ctx x y w h px py then gfx_blend (pixels ctx (py * width ctx + px)) c else pixels ctx (py * width ctx + px)).
Proof.
  intros Hok Hf Hr Hc px py Hpx. destruct (clipped ctx x y w h) as [[[x0 y0] x1] y1] eqn:E.
  rewrite (visible_clipped ctx x y w h x0 y0 x1 y1 px py Hok Hr E).
  destruct (clipped_range _ _ _ _ _ _ _ _ _ Hok E) as (H1 & H2 & H3 & H4). destruct Hr as (Hx & Hy & Hw & Hh & Hxw & Hyh).
  rewrite (s32_small w), s32_id in H3 by lia. rewrite (s32_small h), s32_id in H4 by lia. destruct (Hok) as [Hw' Hh' Hs Hx' Hy' Hx2 Hy2].
  destruct (decide (x1 <= x0 \/ y1 <= y0)) as [Hn|Hn].
  { rewrite (fill_rect_none _ _ _ _ _ _ _ _ _ _ E Hn). unfold in_area.
    destruct (Z.leb_spec x0 px), (Z.ltb_spec px x1), (Z.leb_spec y0 py), (Z.ltb_spec py y1); done || lia. }
  rewrite (fill_rect_area ctx x y w h c x0 y0 x1 y1) by (done || lia).
  rewrite (blend_cases (pixels ctx (py * width ctx + px)) c Hc).
  destruct (_ =? 0xFF); [|destruct (negb _)].
  - destruct (area_pixels ctx x0 y0 x1 y1 (fun _ _ _ => c)) as [_ Hp]; [lia|lia|lia|apply rows_fit; [done|lia]|lia|]. by rewrite (Hp px py Hpx).
  - destruct (area_pixels ctx x0 y0 x1 y1 (fun _ _ old => gfx_blend old c)) as [_ Hp]; [lia|lia|lia|apply rows_fit; [done|lia]|lia|]. by rewrite (Hp px py Hpx).
  - by destruct (in_area _ _ _ _ _ _).
Qed.

Lemma source_index a b w h : 0 <= a < h -> 0 <= b < w -> w * h <= 2 ^ 32 -> 0 <= a * w + b < 2 ^ 32.
Proof. intros Ha Hb Hwh. assert ((a + 1) * w <= h * w) by (apply Z.mul_le_mono_nonneg_r; lia). split; [|lia]. apply Z.add_nonneg_nonneg; [apply Z.mul_nonneg_nonneg; lia|lia]. Qed.

Lemma blit_pixels ctx x y w h src :
  frame_ok ctx -> fb ctx <> NULL -> rect_fits x y w h -> w * h <= 2 ^ 32 ->
  exists ctx', gfx_blit ctx x y w h (Some src) = Some ctx' /\ forall px py, 0 <= px < width ctx ->
    pixels ctx' (py * width ctx + px) =
      (if visible ctx x y w h px py then src ((py - y) * w + (px - x)) else pixels ctx (py * width ctx + px)).
Proof.
  intros Hok Hf Hr Hwh. destruct (clipped ctx x y w h) as [[[x0 y0] x1] y1] eqn:E.
  pose proof (fun px py => visible_clipped ctx x y w h x0 y0 x1 y1 px py Hok Hr E) as Hv.
  destruct (clipped_range _ _ _ _ _ _ _ _ _ Hok E) as (H1 & H2 & H3 & H4). destruct Hr as (Hx & Hy & Hw & Hh & Hxw & Hyh).
  rewrite (s32_small w), s32_id in H3 by lia. rewrite (s32_small h), s32_id in H4 by lia. destruct (Hok) as [Hw' Hh' Hs Hx' Hy' Hx2 Hy2]. unfold gfx_blit.
  assert (Hnone : x1 <= x0 \/ y1 <= y0 -> forall px py, visible ctx x y w h px py = false).
  { intros Hn px py. rewrite Hv. unfold in_area. destruct (Z.leb_spec x0 px), (Z.ltb_spec px x1), (Z.leb_spec y0 py), (Z.ltb_spec py y1); done || lia. }
  destruct (Z.eqb_spec w 0); [eexists; split; [done|]; intros; rewrite Hnone; [done|lia]|].
  destruct (Z.eqb_spec h 0); [eexists; split; [done|]; intros; rewrite Hnone; [done|lia]|]. cbn [orb]. rewrite E. cbn zeta.
  destruct (Z.leb_spec x1 x0); [eexists; split; [done|]; intros; rewrite Hnone; [done|lia]|].
  destruct (Z.leb_spec y1 y0); [eexists; split; [done|]; intros; rewrite Hnone; [done|lia]|]. cbn [orb].
  destruct (Z.eqb_spec (fb ctx) NULL); [done|]. rewrite !(s32_small (clip_x _)), !(s32_small (clip_y _)) by lia.
  set (sx := if x <? _ then _ else 0). set (sy := if y <? _ then _ else 0).
  assert (Esx : sx = x0 - x) by (unfold sx; destruct (Z.ltb_spec x (clip_x ctx)); [rewrite s32_id by lia|]; lia).
  assert (Esy : sy = y0 - y) by (unfold sy; destruct (Z.ltb_spec y (clip_y ctx)); [rewrite s32_id by lia|]; lia).
  eexists. split; [reflexivity|]. intros px py Hpx.
  destruct (area_pixels ctx x0 y0 x1 y1 (fun row i _ => src (u32 ((sy + (row - y0)) * w + sx) + i))) as [_ Hp]; [lia|lia|lia|apply rows_fit; [done|lia]|lia|].
  specialize (Hp px py Hpx). unfold fill_area in Hp. rewrite Hv. etransitivity; [exact Hp|]. unfold in_area.
  destruct (Z.leb_spec x0 px), (Z.ltb_spec px x1), (Z.leb_spec y0 py), (Z.ltb_spec py y1); cbn [andb]; try done.
  rewrite Esx, Esy. replace (y0 - y + (py - y0)) with (py - y) by lia. rewrite u32_id by (apply (source_index _ _ _ h); lia). f_equal. lia.
Qed.

(** * Lemmas: lines, square roots, circles *)

(** [round(k * d / M)], halves rounded down *)
Definition nearest (M k d : Z) : Z := (2 * k * d + M - 1) / (2 * M).

Lemma nearest_iff M k d j : 0 < M -> nearest M k d = j <-> 2 * M * j <= 2 * k * d + M - 1 < 2 * M * j + 2 * M.
Proof.
  intros HM. unfold nearest. split.
  - intros <-. pose proof (Z.div_mod (2 * k * d + M - 1) (2 * M) ltac:(lia)). pose proof (Z.mod_pos_bound (2 * k * d + M - 1) (2 * M) ltac:(lia)). lia.
  - intros H. symmetry. apply (Z.div_unique _ _ _ (2 * k * d + M - 1 - 2 * M * j)); lia.
Qed.

Lemma nearest_major M k : 0 < M -> nearest M k M = k.
Proof. intros HM. apply nearest_iff; lia. Qed.

Lemma nearest_last M d : 0 < M -> nearest M M d = d.
Proof. intros HM. apply nearest_iff; lia. Qed.

Lemma nearest_0 M d : 0 <= M -> nearest M 0 d = 0.
Proof. intros HM. destruct (decide (M = 0)) as [->|]; [done|]. apply nearest_iff; lia. Qed.

(** The step to the next pixel. *)
Lemma nearest_step M k d : 0 < M -> 0 <= d <= M ->
  nearest M (k + 1) d = nearest M k d + (if M - 2 * d <? 2 * (k * d - nearest M k d * M) then 1 else 0).
Proof.
  intros HM Hd. apply nearest_iff; [done|]. pose proof (proj1 (nearest_iff M k d _ HM) eq_refl) as H. revert H.
  generalize (nearest M k d). intros j H. destruct (Z.ltb_spec (M - 2 * d) (2 * (k * d - j * M))); lia.
Qed.

Lemma nearest_error M k d : 0 < M -> - M < 2 * (k * d - nearest M k d * M) <= M.
Proof. intros HM. pose proof (proj1 (nearest_iff M k d _ HM) eq_refl) as H. revert H. generalize (nearest M k d). intros j H. lia. Qed.

Lemma nearest_bounds M k d : 0 < M -> 0 <= k <= M -> 0 <= d <= M -> 0 <= nearest M k d <= d.
Proof.
  intros HM Hk Hd. pose proof (proj1 (nearest_iff M k d _ HM) eq_refl) as H. revert H. generalize (nearest M k d). intros j H.
  assert (0 <= k * d) by (apply Z.mul_nonneg_nonneg; lia). assert (k * d <= M * d) by (apply Z.mul_le_mono_nonneg_r; lia). split; nia.
Qed.

(** The pixels nearest to the line from (x0, y0) to (x1, y1), one for each step along
    the longer side. *)
Definition line_points (x0 y0 x1 y1 : Z) : list (Z * Z) :=
  let dx := Z.abs (x1 - x0) in let dy := Z.abs (y1 - y0) in let M := Z.max dx dy in
  (fun k => (x0 + (if x0 <? x1 then 1 else -1) * nearest M k dx, y0 + (if y0 <? y1 then 1 else -1) * nearest M k dy)) <$> seqZ 0 (M + 1).

Definition plot (c : Z) (ctx : gfx_ctx) (p : Z * Z) : gfx_ctx := gfx_putpixel ctx p.1 p.2 c.

(** [e2 > -dy] and [e2 < dx] decide as [nearest] does. *)
Lemma line_decisions dx dy k (M := Z.max dx dy) (i := nearest M k dx) (j := nearest M k dy) (e := dx - dy - (i * dy - j * dx)) :
  0 <= dx -> 0 <= dy -> 0 < M ->
  nearest M (k + 1) dx = i + (if - dy <? 2 * e then 1 else 0) /\ nearest M (k + 1) dy = j + (if 2 * e <? dx then 1 else 0).
Proof.
  intros Hx Hy HM. destruct (Z.max_spec dx dy) as [[Hlt HMe]|[Hle HMe]].
  - assert (Ei : M = dy) by exact HMe. assert (Ej : j = k) by (unfold j; rewrite <- Ei; by apply nearest_major).
    pose proof (nearest_error M k dx HM) as He. fold i in He. split.
    + rewrite nearest_step by lia. fold i. f_equal. unfold e. rewrite Ej, Ei.
      destruct (Z.ltb_spec (dy - 2 * dx) (2 * (k * dx - i * dy))), (Z.ltb_spec (- dy) (2 * (dx - dy - (i * dy - k * dx)))); try done; lia.
    + rewrite <- Ei, nearest_major by done. rewrite Ej. unfold e. rewrite Ej, Ei in *. destruct (Z.ltb_spec (2 * (dx - dy - (i * dy - k * dx))) dx); lia.
  - assert (Ei : M = dx) by exact HMe. assert (Ej : i = k) by (unfold i; rewrite <- Ei; by apply nearest_major).
    pose proof (nearest_error M k dy HM) as He. fold j in He. split.
    + rewrite <- Ei, nearest_major by done. rewrite Ej. unfold e. rewrite Ej, Ei in *.
      destruct (Z.ltb_spec (- dy) (2 * (dx - dy - (k * dy - j * dx)))); [done|].
      assert (dx = dy) by lia. subst dy. assert (Hkj : j = k) by (unfold j; rewrite <- Ei; apply nearest_major; lia). rewrite Hkj in *. lia.
    + rewrite nearest_step by lia. fold j. f_equal. unfold e. rewrite Ej, Ei.
      destruct (Z.ltb_spec (dx - 2 * dy) (2 * (k * dy - j * dx))), (Z.ltb_spec (2 * (dx - dy - (k * dy - j * dx))) dx); try done; lia.
Qed.

Lemma line_error dx dy k (M := Z.max dx dy) :
  0 <= dx -> 0 <= dy -> 0 < M -> - M <= 2 * (nearest M k dx * dy - nearest M k dy * dx) <= M.
Proof.
  intros Hx Hy HM. destruct (Z.max_spec dx dy) as [[Hlt HMe]|[Hle HMe]].
  - assert (Ei : M = dy) by exact HMe. pose proof (nearest_error M k dx HM) as He. rewrite Ei in *. rewrite (nearest_major dy k) by done. lia.
  - assert (Ei : M = dx) by exact HMe. pose proof (nearest_error M k dy HM) as He. rewrite Ei in *. rewrite (nearest_major dx k) by done. lia.
Qed.

(** The loop from the [k]th pixel on. *)
Lemma line_loop_points x0 y0 dx dy sx sy c (M := Z.max dx dy) (pt := fun k => (x0 + sx * nearest M k dx, y0 + sy * nearest M k dy)) :
  0 <= dx -> 0 <= dy -> 0 < M < 2 ^ 29 -> - 2 ^ 29 <= x0 <= 2 ^ 29 -> - 2 ^ 29 <= y0 <= 2 ^ 29 -> (sx = 1 \/ sx = -1) -> (sy = 1 \/ sy = -1) ->
  forall n k fuel ctx, 0 <= k -> k + Z.of_nat n = M -> (n < fuel)%nat ->
  line_loop fuel ctx (pt k).1 (pt k).2 (x0 + sx * dx) (y0 + sy * dy) dx dy sx sy
    (dx - dy - (nearest M k dx * dy - nearest M k dy * dx)) c
  = Some (fold_left (plot c) (pt <$> seqZ k (Z.of_nat n + 1)) ctx).
Proof.
  intros Hx Hy HM Hx0 Hy0 Hsx Hsy. induction n as [|n IH]; intros k fuel ctx Hk Hn Hf; (destruct fuel as [|fuel]; [lia|]).
  - assert (Ek : k = M) by lia. rewrite seqZ_cons, seqZ_nil by lia. cbn [fmap list_fmap fold_left line_loop].
    subst k. unfold pt. cbn [fst snd]. rewrite !nearest_last by lia. rewrite !Z.eqb_refl. done.
  - rewrite seqZ_cons by lia. rewrite fmap_cons. cbn [fold_left line_loop].
    pose proof (nearest_bounds M k dx ltac:(lia) ltac:(lia) ltac:(lia)) as Bi. pose proof (nearest_bounds M k dy ltac:(lia) ltac:(lia) ltac:(lia)) as Bj.
    pose proof (nearest_bounds M (k + 1) dx ltac:(lia) ltac:(lia) ltac:(lia)) as Bi'. pose proof (nearest_bounds M (k + 1) dy ltac:(lia) ltac:(lia) ltac:(lia)) as Bj'.
    destruct (line_decisions dx dy k Hx Hy ltac:(lia)) as [Di Dj]. fold M in Di, Dj.
    assert (Hend : ((pt k).1 =? x0 + sx * dx) && ((pt k).2 =? y0 + sy * dy) = false).
    { apply andb_false_iff. rewrite !Z.eqb_neq. unfold pt. cbn [fst snd].
      destruct (Z.max_spec dx dy) as [[Hlt HMe]|[Hle HMe]].
      - right. assert (nearest M k dy = k) by (unfold M; rewrite HMe; apply nearest_major; lia). lia.
      - left. assert (nearest M k dx = k) by (unfold M; rewrite HMe; apply nearest_major; lia). lia. }
    rewrite Hend. specialize (IH (k + 1) fuel (plot c ctx (pt k)) ltac:(lia) ltac:(lia) ltac:(lia)).
    replace (Z.pred (Z.of_nat (S n) + 1)) with (Z.of_nat n + 1) by lia. replace (Z.succ k) with (k + 1) by lia. rewrite <- IH. clear IH.
    pose proof (line_error dx dy k Hx Hy ltac:(lia)) as He. fold M in He. unfold pt. cbn [fst snd]. rewrite Di, Dj. clear Hend pt.
    rewrite Di in Bi'. rewrite Dj in Bj'. revert Bi Bj Bi' Bj' He. clear Di Dj. generalize (nearest M k dx) (nearest M k dy). intros i j.
    set (e := dx - dy - (i * dy - j * dx)). intros Bi Bj Bi' Bj' He. assert (He' : - 2 ^ 31 < 2 * e < 2 ^ 31) by lia.
    rewrite (s32_id (2 * e)) by lia.
    destruct (Z.ltb_spec (- dy) (2 * e)), (Z.ltb_spec (2 * e) dx); rewrite ?(s32_id (e - dy)), ?(s32_id (e - dy + dx)), ?(s32_id (e + dx)) by lia;
      rewrite ?(s32_id (x0 + sx * i + sx)), ?(s32_id (y0 + sy * j + sy)) by (destruct Hsx as [-> | ->], Hsy as [-> | ->]; lia);
      unfold plot; cbn [fst snd]; f_equal; lia.
Qed.

Lemma line_points_ends x0 y0 x1 y1 :
  line_points x0 y0 x1 y1 !! 0%nat = Some (x0, y0) /\ last (line_points x0 y0 x1 y1) = Some (x1, y1).
Proof.
  unfold line_points. set (dx := Z.abs (x1 - x0)). set (dy := Z.abs (y1 - y0)). set (M := Z.max dx dy). split.
  - rewrite list_lookup_fmap, lookup_seqZ_lt by lia. cbn [fmap option_fmap option_map]. rewrite Z.add_0_r, !nearest_0 by lia. f_equal. f_equal; lia.
  - rewrite seqZ_app by lia. rewrite fmap_app. change (seqZ (0 + M) 1) with [0 + M]. cbn [fmap list_fmap]. rewrite last_snoc, Z.add_0_l.
    f_equal. assert (HM : M = 0 \/ 0 < M) by lia. destruct HM as [HM|HM].
    + rewrite HM. rewrite !nearest_0 by lia. f_equal; lia.
    + rewrite !nearest_last by lia. unfold dx, dy. f_equal; [destruct (Z.ltb_spec x0 x1)|destruct (Z.ltb_spec y0 y1)]; lia.
Qed.

Lemma line_plots fuel ctx x0 y0 x1 y1 c :
  - 2 ^ 28 <= x0 < 2 ^ 28 -> - 2 ^ 28 <= y0 < 2 ^ 28 -> - 2 ^ 28 <= x1 < 2 ^ 28 -> - 2 ^ 28 <= y1 < 2 ^ 28 ->
  Z.max (Z.abs (x1 - x0)) (Z.abs (y1 - y0)) < Z.of_nat fuel ->
  gfx_line fuel ctx x0 y0 x1 y1 c = Some (fold_left (plot c) (line_points x0 y0 x1 y1) ctx).
Proof.
  intros Hx0 Hy0 Hx1 Hy1 Hf. unfold gfx_line, line_points. cbn zeta.
  set (dx := Z.abs (x1 - x0)) in *. set (dy := Z.abs (y1 - y0)) in *.
  assert (Edx : (if x0 <? x1 then s32 (x1 - x0) else s32 (x0 - x1)) = dx) by (destruct (Z.ltb_spec x0 x1); rewrite s32_id by lia; lia).
  assert (Edy : (if y0 <? y1 then s32 (y1 - y0) else s32 (y0 - y1)) = dy) by (destruct (Z.ltb_spec y0 y1); rewrite s32_id by lia; lia).
  rewrite Edx, Edy, s32_id by lia. set (sx := if x0 <? x1 then 1 else -1). set (sy := if y0 <? y1 then 1 else -1).
  assert (Ex1 : x1 = x0 + sx * dx) by (unfold sx; destruct (Z.ltb_spec x0 x1); lia).
  assert (Ey1 : y1 = y0 + sy * dy) by (unfold sy; destruct (Z.ltb_spec y0 y1); lia).
  destruct (decide (Z.max dx dy = 0)) as [E0|E0].
  - assert (x1 = x0 /\ y1 = y0) as [-> ->] by lia. destruct fuel as [|fuel]; [lia|]. cbn [line_loop]. rewrite !Z.eqb_refl. cbn [andb].
    rewrite E0. change (seqZ 0 (0 + 1)) with [0]. cbn [fmap list_fmap fold_left]. unfold plot. rewrite !nearest_0 by lia. cbn [fst snd].
    by rewrite !Z.mul_0_r, !Z.add_0_r.
  - pose proof (line_loop_points x0 y0 dx dy sx sy c ltac:(lia) ltac:(lia) ltac:(lia) ltac:(lia) ltac:(lia)
      ltac:(unfold sx; destruct (x0 <? x1); auto) ltac:(unfold sy; destruct (y0 <? y1); auto)
      (Z.to_nat (Z.max dx dy)) 0 fuel ctx ltac:(lia) ltac:(lia) ltac:(lia)) as H.
    cbn beta zeta in H. cbn [fst snd] in H. rewrite !nearest_0, !Z.mul_0_l, !Z.mul_0_r, !Z.sub_0_r, !Z.add_0_r, Z2Nat.id in H by lia.
    rewrite <- Ex1, <- Ey1 in H. exact H.
Qed.

(** One round of the Babylonian method stays above the root and halves the distance. *)
Lemma sqrt_round x res : 0 < x < 2 ^ 31 - 1 -> Z.sqrt x <= res <= x ->
  let nx := s32 (res + x ÷ res) ÷ 2 in
  Z.sqrt x <= nx /\ (res = Z.sqrt x -> res <= nx) /\ (Z.sqrt x < res -> nx - Z.sqrt x <= (res - Z.sqrt x) / 2 /\ nx < res).
Proof.
  intros Hx Hr. cbn zeta. pose proof (Z.sqrt_spec x ltac:(lia)) as Hs. cbn zeta in Hs. assert (Hs0 : 0 < Z.sqrt x) by (apply Z.sqrt_pos; lia).
  revert Hs Hs0 Hr. generalize (Z.sqrt x). intros s Hs Hs0 Hr. rewrite (Z.quot_div_nonneg x res) by lia.
  assert (Hge : 2 * s - res <= x / res) by (apply Z.div_le_lower_bound; [lia|]; pose proof (Z.square_nonneg (res - s)); lia).
  assert (Hq : 0 <= x / res) by (apply Z.div_pos; lia).
  assert (Hup : s < res -> x / res <= s).
  { intros Hlt. apply Z.lt_succ_r. apply Z.div_lt_upper_bound; [lia|]. assert (Z.succ s * Z.succ s <= res * Z.succ s) by (apply Z.mul_le_mono_nonneg_r; lia). lia. }
  assert (Hsum : 0 <= res + x / res <= 2 ^ 31 - 1).
  { split; [lia|]. pose proof (Z.mul_div_le x res ltac:(lia)) as Hm. revert Hq Hm. generalize (x / res). intros q Hq Hm.
    destruct (decide (q = 0)); [lia|]. assert (0 <= (res - 1) * (q - 1)) by (apply Z.mul_nonneg_nonneg; lia). lia. }
  rewrite s32_small by lia. rewrite Z.quot_div_nonneg by lia. revert Hge Hq Hup Hsum. generalize (x / res). intros q Hge Hq Hup Hsum. lia.
Qed.

Lemma sqrt_loop_root x n fuel res nx : 0 < x < 2 ^ 31 - 1 -> Z.sqrt x <= res <= x -> res - Z.sqrt x < 2 ^ Z.of_nat n -> (n < fuel)%nat ->
  nx = s32 (res + x ÷ res) ÷ 2 -> sqrt_loop fuel x res nx = Some (Z.sqrt x).
Proof.
  intros Hx. revert fuel res nx. induction n as [|n IH]; intros fuel res nx Hr Hd Hf ->; (destruct fuel as [|fuel]; [lia|]); cbn [sqrt_loop].
  - destruct (sqrt_round x res Hx Hr) as (_ & H & _). assert (res = Z.sqrt x) as -> by lia. specialize (H eq_refl).
    destruct (Z.ltb_spec (s32 (Z.sqrt x + x ÷ Z.sqrt x) ÷ 2) (Z.sqrt x)); [lia|done].
  - destruct (sqrt_round x res Hx Hr) as (H0 & H1 & H2). destruct (decide (res = Z.sqrt x)) as [->|Hne].
    + specialize (H1 eq_refl). destruct (Z.ltb_spec (s32 (Z.sqrt x + x ÷ Z.sqrt x) ÷ 2) (Z.sqrt x)); [lia|done].
    + destruct (H2 ltac:(lia)) as [H3 H4]. destruct (Z.ltb_spec (s32 (res + x ÷ res) ÷ 2) res); [|lia].
      revert H0 H3 H4. generalize (s32 (res + x ÷ res) ÷ 2). intros nx H0 H3 H4. apply IH; [lia| |lia|done].
      rewrite Nat2Z.inj_succ, Z.pow_succ_r in Hd by lia. lia.
Qed.

(** [x] is the column nearest to the circle in row [y]. *)
Definition on_circle (r x y : Z) : Prop := x * x - x < r * r - y * y <= x * x + x.
#[export] Instance on_circle_dec r x y : Decision (on_circle r x y).
Proof. apply _. Defined.

(** The points that the midpoint loop visits from row [y] on: the nearest column of
    every row, up to the diagonal. *)
Definition octant_from (r y : Z) (pts : list (Z * Z)) : Prop :=
  pts.*2 = seqZ y (zlen pts) /\ Forall (fun p => p.2 <= p.1 /\ on_circle r p.1 p.2) pts /\
  forall x, on_circle r x (y + zlen pts) -> x < y + zlen pts.

Lemma octant_nil r x y : 0 <= x + y -> x < y -> r * r - y * y <= x * x + x -> octant_from r y [].
Proof.
  intros Hx Hyx Hlo. split; [done|]. split; [apply Forall_nil_2|]. intros x'. unfold on_circle, zlen. cbn [length].
  rewrite Z.add_0_r. intros [H1 _]. destruct (Z.lt_ge_cases x' y); [done|exfalso].
  assert (0 <= (x' - x - 1) * (x' + x)) by (apply Z.mul_nonneg_nonneg; lia). lia.
Qed.

Lemma octant_cons r x y pts : y <= x -> on_circle r x y -> octant_from r (y + 1) pts -> octant_from r y ((x, y) :: pts).
Proof.
  intros Hyx Hc (Es & Ha & Hm). unfold octant_from. rewrite zlen_cons. split; [|split].
  - rewrite seqZ_cons by (pose proof (zlen_nonneg pts); lia). rewrite fmap_cons. cbn [snd]. f_equal.
    rewrite Z.add_1_l, Z.pred_succ, <- Z.add_1_r. exact Es.
  - by constructor.
  - replace (y + (1 + zlen pts)) with (y + 1 + zlen pts) by lia. exact Hm.
Qed.

Lemma midpoint_octant draw r : 0 < r < 2 ^ 28 -> forall n fuel x y d ctx,
  r + 1 - y <= Z.of_nat n -> (n < fuel)%nat -> x <= r -> 0 <= y -> 0 <= x + y -> d = x * x + y * y - r * r + 2 * y - x + 1 ->
  r * r - y * y <= x * x + x -> (y <= x -> x * x - x < r * r - y * y) ->
  exists pts, midpoint fuel draw x y d ctx = Some (fold_left (fun c p => draw p.1 p.2 c) pts ctx) /\ octant_from r y pts.
Proof.
  intros Hr. induction n as [|n IH]; intros fuel x y d ctx Hn Hf Hx Hy Hy2 Hd Hlo Hup; (destruct fuel as [|fuel]; [lia|]); cbn [midpoint];
    (destruct (Z.leb_spec y x) as [Hyx|Hyx]; [|exists []; split; [done|]; by apply (octant_nil r x)]); [lia|].
  specialize (Hup Hyx). cbn zeta. rewrite (s32_id (y + 1)) by lia.
  assert (Hpt : on_circle r x y) by (unfold on_circle; lia).
  destruct (Z.ltb_spec d 0) as [Hd0|Hd0].
  - rewrite s32_id by lia. destruct (IH fuel x (y + 1) (d + (2 * (y + 1) + 1)) (draw x y ctx)) as (pts & E & Ho); [lia..|].
    exists ((x, y) :: pts). split; [exact E|]. by apply octant_cons.
  - rewrite (s32_id (x - 1)), s32_id by lia.
    destruct (IH fuel (x - 1) (y + 1) (d + (2 * (y + 1 - (x - 1)) + 1)) (draw x y ctx)) as (pts & E & Ho); [lia..|].
    exists ((x, y) :: pts). split; [exact E|]. by apply octant_cons.
Qed.

Lemma octant_inv r y x y' pts : octant_from r y ((x, y') :: pts) -> y' = y /\ y <= x /\ on_circle r x y /\ octant_from r (y + 1) pts.
Proof.
  unfold octant_from. rewrite zlen_cons. intros (Es & Ha & Hm). rewrite seqZ_cons in Es by (pose proof (zlen_nonneg pts); lia).
  rewrite fmap_cons in Es. cbn [snd] in Es. injection Es as -> Es. apply Forall_cons in Ha as [[H1 H2] Ha]. cbn [fst snd] in H1, H2.
  split; [done|]. split; [done|]. split; [done|]. rewrite Z.add_1_l, Z.pred_succ, <- Z.add_1_r in Es. split; [exact Es|]. split; [done|].
  replace (y + 1 + zlen pts) with (y + (1 + zlen pts)) by lia. exact Hm.
Qed.

(** There is one such octant. *)
Lemma octant_unique r p q y : 0 <= y -> octant_from r y p -> octant_from r y q -> p = q.
Proof.
  assert (Hend : forall y x y' pts, octant_from r y [] -> octant_from r y ((x, y') :: pts) -> False).
  { intros y0 x y' pts (_ & _ & Hm) (-> & Hyx & Hc & _)%octant_inv. change (zlen []) with 0 in Hm. rewrite Z.add_0_r in Hm. apply Hm in Hc. lia. }
  revert q y. induction p as [|[x1 y1] p IH]; intros [|[x2 y2] q] y Hy Hp Hq; [done|by destruct (Hend _ _ _ _ Hp Hq)|by destruct (Hend _ _ _ _ Hq Hp)|].
  apply octant_inv in Hp as (-> & Hx1 & [A1 A2] & Hp). apply octant_inv in Hq as (-> & Hx2 & [B1 B2] & Hq).
  assert (x1 = x2) as ->.
  { destruct (Z.lt_trichotomy x1 x2) as [|[|]]; [exfalso|done|exfalso].
    - assert (0 <= (x2 - x1 - 1) * (x2 + x1)) by (apply Z.mul_nonneg_nonneg; lia). lia.
    - assert (0 <= (x1 - x2 - 1) * (x2 + x1)) by (apply Z.mul_nonneg_nonneg; lia). lia. }
  f_equal. apply (IH q (y + 1)); [lia|done|done].
Qed.

Lemma blit_alpha_pixels ctx x y w h src :
  frame_ok ctx -> fb ctx <> NULL -> rect_fits x y w h -> w * h <= 2 ^ 32 -> (forall i, colour (src i)) ->
  forall px py, 0 <= px < width ctx ->
    pixels (gfx_blit_alpha ctx x y w h (Some src)) (py * width ctx + px) =
      (if visible ctx x y w h px py then gfx_blend (pixels ctx (py * width ctx + px)) (src ((py - y) * w + (px - x)))
       else pixels ctx (py * width ctx + px)).
Proof.
  intros Hok Hf Hr Hwh Hsrc px py Hpx. unfold gfx_blit_alpha.
  assert (Hnone : w = 0 \/ h = 0 -> visible ctx x y w h px py = false).
  { intros Hn. unfold visible, in_area. destruct (Z.leb_spec x px), (Z.ltb_spec px (x + w)), (Z.leb_spec y py), (Z.ltb_spec py (y + h));
      rewrite ?andb_false_r; done || lia. }
  destruct (Z.eqb_spec w 0); [rewrite Hnone; auto|]. destruct (Z.eqb_spec h 0); [rewrite Hnone; auto|]. cbn [orb].
  match goal with |- context [blit_loop ctx x y w h ?p] => destruct (blit_loop_pixels ctx x y w h p Hok Hf Hr) as [_ Hp] end.
  { intros r i c. cbn zeta. destruct (negb _); [|done]. intros [= <-]. apply Hsrc. }
  rewrite (Hp px py Hpx). destruct (visible ctx x y w h px py) eqn:Ev; [|done]. cbn zeta.
  unfold visible, in_area in Ev. destruct Hr as (Hx & Hy & Hw & Hh & _ & _).
  assert (Ha : x <= px < x + w /\ y <= py < y + h).
  { destruct (Z.leb_spec x px), (Z.ltb_spec px (x + w)), (Z.leb_spec y py), (Z.ltb_spec py (y + h)); rewrite ?andb_false_r in Ev; done || lia. }
  rewrite u32_id by (apply (source_index _ _ _ h); lia).
  destruct (Z.eqb_spec (Z.shiftr (src ((py - y) * w + (px - x))) 24) 0) as [E|]; cbn [negb paint]; [|done]. by rewrite blend_transparent.
Qed.

(** Equal where the frame has pixels, and untouched elsewhere. *)
Lemma drawn_ext ctx c1 c2 : frame_ok ctx -> drawn ctx c1 -> drawn ctx c2 ->
  (forall px py, 0 <= px < width ctx -> pixels c1 (py * width ctx + px) = pixels c2 (py * width ctx + px)) -> forall k, pixels c1 k = pixels c2 k.
Proof.
  intros [Hw Hh Hs Hx Hy Hx2 Hy2] [_ D1] [_ D2] H k. destruct (decide (width ctx = 0)) as [E|E].
  - destruct (D1 k) as [->|(? & ? & [? ?] & _)]; [|lia]. destruct (D2 k) as [->|(? & ? & [? ?] & _)]; [done|lia].
  - pose proof (Z.div_mod k (width ctx) E) as Hk. replace k with (k / width ctx * width ctx + k mod width ctx) by lia.
    apply H. apply Z.mod_pos_bound. lia.
Qed.

(** * Theorems *)

(** A frame of four by four pixels. *)
Definition small_frame : gfx_ctx := gfx_create_context 0x1000 (fun _ => 0) 4 4.

Lemma small_frame_ok : frame_ok small_frame.
Proof. constructor; vm_compute; intuition congruence. Qed.

(** C27 Drawing stays inside the frame and the clip rectangle: in a context of a frame of
    [w] by [h] pixels, after any sequence of drawing calls and of clip rectangles whose
    stored corner is below 2^31, no word outside the [w * h] pixels of the frame has changed;
    and one more call changes only pixels of the clip rectangle of the moment.  A corner
    from 2^31 on is negative to [gfx_fill_rect]; [gfx_negative_clip_escapes] shows what
    it then does. *)
Theorem gfx_stays_in_frame fuel a px w h (Hw : 0 <= w < 2 ^ 31) (Hh : 0 <= h < 2 ^ 31) (Hs : w * h <= 2 ^ 31) :
  (forall ctx, gfx_reachable fuel a px w h ctx ->
     width ctx = w /\ height ctx = h /\ forall k, ~ (0 <= k < w * h) -> pixels ctx k = px k) /\
  (forall ctx ctx', gfx_reachable fuel a px w h ctx -> draws fuel ctx ctx' ->
     forall k, pixels ctx' k = pixels ctx k \/
       exists x y, clip_x ctx <= x < clip_x2 ctx /\ clip_y ctx <= y < clip_y2 ctx /\ k = y * w + x).
Proof.
  split.
  - intros ctx Hr. by destruct (gfx_reachable_inv fuel a px w h ctx Hw Hh Hs Hr) as (_ & ? & ? & ?).
  - intros ctx ctx' Hr Hd k. destruct (gfx_reachable_inv fuel a px w h ctx Hw Hh Hs Hr) as (Hok & Ew & _ & _).
    destruct (draws_drawn fuel ctx ctx' Hok Hd) as [_ Hk]. destruct (Hk k) as [|(x & y & [H1 H2] & ->)]; [by left|].
    right. exists x, y. by rewrite <- Ew.
Qed.

(** A red rectangle over the right edge, cut to the clip rectangle. *)
Definition clipped_frame : gfx_ctx := gfx_set_clip small_frame 1 1 8 2.

Lemma gfx_stays_in_frame_witness :
  pixels (gfx_fill_rect clipped_frame 3 (-1) 10 10 0xFFFF0000) 7 = 0xFFFF0000 /\
  pixels (gfx_fill_rect clipped_frame 3 (-1) 10 10 0xFFFF0000) 16 = 0.
Proof.
  split; [reflexivity|].
  destruct (gfx_stays_in_frame 9 0x1000 (fun _ => 0) 4 4 ltac:(lia) ltac:(lia) ltac:(lia)) as [H _].
  destruct (H (gfx_fill_rect clipped_frame 3 (-1) 10 10 0xFFFF0000)) as (_ & _ & Hk); [|exact (Hk 16 ltac:(lia))].
  apply (gfx_draws _ _ _ _ _ clipped_frame); [apply gfx_clips; [apply gfx_new|lia|lia]|apply d_fill_rect].
Defined.

(** The corner of a clip rectangle is stored unsigned and compared as signed, so a
    corner left of the frame lets a rectangle start outside it. *)
Theorem gfx_negative_clip_escapes :
  let ctx := gfx_set_clip small_frame (u32 (-8)) 0 12 4 in
  clip_x2 ctx = 4 /\ pixels (gfx_fill_rect ctx (-8) 1 3 1 0xFFFFFFFF) (u32 (-4)) = 0xFFFFFFFF.
Proof. by vm_compute. Qed.

(** C29 The fast paths draw what drawing pixel by pixel does.  [gfx_fill_rect] blends its
    colour into every pixel of the rectangle inside the clip rectangle and leaves the
    others, which is [gfx_putpixel] for every pixel of the rectangle.  [gfx_blit] copies
    the source rectangle to the same place, cut to the clip rectangle with the source
    shifted accordingly, and is [gfx_blit_alpha] when the source is opaque. *)
Theorem gfx_fast_paths ctx x y w h (Hok : frame_ok ctx) (Hf : fb ctx <> NULL) (Hr : rect_fits x y w h) :
  (forall c, colour c ->
     (forall px py, 0 <= px < width ctx ->
        pixels (gfx_fill_rect ctx x y w h c) (py * width ctx + px) =
          if visible ctx x y w h px py then gfx_blend (pixels ctx (py * width ctx + px)) c else pixels ctx (py * width ctx + px)) /\
     forall k, pixels (gfx_fill_rect ctx x y w h c) k = pixels (blit_loop ctx x y w h (fun _ _ => Some c)) k) /\
  (forall src, w * h <= 2 ^ 32 -> exists ctx', gfx_blit ctx x y w h (Some src) = Some ctx' /\
     (forall px py, 0 <= px < width ctx ->
        pixels ctx' (py * width ctx + px) =
          if visible ctx x y w h px py then src ((py - y) * w + (px - x)) else pixels ctx (py * width ctx + px)) /\
     ((forall i, colour (src i) /\ Z.shiftr (src i) 24 = 0xFF) ->
        forall k, pixels ctx' k = pixels (gfx_blit_alpha ctx x y w h (Some src)) k)).
Proof.
  split.
  - intros c Hc. pose proof (fill_rect_pixels ctx x y w h c Hok Hf Hr Hc) as Hp. split; [exact Hp|].
    apply (drawn_ext ctx); [done|by apply fill_rect_drawn|by apply blit_loop_drawn|]. intros px py Hpx.
    rewrite Hp by done. destruct (blit_loop_pixels ctx x y w h (fun _ _ => Some c) Hok Hf Hr) as [_ Hq]; [by intros ? ? ? [= <-]|]. by rewrite Hq.
  - intros src Hwh. destruct (blit_pixels ctx x y w h src Hok Hf Hr Hwh) as (ctx' & E & Hp). exists ctx'. split; [done|]. split; [exact Hp|].
    intros Hsrc. apply (drawn_ext ctx); [done|by eapply blit_drawn|apply (draws_drawn 0); [done|apply d_blit_alpha]|]. intros px py Hpx.
    rewrite Hp, blit_alpha_pixels by (done || intros i; apply Hsrc). destruct (visible _ _ _ _ _ _ _); [|done].
    destruct (Hsrc ((py - y) * w + (px - x))) as [Hc Ha]. by rewrite (blend_cases _ _ Hc), Ha.
Qed.

Lemma gfx_fast_paths_witness :
  pixels (gfx_fill_rect clipped_frame (-1) 0 4 3 0x80FFFFFF) 5 = 0xFF808080 /\
  pixels (gfx_fill_rect clipped_frame (-1) 0 4 3 0x80FFFFFF) 5 = pixels (blit_loop clipped_frame (-1) 0 4 3 (fun _ _ => Some 0x80FFFFFF)) 5 /\
  exists ctx', gfx_blit clipped_frame (-1) 0 4 3 (Some (fun i => i)) = Some ctx' /\ pixels ctx' 5 = 6.
Proof.
  assert (Hok : frame_ok clipped_frame) by (constructor; vm_compute; intuition congruence).
  destruct (gfx_fast_paths clipped_frame (-1) 0 4 3 Hok ltac:(done) ltac:(unfold rect_fits; lia)) as [H1 H2].
  split; [reflexivity|]. split; [apply H1; unfold colour; lia|].
  destruct (H2 (fun i => i) ltac:(lia)) as (ctx' & E & Hp & _). exists ctx'. split; [done|].
  exact (Hp 1 1 ltac:(vm_compute; split; congruence)).
Defined.

(** C28 [gfx_line] draws the nearest pixels: between points less than 2^29 apart its loop
    ends, and plots exactly, in order, for each of the steps along the longer side of the
    line one pixel, the nearest to the line (halves down); it starts with the first
    point and ends with the last.  This is the line without its division: every pixel of
    [line_points] is given by the rounded quotient. *)
Theorem gfx_line_nearest fuel ctx x0 y0 x1 y1 c :
  - 2 ^ 28 <= x0 < 2 ^ 28 -> - 2 ^ 28 <= y0 < 2 ^ 28 -> - 2 ^ 28 <= x1 < 2 ^ 28 -> - 2 ^ 28 <= y1 < 2 ^ 28 ->
  Z.max (Z.abs (x1 - x0)) (Z.abs (y1 - y0)) < Z.of_nat fuel ->
  gfx_line fuel ctx x0 y0 x1 y1 c = Some (fold_left (plot c) (line_points x0 y0 x1 y1) ctx) /\
  line_points x0 y0 x1 y1 !! 0%nat = Some (x0, y0) /\ last (line_points x0 y0 x1 y1) = Some (x1, y1).
Proof. intros. split; [by apply line_plots|apply line_points_ends]. Qed.

Lemma gfx_line_nearest_witness :
  line_points 0 0 3 2 = [(0, 0); (1, 1); (2, 1); (3, 2)] /\
  exists ctx', gfx_line 4 small_frame 0 0 3 2 7 = Some ctx'.
Proof.
  split; [reflexivity|].
  destruct (gfx_line_nearest 4 small_frame 0 0 3 2 7 ltac:(lia) ltac:(lia) ltac:(lia) ltac:(lia) ltac:(lia)) as [E _]. by eexists.
Defined.

(** C30 The circles: for a radius between 1 and 2^28 the loop of [gfx_circle] and of
    [gfx_fill_circle] ends, having visited the rows 0, 1, ... of an octant in order, up to
    the diagonal, and in each the column nearest to the circle of that radius: [x] with
    (x - 1/2)^2 <= r^2 - y^2 <= (x + 1/2)^2 up to rounding.  The outline plots the eight
    mirror images of each point, the disc the four rows between them. *)
Theorem gfx_circle_octant fuel ctx cx cy r c (Hr : 0 < r < 2 ^ 28) (Hf : r + 1 < Z.of_nat fuel) :
  exists pts, octant_from r 0 pts /\
  gfx_circle fuel ctx cx cy r c = Some (fold_left (fun ctx p => circle_points cx cy c p.1 p.2 ctx) pts ctx) /\
  gfx_fill_circle fuel ctx cx cy r c = Some (fold_left (fun ctx p => disc_rows cx cy c p.1 p.2 ctx) pts ctx).
Proof.
  assert (Hrun : forall draw, exists pts, midpoint fuel draw r 0 (1 - r) ctx = Some (fold_left (fun c p => draw p.1 p.2 c) pts ctx) /\ octant_from r 0 pts).
  { intros draw. apply (midpoint_octant draw r Hr (Z.to_nat (r + 1))); lia. }
  destruct (Hrun (circle_points cx cy c)) as (pts & E & Ho). destruct (Hrun (disc_rows cx cy c)) as (qts & F & Hq).
  assert (qts = pts) as -> by (by apply (octant_unique r _ _ 0)).
  exists pts. split; [done|]. unfold gfx_circle, gfx_fill_circle. destruct (Z.eqb_spec r 0); [lia|].
  rewrite !(s32_small r), (s32_id (1 - r)) by lia. by split.
Qed.

Lemma gfx_circle_octant_witness :
  octant_from 4 0 [(4, 0); (4, 1); (3, 2); (3, 3)] /\ exists ctx', gfx_circle 6 small_frame 0 0 4 7 = Some ctx'.
Proof.
  destruct (gfx_circle_octant 6 small_frame 0 0 4 7 ltac:(lia) ltac:(lia)) as (pts & Ho & E & _). split; [|by eexists].
  split; [reflexivity|]. split; [repeat (apply Forall_cons; split; [vm_compute; intuition congruence|]); apply Forall_nil_2|]. intros x [H1 H2]. change (0 + zlen _) with 4 in *. nia.
Defined.

(** The square root of [gfx_rounded_rect] is exact, and found within 33 rounds. *)
Theorem sqrt_int_correct fuel x : x < 2 ^ 31 - 1 -> (33 <= fuel)%nat -> sqrt_int fuel x = Some (Z.sqrt x).
Proof.
  intros Hx Hf. unfold sqrt_int. destruct (Z.leb_spec x 0).
  { destruct (decide (x = 0)) as [->|]; [done|]. by rewrite Z.sqrt_neg by lia. }
  apply (sqrt_loop_root x 31); [lia| | |lia|done].
  - split; [apply Z.sqrt_le_lin; lia|lia].
  - pose proof (Z.sqrt_nonneg x). lia.
Qed.

(** The ends of a gradient, black, white, and what blending makes of the alpha channel. *)
Theorem gfx_colours a b old c :
  gfx_color_lerp a b 0 = opaque (channel a 16) (channel a 8) (channel a 0) /\
  gfx_color_lerp a b 255 = opaque (channel b 16) (channel b 8) (channel b 0) /\
  gfx_darken c 255 = 0xFF000000 /\ gfx_lighten c 255 = 0xFFFFFFFF /\
  (Z.shiftr c 24 = 0xFF -> gfx_blend old c = c).
Proof.
  unfold gfx_color_lerp, lerp_channel, gfx_darken, darken_channel, gfx_lighten, lighten_channel.
  rewrite !Z.mul_0_r, !Z.quot_0_l, !Z.add_0_r, !Z.quot_mul by lia.
  assert (E2 : forall v, v + 255 * (255 - v) / 255 = 255) by (intros; lia).
  split; [done|]. split; [f_equal; lia|]. split; [done|]. split; [by rewrite !E2|].
  intros H. unfold gfx_blend. by rewrite H.
Qed.
