(* ===== verification/Gui.v ===== *)
(** The compositor ([src/compositor.c], [display_clear] of [src/display.c]): views and
    touch input, the lock screen and its PIN pad, notifications, surfaces, the list of
    apps, and the drawing of every view with [Gfx]; and the theorems about the lock
    screen, the notifications and the frames.

    The state [gui] joins the fields of [g_gui] that the code uses with the static
    variables of the file.  A [char] array is the list of its bytes ([text] puts it into
    a memory for the string routines); a string argument is the list of its characters,
    or [None] for [NULL].  A pointer to a surface is its index.  Surfaces are allocated
    from any [NetMemory] (byte memory and [kmalloc]); the frame buffer of the display is
    the one of the context [g_fb_ctx].  The uptime in seconds is an argument. *)
From Stdlib Require Import Ascii String.
From S2P Require Import Prelude Pmm CString Printk Heap Net Gfx.

(** * Constants *)

Definition CRGBA (r g b a : Z) : Z := Z.lor (Z.lor (Z.lor (Z.shiftl a 24) (Z.shiftl r 16)) (Z.shiftl g 8)) b.
Definition CRGB (r g b : Z) : Z := CRGBA r g b 255.
Definition C_WHITE : Z := CRGB 255 255 255.
Definition C_RED : Z := CRGB 239 68 68.
Definition C_GREEN : Z := CRGB 34 197 94.
Definition C_BLUE : Z := CRGB 59 130 246.
Definition C_YELLOW : Z := CRGB 234 179 8.
Definition C_CYAN : Z := CRGB 6 182 212.
Definition C_MAGENTA : Z := CRGB 236 72 153.
Definition C_ORANGE : Z := CRGB 249 115 22.
Definition C_PURPLE : Z := CRGB 168 85 247.
Definition C_PINK : Z := CRGB 236 72 153.
Definition C_DKGRAY : Z := CRGB 64 64 64.
Definition C_LTGRAY : Z := CRGB 200 200 200.
Definition C_CRIMSON : Z := CRGB 220 20 60.
Definition C_BLOODMOON_BG : Z := CRGB 10 5 15.
Definition C_BLOODMOON_PANEL : Z := CRGB 20 12 28.
Definition C_BLOODMOON_TEXT : Z := CRGB 230 220 240.
Definition C_BLOODMOON_TEXT2 : Z := CRGB 160 150 170.

Definition GUI_MAX_SURFACES : Z := 32.
Definition GUI_MAX_APPS : Z := 64.
Definition GUI_NOTIFICATION_MAX : Z := 16.
Definition GUI_SURFACE_APP : Z := 1.
Definition GUI_STATE_VISIBLE : Z := 1.
Definition GUI_STATE_HIDDEN : Z := 2.
Definition GUI_NOTIFY_WARNING : Z := 2.
Definition GUI_NOTIFY_CRITICAL : Z := 3.

Definition VIEW_HOME : Z := 0.
Definition VIEW_LAUNCHER : Z := 1.
Definition VIEW_LOCK : Z := 2.
Definition VIEW_NOTIFICATIONS : Z := 3.
Definition VIEW_RECENT : Z := 4.
Definition VIEW_POWER : Z := 5.

Definition SB_HEIGHT : Z := 48.
Definition NB_HEIGHT : Z := 56.
Definition GRID_COLS : Z := 4.
Definition ICON_SIZE : Z := 88.
Definition NUM_BUILTIN_APPS : Z := 16.

Definition EVENT_DOWN : Z := 0.

Definition app_names : list (list Z) := map chars [
  "Phone"; "Messages"; "Browser"; "Camera"; "Gallery"; "Files"; "Settings"; "Store";
  "Terminal"; "Clock"; "Music"; "Mail"; "Maps"; "Weather"; "Calendar"; "PenTest"]%string.
Definition app_colors : list Z := [
  C_GREEN; C_BLUE; C_ORANGE; C_MAGENTA; C_PINK; C_YELLOW; C_LTGRAY; C_CRIMSON;
  C_PURPLE; C_CYAN; C_RED; C_BLUE; C_GREEN; C_CYAN; C_ORANGE; C_RED].
Definition app_packages : list (list Z) := map chars [
  "com.crimson.phone"; "com.crimson.messages"; "com.crimson.browser"; "com.crimson.camera";
  "com.crimson.gallery"; "com.crimson.files"; "com.crimson.settings"; "com.crimson.store";
  "com.crimson.terminal"; "com.crimson.clock"; "com.crimson.music"; "com.crimson.mail";
  "com.crimson.maps"; "com.crimson.weather"; "com.crimson.calendar"; "com.crimson.pentest"]%string.

(** * State *)

Record surface := mk_surface {
  sf_id : Z; sf_type : Z; sf_state : Z; sf_x : Z; sf_y : Z; sf_width : Z; sf_height : Z;
  z_order : Z; sf_fb : Z; sf_owner : Z; sf_title : list Z; bg_color : Z; sf_flags : Z
}.
#[export] Instance eta_surface : Eta surface := fun s =>
  mk_surface (sf_id s) (sf_type s) (sf_state s) (sf_x s) (sf_y s) (sf_width s) (sf_height s)
    (z_order s) (sf_fb s) (sf_owner s) (sf_title s) (bg_color s) (sf_flags s).
Definition surface_zero : surface := mk_surface 0 0 0 0 0 0 0 0 0 0 (replicate 64 0) 0 0.
#[export] Instance surface_inhabited : Inhabited surface := populate surface_zero.

Record notification := mk_notif {
  nt_id : Z; nt_level : Z; nt_app_name : list Z; nt_title : list Z; nt_message : list Z;
  nt_timestamp : Z; icon_color : Z
}.
#[export] Instance eta_notification : Eta notification := fun n =>
  mk_notif (nt_id n) (nt_level n) (nt_app_name n) (nt_title n) (nt_message n) (nt_timestamp n) (icon_color n).
Definition notification_zero : notification := mk_notif 0 0 (replicate 32 0) (replicate 128 0) (replicate 256 0) 0 0.
#[export] Instance notification_inhabited : Inhabited notification := populate notification_zero.

Record app_entry := mk_app {
  ap_name : list Z; ap_package : list Z; icon_path : list Z; ap_color : Z; ap_pid : Z; ap_flags : Z
}.
#[export] Instance eta_app : Eta app_entry := fun a =>
  mk_app (ap_name a) (ap_package a) (icon_path a) (ap_color a) (ap_pid a) (ap_flags a).
Definition app_zero : app_entry := mk_app (replicate 64 0) (replicate 128 0) (replicate 128 0) 0 0 0.
#[export] Instance app_inhabited : Inhabited app_entry := populate app_zero.

Record touch_event := mk_touch { te_x : Z; te_y : Z; te_event : Z }.

(** What the touch handlers print instead of doing it. *)
Inductive gui_event := EmergencyDial | QuickApp (i : Z) | LaunchApp (i : Z) | PowerOff | PowerRestart.

(** * Strings *)

(** An array, or a literal with its terminator, at address 1 *)
Definition text (l : list Z) : mem := fun a => l.[a - 1].
Definition lit (s : string) : mem := text (chars s ++ [0]).

(** [strncpy(dst, src, n)] into an array, from a string *)
Definition copy_text (dst : list Z) (src : list Z) (n : nat) : list Z :=
  bytes_at (strncpy n (text (dst ++ src ++ [0])) 1 (1 + zlen dst)) 1 (zlen dst).
Definition copy_opt (dst : list Z) (src : option (list Z)) (n : nat) : list Z :=
  match src with Some l => copy_text dst l n | None => dst end.

(** [snprintf(buf, size, fmt, arg)] with a local buffer *)
Definition format1 (fuel : nat) (size : Z) (fmt : string) (arg : Z) : option (list Z) :=
  r ← snprintf fuel (text (replicate (Z.to_nat size) 0 ++ chars fmt ++ [0])) 1 size (1 + size) [arg];
  Some (bytes_at (fst r) 1 size).

Section gui.
Context {M : Type} `{NM : NetMemory M}.

Record gui := mk_gui {
  gfb_width : Z; gfb_height : Z; framebuffer : Z;
  surfaces : list surface; surface_count : Z; focused : option Z;
  apps : list app_entry; app_count : Z;
  lock_screen : Z; pin_enabled : Z; brightness : Z;
  g_fb_ctx : gfx_ctx;
  current_view : Z; prev_view : Z;
  pin_buffer : list Z; pin_len : Z; pin_target : Z; pin_failed : Z;
  notif_buffer : list notification; notif_count : Z; notif_next_id : Z;
  gui_mem : M;
  backlight : Z;   (** the last value given to [display_set_brightness] *)
  gui_log : list gui_event
}.
#[export] Instance eta_gui : Eta gui := fun s =>
  mk_gui (gfb_width s) (gfb_height s) (framebuffer s) (surfaces s) (surface_count s) (focused s) (apps s) (app_count s)
    (lock_screen s) (pin_enabled s) (brightness s) (g_fb_ctx s) (current_view s) (prev_view s)
    (pin_buffer s) (pin_len s) (pin_target s) (pin_failed s) (notif_buffer s) (notif_count s) (notif_next_id s)
    (gui_mem s) (backlight s) (gui_log s).

Definition mod_surface (s : gui) (i : Z) (f : surface -> surface) : gui :=
  s <| surfaces := (surfaces s).[i <- f (surfaces s).[i]] |>.
Definition mod_notif (s : gui) (i : Z) (f : notification -> notification) : gui :=
  s <| notif_buffer := (notif_buffer s).[i <- f (notif_buffer s).[i]] |>.

Definition log_event (s : gui) (e : gui_event) : gui := s <| gui_log := gui_log s ++ [e] |>.

(** * Apps and initialisation *)

Definition gui_register_app (s : gui) (name package icon : option (list Z)) (color : Z) : gui * Z :=
  if GUI_MAX_APPS <=? app_count s then (s, -1) else
  let a := (apps s).[app_count s] in
  let a := a <| ap_name := copy_opt (ap_name a) name 63 |>
             <| ap_package := copy_opt (ap_package a) package 127 |>
             <| icon_path := copy_opt (icon_path a) icon 127 |>
             <| ap_color := color |> <| ap_pid := -1 |> in
  (s <| apps := (apps s).[app_count s <- a] |> <| app_count := app_count s + 1 |>, 0).

(** The loop over the pixels of the display. *)
Definition display_clear (ctx : gfx_ctx) (color : Z) : gfx_ctx :=
  for_range 0 (u32 (width ctx * height ctx)) (fun i ctx => put ctx i color) ctx.

(** [w], [h], [p] and [fb] are what [display_get_info] reports; [px] what the frame buffer
    shows. *)
Definition gui_init (s : gui) (w h p a : Z) (px : Z -> Z) : gui :=
  let s := s <| surfaces := replicate (Z.to_nat GUI_MAX_SURFACES) surface_zero |> <| surface_count := 0 |>
             <| focused := None |> <| apps := replicate (Z.to_nat GUI_MAX_APPS) app_zero |> <| app_count := 0 |>
             <| gfb_width := w |> <| gfb_height := h |> <| brightness := 100 |> <| lock_screen := 1 |> <| pin_enabled := 1 |>
             <| g_fb_ctx := gfx_reset_clip (mk_ctx a px w h p (clip_x (g_fb_ctx s)) (clip_y (g_fb_ctx s))
                  (clip_x2 (g_fb_ctx s)) (clip_y2 (g_fb_ctx s)) BLEND_ALPHA) |>
             <| framebuffer := a |> in
  let s := for_range 0 NUM_BUILTIN_APPS (fun i s =>
    fst (gui_register_app s (Some app_names.[i]) (Some app_packages.[i]) None app_colors.[i])) s in
  let s := s <| current_view := if negb (pin_enabled s =? 0) then VIEW_LOCK else VIEW_HOME |>
             <| pin_len := 0 |> <| pin_buffer := replicate 16 0 |> in
  s <| g_fb_ctx := display_clear (g_fb_ctx s) C_BLOODMOON_BG |>.

(** The state at boot, before [gui_init]. *)
Definition gui_boot (m : M) : gui :=
  mk_gui 0 0 NULL [] 0 None [] 0 0 0 0 (mk_ctx NULL (fun _ => 0) 0 0 0 0 0 0 0 0) VIEW_LOCK VIEW_HOME
    (replicate 16 0) 0 1234 0 (replicate (Z.to_nat GUI_NOTIFICATION_MAX) notification_zero) 0 1 m 0 [].

(** * Notifications *)

(** [n = &notif_buffer[notif_count++]; n->id = notif_next_id++;] and the other fields *)
Definition push_notif (s : gui) (f : notification -> notification) : gui :=
  let i := notif_count s in
  let id := notif_next_id s in
  let s := s <| notif_count := i + 1 |> <| notif_next_id := u32 (id + 1) |> in
  mod_notif s i (fun n => f (n <| nt_id := id |>)).

(** Shift the oldest out of a full buffer. *)
Definition make_room (s : gui) : gui :=
  if GUI_NOTIFICATION_MAX <=? notif_count s then
    let s := for_range 0 (GUI_NOTIFICATION_MAX - 1) (fun i s => mod_notif s i (fun _ => (notif_buffer s).[i + 1])) s in
    s <| notif_count := GUI_NOTIFICATION_MAX - 1 |>
  else s.

Definition notice (now : Z) (app title msg : option (list Z)) (level : Z) (n : notification) : notification :=
  n <| nt_level := level |> <| nt_timestamp := now |>
    <| nt_app_name := copy_opt (nt_app_name n) app 31 |>
    <| nt_title := copy_opt (nt_title n) title 127 |>
    <| nt_message := copy_opt (nt_message n) msg 255 |>
    <| icon_color := if level =? GUI_NOTIFY_CRITICAL then C_RED
                     else if level =? GUI_NOTIFY_WARNING then C_YELLOW else C_BLUE |>.

Definition gui_notify (s : gui) (now : Z) (app title msg : option (list Z)) (level : Z) : gui :=
  push_notif (make_room s) (notice now app title msg level).

Definition gui_notify_clear (s : gui) (id : Z) : gui :=
  match find_from (fun i => nt_id (notif_buffer s).[i] =? id) (Z.to_nat (notif_count s)) 0 with
  | Some i =>
      let s := for_range i (notif_count s - 1) (fun j s => mod_notif s j (fun _ => (notif_buffer s).[j + 1])) s in
      s <| notif_count := notif_count s - 1 |>
  | None => s
  end.

Definition gui_notify_clear_all (s : gui) : gui := s <| notif_count := 0 |>.

Definition gui_add_notification (s : gui) (title msg : list Z) (color : Z) : gui :=
  if GUI_NOTIFICATION_MAX <=? notif_count s then s else
  push_notif s (fun n => n <| icon_color := color |> <| nt_timestamp := 0 |>
    <| nt_title := copy_text (nt_title n) title 127 |> <| nt_message := copy_text (nt_message n) msg 255 |>).

(** * Lock screen *)

Definition gui_lock (s : gui) : gui :=
  s <| lock_screen := 1 |> <| pin_len := 0 |> <| pin_failed := 0 |> <| pin_buffer := replicate 16 0 |>
    <| current_view := VIEW_LOCK |>.
Definition gui_unlock (s : gui) (pin : Z) : gui :=
  if (pin_enabled s =? 0) || (pin =? pin_target s)
  then s <| lock_screen := 0 |> <| pin_len := 0 |> <| current_view := VIEW_HOME |> else s.
Definition gui_set_pin (s : gui) (pin : Z) : gui := s <| pin_target := pin |> <| pin_enabled := 1 |>.

(** The left and the top edge of key [i] of the pad. *)
Definition key_x (w i : Z) : Z := s32 (s32 (w / 2) - 302 / 2 + i mod 3 * (90 + 16)).
Definition key_y (i : Z) : Z := 700 + i / 3 * (72 + 16).
Definition key_hit (w : Z) (ev : touch_event) (i : Z) : bool :=
  (u32 (key_x w i) <=? te_x ev) && (te_x ev <? u32 (key_x w i + 90)) &&
  (u32 (key_y i) <=? te_y ev) && (te_y ev <? u32 (key_y i + 72)).

(** The first branch is the key DEL, at 11; the test [i == 10] of the second never holds. *)
Definition press_key (s : gui) (i : Z) : gui :=
  if i =? 11 then
    let s := if 0 <? pin_len s then
        let s := s <| pin_len := pin_len s - 1 |> in s <| pin_buffer := (pin_buffer s).[pin_len s <- 0] |>
      else s in
    s <| pin_failed := 0 |>
  else if i <? 10 then
    let digit := if i =? 10 then 0 else i + 1 in
    if pin_len s <? 4 then
      let s := s <| pin_buffer := (pin_buffer s).[pin_len s <- 48 + digit] |> <| pin_len := pin_len s + 1 |> in
      s <| pin_buffer := (pin_buffer s).[pin_len s <- 0] |>
    else s
  else s.

Definition check_pin (s : gui) : option gui :=
  if pin_len s =? 4 then
    entered ← atoi 17 (text (pin_buffer s)) 1;
    if u32 entered =? pin_target s then
      Some (s <| lock_screen := 0 |> <| pin_len := 0 |> <| pin_failed := 0 |> <| current_view := VIEW_HOME |>)
    else Some (s <| pin_len := 0 |> <| pin_failed := 1 |> <| pin_buffer := replicate 16 0 |>)
  else Some s.

Definition handle_pin_touch (s : gui) (ev : touch_event) : option (gui * bool) :=
  if negb (te_event ev =? EVENT_DOWN) then Some (s, false) else
  match find_from (key_hit (gfb_width s) ev) 12 0 with
  | Some i => s ← check_pin (press_key s i); Some (s, true)
  | None => Some (s, false)
  end.

(** * Touch *)

Definition handle_home_touch (s : gui) (ev : touch_event) : gui :=
  if negb (te_event ev =? EVENT_DOWN) then s else
  if u32 (gfb_height s - NB_HEIGHT - 200) <? te_y ev then s <| prev_view := VIEW_HOME |> <| current_view := VIEW_LAUNCHER |> else
  let qy := s32 (s32 (gfb_height s) - NB_HEIGHT - 160) in
  if (u32 qy <=? te_y ev) && (te_y ev <? u32 (qy + ICON_SIZE)) then
    let qgap := s32 (u32 (gfb_width s - 120 - 4 * ICON_SIZE) / 3) in
    match find_from (fun i => let qx := s32 (60 + i * (ICON_SIZE + qgap)) in
                              (u32 qx <=? te_x ev) && (te_x ev <? u32 (qx + ICON_SIZE))) 4 0 with
    | Some i => log_event s (QuickApp i)
    | None => s
    end
  else s.

(** The corner of an icon of the launcher. *)
Definition icon_x (s : gui) (i : Z) : Z :=
  let col_gap := s32 (u32 (gfb_width s - 100 - GRID_COLS * ICON_SIZE) / (GRID_COLS - 1)) in
  s32 (50 + i mod GRID_COLS * (ICON_SIZE + col_gap)).
Definition icon_y (i : Z) : Z := s32 (SB_HEIGHT + 80 + i / GRID_COLS * (ICON_SIZE + 40 + 24)).
Definition apps_to_show (s : gui) : Z := if app_count s <? NUM_BUILTIN_APPS then app_count s else NUM_BUILTIN_APPS.

Definition handle_launcher_touch (s : gui) (ev : touch_event) : gui :=
  if negb (te_event ev =? EVENT_DOWN) then s else
  match find_from (fun i => (u32 (icon_x s i) <=? te_x ev) && (te_x ev <? u32 (icon_x s i + ICON_SIZE)) &&
                            (u32 (icon_y i) <=? te_y ev) && (te_y ev <? u32 (icon_y i + ICON_SIZE))) (Z.to_nat (apps_to_show s)) 0 with
  | Some i => log_event s (LaunchApp i)
  | None => s
  end.

Definition handle_notification_touch (s : gui) (ev : touch_event) : gui :=
  if negb (te_event ev =? EVENT_DOWN) then s else
  let cbx := s32 (s32 (gfb_width s / 2) - 80) in
  let cby := s32 (s32 (gfb_height s) - 160) in
  if (u32 cbx <=? te_x ev) && (te_x ev <? u32 (cbx + 160)) && (u32 cby <=? te_y ev) && (te_y ev <? u32 (cby + 44)) then
    (gui_notify_clear_all s) <| current_view := VIEW_HOME |>
  else if (te_y ev <? SB_HEIGHT + 20) || (te_x ev <? 20) || (u32 (gfb_width s - 20) <? te_x ev) then s <| current_view := VIEW_HOME |>
  else s.

Definition handle_power_touch (s : gui) (ev : touch_event) : gui :=
  if negb (te_event ev =? EVENT_DOWN) then s else
  let cx := gfb_width s / 2 in
  let inside := (u32 (cx - 160) <? te_x ev) && (te_x ev <? u32 (cx + 160)) in
  if inside && (640 <? te_y ev) && (te_y ev <? 696) then log_event s PowerOff else
  if inside && (712 <? te_y ev) && (te_y ev <? 768) then log_event s PowerRestart else
  s <| current_view := VIEW_HOME |>.

Definition gui_handle_touch (s : gui) (ev : option touch_event) : option gui :=
  match ev with
  | None => Some s
  | Some ev =>
      let down := te_event ev =? EVENT_DOWN in
      if current_view s =? VIEW_LOCK then
        '(s, handled) ← handle_pin_touch s ev;
        if handled : bool then Some s else
        if down && (u32 (gfb_height s - 140) <? te_y ev) && (te_y ev <? u32 (gfb_height s - 60)) then Some (log_event s EmergencyDial)
        else Some s
      else
      if down && (te_y ev <? SB_HEIGHT) then Some (s <| current_view := VIEW_NOTIFICATIONS |>) else
      if down && (u32 (gfb_height s - NB_HEIGHT - 40) <? te_y ev) then
        Some (if (current_view s =? VIEW_NOTIFICATIONS) || (current_view s =? VIEW_RECENT) || (current_view s =? VIEW_LAUNCHER)
              then s <| current_view := VIEW_HOME |> else s)
      else if down && (u32 (gfb_height s - NB_HEIGHT) <? te_y ev) then
        let bw := s32 (gfb_width s) ÷ 3 in
        Some (if te_x ev <? u32 bw then s <| current_view := prev_view s |>
              else if te_x ev <? u32 (bw * 2) then s <| current_view := VIEW_HOME |>
              else s <| prev_view := current_view s |> <| current_view := VIEW_RECENT |>)
      else
        Some (if current_view s =? VIEW_HOME then handle_home_touch s ev
              else if current_view s =? VIEW_LAUNCHER then handle_launcher_touch s ev
              else if current_view s =? VIEW_NOTIFICATIONS then handle_notification_touch s ev
              else if current_view s =? VIEW_POWER then handle_power_touch s ev
              else s)
  end.

Definition gui_show_power_menu (s : gui) : gui := s <| prev_view := current_view s |> <| current_view := VIEW_POWER |>.

(** * Surfaces *)

Definition gui_create_surface (s : gui) (w h type owner : Z) (title : option (list Z)) : option (gui * option Z) :=
  if GUI_MAX_SURFACES <=? surface_count s then Some (s, None) else
  let i := surface_count s in
  let s := mod_surface s i (fun _ => surface_zero <| sf_id := i |> <| sf_type := type |> <| sf_state := GUI_STATE_VISIBLE |>
    <| sf_width := w |> <| sf_height := h |> <| sf_x := 40 |> <| sf_y := SB_HEIGHT + 20 |> <| z_order := i |>
    <| sf_owner := owner |> <| bg_color := C_BLOODMOON_PANEL |> <| sf_title := copy_opt (replicate 64 0) title 63 |>) in
  let sz := u32 (w * h * 4) in
  '(m, p) ← nm_kmalloc (gui_mem s) sz;
  let m := if negb (p =? NULL) then nm_store m (memset (nm_bytes m) p 0 sz) else m in
  let s := mod_surface (s <| gui_mem := m |>) i (fun f => f <| sf_fb := p |>) in
  Some (s <| surface_count := i + 1 |>, Some i).

Definition free_fb (s : gui) (i : Z) : gui :=
  let p := sf_fb (surfaces s).[i] in
  if negb (p =? NULL) then s <| gui_mem := nm_kfree (gui_mem s) p |> else s.
Definition gui_destroy_surface (s : gui) (surf : option Z) : gui :=
  match surf with
  | None => s
  | Some i => mod_surface (free_fb s i) i (fun f => f <| sf_state := GUI_STATE_HIDDEN |> <| sf_fb := NULL |>)
  end.

Definition gui_show_surface (s : gui) (surf : option Z) : gui :=
  match surf with Some i => mod_surface s i (fun f => f <| sf_state := GUI_STATE_VISIBLE |>) | None => s end.
Definition gui_hide_surface (s : gui) (surf : option Z) : gui :=
  match surf with Some i => mod_surface s i (fun f => f <| sf_state := GUI_STATE_HIDDEN |>) | None => s end.
Definition gui_focus_surface (s : gui) (surf : option Z) : gui :=
  match surf with Some i => s <| focused := Some i |> | None => s end.
Definition gui_move_surface (s : gui) (surf : option Z) (x y : Z) : gui :=
  match surf with Some i => mod_surface s i (fun f => f <| sf_x := x |> <| sf_y := y |>) | None => s end.

Definition gui_resize_surface (s : gui) (surf : option Z) (w h : Z) : option gui :=
  match surf with
  | None => Some s
  | Some i =>
      let s := mod_surface (free_fb s i) i (fun f => f <| sf_width := w |> <| sf_height := h |>) in
      let sz := u32 (w * h * 4) in
      '(m, p) ← nm_kmalloc (gui_mem s) sz;
      let m := if negb (p =? NULL) then nm_store m (memset (nm_bytes m) p 0 sz) else m in
      Some (mod_surface (s <| gui_mem := m |>) i (fun f => f <| sf_fb := p |>))
  end.

(** * Starting and stopping apps *)

(** The index of the app of a package; [None] is an array without a terminator. *)
Fixpoint find_app (fuel n : nat) (s : gui) (package : list Z) (i : Z) : option (option Z) :=
  match n with
  | O => Some None
  | S n' =>
      let a := ap_package (apps s).[i] in
      r ← strcmp fuel (text (a ++ package ++ [0])) 1 (1 + zlen a);
      if r =? 0 then Some (Some i) else find_app fuel n' s package (i + 1)
  end.

(** [s->fb[px] = 0xFF102030] for every pixel *)
Definition fill_pixels (m : mem) (p n color : Z) : mem := for_range 0 n (fun px m => store_le 4 m (p + 4 * px) color) m.

Definition gui_launch_app (fuel : nat) (s : gui) (package : list Z) : option gui :=
  found ← find_app fuel (Z.to_nat (app_count s)) s package 0;
  match found with
  | None => Some s
  | Some i =>
      '(s, surf) ← gui_create_surface s (u32 (gfb_width s - 80)) (u32 (gfb_height s - SB_HEIGHT - NB_HEIGHT - 40))
                     GUI_SURFACE_APP 0 (Some (ap_name (apps s).[i]));
      match surf with
      | None => Some s
      | Some j =>
          let s := mod_surface s j (fun f => f <| bg_color := C_BLOODMOON_PANEL |>) in
          let f := (surfaces s).[j] in
          let n := u32 (sf_width f * sf_height f) in
          if (sf_fb f =? NULL) && (0 <? n) then None       (* a store through [NULL] *)
          else Some (s <| gui_mem := nm_store (gui_mem s) (fill_pixels (nm_bytes (gui_mem s)) (sf_fb f) n 0xFF102030) |>)
      end
  end.

Definition gui_kill_app (s : gui) (pid : Z) : gui :=
  match find_from (fun i => ap_pid (apps s).[i] =? pid) (Z.to_nat (app_count s)) 0 with
  | Some i => s <| apps := (apps s).[i <- (apps s).[i] <| ap_pid := -1 |>] |>
  | None => s
  end.

(** * Small calls *)

Definition gui_color (r g b : Z) : Z := CRGB r g b.
Definition gui_set_brightness (s : gui) (pct : Z) : gui :=
  let pct := if 100 <? pct then 100 else pct in
  s <| brightness := pct |> <| backlight := pct |>.

(** * Drawing *)

(** The calls on the display's context, with a text in an array. *)
Definition draw_text (F : nat) (x y : Z) (str : mem) (color scale : Z) (ctx : gfx_ctx) : option gfx_ctx :=
  gfx_draw_text F ctx str x y 1 color scale.
Definition draw_center (F : nat) (x y : Z) (str : mem) (color scale : Z) (ctx : gfx_ctx) : option gfx_ctx :=
  gfx_draw_text_center F ctx str x y 1 color scale.
Definition fill_rounded (F : nat) (x y w h r c : Z) (ctx : gfx_ctx) : option gfx_ctx := gfx_fill_rounded F ctx x y w h r c.
Definition fill_rect (x y w h c : Z) (ctx : gfx_ctx) : option gfx_ctx := Some (gfx_fill_rect ctx x y w h c).
Definition fill_circle (F : nat) (x y r c : Z) (ctx : gfx_ctx) : option gfx_ctx := gfx_fill_circle F ctx x y r c.

(** A list of drawing calls. *)
Fixpoint draw_all (l : list (gfx_ctx -> option gfx_ctx)) (ctx : gfx_ctx) : option gfx_ctx :=
  match l with
  | [] => Some ctx
  | d :: l => ctx ← d ctx; draw_all l ctx
  end.
(** [for (i = 0; i < n; i++)] over lists of them *)
Definition draw_for (n : Z) (f : Z -> list (gfx_ctx -> option gfx_ctx)) : list (gfx_ctx -> option gfx_ctx) :=
  flat_map f (seqZ 0 n).

Definition pin_keys : list (list Z) := map chars ["1"; "2"; "3"; "4"; "5"; "6"; "7"; "8"; "9"; ""; "0"; "DEL"]%string.

Definition gui_draw_pin_pad (F : nat) (cx : Z) : list (gfx_ctx -> option gfx_ctx) :=
  draw_for 12 (fun i =>
    let kx := s32 (cx - 302 / 2 + i mod 3 * (90 + 16)) in
    let ky := 700 + i / 3 * (72 + 16) in
    match pin_keys.[i] with
    | [] => []
    | k => [fill_rounded F kx ky 90 72 16 (if bool_decide (k = chars "DEL") then C_DKGRAY else C_BLOODMOON_PANEL);
            draw_center F (s32 (kx + 90 / 2)) (ky + 72 / 2 - 8) (text (k ++ [0])) C_WHITE 2]
    end).

Definition gui_draw_lock_screen (F : nat) (s : gui) : list (gfx_ctx -> option gfx_ctx) :=
  let w := gfb_width s in let h := gfb_height s in
  let cx := s32 (w / 2) in
  [fun ctx => gfx_gradient_rect ctx 0 0 w h (Some (mk_gradient (CRGB 5 2 10) C_BLOODMOON_BG 1));
   draw_center F cx 200 (lit "12:45") C_WHITE 4;
   draw_center F cx 290 (lit "Monday, May 13") C_BLOODMOON_TEXT2 1;
   draw_center F cx 420 (lit "Crimson OS") C_CRIMSON 2;
   fill_rect (s32 (cx - 60)) 455 120 2 C_CRIMSON] ++
  if negb (pin_enabled s =? 0) then
    [draw_center F cx 540 (lit "Enter PIN") C_BLOODMOON_TEXT 2] ++
    draw_for 4 (fun i =>
      [fill_circle F (s32 (cx - 4 * 40 / 2 + i * 40 + 40 / 2)) 620 10 (if i <? s32 (pin_len s) then C_CRIMSON else C_DKGRAY)]) ++
    (if negb (pin_failed s =? 0) then [draw_center F cx 660 (lit "Incorrect PIN") C_RED 1] else []) ++
    gui_draw_pin_pad F cx ++
    [draw_center F cx (s32 (s32 h - 100)) (lit "Emergency") C_CRIMSON 1]
  else [draw_center F cx (s32 (s32 h - 200)) (lit "Swipe up to unlock") C_BLOODMOON_TEXT2 1].

Definition quick_apps : list Z := [0; 1; 2; 15].
(** [char init[2] = { name[0], '\0' }] *)
Definition initial (i : Z) : mem := text [app_names.[i].[0]; 0].
Definition name_text (i : Z) : mem := text (app_names.[i] ++ [0]).

Definition gui_draw_home_screen (F : nat) (s : gui) : list (gfx_ctx -> option gfx_ctx) :=
  let w := gfb_width s in let h := gfb_height s in
  let cx := s32 (w / 2) in
  let qy := s32 (s32 h - NB_HEIGHT - 160) in
  let qgap := s32 (u32 (w - 120 - 4 * ICON_SIZE) / 3) in
  [fun ctx => gfx_gradient_rect ctx 0 SB_HEIGHT w (u32 (h - SB_HEIGHT - NB_HEIGHT)) (Some (mk_gradient (CRGB 8 5 18) C_BLOODMOON_BG 1));
   fill_rounded F 40 (SB_HEIGHT + 40) (u32 (w - 80)) 200 24 0x18FFFFFF;
   draw_center F cx (SB_HEIGHT + 80) (lit "12:45") C_WHITE 3;
   draw_center F cx (SB_HEIGHT + 150) (lit "Monday, May 13") C_BLOODMOON_TEXT2 1] ++
  draw_for 4 (fun i =>
    let qx := s32 (60 + i * (ICON_SIZE + qgap)) in
    [fill_rounded F qx qy ICON_SIZE ICON_SIZE 20 (gfx_darken app_colors.[quick_apps.[i]] 80);
     draw_center F (s32 (qx + ICON_SIZE / 2)) (s32 (qy + ICON_SIZE / 2 - 8)) (initial quick_apps.[i]) C_WHITE 2;
     draw_center F (s32 (qx + ICON_SIZE / 2)) (s32 (qy + ICON_SIZE + 8)) (name_text quick_apps.[i]) C_BLOODMOON_TEXT2 1]).

Definition gui_draw_app_launcher (F : nat) (s : gui) : list (gfx_ctx -> option gfx_ctx) :=
  let w := gfb_width s in let h := gfb_height s in
  let cx := s32 (w / 2) in
  [fill_rect 0 SB_HEIGHT w (u32 (h - SB_HEIGHT - NB_HEIGHT)) C_BLOODMOON_BG;
   draw_center F cx (SB_HEIGHT + 24) (lit "Apps") C_WHITE 2] ++
  draw_for (apps_to_show s) (fun i =>
    let ix := icon_x s i in let iy := icon_y i in
    [fill_rounded F ix iy ICON_SIZE ICON_SIZE 22 app_colors.[i];
     draw_center F (s32 (ix + ICON_SIZE / 2)) (s32 (iy + ICON_SIZE / 2 - 8)) (initial i) C_WHITE 2;
     fun ctx => tw ← gfx_text_width F (name_text i) 1 1;
       draw_text F (s32 (ix + s32 (ICON_SIZE - s32 tw) ÷ 2)) (s32 (iy + ICON_SIZE + 8)) (name_text i) C_BLOODMOON_TEXT2 1 ctx]) ++
  [fill_rounded F (s32 (cx - 20)) (s32 (s32 h - NB_HEIGHT - 30)) 40 4 2 C_DKGRAY].

Definition gui_draw_status_bar (F : nat) (s : gui) : list (gfx_ctx -> option gfx_ctx) :=
  let w := gfb_width s in
  let sx := s32 (s32 w ÷ 2 - 40) in
  let bx := s32 (s32 w - 60) in
  [fill_rect 0 0 w SB_HEIGHT 0xD8000000;
   draw_text F 20 14 (lit "12:45") C_WHITE 1] ++
  draw_for 4 (fun i =>
    let sh := 6 + i * 4 in
    [fill_rect (s32 (sx + i * 10)) (s32 (u32 (SB_HEIGHT - 10 - sh))) 6 sh (if i <? 3 then C_WHITE else C_DKGRAY)]) ++
  [fun ctx => gfx_rounded_rect F ctx bx 14 36 18 3 C_WHITE;
   fill_rect (s32 (bx + 2)) 16 28 14 C_GREEN;
   fill_rect (s32 (bx + 36)) 18 4 10 C_WHITE] ++
  (if 0 <? notif_count s then
     [fill_circle F (s32 (s32 w - 100)) 20 10 C_CRIMSON;
      fun ctx => nb ← format1 F 4 "%u" (notif_count s); draw_center F (s32 (s32 w - 100)) 12 (text nb) C_WHITE 1 ctx]
   else []) ++
  [fill_rect 0 (SB_HEIGHT - 1) w 1 0x10FFFFFF].

Definition gui_draw_nav_bar (F : nat) (s : gui) : list (gfx_ctx -> option gfx_ctx) :=
  let w := gfb_width s in
  let ny := s32 (s32 (gfb_height s) - NB_HEIGHT) in
  let bw := s32 w ÷ 3 in
  [fill_rect 0 ny w NB_HEIGHT 0xE0000000;
   draw_center F (bw ÷ 2) (s32 (ny + 16)) (lit "<") C_WHITE 2;
   fun ctx => gfx_circle F ctx (s32 (bw + bw ÷ 2)) (s32 (ny + NB_HEIGHT / 2)) 12 C_WHITE;
   fun ctx => Some (gfx_rect ctx (s32 (2 * bw + bw ÷ 2 - 10)) (s32 (ny + 12)) 20 20 C_WHITE);
   fill_rect 0 ny w 1 0x10FFFFFF].

(** [snprintf(ts, 16, "%us ago", age)] and so on *)
Definition age_text (F : nat) (age : Z) : option (list Z) :=
  if age <? 60 then format1 F 16 "%us ago" age
  else if age <? 3600 then format1 F 16 "%um ago" (age / 60)
  else format1 F 16 "%uh ago" (age / 3600).

Definition gui_draw_notification_panel (F : nat) (now : Z) (s : gui) : list (gfx_ctx -> option gfx_ctx) :=
  let w := gfb_width s in let h := gfb_height s in
  let mid := s32 (w / 2) in
  let pw := u32 (w - 40) in
  let ph := u32 (h - 200) in
  [fill_rect 0 0 w h 0xB0000000;
   fill_rounded F 20 (SB_HEIGHT + 20) pw ph 24 C_BLOODMOON_PANEL;
   draw_center F mid (SB_HEIGHT + 40) (lit "Notifications") C_WHITE 2;
   fill_rect 60 (SB_HEIGHT + 75) (u32 (w - 120)) 1 0x10FFFFFF] ++
  (if notif_count s =? 0 then [draw_center F mid (s32 (u32 (SB_HEIGHT + ph / 2))) (lit "No notifications") C_LTGRAY 1]
   else draw_for (Z.min (notif_count s) 6) (fun i =>
     let n := (notif_buffer s).[i] in
     let ny := SB_HEIGHT + 100 + i * 84 in
     [fill_rounded F 40 ny (u32 (pw - 40)) 70 12 0x10FFFFFF;
      fill_circle F 65 (ny + 35) 8 (icon_color n);
      draw_text F 85 (ny + 8) (text (nt_title n)) C_WHITE 1;
      draw_text F 85 (ny + 32) (text (nt_message n)) C_BLOODMOON_TEXT2 1;
      fun ctx => ts ← age_text F (u32 (now - nt_timestamp n));
        gfx_draw_text_right F ctx (text ts) (s32 (u32 (w - 60))) (ny + 8) 1 C_DKGRAY 1])) ++
  [fill_rounded F (s32 (mid - 80)) (s32 (s32 h - 160)) 160 44 22 C_DKGRAY;
   draw_center F mid (s32 (s32 h - 152)) (lit "Clear All") C_WHITE 1].

Definition gui_draw_notification_badge (F : nat) (s : gui) : list (gfx_ctx -> option gfx_ctx) :=
  if notif_count s =? 0 then [] else
  let n := (notif_buffer s).[notif_count s - 1] in
  [fill_rounded F 10 (SB_HEIGHT + 5) (u32 (gfb_width s - 20)) 60 16 0xE0202030;
   fill_circle F 35 (SB_HEIGHT + 35) 10 (icon_color n);
   draw_text F 55 (SB_HEIGHT + 12) (text (nt_app_name n)) C_WHITE 1;
   draw_text F 55 (SB_HEIGHT + 34) (text (nt_message n)) C_BLOODMOON_TEXT2 1].

(** The surfaces that get a card. *)
Definition cards (s : gui) : list surface :=
  filter (fun f => sf_state f = GUI_STATE_VISIBLE) (map (fun i => (surfaces s).[i]) (seqZ 0 (Z.min (surface_count s) GUI_MAX_SURFACES))).

Definition gui_draw_recent_apps (F : nat) (s : gui) : list (gfx_ctx -> option gfx_ctx) :=
  let w := gfb_width s in let h := gfb_height s in
  let cx := s32 (w / 2) in
  [fill_rect 0 SB_HEIGHT w (u32 (h - SB_HEIGHT - NB_HEIGHT)) C_BLOODMOON_BG;
   draw_center F cx (SB_HEIGHT + 40) (lit "Recent Apps") C_WHITE 2] ++
  (if surface_count s =? 0 then [draw_center F cx (s32 (h / 2)) (lit "No recent apps") C_LTGRAY 1]
   else concat (imap (fun k f =>
     let card_y := SB_HEIGHT + 100 + Z.of_nat k * (160 + 16) in
     [fill_rounded F 30 card_y (u32 (w - 60)) 160 16 0x18FFFFFF;
      draw_text F 50 (card_y + 16) (text (sf_title f)) C_WHITE 1;
      draw_text F 50 (card_y + 44) (lit "PID: ") C_BLOODMOON_TEXT2 1]) (cards s))).

Definition gui_draw_power_menu (F : nat) (s : gui) : list (gfx_ctx -> option gfx_ctx) :=
  let cx := gfb_width s / 2 in
  [fill_rect 0 0 (gfb_width s) (gfb_height s) 0xD0000000;
   fill_rounded F (s32 (u32 (cx - 400 / 2))) 600 400 340 24 C_BLOODMOON_PANEL;
   fill_rounded F (s32 (u32 (cx - 160))) 640 320 56 12 C_CRIMSON;
   draw_center F (s32 cx) 660 (lit "Power Off") C_WHITE 2;
   fill_rounded F (s32 (u32 (cx - 160))) 712 320 56 12 C_DKGRAY;
   draw_center F (s32 cx) 732 (lit "Restart") C_WHITE 2;
   fill_rounded F (s32 (u32 (cx - 160))) 784 320 56 12 C_DKGRAY;
   draw_center F (s32 cx) 804 (lit "Screenshot") C_WHITE 2;
   draw_center F (s32 cx) 870 (lit "Cancel") C_BLOODMOON_TEXT2 1].

(** The calls of a frame, in order. *)
Definition frame_calls (F : nat) (now : Z) (s : gui) : list (gfx_ctx -> option gfx_ctx) :=
  let v := current_view s in
  [fill_rect 0 0 (gfb_width s) (gfb_height s) C_BLOODMOON_BG] ++
  (if v =? VIEW_LOCK then gui_draw_lock_screen F s
   else if v =? VIEW_HOME then gui_draw_home_screen F s
   else if v =? VIEW_LAUNCHER then gui_draw_app_launcher F s
   else if v =? VIEW_NOTIFICATIONS then gui_draw_notification_panel F now s
   else if v =? VIEW_RECENT then gui_draw_recent_apps F s
   else if v =? VIEW_POWER then gui_draw_power_menu F s else []) ++
  (if negb (v =? VIEW_LOCK) then gui_draw_status_bar F s ++ gui_draw_nav_bar F s else []) ++
  (if (0 <? notif_count s) && negb (v =? VIEW_NOTIFICATIONS) then gui_draw_notification_badge F s else []).

Definition gui_render_frame (F : nat) (now : Z) (s : gui) : option gui :=
  ctx ← draw_all (frame_calls F now s) (g_fb_ctx s); Some (s <| g_fb_ctx := ctx |>).

(** * The lock screen *)

(** The pad as its user sees it: the keys typed so far, 1 to 9, and 10 for the key between
    9 and 0; [None] when the last one unlocked the screen. *)
Fixpoint pad_value (acc : Z) (l : list Z) : Z :=
  match l with
  | [] => acc
  | d :: l => if d <=? 9 then pad_value (acc * 10 + d) l else acc
  end.
Definition pad_press (pin : Z) (l : list Z) (i : Z) : option (list Z) :=
  if i =? 11 then Some (removelast l) else
  if i <? 10 then
    let l := l ++ [i + 1] in
    if zlen l =? 4 then if pad_value 0 l =? pin then None else Some [] else Some l
  else Some l.

(** The key under a touch. *)
Definition pressed (w : Z) (ev : touch_event) : option Z :=
  if te_event ev =? EVENT_DOWN then find_from (key_hit w ev) 12 0 else None.
Definition pad_touch (w pin : Z) (l : list Z) (ev : touch_event) : option (list Z) :=
  match pressed w ev with Some i => pad_press pin l i | None => Some l end.
Fixpoint pad_run (w pin : Z) (l : list Z) (evs : list touch_event) : option (list Z) :=
  match evs with
  | [] => Some l
  | ev :: evs => l ← pad_touch w pin l ev; pad_run w pin l evs
  end.

Fixpoint gui_touches (s : gui) (evs : list touch_event) : option gui :=
  match evs with
  | [] => Some s
  | ev :: evs => s ← gui_handle_touch s (Some ev); gui_touches s evs
  end.

(** The keys [l] are typed. *)
Record pad_keys (s : gui) (l : list Z) : Prop := {
  pad_len : pin_len s = zlen l;
  pad_short : zlen l < 4;
  pad_buffer : zlen (pin_buffer s) = 16;
  pad_chars : forall k, 0 <= k < zlen l -> (pin_buffer s).[k] = 48 + l.[k];
  pad_digits : Forall (fun d => 1 <= d <= 10) l
}.
(** The locked screen. *)
Definition pad_ok (s : gui) (l : list Z) : Prop := current_view s = VIEW_LOCK /\ pad_keys s l.

(** The digit loop over keys of the pad. *)
Lemma parse_keys l fuel m p r :
  Forall (fun d => 1 <= d <= 10) l -> (forall k, 0 <= k < zlen l -> m (p + k) = 48 + l.[k]) -> m (p + zlen l) = 0 ->
  (length l < fuel)%nat -> 0 <= r -> (r + 1) * 10 ^ zlen l < 2 ^ 31 -> parse_digits s32 fuel m p r = Some (pad_value r l).
Proof.
  revert fuel p r. induction l as [|d l IH]; intros fuel p r Hl Hm Hend Hf Hr Hb; (destruct fuel as [|fuel]; [cbn in Hf; lia|]); cbn [parse_digits pad_value].
  - rewrite Z.add_0_r in Hend. by rewrite Hend.
  - apply Forall_cons in Hl as [Hd Hl]. pose proof (zlen_nonneg l) as Hn. rewrite zlen_cons in *.
    assert (H0 : m p = 48 + d) by (rewrite <- (Z.add_0_r p), (Hm 0) by lia; done). rewrite H0. unfold is_digit.
    destruct (Z.leb_spec 48 (48 + d)); [|lia]. cbn [andb]. rewrite Z.pow_add_r, Z.pow_1_r in Hb by lia.
    assert (Hp : 1 <= 10 ^ zlen l) by (apply (Z.pow_le_mono_r 10 0); lia).
    assert (Hr2 : (r + 1) * 10 <= (r + 1) * 10 * 10 ^ zlen l) by nia.
    destruct (Z.leb_spec (48 + d) 57), (Z.leb_spec d 9); try lia; [|done].
    replace (48 + d - 48) with d by lia. rewrite s32_id by lia. cbn [length] in Hf.
    apply IH; [done| | |lia|lia|].
    + intros k Hk. rewrite <- Z.add_assoc, Hm by lia. f_equal. unfold aget. replace (Z.to_nat (1 + k)) with (S (Z.to_nat k)) by lia. done.
    + by rewrite <- Z.add_assoc.
    + assert ((r * 10 + d + 1) * 10 ^ zlen l <= (r + 1) * 10 * 10 ^ zlen l) by (apply Z.mul_le_mono_nonneg_r; lia). lia.
Qed.

Lemma pad_value_range l : Forall (fun d => 1 <= d <= 10) l -> zlen l = 4 -> 0 <= pad_value 0 l < 10000.
Proof.
  intros Hl Hlen. destruct l as [|a [|b [|c [|d [|]]]]]; unfold zlen in Hlen; cbn in Hlen; try lia.
  repeat (apply Forall_cons in Hl as [? Hl]). cbn [pad_value].
  destruct (Z.leb_spec a 9); [destruct (Z.leb_spec b 9); [destruct (Z.leb_spec c 9); [destruct (Z.leb_spec d 9)|]|]|]; lia.
Qed.

Lemma atoi_pad buf l : Forall (fun d => 1 <= d <= 10) l -> zlen l = 4 ->
  (forall k, 0 <= k < 4 -> buf.[k] = 48 + l.[k]) -> buf.[4] = 0 -> atoi 17 (text buf) 1 = Some (pad_value 0 l).
Proof.
  intros Hl Hlen Hb H4.
  assert (Hm : forall k, 0 <= k < zlen l -> text buf (1 + k) = 48 + l.[k]).
  { intros k Hk. unfold text. replace (1 + k - 1) with k by lia. apply Hb. lia. }
  assert (H1 : 49 <= text buf 1 <= 58).
  { pose proof (Hm 0 ltac:(lia)) as H0. rewrite Z.add_0_r in H0. rewrite H0. pose proof (Forall_aget _ l 0 Hl ltac:(lia)). cbn beta in *. lia. }
  unfold atoi, parse_signed. rewrite skip_blank_stop; [|lia|].
  2: { unfold is_blank. destruct (Z.eqb_spec (text buf 1) 32), (Z.eqb_spec (text buf 1) 9); done || lia. }
  destruct (Z.eqb_spec (text buf 1) 45), (Z.eqb_spec (text buf 1) 43); try lia.
  rewrite (parse_keys l); [|done|done| |unfold zlen in Hlen; lia|lia|rewrite Hlen; lia].
  - cbn [option_map]. f_equal. rewrite Z.mul_1_r. apply s32_id.
    pose proof (pad_value_range l Hl Hlen). lia.
  - rewrite Hlen. unfold text. by replace (1 + 4 - 1) with 4 by lia.
Qed.

Lemma check_pin_open s (l : list Z) : zlen l < 4 -> pin_len s = zlen l -> check_pin s = Some s.
Proof. intros Hl E. unfold check_pin. rewrite E. destruct (Z.eqb_spec (zlen l) 4); [lia|done]. Qed.

Lemma aget_snoc {A} `{!Inhabited A} (l : list A) x k : 0 <= k <= zlen l -> (l ++ [x]).[k] = if k =? zlen l then x else l.[k].
Proof.
  intros Hk. unfold aget, zlen in *. destruct (Z.eqb_spec k (Z.of_nat (length l))) as [->|Hne].
  - rewrite Nat2Z.id, lookup_total_app_r by lia. by rewrite Nat.sub_diag.
  - by rewrite lookup_total_app_l by lia.
Qed.

Lemma removelast_aget (l : list Z) k : 0 <= k < zlen (removelast l) -> (removelast l).[k] = l.[k].
Proof.
  destruct (decide (l = [])) as [->|Hne]; [done|]. rewrite (app_removelast_last 0 Hne) at 3. intros Hk.
  rewrite aget_snoc by lia. destruct (Z.eqb_spec k (zlen (removelast l))); [lia|done].
Qed.

Lemma zlen_removelast (l : list Z) : zlen (removelast l) = Z.max 0 (zlen l - 1).
Proof.
  destruct (decide (l = [])) as [->|Hne]; [done|]. rewrite (app_removelast_last 0 Hne) at 2. rewrite zlen_app, zlen_cons.
  change (zlen []) with 0. pose proof (zlen_nonneg (removelast l)). lia.
Qed.

(** One key on the locked screen. *)
Lemma press_pad s l i : pad_ok s l -> 0 <= i < 12 -> 0 <= pin_target s < 2 ^ 32 ->
  exists s', check_pin (press_key s i) = Some s' /\ gfb_width s' = gfb_width s /\ gfb_height s' = gfb_height s /\
    match pad_press (pin_target s) l i with
    | Some l' => pad_ok s' l' /\ pin_target s' = pin_target s /\ lock_screen s' = lock_screen s
    | None => current_view s' = VIEW_HOME /\ lock_screen s' = 0 /\ pad_keys s' []
    end.
Proof.
  intros [Hv [Hlen Hs Hb Hc Hd]] Hi Hpin. unfold press_key, pad_press. pose proof (zlen_nonneg l) as Hn. destruct (Z.eqb_spec i 11) as [->|Hi11].
  - destruct (Z.ltb_spec 0 (pin_len s)) as [Hpos|Hpos].
    + eexists. split; [apply (check_pin_open _ (removelast l)); [rewrite zlen_removelast; lia|rec_simpl; rewrite zlen_removelast; lia]|].
      split; [done|]. split; [done|]. split; [|done]. split; [done|]. constructor; rec_simpl; [rewrite zlen_removelast; lia|rewrite zlen_removelast; lia|by rewrite zlen_aset| |].
      * intros k Hk. rewrite aget_aset_ne by (rewrite zlen_removelast in Hk; lia). rewrite removelast_aget by done. apply Hc.
        rewrite zlen_removelast in Hk. lia.
      * destruct (decide (l = [])) as [->|Hne]; [done|]. rewrite (app_removelast_last 0 Hne) in Hd. by apply Forall_app in Hd as [? _].
    + assert (l = []) as -> by (apply length_zero_iff_nil; unfold zlen in *; lia).
      eexists. split; [by apply (check_pin_open _ [])|]. done.
  - destruct (Z.ltb_spec i 10) as [Hi10|Hi10].
    2: { eexists. split; [by apply (check_pin_open _ l)|]. done. }
    destruct (Z.eqb_spec i 10); [lia|]. destruct (Z.ltb_spec (pin_len s) 4); [|lia].
    assert (Hl2 : zlen (l ++ [i + 1]) = zlen l + 1) by (rewrite zlen_app, zlen_cons; done). rewrite Hl2.
    set (s1 := _ <| pin_buffer := _ |>).
    assert (E1 : pin_len s1 = zlen l + 1) by (unfold s1; rec_simpl; lia).
    assert (E2 : pin_buffer s1 = ((pin_buffer s).[zlen l <- 48 + (i + 1)]).[zlen l + 1 <- 0]) by (unfold s1; rec_simpl; by rewrite Hlen).
    assert (Hl' : Forall (fun d => 1 <= d <= 10) (l ++ [i + 1])) by (apply Forall_app; split; [done|]; apply Forall_singleton; lia).
    assert (Hc' : forall k, 0 <= k < zlen l + 1 -> (pin_buffer s1).[k] = 48 + (l ++ [i + 1]).[k]).
    { intros k Hk. rewrite E2, aget_aset_ne by lia. rewrite aget_aset, aget_snoc by lia. rewrite (Z.eqb_sym k).
      destruct (Z.eqb_spec (zlen l) k); [lia|]. apply Hc. lia. }
    assert (Hbl : zlen (pin_buffer s1) = 16) by (rewrite E2, !zlen_aset; done).
    destruct (Z.eqb_spec (zlen l + 1) 4) as [E4|E4].
    + unfold check_pin. rewrite E1, E4. cbn [Z.eqb Pos.eqb].
      rewrite (atoi_pad _ (l ++ [i + 1])); [|done|lia|intros; apply Hc'; lia|].
      2: { rewrite E2, E4. apply aget_aset_eq. rewrite zlen_aset. lia. }
      cbv [mbind option_bind]. assert (Hval : 0 <= pad_value 0 (l ++ [i + 1]) < 2 ^ 32) by (pose proof (pad_value_range (l ++ [i + 1]) Hl' ltac:(lia)); lia).
      rewrite u32_id by done. change (pin_target s1) with (pin_target s).
      destruct (_ =? pin_target s); eexists; (split; [reflexivity|]); (split; [done|]); (split; [done|]); [split; [done|]; split; [done|]|split; [|done]; split; [done|]];
        (constructor; rec_simpl; [done|done|done| |constructor]; intros k Hk; change (zlen []) with 0 in Hk; lia).
    + eexists. split; [apply (check_pin_open _ (l ++ [i + 1])); lia|].
      split; [done|]. split; [done|]. split; [|done]. split; [done|]. constructor; rewrite ?Hl2; [done|lia|done|done|done].
Qed.

(** One touch of the locked screen; one beside the keys changes nothing of the pad. *)
Lemma touch_pad s l ev : pad_ok s l -> 0 <= pin_target s < 2 ^ 32 ->
  exists s', gui_handle_touch s (Some ev) = Some s' /\ gfb_width s' = gfb_width s /\
    match pad_touch (gfb_width s) (pin_target s) l ev with
    | Some l' => pad_ok s' l' /\ pin_target s' = pin_target s /\ lock_screen s' = lock_screen s
    | None => current_view s' = VIEW_HOME /\ lock_screen s' = 0 /\ pad_keys s' []
    end.
Proof.
  intros Hok Hpin. unfold gui_handle_touch, handle_pin_touch, pad_touch, pressed. rewrite (proj1 Hok).
  change (VIEW_LOCK =? VIEW_LOCK) with true. cbv iota.
  assert (Hother : exists s', (if (te_event ev =? EVENT_DOWN) && (u32 (gfb_height s - 140) <? te_y ev) && (te_y ev <? u32 (gfb_height s - 60))
      then Some (log_event s EmergencyDial) else Some s) = Some s' /\ gfb_width s' = gfb_width s /\
      pad_ok s' l /\ pin_target s' = pin_target s /\ lock_screen s' = lock_screen s).
  { destruct (_ && _); eexists; (split; [reflexivity|]); (split; [done|]); (split; [|done]); [|done]. destruct Hok as [Hv []]. split; [done|]. by constructor. }
  destruct (te_event ev =? EVENT_DOWN); cbn [negb]; [|exact Hother].
  destruct (find_from (key_hit (gfb_width s) ev) 12 0) as [i|] eqn:E; [|exact Hother].
  apply find_from_Some in E as (Hi & _ & _).
  destruct (press_pad s l i Hok ltac:(lia) Hpin) as (s' & E & Hw & _ & H). rewrite E. by exists s'.
Qed.

(** Keys lead to numbers without the digit 0. *)
Definition zero_free (n : Z) : Prop := forall k, 0 <= k -> 10 ^ k <= n -> n / 10 ^ k mod 10 <> 0.

Lemma pad_value_zero_free l : Forall (fun d => 1 <= d <= 10) l -> zlen l = 4 -> zero_free (pad_value 0 l).
Proof.
  intros Hl Hlen k Hk Hle. pose proof (pad_value_range l Hl Hlen) as Hr.
  assert (Hk4 : k = 0 \/ k = 1 \/ k = 2 \/ k = 3).
  { destruct (Z.le_gt_cases 4 k) as [H4|]; [|lia]. assert (10 ^ 4 <= 10 ^ k) by (apply Z.pow_le_mono_r; lia). lia. }
  destruct l as [|a [|b [|c [|d [|]]]]]; unfold zlen in Hlen; cbn in Hlen; try lia.
  repeat (apply Forall_cons in Hl as [? Hl]). clear Hlen Hr. revert Hle. cbn [pad_value].
  destruct (Z.leb_spec a 9); [destruct (Z.leb_spec b 9); [destruct (Z.leb_spec c 9); [destruct (Z.leb_spec d 9)|]|]|];
    destruct Hk4 as [-> | [-> | [-> | ->]]]; cbn [Z.pow Z.pow_pos Pos.iter]; lia.
Qed.

Lemma pad_run_keys w pin evs : forall l, Forall (fun d => 1 <= d <= 10) l -> zlen l < 4 ->
  pad_run w pin l evs = None -> 0 <= pin < 10000 /\ zero_free pin.
Proof.
  induction evs as [|ev evs IH]; intros l Hl Hs; cbn [pad_run]; [done|]. unfold pad_touch.
  destruct (pressed w ev) as [i|] eqn:Ep; [|by apply IH].
  assert (Hi : 0 <= i).
  { unfold pressed in Ep. destruct (_ =? _); [|done]. apply find_from_Some in Ep. lia. }
  unfold pad_press. pose proof (zlen_nonneg l). destruct (i =? 11); cbv [mbind option_bind].
  { apply IH; [|rewrite zlen_removelast; lia]. destruct (decide (l = [])) as [->|Hne]; [done|].
    rewrite (app_removelast_last 0 Hne) in Hl. by apply Forall_app in Hl as [? _]. }
  destruct (Z.ltb_spec i 10); [|by apply IH].
  assert (Hl' : Forall (fun d => 1 <= d <= 10) (l ++ [i + 1])) by (apply Forall_app; split; [done|]; apply Forall_singleton; lia).
  assert (Hlen : zlen (l ++ [i + 1]) = zlen l + 1) by (rewrite zlen_app, zlen_cons; done).
  destruct (Z.eqb_spec (zlen (l ++ [i + 1])) 4) as [E4|]; [|apply IH; [done|lia]].
  destruct (Z.eqb_spec (pad_value 0 (l ++ [i + 1])) pin) as [<-|]; [|by apply IH].
  intros _. split; [by apply pad_value_range|by apply pad_value_zero_free].
Qed.

(** * Notifications *)

(** The notifications shown, oldest first. *)
Definition shown (s : gui) : list notification := map (fun i => (notif_buffer s).[i]) (seqZ 0 (notif_count s)).
Definition notifs_ok (s : gui) : Prop := zlen (notif_buffer s) = 16 /\ 0 <= notif_count s <= 16.

Lemma shown_ext s s' : notif_count s' = notif_count s -> (forall i, 0 <= i < notif_count s -> (notif_buffer s').[i] = (notif_buffer s).[i]) ->
  shown s' = shown s.
Proof. intros E H. unfold shown. rewrite E. apply map_ext_in. intros i Hi%list_elem_of_In%elem_of_seqZ. apply H. lia. Qed.

Lemma length_shown s : 0 <= notif_count s -> length (shown s) = Z.to_nat (notif_count s).
Proof. intros H. unfold shown. by rewrite length_map, length_seqZ. Qed.

Lemma lookup_shown s k : (k < Z.to_nat (notif_count s))%nat -> shown s !! k = Some (notif_buffer s).[Z.of_nat k].
Proof. intros H. unfold shown. rewrite list_lookup_fmap, lookup_seqZ_lt by lia. cbn [fmap option_fmap option_map]. by rewrite Z.add_0_l. Qed.

(** Moving entries down by one. *)
Lemma shift_entries s i n s' : zlen (notif_buffer s) = 16 -> 0 <= i -> n <= 15 ->
  for_range i n (fun j s => mod_notif s j (fun _ => (notif_buffer s).[j + 1])) s = s' ->
  s' = s <| notif_buffer := notif_buffer s' |> /\ zlen (notif_buffer s') = 16 /\
  forall j, 0 <= j -> (notif_buffer s').[j] = if (i <=? j) && (j <? n) then (notif_buffer s).[j + 1] else (notif_buffer s).[j].
Proof.
  intros Hlen Hi Hn <-. destruct (Z.le_gt_cases n i) as [Hni|Hni].
  { rewrite for_range_nil by done. split; [by destruct s|]. split; [done|]. intros j Hj. destruct (Z.leb_spec i j), (Z.ltb_spec j n); done || lia. }
  replace n with (i + Z.of_nat (Z.to_nat (n - i))) in * by lia. clear Hni. revert Hn. generalize (Z.to_nat (n - i)). clear n. intros n.
  induction n as [|n IH]; intros Hn.
  { rewrite for_range_nil by lia. split; [by destruct s|]. split; [done|]. intros j Hj.
    destruct (Z.leb_spec i j), (Z.ltb_spec j (i + Z.of_nat 0)); done || lia. }
  rewrite Nat2Z.inj_succ, <- Z.add_1_r, Z.add_assoc, for_range_snoc in * by lia. destruct IH as (E & Hl & Hb); [lia|].
  set (s1 := for_range i (i + Z.of_nat n) _ s) in *. clearbody s1. unfold mod_notif. rec_simpl.
  assert (Eb : forall b, s1 <| notif_buffer := b |> = s <| notif_buffer := b |>) by (intros b; rewrite E; done). split; [apply Eb|].
  split; [by rewrite zlen_aset|]. intros j Hj. rewrite aget_aset, !Hb by lia. destruct (Z.eqb_spec (i + Z.of_nat n) j) as [Ej|Hne].
  - rewrite Ej. destruct (Z.leb_spec i (j + 1)), (Z.ltb_spec (j + 1) j), (Z.leb_spec i j), (Z.ltb_spec j (j + 1)); cbn [andb]; done || lia.
  - destruct (Z.leb_spec i j), (Z.ltb_spec j (i + Z.of_nat n)), (Z.ltb_spec j (i + Z.of_nat n + 1)); cbn [andb]; done || lia.
Qed.

(** Putting one more behind them. *)
Lemma shown_push s f : notifs_ok s -> notif_count s < 16 ->
  notifs_ok (push_notif s f) /\
  shown (push_notif s f) = shown s ++ [f ((notif_buffer s).[notif_count s] <| nt_id := notif_next_id s |>)].
Proof.
  intros [Hl Hc] Hlt. unfold push_notif, mod_notif. split; [split; rec_simpl; [by rewrite zlen_aset|lia]|]. unfold shown. rec_simpl.
  rewrite seqZ_app, map_app by lia. f_equal.
  - apply map_ext_in. intros i Hi%list_elem_of_In%elem_of_seqZ. by rewrite aget_aset_ne by lia.
  - change (seqZ (0 + notif_count s) 1) with [0 + notif_count s]. cbn [map]. by rewrite Z.add_0_l, aget_aset_eq by lia.
Qed.

Lemma shown_room s : notifs_ok s ->
  notifs_ok (make_room s) /\ notif_count (make_room s) < 16 /\ shown (make_room s) = newest 15 (shown s) /\
  notif_next_id (make_room s) = notif_next_id s.
Proof.
  intros Hok. destruct (Hok) as [Hl Hc]. unfold make_room. change GUI_NOTIFICATION_MAX with 16. change (16 - 1) with 15.
  destruct (Z.leb_spec 16 (notif_count s)) as [Hfull|Hfull].
  2: { split; [done|]. split; [done|]. split; [|done]. rewrite newest_all; [done|]. rewrite length_shown; lia. }
  remember (for_range 0 15 _ s) as s1 eqn:Es1. symmetry in Es1. apply shift_entries in Es1 as (E & Hl1 & Hb); [|lia..]. split; [split; rec_simpl; [done|lia]|]. split; [rec_simpl; lia|]. split.
  2: { change (notif_next_id s1 = notif_next_id s). by rewrite E. }
  unfold newest. rewrite length_shown by lia. replace (Z.to_nat (notif_count s) - 15)%nat with 1%nat by lia.
  apply (list_eq_same_length _ _ 15); [rewrite length_drop, length_shown by lia; lia|rewrite length_shown by (rec_simpl; lia); done|].
  intros k x y Hk Hx Hy. rewrite lookup_shown in Hx by (rec_simpl; lia). rewrite lookup_drop, lookup_shown in Hy by lia.
  apply (inj Some) in Hx, Hy. subst x y. rec_simpl. rewrite Hb by lia.
  destruct (Z.leb_spec 0 (Z.of_nat k)), (Z.ltb_spec (Z.of_nat k) 15); cbn [andb]; try lia. f_equal. lia.
Qed.

Lemma shown_notify s now app title msg level : notifs_ok s ->
  notifs_ok (gui_notify s now app title msg level) /\
  exists old, nt_id old = notif_next_id s /\
    shown (gui_notify s now app title msg level) = newest 15 (shown s) ++ [notice now app title msg level old].
Proof.
  intros Hok. unfold gui_notify. destruct (shown_room s Hok) as (Hok1 & Hc & Hs & Hid). destruct (shown_push _ (notice now app title msg level) Hok1 Hc) as [Hok2 E].
  split; [done|]. rewrite Hs, Hid in E. eexists. split; [|exact E]. done.
Qed.

Lemma shown_clear s id : notifs_ok s ->
  notifs_ok (gui_notify_clear s id) /\
  shown (gui_notify_clear s id) = match list_find (fun n => nt_id n = id) (shown s) with Some (i, _) => delete i (shown s) | None => shown s end.
Proof.
  intros [Hl Hc]. unfold gui_notify_clear. destruct (find_from _ _ 0) as [i|] eqn:E.
  - apply find_from_Some in E as (Hi & Hid%Z.eqb_eq & Hlt).
    remember (for_range i _ _ s) as s1 eqn:Es1. symmetry in Es1. apply shift_entries in Es1 as (Es & Hl1 & Hb); [|lia..]. set (s2 := s1 <| notif_count := notif_count s1 - 1 |>).
    assert (Ec : notif_count s1 = notif_count s) by (by rewrite Es).
    split; [split; [done|unfold s2; rec_simpl; lia]|].
    assert (Ef : list_find (fun n => nt_id n = id) (shown s) = Some (Z.to_nat i, (notif_buffer s).[i])).
    { apply list_find_Some. rewrite lookup_shown by lia. rewrite Z2Nat.id by lia. split; [done|]. split; [done|].
      intros j y Hj Hjl. rewrite lookup_shown in Hj by lia. apply (inj Some) in Hj. subst y.
      specialize (Hlt (Z.of_nat j) ltac:(lia)). by apply Z.eqb_neq in Hlt. }
    rewrite Ef. assert (Hls : shown s2 = delete (Z.to_nat i) (shown s)); [|exact Hls].
    apply (list_eq_same_length _ _ (Z.to_nat (notif_count s - 1))).
    + rewrite length_delete by (apply lookup_lt_is_Some; rewrite length_shown by lia; lia). rewrite length_shown by lia. lia.
    + unfold s2. rewrite length_shown by (rec_simpl; lia). rec_simpl. lia.
    + intros k x y Hk Hx Hy. rewrite lookup_shown in Hx by (unfold s2; rec_simpl; lia). apply (inj Some) in Hx. subst x. unfold s2. rec_simpl.
      rewrite Hb by lia. destruct (decide (k < Z.to_nat i)%nat) as [Hki|Hki].
      * rewrite list_lookup_delete_lt, lookup_shown in Hy by lia. apply (inj Some) in Hy. subst y.
        destruct (Z.leb_spec i (Z.of_nat k)); [lia|done].
      * rewrite list_lookup_delete_ge, lookup_shown in Hy by lia. apply (inj Some) in Hy. subst y.
        destruct (Z.leb_spec i (Z.of_nat k)), (Z.ltb_spec (Z.of_nat k) (notif_count s - 1)); cbn [andb]; try lia. f_equal. lia.
  - split; [done|]. destruct (list_find _ _) as [[i n]|] eqn:Ef; [|done]. exfalso.
    apply list_find_Some in Ef as (Hi & Hid & _). assert (Hlt : (i < Z.to_nat (notif_count s))%nat) by (rewrite <- length_shown by lia; by eapply lookup_lt_Some).
    rewrite lookup_shown in Hi by done. apply (inj Some) in Hi. subst n.
    pose proof (proj1 (find_from_None _ _ _) E (Z.of_nat i) ltac:(lia)) as Hn. by apply Z.eqb_neq in Hn.
Qed.

(** * Lemmas: strings in arrays *)

(** A string that ends within [F] characters. *)
Definition ends (F : nat) (str : mem) : Prop := exists n, strlen F str 1 = Some n.

Lemma strlen_ends fuel m p j : 0 <= j < Z.of_nat fuel -> m (p + j) = 0 -> exists n, strlen fuel m p = Some n.
Proof.
  revert p j. induction fuel as [|fuel IH]; intros p j Hj Hm; [lia|]. cbn [strlen]. destruct (Z.eqb_spec (m p) 0); [by eexists|].
  destruct (decide (j = 0)) as [->|]; [by rewrite Z.add_0_r in Hm|].
  destruct (IH (p + 1) (j - 1)) as [n' ->]; [lia|by replace (p + 1 + (j - 1)) with (p + j) by lia|]. by eexists.
Qed.

Lemma array_ends F l k : 0 <= k < Z.of_nat F -> l.[k] = 0 -> ends F (text l).
Proof. intros Hk Hl. apply (strlen_ends F _ 1 k Hk). unfold text. by replace (1 + k - 1) with k by lia. Qed.

Lemma closed_ends F l : (length l < F)%nat -> ends F (text (l ++ [0])).
Proof. intros Hl. apply (array_ends F _ (zlen l)); [unfold zlen; lia|]. pose proof (zlen_nonneg l). rewrite aget_snoc by lia. by rewrite Z.eqb_refl. Qed.

Lemma lit_ends F s : (length (chars s) < F)%nat -> ends F (lit s).
Proof. apply closed_ends. Qed.

(** [strncpy] changes at most [n + 1] bytes, the last of them to 0. *)
Lemma strncpy_last n m d s : strncpy n m d s (d + Z.of_nat n) = m (d + Z.of_nat n) \/ strncpy n m d s (d + Z.of_nat n) = 0.
Proof.
  revert m d s. induction n as [|n IH]; intros m d s; cbn [strncpy]; [by left|]. destruct (m s =? 0).
  - right. rewrite memset_bytes_read. unfold filled. mem_cases.
  - replace (d + Z.of_nat (S n)) with (d + 1 + Z.of_nat n) by lia. destruct (IH (<[d := m s]> m) (d + 1) (s + 1)) as [-> | ->]; [left|by right].
    apply fn_lookup_insert_ne. lia.
Qed.

Definition string_array (n : nat) (l : list Z) : Prop := zlen l = Z.of_nat n + 1 /\ l.[Z.of_nat n] = 0.

Lemma copy_text_array n dst src : string_array n dst -> string_array n (copy_text dst src n).
Proof.
  intros [Hl H0]. unfold copy_text, bytes_at. split; [unfold zlen in *; rewrite length_map, length_seqZ; lia|].
  unfold aget. rewrite list_lookup_total_alt, list_lookup_fmap, lookup_seqZ_lt by lia. cbn [fmap option_fmap option_map default].
  rewrite Nat2Z.id. destruct (strncpy_last n (text (dst ++ src ++ [0])) 1 (1 + zlen dst)) as [E|E]; rewrite E; [|done].
  unfold text. replace (1 + Z.of_nat n - 1) with (Z.of_nat n) by lia. unfold aget in *. rewrite lookup_total_app_l by (unfold zlen in Hl; lia). done.
Qed.

Lemma copy_opt_array n dst src : string_array n dst -> string_array n (copy_opt dst src n).
Proof. intros H. destruct src; [by apply copy_text_array|done]. Qed.

Lemma zero_array n : string_array n (replicate (S n) 0).
Proof. split; [rewrite zlen_replicate; lia|]. apply aget_replicate. lia. Qed.

Lemma string_array_ends F n l : string_array n l -> (n < F)%nat -> ends F (text l).
Proof. intros [_ H0] Hn. apply (array_ends F l (Z.of_nat n)); [lia|done]. Qed.

Lemma cstr_text a l b p : Forall (fun c => c <> 0) l -> p = 1 + zlen a -> cstr (text (a ++ l ++ 0 :: b)) p l.
Proof.
  intros Hl ->. unfold zlen. apply cstr_intro; [|done|]; unfold text, aget.
  - intros i Hi. rewrite lookup_total_app_r by lia. unfold zlen in Hi. rewrite lookup_total_app_l by lia. f_equal. lia.
  - unfold zlen. rewrite lookup_total_app_r by lia. rewrite lookup_total_app_r by lia.
    by replace (Z.to_nat (1 + Z.of_nat (length a) + Z.of_nat (length l) - 1) - length a - length l)%nat with 0%nat by lia.
Qed.

(** A formatted number. *)
Lemma format1_ends F size fmt arg l out : 0 < size < 2 ^ 31 -> fmt_ok l -> chars fmt = fmt_text l -> Forall (fun c => c <> 0) (chars fmt) ->
  render true l [VNum arg] = Some out -> (length (chars fmt) < F)%nat -> (Z.to_nat size <= F)%nat ->
  exists t, format1 F size fmt arg = Some t /\ ends F (text t).
Proof.
  intros Hs Hok Hfmt Hnz Hr HF Hsz. unfold format1.
  set (m := text (replicate (Z.to_nat size) 0 ++ chars fmt ++ [0])).
  assert (Hst : cstr m (1 + size) (fmt_text l)).
  { rewrite <- Hfmt. apply cstr_text; [done|]. rewrite zlen_replicate. lia. }
  destruct (vsnprintf_text 0 F m 1 size (1 + size) l [arg] [VNum arg] out ltac:(done) Hs Hok Hst) as (m' & E & Hm' & _);
    [intros x Hx; unfold outside; lia|by repeat constructor|done|rewrite <- Hfmt; lia|].
  change snprintf with vsnprintf. rewrite E. cbv [mbind option_bind fst]. eexists. split; [done|].
  set (t := take (Z.to_nat (size - 1)) out) in *. assert (Ht : zlen t < size) by (unfold t, zlen; rewrite length_take; lia).
  pose proof (zlen_nonneg t) as Ht0. apply (array_ends F _ (zlen t)); [lia|].
  unfold bytes_at, aget. rewrite list_lookup_total_alt, list_lookup_fmap, lookup_seqZ_lt by lia. cbn [fmap option_fmap option_map default].
  rewrite Z2Nat.id by lia. rewrite Hm'. unfold stored, in_range. destruct (Z.leb_spec 1 (1 + zlen t)), (Z.ltb_spec (1 + zlen t) (1 + zlen t)); try lia.
  cbn [andb]. by rewrite Z.eqb_refl.
Qed.

(** * Lemmas: frames *)

(** A drawing call that returns and draws in the clip rectangle only. *)
Definition draws_well (d : gfx_ctx -> option gfx_ctx) : Prop :=
  forall ctx, frame_ok ctx -> exists ctx', d ctx = Some ctx' /\ drawn ctx ctx'.

Lemma draw_all_well l ctx : Forall draws_well l -> frame_ok ctx -> exists ctx', draw_all l ctx = Some ctx' /\ drawn ctx ctx'.
Proof.
  intros Hl. revert ctx. induction Hl as [|d l Hd Hl IH]; intros ctx Hok; cbn [draw_all]; [exists ctx; split; [done|apply drawn_refl]|].
  destruct (Hd ctx Hok) as (c1 & -> & H1). destruct (IH c1) as (c2 & E & H2); [by eapply drawn_ok|]. exists c2. split; [exact E|].
  by eapply drawn_trans.
Qed.

Lemma draw_for_well n f : (forall i, 0 <= i < n -> Forall draws_well (f i)) -> Forall draws_well (draw_for n f).
Proof.
  intros H. unfold draw_for. apply Forall_flat_map. apply Forall_forall. intros i Hi%elem_of_seqZ. apply H. lia.
Qed.

Lemma well_rect x y w h c : draws_well (fill_rect x y w h c).
Proof. intros ctx Hok. eexists. split; [reflexivity|]. by apply fill_rect_drawn. Qed.

Lemma text_loop_ends F ctx m p cx y color scale n : strlen F m p = Some n -> exists ctx', text_loop F ctx m p cx y color scale = Some ctx'.
Proof.
  revert ctx p cx n. induction F as [|F IH]; intros ctx p cx n; cbn [strlen text_loop]; [done|]. destruct (m p =? 0); [by eexists|].
  destruct (strlen F m (p + 1)) as [k|] eqn:E; [|done]. intros _. cbn zeta. by eapply IH.
Qed.

Lemma well_text F x y str c scale : ends F str -> draws_well (draw_text F x y str c scale).
Proof.
  intros [n Hn] ctx Hok. unfold draw_text.
  assert (H : exists ctx', gfx_draw_text F ctx str x y 1 c scale = Some ctx').
  { unfold gfx_draw_text. destruct (_ || _); [by eexists|]. by eapply text_loop_ends. }
  destruct H as [ctx' E]. exists ctx'. split; [done|]. by eapply draw_text_drawn.
Qed.

Lemma text_width_ends F str scale : ends F str -> exists w, gfx_text_width F str 1 scale = Some w.
Proof. intros [n Hn]. unfold gfx_text_width. destruct (_ || _); [by eexists|]. rewrite Hn. by eexists. Qed.

Lemma well_center F x y str c scale : ends F str -> draws_well (draw_center F x y str c scale).
Proof.
  intros Hs. destruct (text_width_ends F str scale Hs) as [w Ew]. unfold draw_center, gfx_draw_text_center. rewrite Ew. by apply well_text.
Qed.

Lemma circle_ends F ctx cx cy r c : 0 <= r < 2 ^ 28 -> r + 1 < Z.of_nat F -> exists ctx', gfx_fill_circle F ctx cx cy r c = Some ctx'.
Proof.
  intros Hr HF. unfold gfx_fill_circle. destruct (Z.eqb_spec r 0); [by eexists|]. rewrite !(s32_small r), (s32_id (1 - r)) by lia.
  destruct (midpoint_octant (disc_rows cx cy c) r ltac:(lia) (Z.to_nat (r + 1)) F r 0 (1 - r) ctx) as (pts & -> & _); [lia..|]. by eexists.
Qed.

Lemma well_circle F x y r c : 0 <= r < 2 ^ 28 -> r + 1 < Z.of_nat F -> draws_well (fill_circle F x y r c).
Proof. intros Hr HF ctx Hok. destruct (circle_ends F ctx x y r c Hr HF) as [ctx' E]. exists ctx'. split; [done|]. by eapply fill_circle_drawn. Qed.

Lemma corner_radius_le w h r : 0 <= w -> 0 <= h -> 0 <= r -> 0 <= corner_radius w h r <= r.
Proof. intros Hw Hh Hr. unfold corner_radius. destruct (Z.ltb_spec (h / 2) r); destruct (Z.ltb_spec (w / 2) (h / 2)), (Z.ltb_spec (w / 2) r); lia. Qed.

Lemma well_rounded F x y w h r c : 0 <= w -> 0 <= h -> 0 <= r < 2 ^ 28 -> r + 1 < Z.of_nat F -> draws_well (fill_rounded F x y w h r c).
Proof.
  intros Hw Hh Hr HF ctx Hok. assert (H : exists ctx', gfx_fill_rounded F ctx x y w h r c = Some ctx').
  { unfold gfx_fill_rounded. destruct (_ || _); [by eexists|]. destruct (r =? 0); [by eexists|]. cbn zeta.
    pose proof (corner_radius_le w h r Hw Hh ltac:(lia)) as Hq. revert Hq. generalize (corner_radius w h r). intros q Hq.
    set (c0 := gfx_fill_rect (gfx_fill_rect ctx _ _ _ _ _) _ _ _ _ _). clearbody c0.
    destruct (circle_ends F c0 (s32 (x + q)) (s32 (y + q)) q c ltac:(lia) ltac:(lia)) as [c1 ->]. cbv [mbind option_bind].
    destruct (circle_ends F c1 (s32 (x + w - q - 1)) (s32 (y + q)) q c ltac:(lia) ltac:(lia)) as [c2 ->].
    destruct (circle_ends F c2 (s32 (x + q)) (s32 (y + h - q - 1)) q c ltac:(lia) ltac:(lia)) as [c3 ->].
    apply circle_ends; lia. }
  destruct H as [ctx' E]. exists ctx'. split; [done|]. by eapply fill_rounded_drawn.
Qed.

Lemma well_gradient x y w h g : h <> 1 -> vertical g <> 0 -> draws_well (fun ctx => gfx_gradient_rect ctx x y w h (Some g)).
Proof.
  intros Hh Hg ctx Hok. assert (H : exists ctx', gfx_gradient_rect ctx x y w h (Some g) = Some ctx').
  { unfold gfx_gradient_rect. destruct (_ || _); [by eexists|]. destruct (Z.eqb_spec (vertical g) 0); [done|]. cbn [negb].
    destruct (Z.eqb_spec h 1); [done|]. by eexists. }
  destruct H as [ctx' E]. exists ctx'. split; [done|]. by eapply gradient_drawn.
Qed.

Lemma well_circle_outline F x y r c : 0 < r < 2 ^ 28 -> r + 1 < Z.of_nat F -> draws_well (fun ctx => gfx_circle F ctx x y r c).
Proof.
  intros Hr HF ctx Hok. assert (H : exists ctx', gfx_circle F ctx x y r c = Some ctx').
  { unfold gfx_circle. destruct (Z.eqb_spec r 0); [lia|]. rewrite !(s32_small r), (s32_id (1 - r)) by lia.
    destruct (midpoint_octant (circle_points x y c) r Hr (Z.to_nat (r + 1)) F r 0 (1 - r) ctx) as (pts & -> & _); [lia..|]. by eexists. }
  destruct H as [ctx' E]. exists ctx'. split; [done|]. by eapply circle_drawn.
Qed.

Lemma well_rect_outline x y w h c : draws_well (fun ctx => Some (gfx_rect ctx x y w h c)).
Proof. intros ctx Hok. eexists. split; [reflexivity|]. by apply rect_drawn. Qed.

Lemma short_line_ends F ctx x0 y0 x1 y1 c : - 2 ^ 28 <= x0 < 2 ^ 28 -> - 2 ^ 28 <= y0 < 2 ^ 28 -> - 2 ^ 28 <= x1 < 2 ^ 28 -> - 2 ^ 28 <= y1 < 2 ^ 28 ->
  Z.max (Z.abs (x1 - x0)) (Z.abs (y1 - y0)) < Z.of_nat F -> exists ctx', gfx_line F ctx x0 y0 x1 y1 c = Some ctx'.
Proof. intros. eexists. by apply line_plots. Qed.

Lemma arcs_end F n k ctx x y w h r0 c : (33 <= F)%nat -> 0 <= k -> k + Z.of_nat n <= r0 + 1 -> r0 <= 40000 ->
  exists ctx', arcs F n k ctx x y w h r0 c = Some ctx'.
Proof.
  intros HF. revert k ctx. induction n as [|n IH]; intros k ctx Hk Hn Hr; cbn [arcs]; [by eexists|].
  assert (Hsq : 0 <= r0 * r0 - k * k <= 40000 * 40000) by nia.
  rewrite s32_id, sqrt_int_correct by lia. cbv [mbind option_bind]. apply IH; lia.
Qed.

(** The body of the battery in the status bar. *)
Lemma well_battery F x c : (50 <= F)%nat -> - 2 ^ 27 <= x <= 2 ^ 27 -> draws_well (fun ctx => gfx_rounded_rect F ctx x 14 36 18 3 c).
Proof.
  intros HF Hx ctx Hok. assert (H : exists ctx', gfx_rounded_rect F ctx x 14 36 18 3 c = Some ctx').
  { unfold gfx_rounded_rect. cbn [Z.eqb orb]. change (corner_radius 36 18 3) with 3. cbn zeta.
    rewrite !(s32_id (x + 3)), !(s32_id (x + 36 - 3)), !(s32_id (x + 36 - 1)), !(s32_id (14 + _)), !(s32_id (14 + _ - _)) by lia.
    destruct (short_line_ends F ctx (x + 3) 14 (x + 36 - 3) 14 c) as [c1 ->]; [lia..|]. cbv [mbind option_bind].
    destruct (short_line_ends F c1 (x + 3) (14 + 18 - 1) (x + 36 - 3) (14 + 18 - 1) c) as [c2 ->]; [lia..|].
    destruct (short_line_ends F c2 x (14 + 3) x (14 + 18 - 3) c) as [c3 ->]; [lia..|].
    destruct (short_line_ends F c3 (x + 36 - 1) (14 + 3) (x + 36 - 1) (14 + 18 - 3) c) as [c4 ->]; [lia..|].
    rewrite (s32_id 3) by lia. apply arcs_end; lia. }
  destruct H as [ctx' E]. exists ctx'. split; [done|]. by eapply rounded_rect_drawn.
Qed.

(** * Lemmas: every frame is drawn *)

Definition notif_strings (n : notification) : Prop :=
  string_array 31 (nt_app_name n) /\ string_array 127 (nt_title n) /\ string_array 255 (nt_message n).

(** A compositor over a display of [w] by [h] pixels. *)
Record gui_ok (w h : Z) (s : gui) : Prop := {
  go_width : gfb_width s = w;
  go_height : gfb_height s = h;
  go_frame : frame_ok (g_fb_ctx s);
  go_ctx : width (g_fb_ctx s) = w /\ height (g_fb_ctx s) = h;
  go_notifs : notifs_ok s;
  go_notif_strings : Forall notif_strings (notif_buffer s);
  go_surfaces : zlen (surfaces s) = GUI_MAX_SURFACES /\ 0 <= surface_count s <= GUI_MAX_SURFACES;
  go_titles : Forall (fun f => string_array 63 (sf_title f)) (surfaces s);
  go_apps : zlen (apps s) = GUI_MAX_APPS /\ 0 <= app_count s <= GUI_MAX_APPS;
  go_app_strings : Forall (fun a => string_array 63 (ap_name a) /\ string_array 127 (ap_package a)) (apps s);
  go_pad : exists l, pad_keys s l;
  go_pin : pin_enabled s = 1 /\ 0 <= pin_target s < 2 ^ 32;
  go_log : forall i, QuickApp i ∉ gui_log s;
  go_view : current_view s <> VIEW_RECENT /\ 0 <= current_view s <= VIEW_POWER
}.

Lemma app_name_short i : 0 <= i < 16 -> (length app_names.[i] < 20)%nat.
Proof.
  intros Hi. assert (H : Forall (fun l => (length l < 20)%nat) app_names) by (by vm_compute; repeat constructor; lia).
  apply (Forall_aget _ _ _ H). exact Hi.
Qed.

Lemma name_ends F i : (20 <= F)%nat -> 0 <= i < 16 -> ends F (name_text i).
Proof. intros HF Hi. apply closed_ends. pose proof (app_name_short i Hi). lia. Qed.

Lemma initial_ends F i : (20 <= F)%nat -> ends F (initial i).
Proof. intros HF. apply (array_ends F _ 1); [lia|done]. Qed.

Lemma quick_app_range i : 0 <= i < 4 -> 0 <= quick_apps.[i] < 16.
Proof. intros Hi. assert (E : i = 0 \/ i = 1 \/ i = 2 \/ i = 3) by lia. by destruct E as [-> | [-> | [-> | ->]]]. Qed.

(** One call after the other. *)
Ltac well_calls := repeat lazymatch goal with
  | |- Forall _ [] => apply Forall_nil_2
  | |- Forall _ (_ ++ _) => apply Forall_app; split
  | |- Forall _ (_ :: _) => apply Forall_cons; split
  | |- draws_well (fill_rect _ _ _ _ _) => apply well_rect
  | |- draws_well (fun _ => Some (gfx_rect _ _ _ _ _ _)) => apply well_rect_outline
  | |- draws_well (fill_rounded _ _ _ _ _ _ _) => apply well_rounded; [first [lia | apply u32_range]|first [lia | apply u32_range]|lia|lia]
  | |- draws_well (fill_circle _ _ _ _ _) => apply well_circle; lia
  | |- draws_well (fun _ => gfx_circle _ _ _ _ _ _) => apply well_circle_outline; lia
  | |- draws_well (draw_center _ _ _ _ _ _) => apply well_center
  | |- draws_well (draw_text _ _ _ _ _ _) => apply well_text
  | |- ends _ (lit _) => apply lit_ends; cbn; lia
  | |- ends _ (initial _) => apply initial_ends; lia
  end.

Lemma lock_screen_well F s : (300 <= F)%nat -> gfb_height s <> 1 -> Forall draws_well (gui_draw_lock_screen F s).
Proof.
  intros HF Hh. unfold gui_draw_lock_screen. cbn zeta. well_calls; [by apply well_gradient|]. destruct (negb _); well_calls.
  - apply draw_for_well. intros i Hi. well_calls.
  - destruct (negb _); well_calls.
  - unfold gui_draw_pin_pad. apply draw_for_well. intros i Hi. cbn zeta. destruct pin_keys.[i] as [|c k] eqn:E; well_calls.
    apply closed_ends. rewrite <- E. assert (H : Forall (fun l => (length l < 20)%nat) pin_keys) by (by vm_compute; repeat constructor; lia).
    pose proof (Forall_aget _ _ i H ltac:(exact Hi)). cbn beta in *. lia.
Qed.

Lemma home_screen_well F s : (300 <= F)%nat -> u32 (gfb_height s - SB_HEIGHT - NB_HEIGHT) <> 1 -> Forall draws_well (gui_draw_home_screen F s).
Proof.
  intros HF Hh. unfold gui_draw_home_screen. cbn zeta. well_calls; [by apply well_gradient|]. apply draw_for_well. intros i Hi. unfold ICON_SIZE. well_calls.
  apply name_ends; [lia|]. by apply quick_app_range.
Qed.

Lemma launcher_well F s : (300 <= F)%nat -> 0 <= app_count s -> Forall draws_well (gui_draw_app_launcher F s).
Proof.
  intros HF Ha. unfold gui_draw_app_launcher. cbn zeta. well_calls. apply draw_for_well. intros i Hi. unfold ICON_SIZE.
  assert (Hi16 : 0 <= i < 16) by (revert Hi; unfold apps_to_show, NUM_BUILTIN_APPS; destruct (Z.ltb_spec (app_count s) 16); lia).
  well_calls. pose proof (name_ends F i ltac:(lia) Hi16) as He. destruct (text_width_ends F (name_text i) 1 He) as [tw ->]. by apply well_text.
Qed.

(** The formats of the status bar and of the panel. *)
Lemma count_ends F n : (300 <= F)%nat -> exists t, format1 F 4 "%u" n = Some t /\ ends F (text t).
Proof.
  intros HF. eapply (format1_ends F 4 "%u" n [Conv false false [] false 117]); [lia| |done|by repeat constructor|reflexivity|cbn; lia|lia].
  repeat split; try done; try (by constructor); cbn; lia.
Qed.

Lemma age_ends F age : (300 <= F)%nat -> exists t, age_text F age = Some t /\ ends F (text t).
Proof.
  intros HF. unfold age_text.
  assert (H : forall fmt c n, chars fmt = 37 :: 117 :: c :: chars " ago" -> c <> 0 -> c <> 37 -> exists t, format1 F 16 fmt n = Some t /\ ends F (text t)).
  { intros fmt c n Hc H0 H37. eapply (format1_ends F 16 fmt n (Conv false false [] false 117 :: Lit c :: map Lit (chars " ago")));
      [lia| |by rewrite Hc|rewrite Hc; by repeat constructor|reflexivity|rewrite Hc; cbn; lia|lia].
    cbn. repeat split; try done; try (by constructor); cbn; lia. }
  destruct (_ <? 60); [by apply (H _ 115)|]. destruct (_ <? 3600); [by apply (H _ 109)|by apply (H _ 104)].
Qed.

Lemma status_bar_well F s : (300 <= F)%nat -> 0 <= gfb_width s <= 2 ^ 26 -> Forall draws_well (gui_draw_status_bar F s).
Proof.
  intros HF Hw. unfold gui_draw_status_bar. cbn zeta. well_calls.
  - apply draw_for_well. intros i Hi. well_calls.
  - apply well_battery; [lia|]. rewrite (s32_small (gfb_width s)), s32_id by lia. lia.
  - destruct (0 <? _); well_calls. destruct (count_ends F (notif_count s) HF) as (t & -> & He). by apply well_center.
Qed.

Lemma nav_bar_well F s : (300 <= F)%nat -> Forall draws_well (gui_draw_nav_bar F s).
Proof. intros HF. unfold gui_draw_nav_bar. cbn zeta. well_calls. Qed.

Lemma notif_at w h s i : gui_ok w h s -> 0 <= i < 16 -> notif_strings (notif_buffer s).[i].
Proof. intros Hok Hi. apply (Forall_aget _ _ _ (go_notif_strings w h s Hok)). rewrite (proj1 (go_notifs w h s Hok)). lia. Qed.

Lemma panel_well F now w h s : (300 <= F)%nat -> gui_ok w h s -> Forall draws_well (gui_draw_notification_panel F now s).
Proof.
  intros HF Hok. unfold gui_draw_notification_panel. cbn zeta. well_calls. destruct (_ =? 0); well_calls.
  apply draw_for_well. intros i Hi. destruct (notif_at w h s i Hok ltac:(lia)) as (H1 & H2 & H3). well_calls.
  - apply (string_array_ends F 127); [done|lia].
  - apply (string_array_ends F 255); [done|lia].
  - destruct (age_ends F (u32 (now - nt_timestamp (notif_buffer s).[i])) HF) as (t & -> & He). intros ctx Hctx.
    change (exists ctx', gfx_draw_text_right F ctx (text t) (s32 (u32 (gfb_width s - 60))) (SB_HEIGHT + 100 + i * 84 + 8) 1 C_DKGRAY 1 = Some ctx' /\ drawn ctx ctx').
    unfold gfx_draw_text_right. destruct (text_width_ends F (text t) 1 He) as [tw ->]. by apply well_text.
Qed.

Lemma badge_well F w h s : (300 <= F)%nat -> gui_ok w h s -> Forall draws_well (gui_draw_notification_badge F s).
Proof.
  intros HF Hok. unfold gui_draw_notification_badge. destruct (Z.eqb_spec (notif_count s) 0); [well_calls|]. cbn zeta.
  destruct (go_notifs w h s Hok) as [_ Hc]. destruct (notif_at w h s (notif_count s - 1) Hok ltac:(lia)) as (H1 & H2 & H3). well_calls.
  - apply (string_array_ends F 31); [done|lia].
  - apply (string_array_ends F 255); [done|lia].
Qed.

Lemma power_menu_well F s : (300 <= F)%nat -> Forall draws_well (gui_draw_power_menu F s).
Proof. intros HF. unfold gui_draw_power_menu. cbn zeta. well_calls. Qed.

Lemma recent_apps_well F w h s : (300 <= F)%nat -> gui_ok w h s -> Forall draws_well (gui_draw_recent_apps F s).
Proof.
  intros HF Hok. unfold gui_draw_recent_apps. cbn zeta. well_calls. destruct (_ =? 0); well_calls.
  apply Forall_concat. apply Forall_forall. intros l (k & f & -> & Hk)%elem_of_lookup_imap_1.
  assert (Hf : string_array 63 (sf_title f)).
  { apply list_elem_of_lookup_2 in Hk. unfold cards in Hk. apply list_elem_of_filter in Hk as [_ Hk]. apply list_elem_of_In, in_map_iff in Hk as (i & <- & Hi).
    apply list_elem_of_In, elem_of_seqZ in Hi. destruct (go_surfaces w h s Hok) as [Hl Hc]. apply (Forall_aget _ _ _ (go_titles w h s Hok)). lia. }
  cbn zeta. well_calls. apply (string_array_ends F 63); [done|lia].
Qed.

Lemma frame_well F now w h s : (300 <= F)%nat -> gui_ok w h s -> 256 <= w <= 2 ^ 26 -> 256 <= h <= 2 ^ 26 -> Forall draws_well (frame_calls F now s).
Proof.
  intros HF Hok Hw Hh. assert (Ew := go_width w h s Hok). assert (Eh := go_height w h s Hok). unfold frame_calls. cbn zeta. well_calls.
  - destruct (_ =? VIEW_LOCK); [apply lock_screen_well; [done|lia]|]. destruct (_ =? VIEW_HOME).
    { apply home_screen_well; [done|]. rewrite Eh. unfold SB_HEIGHT, NB_HEIGHT. rewrite u32_id by lia. lia. }
    destruct (_ =? VIEW_LAUNCHER); [apply launcher_well; [done|]; destruct (go_apps w h s Hok); lia|].
    destruct (_ =? VIEW_NOTIFICATIONS); [by apply (panel_well F now w h)|]. destruct (_ =? VIEW_RECENT); [by apply (recent_apps_well F w h)|].
    destruct (_ =? VIEW_POWER); [by apply power_menu_well|well_calls].
  - destruct (negb _); well_calls; [apply status_bar_well; [done|lia]|by apply nav_bar_well].
  - destruct (_ && _); well_calls. by apply (badge_well F w h).
Qed.

(** * Lemmas: the compositor stays well formed *)

Ltac keep_ok := intros [? ? ? ? ? ? ? ? ? ? ? ? ? ?]; constructor; rec_simpl; try done.

Lemma pad_keys_same s s' l : pin_len s' = pin_len s -> pin_buffer s' = pin_buffer s -> pad_keys s l -> pad_keys s' l.
Proof. intros E1 E2 []. constructor; rewrite ?E1, ?E2; done. Qed.

Lemma pad_keys_nil s : zlen (pin_buffer s) = 16 -> pin_len s = 0 -> pad_keys s [].
Proof. intros Hb Hl. constructor; [done|done|done| |constructor]. intros k Hk. change (zlen []) with 0 in Hk. lia. Qed.

Lemma shift_entries_strings s i n : zlen (notif_buffer s) = 16 -> 0 <= i -> n <= 15 -> Forall notif_strings (notif_buffer s) ->
  let s' := for_range i n (fun j s => mod_notif s j (fun _ => (notif_buffer s).[j + 1])) s in
  s' = s <| notif_buffer := notif_buffer s' |> /\ zlen (notif_buffer s') = 16 /\ Forall notif_strings (notif_buffer s').
Proof.
  intros Hl Hi Hn Hs. cbn zeta. remember (for_range i n _ s) as s1 eqn:Es1. symmetry in Es1. apply shift_entries in Es1 as (E & Hl1 & Hb); [|lia..].
  split; [exact E|]. split; [done|]. apply Forall_lookup. intros k x Hk. assert (Hlt : (k < 16)%nat) by (apply lookup_lt_Some in Hk; unfold zlen in Hl1; lia).
  assert (x = (notif_buffer s1).[Z.of_nat k]) as -> by (unfold aget; rewrite Nat2Z.id; by rewrite (list_lookup_total_correct _ _ _ Hk)).
  rewrite Hb by lia. destruct (Z.leb_spec i (Z.of_nat k)), (Z.ltb_spec (Z.of_nat k) n); cbn [andb]; apply (Forall_aget _ _ _ Hs); lia.
Qed.

Lemma room_ok w h s : gui_ok w h s -> gui_ok w h (make_room s) /\ notif_count (make_room s) < 16.
Proof.
  intros Hok. destruct (go_notifs w h s Hok) as [Hl Hc]. destruct (shown_room s (conj Hl Hc)) as (Hn & Hlt & _). split; [|done].
  unfold make_room in *. change GUI_NOTIFICATION_MAX with 16 in *. destruct (Z.leb_spec 16 (notif_count s)) as [Hfull|Hfull]; [|done].
  change (16 - 1) with 15 in *. destruct (shift_entries_strings s 0 15 Hl ltac:(lia) ltac:(lia) (go_notif_strings w h s Hok)) as (E & Hl1 & Hs).
  cbn zeta in E, Hl1, Hs. clear Hlt. revert Hn E Hl1 Hs. generalize (for_range 0 15 (fun j s => mod_notif s j (fun _ => (notif_buffer s).[j + 1])) s).
  intros s1 Hn E Hl1 Hs. revert Hok. generalize dependent (notif_buffer s1). intros b -> _ Hb.
  keep_ok. destruct go_pad0 as [l Hp]. exists l. by apply (pad_keys_same s).
Qed.

Lemma push_ok w h s f : gui_ok w h s -> notif_count s < 16 -> (forall n, notif_strings n -> notif_strings (f n)) -> gui_ok w h (push_notif s f).
Proof.
  intros Hok Hlt Hf. destruct (go_notifs w h s Hok) as [Hl Hc]. destruct (shown_push s f (conj Hl Hc) Hlt) as [Hn _].
  assert (Hs : Forall notif_strings (notif_buffer (push_notif s f))).
  { unfold push_notif, mod_notif. rec_simpl. apply Forall_aset; [exact (go_notif_strings w h s Hok)|]. apply Hf.
    pose proof (notif_at w h s (notif_count s) Hok ltac:(lia)) as (H1 & H2 & H3). by split. }
  revert Hok. keep_ok. destruct go_pad0 as [l Hp]. exists l. by apply (pad_keys_same s).
Qed.

Lemma notice_strings now app title msg level n : notif_strings n -> notif_strings (notice now app title msg level n).
Proof. intros (H1 & H2 & H3). split; [|split]; by apply copy_opt_array. Qed.

Lemma notify_ok w h s now app title msg level : gui_ok w h s -> gui_ok w h (gui_notify s now app title msg level).
Proof. intros Hok. destruct (room_ok w h s Hok) as [H1 H2]. apply push_ok; [done|done|]. apply notice_strings. Qed.

Lemma add_notification_ok w h s title msg color : gui_ok w h s -> gui_ok w h (gui_add_notification s title msg color).
Proof.
  intros Hok. unfold gui_add_notification. destruct (Z.leb_spec GUI_NOTIFICATION_MAX (notif_count s)) as [|Hlt]; [done|].
  apply push_ok; [done|done|]. intros n (H1 & H2 & H3). split; [done|]. by split; apply copy_text_array.
Qed.

Lemma clear_ok w h s id : gui_ok w h s -> gui_ok w h (gui_notify_clear s id).
Proof.
  intros Hok. destruct (go_notifs w h s Hok) as [Hl Hc]. destruct (shown_clear s id (conj Hl Hc)) as [Hn _]. unfold gui_notify_clear in *.
  destruct (find_from _ _ 0) as [i|] eqn:E; [|done]. apply find_from_Some in E as (Hi & _ & _).
  destruct (shift_entries_strings s i (notif_count s - 1) Hl ltac:(lia) ltac:(lia) (go_notif_strings w h s Hok)) as (Es & Hl1 & Hs).
  cbn zeta in Es, Hl1, Hs. revert Hn Es Hl1 Hs. generalize (for_range i (notif_count s - 1) (fun j s => mod_notif s j (fun _ => (notif_buffer s).[j + 1])) s).
  intros s1 Hn Es Hl1 Hs. revert Hok Hn. generalize dependent (notif_buffer s1). intros b -> _ Hb Hok Hn. revert Hok. keep_ok.
  destruct go_pad0 as [l Hp]. exists l. by apply (pad_keys_same s).
Qed.

Lemma mod_surface_ok w h s i f : gui_ok w h s -> 0 <= i < GUI_MAX_SURFACES -> (forall g, string_array 63 (sf_title g) -> string_array 63 (sf_title (f g))) ->
  gui_ok w h (mod_surface s i f).
Proof.
  unfold mod_surface. intros Hok Hi Hf. revert Hok. keep_ok.
  - by rewrite zlen_aset.
  - apply Forall_aset; [done|]. apply Hf. apply (Forall_aget _ _ _ go_titles0). lia.
  - destruct go_pad0 as [l Hp]. exists l. by apply (pad_keys_same s).
Qed.

Lemma mem_ok w h s m : gui_ok w h s -> gui_ok w h (s <| gui_mem := m |>).
Proof. keep_ok. destruct go_pad0 as [l Hp]. exists l. by apply (pad_keys_same s). Qed.

Lemma count_ok w h s n : gui_ok w h s -> 0 <= n <= GUI_MAX_SURFACES -> gui_ok w h (s <| surface_count := n |>).
Proof. intros Hok Hn. revert Hok. keep_ok; [by destruct go_surfaces0|]. destruct go_pad0 as [l Hp]. exists l. by apply (pad_keys_same s). Qed.

Definition surf_valid (surf : option Z) : Prop := match surf with Some i => 0 <= i < GUI_MAX_SURFACES | None => True end.

Lemma create_ok w h s sw sh type owner title s' r : gui_ok w h s ->
  gui_create_surface s sw sh type owner title = Some (s', r) -> gui_ok w h s' /\ surf_valid r.
Proof.
  intros Hok. unfold gui_create_surface. destruct (Z.leb_spec GUI_MAX_SURFACES (surface_count s)) as [|Hlt]; [by intros [= <- <-]|]. cbn zeta.
  destruct (nm_kmalloc _ _) as [[m p]|]; [|done]. cbv [mbind option_bind]. intros [= <- <-]. destruct (go_surfaces w h s Hok) as [Hl Hc].
  split; [|by cbn; lia]. apply count_ok; [|lia]. apply mod_surface_ok; [|lia|done]. apply mem_ok. apply mod_surface_ok; [done|lia|].
  intros g _. rec_simpl. apply copy_opt_array. apply (zero_array 63).
Qed.

Lemma free_fb_ok w h s i : gui_ok w h s -> gui_ok w h (free_fb s i).
Proof. intros Hok. unfold free_fb. destruct (negb _); [by apply mem_ok|done]. Qed.

Lemma destroy_ok w h s surf : gui_ok w h s -> surf_valid surf -> gui_ok w h (gui_destroy_surface s surf).
Proof. intros Hok. destruct surf as [i|]; [|done]. cbn. intros Hi. apply mod_surface_ok; [by apply free_fb_ok|done|done]. Qed.

Lemma resize_ok w h s surf sw sh s' : gui_ok w h s -> surf_valid surf -> gui_resize_surface s surf sw sh = Some s' -> gui_ok w h s'.
Proof.
  intros Hok. destruct surf as [i|]; [|by intros _ [= <-]]. cbn [surf_valid]. intros Hi. unfold gui_resize_surface. cbn zeta.
  destruct (nm_kmalloc _ _) as [[m p]|]; [|done]. cbv [mbind option_bind]. intros [= <-]. apply mod_surface_ok; [|done|done]. apply mem_ok.
  apply mod_surface_ok; [by apply free_fb_ok|done|done].
Qed.

Lemma launch_ok fuel w h s package s' : gui_ok w h s -> gui_launch_app fuel s package = Some s' -> gui_ok w h s'.
Proof.
  intros Hok. unfold gui_launch_app. destruct (find_app _ _ _ _ _) as [[i|]|]; cbv [mbind option_bind]; [|by intros [= <-]|done].
  destruct (gui_create_surface _ _ _ _ _ _) as [[s1 r]|] eqn:E; [|done]. destruct (create_ok w h _ _ _ _ _ _ _ _ Hok E) as [H1 Hr].
  destruct r as [j|]; [|by intros [= <-]]. cbn zeta. destruct (_ && _); [done|]. intros [= <-]. apply mem_ok. by apply mod_surface_ok.
Qed.

Lemma register_ok w h s name package icon color : gui_ok w h s -> gui_ok w h (fst (gui_register_app s name package icon color)).
Proof.
  intros Hok. unfold gui_register_app. destruct (Z.leb_spec GUI_MAX_APPS (app_count s)) as [|Hlt]; [done|]. cbn [fst]. revert Hok. keep_ok.
  - destruct go_apps0. split; [by rewrite zlen_aset|lia].
  - apply Forall_aset; [done|]. rec_simpl. destruct (Forall_aget _ _ (app_count s) go_app_strings0) as [H1 H2]; [lia|]. by split; apply copy_opt_array.
  - destruct go_pad0 as [l Hp]. exists l. by apply (pad_keys_same s).
Qed.

Lemma kill_ok w h s pid : gui_ok w h s -> gui_ok w h (gui_kill_app s pid).
Proof.
  intros Hok. unfold gui_kill_app. destruct (find_from _ _ 0) as [i|] eqn:E; [|done]. apply find_from_Some in E as (Hi & _ & _). revert Hok. keep_ok.
  - by rewrite zlen_aset.
  - apply Forall_aset; [done|]. rec_simpl. apply (Forall_aget _ _ i go_app_strings0). lia.
  - destruct go_pad0 as [l Hp]. exists l. by apply (pad_keys_same s).
Qed.

(** What a touch can change. *)
Definition view_ok (v : Z) : Prop := v <> VIEW_RECENT /\ 0 <= v <= VIEW_POWER.

Lemma set_view_ok w h s v : gui_ok w h s -> view_ok v -> gui_ok w h (s <| current_view := v |>).
Proof. intros Hok Hv. revert Hok. keep_ok. destruct go_pad0 as [l Hp]. exists l. by apply (pad_keys_same s). Qed.
Lemma set_prev_ok w h s v : gui_ok w h s -> gui_ok w h (s <| prev_view := v |>).
Proof. keep_ok. destruct go_pad0 as [l Hp]. exists l. by apply (pad_keys_same s). Qed.
Lemma clear_all_ok w h s : gui_ok w h s -> gui_ok w h (gui_notify_clear_all s).
Proof. unfold gui_notify_clear_all. keep_ok. - destruct go_notifs0. split; [done|rec_simpl; lia]. - destruct go_pad0 as [l Hp]. exists l. by apply (pad_keys_same s). Qed.
Lemma log_ok w h s e : gui_ok w h s -> (forall i, e <> QuickApp i) -> gui_ok w h (log_event s e).
Proof.
  unfold log_event. intros Hok He. revert Hok. keep_ok.
  - destruct go_pad0 as [l Hp]. exists l. by apply (pad_keys_same s).
  - intros i [H|H]%elem_of_app; [by apply (go_log0 i)|]. apply list_elem_of_singleton in H. by apply (He i).
Qed.

Lemma press_ok w h s i s' : gui_ok w h s -> current_view s = VIEW_LOCK -> 0 <= i < 12 -> check_pin (press_key s i) = Some s' -> gui_ok w h s'.
Proof.
  intros Hok Hv Hi E. destruct (go_pad w h s Hok) as [l Hl]. destruct (go_pin w h s Hok) as [He Hp].
  destruct (press_pad s l i (conj Hv Hl) Hi Hp) as (s1 & E1 & _ & _ & H). rewrite E in E1. apply (inj Some) in E1. subst s1.
  assert (Hpad : exists l, pad_keys s' l) by (destruct (pad_press _ _ _) as [l'|]; [exists l'|exists []]; apply H).
  assert (Hf : s' = s <| pin_buffer := pin_buffer s' |> <| pin_len := pin_len s' |> <| pin_failed := pin_failed s' |> <| lock_screen := lock_screen s' |>
    <| current_view := current_view s' |> /\ view_ok (current_view s')).
  { clear H Hpad. assert (V2 : view_ok VIEW_LOCK) by (split; [done|unfold VIEW_LOCK, VIEW_POWER; lia]). assert (V0 : view_ok VIEW_HOME) by (split; [done|unfold VIEW_HOME, VIEW_POWER; lia]).
    clear Hok Hl He Hp. destruct s. cbn [current_view] in Hv. subst. revert E. unfold check_pin, press_key. cbv [mbind option_bind].
    repeat match goal with |- context [if ?b then _ else _] => destruct b end;
      try destruct (atoi _ _ _); try done; repeat match goal with |- context [if ?b then _ else _] => destruct b end;
      intros [= <-]; (split; [reflexivity|done]). }
  destruct Hf as [Ef Hv']. clear E H Hl. revert Hok Hpad Hv'. generalize dependent (current_view s'). generalize dependent (lock_screen s').
  generalize dependent (pin_failed s'). generalize dependent (pin_len s'). generalize dependent (pin_buffer s').
  intros b n f ls v -> Hok Hpad' Hv'. revert Hok. keep_ok.
Qed.

(** The views reachable by touch. *)
Ltac in_view := split; [done|unfold VIEW_HOME, VIEW_LAUNCHER, VIEW_LOCK, VIEW_NOTIFICATIONS, VIEW_POWER; lia].
Lemma home_ok : view_ok VIEW_HOME. Proof. in_view. Qed.
Lemma launcher_ok : view_ok VIEW_LAUNCHER. Proof. in_view. Qed.
Lemma panel_ok : view_ok VIEW_NOTIFICATIONS. Proof. in_view. Qed.
Lemma power_ok : view_ok VIEW_POWER. Proof. in_view. Qed.
Lemma lock_ok : view_ok VIEW_LOCK. Proof. in_view. Qed.

Lemma home_touch_ok w h s ev : gui_ok w h s -> 256 <= h <= 2 ^ 26 -> gui_ok w h (handle_home_touch s ev).
Proof.
  intros Hok Hh. unfold handle_home_touch. rewrite (go_height w h s Hok). unfold NB_HEIGHT. destruct (negb _); [done|].
  rewrite u32_id by lia. destruct (Z.ltb_spec (h - 56 - 200) (te_y ev)) as [|Hy].
  { apply set_view_ok; [by apply set_prev_ok|apply launcher_ok]. }
  rewrite (s32_small h), s32_id, u32_id by lia. destruct (Z.leb_spec (h - 56 - 160) (te_y ev)); [lia|done].
Qed.

Lemma launcher_touch_ok w h s ev : gui_ok w h s -> gui_ok w h (handle_launcher_touch s ev).
Proof. intros Hok. unfold handle_launcher_touch. destruct (negb _); [done|]. destruct (find_from _ _ _); [by apply log_ok|done]. Qed.

Lemma notification_touch_ok w h s ev : gui_ok w h s -> gui_ok w h (handle_notification_touch s ev).
Proof.
  intros Hok. unfold handle_notification_touch. destruct (negb _); [done|]. cbn zeta. destruct (_ && _).
  - apply set_view_ok; [by apply clear_all_ok|apply home_ok].
  - destruct (_ || _); [|done]. apply set_view_ok; [done|apply home_ok].
Qed.

Lemma power_touch_ok w h s ev : gui_ok w h s -> gui_ok w h (handle_power_touch s ev).
Proof.
  intros Hok. unfold handle_power_touch. destruct (negb _); [done|]. cbn zeta. destruct (_ && _ && _); [by apply log_ok|].
  destruct (_ && _ && _); [by apply log_ok|]. apply set_view_ok; [done|apply home_ok].
Qed.

Lemma touch_ok w h s ev s' : gui_ok w h s -> 256 <= h <= 2 ^ 26 -> gui_handle_touch s (Some ev) = Some s' -> gui_ok w h s'.
Proof.
  intros Hok Hh. unfold gui_handle_touch. destruct (Z.eqb_spec (current_view s) VIEW_LOCK) as [Hv|_].
  - unfold handle_pin_touch. assert (Hother : forall b : bool, Some (if b then log_event s EmergencyDial else s) = Some s' -> gui_ok w h s').
    { intros b [= <-]. destruct b; [by apply log_ok|done]. }
    destruct (te_event ev =? EVENT_DOWN); cbn [negb andb]; cbv [mbind option_bind]; [|apply (Hother false)].
    destruct (find_from _ _ _) as [i|] eqn:E.
    + apply find_from_Some in E as (Hi & _ & _). destruct (check_pin _) as [s1|] eqn:E1; [|done]. intros [= <-]. apply (press_ok w h s i); [done|done|lia|done].
    + destruct (_ && _); [apply (Hother true)|apply (Hother false)].
  - rewrite (go_height w h s Hok). unfold NB_HEIGHT. rewrite (u32_id (h - 56 - 40)), (u32_id (h - 56)) by lia.
    destruct (_ && (te_y ev <? SB_HEIGHT)); [intros [= <-]; apply set_view_ok; [done|apply panel_ok]|].
    destruct (te_event ev =? EVENT_DOWN); cbn [andb]; [destruct (Z.ltb_spec (h - 56 - 40) (te_y ev)) as [Hy|Hy]; cbn [andb]|].
    + intros [= <-]. destruct (_ || _); [|done]. apply set_view_ok; [done|apply home_ok].
    + destruct (Z.ltb_spec (h - 56) (te_y ev)); [lia|]. intros [= <-].
      destruct (_ =? _); [by apply home_touch_ok|]. destruct (_ =? _); [by apply launcher_touch_ok|].
      destruct (_ =? _); [by apply notification_touch_ok|]. destruct (_ =? _); [by apply power_touch_ok|done].
    + intros [= <-]. destruct (_ =? _); [by apply home_touch_ok|]. destruct (_ =? _); [by apply launcher_touch_ok|].
      destruct (_ =? _); [by apply notification_touch_ok|]. destruct (_ =? _); [by apply power_touch_ok|done].
Qed.

Lemma lock_screen_ok w h s : gui_ok w h s -> gui_ok w h (gui_lock s).
Proof. unfold gui_lock. keep_ok. exists []. by apply pad_keys_nil. Qed.
Lemma unlock_ok w h s pin : gui_ok w h s -> gui_ok w h (gui_unlock s pin).
Proof.
  intros Hok. unfold gui_unlock. destruct (_ || _); [|done]. revert Hok. keep_ok.
  destruct go_pad0 as [l []]. exists []. by apply pad_keys_nil.
Qed.
Lemma set_pin_ok w h s pin : gui_ok w h s -> 0 <= pin < 2 ^ 32 -> gui_ok w h (gui_set_pin s pin).
Proof. intros Hok Hp. revert Hok. unfold gui_set_pin. keep_ok. destruct go_pad0 as [l Hl]. exists l. by apply (pad_keys_same s). Qed.
Lemma brightness_ok w h s pct : gui_ok w h s -> gui_ok w h (gui_set_brightness s pct).
Proof. unfold gui_set_brightness. keep_ok. destruct go_pad0 as [l Hl]. exists l. by apply (pad_keys_same s). Qed.
Lemma focus_ok w h s surf : gui_ok w h s -> gui_ok w h (gui_focus_surface s surf).
Proof. destruct surf; [|done]. unfold gui_focus_surface. keep_ok. destruct go_pad0 as [l Hl]. exists l. by apply (pad_keys_same s). Qed.
Lemma power_menu_ok w h s : gui_ok w h s -> gui_ok w h (gui_show_power_menu s).
Proof. intros Hok. apply set_view_ok; [by apply set_prev_ok|apply power_ok]. Qed.

Lemma drawn_gui_ok w h s ctx : gui_ok w h s -> drawn (g_fb_ctx s) ctx -> gui_ok w h (s <| g_fb_ctx := ctx |>).
Proof.
  intros Hok Hd. assert (Hf : frame_ok ctx) by (eapply drawn_ok; [done|apply (go_frame w h s Hok)]).
  assert (Hw : width ctx = w /\ height ctx = h) by (destruct Hd as [[px ->] _]; exact (go_ctx w h s Hok)).
  revert Hok. keep_ok. destruct go_pad0 as [l Hl]. exists l. by apply (pad_keys_same s).
Qed.

(** * Initialisation *)

Lemma register_builtin w h s i : gui_ok w h s ->
  gui_ok w h (fst (gui_register_app s (Some app_names.[i]) (Some app_packages.[i]) None app_colors.[i])).
Proof. apply register_ok. Qed.

(** All arrays cleared, the screen locked. *)
Lemma fresh_ok m w h p a px : 256 <= w <= 2 ^ 26 -> 256 <= h <= 2 ^ 26 -> w * h <= 2 ^ 31 ->
  gui_ok w h (mk_gui w h a (replicate (Z.to_nat GUI_MAX_SURFACES) surface_zero) 0 None (replicate (Z.to_nat GUI_MAX_APPS) app_zero) 0 1 1 100
    (mk_ctx a px w h p 0 0 w h BLEND_ALPHA) VIEW_LOCK VIEW_HOME (replicate 16 0) 0 1234 0
    (replicate (Z.to_nat GUI_NOTIFICATION_MAX) notification_zero) 0 1 m 0 []).
Proof.
  intros Hw Hh Hs. constructor; cbn [gfb_width gfb_height g_fb_ctx surfaces surface_count apps app_count pin_enabled pin_target current_view gui_log notif_buffer].
  - done.
  - done.
  - constructor; cbn [width height clip_x clip_y clip_x2 clip_y2]; lia.
  - done.
  - split; cbn [notif_buffer notif_count]; [by rewrite zlen_replicate|lia].
  - apply Forall_replicate. split; [|split]; [apply (zero_array 31)|apply (zero_array 127)|apply (zero_array 255)].
  - rewrite zlen_replicate. unfold GUI_MAX_SURFACES. lia.
  - apply Forall_replicate. apply (zero_array 63).
  - rewrite zlen_replicate. unfold GUI_MAX_APPS. lia.
  - apply Forall_replicate. split; [apply (zero_array 63)|apply (zero_array 127)].
  - exists []. by apply pad_keys_nil.
  - lia.
  - intros i Hi. by apply elem_of_nil in Hi.
  - apply lock_ok.
Qed.

Lemma init_ok m w h p a px : 256 <= w <= 2 ^ 26 -> 256 <= h <= 2 ^ 26 -> w * h <= 2 ^ 31 -> gui_ok w h (gui_init (gui_boot m) w h p a px).
Proof.
  intros Hw Hh Hs. unfold gui_init. cbn zeta.
  set (s0 := (gui_boot m) <| surfaces := _ |> <| surface_count := _ |> <| focused := _ |> <| apps := _ |> <| app_count := _ |>
             <| gfb_width := _ |> <| gfb_height := _ |> <| brightness := _ |> <| lock_screen := _ |> <| pin_enabled := _ |>
             <| g_fb_ctx := _ |> <| framebuffer := _ |>).
  assert (H0 : gui_ok w h s0).
  { change s0 with (mk_gui w h a (replicate (Z.to_nat GUI_MAX_SURFACES) surface_zero) 0 None (replicate (Z.to_nat GUI_MAX_APPS) app_zero) 0 1 1 100
      (mk_ctx a px w h p 0 0 w h BLEND_ALPHA) VIEW_LOCK VIEW_HOME (replicate 16 0) 0 1234 0
      (replicate (Z.to_nat GUI_NOTIFICATION_MAX) notification_zero) 0 1 m 0 []). by apply fresh_ok. }
  clearbody s0. clear m p a px.
  assert (H1 : gui_ok w h (for_range 0 NUM_BUILTIN_APPS (fun i s =>
    fst (gui_register_app s (Some app_names.[i]) (Some app_packages.[i]) None app_colors.[i])) s0)).
  { apply for_range_ind; [|done]. intros i s _. apply register_ok. }
  revert H1. generalize (for_range 0 NUM_BUILTIN_APPS (fun i s =>
    fst (gui_register_app s (Some app_names.[i]) (Some app_packages.[i]) None app_colors.[i])) s0). clear s0 H0. intros s H1.
  assert (Hp : pin_enabled s =? 0 = false) by (by rewrite (proj1 (go_pin w h s H1))).
  rewrite Hp. cbn [negb]. set (s2 := _ <| pin_buffer := _ |>).
  assert (H2 : gui_ok w h s2) by (unfold s2; revert H1; clear; keep_ok; exists []; by apply pad_keys_nil). clearbody s2.
  assert (Hc : frame_ok (display_clear (g_fb_ctx s2) C_BLOODMOON_BG) /\ width (display_clear (g_fb_ctx s2) C_BLOODMOON_BG) = w /\
    height (display_clear (g_fb_ctx s2) C_BLOODMOON_BG) = h).
  { unfold display_clear. apply (for_range_ind (fun c => frame_ok c /\ width c = w /\ height c = h)).
    - intros i c _ (Hc & E1 & E2). split; [|done]. by destruct Hc.
    - split; [apply (go_frame w h s2 H2)|apply (go_ctx w h s2 H2)]. }
  revert Hc. generalize (display_clear (g_fb_ctx s2) C_BLOODMOON_BG). intros c [Hf Hwh]. revert H2. clear -Hf Hwh. keep_ok.
  destruct go_pad0 as [l Hl]. exists l. by apply (pad_keys_same s2).
Qed.

(** * Runs *)

(** One call of the compositor, with [F] characters for the strings.  A surface is one
    of the array. *)
Inductive gui_step (F : nat) : gui -> gui -> Prop :=
| step_touch s ev s' : gui_handle_touch s ev = Some s' -> gui_step F s s'
| step_render s now s' : gui_render_frame F now s = Some s' -> gui_step F s s'
| step_notify s now app title msg level : gui_step F s (gui_notify s now app title msg level)
| step_add s title msg color : gui_step F s (gui_add_notification s title msg color)
| step_clear s id : gui_step F s (gui_notify_clear s id)
| step_clear_all s : gui_step F s (gui_notify_clear_all s)
| step_lock s : gui_step F s (gui_lock s)
| step_unlock s pin : gui_step F s (gui_unlock s pin)
| step_set_pin s pin : 0 <= pin < 2 ^ 32 -> gui_step F s (gui_set_pin s pin)
| step_brightness s pct : gui_step F s (gui_set_brightness s pct)
| step_power s : gui_step F s (gui_show_power_menu s)
| step_create s w h type owner title s' r : gui_create_surface s w h type owner title = Some (s', r) -> gui_step F s s'
| step_destroy s surf : surf_valid surf -> gui_step F s (gui_destroy_surface s surf)
| step_show s surf : surf_valid surf -> gui_step F s (gui_show_surface s surf)
| step_hide s surf : surf_valid surf -> gui_step F s (gui_hide_surface s surf)
| step_focus s surf : gui_step F s (gui_focus_surface s surf)
| step_move s surf x y : surf_valid surf -> gui_step F s (gui_move_surface s surf x y)
| step_resize s surf w h s' : surf_valid surf -> gui_resize_surface s surf w h = Some s' -> gui_step F s s'
| step_register s name package icon color : gui_step F s (fst (gui_register_app s name package icon color))
| step_launch s package s' : gui_launch_app F s package = Some s' -> gui_step F s s'
| step_kill s pid : gui_step F s (gui_kill_app s pid).

(** The states of a run over a display of [w] by [h] pixels, its frame buffer at [a]. *)
Inductive gui_reachable (F : nat) (m : M) (w h p a : Z) (px : Z -> Z) : gui -> Prop :=
| gui_starts : gui_reachable F m w h p a px (gui_init (gui_boot m) w h p a px)
| gui_goes_on s s' : gui_reachable F m w h p a px s -> gui_step F s s' -> gui_reachable F m w h p a px s'.

(** The displays considered. *)
Definition display_size (w h : Z) : Prop := 256 <= w <= 2 ^ 26 /\ 256 <= h <= 2 ^ 26 /\ w * h <= 2 ^ 31.

Lemma render_drawn F now w h s : (300 <= F)%nat -> gui_ok w h s -> display_size w h ->
  exists ctx, gui_render_frame F now s = Some (s <| g_fb_ctx := ctx |>) /\ drawn (g_fb_ctx s) ctx.
Proof.
  intros HF Hok (Hw & Hh & _). unfold gui_render_frame.
  destruct (draw_all_well (frame_calls F now s) (g_fb_ctx s)) as (ctx & E & Hd); [by apply (frame_well F now w h)|apply (go_frame w h s Hok)|].
  exists ctx. rewrite E. done.
Qed.

Lemma step_ok F w h s s' : (300 <= F)%nat -> display_size w h -> gui_ok w h s -> gui_step F s s' -> gui_ok w h s'.
Proof.
  intros HF Hd Hok Hs. destruct Hd as (Hw & Hh & Hwh).
  destruct Hs as [s ev s' E|s now s' E|s now app title msg level|s title msg color|s id|s|s|s pin|s pin Hp|s pct|s|s sw sh ty ow ti s' r E
    |s surf Hv|s surf Hv|s surf Hv|s surf|s surf x y Hv|s surf sw sh s' Hv E|s name pk ic col|s pk s' E|s pid].
  - destruct ev as [ev|]; [by eapply touch_ok|]. by apply (inj Some) in E as <-.
  - destruct (render_drawn F now w h s) as (ctx & E' & Hd); [done..|]. rewrite E' in E. apply (inj Some) in E as <-. by apply drawn_gui_ok.
  - by apply notify_ok.
  - by apply add_notification_ok.
  - by apply clear_ok.
  - by apply clear_all_ok.
  - by apply lock_screen_ok.
  - by apply unlock_ok.
  - by apply set_pin_ok.
  - by apply brightness_ok.
  - by apply power_menu_ok.
  - by apply (create_ok w h) in E as [? _].
  - by apply destroy_ok.
  - destruct surf; [by apply mod_surface_ok|done].
  - destruct surf; [by apply mod_surface_ok|done].
  - by apply focus_ok.
  - destruct surf; [by apply mod_surface_ok|done].
  - by eapply resize_ok.
  - by apply register_ok.
  - by eapply launch_ok.
  - by apply kill_ok.
Qed.

Lemma reachable_ok F m w h p a px s : (300 <= F)%nat -> display_size w h -> gui_reachable F m w h p a px s -> gui_ok w h s.
Proof. intros HF Hd. induction 1; [by apply init_ok; apply Hd|by eapply step_ok]. Qed.

(** * The lock *)

Lemma push_view s f : current_view (push_notif s f) = current_view s.
Proof. done. Qed.
Lemma shift_view s i n : current_view (for_range i n (fun j s => mod_notif s j (fun _ => (notif_buffer s).[j + 1])) s) = current_view s.
Proof. apply (for_range_ind (fun s' => current_view s' = current_view s)); [|done]. intros k s1 _ H. exact H. Qed.
Lemma count_view s n : current_view (s <| notif_count := n |>) = current_view s.
Proof. done. Qed.
Lemma room_view s : current_view (make_room s) = current_view s.
Proof. unfold make_room. destruct (_ <=? _); [|done]. cbn zeta. rewrite count_view. apply shift_view. Qed.
Lemma clear_view s id : current_view (gui_notify_clear s id) = current_view s.
Proof. unfold gui_notify_clear. destruct (find_from _ _ _) as [i|]; [|done]. cbn zeta. rewrite count_view. apply shift_view. Qed.
Lemma free_view s i : current_view (free_fb s i) = current_view s.
Proof. unfold free_fb. by destruct (negb _). Qed.
Lemma create_view s w h type owner title s' r : gui_create_surface s w h type owner title = Some (s', r) -> current_view s' = current_view s.
Proof.
  unfold gui_create_surface. destruct (_ <=? _); [by intros [= <- <-]|]. cbn zeta. destruct (nm_kmalloc _ _) as [[m p]|]; [|done].
  cbv [mbind option_bind]. by intros [= <- <-].
Qed.
Lemma resize_view s surf w h s' : gui_resize_surface s surf w h = Some s' -> current_view s' = current_view s.
Proof.
  destruct surf as [i|]; [|by intros [= <-]]. unfold gui_resize_surface. cbn zeta. destruct (nm_kmalloc _ _) as [[m p]|]; [|done].
  cbv [mbind option_bind]. intros [= <-]. exact (free_view s i).
Qed.
Lemma launch_view fuel s package s' : gui_launch_app fuel s package = Some s' -> current_view s' = current_view s.
Proof.
  unfold gui_launch_app. destruct (find_app _ _ _ _ _) as [[i|]|]; cbv [mbind option_bind]; [|by intros [= <-]|done].
  destruct (gui_create_surface _ _ _ _ _ _) as [[s1 r]|] eqn:E; [|done]. apply create_view in E. destruct r; [|by intros [= <-]].
  cbn zeta. destruct (_ && _); [done|]. by intros [= <-].
Qed.

(** The key that completes the PIN. *)
Definition unlocks (s : gui) (ev : touch_event) : Prop :=
  exists l i, pad_keys s l /\ zlen l = 3 /\ pressed (gfb_width s) ev = Some i /\ i < 10 /\ pad_value 0 (l ++ [i + 1]) = pin_target s.

Lemma pad_press_none pin l i : pad_press pin l i = None -> zlen l = 3 /\ i < 10 /\ pad_value 0 (l ++ [i + 1]) = pin.
Proof.
  unfold pad_press. destruct (i =? 11); [done|]. destruct (Z.ltb_spec i 10); [|done]. rewrite zlen_app, zlen_cons. change (zlen []) with 0.
  destruct (Z.eqb_spec (zlen l + (1 + 0)) 4); [|done]. destruct (Z.eqb_spec (pad_value 0 (l ++ [i + 1])) pin); [|done]. intros _. lia.
Qed.

Lemma lock_touch w h s ev s' : gui_ok w h s -> current_view s = VIEW_LOCK -> gui_handle_touch s (Some ev) = Some s' -> current_view s' <> VIEW_LOCK ->
  unlocks s ev.
Proof.
  intros Hok Hv E Hl. destruct (go_pad w h s Hok) as [l Hp]. destruct (touch_pad s l ev (conj Hv Hp)) as (s1 & E1 & _ & H); [apply (go_pin w h s Hok)|].
  rewrite E in E1. apply (inj Some) in E1 as <-. unfold pad_touch in H. destruct (pressed (gfb_width s) ev) as [i|] eqn:Ei.
  - destruct (pad_press (pin_target s) l i) as [l'|] eqn:Epp; [by destruct H as [[? _] _]|]. apply pad_press_none in Epp as (H3 & H10 & Hval).
    by exists l, i.
  - by destruct H as [[? _] _].
Qed.

Lemma lock_step F w h s s' : (300 <= F)%nat -> display_size w h -> gui_ok w h s -> gui_step F s s' -> current_view s = VIEW_LOCK -> current_view s' <> VIEW_LOCK ->
  (exists ev, unlocks s ev /\ gui_handle_touch s (Some ev) = Some s') \/ s' = gui_unlock s (pin_target s) \/ s' = gui_show_power_menu s.
Proof.
  intros HF Hd Hok Hs.
  destruct Hs as [s ev s' E|s now s' E|s now app title msg level|s title msg color|s id|s|s|s pin|s pin Hp|s pct|s|s sw sh ty ow ti s' r E
    |s surf Hv|s surf Hv|s surf Hv|s surf|s surf x y Hv|s surf sw sh s' Hv E|s name pk ic col|s pk s' E|s pid]; intros Hl Hn.
  - destruct ev as [ev|]; [|by apply (inj Some) in E as <-]. left. exists ev. split; [|done]. by eapply lock_touch.
  - destruct (render_drawn F now w h s) as (ctx & E' & _); [done..|]. rewrite E' in E. apply (inj Some) in E as <-. done.
  - destruct Hn. unfold gui_notify. by rewrite push_view, room_view.
  - destruct Hn. unfold gui_add_notification. by destruct (_ <=? _).
  - destruct Hn. by rewrite clear_view.
  - done.
  - done.
  - right; left. unfold gui_unlock in *. destruct (go_pin w h s Hok) as [He _]. rewrite He in *. cbn [Z.eqb orb] in *. rewrite Z.eqb_refl.
    destruct (pin =? pin_target s); [done|]. done.
  - done.
  - done.
  - by right; right.
  - apply create_view in E. congruence.
  - destruct Hn. destruct surf as [i|]; [|done]. rewrite <- Hl. exact (free_view s i).
  - destruct surf; done.
  - destruct surf; done.
  - destruct surf; done.
  - destruct surf; done.
  - apply resize_view in E. congruence.
  - destruct Hn. unfold gui_register_app. by destruct (_ <=? _).
  - apply launch_view in E. congruence.
  - destruct Hn. unfold gui_kill_app. by destruct (find_from _ _ _).
Qed.

(** A touch in the middle of a key of the pad. *)
Definition key_touch (w d : Z) : touch_event := mk_touch (key_x w (d - 1) + 45) (key_y (d - 1) + 36) EVENT_DOWN.

Lemma key_touch_hits w d : 1 <= d <= 9 -> 304 <= w <= 2 ^ 26 -> pressed w (key_touch w d) = Some (d - 1).
Proof.
  intros Hd Hw. unfold pressed. change (te_event (key_touch w d) =? EVENT_DOWN) with true. cbv iota.
  assert (Hx : forall i, 0 <= i < 12 -> key_x w i = w / 2 - 151 + i mod 3 * 106).
  { intros i Hi. unfold key_x. rewrite (s32_small (w / 2)), s32_id by lia. lia. }
  assert (Hh : forall i, 0 <= i < 12 -> key_hit w (key_touch w d) i = (i =? d - 1)).
  { intros i Hi. unfold key_hit, key_touch. cbn [te_x te_y]. rewrite !Hx by lia. unfold key_y.
    assert (0 <= i mod 3 < 3 /\ 0 <= (d - 1) mod 3 < 3 /\ 0 <= i / 3 < 4 /\ 0 <= (d - 1) / 3 < 3) by lia.
    rewrite !(u32_id (w / 2 - 151 + _)), !(u32_id (w / 2 - 151 + _ + 90)), !(u32_id (700 + _)), !(u32_id (700 + _ + 72)) by lia.
    destruct (Z.eqb_spec i (d - 1)) as [->|Hne].
    - repeat (apply andb_true_iff; split); first [apply Z.leb_le|apply Z.ltb_lt]; lia.
    - apply not_true_iff_false. rewrite !andb_true_iff, !Z.leb_le, !Z.ltb_lt. intros H'. apply Hne.
      assert (i mod 3 = (d - 1) mod 3) by lia. assert (i / 3 = (d - 1) / 3) by lia.
      rewrite (Z.div_mod i 3), (Z.div_mod (d - 1) 3) by lia. congruence. }
  destruct (find_from _ 12 0) as [j|] eqn:E.
  - apply find_from_Some in E as (Hj & Hk & _). rewrite Hh in Hk by lia. apply Z.eqb_eq in Hk. by f_equal.
  - pose proof (proj1 (find_from_None _ _ _) E (d - 1) ltac:(lia)) as Hk. rewrite Hh in Hk by lia. by rewrite Z.eqb_refl in Hk.
Qed.

(** Typing a PIN of four digits from 1 to 9. *)
Lemma typing_opens w l : Forall (fun d => 1 <= d <= 9) l -> zlen l = 4 -> 304 <= w <= 2 ^ 26 ->
  pad_run w (pad_value 0 l) [] (map (key_touch w) l) = None.
Proof.
  intros Hl Hlen Hw. destruct l as [|a [|b [|c [|d [|]]]]]; unfold zlen in Hlen; cbn in Hlen; try lia. clear Hlen.
  repeat (apply Forall_cons in Hl as [? Hl]). cbn [map].
  assert (Hp : forall pin l x, 1 <= x <= 9 -> pad_touch w pin l (key_touch w x) =
    (if zlen (l ++ [x]) =? 4 then if pad_value 0 (l ++ [x]) =? pin then None else Some [] else Some (l ++ [x]))).
  { intros pin l x Hx. unfold pad_touch. rewrite key_touch_hits by done. unfold pad_press.
    destruct (Z.eqb_spec (x - 1) 11), (Z.ltb_spec (x - 1) 10); try lia. by replace (x - 1 + 1) with x by lia. }
  generalize (eq_refl (pad_value 0 [a; b; c; d])). generalize (pad_value 0 [a; b; c; d]) at 1 3. intros pin Hpin.
  cbn [pad_run]. rewrite Hp by done. cbn [app]. change (zlen [a] =? 4) with false. cbv iota. cbv [mbind option_bind]. rewrite Hp by done. cbn [app].
  change (zlen [a; b] =? 4) with false. cbv iota. rewrite Hp by done. cbn [app]. change (zlen [a; b; c] =? 4) with false. cbv iota.
  rewrite Hp by done. cbn [app]. change (zlen [a; b; c; d] =? 4) with true. cbv iota. by rewrite Hpin, Z.eqb_refl.
Qed.

Lemma touches_pad s l evs : pad_ok s l -> 0 <= pin_target s < 2 ^ 32 ->
  match pad_run (gfb_width s) (pin_target s) l evs with
  | Some l' => exists s', gui_touches s evs = Some s' /\ pad_ok s' l' /\ lock_screen s' = lock_screen s
  | None => exists before after s', evs = before ++ after /\ pad_run (gfb_width s) (pin_target s) l before = None /\
      gui_touches s before = Some s' /\ current_view s' = VIEW_HOME /\ lock_screen s' = 0
  end.
Proof.
  revert s l. induction evs as [|ev evs IH]; intros s l Hok Hp; cbn [pad_run gui_touches]; [by exists s|].
  destruct (touch_pad s l ev Hok Hp) as (s1 & E & Ew & H). destruct (pad_touch (gfb_width s) (pin_target s) l ev) as [l1|] eqn:El; cbv [mbind option_bind].
  - destruct H as (Hok1 & Et & Els). specialize (IH s1 l1 Hok1). rewrite Ew, Et in IH. specialize (IH Hp). rewrite E.
    destruct (pad_run _ _ l1 evs) as [l'|].
    + destruct IH as (s' & E' & Hok' & E2). exists s'. by rewrite <- Els.
    + destruct IH as (before & after & s' & -> & Er & E' & Hv & Hls). exists (ev :: before), after, s'. cbn [gui_touches pad_run]. by rewrite E, El.
  - destruct H as (Hv & Hls & _). exists [ev], evs, s1. cbn [gui_touches pad_run app]. by rewrite E, El.
Qed.

(** * Theorems *)


(** Nothing opens a locked screen but the right PIN, typed on the pad or given to
    [gui_unlock], and the power menu: in a run over any display of at least 256 by 256
    pixels, a call that leaves the lock view is one of these three. *)
Theorem screen_stays_locked F m w h p a px s s' :
  (300 <= F)%nat -> display_size w h -> gui_reachable F m w h p a px s -> current_view s = VIEW_LOCK ->
  gui_step F s s' -> current_view s' <> VIEW_LOCK ->
  (exists ev, unlocks s ev /\ gui_handle_touch s (Some ev) = Some s') \/ s' = gui_unlock s (pin_target s) \/ s' = gui_show_power_menu s.
Proof. intros HF Hd Hr Hv Hs Hn. apply (lock_step F w h); [done|done|by eapply reachable_ok|done..]. Qed.


(** The notifications refine a bounded queue: [gui_notify] appends the new one, with the
    next id, to the newest 15 of those shown; [gui_notify_clear] takes out the one with
    that id and keeps the order of the others; [gui_notify_clear_all] empties it. *)
Theorem notifications_shown s now app title msg level id :
  notifs_ok s ->
  (exists old, nt_id old = notif_next_id s /\
     shown (gui_notify s now app title msg level) = newest 15 (shown s) ++ [notice now app title msg level old]) /\
  notifs_ok (gui_notify s now app title msg level) /\
  shown (gui_notify_clear s id) = (match list_find (fun n => nt_id n = id) (shown s) with Some (i, _) => delete i (shown s) | None => shown s end) /\
  notifs_ok (gui_notify_clear s id) /\
  shown (gui_notify_clear_all s) = [].
Proof.
  intros Hok. destruct (shown_notify s now app title msg level Hok) as [H1 H2]. destruct (shown_clear s id Hok) as [H3 H4]. done.
Qed.

(** The power menu opens the locked screen: after it, one touch beside its buttons shows
    the home screen, the screen still marked as locked. *)
Theorem power_menu_opens_the_lock w h s :
  gui_ok w h s -> 256 <= h <= 2 ^ 26 ->
  exists s', gui_handle_touch (gui_show_power_menu s) (Some (mk_touch 0 100 EVENT_DOWN)) = Some s' /\
    current_view s' = VIEW_HOME /\ lock_screen s' = lock_screen s.
Proof.
  intros Hok Hh. unfold gui_handle_touch, gui_show_power_menu. rec_simpl. rewrite (go_height w h s Hok). unfold NB_HEIGHT.
  cbn [te_x te_y te_event]. rewrite (u32_id (h - 56 - 40)), (u32_id (h - 56)) by lia.
  change (VIEW_POWER =? VIEW_LOCK) with false. change (EVENT_DOWN =? EVENT_DOWN) with true. change (100 <? SB_HEIGHT) with false. cbn [andb]. cbv iota.
  destruct (Z.ltb_spec (h - 56 - 40) 100), (Z.ltb_spec (h - 56) 100); try lia.
  change (VIEW_POWER =? VIEW_HOME) with false. change (VIEW_POWER =? VIEW_LAUNCHER) with false. change (VIEW_POWER =? VIEW_NOTIFICATIONS) with false.
  change (VIEW_POWER =? VIEW_POWER) with true. cbv iota. eexists. split; [reflexivity|]. unfold handle_power_touch. cbn [te_event te_x te_y].
  change (negb (EVENT_DOWN =? EVENT_DOWN)) with false. cbv iota. cbn zeta. rewrite !andb_false_r. by rewrite !andb_false_l.
Qed.

(** A destroyed surface gives no slot back. *)
Theorem destroyed_slot_is_lost s surf w h type owner title :
  surface_count s = GUI_MAX_SURFACES ->
  exists s', gui_create_surface (gui_destroy_surface s surf) w h type owner title = Some (s', None).
Proof.
  intros E. assert (E2 : surface_count (gui_destroy_surface s surf) = GUI_MAX_SURFACES).
  { rewrite <- E. destruct surf as [i|]; [|done]. unfold gui_destroy_surface, free_fb. by destruct (negb _). }
  unfold gui_create_surface. rewrite E2. by eexists.
Qed.
End gui.

(** * Witnesses *)

(** A display of 320 by 512 pixels, and two screens to try: one locked, and one that is
    locked with three keys typed. *)
Definition demo_run : gui (M := mem * Z) := gui_init (gui_boot (fun _ => 0, 0x10000)) 320 512 1280 0x1000 (fun _ => 0).
Definition demo_lock : gui (M := mem * Z) :=
  (gui_boot (fun _ => 0, 0x10000)) <| gfb_width := 320 |> <| gfb_height := 1280 |> <| pin_enabled := 1 |> <| lock_screen := 1 |>.

Example demo_size : display_size 320 512.
Proof. unfold display_size. lia. Qed.

Lemma demo_locked : pad_ok demo_lock [].
Proof. split; [done|]. by apply pad_keys_nil. Qed.

(** 1234 opens, after a wrong 1235 and a key taken back. *)
Example demo_opens : option_map (fun s => (current_view s, lock_screen s))
  (gui_touches demo_lock (map (key_touch 320) [1; 2; 3; 5; 1; 2; 3] ++ [mk_touch (key_x 320 11) (key_y 11) EVENT_DOWN] ++ map (key_touch 320) [3; 4]))
  = Some (VIEW_HOME, 0).
Proof. vm_compute. reflexivity. Qed.

(** The keys 1, "0", 2, 3, 4 type 1234. *)
Example zero_key_is_ignored : option_map (fun s => (current_view s, lock_screen s))
  (gui_touches demo_lock (key_touch 320 1 :: mk_touch (key_x 320 10) (key_y 10) EVENT_DOWN :: map (key_touch 320) [2; 3; 4])) = Some (VIEW_HOME, 0).
Proof. vm_compute. reflexivity. Qed.

(** With the PIN 12, the keys 1, 2 and the empty place beside "0", twice, open it. *)
Example spacer_types : option_map (fun s => (current_view s, lock_screen s))
  (gui_touches (gui_set_pin demo_lock 12) (map (key_touch 320) [1; 2] ++ replicate 2 (mk_touch (key_x 320 9) (key_y 9) EVENT_DOWN))) = Some (VIEW_HOME, 0).
Proof. vm_compute. reflexivity. Qed.


Lemma relock_opens (s : gui (M := mem * Z)) : current_view (gui_unlock (gui_lock (gui_set_pin s 5678)) 5678) <> VIEW_LOCK.
Proof. change (VIEW_HOME <> VIEW_LOCK). done. Qed.

Lemma lock_view (s : gui (M := mem * Z)) : current_view (gui_lock s) = VIEW_LOCK.
Proof. reflexivity. Qed.

Lemma screen_stays_locked_witness : display_size 320 512 /\ exists s : gui (M := mem * Z),
  current_view s = VIEW_LOCK /\ current_view (gui_unlock s 5678) <> VIEW_LOCK /\
  ((exists ev, unlocks s ev /\ gui_handle_touch s (Some ev) = Some (gui_unlock s 5678)) \/
   gui_unlock s 5678 = gui_unlock s (pin_target s) \/ gui_unlock s 5678 = gui_show_power_menu s).
Proof.
  split; [exact demo_size|]. exists (gui_lock (gui_set_pin demo_run 5678)). split; [apply lock_view|]. split; [apply relock_opens|].
  apply (screen_stays_locked 300 (fun _ => 0, 0x10000) 320 512 1280 0x1000 (fun _ => 0)); [lia|exact demo_size| |apply lock_view|apply step_unlock|apply relock_opens].
  eapply gui_goes_on; [|apply step_lock]. eapply gui_goes_on; [apply gui_starts|]. apply step_set_pin. lia.
Defined.

Lemma demo_reached : gui_reachable 300 (fun _ => 0, 0x10000) 320 512 1280 0x1000 (fun _ => 0) demo_run.
Proof. exact (gui_starts 300 (fun _ => 0, 0x10000) 320 512 1280 0x1000 (fun _ => 0)). Qed.

Lemma enough_fuel : (300 <= 300)%nat.
Proof. lia. Qed.


Lemma notifications_shown_witness : notifs_ok demo_lock /\
  exists old, nt_id old = 1 /\ shown (gui_notify demo_lock 7 None (Some (chars "Hi")) None 3) = [notice 7 None (Some (chars "Hi")) None 3 old].
Proof.
  assert (H : notifs_ok demo_lock) by (split; [done|cbn; lia]). split; [exact H|].
  exact (proj1 (notifications_shown demo_lock 7 None (Some (chars "Hi")) None 3 0 H)).
Defined.

Lemma power_menu_opens_the_lock_witness : gui_ok 320 512 demo_run /\
  exists s', gui_handle_touch (gui_show_power_menu demo_run) (Some (mk_touch 0 100 EVENT_DOWN)) = Some s' /\
    current_view s' = VIEW_HOME /\ lock_screen s' = lock_screen demo_run.
Proof.
  assert (H : gui_ok 320 512 demo_run) by exact (reachable_ok 300 _ 320 512 _ _ _ demo_run enough_fuel demo_size demo_reached).
  split; [exact H|]. apply (power_menu_opens_the_lock 320 512 demo_run H). lia.
Defined.

Lemma destroyed_slot_is_lost_witness : exists s', gui_create_surface (gui_destroy_surface (demo_lock <| surface_count := GUI_MAX_SURFACES |>) (Some 3)) 8 8 1 0 None
  = Some (s', None).
Proof. apply destroyed_slot_is_lost. reflexivity. Defined.
